(* ===== verification/_CoqProject ===== *)
-Q . S2P
Prelude.v
Cstr.v
Serialize.v
Vector.v
Sha2.v
Sha2Spec.v
Ripemd160.v
Script.v
Tx.v
Block.v
SegwitAddr.v
Base58.v
Utils.v
Scalar.v
Prime.v
ScalarInv.v
FieldPrime.v
FieldImpl.v
FieldSpec.v
Group.v
GroupSpec.v
GroupCodec.v
Address.v
Ecc.v
Der.v
Ecdsa.v
TxSign.v
Recovery.v
Bip32.v
HeadersDb.v
LogRec.v
LogDb.v
LogDbSpec.v
Protocol.v
Net.v
NetSafe.v
Chacha.v
Poly1305.v
Aead.v
Aes.v
AesSpec.v
AesCbc.v
Midl.v
MidlSort.v
