(* ===== verification/Prelude.v ===== *)
(** * Verification of the C core of BlockSettleDB

    BlockSettleDB (a fork of Armory) is a Bitcoin full node database and wallet
    server.  Its C++ server and wallets sit on a core written in C, under
    src/cppForSwig: libbtc (byte strings, wire format, hashes, scripts,
    transactions, addresses, header chain), the BIP 151 packet cipher
    (chacha20poly1305) that encrypts the peer connections, and LMDB, the
    key-value store of the block data.  This library models that core as
    executable functions and proves what each part promises to the others.

    ** The parts and the files

    - Prelude.v: machine integers as [Z] truncated at their width ([u8], [u32],
      [u64], [s32], [s64]), bytes, little and big endian images, digits to a
      base, arrays with C indices ([zget], [zset], undefined out of range), the
      type [outcome] of fallible code, the tactics and hint databases.
    - Cstr.v (src/cstr.c, src/memory.c): growable byte strings on cells that may
      be uninitialised, with the allocator as an interface.
    - Serialize.v (src/serialize.c, src/buffer.c): the wire format; writers
      append to a [cstring], readers consume a [const_buffer].
    - Vector.v (src/vector.c): growable pointer arrays with the calls of the
      element destructor as a log.
    - Sha2.v, Sha2Spec.v (src/sha2.c): SHA-256, SHA-512 and HMAC as two
      instances of one parametrised transcription, and FIPS 180-4.
    - Ripemd160.v (src/ripemd160.c): the unrolled code and the table driven
      description.
    - Script.v (src/script.c): parsing, classification and construction of
      scripts.
    - Tx.v (src/tx.c): transactions, their wire format, hashes and signature
      hashes, on top of Serialize, Script and Sha2.
    - Block.v (src/block.c): block headers.
    - SegwitAddr.v (src/segwit_addr.c): Bech32 and segwit addresses.
    - Base58.v (src/base58.c, src/chainparams.c): Base58, Base58Check, addresses
      of hashes.
    - Address.v ([btc_tx_add_address_out] of src/tx.c): from the text of an
      address to an output, through Base58, SegwitAddr, Script and Tx.
    - Utils.v (src/utils.c): hexadecimal text.
    - Scalar.v, ScalarInv.v (secp256k1/src/scalar_4x64_impl.h, scalar_impl.h):
      arithmetic on scalars in four 64 bit limbs and the inverse by an addition
      chain; Prime.v proves that the group order is a prime.
    - FieldPrime.v, FieldImpl.v, FieldSpec.v (field_5x52_impl.h,
      field_5x52_int128_impl.h, field_impl.h): the field of the curve in five limbs
      of 52 bits with deferred carries; its prime, the numbers modulo it as a
      setoid with the [field] tactic, and what the limb code computes.
    - Group.v, GroupSpec.v, GroupCodec.v (group_impl.h, the public keys of
      eckey_impl.h): points in affine and Jacobian coordinates, their additions
      against the chord and tangent law [padd], conversions of many points,
      decoding and the bytes of public keys.
    - Ecc.v (secp256k1/src/secp256k1.c, eckey_impl.h, src/ecc_libsecp256k1.c,
      src/ecc_key.c): keys, over the interface [Curve] to the points of the
      curve, whose laws [CurveLaws] are those of a cyclic group of that order;
      [toy_curve] is an instance.
    - Der.v, Ecdsa.v (secp256k1/src/ecdsa_impl.h and the signature functions):
      the DER form, signing, verifying; Recovery.v (modules/recovery): recovery of
      the public key.
    - TxSign.v ([btc_tx_sign_input] of src/tx.c): signing the inputs of a
      transaction, through Script, Tx, Ecc and Ecdsa.
    - Bip32.v (src/bip32.c): hierarchical keys, through Sha2, Base58 and Ecc.
    - HeadersDb.v (src/headersdb_file.c): the chain of headers, a heap of linked
      nodes with a search tree, a file and the release of old nodes.
    - LogRec.v, LogDb.v, LogDbSpec.v (src/logdb/logdb_rec.c,
      logdb_memdb_llist.c, logdb_core.c): the append-only database of the wallet;
      records are nodes of linked lists on a heap, the map in memory is the
      interface [memmapper], whose laws [memmapper_laws] the linked list
      ([llist_laws]) satisfies and against which the database is proved.
    - Protocol.v (src/protocol.c): the messages of the peer to peer network;
      Net.v, NetSafe.v (src/net.c): nodes, their streams of messages, timers and
      connection events, with libevent's objects as fields of a node.
    - Chacha.v, Poly1305.v, Aead.v (chacha20poly1305/chacha.c, poly1305.c,
      chachapoly_aead.c): the stream cipher, the authenticator, the packets.
    - Aes.v, AesSpec.v (src/ctaes.c): AES in bit slices, gate by gate, and FIPS
      197; AesCbc.v (src/aes256_cbc.c): AES-256 in CBC mode with padding.
    - Midl.v, MidlSort.v (lmdb/libraries/liblmdb/midl.c): the sorted lists of
      page numbers of LMDB and their quicksort.

    A C object is a record, a pointer to a buffer the list of its bytes, an
    output parameter a component of the result.  [None] or [Undef] stands for
    undefined behaviour (an index outside of an array, a read of an uninitialised
    or freed cell) or a failed assertion, so that a theorem that a function
    returns is also one of memory safety; [Fail] and [Some false] are the error
    returns.  Definitions carry the names of the functions they translate; loops
    are [Fixpoint]s, named after what they do.

    ** What the theorems show

    - Byte strings keep their terminator, length and capacity under every
      operation; vectors own their elements, and from [vector_new] to
      [vector_free] every added pointer is released once:
      [cstr_reachable_invariant], [vector_ownership].
    - Wire format: any sequence of fields, transactions with and without
      witnesses and headers are read back: [wire_roundtrip],
      [tx_wire_roundtrip] (and [header_roundtrip]).
    - Hashes equal their published descriptions on every message, in any number
      of pieces: [sha256_streaming], [ripemd160_correct] (and [sha512_streaming],
      [hmac_sha2]).
    - The script parser accepts exactly the encodings of well-formed operations
      that do not end with an empty push, which it refuses; scripts are classified
      as what they are: [script_parse_exact] (and
      [script_classify_exact] and, for what the builders write,
      [script_build_classify], [multisig_build_classify],
      [copy_removes_codeseparators]).
    - Signature hashes are those of the reference: [sighash_legacy], for script
      codes whose pushes the code copies faithfully (see
      [copy_pushdata4_overread], [copy_empty_pushdata] for the others), and
      [sighash_segwit], for the types that sign all outputs (for the others the
      code departs from BIP 143: [sighash_segwit_divergence]).
    - Signatures: the limb code computes in the field of the group order
      ([scalar_field]); what is signed verifies, for any nonce function, and
      signing ends ([ecdsa_sign_verifies], [ecdsa_sign_live]); the DER form is
      exact ([der_exact]); the signer is recovered ([recover_signer]); the
      signature [btc_tx_sign_input] puts into an input that pays to a key hash, a
      witness key hash or the script hash of its own witness program verifies
      against the signature hash of that input ([tx_sign_input_correct]).
    - The curve: limbs never overflow within their magnitudes and compute modulo
      the prime ([field_ops], [field_inverse_sqrt]); every addition in Jacobian
      coordinates, the one with a given inverse of the third coordinate included,
      is the group operation by chord and tangent, in every special case, with the
      right ratio of the third coordinates ([group_add_correct]; batches and tables: [set_all_rep],
      [set_table_rep], [globalz_rep]); public keys are read exactly from the
      encodings of points of the curve ([pubkey_exact]).
    - Hierarchical keys: public derivation follows a private derivation that
      reaches the full depth, texts of nodes are read back: [hd_public_private], [hdnode_roundtrip] (hexadecimal
      text: [hex_roundtrip]).
    - Text encodings are read exactly where the encoders produce them (Base58Check
      on strings over its alphabet), and the substitution of one symbol in a
      Bech32 string is detected: [bech32_detects],
      [segwit_addr_exact], [base58check_exact] (and [bech32_decode_exact],
      [base58_exact]); an address pays to what it was made from:
      [address_pays].
    - The header chain never touches a freed node, whatever headers arrive, and
      survives a restart up to the height at which the code stops reading the
      file: [headers_db_sound], [headers_reload] (and [headers_connect_effect]).
    - The database of the wallet is a map that survives any number of sessions,
      for keys and values below 2^16 bytes, and a torn file loads as what is
      complete in it: [logdb_sessions], [logdb_torn].
    - The network: messages are exchanged faithfully ([p2p_version_exchange]), a
      stream of well-formed messages is reassembled however it is cut
      ([net_reassembly]), and whatever the peers send no event uses a missing or
      freed connection, but for releasing the one that a failed connection attempt
      left dangling ([net_group_safe]).
    - The packet cipher decrypts what it encrypted and nothing that was not
      authenticated: [poly1305_auth_correct], [aead_roundtrip],
      [aead_authentic] (and [chacha_stream]).
    - The bit-sliced AES is the AES of FIPS 197, and CBC mode decrypts what it
      encrypted and accepts exactly well-formed padding: [aes_fips],
      [aes256_cbc_roundtrip], [aes256_cbc_padding].
    - ID lists: the quicksort sorts in place within its fixed stack, searching,
      merging, appending and inserting are exact: [midl_sort_correct],
      [midl_sort_bounds] (and [midl_search_correct], [midl_xmerge_correct],
      [midl_append_correct], [mid2l_insert_correct]).

    Examples at the ends of the files evaluate the model where the code does not
    do what it means to: a decoder whose failure is ignored, reads behind a
    buffer, a dangling pointer after a tip was disconnected.

    ** Fuel and bounds

    Most loops recurse on the list they walk over.  Where a loop is bounded by a
    number, the fuel is computed from it and the theorems prove the result, not
    only its correctness when there is one: [carry_loop] of Base58 has one turn
    for each digit of the buffer, [emit_bits] one for each bit, [scan_headers] the
    [max_hdr_in_mem + 1] turns of the C loop, [sort_loop] of MidlSort [2 n + 2]
    turns.  The loop of [secp256k1_ecdsa_sign] depends on the nonce function: its
    fuel is a parameter, and [ecdsa_sign_live] says which is enough.  Hypotheses
    on lengths keep the integers of the code from wrapping
    where it does not check: strings below 2^30 bytes for [cstr_append_buf],
    messages below 2^61 bytes for SHA-2, heights below 2^32.

    ** What is not modelled, and why

    - Release of memory that has no other effect, wiping of dead local arrays,
      and failure of [malloc] where memory.c ends the process.
    - The multiplication of points (ecmult_impl.h, ecmult_gen_impl.h) and the
      associativity of the group law: keys and signatures are over the interface
      [Curve], a cyclic group, and the additions of group_impl.h are proved to
      compute the group operation.  The 32 bit representations and the assembly.
      The RFC 6979 nonce generator: the nonce function is a parameter of
      signing, and the theorems hold for any.
    - src/wallet.c (bookkeeping on top of LogDb, Bip32 and Tx), the red-black tree
      that may replace the linked list of the database
      (logdb_memdb_rbtree.c, red_black_tree.c), src/random.c, src/netspv.c
      (requests scheduled by the wall clock on top of Net and HeadersDb).
    - lmdb/mdb.c (memory mapped B+ trees), libwebsockets, cryptopp, gtest: pure
      system interaction or third party code.
    - The C++ server: the development is about the C core; the C++ code uses it
      through the functions modelled here. *)

From stdpp Require Export base tactics list numbers option.
From Stdlib Require Export ZArith Lia.

#[global] Set Default Goal Selector "!".
Open Scope Z_scope.

(** ** Machine integers

    A [w]-bit unsigned value is a [Z]; every operation that may wrap is
    followed by the truncation of its type. *)

Definition wrap (w x : Z) : Z := x mod 2 ^ w.
Abbreviation u8 := (wrap 8).
Abbreviation u16 := (wrap 16).
Abbreviation u32 := (wrap 32).
Abbreviation u64 := (wrap 64).

(** Two's complement reading of a [w]-bit pattern. *)
Definition swrap (w x : Z) : Z := (x + 2 ^ (w - 1)) mod 2 ^ w - 2 ^ (w - 1).
Abbreviation s32 := (swrap 32).
Abbreviation s64 := (swrap 64).

Definition is_byte (b : Z) : Prop := 0 <= b < 256.
Definition is_bytes (l : list Z) : Prop := Forall is_byte l.

(** ** Little and big endian images of integers *)

Fixpoint le_bytes (n : nat) (v : Z) : list Z :=
  match n with
  | O => []
  | S n' => v mod 256 :: le_bytes n' (v / 256)
  end.

Fixpoint le_val (l : list Z) : Z :=
  match l with
  | [] => 0
  | b :: l' => b + 256 * le_val l'
  end.

Definition be_bytes (n : nat) (v : Z) : list Z := rev (le_bytes n v).

Definition be_val (l : list Z) : Z := le_val (rev l).

(** ** Arrays indexed by C integers *)

Definition zlen {A} (l : list A) : Z := Z.of_nat (length l).

(** [l[i]], undefined outside of the bounds. *)
Definition zget {A} (l : list A) (i : Z) : option A :=
  if i <? 0 then None else l !! Z.to_nat i.

(** [l[i] = v], undefined outside of the bounds. *)
Definition zset {A} (l : list A) (i : Z) (v : A) : option (list A) :=
  if (0 <=? i) && (i <? zlen l) then Some (<[Z.to_nat i := v]> l) else None.

Definition ztake {A} (n : Z) (l : list A) : list A := take (Z.to_nat n) l.
Definition zdrop {A} (n : Z) (l : list A) : list A := drop (Z.to_nat n) l.

(** [memcpy (l + i, src, |src|)], undefined when it leaves the array. *)
Definition zwrite {A} (l : list A) (i : Z) (src : list A) : option (list A) :=
  if (0 <=? i) && (i + zlen src <=? zlen l)
  then Some (ztake i l ++ src ++ zdrop (i + zlen src) l) else None.

(** ** Outcomes of fallible code

    [Ret] is a normal return, [Fail] the error return of the function (false,
    null, a negative code), [Undef] undefined behaviour or a failed [assert]. *)

Inductive outcome (A : Type) : Type :=
  | Ret (a : A)
  | Fail
  | Undef.
Arguments Ret {A} a.
Arguments Fail {A}.
Arguments Undef {A}.

#[export] Instance outcome_ret : MRet outcome := @Ret.

#[export] Instance outcome_bind : MBind outcome := fun A B f m =>
  match m with
  | Ret a => f a
  | Fail => Fail
  | Undef => Undef
  end.

(** A computation whose only abnormal end is undefined behaviour. *)
Definition total {A} (o : option A) : outcome A :=
  match o with Some a => Ret a | None => Undef end.

(** [assert (b)] and [if (!b) return false]. *)
Definition assert_ (b : bool) : outcome unit := if b then Ret tt else Undef.
Definition require (b : bool) : outcome unit := if b then Ret tt else Fail.

(** [for (x in l) s = f (x, s);] *)
Fixpoint for_each {A S} (f : A -> S -> option S) (l : list A) (s : S) : option S :=
  match l with
  | [] => Some s
  | x :: l' => s1 ← f x s; for_each f l' s1
  end.

(** ** Automation *)

Create HintDb libbtc.
Create Rewrite HintDb libbtc.
Create Rewrite HintDb zlist.

(** Splits the first [if] or [match] on a boolean of the goal or of a
    hypothesis and reflects integer comparisons. *)
Ltac case_bool :=
  match goal with
  | |- context [if ?b then _ else _] => destruct b eqn:?
  | H : context [if ?b then _ else _] |- _ => destruct b eqn:?
  end.

Ltac reflect_bools :=
  repeat match goal with
  | H : (_ && _) = true |- _ => apply andb_true_iff in H; destruct H
  | H : (_ && _) = false |- _ => apply andb_false_iff in H
  | H : (_ || _) = true |- _ => apply orb_true_iff in H
  | H : (_ || _) = false |- _ => apply orb_false_iff in H; destruct H
  | H : negb _ = true |- _ => apply negb_true_iff in H
  | H : negb _ = false |- _ => apply negb_false_iff in H
  | H : (_ <? _) = true |- _ => apply Z.ltb_lt in H
  | H : (_ <? _) = false |- _ => apply Z.ltb_ge in H
  | H : (_ <=? _) = true |- _ => apply Z.leb_le in H
  | H : (_ <=? _) = false |- _ => apply Z.leb_gt in H
  | H : (_ =? _) = true |- _ => apply Z.eqb_eq in H
  | H : (_ =? _) = false |- _ => apply Z.eqb_neq in H
  end.

(** Decides the comparisons that guard the goal when arithmetic settles them. *)
Ltac zif :=
  repeat match goal with
  | |- context [?a <? ?b] =>
      first [ replace (a <? b) with true by (symmetry; apply Z.ltb_lt; lia)
            | replace (a <? b) with false by (symmetry; apply Z.ltb_ge; lia) ]
  | |- context [?a <=? ?b] =>
      first [ replace (a <=? b) with true by (symmetry; apply Z.leb_le; lia)
            | replace (a <=? b) with false by (symmetry; apply Z.leb_gt; lia) ]
  | |- context [?a =? ?b] =>
      first [ replace (a =? b) with true by (symmetry; apply Z.eqb_eq; lia)
            | replace (a =? b) with false by (symmetry; apply Z.eqb_neq; lia) ]
  end; cbn [andb orb negb].

(** Linear arithmetic with division and remainder by constants. *)
Ltac zdm := Z.to_euclidean_division_equations; lia.

(** ** Machine integers: lemmas *)

Lemma wrap_small (w x : Z) : 0 <= x < 2 ^ w -> wrap w x = x.
Proof. intros. unfold wrap. by apply Z.mod_small. Qed.

Lemma wrap_range (w x : Z) : 0 <= w -> 0 <= wrap w x < 2 ^ w.
Proof. intros. unfold wrap. apply Z.mod_pos_bound. lia. Qed.

Lemma wrap_idem (w x : Z) : wrap w (wrap w x) = wrap w x.
Proof. unfold wrap. apply Zmod_mod. Qed.

Lemma wrap_add_l (w x y : Z) : wrap w (wrap w x + y) = wrap w (x + y).
Proof. unfold wrap. apply Zplus_mod_idemp_l. Qed.

Lemma wrap_add_r (w x y : Z) : wrap w (x + wrap w y) = wrap w (x + y).
Proof. unfold wrap. apply Zplus_mod_idemp_r. Qed.

Lemma wrap_mul_l (w x y : Z) : wrap w (wrap w x * y) = wrap w (x * y).
Proof. unfold wrap. apply Zmult_mod_idemp_l. Qed.

Lemma wrap_ones (w x : Z) : 0 <= w -> wrap w x = Z.land x (Z.ones w).
Proof. intros. unfold wrap. by rewrite Z.land_ones. Qed.

Lemma swrap_range (w x : Z) : 0 < w -> - 2 ^ (w - 1) <= swrap w x < 2 ^ (w - 1).
Proof.
  intros. unfold swrap.
  assert (2 ^ w = 2 * 2 ^ (w - 1)) as Hw by (rewrite <- Z.pow_succ_r by lia; f_equal; lia).
  pose proof (Z.mod_pos_bound (x + 2 ^ (w - 1)) (2 ^ w)). lia.
Qed.

(** Reading back a two's complement value from its unsigned image. *)
Lemma swrap_wrap (w x : Z) :
  0 < w -> - 2 ^ (w - 1) <= x < 2 ^ (w - 1) -> swrap w (wrap w x) = x.
Proof.
  intros Hw Hx. unfold swrap, wrap.
  assert (2 ^ w = 2 * 2 ^ (w - 1)) as E by (rewrite <- Z.pow_succ_r by lia; f_equal; lia).
  rewrite Zplus_mod_idemp_l, Z.mod_small by lia. lia.
Qed.

#[export] Hint Rewrite wrap_idem wrap_add_l wrap_add_r wrap_mul_l : libbtc.

(** ** Bytes: lemmas *)

Lemma is_bytes_app (a b : list Z) : is_bytes (a ++ b) <-> is_bytes a /\ is_bytes b.
Proof. apply Forall_app. Qed.

Lemma is_bytes_nil : is_bytes [].
Proof. constructor. Qed.

Lemma is_bytes_cons (b : Z) (l : list Z) : is_byte b -> is_bytes l -> is_bytes (b :: l).
Proof. by constructor. Qed.

Lemma is_bytes_take (n : nat) (l : list Z) : is_bytes l -> is_bytes (take n l).
Proof. apply Forall_take. Qed.

Lemma is_bytes_drop (n : nat) (l : list Z) : is_bytes l -> is_bytes (drop n l).
Proof. apply Forall_drop. Qed.

Lemma is_bytes_replicate (n : nat) (b : Z) : is_byte b -> is_bytes (replicate n b).
Proof. intros. by apply Forall_replicate. Qed.

Lemma is_byte_mod (x : Z) : is_byte (x mod 256).
Proof. apply Z.mod_pos_bound. lia. Qed.

(** Concrete byte strings, by evaluation. *)
Lemma is_bytes_of (l : list Z) : forallb (fun b => (0 <=? b) && (b <? 256)) l = true -> is_bytes l.
Proof.
  intros H. apply list.Forall_forall. intros b Hb. rewrite forallb_forall in H. apply list_elem_of_In, H in Hb.
  unfold is_byte. reflect_bools. done.
Qed.

#[export] Hint Resolve is_bytes_nil is_bytes_cons is_bytes_take is_bytes_drop
  is_bytes_replicate is_byte_mod : libbtc.

Lemma le_bytes_length (n : nat) (v : Z) : length (le_bytes n v) = n.
Proof. revert v. induction n as [|n IH]; intros v; simpl; [done|]. by rewrite IH. Qed.

Lemma le_bytes_is_bytes (n : nat) (v : Z) : is_bytes (le_bytes n v).
Proof. revert v. induction n as [|n IH]; intros v; simpl; auto with libbtc. Qed.

Lemma le_val_bound (l : list Z) : is_bytes l -> 0 <= le_val l < 256 ^ zlen l.
Proof.
  unfold zlen. induction 1 as [|b l Hb Hl IH]; simpl le_val; [done|].
  cbn [length]. rewrite Nat2Z.inj_succ, Z.pow_succ_r by lia. unfold is_byte in Hb. nia.
Qed.

Lemma le_val_bytes (n : nat) (v : Z) : le_val (le_bytes n v) = v mod 256 ^ Z.of_nat n.
Proof.
  revert v. induction n as [|n IH]; intros v; cbn [le_bytes le_val].
  - change (256 ^ Z.of_nat 0) with 1. by rewrite Z.mod_1_r.
  - rewrite IH, Nat2Z.inj_succ, Z.pow_succ_r by lia.
    rewrite Z.rem_mul_r by lia. lia.
Qed.

(** Encoding then decoding an [8 n]-bit value gives it back. *)
Lemma le_val_bytes_small (n : nat) (v : Z) :
  0 <= v < 256 ^ Z.of_nat n -> le_val (le_bytes n v) = v.
Proof. intros. rewrite le_val_bytes. by apply Z.mod_small. Qed.

(** Decoding then encoding [n] bytes gives them back. *)
Lemma le_bytes_val (l : list Z) : is_bytes l -> le_bytes (length l) (le_val l) = l.
Proof.
  induction 1 as [|b l Hb Hl IH]; [done|]. cbn [length le_bytes le_val].
  unfold is_byte in Hb. f_equal.
  - rewrite Z.mul_comm, Z_mod_plus_full, Z.mod_small; lia.
  - rewrite Z.mul_comm, Z.div_add, Z.div_small by lia. done.
Qed.

Lemma le_bytes_mod (n : nat) (v : Z) : le_bytes n (v mod 256 ^ Z.of_nat n) = le_bytes n v.
Proof.
  rewrite <- le_val_bytes. rewrite <- (le_bytes_length n v) at 1.
  apply le_bytes_val, le_bytes_is_bytes.
Qed.

Lemma le_bytes_add (a b : nat) (v : Z) :
  le_bytes (a + b) v = le_bytes a v ++ le_bytes b (v / 256 ^ Z.of_nat a).
Proof.
  revert v. induction a as [|a IH]; intros v; cbn [le_bytes Nat.add app].
  - by rewrite Z.div_1_r.
  - by rewrite IH, Z.div_div, <- Z.pow_succ_r, <- Nat2Z.inj_succ by lia.
Qed.

Lemma le_val_app (a b : list Z) : le_val (a ++ b) = le_val a + 256 ^ zlen a * le_val b.
Proof.
  unfold zlen. induction a as [|x a IH]; simpl app; cbn [le_val length]; [lia|].
  rewrite IH, Nat2Z.inj_succ, Z.pow_succ_r by lia. lia.
Qed.

Lemma le_val_zeros (n : nat) : le_val (replicate n 0) = 0.
Proof. induction n; simpl; lia. Qed.

Lemma be_bytes_length (n : nat) (v : Z) : length (be_bytes n v) = n.
Proof. unfold be_bytes. by rewrite length_rev, le_bytes_length. Qed.

Lemma be_bytes_is_bytes (n : nat) (v : Z) : is_bytes (be_bytes n v).
Proof. unfold be_bytes. apply Forall_rev, le_bytes_is_bytes. Qed.

Lemma be_val_bytes (n : nat) (v : Z) : be_val (be_bytes n v) = v mod 256 ^ Z.of_nat n.
Proof. unfold be_val, be_bytes. by rewrite rev_involutive, le_val_bytes. Qed.

Lemma be_bytes_val (l : list Z) : is_bytes l -> be_bytes (length l) (be_val l) = l.
Proof.
  intros Hb. unfold be_bytes, be_val. rewrite <- (length_rev l), le_bytes_val by (by apply Forall_rev). apply rev_involutive.
Qed.

(** ** Digits to a base, most significant first *)

Definition nval (B : Z) (l : list Z) : Z := fold_left (fun acc v => B * acc + v) l 0.

Lemma nval_snoc (B : Z) (l : list Z) (v : Z) : nval B (l ++ [v]) = B * nval B l + v.
Proof. unfold nval. by rewrite fold_left_app. Qed.

Lemma nval_app (B : Z) (a b : list Z) : nval B (a ++ b) = B ^ Z.of_nat (length b) * nval B a + nval B b.
Proof.
  induction b as [|v b IH] using rev_ind; [rewrite app_nil_r; change (nval B []) with 0; change (Z.of_nat (length [])) with 0; rewrite Z.pow_0_r; lia|].
  rewrite app_assoc, !nval_snoc, IH, length_app. cbn [length].
  replace (Z.of_nat (length b + 1)) with (Z.succ (Z.of_nat (length b))) by lia. rewrite Z.pow_succ_r by lia. lia.
Qed.

Lemma nval_cons (B : Z) (v : Z) (l : list Z) : nval B (v :: l) = B ^ Z.of_nat (length l) * v + nval B l.
Proof. change (v :: l) with ([v] ++ l). rewrite nval_app. do 2 f_equal. unfold nval. cbn [fold_left]. lia. Qed.

Lemma nval_range (B : Z) (l : list Z) :
  0 < B -> Forall (fun v => 0 <= v < B) l -> 0 <= nval B l < B ^ Z.of_nat (length l).
Proof.
  intros HB. induction 1 as [|v l Hv Hl IH]; [done|]. rewrite nval_cons. cbn [length].
  rewrite Nat2Z.inj_succ, Z.pow_succ_r by lia. nia.
Qed.

Lemma nval_inj (B : Z) (a b : list Z) :
  0 < B -> length a = length b -> Forall (fun v => 0 <= v < B) a -> Forall (fun v => 0 <= v < B) b ->
  nval B a = nval B b -> a = b.
Proof.
  intros HB. revert b. induction a as [|x a IH] using rev_ind; intros b Hl Ha Hb E.
  { symmetry in Hl. by apply nil_length_inv in Hl. }
  destruct b as [|y b _] using rev_ind; [rewrite length_app in Hl; cbn in Hl; lia|].
  rewrite !length_app in Hl. cbn in Hl. apply Forall_app in Ha as [Ha Hx], Hb as [Hb Hy].
  apply Forall_inv in Hx, Hy. rewrite !nval_snoc in E.
  assert (nval B a = nval B b /\ x = y) as [E1 ->] by (apply (Z.div_mod_unique B); lia).
  f_equal. apply IH; (done || lia).
Qed.

Lemma nval_zeros (B : Z) (n : nat) (l : list Z) : nval B (replicate n 0 ++ l) = nval B l.
Proof. induction n as [|n IH]; [done|]. cbn [replicate app]. rewrite nval_cons, IH. lia. Qed.

(** A number has one representation without leading zeros. *)
Lemma nval_canonical (B : Z) (a b : list Z) :
  1 < B -> Forall (fun v => 0 <= v < B) a -> Forall (fun v => 0 <= v < B) b ->
  head a <> Some 0 -> head b <> Some 0 -> nval B a = nval B b -> a = b.
Proof.
  intros HB Ha Hb Za Zb E.
  assert (forall l m, Forall (fun v => 0 <= v < B) l -> Forall (fun v => 0 <= v < B) m -> head l <> Some 0 ->
    nval B l = nval B m -> (length l <= length m)%nat) as L.
  { intros l m Hl Hm Zl El. destruct l as [|v l]; [cbn; lia|]. apply list.Forall_cons in Hl as [Hv Hl].
    assert (v <> 0) by (cbn in Zl; congruence). rewrite nval_cons in El.
    pose proof (nval_range B l ltac:(lia) Hl). pose proof (nval_range B m ltac:(lia) Hm) as Rm. cbn [length].
    assert (~ (length m <= length l)%nat); [|lia]. intros Hle.
    assert (B ^ Z.of_nat (length m) <= B ^ Z.of_nat (length l)) by (apply Z.pow_le_mono_r; lia). nia. }
  apply (nval_inj B); [lia| |done|done|done].
  pose proof (L a b Ha Hb Za E). pose proof (L b a Hb Ha Zb (eq_sym E)). lia.
Qed.

Lemma nval_be_val (l : list Z) : nval 256 l = be_val l.
Proof.
  unfold be_val. induction l as [|v l IH] using rev_ind; [done|]. rewrite nval_snoc, IH, rev_app_distr. cbn [rev app le_val]. lia.
Qed.

#[export] Hint Resolve le_bytes_is_bytes be_bytes_is_bytes : libbtc.
#[export] Hint Rewrite le_bytes_length be_bytes_length : zlist.

(** ** Arrays: lemmas *)

Lemma zlen_nil {A} : zlen (@nil A) = 0.
Proof. done. Qed.

Lemma zlen_cons {A} (x : A) (l : list A) : zlen (x :: l) = 1 + zlen l.
Proof. unfold zlen. cbn [length]. lia. Qed.

Lemma zlen_app {A} (a b : list A) : zlen (a ++ b) = zlen a + zlen b.
Proof. unfold zlen. rewrite length_app. lia. Qed.

Lemma zlen_nonneg {A} (l : list A) : 0 <= zlen l.
Proof. unfold zlen. lia. Qed.

Lemma zlen_ztake {A} (n : Z) (l : list A) : zlen (ztake n l) = Z.min (Z.max 0 n) (zlen l).
Proof. unfold zlen, ztake. rewrite length_take. lia. Qed.

Lemma zlen_zdrop {A} (n : Z) (l : list A) : zlen (zdrop n l) = zlen l - Z.min (Z.max 0 n) (zlen l).
Proof. unfold zlen, zdrop. rewrite length_drop. lia. Qed.

Lemma zlen_replicate {A} (n : nat) (x : A) : zlen (replicate n x) = Z.of_nat n.
Proof. unfold zlen. by rewrite length_replicate. Qed.

Lemma zlen_insert {A} (i : nat) (x : A) (l : list A) : zlen (<[i:=x]> l) = zlen l.
Proof. unfold zlen. by rewrite length_insert. Qed.

Lemma zlen_fmap {A B} (f : A -> B) (l : list A) : zlen (f <$> l) = zlen l.
Proof. unfold zlen. by rewrite length_fmap. Qed.

Lemma zlen_le_bytes (n : nat) (v : Z) : zlen (le_bytes n v) = Z.of_nat n.
Proof. unfold zlen. by rewrite le_bytes_length. Qed.

#[export] Hint Rewrite @zlen_nil @zlen_cons @zlen_app @zlen_ztake @zlen_zdrop
  @zlen_replicate @zlen_insert @zlen_fmap zlen_le_bytes : zlist.

(** Adds that the lengths in sight are not negative. *)
Ltac zlen_pos_of l :=
  lazymatch goal with
  | _ : 0 <= zlen l |- _ => fail
  | _ => pose proof (zlen_nonneg l)
  end.
Ltac zlen_pos :=
  repeat match goal with
  | |- context [zlen ?l] => zlen_pos_of l
  | _ : context [zlen ?l] |- _ => zlen_pos_of l
  end.

(** Reduces list lengths and closes the goal by arithmetic. *)
Ltac zlia :=
  repeat match goal with
  | l : list _ |- _ =>
      lazymatch goal with
      | _ : 0 <= zlen l |- _ => fail
      | _ => pose proof (zlen_nonneg l)
      end
  end;
  try (progress autorewrite with zlist in * |-); autorewrite with zlist; first [lia | zlen_pos; lia].

Lemma ztake_app_len {A} (a b : list A) (n : Z) : n = zlen a -> ztake n (a ++ b) = a.
Proof. intros ->. unfold ztake, zlen. rewrite Nat2Z.id. by apply take_app_length. Qed.

Lemma zdrop_app_len {A} (a b : list A) (n : Z) : n = zlen a -> zdrop n (a ++ b) = b.
Proof. intros ->. unfold zdrop, zlen. rewrite Nat2Z.id. by apply drop_app_length. Qed.

Lemma ztake_zdrop {A} (n : Z) (l : list A) : ztake n l ++ zdrop n l = l.
Proof. unfold ztake, zdrop. apply take_drop. Qed.

Lemma ztake_all {A} (n : Z) (l : list A) : zlen l <= n -> ztake n l = l.
Proof. unfold ztake, zlen. intros. apply take_ge. lia. Qed.

Lemma zget_Some {A} (l : list A) (i : Z) (x : A) :
  zget l i = Some x -> 0 <= i < zlen l.
Proof.
  unfold zget, zlen. case_bool; [done|]. reflect_bools.
  intros H%lookup_lt_Some. lia.
Qed.

Lemma zget_is_Some {A} (l : list A) (i : Z) :
  0 <= i < zlen l -> exists x, zget l i = Some x.
Proof.
  unfold zget, zlen. intros. zif.
  destruct (lookup_lt_is_Some_2 l (Z.to_nat i)) as [x Hx]; [lia|]. by exists x.
Qed.

Lemma zset_Some {A} (l : list A) (i : Z) (v : A) :
  0 <= i < zlen l -> zset l i v = Some (<[Z.to_nat i := v]> l).
Proof. unfold zset. intros. by zif. Qed.

Lemma zget_insert_eq {A} (l : list A) (i : Z) (v : A) :
  0 <= i < zlen l -> zget (<[Z.to_nat i := v]> l) i = Some v.
Proof. unfold zget, zlen. intros. zif. apply list_lookup_insert_eq. lia. Qed.

Lemma zget_insert_ne {A} (l : list A) (i j : Z) (v : A) :
  0 <= i -> i <> j -> zget (<[Z.to_nat i := v]> l) j = zget l j.
Proof.
  unfold zget. intros. case_bool; [done|]. reflect_bools.
  apply list_lookup_insert_ne. lia.
Qed.

Lemma zget_app_l {A} (a b : list A) (i : Z) : i < zlen a -> zget (a ++ b) i = zget a i.
Proof.
  unfold zget, zlen. intros. case_bool; [done|]. reflect_bools.
  apply lookup_app_l. lia.
Qed.

Lemma zget_app_r {A} (a b : list A) (i : Z) :
  zlen a <= i -> zget (a ++ b) i = zget b (i - zlen a).
Proof.
  unfold zget, zlen. intros. zif. rewrite lookup_app_r by lia. f_equal. lia.
Qed.

Lemma zget_mid {A} (p : list A) (v : A) (q : list A) : zget (p ++ v :: q) (zlen p) = Some v.
Proof. rewrite zget_app_r by lia. by rewrite Z.sub_diag. Qed.

Lemma zset_mid {A} (p : list A) (v x : A) (q : list A) : zset (p ++ v :: q) (zlen p) x = Some (p ++ x :: q).
Proof.
  rewrite zset_Some by zlia. unfold zlen. rewrite Nat2Z.id. f_equal. rewrite insert_app_r_alt by lia.
  by rewrite Nat.sub_diag.
Qed.

Lemma zget_ztake {A} (l : list A) (i n : Z) : i < n -> zget (ztake n l) i = zget l i.
Proof.
  unfold zget, ztake. intros. case_bool; [done|]. reflect_bools.
  apply lookup_take_lt. lia.
Qed.

Lemma zwrite_Some {A} (l : list A) (i : Z) (src : list A) :
  0 <= i -> i + zlen src <= zlen l ->
  zwrite l i src = Some (ztake i l ++ src ++ zdrop (i + zlen src) l).
Proof. intros. unfold zwrite. by zif. Qed.

(** ** Bits *)

Lemma testbit_wrap (w x i : Z) : 0 <= w -> Z.testbit (wrap w x) i = (i <? w) && Z.testbit x i.
Proof.
  intros. rewrite wrap_ones by done. rewrite Z.land_spec.
  destruct (Z.leb_spec 0 i) as [Hi|Hi].
  - rewrite Z.testbit_ones_nonneg by done. apply andb_comm.
  - rewrite !(Z.testbit_neg_r _ i) by done. by rewrite !andb_false_r.
Qed.

(** The bits of [a + 2^n b] for [a] of [n] bits. *)
Lemma testbit_add_pow2 (n a b i : Z) :
  0 <= n -> 0 <= a < 2 ^ n -> 0 <= i ->
  Z.testbit (a + 2 ^ n * b) i = if i <? n then Z.testbit a i else Z.testbit b (i - n).
Proof.
  intros Hn Ha Hi. destruct (Z.ltb_spec i n) as [H|H].
  - rewrite <- (Z.mod_pow2_bits_low (a + 2 ^ n * b) n) by lia.
    by rewrite Z.mul_comm, Z_mod_plus_full, Z.mod_small.
  - replace i with (i - n + n) at 1 by lia. rewrite <- Z.div_pow2_bits by lia.
    rewrite Z.mul_comm, Z.div_add, Z.div_small by lia. done.
Qed.

(** Disjoint [lor] is an addition. *)
Lemma lor_add_pow2 (n a b : Z) :
  0 <= n -> 0 <= a < 2 ^ n -> Z.lor a (Z.shiftl b n) = a + 2 ^ n * b.
Proof.
  intros Hn Ha. apply Z.bits_inj'. intros i Hi.
  rewrite testbit_add_pow2, Z.lor_spec, Z.shiftl_spec by lia.
  destruct (Z.ltb_spec i n).
  - by rewrite (Z.testbit_neg_r b) by lia; rewrite orb_false_r.
  - rewrite <- (Z.mod_small a (2 ^ n)) by done.
    by rewrite Z.mod_pow2_bits_high by lia.
Qed.

Lemma lxor_add_pow2 (n a b : Z) :
  0 <= n -> 0 <= a < 2 ^ n -> Z.lxor a (Z.shiftl b n) = a + 2 ^ n * b.
Proof.
  intros Hn Ha. apply Z.bits_inj'. intros i Hi.
  rewrite testbit_add_pow2, Z.lxor_spec, Z.shiftl_spec by lia.
  destruct (Z.ltb_spec i n).
  - by rewrite (Z.testbit_neg_r b) by lia; rewrite xorb_false_r.
  - rewrite <- (Z.mod_small a (2 ^ n)) by done.
    by rewrite Z.mod_pow2_bits_high by lia; rewrite xorb_false_l.
Qed.

Lemma le_val_testbit (l : list Z) (i : Z) :
  is_bytes l -> 0 <= i ->
  Z.testbit (le_val l) i = Z.testbit (nth (Z.to_nat (i / 8)) l 0) (i mod 8).
Proof.
  intros Hl. revert i. induction Hl as [|b l Hb Hl IH]; intros i Hi; cbn [le_val].
  - rewrite Z.testbit_0_l. by destruct (Z.to_nat (i / 8)); cbn [nth]; rewrite Z.testbit_0_l.
  - change 256 with (2 ^ 8). rewrite testbit_add_pow2 by (done || lia).
    destruct (Z.ltb_spec i 8).
    + by rewrite Z.div_small, Z.mod_small by lia.
    + rewrite IH by lia. replace (Z.to_nat (i / 8)) with (S (Z.to_nat ((i - 8) / 8))) by zdm.
      cbn [nth]. f_equal. zdm.
Qed.

Lemma lor_range (n a b : Z) : 0 <= n -> 0 <= a < 2 ^ n -> 0 <= b < 2 ^ n -> 0 <= Z.lor a b < 2 ^ n.
Proof.
  intros Hn Ha Hb. rewrite <- (Z.mod_small a (2 ^ n)), <- (Z.mod_small b (2 ^ n)) by done.
  rewrite <- !Z.land_ones, <- Z.land_lor_distr_l, Z.land_ones by done.
  apply Z.mod_pos_bound. lia.
Qed.

Lemma lxor_range (n a b : Z) : 0 <= n -> 0 <= a < 2 ^ n -> 0 <= b < 2 ^ n -> 0 <= Z.lxor a b < 2 ^ n.
Proof.
  intros Hn Ha Hb.
  assert (Z.lxor a b = wrap n (Z.lxor a b)) as ->; [|by apply wrap_range].
  apply Z.bits_inj'. intros i Hi. rewrite testbit_wrap, Z.lxor_spec by done.
  destruct (Z.ltb_spec i n); [done|].
  rewrite <- (Z.mod_small a (2 ^ n)), <- (Z.mod_small b (2 ^ n)) by done.
  by rewrite !Z.mod_pow2_bits_high by lia.
Qed.

Lemma testbit_high (n w i : Z) : 0 <= w < 2 ^ n -> i < 0 \/ n <= i -> Z.testbit w i = false.
Proof.
  intros Hw [Hi|Hi]; [by apply Z.testbit_neg_r|].
  destruct (Z.ltb_spec i 0); [by apply Z.testbit_neg_r|]. destruct (Z.ltb_spec n 0).
  - rewrite Z.pow_neg_r in Hw by done. lia.
  - rewrite <- (Z.mod_small w (2 ^ n)) by done. by apply Z.mod_pow2_bits_high.
Qed.

Lemma shiftr_range (n w k : Z) : 0 <= n -> 0 <= k -> 0 <= w < 2 ^ n -> 0 <= Z.shiftr w k < 2 ^ n.
Proof.
  intros Hn Hk Hw. rewrite Z.shiftr_div_pow2 by done. split; [apply Z.div_pos; lia|].
  apply Z.div_lt_upper_bound; nia.
Qed.

Lemma land_range (n a b : Z) : 0 <= n -> 0 <= a < 2 ^ n -> 0 <= b -> 0 <= Z.land a b < 2 ^ n.
Proof.
  intros Hn Ha Hb. assert (Z.land a b = wrap n (Z.land a b)) as ->; [|by apply wrap_range].
  apply Z.bits_inj'. intros i Hi. rewrite testbit_wrap, Z.land_spec by done.
  destruct (Z.ltb_spec i n); [done|]. by rewrite (testbit_high n a i) by auto.
Qed.

(** Four bytes assembled with shifts are their little endian value. *)
Lemma load32_val (b : list Z) :
  is_bytes b ->
  Z.lor (Z.lor (Z.lor (nth 0 b 0) (Z.shiftl (nth 1 b 0) 8)) (Z.shiftl (nth 2 b 0) 16))
        (Z.shiftl (nth 3 b 0) 24) = le_val (take 4 b).
Proof.
  unfold is_bytes. intros Hb. destruct b as [|b0 [|b1 [|b2 [|b3 b]]]];
    repeat match goal with B : Forall _ (_ :: _) |- _ => apply list.Forall_cons in B as [? B] end;
    unfold is_byte in *; cbn [nth take le_val];
    rewrite (lor_add_pow2 8) by lia; rewrite (lor_add_pow2 16) by lia;
    rewrite (lor_add_pow2 24) by lia; rewrite ?take_0; cbn [le_val]; lia.
Qed.

(** Exclusive or acts byte by byte. *)
Lemma le_bytes_lxor (k : nat) (x y : Z) :
  le_bytes k (Z.lxor x y) = zip_with Z.lxor (le_bytes k x) (le_bytes k y).
Proof.
  revert x y. induction k as [|k IH]; intros x y; [done|]. cbn [le_bytes zip_with]. f_equal.
  - change 256 with (2 ^ 8). rewrite <- !Z.land_ones by lia.
    apply Z.bits_inj'. intros i Hi. rewrite !Z.land_spec, !Z.lxor_spec, !Z.land_spec.
    by destruct (Z.testbit (Z.ones 8) i); rewrite ?andb_true_r, ?andb_false_r.
  - rewrite <- IH. f_equal. change 256 with (2 ^ 8).
    by rewrite <- !Z.shiftr_div_pow2, Z.shiftr_lxor by lia.
Qed.

(** Masks and shifts of the four bytes of a word. *)
Lemma store32_val (v : Z) :
  [v mod 2 ^ 8; Z.shiftr v 8 mod 2 ^ 8; Z.shiftr v 16 mod 2 ^ 8; Z.shiftr v 24 mod 2 ^ 8] = le_bytes 4 v.
Proof. rewrite !Z.shiftr_div_pow2 by lia. cbn [le_bytes]. by rewrite !Z.div_div by lia. Qed.
