(* ===== verification/Cstr.v ===== *)
(** * cstr.c and memory.c: growable byte strings

    [cstring] is the struct of include/btc/cstr.h.  The allocated block is a
    list of cells, [None] being an indeterminate byte (the tail of a block
    after [realloc]).  A null [str] is the empty block with [alloc = 0].
    Every operation is a function in the [option] monad: [None] is undefined
    behaviour (an access outside of the block, a shift that leaves [int]). *)

From S2P Require Import Prelude.

(** ** memory.c *)

(** The mapper installed by [btc_mem_set_mapper], seen through what its
    clients test: does a request for [n] bytes return a block or null? *)
Class mem_mapper := { mem_ok : Z -> bool }.

(** The default mapper terminates the process instead of returning null. *)
#[export] Instance default_mem_mapper : mem_mapper := {| mem_ok _ := true |}.

(** ** Data *)

Record cstring := mk_cstring { str : list (option Z); len : Z; alloc : Z }.

Definition sizeof_cstring : Z := 24.

(** The bytes of the string, without the terminating NUL. *)
Definition cstr_cells (s : cstring) : list (option Z) := ztake (len s) (str s).

(** The string holds exactly the initialised bytes [bs]. *)
Definition cstr_holds (s : cstring) (bs : list Z) : Prop := cstr_cells s = Some <$> bs.

(** The initialised bytes behind a list of cells; [None] if one is indeterminate. *)
Definition cells_val (l : list (option Z)) : option (list Z) := mapM id l.

(** [realloc]: the common prefix is kept, new cells are indeterminate. *)
Definition resize_cells (n : Z) (l : list (option Z)) : list (option Z) :=
  ztake n l ++ replicate (Z.to_nat (n - zlen l)) None.

(** [while ((al_sz = (1 << shift)) < sz) shift++;] a shift by 31 leaves [int]. *)
Fixpoint al_sz_loop (fuel : nat) (shift sz : Z) : option Z :=
  match fuel with
  | O => None
  | S fuel' =>
      let al_sz := Z.shiftl 1 shift in
      if al_sz <? sz then al_sz_loop fuel' (shift + 1) sz else Some al_sz
  end.

(** ** Operations *)

Section Operations.
Context {M : mem_mapper}.

Definition cstr_alloc_min_sz (s : cstring) (sz : Z) : option (Z * cstring) :=
  let sz := u64 (sz + 1) in
  if negb (alloc s =? 0) && (sz <=? alloc s) then Some (1, s) else
  al_sz ← al_sz_loop 28 3 sz;
  if negb (mem_ok al_sz) then Some (0, s) else
  str' ← zset (resize_cells al_sz (str s)) (len s) (Some 0);
  Some (1, mk_cstring str' (len s) al_sz).

Definition cstr_alloc_minsize (s : cstring) (new_sz : Z) : option (Z * cstring) :=
  if new_sz =? len s then Some (1, s) else
  if new_sz <=? len s then Some (0, s) else
  '(r, s1) ← cstr_alloc_min_sz s new_sz;
  if r =? 0 then Some (0, s1) else
  str' ← zset (str s1) (len s1) (Some 0);
  Some (1, mk_cstring str' (len s1) (alloc s1)).

(** The inner [option] is the null pointer. *)
Definition cstr_new_sz (sz : Z) : option (option cstring) :=
  if negb (mem_ok sizeof_cstring) then Some None else
  '(r, s) ← cstr_alloc_min_sz (mk_cstring [] 0 0) sz;
  Some (if r =? 0 then None else Some s).

Definition cstr_new_buf (buf : list (option Z)) : option (option cstring) :=
  o ← cstr_new_sz (zlen buf);
  match o with
  | None => Some None
  | Some s =>
      str1 ← zwrite (str s) 0 buf;
      str2 ← zset str1 (zlen buf) (Some 0);
      Some (Some (mk_cstring str2 (zlen buf) (alloc s)))
  end.

Definition cstr_new_cstr (copy_str : cstring) : option (option cstring) :=
  cstr_new_buf (cstr_cells copy_str).

(** [init_str] is a C string without its NUL, or a null pointer. *)
Definition cstr_new (init_str : option (list Z)) : option (option cstring) :=
  match init_str with
  | None | Some [] => cstr_new_sz 0
  | Some cs => cstr_new_buf (Some <$> cs)
  end.

Definition cstr_resize (s : cstring) (new_sz : Z) : option (Z * cstring) :=
  if new_sz =? len s then Some (1, s) else
  if new_sz <=? len s then
    str' ← zset (str s) new_sz (Some 0);
    Some (1, mk_cstring str' new_sz (alloc s))
  else
  '(r, s1) ← cstr_alloc_min_sz s new_sz;
  if r =? 0 then Some (0, s1) else
  str' ← zset (str s1) new_sz (Some 0);
  Some (1, mk_cstring str' new_sz (alloc s1)).

Definition cstr_append_buf (s : cstring) (buf : list (option Z)) : option (Z * cstring) :=
  '(r, s1) ← cstr_alloc_min_sz s (u64 (len s + zlen buf));
  if r =? 0 then Some (0, s1) else
  str1 ← zwrite (str s1) (len s1) buf;
  let len1 := len s1 + zlen buf in
  str2 ← zset str1 len1 (Some 0);
  Some (1, mk_cstring str2 len1 (alloc s1)).

Definition cstr_append_cstr (s append : cstring) : option (Z * cstring) :=
  cstr_append_buf s (cstr_cells append).

Definition cstr_append_c (s : cstring) (ch : Z) : option (Z * cstring) :=
  cstr_append_buf s [Some ch].

End Operations.

(** [memcmp (a, b, n) == 0] on [n] initialised bytes. *)
Definition memcmp_eq (a b : list (option Z)) : option bool :=
  x ← cells_val a; y ← cells_val b; Some (bool_decide ((x : list Z) = y)).

(** [same] is the pointer comparison [a == b]; [None] is a null pointer. *)
Definition cstr_equal (same : bool) (a b : option cstring) : option Z :=
  if same then Some 1 else
  match a, b with
  | Some a, Some b =>
      if negb (len a =? len b) then Some 0 else
      e ← memcmp_eq (cstr_cells a) (cstr_cells b);
      Some (if (e : bool) then 1 else 0)
  | _, _ => Some 0
  end.

(** The loop of [cstr_compare]; [char] is signed. *)
Fixpoint compare_chars (a b : list Z) : Z :=
  match a, b with
  | x :: a', y :: b' =>
      let a1 := swrap 8 x in
      let b1 := swrap 8 y in
      if b1 <? a1 then 1 else if a1 <? b1 then -1 else compare_chars a' b'
  | _, _ => 0
  end.

Definition cstr_compare (a b : cstring) : option Z :=
  if len b <? len a then Some 1 else
  if len a <? len b then Some (-1) else
  x ← cells_val (cstr_cells a); y ← cells_val (cstr_cells b);
  Some (compare_chars x y).

Definition cstr_erase (s : cstring) (pos elen : Z) : option (Z * cstring) :=
  if (pos =? len s) && (elen =? 0) then Some (1, s) else
  if len s <=? pos then Some (0, s) else
  let old_tail := len s - pos in
  if (0 <=? elen) && (old_tail <? elen) then Some (0, s) else
  if (pos + elen <? 0) || (zlen (str s) <? pos + elen + (old_tail - elen)) then None else
  str1 ← zwrite (str s) pos (ztake (old_tail - elen) (zdrop (pos + elen) (str s)));
  let len1 := len s - elen in
  str2 ← zset str1 len1 (Some 0);
  Some (1, mk_cstring str2 len1 (alloc s)).

(** ** Well-formedness: the block has [alloc] cells, [alloc] is null or a
    power of two, and the cell after the last byte is a NUL. *)

Record cstr_wf (s : cstring) : Prop := mk_cstr_wf {
  wf_block : zlen (str s) = alloc s;
  wf_shape : (alloc s = 0 /\ len s = 0) \/
             ((exists k, 3 <= k <= 30 /\ alloc s = 2 ^ k) /\
              0 <= len s < alloc s /\ zget (str s) (len s) = Some (Some 0)) }.

(** ** Lemmas *)

Lemma al_sz_loop_spec (fuel : nat) (shift sz : Z) :
  0 <= shift -> shift + Z.of_nat fuel = 31 -> (0 < fuel)%nat -> sz <= 2 ^ 30 ->
  exists k, al_sz_loop fuel shift sz = Some (2 ^ k) /\ shift <= k <= 30 /\
    sz <= 2 ^ k /\ (k = shift \/ 2 ^ (k - 1) < sz).
Proof.
  revert shift. induction fuel as [|fuel IH]; intros shift Hs Hf Hp Hsz; [lia|].
  cbn [al_sz_loop]. rewrite Z.shiftl_1_l. destruct (Z.ltb_spec (2 ^ shift) sz) as [Hlt|Hge].
  - assert (fuel <> 0%nat) by (intros ->; replace shift with 30 in Hlt by lia; lia).
    destruct (IH (shift + 1)) as (k & -> & Hk & Hle & Hmin); [lia..|].
    exists k. repeat split; try lia.
    destruct Hmin as [->|?]; [|by right].
    right. by replace (shift + 1 - 1) with shift by lia.
  - exists shift. repeat split; try lia.
Qed.

Lemma resize_cells_zlen (n : Z) (l : list (option Z)) :
  0 <= n -> zlen (resize_cells n l) = n.
Proof. intros. unfold resize_cells. zlia. Qed.

Lemma resize_cells_prefix (n k : Z) (l : list (option Z)) :
  k <= zlen l -> zlen l <= n -> ztake k (resize_cells n l) = ztake k l.
Proof.
  intros. unfold resize_cells. rewrite (ztake_all n) by lia.
  unfold ztake, zlen in *. rewrite take_app_le by lia. done.
Qed.

Lemma ztake_insert_ge {A} (l : list A) (i k : Z) (x : A) :
  0 <= k <= i -> ztake k (<[Z.to_nat i := x]> l) = ztake k l.
Proof. intros. unfold ztake. apply take_insert_ge. lia. Qed.

Lemma cstr_wf_len (s : cstring) : cstr_wf s -> 0 <= len s <= alloc s.
Proof. intros [? [[]|(?&?&?)]]; lia. Qed.

Lemma cstr_cells_zlen (s : cstring) : cstr_wf s -> zlen (cstr_cells s) = len s.
Proof.
  intros H. pose proof (cstr_wf_len s H). destruct H as [Hb _].
  unfold cstr_cells. rewrite zlen_ztake. lia.
Qed.

Lemma cstr_holds_len (s : cstring) (bs : list Z) :
  cstr_wf s -> cstr_holds s bs -> len s = zlen bs.
Proof. intros H Hh. rewrite <- (cstr_cells_zlen s H), Hh. apply zlen_fmap. Qed.

Lemma cells_val_fmap (bs : list Z) : cells_val (Some <$> bs) = Some bs.
Proof. unfold cells_val. induction bs as [|b bs IH]; [done|]. cbn. by rewrite IH. Qed.

(** Storing a NUL at the new length and keeping the block size re-establishes
    the invariant. *)
Lemma cstr_wf_intro (l : list (option Z)) (n a k : Z) :
  zlen l = a -> 3 <= k <= 30 -> a = 2 ^ k -> 0 <= n < a ->
  cstr_wf (mk_cstring (<[Z.to_nat n := Some 0]> l) n a).
Proof.
  intros Hl Hk Ha Hn. constructor; cbn [str len alloc].
  - by rewrite zlen_insert.
  - right. split_and!; [by exists k|lia|lia|]. apply zget_insert_eq. lia.
Qed.

Section Specs.
Context {M : mem_mapper}.

(** What a successful reservation of [sz] bytes establishes. *)
Definition reserved (s s' : cstring) (sz : Z) : Prop :=
  cstr_wf s' /\ cstr_cells s' = cstr_cells s /\ len s' = len s /\ sz < alloc s' /\
  (alloc s' = alloc s \/ alloc s' = 8 \/ alloc s' < 2 * (sz + 1)).

Lemma cstr_alloc_min_sz_spec (s : cstring) (sz : Z) :
  cstr_wf s -> len s <= sz -> sz < 2 ^ 30 ->
  exists s', (cstr_alloc_min_sz s sz = Some (1, s') /\ reserved s s' sz) \/
             (cstr_alloc_min_sz s sz = Some (0, s) /\ exists n, mem_ok n = false).
Proof.
  intros Hwf Hlen Hsz. pose proof (cstr_wf_len s Hwf).
  unfold cstr_alloc_min_sz. rewrite (wrap_small 64) by lia. cbv zeta.
  destruct (negb (alloc s =? 0) && (sz + 1 <=? alloc s)) eqn:E; reflect_bools.
  { exists s. left. split; [done|]. split_and!; try done; lia. }
  destruct (al_sz_loop_spec 28 3 (sz + 1)) as (k & -> & Hk & Hle & Hmin); [lia..|].
  cbn [mbind option_bind]. destruct (mem_ok (2 ^ k)) eqn:Hok; cbn [negb]; [|exists s; right; by eauto].
  assert (alloc s <= 2 ^ k) as Hgrow.
  { destruct E as [E|E]; reflect_bools; [rewrite E; lia|lia]. }
  destruct Hwf as [Hblock _].
  rewrite zset_Some by (rewrite resize_cells_zlen; lia).
  eexists. left. split; [done|].
  split_and!; cbn [len alloc]; try lia.
  - eapply cstr_wf_intro; eauto; [apply resize_cells_zlen|]; lia.
  - unfold cstr_cells; cbn [str len]. rewrite ztake_insert_ge by lia.
    apply resize_cells_prefix; lia.
  - destruct Hmin as [->|Hmin]; [by right; left|]. right; right.
    replace (2 ^ k) with (2 * 2 ^ (k - 1)) by (rewrite <- Z.pow_succ_r by lia; f_equal; lia).
    lia.
Qed.

Lemma reserved_shape (s s' : cstring) (sz : Z) :
  reserved s s' sz -> 0 <= sz ->
  exists k, 3 <= k <= 30 /\ alloc s' = 2 ^ k /\ zlen (str s') = alloc s'.
Proof.
  intros ([Hb [[]|((k & ? & ?) & _)]] & _ & _ & ? & _) ?; [lia|]. by exists k.
Qed.

(** The whole effect of an append: the bytes are concatenated, the invariant
    is kept, and the block at most doubles the need; or the mapper refused and
    nothing changed. *)
Lemma cstr_append_buf_correct (s : cstring) (buf : list (option Z)) :
  cstr_wf s -> len s + zlen buf < 2 ^ 30 ->
  exists s', (cstr_append_buf s buf = Some (1, s') /\ cstr_wf s' /\
              cstr_cells s' = cstr_cells s ++ buf /\ len s' = len s + zlen buf /\
              (alloc s' = alloc s \/ alloc s' = 8 \/ alloc s' < 2 * (len s' + 1))) \/
             (cstr_append_buf s buf = Some (0, s) /\ exists n, mem_ok n = false).
Proof.
  intros Hwf Hsz. pose proof (cstr_wf_len s Hwf). pose proof (zlen_nonneg buf).
  unfold cstr_append_buf. rewrite (wrap_small 64) by lia.
  destruct (cstr_alloc_min_sz_spec s (len s + zlen buf)) as [s1 [[-> Hr]|[-> ?]]];
    [done|lia|lia| |by exists s; right].
  cbn [mbind option_bind]. zif.
  destruct (reserved_shape _ _ _ Hr) as (k & Hk & Hal & Hblk); [lia|].
  destruct Hr as (_ & Hcells & Hlen & Hroom & Halloc).
  rewrite zwrite_Some by lia. cbn [mbind option_bind].
  rewrite zset_Some by zlia.
  eexists. left. split; [done|]. split_and!; cbn [len alloc]; try lia.
  - eapply cstr_wf_intro; eauto; zlia.
  - unfold cstr_cells in *; cbn [str len].
    rewrite ztake_insert_ge by zlia. rewrite app_assoc, ztake_app_len; [|zlia].
    by rewrite Hcells.
Qed.

Lemma cstr_new_sz_spec (sz : Z) :
  0 <= sz < 2 ^ 30 ->
  (exists s, cstr_new_sz sz = Some (Some s) /\ cstr_wf s /\ len s = 0 /\ sz < alloc s) \/
  (cstr_new_sz sz = Some None /\ exists n, mem_ok n = false).
Proof.
  intros Hsz. unfold cstr_new_sz. case_bool; reflect_bools; [right; by eauto|].
  destruct (cstr_alloc_min_sz_spec (mk_cstring [] 0 0) sz) as [s [[-> Hr]|[-> ?]]].
  - constructor; [done|by left].
  - cbn; lia.
  - lia.
  - left. exists s. destruct Hr as (? & _ & ? & ? & _). by cbn.
  - right. by cbn.
Qed.

Lemma cstr_resize_shrink (s : cstring) (n : Z) :
  cstr_wf s -> 0 <= n <= len s ->
  exists s', cstr_resize s n = Some (1, s') /\ cstr_wf s' /\
    cstr_cells s' = ztake n (cstr_cells s) /\ alloc s' = alloc s.
Proof.
  intros Hwf Hn. pose proof (cstr_wf_len s Hwf). unfold cstr_resize.
  destruct (Z.eqb_spec n (len s)) as [->|Hne].
  { exists s. split_and!; try done. rewrite ztake_all; [done|].
    rewrite cstr_cells_zlen; [lia|done]. }
  zif. destruct Hwf as [Hb [[? ?]|((k & Hk & Ha) & Hl & _)]]; [lia|].
  rewrite zset_Some by lia. cbn [mbind option_bind].
  eexists. split_and!; try done.
  - eapply cstr_wf_intro; eauto; lia.
  - unfold cstr_cells; cbn [str len]. rewrite ztake_insert_ge by lia.
    unfold ztake. rewrite take_take. f_equal. lia.
Qed.

Lemma cstr_erase_correct (s : cstring) (pos elen : Z) :
  cstr_wf s -> 0 <= pos -> 0 <= elen -> pos + elen <= len s -> pos < len s ->
  exists s', cstr_erase s pos elen = Some (1, s') /\ cstr_wf s' /\
    cstr_cells s' = ztake pos (cstr_cells s) ++ zdrop (pos + elen) (cstr_cells s).
Proof.
  intros Hwf Hp He Hle Hlt. pose proof (cstr_wf_len s Hwf).
  destruct Hwf as [Hb [[? ?]|((k & Hk & Ha) & Hl & _)]]; [lia|].
  unfold cstr_erase. zif. cbn [andb orb].
  set (tail := ztake _ (zdrop _ _)).
  assert (zlen tail = len s - (pos + elen)) as Htl by (subst tail; zlia).
  rewrite zwrite_Some by lia. cbn [mbind option_bind].
  rewrite zset_Some by zlia. cbn [mbind option_bind].
  eexists. split; [done|]. split.
  - eapply cstr_wf_intro; eauto; zlia.
  - unfold cstr_cells; cbn [str len]. rewrite ztake_insert_ge by zlia.
    rewrite app_assoc, ztake_app_len by zlia. f_equal.
    + unfold ztake. rewrite take_take. f_equal. lia.
    + subst tail. unfold ztake, zdrop. rewrite skipn_firstn_comm. f_equal. lia.
Qed.

End Specs.

Lemma compare_chars_refl (a : list Z) : compare_chars a a = 0.
Proof. induction a as [|x a IH]; [done|]. cbn. by rewrite Z.ltb_irrefl. Qed.

Lemma compare_chars_antisym (a b : list Z) : compare_chars b a = - compare_chars a b.
Proof.
  revert b. induction a as [|x a IH]; intros [|y b]; try done. cbn [compare_chars]. cbv zeta.
  destruct (Z.ltb_spec (swrap 8 y) (swrap 8 x)), (Z.ltb_spec (swrap 8 x) (swrap 8 y)); try lia.
  apply IH.
Qed.

Lemma swrap8_inj (x y : Z) : is_byte x -> is_byte y -> swrap 8 x = swrap 8 y -> x = y.
Proof.
  unfold is_byte, swrap. intros.
  assert ((x + 128) mod 256 = (y + 128) mod 256) by (change (2 ^ (8 - 1)) with 128 in *; change (2 ^ 8) with 256 in *; lia).
  zdm.
Qed.

Lemma compare_chars_eq (a b : list Z) :
  is_bytes a -> is_bytes b -> length a = length b -> compare_chars a b = 0 -> a = b.
Proof.
  intros Ha. revert b. induction Ha as [|x a Hx Ha IH]; intros [|y b] Hb Hl; try done.
  inversion_clear Hb. cbn [compare_chars]. cbv zeta.
  destruct (Z.ltb_spec (swrap 8 y) (swrap 8 x)); [lia|].
  destruct (Z.ltb_spec (swrap 8 x) (swrap 8 y)); [lia|]. intros Hc. f_equal.
  - apply swrap8_inj; [done..|lia].
  - apply IH; [done| |done]. by injection Hl.
Qed.

Lemma compare_chars_trans (a b c : list Z) :
  length a = length b -> length b = length c ->
  compare_chars a b <= 0 -> compare_chars b c <= 0 -> compare_chars a c <= 0.
Proof.
  revert b c. induction a as [|x a IH]; intros [|y b] [|z c]; try done. cbn [compare_chars length].
  cbv zeta. intros Hab Hbc.
  destruct (Z.ltb_spec (swrap 8 y) (swrap 8 x)), (Z.ltb_spec (swrap 8 x) (swrap 8 y)),
    (Z.ltb_spec (swrap 8 z) (swrap 8 y)), (Z.ltb_spec (swrap 8 y) (swrap 8 z)),
    (Z.ltb_spec (swrap 8 z) (swrap 8 x)), (Z.ltb_spec (swrap 8 x) (swrap 8 z)); try lia.
  apply IH; lia.
Qed.

(** ** Reachable strings *)

Section Reachable.
Context {M : mem_mapper}.

(** One call of the interface; sizes stay below 2^30 so that the allocation
    shift is defined. *)
Inductive cstr_step : cstring -> cstring -> Prop :=
  | step_append s buf r s' :
      len s + zlen buf < 2 ^ 30 -> cstr_append_buf s buf = Some (r, s') -> cstr_step s s'
  | step_resize s n r s' :
      0 <= n < 2 ^ 30 -> cstr_resize s n = Some (r, s') -> cstr_step s s'
  | step_minsize s n r s' :
      0 <= n < 2 ^ 30 -> cstr_alloc_minsize s n = Some (r, s') -> cstr_step s s'
  | step_erase s pos n r s' :
      0 <= pos -> 0 <= n -> cstr_erase s pos n = Some (r, s') -> cstr_step s s'.

Inductive cstr_reachable : cstring -> Prop :=
  | reach_new_sz n s : 0 <= n < 2 ^ 30 -> cstr_new_sz n = Some (Some s) -> cstr_reachable s
  | reach_new_buf buf s :
      zlen buf < 2 ^ 30 -> cstr_new_buf buf = Some (Some s) -> cstr_reachable s
  | reach_step s s' : cstr_reachable s -> cstr_step s s' -> cstr_reachable s'.

Lemma cstr_resize_wf (s : cstring) (n : Z) :
  cstr_wf s -> 0 <= n < 2 ^ 30 ->
  exists r s', cstr_resize s n = Some (r, s') /\ cstr_wf s'.
Proof.
  intros Hwf Hn. destruct (Z.leb_spec n (len s)).
  { destruct (cstr_resize_shrink s n Hwf) as (s' & -> & ? & _); [lia|]. by exists 1, s'. }
  unfold cstr_resize. zif.
  destruct (cstr_alloc_min_sz_spec s n Hwf) as [s1 [[-> Hr]|[-> _]]]; [lia|lia| |by exists 0, s].
  cbn [mbind option_bind]. zif.
  destruct (reserved_shape _ _ _ Hr) as (k & Hk & Ha & Hb); [lia|].
  destruct Hr as (_ & _ & _ & Hroom & _). rewrite zset_Some by lia. cbn [mbind option_bind].
  eexists _, _. split; [done|]. eapply cstr_wf_intro; eauto; lia.
Qed.

Lemma cstr_alloc_minsize_wf (s : cstring) (n : Z) :
  cstr_wf s -> 0 <= n < 2 ^ 30 ->
  exists r s', cstr_alloc_minsize s n = Some (r, s') /\ cstr_wf s' /\ cstr_cells s' = cstr_cells s.
Proof.
  intros Hwf Hn. unfold cstr_alloc_minsize.
  destruct (Z.eqb_spec n (len s)); [by eauto|].
  destruct (Z.leb_spec n (len s)); [by eauto|].
  pose proof (cstr_wf_len s Hwf).
  destruct (cstr_alloc_min_sz_spec s n Hwf) as [s1 [[-> Hr]|[-> _]]]; [lia|lia| |by exists 0, s].
  cbn [mbind option_bind]. zif.
  destruct (reserved_shape _ _ _ Hr) as (k & Hk & Ha & Hb); [lia|].
  destruct Hr as (_ & Hc & Hl & Hroom & _). rewrite zset_Some by lia. cbn [mbind option_bind].
  eexists _, _. split_and!; [done|eapply cstr_wf_intro; eauto; lia|].
  rewrite <- Hc. unfold cstr_cells; cbn [str len]. apply ztake_insert_ge. lia.
Qed.

Lemma cstr_erase_wf (s : cstring) (pos n : Z) :
  cstr_wf s -> 0 <= pos -> 0 <= n ->
  exists r s', cstr_erase s pos n = Some (r, s') /\ cstr_wf s'.
Proof.
  intros Hwf Hp Hn. destruct (decide (pos + n <= len s /\ pos < len s)) as [[Ha Hb]|Hno].
  { destruct (cstr_erase_correct s pos n Hwf) as (s' & -> & ? & _); [lia..|]. by exists 1, s'. }
  unfold cstr_erase. case_bool; [by eauto|].
  destruct (Z.leb_spec (len s) pos); [by eauto|]. zif. by eauto.
Qed.

Lemma cstr_new_buf_wf (buf : list (option Z)) :
  zlen buf < 2 ^ 30 ->
  (exists s, cstr_new_buf buf = Some (Some s) /\ cstr_wf s /\ cstr_cells s = buf) \/
  (cstr_new_buf buf = Some None /\ exists n, mem_ok n = false).
Proof.
  intros Hb. pose proof (zlen_nonneg buf). unfold cstr_new_buf.
  destruct (cstr_new_sz_spec (zlen buf)) as [(s & -> & [Hblk Hsh] & Hl & Hroom)|[-> ?]]; [lia| |by right].
  cbn [mbind option_bind]. destruct Hsh as [[? ?]|((k & Hk & Ha) & _)]; [lia|].
  rewrite zwrite_Some by lia. cbn [mbind option_bind]. rewrite zset_Some by zlia.
  cbn [mbind option_bind]. left. eexists. split_and!; [done|eapply cstr_wf_intro; eauto; zlia|].
  unfold cstr_cells; cbn [str len]. rewrite ztake_insert_ge by lia.
  rewrite app_assoc, ztake_app_len; [done|]. zlia.
Qed.

Lemma cstr_step_wf (s s' : cstring) : cstr_wf s -> cstr_step s s' -> cstr_wf s'.
Proof.
  intros Hwf Hs. destruct Hs as [s buf r s' Hn Hs|s n r s' Hn Hs|s n r s' Hn Hs|s pos n r s' Hp Hn Hs].
  - destruct (cstr_append_buf_correct s buf Hwf Hn) as [s1 [(He & ? & _)|(He & _)]];
      rewrite He in Hs; by simplify_eq.
  - destruct (cstr_resize_wf s n Hwf Hn) as (r1 & s1 & He & ?). rewrite He in Hs. by simplify_eq.
  - destruct (cstr_alloc_minsize_wf s n Hwf Hn) as (r1 & s1 & He & ? & _).
    rewrite He in Hs. by simplify_eq.
  - destruct (cstr_erase_wf s pos n Hwf Hp Hn) as (r1 & s1 & He & ?). rewrite He in Hs. by simplify_eq.
Qed.

Lemma cstr_reachable_wf (s : cstring) : cstr_reachable s -> cstr_wf s.
Proof.
  induction 1 as [n s Hn Hs|buf s Hn Hs|s s' _ IH Hs].
  - destruct (cstr_new_sz_spec n Hn) as [(s1 & He & ? & _)|[He _]]; rewrite He in Hs; by simplify_eq.
  - destruct (cstr_new_buf_wf buf Hn) as [(s1 & He & ? & _)|[He _]]; rewrite He in Hs; by simplify_eq.
  - by eapply cstr_step_wf.
Qed.

End Reachable.

(** ** Properties *)

(** C37: whatever the allocator answers, every string reachable through
    allocation, append, resize, reservation and erasure has a block of exactly
    [alloc] cells, [alloc] zero or a power of two, [len] inside of it and a NUL
    right after its last byte, and a further append is defined: it either adds
    exactly the given bytes or leaves the string as it was. *)
Theorem cstr_reachable_invariant {M : mem_mapper} (s : cstring) (buf : list (option Z))
    (Hs : cstr_reachable s) (Hn : len s + zlen buf < 2 ^ 30) :
  zlen (str s) = alloc s /\
  ((alloc s = 0 /\ len s = 0) \/
   ((exists k, 3 <= k <= 30 /\ alloc s = 2 ^ k) /\ 0 <= len s < alloc s /\
    zget (str s) (len s) = Some (Some 0))) /\
  exists r s', cstr_append_buf s buf = Some (r, s') /\
    ((r = 1 /\ cstr_cells s' = cstr_cells s ++ buf /\
      (alloc s' = alloc s \/ alloc s' = 8 \/ alloc s' < 2 * (len s' + 1))) \/ (r = 0 /\ s' = s)).
Proof.
  pose proof (cstr_reachable_wf s Hs) as Hwf. destruct Hwf as [Hb Hsh] eqn:E.
  split_and!; [done|done|].
  destruct (cstr_append_buf_correct s buf Hwf Hn) as [s' [(-> & _ & ? & _ & ?)|(-> & _)]].
  - exists 1, s'. split; [done|]. by left.
  - exists 0, s. split; [done|]. by right.
Qed.

Example cstr_reachable_invariant_witness :
  exists s, @cstr_reachable default_mem_mapper s /\ zlen (str s) = alloc s /\
    exists r s', cstr_append_buf s [Some 7] = Some (r, s').
Proof.
  set (s0 := mk_cstring (Some 1 :: Some 0 :: replicate 6 None) 1 8).
  assert (cstr_reachable s0) as Hr by (eapply (reach_new_buf [Some 1]); done).
  exists s0. split; [done|].
  destruct (cstr_reachable_invariant s0 [Some 7] Hr eq_refl) as (Hb & _ & r & s' & Ha & _).
  split; [exact Hb|]. by exists r, s'.
Defined.

(** [cstr_compare] is a total order on strings of initialised bytes,
    shorter strings first: it is antisymmetric, transitive and zero only on
    equal contents, and then [cstr_equal] holds too. *)
Theorem cstr_compare_order (a b c : cstring) (x y z : list Z)
    (Ha : cstr_wf a) (Hb : cstr_wf b) (Hc : cstr_wf c)
    (Hx : cstr_holds a x) (Hy : cstr_holds b y) (Hz : cstr_holds c z)
    (Bx : is_bytes x) (By : is_bytes y) :
  exists rab rba rbc rac,
    cstr_compare a b = Some rab /\ cstr_compare b a = Some rba /\
    cstr_compare b c = Some rbc /\ cstr_compare a c = Some rac /\
    rba = - rab /\ (rab = 0 <-> x = y) /\ (rab <= 0 -> rbc <= 0 -> rac <= 0) /\
    cstr_equal false (Some a) (Some b) = Some (if rab =? 0 then 1 else 0).
Proof.
  pose proof (cstr_holds_len a x Ha Hx) as Lx. pose proof (cstr_holds_len b y Hb Hy) as Ly.
  pose proof (cstr_holds_len c z Hc Hz) as Lz.
  assert (forall p q u v, len p = zlen u -> len q = zlen v -> cstr_holds p u -> cstr_holds q v ->
    cstr_compare p q = Some (if zlen v <? zlen u then 1 else if zlen u <? zlen v then -1
                             else compare_chars u v)) as Hcmp.
  { intros p q u v Lp Lq Hp Hq. unfold cstr_compare. rewrite Lp, Lq, Hp, Hq, !cells_val_fmap.
    by repeat case_bool. }
  rewrite (Hcmp a b x y), (Hcmp b a y x), (Hcmp b c y z), (Hcmp a c x z) by done.
  eexists _, _, _, _. split_and!; try done.
  - rewrite (compare_chars_antisym x y).
    destruct (Z.ltb_spec (zlen y) (zlen x)), (Z.ltb_spec (zlen x) (zlen y)); lia.
  - split; [|intros ->; by rewrite Z.ltb_irrefl, compare_chars_refl].
    repeat case_bool; try done. reflect_bools. apply compare_chars_eq; try done.
    unfold zlen in *. lia.
  - intros H1 H2.
    destruct (Z.ltb_spec (zlen y) (zlen x)), (Z.ltb_spec (zlen x) (zlen y)),
      (Z.ltb_spec (zlen z) (zlen y)), (Z.ltb_spec (zlen y) (zlen z)),
      (Z.ltb_spec (zlen z) (zlen x)), (Z.ltb_spec (zlen x) (zlen z)); try lia.
    eapply (compare_chars_trans x y z); unfold zlen in *; lia.
  - unfold cstr_equal, memcmp_eq. rewrite Lx, Ly, Hx, Hy, !cells_val_fmap. cbn [mbind option_bind].
    destruct (Z.eqb_spec (zlen x) (zlen y)) as [E|E]; cbn [negb].
    + rewrite E, Z.ltb_irrefl. case_bool_decide as Hd.
      * by rewrite Hd, compare_chars_refl.
      * destruct (Z.eqb_spec (compare_chars x y) 0) as [H0|]; [|done].
        exfalso. apply Hd, compare_chars_eq; try done. unfold zlen in E. lia.
    + f_equal. destruct (Z.ltb_spec (zlen y) (zlen x)); [done|].
      destruct (Z.ltb_spec (zlen x) (zlen y)); [done|lia].
Qed.

Example cstr_compare_order_witness :
  let s b := mk_cstring (Some b :: Some 0 :: replicate 6 None) 1 8 in
  exists rab rba rbc rac,
    cstr_compare (s 65) (s 200) = Some rab /\ cstr_compare (s 200) (s 65) = Some rba /\
    cstr_compare (s 200) (s 66) = Some rbc /\ cstr_compare (s 65) (s 66) = Some rac /\
    rba = - rab /\ (rab = 0 <-> [65] = [200]) /\ (rab <= 0 -> rbc <= 0 -> rac <= 0) /\
    cstr_equal false (Some (s 65)) (Some (s 200)) = Some (if rab =? 0 then 1 else 0).
Proof.
  assert (forall b, cstr_wf (mk_cstring (Some b :: Some 0 :: replicate 6 None) 1 8)) as Hwf.
  { intros b. constructor; [done|]. right. split; [by exists 3|]. cbn. split; [lia|done]. }
  apply (cstr_compare_order _ _ _ [65] [200] [66]); try apply Hwf; try done;
    repeat constructor; unfold is_byte; lia.
Defined.
