(* ===== verification/Serialize.v ===== *)
(** * serialize.c and buffer.c: the Bitcoin wire encoding

    Writers append to a [cstring]; readers consume a [const_buffer], modelled
    as the list of the bytes it still covers.  A writer ignores the result of
    [cstr_append_buf], as the code does.  On the error return of a reader the
    contents of the output and of the buffer are dead in every caller. *)

From S2P Require Import Prelude Cstr.

(** ** Writers *)

Definition ser_cells (s : cstring) (p : list (option Z)) : option cstring :=
  '(_, s') ← cstr_append_buf s p; Some s'.

Definition ser_bytes (s : cstring) (p : list Z) : option cstring := ser_cells s (Some <$> p).

(** The memory image of a [htole] value is its little endian encoding. *)
Definition ser_u16 (s : cstring) (v : Z) : option cstring := ser_bytes s (le_bytes 2 v).
Definition ser_u32 (s : cstring) (v : Z) : option cstring := ser_bytes s (le_bytes 4 v).
Definition ser_s32 (s : cstring) (v : Z) : option cstring := ser_u32 s (u32 v).
Definition ser_u64 (s : cstring) (v : Z) : option cstring := ser_bytes s (le_bytes 8 v).
Definition ser_s64 (s : cstring) (v : Z) : option cstring := ser_u64 s (u64 v).
Definition ser_u256 (s : cstring) (v : list Z) : option cstring := ser_bytes s (ztake 32 v).

Definition ser_varlen (s : cstring) (vlen : Z) : option cstring :=
  if vlen <? 253 then ser_bytes s [u8 vlen]
  else if vlen <? 0x10000 then
    s1 ← ser_bytes s [253]; ser_u16 s1 (u16 vlen)
  else
    s1 ← ser_bytes s [254]; ser_u32 s1 vlen.

(** [strnlen]: [None] when the scan leaves the object. *)
Fixpoint strnlen (p : list Z) (maxlen : nat) : option Z :=
  match maxlen with
  | O => Some 0
  | S m =>
      match p with
      | [] => None
      | c :: p' => if c =? 0 then Some 0 else n ← strnlen p' m; Some (1 + n)
      end
  end.

Definition ser_str (s : cstring) (s_in : list Z) (maxlen : nat) : option cstring :=
  slen ← strnlen s_in maxlen;
  s1 ← ser_varlen s (u32 slen);
  ser_bytes s1 (ztake slen s_in).

Definition ser_varstr (s : cstring) (s_in : option cstring) : option cstring :=
  match s_in with
  | None => ser_varlen s 0
  | Some c =>
      if len c =? 0 then ser_varlen s 0 else
      s1 ← ser_varlen s (u32 (len c));
      ser_cells s1 (cstr_cells c)
  end.

(** ** Readers *)

Abbreviation const_buffer := (list Z).

Definition deser_skip (buf : const_buffer) (n : Z) : outcome const_buffer :=
  if zlen buf <? n then Fail else Ret (zdrop n buf).

Definition deser_bytes (buf : const_buffer) (n : Z) : outcome (list Z * const_buffer) :=
  if zlen buf <? n then Fail else Ret (ztake n buf, zdrop n buf).

Definition deser_u16 (buf : const_buffer) : outcome (Z * const_buffer) :=
  '(v, b) ← deser_bytes buf 2; Ret (le_val v, b).

Definition deser_u32 (buf : const_buffer) : outcome (Z * const_buffer) :=
  '(v, b) ← deser_bytes buf 4; Ret (le_val v, b).

Definition deser_s32 (buf : const_buffer) : outcome (Z * const_buffer) :=
  '(v, b) ← deser_bytes buf 4; Ret (s32 (le_val v), b).

Definition deser_u64 (buf : const_buffer) : outcome (Z * const_buffer) :=
  '(v, b) ← deser_bytes buf 8; Ret (le_val v, b).

Definition deser_s64 (buf : const_buffer) : outcome (Z * const_buffer) :=
  '(v, b) ← deser_u64 buf; Ret (s64 v, b).

Definition deser_u256 (buf : const_buffer) : outcome (list Z * const_buffer) :=
  deser_bytes buf 32.

Definition deser_varlen (buf : const_buffer) : outcome (Z * const_buffer) :=
  '(c, b) ← deser_bytes buf 1;
  let c := le_val c in
  if c =? 253 then deser_u16 b
  else if c =? 254 then deser_u32 b
  else if c =? 255 then '(v64, b1) ← deser_u64 b; Ret (u32 v64, b1)
  else Ret (c, b).

(** [fread (p, 1, n, file) != n]: the bytes read and the rest of the file. *)
Definition fread (file : list Z) (n : Z) : outcome (list Z * list Z) :=
  if zlen file <? n then Fail else Ret (ztake n file, zdrop n file).

Definition deser_varlen_from_file (file : list Z) : outcome (Z * list Z) :=
  '(c, f) ← fread file 1;
  let c := le_val c in
  if c =? 253 then '(p, f1) ← fread f 2; '(v, _) ← deser_u16 p; Ret (v, f1)
  else if c =? 254 then '(p, f1) ← fread f 4; '(v, _) ← deser_u32 p; Ret (v, f1)
  else if c =? 255 then '(p, f1) ← fread f 8; '(v, _) ← deser_u64 p; Ret (u32 v, f1)
  else Ret (c, f).

(** [rawdata] is the caller's array and [buflen_inout] the size it announces;
    returns the length, the file, the array and the number of bytes stored. *)
Definition deser_varlen_file (file : list Z) (rawdata : list (option Z)) (buflen_inout : Z) :
    outcome (Z * list Z * list (option Z) * Z) :=
  if buflen_inout <? 4 then Fail else
  '(c, f) ← fread file 1;
  raw1 ← total (zwrite rawdata 0 (Some <$> c));
  let c := le_val c in
  if c =? 253 then
    '(p, f1) ← fread f 2;
    raw2 ← total (zwrite raw1 1 (Some <$> p));
    '(v, _) ← deser_u16 p; Ret (v, f1, raw2, 1 + 2)
  else if c =? 254 then
    '(p, f1) ← fread f 4;
    raw2 ← total (zwrite raw1 1 (Some <$> p));
    '(v, _) ← deser_u32 p; Ret (v, f1, raw2, 1 + 4)
  else if c =? 255 then
    '(p, f1) ← fread f 8;
    raw2 ← total (zwrite raw1 1 (Some <$> ztake 4 p));
    '(v, _) ← deser_u64 p; Ret (u32 v, f1, raw2, 1 + 4)
  else Ret (c, f, raw1, 1).

(** [so] is the caller's array of at least [maxlen] characters. *)
Definition deser_str (so : list (option Z)) (buf : const_buffer) (maxlen : Z) :
    outcome (list (option Z) * const_buffer) :=
  '(n, b) ← deser_varlen buf;
  let '(skip_len, n) := if maxlen <? n then (u32 (n - maxlen), u32 maxlen) else (0, n) in
  '(bs, b1) ← deser_bytes b n;
  so1 ← total (zwrite so 0 (Some <$> bs));
  b2 ← deser_skip b1 skip_len;
  so2 ← total (if n <? maxlen then zset so1 n (Some 0) else zset so1 (maxlen - 1) (Some 0));
  Ret (so2, b2).

(** The previous string is released, a new one is built from the buffer. *)
Definition deser_varstr (buf : const_buffer) : outcome (cstring * const_buffer) :=
  '(n, b) ← deser_varlen buf;
  if zlen b <? n then Fail else
  o ← total (cstr_new_sz n);
  s ← total o;
  '(_, s1) ← total (cstr_append_buf s (Some <$> ztake n b));
  Ret (s1, zdrop n b).

(** ** buffer.c *)

Definition buffer_equal (a b : list Z) : Z :=
  if negb (zlen a =? zlen b) then 0 else if bool_decide (a = b) then 1 else 0.

(** sizeof (struct buffer) is 16. *)
Definition buffer_copy `{mem_mapper} (data : list Z) : option (list Z) :=
  if negb (mem_ok 16) then None else
  if negb (mem_ok (zlen data)) then None else Some data.

(** ** The reference encoding of a length *)

Definition varlen_bytes (n : Z) : list Z :=
  if n <? 253 then [n] else if n <? 0x10000 then 253 :: le_bytes 2 n else 254 :: le_bytes 4 n.

Definition varstr_bytes (bs : list Z) : list Z := varlen_bytes (zlen bs) ++ bs.

(** ** What the writers promise to their clients

    [Appends f bs]: on every well-formed string that stays below 2^30 bytes,
    [f] returns a well-formed string with exactly [bs] added. *)

Class Appends (f : cstring -> option cstring) (bs : list Z) : Prop :=
  appends s : cstr_wf s -> len s + zlen bs < 2 ^ 30 ->
    exists s', f s = Some s' /\ cstr_wf s' /\ cstr_cells s' = cstr_cells s ++ (Some <$> bs).
#[export] Hint Mode Appends ! - : typeclass_instances.

(** ** Writers: lemmas *)

Lemma ser_cells_appends (s : cstring) (p : list (option Z)) :
  cstr_wf s -> len s + zlen p < 2 ^ 30 ->
  exists s', ser_cells s p = Some s' /\ cstr_wf s' /\ cstr_cells s' = cstr_cells s ++ p.
Proof.
  intros Hwf Hn. unfold ser_cells.
  destruct (cstr_append_buf_correct s p Hwf Hn) as [s' [(-> & ? & ? & _)|(_ & n & Hbad)]];
    [|done]. by exists s'.
Qed.

#[export] Instance appends_bytes (p : list Z) : Appends (fun s => ser_bytes s p) p.
Proof. intros s Hwf Hn. apply ser_cells_appends; [done|]. by rewrite zlen_fmap. Qed.

#[export] Instance appends_bind (f g : cstring -> option cstring) (a b : list Z) :
  Appends f a -> Appends g b -> Appends (fun s => s1 ← f s; g s1) (a ++ b).
Proof.
  intros Hf Hg s Hwf Hn. rewrite zlen_app in Hn. pose proof (zlen_nonneg b).
  destruct (Hf s) as (s1 & Hs1 & Hwf1 & Hc1); [done|lia|].
  destruct (Hg s1) as (s2 & Hs2 & Hwf2 & Hc2); [done| |].
  { rewrite <- (cstr_cells_zlen s1), Hc1, zlen_app, cstr_cells_zlen, zlen_fmap by done. lia. }
  rewrite Hs1. cbn [mbind option_bind]. exists s2. split_and!; try done.
  by rewrite Hc2, Hc1, fmap_app, app_assoc.
Qed.

Lemma appends_ext (f : cstring -> option cstring) (a b : list Z) :
  a = b -> Appends f a -> Appends f b.
Proof. by intros ->. Qed.

#[export] Instance appends_skip : Appends Some [].
Proof. intros s Hwf _. exists s. by rewrite app_nil_r. Qed.

Lemma appends_for_each {A} (f : A -> cstring -> option cstring) (enc : A -> list Z) (l : list A) :
  Forall (fun x => Appends (f x) (enc x)) l -> Appends (for_each f l) (flat_map enc l).
Proof.
  induction 1 as [|x l Hx Hl IH]; [apply appends_skip|].
  exact (appends_bind (f x) (for_each f l) _ _ Hx IH).
Qed.

#[export] Instance appends_u16 (v : Z) : Appends (fun s => ser_u16 s v) (le_bytes 2 v).
Proof. apply appends_bytes. Qed.

#[export] Instance appends_u32 (v : Z) : Appends (fun s => ser_u32 s v) (le_bytes 4 v).
Proof. apply appends_bytes. Qed.

#[export] Instance appends_s32 (v : Z) : Appends (fun s => ser_s32 s v) (le_bytes 4 (u32 v)).
Proof. apply appends_bytes. Qed.

#[export] Instance appends_u64 (v : Z) : Appends (fun s => ser_u64 s v) (le_bytes 8 v).
Proof. apply appends_bytes. Qed.

#[export] Instance appends_s64 (v : Z) : Appends (fun s => ser_s64 s v) (le_bytes 8 (u64 v)).
Proof. apply appends_bytes. Qed.

Lemma appends_u256 (v : list Z) : zlen v = 32 -> Appends (fun s => ser_u256 s v) v.
Proof.
  intros Hv. unfold ser_u256. rewrite ztake_all by lia. apply appends_bytes.
Qed.

Lemma appends_varlen (n : Z) :
  0 <= n < 2 ^ 32 -> Appends (fun s => ser_varlen s n) (varlen_bytes n).
Proof.
  intros Hn. unfold ser_varlen, varlen_bytes.
  destruct (Z.ltb_spec n 253).
  { rewrite (wrap_small 8) by lia. apply appends_bytes. }
  destruct (Z.ltb_spec n 65536).
  - rewrite (wrap_small 16) by lia.
    apply (appends_bind (fun s => ser_bytes s [253]) (fun s => ser_u16 s n) [253] (le_bytes 2 n)); apply _.
  - apply (appends_bind (fun s => ser_bytes s [254]) (fun s => ser_u32 s n) [254] (le_bytes 4 n)); apply _.
Qed.

(** A string field: a null pointer is written as the empty string. *)
Definition str_field (c : option cstring) (bs : list Z) : Prop :=
  match c with
  | None => bs = []
  | Some c => cstr_wf c /\ cstr_holds c bs
  end.

Lemma appends_varstr (c : option cstring) (bs : list Z) :
  str_field c bs -> Appends (fun s => ser_varstr s c) (varstr_bytes bs).
Proof.
  unfold varstr_bytes. destruct c as [c|]; cbn [str_field].
  - intros [Hwf Hh]. pose proof (cstr_holds_len c bs Hwf Hh) as Hl. unfold ser_varstr.
    destruct (Z.eqb_spec (len c) 0) as [H0|H0].
    { destruct bs; [|rewrite zlen_cons in Hl; pose proof (zlen_nonneg bs); lia].
      by apply (appends_varlen 0). }
    intros s Hs Hn. pose proof (cstr_wf_len s Hs).
    assert (0 <= zlen bs < 2 ^ 32) as Hbs.
    { pose proof (zlen_nonneg (varlen_bytes (zlen bs))). zlia. }
    rewrite Hl, Hh, (wrap_small 32) by lia.
    exact (appends_bind (fun s => ser_varlen s (zlen bs)) (fun s => ser_bytes s bs) _ _
             (appends_varlen _ Hbs) _ s Hs Hn).
  - intros ->. rewrite app_nil_r. by apply (appends_varlen 0).
Qed.

(** ** Readers: lemmas *)

Lemma deser_bytes_app (a b : list Z) (n : Z) : n = zlen a -> deser_bytes (a ++ b) n = Ret (a, b).
Proof.
  intros ->. unfold deser_bytes. rewrite zlen_app. pose proof (zlen_nonneg b). zif.
  by rewrite ztake_app_len, zdrop_app_len.
Qed.

Lemma deser_u16_app (v : Z) (b : list Z) :
  0 <= v < 2 ^ 16 -> deser_u16 (le_bytes 2 v ++ b) = Ret (v, b).
Proof.
  intros. unfold deser_u16. rewrite deser_bytes_app by done. cbn [mbind outcome_bind].
  rewrite le_val_bytes_small by lia. done.
Qed.

Lemma deser_u32_app (v : Z) (b : list Z) :
  0 <= v < 2 ^ 32 -> deser_u32 (le_bytes 4 v ++ b) = Ret (v, b).
Proof.
  intros. unfold deser_u32. rewrite deser_bytes_app by done. cbn [mbind outcome_bind].
  rewrite le_val_bytes_small by lia. done.
Qed.

Lemma deser_s32_app (v : Z) (b : list Z) :
  - 2 ^ 31 <= v < 2 ^ 31 -> deser_s32 (le_bytes 4 (u32 v) ++ b) = Ret (v, b).
Proof.
  intros. unfold deser_s32. rewrite deser_bytes_app by done. cbn [mbind outcome_bind].
  pose proof (wrap_range 32 v). rewrite le_val_bytes_small by lia.
  rewrite swrap_wrap by lia. done.
Qed.

Lemma deser_u64_app (v : Z) (b : list Z) :
  0 <= v < 2 ^ 64 -> deser_u64 (le_bytes 8 v ++ b) = Ret (v, b).
Proof.
  intros. unfold deser_u64. rewrite deser_bytes_app by done. cbn [mbind outcome_bind].
  rewrite le_val_bytes_small by lia. done.
Qed.

Lemma deser_s64_app (v : Z) (b : list Z) :
  - 2 ^ 63 <= v < 2 ^ 63 -> deser_s64 (le_bytes 8 (u64 v) ++ b) = Ret (v, b).
Proof.
  intros. unfold deser_s64. pose proof (wrap_range 64 v). rewrite deser_u64_app by lia.
  cbn [mbind outcome_bind]. rewrite swrap_wrap by lia. done.
Qed.

Lemma deser_u256_app (v b : list Z) : zlen v = 32 -> deser_u256 (v ++ b) = Ret (v, b).
Proof. intros. by apply deser_bytes_app. Qed.

Lemma deser_varlen_app (n : Z) (b : list Z) :
  0 <= n < 2 ^ 32 -> deser_varlen (varlen_bytes n ++ b) = Ret (n, b).
Proof.
  intros Hn. unfold deser_varlen, varlen_bytes.
  destruct (Z.ltb_spec n 253); [|destruct (Z.ltb_spec n 65536)].
  - rewrite deser_bytes_app by done. cbn [mbind outcome_bind le_val].
    rewrite Z.mul_0_r, Z.add_0_r. by zif.
  - change (253 :: le_bytes 2 n) with ([253] ++ le_bytes 2 n). rewrite <- app_assoc.
    rewrite deser_bytes_app by done. cbn -[deser_u16 le_bytes]. apply deser_u16_app; lia.
  - change (254 :: le_bytes 4 n) with ([254] ++ le_bytes 4 n). rewrite <- app_assoc.
    rewrite deser_bytes_app by done. cbn -[deser_u32 le_bytes]. apply deser_u32_app; lia.
Qed.

Lemma varlen_bytes_pos (n : Z) : 0 < zlen (varlen_bytes n).
Proof. unfold varlen_bytes. repeat case_bool; zlia. Qed.

(** The string built from [n] bytes of the buffer holds exactly these bytes. *)
Lemma cstr_from_buffer (bs : list Z) :
  zlen bs < 2 ^ 30 ->
  exists s c, cstr_new_sz (zlen bs) = Some (Some s) /\
    cstr_append_buf s (Some <$> bs) = Some (1, c) /\ cstr_wf c /\ cstr_holds c bs.
Proof.
  intros Hn. pose proof (zlen_nonneg bs).
  destruct (cstr_new_sz_spec (zlen bs)) as [(s & Hs & Hwf & Hl & _)|(_ & n & ?)]; [lia| |done].
  destruct (cstr_append_buf_correct s (Some <$> bs)) as [c [(Hc & Hwfc & Hcc & _)|(_ & n & ?)]];
    [done|rewrite zlen_fmap; lia| |done].
  exists s, c. split_and!; try done. unfold cstr_holds. rewrite Hcc.
  unfold cstr_cells. by rewrite Hl.
Qed.

Lemma deser_varstr_app (bs b : list Z) :
  zlen bs < 2 ^ 30 ->
  exists c, deser_varstr (varstr_bytes bs ++ b) = Ret (c, b) /\ cstr_wf c /\ cstr_holds c bs.
Proof.
  intros Hn. pose proof (zlen_nonneg bs). unfold deser_varstr, varstr_bytes.
  rewrite <- app_assoc, deser_varlen_app by lia. cbn [mbind outcome_bind].
  rewrite zlen_app. pose proof (zlen_nonneg b). zif.
  rewrite ztake_app_len, zdrop_app_len by done.
  destruct (cstr_from_buffer bs Hn) as (s & c & -> & Hc & ? & ?). cbn [mbind outcome_bind total].
  rewrite Hc. by exists c.
Qed.

(** The file reader computes what the buffer reader computes. *)
Lemma deser_bytes_fread (f : list Z) (n : Z) : fread f n = deser_bytes f n.
Proof. done. Qed.

Lemma deser_bytes_Ret (b v r : list Z) (n : Z) :
  0 <= n -> deser_bytes b n = Ret (v, r) -> b = v ++ r /\ zlen v = n.
Proof.
  intros Hn. unfold deser_bytes. case_bool; [done|]. reflect_bools.
  intros [= <- <-]. rewrite ztake_zdrop. split; [done|]. rewrite zlen_ztake. lia.
Qed.

Lemma deser_all_bytes (p : list Z) : deser_bytes p (zlen p) = Ret (p, []).
Proof. rewrite <- (app_nil_r p) at 1. by apply deser_bytes_app. Qed.

(** Reading [n] bytes of a file and decoding them is decoding them in place. *)
Lemma reread {A} (f : list Z) (n : Z) (k : list Z -> list Z -> outcome A) :
  0 <= n ->
  ('(p, f1) ← fread f n; '(v, _) ← deser_bytes p n; k v f1) =
  ('(v, f1) ← deser_bytes f n; k v f1).
Proof.
  intros Hn. rewrite deser_bytes_fread.
  destruct (deser_bytes f n) as [[p f1]| |] eqn:E; [|done..].
  apply deser_bytes_Ret in E as [_ <-]; [|done]. cbn [mbind outcome_bind].
  by rewrite deser_all_bytes.
Qed.

Lemma varlen_from_file_eq (file : list Z) : deser_varlen_from_file file = deser_varlen file.
Proof.
  unfold deser_varlen_from_file, deser_varlen. rewrite deser_bytes_fread.
  destruct (deser_bytes file 1) as [[c f]| |]; [|done..]. cbn [mbind outcome_bind]. cbv zeta.
  repeat case_bool; [| | |done].
  all: unfold deser_u16, deser_u32, deser_u64.
  - etrans; [|by apply (reread f 2 (fun v f1 => Ret (le_val v, f1)))].
    destruct (fread f 2) as [[p f1]| |]; [|done..]. cbn. by destruct (deser_bytes p 2) as [[]| |].
  - etrans; [|by apply (reread f 4 (fun v f1 => Ret (le_val v, f1)))].
    destruct (fread f 4) as [[p f1]| |]; [|done..]. cbn. by destruct (deser_bytes p 4) as [[]| |].
  - etrans; [|etrans; [by apply (reread f 8 (fun v f1 => Ret (u32 (le_val v), f1)))|]].
    + destruct (fread f 8) as [[p f1]| |]; [|done..]. cbn. by destruct (deser_bytes p 8) as [[]| |].
    + by destruct (deser_bytes f 8) as [[]| |].
Qed.

(** ** Messages as sequences of fields *)

Inductive field : Type :=
  | FU16 (v : Z) | FU32 (v : Z) | FS32 (v : Z) | FU64 (v : Z) | FS64 (v : Z)
  | FU256 (v : list Z) | FLen (v : Z) | FStr (c : cstring).

Inductive kind : Type := KU16 | KU32 | KS32 | KU64 | KS64 | KU256 | KLen | KStr.

Definition kind_of (f : field) : kind :=
  match f with
  | FU16 _ => KU16 | FU32 _ => KU32 | FS32 _ => KS32 | FU64 _ => KU64 | FS64 _ => KS64
  | FU256 _ => KU256 | FLen _ => KLen | FStr _ => KStr
  end.

Definition ser_field (f : field) (s : cstring) : option cstring :=
  match f with
  | FU16 v => ser_u16 s v | FU32 v => ser_u32 s v | FS32 v => ser_s32 s v
  | FU64 v => ser_u64 s v | FS64 v => ser_s64 s v | FU256 v => ser_u256 s v
  | FLen v => ser_varlen s v | FStr c => ser_varstr s (Some c)
  end.

Definition deser_field (k : kind) (buf : const_buffer) : outcome (field * const_buffer) :=
  match k with
  | KU16 => '(v, b) ← deser_u16 buf; Ret (FU16 v, b)
  | KU32 => '(v, b) ← deser_u32 buf; Ret (FU32 v, b)
  | KS32 => '(v, b) ← deser_s32 buf; Ret (FS32 v, b)
  | KU64 => '(v, b) ← deser_u64 buf; Ret (FU64 v, b)
  | KS64 => '(v, b) ← deser_s64 buf; Ret (FS64 v, b)
  | KU256 => '(v, b) ← deser_u256 buf; Ret (FU256 v, b)
  | KLen => '(v, b) ← deser_varlen buf; Ret (FLen v, b)
  | KStr => '(c, b) ← deser_varstr buf; Ret (FStr c, b)
  end.

Fixpoint deser_fields (ks : list kind) (buf : const_buffer) : outcome (list field * const_buffer) :=
  match ks with
  | [] => Ret ([], buf)
  | k :: ks' =>
      '(f, b) ← deser_field k buf; '(fs, b1) ← deser_fields ks' b; Ret (f :: fs, b1)
  end.

(** The values a field of each C type can hold. *)
Definition field_ok (f : field) : Prop :=
  match f with
  | FU16 v => 0 <= v < 2 ^ 16 | FU32 v => 0 <= v < 2 ^ 32 | FS32 v => - 2 ^ 31 <= v < 2 ^ 31
  | FU64 v => 0 <= v < 2 ^ 64 | FS64 v => - 2 ^ 63 <= v < 2 ^ 63
  | FU256 v => zlen v = 32 | FLen v => 0 <= v < 2 ^ 32
  | FStr c => cstr_wf c /\ exists bs, cstr_holds c bs
  end.

Definition field_bytes (f : field) : list Z :=
  match f with
  | FU16 v => le_bytes 2 v | FU32 v => le_bytes 4 v | FS32 v => le_bytes 4 (u32 v)
  | FU64 v => le_bytes 8 v | FS64 v => le_bytes 8 (u64 v) | FU256 v => v
  | FLen v => varlen_bytes v
  | FStr c => varstr_bytes (default [] (cells_val (cstr_cells c)))
  end.

(** Equality of fields, strings being compared by contents. *)
Definition same_field (f g : field) : Prop :=
  match f, g with
  | FStr c, FStr d => cstr_cells c = cstr_cells d
  | FStr _, _ | _, FStr _ => False
  | _, _ => f = g
  end.

Lemma appends_field (f : field) : field_ok f -> Appends (ser_field f) (field_bytes f).
Proof.
  destruct f as [v|v|v|v|v|v|v|c]; cbn [field_ok field_bytes]; intros Hok; cbn [ser_field].
  - apply appends_u16.
  - apply appends_u32.
  - apply appends_s32.
  - apply appends_u64.
  - apply appends_s64.
  - by apply appends_u256.
  - by apply appends_varlen.
  - destruct Hok as [Hwf [bs Hh]]. rewrite Hh, cells_val_fmap. by apply appends_varstr.
Qed.

Lemma deser_field_app (f : field) (b : list Z) :
  field_ok f -> zlen (field_bytes f) < 2 ^ 30 ->
  exists g, deser_field (kind_of f) (field_bytes f ++ b) = Ret (g, b) /\ same_field f g.
Proof.
  destruct f as [v|v|v|v|v|v|v|c]; cbn [field_ok field_bytes kind_of deser_field]; intros Hok Hn.
  - rewrite deser_u16_app by done. by exists (FU16 v).
  - rewrite deser_u32_app by done. by exists (FU32 v).
  - rewrite deser_s32_app by done. by exists (FS32 v).
  - rewrite deser_u64_app by done. by exists (FU64 v).
  - rewrite deser_s64_app by done. by exists (FS64 v).
  - rewrite deser_u256_app by done. by exists (FU256 v).
  - rewrite deser_varlen_app by done. by exists (FLen v).
  - destruct Hok as [Hwf [bs Hh]]. rewrite Hh, cells_val_fmap in *. unfold default, from_option, id in *.
    destruct (deser_varstr_app bs b) as (d & -> & _ & Hd).
    { unfold varstr_bytes in Hn. rewrite zlen_app in Hn.
      pose proof (varlen_bytes_pos (zlen bs)). lia. }
    exists (FStr d). split; [done|]. cbn. by rewrite Hh, Hd.
Qed.

Lemma deser_fields_app (fs : list field) (b : list Z) :
  Forall field_ok fs -> zlen (flat_map field_bytes fs) < 2 ^ 30 ->
  exists gs, deser_fields (map kind_of fs) (flat_map field_bytes fs ++ b) = Ret (gs, b) /\
    Forall2 same_field fs gs.
Proof.
  induction 1 as [|f fs Hf Hfs IH]; intros Hn; cbn [map flat_map deser_fields] in *.
  { by exists []. }
  rewrite zlen_app in Hn. pose proof (zlen_nonneg (field_bytes f)).
  pose proof (zlen_nonneg (flat_map field_bytes fs)).
  rewrite <- app_assoc. destruct (deser_field_app f (flat_map field_bytes fs ++ b)) as (g & -> & ?);
    [done|lia|]. cbn [mbind outcome_bind].
  destruct IH as (gs & -> & ?); [lia|]. exists (g :: gs). split; [done|]. by constructor.
Qed.

(** What the raw-copying file reader stores: the prefix byte and the bytes it
    decoded, four of them when the length was written on eight. *)
Definition varlen_raw (file : list Z) : list Z :=
  match file with
  | c :: f =>
      c :: (if c =? 253 then ztake 2 f else if c =? 254 then ztake 4 f
            else if c =? 255 then ztake 4 f else [])
  | [] => []
  end.

Lemma zwrite_at_0 (x c : option Z) (raw : list (option Z)) :
  zwrite (x :: raw) 0 [c] = Some (c :: raw).
Proof.
  pose proof (zlen_nonneg raw). rewrite zwrite_Some; [done|done|].
  zlia.
Qed.

Lemma zwrite_at_1 (x : option Z) (raw src : list (option Z)) :
  zlen src <= zlen raw ->
  zwrite (x :: raw) 1 src = Some (x :: src ++ zdrop (zlen src) raw).
Proof.
  intros H. pose proof (zlen_nonneg src). rewrite zwrite_Some by (rewrite ?zlen_cons; lia).
  unfold ztake, zdrop, zlen. replace (Z.to_nat (1 + Z.of_nat (length src))) with (S (length src)) by lia.
  by rewrite Nat2Z.id.
Qed.

(** One multi-byte case of [deser_varlen_file]: [m] bytes are read, decoded by
    [dec], and the first [k] of them kept. *)
Lemma varlen_file_case (f : list Z) (x : option Z) (raw : list (option Z)) (c k m : Z) (g : Z -> Z) :
  0 <= k <= m -> k <= zlen raw ->
  ('(p, f1) ← fread f m;
   raw2 ← total (zwrite (Some c :: raw) 1 (Some <$> ztake k p));
   '(v, _) ← ('(v, b) ← deser_bytes p m; Ret (g (le_val v), b)); Ret (v, f1, raw2, 1 + k)) =
  ('(n, f1) ← ('(v, b) ← deser_bytes f m; Ret (g (le_val v), b));
   Ret (n, f1, (Some <$> c :: ztake k f) ++ zdrop (zlen (c :: ztake k f)) (x :: raw),
        zlen (c :: ztake k f))).
Proof.
  intros Hk Hraw. rewrite deser_bytes_fread.
  destruct (deser_bytes f m) as [[p f1]| |] eqn:E; [|done..].
  apply deser_bytes_Ret in E as [-> <-]; [|lia]. cbn [mbind outcome_bind].
  replace (ztake k (p ++ f1)) with (ztake k p).
  2: { unfold ztake, zlen in *. rewrite take_app_le by lia. done. }
  rewrite zwrite_at_1 by zlia. cbn [mbind outcome_bind total]. rewrite deser_all_bytes.
  cbn [mbind outcome_bind]. rewrite zlen_cons, zlen_fmap.
  assert (zlen (ztake k p) = k) as -> by zlia.
  repeat f_equal. cbn [fmap list_fmap app]. do 2 f_equal. unfold zdrop.
  by replace (Z.to_nat (1 + k)) with (S (Z.to_nat k)) by lia.
Qed.

(** ** Properties *)

(** C2: a message made of any sequence of wire fields is written as the
    concatenation of their encodings and read back, field by field, as the same
    values, leaving the bytes that follow it untouched. *)
Theorem wire_roundtrip (fs : list field) (s : cstring) (rest : list Z)
    (Hfs : Forall field_ok fs) (Hs : cstr_wf s)
    (Hn : len s + zlen (flat_map field_bytes fs) < 2 ^ 30) :
  exists s' gs, for_each ser_field fs s = Some s' /\ cstr_wf s' /\
    cstr_cells s' = cstr_cells s ++ (Some <$> flat_map field_bytes fs) /\
    deser_fields (map kind_of fs) (flat_map field_bytes fs ++ rest) = Ret (gs, rest) /\
    Forall2 same_field fs gs.
Proof.
  pose proof (cstr_wf_len s Hs).
  destruct (appends_for_each ser_field field_bytes fs) with (s := s) as (s' & ? & ? & ?); [|done|done|].
  { eapply Forall_impl; [apply appends_field|exact Hfs]. }
  destruct (deser_fields_app fs rest Hfs) as (gs & ? & ?); [lia|]. by exists s', gs.
Qed.

Example wire_roundtrip_witness :
  let c := mk_cstring (Some 0xac :: Some 0 :: replicate 6 None) 1 8 in
  let fs := [FS32 (-2); FLen 70000; FStr c; FU256 (replicate 32 9)] in
  exists s' gs, for_each ser_field fs (mk_cstring [] 0 0) = Some s' /\ cstr_wf s' /\
    cstr_cells s' = cstr_cells (mk_cstring [] 0 0) ++ (Some <$> flat_map field_bytes fs) /\
    deser_fields (map kind_of fs) (flat_map field_bytes fs ++ [1; 2]) = Ret (gs, [1; 2]) /\
    Forall2 same_field fs gs.
Proof.
  apply wire_roundtrip; [|constructor; [done|by left]|done].
  do 2 (apply Forall_cons_2; [cbn; lia|]). apply Forall_cons_2; [|by repeat constructor].
  split; [|by exists [0xac]]. constructor; [done|]. right.
  split; [by exists 3|]. cbn. split; [lia|done].
Defined.

(** ** Readers are local

    What a reader does does not change when the buffer gets longer, unless it
    failed. *)

Class Local {A} (rd : const_buffer -> outcome (A * const_buffer)) : Prop :=
  local_any b rest : match rd b with
    | Ret (v, b') => rd (b ++ rest) = Ret (v, b' ++ rest)
    | Undef => rd (b ++ rest) = Undef
    | Fail => True
    end.

Lemma local_rd {A} (rd : const_buffer -> outcome (A * const_buffer)) {H : Local rd} b v b' rest : rd b = Ret (v, b') -> rd (b ++ rest) = Ret (v, b' ++ rest).
Proof. intros E. specialize (H b rest). by rewrite E in H. Qed.

(** A reader that reads all of a buffer fails on its proper prefixes. *)
Lemma local_prefix {A} (rd : const_buffer -> outcome (A * const_buffer)) {H : Local rd} b rest v : rd (b ++ rest) = Ret (v, []) -> rest <> [] -> rd b = Fail.
Proof.
  intros E Hr. specialize (H b rest). destruct (rd b) as [[w b']| |]; [|done|congruence]. rewrite E in H. injection H as _ H.
  symmetry in H. by apply app_eq_nil in H as [_ ?].
Qed.

#[export] Instance local_ret {A} (v : A) : Local (fun b => Ret (v, b)).
Proof. done. Qed.

#[export] Instance local_fail {A} : Local (fun b => @Fail (A * const_buffer)).
Proof. done. Qed.

#[export] Instance local_bytes (n : Z) : Local (fun b => deser_bytes b n).
Proof.
  intros b rest. unfold deser_bytes. destruct (Z.ltb_spec (zlen b) n) as [|Hn]; [done|]. pose proof (zlen_nonneg rest).
  rewrite (proj2 (Z.ltb_ge _ n)) by (rewrite zlen_app; lia). unfold ztake, zdrop. unfold zlen in Hn.
  rewrite take_app_le, drop_app_le by lia. reflexivity.
Qed.

Lemma local_bind {A B} (rd : const_buffer -> outcome (A * const_buffer)) (f : A -> const_buffer -> outcome (B * const_buffer)) :
  Local rd -> (forall v, Local (f v)) -> Local (fun b => '(v, b) ← rd b; f v b).
Proof.
  intros Hr Hf b rest. cbn [mbind outcome_bind]. specialize (Hr b rest). destruct (rd b) as [[w b1]| |]; [|done|by rewrite Hr]. rewrite Hr. apply Hf.
Qed.

Lemma local_if {A} (c : bool) (f g : const_buffer -> outcome (A * const_buffer)) : Local f -> Local g -> Local (fun b => if c then f b else g b).
Proof. by destruct c. Qed.

Lemma local_total {A B} (o : option A) (f : A -> const_buffer -> outcome (B * const_buffer)) : (forall v, Local (f v)) -> Local (fun b => v ← total o; f v b).
Proof. intros Hf b rest. destruct o as [v|]; [|done]. apply Hf. Qed.

#[export] Instance local_u16 : Local deser_u16.
Proof. apply (local_bind (fun b => deser_bytes b 2) (fun v b => Ret (le_val v, b))); intros; apply _. Qed.
#[export] Instance local_u32 : Local deser_u32.
Proof. apply (local_bind (fun b => deser_bytes b 4) (fun v b => Ret (le_val v, b))); intros; apply _. Qed.
#[export] Instance local_s32 : Local deser_s32.
Proof. apply (local_bind (fun b => deser_bytes b 4) (fun v b => Ret (s32 (le_val v), b))); intros; apply _. Qed.
#[export] Instance local_u64 : Local deser_u64.
Proof. apply (local_bind (fun b => deser_bytes b 8) (fun v b => Ret (le_val v, b))); intros; apply _. Qed.
#[export] Instance local_s64 : Local deser_s64.
Proof. apply (local_bind deser_u64 (fun v b => Ret (s64 v, b))); intros; apply _. Qed.

#[export] Instance local_varlen : Local deser_varlen.
Proof.
  apply (local_bind (fun b => deser_bytes b 1) (fun c b => let c := le_val c in if c =? 253 then deser_u16 b else if c =? 254 then deser_u32 b
    else if c =? 255 then '(v64, b1) ← deser_u64 b; Ret (u32 v64, b1) else Ret (c, b))); [apply _|]. intros c. cbv zeta.
  apply local_if; [apply _|]. apply local_if; [apply _|]. apply local_if; [|apply _].
  apply (local_bind deser_u64 (fun v b => Ret (u32 v, b))); intros; apply _.
Qed.

(** The readers of a length from a file agree with the reader from memory,
    and the one that keeps a copy stores exactly the bytes it consumed in an
    array of five bytes or more, except that it drops the upper half of an
    eight byte length. *)
Theorem varlen_file_agrees (file : list Z) (raw : list (option Z)) (buflen : Z)
    (Hraw : 5 <= zlen raw) (Hlen : 4 <= buflen) :
  deser_varlen_from_file file = deser_varlen file /\
  deser_varlen_file file raw buflen =
    ('(n, f) ← deser_varlen file;
     Ret (n, f, (Some <$> varlen_raw file) ++ zdrop (zlen (varlen_raw file)) raw,
          zlen (varlen_raw file))).
Proof.
  split; [apply varlen_from_file_eq|].
  unfold deser_varlen_file, deser_varlen. zif. rewrite deser_bytes_fread.
  destruct file as [|c f]; [done|]. destruct raw as [|x raw]; [done|].
  assert (deser_bytes (c :: f) 1 = Ret ([c], f)) as -> by by apply (deser_bytes_app [c] f).
  cbn [mbind outcome_bind].
  replace (le_val [c]) with c by (cbn; lia). cbv zeta.
  change (Some <$> [c]) with [Some c]. rewrite zwrite_at_0. cbn [mbind outcome_bind total varlen_raw].
  rewrite zlen_cons in Hraw. unfold deser_u16, deser_u32, deser_u64.
  repeat case_bool.
  - etrans; [|apply (varlen_file_case f x raw c 2 2 id); lia].
    destruct (fread f 2) as [[p f1]| |] eqn:E; [|done..]. cbn [mbind outcome_bind id].
    rewrite ztake_all; [done|]. apply deser_bytes_Ret in E as [_ ?]; lia.
  - etrans; [|apply (varlen_file_case f x raw c 4 4 id); lia].
    destruct (fread f 4) as [[p f1]| |] eqn:E; [|done..]. cbn [mbind outcome_bind id].
    rewrite ztake_all; [done|]. apply deser_bytes_Ret in E as [_ ?]; lia.
  - transitivity ('(n, f1) ← ('(v, b) ← deser_bytes f 8; Ret (u32 (le_val v), b));
      Ret (n, f1, (Some <$> c :: ztake 4 f) ++ zdrop (zlen (c :: ztake 4 f)) (x :: raw),
           zlen (c :: ztake 4 f))).
    + rewrite <- (varlen_file_case f x raw c 4 8 u32) by lia.
      destruct (fread f 8) as [[p f1]| |]; [|done..]. cbn [mbind outcome_bind].
      destruct (zwrite _ _ _); [|done]. cbn [mbind outcome_bind total].
      by destruct (deser_bytes p 8) as [[]| |].
    + by destruct (deser_bytes f 8) as [[]| |].
  - done.
Qed.

Example varlen_file_agrees_witness :
  deser_varlen_from_file [254; 1; 2; 3; 4; 9] = deser_varlen [254; 1; 2; 3; 4; 9] /\
  deser_varlen_file [254; 1; 2; 3; 4; 9] (replicate 5 None) 5 =
    ('(n, f) ← deser_varlen [254; 1; 2; 3; 4; 9];
     Ret (n, f, (Some <$> varlen_raw [254; 1; 2; 3; 4; 9]) ++
          zdrop (zlen (varlen_raw [254; 1; 2; 3; 4; 9])) (replicate 5 None),
          zlen (varlen_raw [254; 1; 2; 3; 4; 9]))).
Proof. apply (varlen_file_agrees [254; 1; 2; 3; 4; 9] (replicate 5 None) 5); by vm_compute. Defined.

(** The size check of [deser_varlen_file] admits an array of four bytes,
    but every length written on four or eight bytes makes it store five: a
    caller that announces the true size of a four byte array gets its memory
    overwritten. *)
Theorem deser_varlen_file_overflow (c : Z) (f : list Z) (raw : list (option Z))
    (Hc : c = 254 \/ c = 255) (Hf : 8 <= zlen f) (Hraw : zlen raw = 4) :
  deser_varlen_file (c :: f) raw (zlen raw) = Undef.
Proof.
  unfold deser_varlen_file. rewrite Hraw. zif. rewrite deser_bytes_fread.
  destruct raw as [|x raw]; [done|]. rewrite zlen_cons in Hraw.
  assert (deser_bytes (c :: f) 1 = Ret ([c], f)) as -> by by apply (deser_bytes_app [c] f).
  cbn [mbind outcome_bind].
  change (Some <$> [c]) with [Some c]. rewrite zwrite_at_0. cbn [mbind outcome_bind total].
  replace (le_val [c]) with c by (cbn; lia). cbv zeta.
  assert (forall p, 4 <= zlen p -> zwrite (Some c :: raw) 1 (Some <$> ztake 4 p) = None) as Hno.
  { intros p Hp. unfold zwrite. rewrite zlen_cons, zlen_fmap, zlen_ztake. by zif. }
  unfold fread. destruct Hc as [-> | ->]; cbn [Z.eqb Pos.eqb]; zif; cbn [mbind outcome_bind].
  - rewrite <- (ztake_all 4 (ztake 4 f)) by zlia. rewrite Hno; [done|zlia].
  - rewrite Hno; [done|zlia].
Qed.

Example deser_varlen_file_overflow_witness :
  deser_varlen_file (255 :: replicate 8 1) (replicate 4 None) (zlen (replicate 4 (@None Z))) = Undef.
Proof. apply (deser_varlen_file_overflow 255); [by right|done|done]. Defined.
