(* ===== verification/Vector.v ===== *)
(** * vector.c: growable arrays of pointers

    A pointer is an integer, null being 0; a cell of the array is [None] while
    it is indeterminate.  Operations that call [elem_free_f] also return the
    pointers they passed to it, in call order.  [None] as a result is undefined
    behaviour or a loop that does not end.  Index variables of type
    [unsigned int] are exact below 2^32 elements, which the invariant asks for. *)

From S2P Require Import Prelude Cstr.

Record vector := mk_vector {
  data : list (option Z);
  vlen : Z;
  valloc : Z;
  elem_free_f : bool }.

(** [while (alloc < min) alloc *= 2;] on [size_t]: 61 doublings from 8 reach 0. *)
Fixpoint grow_loop (fuel : nat) (alloc min_sz : Z) : option Z :=
  match fuel with
  | O => None
  | S fuel' => if alloc <? min_sz then grow_loop fuel' (u64 (alloc * 2)) min_sz else Some alloc
  end.

Definition sizeof_vector : Z := 32.

(** The cells an allocation of [n * sizeof (void * )] bytes provides. *)
Definition cells_for (n : Z) : Z := u64 (n * 8) / 8.

Section Operations.
Context {M : mem_mapper}.

(** The inner [option] is the null pointer. *)
Definition vector_new (res : Z) (free_f : bool) : option (option vector) :=
  if negb (mem_ok sizeof_vector) then Some None else
  alloc ← grow_loop 64 8 res;
  if negb (mem_ok (u64 (alloc * 8))) then Some None else
  Some (Some (mk_vector (replicate (Z.to_nat (cells_for alloc)) None) 0 alloc free_f)).

(** [realloc] of the array. *)
Definition realloc_cells (n : Z) (l : list (option Z)) : list (option Z) :=
  ztake n l ++ replicate (Z.to_nat (n - zlen l)) None.

Definition vector_grow (vec : vector) (min_sz : Z) : option (bool * vector) :=
  new_alloc ← grow_loop 64 (valloc vec) min_sz;
  if valloc vec =? new_alloc then Some (true, vec) else
  if negb (mem_ok (u64 (new_alloc * 8))) then Some (false, vec) else
  Some (true, mk_vector (realloc_cells (cells_for new_alloc) (data vec))
                (vlen vec) new_alloc (elem_free_f vec)).

Definition vector_add (vec : vector) (p : Z) : option (bool * vector) :=
  '(ok, v1) ← (if vlen vec =? valloc vec then vector_grow vec (vlen vec + 1)
               else Some (true, vec));
  if negb (ok : bool) then Some (false, v1) else
  d ← zset (data v1) (vlen v1) (Some p);
  Some (true, mk_vector d (vlen v1 + 1) (valloc v1) (elem_free_f v1)).

(** The last loop of [vector_resize]: [data[i] = NULL] for [i] in [i, i+n). *)
Fixpoint null_cells (n : nat) (i : Z) (d : list (option Z)) : option (list (option Z)) :=
  match n with
  | O => Some d
  | S n' => d1 ← zset d i (Some 0); null_cells n' (i + 1) d1
  end.

(** Returns the flag, the vector and the pointers handed to [elem_free_f]. *)
Definition vector_resize (vec : vector) (newsz : Z) : option (bool * vector * list Z) :=
  if newsz =? vlen vec then Some (true, vec, []) else
  if newsz <? vlen vec then
    freed ← (if elem_free_f vec
             then cells_val (zdrop newsz (ztake (vlen vec) (data vec))) else Some []);
    d ← null_cells (Z.to_nat (vlen vec - newsz)) newsz (data vec);
    Some (true, mk_vector d newsz (valloc vec) (elem_free_f vec), freed)
  else
  '(ok, v1) ← vector_grow vec newsz;
  if negb (ok : bool) then Some (false, v1, []) else
  d ← null_cells (Z.to_nat (newsz - vlen v1)) (vlen v1) (data v1);
  Some (true, mk_vector d (vlen v1) (valloc v1) (elem_free_f v1), []).

End Operations.

(** The loop of [vector_free_data]: null elements are skipped. *)
Definition vector_free_data (vec : vector) : option (vector * list Z) :=
  if bool_decide (data vec = []) then Some (vec, []) else
  freed ← (if elem_free_f vec then
             l ← cells_val (ztake (vlen vec) (data vec));
             Some (filter (fun p => p <> 0) (l : list Z))
           else Some []);
  Some (mk_vector [] 0 0 (elem_free_f vec), freed).

(** The struct is cleared and released; the result is what [elem_free_f] saw. *)
Definition vector_free (vec : option vector) (free_array : bool) : option (list Z) :=
  match vec with
  | None => Some []
  | Some v => if free_array then '(_, freed) ← vector_free_data v; Some freed else Some []
  end.

Fixpoint find_loop (i : Z) (l : list Z) (p : Z) : Z :=
  match l with
  | [] => -1
  | x :: l' => if x =? p then i else find_loop (i + 1) l' p
  end.

Definition vector_find (vec : option vector) (p : Z) : option Z :=
  match vec with
  | None => Some (-1)
  | Some v =>
      if vlen v =? 0 then Some (-1) else
      l ← cells_val (ztake (vlen v) (data v)); Some (find_loop 0 l p)
  end.

Definition vector_remove_range (vec : vector) (pos n : Z) : option (vector * list Z) :=
  if vlen vec <? u64 (pos + n) then Some (vec, []) else
  freed ← (if elem_free_f vec
           then cells_val (ztake n (zdrop pos (data vec))) else Some []);
  d ← zwrite (data vec) pos (ztake (vlen vec - pos - n) (zdrop (pos + n) (data vec)));
  Some (mk_vector d (vlen vec - n) (valloc vec) (elem_free_f vec), freed).

Definition vector_remove_idx (vec : vector) (pos : Z) : option (vector * list Z) :=
  vector_remove_range vec pos 1.

Definition vector_remove (vec : vector) (p : Z) : option (bool * vector * list Z) :=
  idx ← vector_find (Some vec) p;
  if idx <? 0 then Some (false, vec, []) else
  '(v, freed) ← vector_remove_idx vec idx;
  Some (true, v, freed).

(** ** Invariant and abstract value *)

Record vec_wf (v : vector) : Prop := mk_vec_wf {
  vwf_block : zlen (data v) = valloc v;
  vwf_alloc : exists k, 3 <= k <= 32 /\ valloc v = 2 ^ k;
  vwf_len : 0 <= vlen v <= valloc v }.

(** The vector holds exactly the pointers [l]. *)
Definition vec_holds (v : vector) (l : list Z) : Prop :=
  vec_wf v /\ ztake (vlen v) (data v) = Some <$> l.

(** ** Lemmas *)

Lemma vec_holds_len (v : vector) (l : list Z) : vec_holds v l -> vlen v = zlen l.
Proof.
  intros [[Hb _ Hl] Hh]. apply (f_equal zlen) in Hh.
  rewrite zlen_ztake, zlen_fmap in Hh. lia.
Qed.

(** Doubling from a power of two stops at a power of two large enough. *)
Lemma grow_loop_spec (fuel : nat) (k min_sz : Z) :
  0 <= k -> min_sz <= 2 ^ 60 -> 60 - k < Z.of_nat fuel -> (0 < fuel)%nat ->
  exists j, grow_loop fuel (2 ^ k) min_sz = Some (2 ^ j) /\ k <= j /\ min_sz <= 2 ^ j /\
    (j = k \/ 2 ^ (j - 1) < min_sz).
Proof.
  revert k. induction fuel as [|fuel IH]; intros k Hk Hm Hf Hp; [lia|].
  cbn [grow_loop]. destruct (Z.ltb_spec (2 ^ k) min_sz) as [Hlt|Hge].
  - assert (k < 60) by (apply (Z.pow_lt_mono_r_iff 2); lia).
    assert (2 ^ (k + 1) <= 2 ^ 60) by (apply Z.pow_le_mono_r; lia).
    replace (2 ^ k * 2) with (2 ^ (k + 1)) by (rewrite Z.pow_add_r by lia; lia).
    rewrite (wrap_small 64) by lia.
    destruct (IH (k + 1)) as (j & -> & ? & ? & Hj); [lia..|].
    exists j. split_and!; try done; try lia.
    destruct Hj as [->|]; [|by right].
    right. by replace (k + 1 - 1) with k by lia.
  - exists k. split_and!; try lia. done.
Qed.

(** The least power of two above [n] is not above a power of two that is. *)
Lemma pow2_least (j k n b : Z) :
  j = k \/ 2 ^ (j - 1) < n -> 0 <= k <= b -> k <= j -> n <= 2 ^ b -> j <= b.
Proof.
  intros [->|Hmin] Hk Hj Hn; [lia|].
  enough (j - 1 < b) by lia. apply (Z.pow_lt_mono_r_iff 2); lia.
Qed.

Lemma cells_for_small (n : Z) : 0 <= n < 2 ^ 60 -> cells_for n = n.
Proof. intros. unfold cells_for. rewrite (wrap_small 64) by lia. apply Z.div_mul. lia. Qed.

Lemma vec_prefix_realloc (n k : Z) (l : list (option Z)) :
  k <= zlen l -> zlen l <= n -> ztake k (realloc_cells n l) = ztake k l.
Proof.
  intros. unfold realloc_cells. rewrite (ztake_all n) by lia.
  unfold ztake, zlen in *. rewrite take_app_le by lia. done.
Qed.

Section Specs.
Context {M : mem_mapper}.

Lemma vector_new_spec (res : Z) (f : bool) :
  0 <= res <= 2 ^ 32 ->
  (exists v, vector_new res f = Some (Some v) /\ vec_holds v [] /\ res <= valloc v /\
             elem_free_f v = f) \/
  (vector_new res f = Some None /\ exists n, mem_ok n = false).
Proof.
  intros Hres. unfold vector_new. case_bool; reflect_bools; [right; by eauto|].
  destruct (grow_loop_spec 64 3 res) as (j & Hg & Hj & Hle & Hmin); [lia..|].
  change (2 ^ 3) with 8 in Hg. rewrite Hg. cbn [mbind option_bind].
  case_bool; reflect_bools; [right; by eauto|].
  assert (j <= 32) as Hj32 by (eapply pow2_least; eauto; lia).
  assert (2 ^ j <= 2 ^ 32) by (apply Z.pow_le_mono_r; lia).
  left. eexists. split; [done|]. cbn [valloc elem_free_f]. split_and!; try done.
  split; cbn [vlen data valloc]; [|done]. constructor; cbn [vlen data valloc].
  - rewrite zlen_replicate, cells_for_small by lia. lia.
  - exists j. lia.
  - lia.
Qed.

Lemma vector_grow_spec (v : vector) (n : Z) :
  vec_wf v -> 0 <= n <= 2 ^ 32 ->
  exists v', (vector_grow v n = Some (true, v') /\ vec_wf v' /\ n <= valloc v' /\
              vlen v' = vlen v /\ elem_free_f v' = elem_free_f v /\
              ztake (vlen v) (data v') = ztake (vlen v) (data v)) \/
             (vector_grow v n = Some (false, v) /\ exists n, mem_ok n = false).
Proof.
  intros [Hb (k & Hk & Ha) Hl] Hn. unfold vector_grow. rewrite Ha.
  destruct (grow_loop_spec 64 k n) as (j & -> & Hj & Hle & Hmin); [lia..|].
  cbn [mbind option_bind]. destruct (Z.eqb_spec (2 ^ k) (2 ^ j)) as [He|He].
  { exists v. left. split_and!; try done; [|lia]. constructor; [lia|by exists k|lia]. }
  case_bool; reflect_bools; [exists v; right; by eauto|].
  assert (j <= 32) as Hj32 by (eapply pow2_least; eauto; lia).
  assert (2 ^ j <= 2 ^ 32) by (apply Z.pow_le_mono_r; lia).
  assert (2 ^ k <= 2 ^ j) by (apply Z.pow_le_mono_r; lia).
  eexists. left. split; [done|]. cbn [vlen data valloc elem_free_f].
  rewrite cells_for_small by lia. split_and!; try done.
  - constructor; cbn [vlen data valloc]; [|by exists j; lia|lia].
    unfold realloc_cells. zlia.
  - apply vec_prefix_realloc; lia.
Qed.

Lemma vector_add_spec (v : vector) (l : list Z) (p : Z) :
  vec_holds v l -> vlen v < 2 ^ 32 ->
  exists v', (vector_add v p = Some (true, v') /\ vec_holds v' (l ++ [p]) /\
              elem_free_f v' = elem_free_f v) \/
             (vector_add v p = Some (false, v) /\ exists n, mem_ok n = false).
Proof.
  intros [Hwf Hh] Hlen. unfold vector_add.
  assert (exists v1, ((if vlen v =? valloc v then vector_grow v (vlen v + 1) else Some (true, v))
            = Some (true, v1) /\ vec_wf v1 /\ vlen v < valloc v1 /\ vlen v1 = vlen v /\
            elem_free_f v1 = elem_free_f v /\
            ztake (vlen v) (data v1) = ztake (vlen v) (data v)) \/
          ((if vlen v =? valloc v then vector_grow v (vlen v + 1) else Some (true, v))
            = Some (false, v) /\ exists n, mem_ok n = false)) as [v1 [Hv1|[-> ?]]].
  { destruct (Z.eqb_spec (vlen v) (valloc v)) as [E|E].
    - destruct (vector_grow_spec v (vlen v + 1)) as [v1 [(-> & ? & ? & ? & ? & ?)|[-> ?]]];
        [done|destruct Hwf; lia| |].
      + exists v1. left. split_and!; try done. lia.
      + exists v. by right.
    - exists v. left. destruct Hwf. split_and!; try done; lia. }
  - destruct Hv1 as (-> & [Hb Ha Hl] & Hroom & Hlen1 & Hf & Hpre). cbn [mbind option_bind negb].
    rewrite zset_Some by lia. cbn [mbind option_bind].
    eexists. left. split; [done|]. split; [|done]. split; cbn [vlen data valloc].
    + constructor; cbn [vlen data valloc]; [by rewrite zlen_insert|done|lia].
    + unfold ztake. replace (Z.to_nat (vlen v1 + 1)) with (S (Z.to_nat (vlen v1))) by lia.
      rewrite (take_S_r _ _ (Some p)); [|apply list_lookup_insert_eq; unfold zlen in Hb; lia].
      rewrite take_insert_ge by lia. rewrite Hlen1. unfold ztake in *. rewrite Hpre, Hh.
      by rewrite fmap_app.
  - exists v. right. by cbn.
Qed.

End Specs.

Lemma vector_remove_range_spec (v : vector) (l : list Z) (pos n : Z) :
  vec_holds v l -> 0 <= pos -> 0 <= n -> pos + n <= zlen l ->
  exists v', vector_remove_range v pos n =
      Some (v', if elem_free_f v then ztake n (zdrop pos l) else []) /\
    vec_holds v' (ztake pos l ++ zdrop (pos + n) l) /\ elem_free_f v' = elem_free_f v.
Proof.
  intros Hv Hp Hn Hle. pose proof (vec_holds_len v l Hv) as Hlen.
  destruct Hv as [[Hb (k & Hk & Ha) Hl] Hh].
  assert (2 ^ k <= 2 ^ 32) by (apply Z.pow_le_mono_r; lia).
  assert (data v = (Some <$> l) ++ zdrop (vlen v) (data v)) as Hd.
  { rewrite <- Hh. symmetry. apply ztake_zdrop. }
  unfold vector_remove_range. rewrite (wrap_small 64) by lia. zif.
  assert (ztake n (zdrop pos (data v)) = Some <$> ztake n (zdrop pos l)) as Hfreed.
  { rewrite Hd. unfold ztake, zdrop, zlen in *. rewrite drop_app_le by (rewrite length_fmap; lia).
    rewrite take_app_le by (rewrite length_drop, length_fmap; lia).
    by rewrite fmap_take, fmap_drop. }
  assert (ztake (vlen v - pos - n) (zdrop (pos + n) (data v)) = Some <$> zdrop (pos + n) l) as Htail.
  { rewrite Hd at 1. unfold ztake, zdrop, zlen in *. rewrite drop_app_le by (rewrite length_fmap; lia).
    rewrite take_app_le by (rewrite length_drop, length_fmap; lia).
    rewrite take_ge by (rewrite length_drop, length_fmap; lia). by rewrite fmap_drop. }
  rewrite Htail, Hfreed, cells_val_fmap.
  rewrite zwrite_Some by zlia.
  exists (mk_vector (ztake pos (data v) ++ (Some <$> zdrop (pos + n) l) ++
     zdrop (pos + zlen (Some <$> zdrop (pos + n) l)) (data v)) (vlen v - n) (valloc v) (elem_free_f v)).
  split; [by destruct (elem_free_f v)|]. split; [|done]. split; cbn [vlen data valloc].
  - constructor; cbn [vlen data valloc]; [zlia|by exists k|lia].
  - rewrite app_assoc, ztake_app_len by zlia. rewrite fmap_app. f_equal.
    rewrite Hd at 1. unfold ztake, zlen in *. rewrite take_app_le by (rewrite length_fmap; lia).
    by rewrite fmap_take.
Qed.

Lemma find_loop_spec (l : list Z) (p i : Z) :
  (find_loop i l p = -1 /\ ~ In p l) \/
  (exists a b, l = a ++ p :: b /\ ~ In p a /\ find_loop i l p = i + zlen a).
Proof.
  revert i. induction l as [|x l IH]; intros i; cbn [find_loop]; [left; split; [done|intros []]|].
  destruct (Z.eqb_spec x p) as [->|Hne].
  - right. exists [], l. split_and!; [done|intros []|rewrite zlen_nil; lia].
  - destruct (IH (i + 1)) as [[-> Hn]|(a & b & -> & Hn & ->)].
    + left. split; [done|]. by intros [|].
    + right. exists (x :: a), b. split_and!; [done|by intros [|]|rewrite zlen_cons; lia].
Qed.

Lemma null_cells_spec (n : nat) (i : Z) (d : list (option Z)) :
  0 <= i -> i + Z.of_nat n <= zlen d ->
  null_cells n i d = Some (ztake i d ++ replicate n (Some 0) ++ zdrop (i + Z.of_nat n) d).
Proof.
  revert i d. induction n as [|n IH]; intros i d Hi Hn; cbn [null_cells].
  { f_equal. replace (i + Z.of_nat 0) with i by lia. symmetry. apply ztake_zdrop. }
  rewrite zset_Some by lia. cbn [mbind option_bind]. rewrite IH by zlia. f_equal.
  unfold ztake, zdrop, zlen in *.
  replace (Z.to_nat (i + 1)) with (S (Z.to_nat i)) by lia.
  rewrite (take_S_r _ _ (Some 0)) by (apply list_lookup_insert_eq; lia).
  rewrite take_insert_ge, drop_insert_lt by lia. rewrite <- app_assoc. cbn. do 3 f_equal.
  f_equal. lia.
Qed.

Lemma zdrop_fmap {A B} (f : A -> B) (n : Z) (l : list A) : zdrop n (f <$> l) = f <$> zdrop n l.
Proof. unfold zdrop. by rewrite fmap_drop. Qed.

Lemma ztake_fmap {A B} (f : A -> B) (n : Z) (l : list A) : ztake n (f <$> l) = f <$> ztake n l.
Proof. unfold ztake. by rewrite fmap_take. Qed.

Lemma if_Some {A} (b : bool) (x y : A) :
  (if b then Some x else Some y) = Some (if b then x else y).
Proof. by destruct b. Qed.

Lemma vector_resize_truncate (v : vector) (l : list Z) (n : Z) :
  vec_holds v l -> 0 <= n < zlen l ->
  exists v', vector_resize v n = Some (true, v', if elem_free_f v then zdrop n l else []) /\
    vec_holds v' (ztake n l) /\ elem_free_f v' = elem_free_f v.
Proof.
  intros Hv Hn. pose proof (vec_holds_len v l Hv) as Hlen.
  destruct Hv as [[Hb (k & Hk & Ha) Hl] Hh].
  unfold vector_resize. zif. rewrite Hh, zdrop_fmap, cells_val_fmap, if_Some.
  rewrite null_cells_spec by lia. eexists.
  split; [done|]. split; [|done]. split; cbn [vlen data valloc].
  - constructor; cbn [vlen data valloc]; [zlia|by exists k|lia].
  - rewrite ztake_app_len by zlia. rewrite <- ztake_fmap, <- Hh.
    unfold ztake. rewrite take_take. f_equal. lia.
Qed.

Lemma vector_resize_grow (v : vector) (l : list Z) (n : Z) :
  vec_holds v l -> zlen l < n <= 2 ^ 32 ->
  exists v', vector_resize v n = Some (true, v', []) /\ vec_holds v' l /\ elem_free_f v' = elem_free_f v /\
    n <= valloc v' /\ (forall i, zlen l <= i < n -> zget (data v') i = Some (Some 0)).
Proof.
  intros Hv Hn. pose proof (vec_holds_len v l Hv) as Hlen. pose proof (zlen_nonneg l).
  destruct Hv as [Hwf Hh]. unfold vector_resize. zif.
  destruct (vector_grow_spec v n Hwf) as [v1 [(-> & [Hb Ha Hl] & Hroom & Hl1 & Hf & Hpre)|(_ & m & ?)]];
    [lia| |done].
  cbn [mbind option_bind negb]. rewrite null_cells_spec by lia.
  eexists. split; [done|]. cbn [data valloc]. split_and!; [split| | |]; cbn [vlen data valloc elem_free_f].
  - constructor; cbn [vlen data valloc]; [zlia|done|lia].
  - rewrite ztake_app_len by zlia. by rewrite Hl1, Hpre, Hh.
  - done.
  - lia.
  - intros i Hi. rewrite zget_app_r by zlia. rewrite zget_app_l by zlia.
    unfold zget. rewrite zlen_ztake. zif. apply lookup_replicate_2. lia.
Qed.

(** ** Refinement of a list with an ownership discipline *)

Inductive vec_op : Type :=
  | OpAdd (p : Z)
  | OpRemoveRange (pos n : Z)
  | OpRemove (p : Z)
  | OpResize (newsz : Z).

(** One call on the concrete vector: the new vector and the freed pointers. *)
Definition vec_exec (v : vector) (op : vec_op) : option (vector * list Z) :=
  match op with
  | OpAdd p => '(_, v') ← vector_add v p; Some (v', [])
  | OpRemoveRange pos n => vector_remove_range v pos n
  | OpRemove p => '(_, v', freed) ← vector_remove v p; Some (v', freed)
  | OpResize n => '(_, v', freed) ← vector_resize v n; Some (v', freed)
  end.

(** The list removed by the first occurrence of [p]. *)
Fixpoint remove_first (p : Z) (l : list Z) : list Z * list Z :=
  match l with
  | [] => ([], [])
  | x :: l' =>
      if x =? p then (l', [x]) else let '(r, f) := remove_first p l' in (x :: r, f)
  end.

(** The same call on the abstract list: what is kept and what is dropped. *)
Definition abs_exec (l : list Z) (op : vec_op) : list Z * list Z :=
  match op with
  | OpAdd p => (l ++ [p], [])
  | OpRemoveRange pos n =>
      if zlen l <? pos + n then (l, [])
      else (ztake pos l ++ zdrop (pos + n) l, ztake n (zdrop pos l))
  | OpRemove p => remove_first p l
  | OpResize n => (ztake n l, zdrop n l)
  end.

Definition op_ok (l : list Z) (op : vec_op) : Prop :=
  match op with
  | OpAdd _ => zlen l < 2 ^ 32
  | OpRemoveRange pos n => 0 <= pos /\ 0 <= n /\ pos + n < 2 ^ 64
  | OpRemove _ => True
  | OpResize n => 0 <= n <= 2 ^ 32
  end.

Fixpoint vec_run (v : vector) (ops : list vec_op) : option (vector * list Z) :=
  match ops with
  | [] => Some (v, [])
  | op :: ops' =>
      '(v1, f1) ← vec_exec v op; '(v2, f2) ← vec_run v1 ops'; Some (v2, f1 ++ f2)
  end.

Fixpoint abs_run (l : list Z) (ops : list vec_op) : list Z * list Z :=
  match ops with
  | [] => (l, [])
  | op :: ops' =>
      let '(l1, f1) := abs_exec l op in
      let '(l2, f2) := abs_run l1 ops' in (l2, f1 ++ f2)
  end.

Fixpoint ops_ok (l : list Z) (ops : list vec_op) : Prop :=
  match ops with
  | [] => True
  | op :: ops' => op_ok l op /\ ops_ok (abs_exec l op).1 ops'
  end.

(** The pointers a sequence of calls hands over to the vector. *)
Definition added (ops : list vec_op) : list Z :=
  flat_map (fun op => match op with OpAdd p => [p] | _ => [] end) ops.

Lemma remove_first_absent (p : Z) (l : list Z) : ~ In p l -> remove_first p l = (l, []).
Proof.
  induction l as [|x l IH]; intros Hn; [done|]. cbn [remove_first].
  destruct (Z.eqb_spec x p) as [->|]; [by exfalso; apply Hn; left|].
  rewrite IH; [done|]. intros ?; apply Hn; by right.
Qed.

Lemma remove_first_split (p : Z) (a b : list Z) :
  ~ In p a -> remove_first p (a ++ p :: b) = (a ++ b, [p]).
Proof.
  induction a as [|x a IH]; intros Hn; cbn [remove_first app]; [by rewrite Z.eqb_refl|].
  destruct (Z.eqb_spec x p) as [->|]; [by exfalso; apply Hn; left|].
  rewrite IH; [done|]. intros ?; apply Hn; by right.
Qed.

Lemma vector_remove_spec (v : vector) (l : list Z) (p : Z) :
  vec_holds v l ->
  exists v' ok, vector_remove v p =
      Some (ok, v', if elem_free_f v then (remove_first p l).2 else []) /\
    vec_holds v' (remove_first p l).1 /\ elem_free_f v' = elem_free_f v /\
    (ok = true <-> In p l).
Proof.
  intros Hv. pose proof (vec_holds_len v l Hv) as Hlen. unfold vector_remove, vector_find.
  assert ((if vlen v =? 0 then Some (-1)
           else l0 ← cells_val (ztake (vlen v) (data v)); Some (find_loop 0 l0 p))
          = Some (find_loop 0 l p)) as ->.
  { destruct Hv as [_ Hh]. rewrite Hh, cells_val_fmap. destruct (Z.eqb_spec (vlen v) 0); [|done].
    destruct l; [done|]. rewrite zlen_cons in Hlen. pose proof (zlen_nonneg l). lia. }
  cbn [mbind option_bind]. destruct (find_loop_spec l p 0) as [[-> Hn]|(a & b & -> & Hn & ->)].
  - cbn. rewrite (remove_first_absent p l Hn). exists v, false.
    split_and!; [by destruct (elem_free_f v)|done|done|by split].
  - pose proof (zlen_nonneg a). zif. unfold vector_remove_idx.
    destruct (vector_remove_range_spec v (a ++ p :: b) (0 + zlen a) 1) as (v' & -> & Hv' & Hf);
      [done|lia|lia|pose proof (zlen_nonneg b); zlia|].
    cbn [mbind option_bind]. rewrite remove_first_split by done. exists v', true.
    rewrite ztake_app_len in Hv' by lia.
    replace (zdrop (0 + zlen a + 1) (a ++ p :: b)) with b in Hv'.
    2: { change (a ++ p :: b) with (a ++ [p] ++ b). rewrite app_assoc, zdrop_app_len; [done|].
         zlia. }
    rewrite zdrop_app_len by lia. split_and!; [by destruct (elem_free_f v)|done|done|].
    split; [|done]. intros _. apply in_app_iff. by right; left.
Qed.

Lemma vector_exec_refines (v : vector) (l : list Z) (op : vec_op) :
  vec_holds v l -> op_ok l op ->
  exists v', vec_exec v op = Some (v', if elem_free_f v then (abs_exec l op).2 else []) /\
    vec_holds v' (abs_exec l op).1 /\ elem_free_f v' = elem_free_f v.
Proof.
  intros Hv Hok. pose proof (vec_holds_len v l Hv) as Hlen.
  destruct op as [p|pos n|p|n]; cbn [vec_exec abs_exec op_ok fst snd] in *.
  - destruct (vector_add_spec v l p Hv) as [v' [(-> & ? & ?)|(_ & m & ?)]]; [lia| |done].
    exists v'. cbn. split_and!; try done. by destruct (elem_free_f v).
  - destruct (Z.ltb_spec (zlen l) (pos + n)).
    + unfold vector_remove_range. rewrite (wrap_small 64) by lia. zif.
      exists v. split_and!; try done. by destruct (elem_free_f v).
    + destruct (vector_remove_range_spec v l pos n Hv) as (v' & Hr & ? & ?); [lia..|].
      by exists v'.
  - destruct (vector_remove_spec v l p Hv) as (v' & ok & -> & ? & ? & _).
    by exists v'.
  - destruct (Z.ltb_spec n (zlen l)).
    + destruct (vector_resize_truncate v l n Hv) as (v' & -> & ? & ?); [lia|].
      by exists v'.
    + rewrite ztake_all by lia. replace (zdrop n l) with (@nil Z).
      2: { unfold zdrop, zlen in *. rewrite drop_ge by lia. done. }
      replace (if elem_free_f v then _ else _) with (@nil Z) by (by destruct (elem_free_f v)).
      destruct (Z.eqb_spec n (zlen l)) as [->|].
      * exists v. unfold vector_resize. rewrite Hlen, Z.eqb_refl. done.
      * destruct (vector_resize_grow v l n Hv) as (v' & -> & ? & ? & _); [lia|].
        by exists v'.
Qed.

Lemma remove_first_perm (p : Z) (l : list Z) :
  (remove_first p l).1 ++ (remove_first p l).2 ≡ₚ l.
Proof.
  induction l as [|x l IH]; [done|]. cbn [remove_first]. case_bool; cbn [fst snd].
  - apply Permutation_app_comm.
  - destruct (remove_first p l) as [r f]. cbn [fst snd] in *. cbn. by rewrite IH.
Qed.

Lemma abs_exec_perm (l : list Z) (op : vec_op) :
  op_ok l op -> (abs_exec l op).1 ++ (abs_exec l op).2 ≡ₚ l ++ added [op].
Proof.
  intros Hok. destruct op as [p|pos n|p|n]; cbn [abs_exec added flat_map op_ok] in *; rewrite ?app_nil_r.
  - done.
  - case_bool; cbn [fst snd]; [by rewrite app_nil_r|].
    assert (l = ztake pos l ++ ztake n (zdrop pos l) ++ zdrop (pos + n) l) as Hl.
    { rewrite <- (ztake_zdrop pos l) at 1. f_equal. unfold ztake, zdrop.
      replace (Z.to_nat (pos + n)) with (Z.to_nat pos + Z.to_nat n)%nat by lia.
      rewrite <- drop_drop. symmetry. apply take_drop. }
    transitivity (ztake pos l ++ ztake n (zdrop pos l) ++ zdrop (pos + n) l); [|by rewrite <- Hl].
    rewrite <- app_assoc. apply Permutation_app_head, Permutation_app_comm.
  - apply remove_first_perm.
  - cbn [fst snd]. by rewrite ztake_zdrop.
Qed.

Lemma abs_run_perm (ops : list vec_op) (l : list Z) :
  ops_ok l ops -> (abs_run l ops).1 ++ (abs_run l ops).2 ≡ₚ l ++ added ops.
Proof.
  revert l. induction ops as [|op ops IH]; intros l.
  { intros _. cbn. done. }
  intros [Hop Hops]. cbn [abs_run]. pose proof (abs_exec_perm l op Hop) as Hp.
  destruct (abs_exec l op) as [l1 f1]. cbn [fst snd] in *. specialize (IH l1 Hops).
  destruct (abs_run l1 ops) as [l2 f2]. cbn [fst snd] in *.
  change (added (op :: ops)) with ((match op with OpAdd p => [p] | _ => [] end) ++ added ops).
  cbn [added flat_map] in Hp. rewrite app_nil_r in Hp.
  etrans; [|rewrite app_assoc; apply Permutation_app_tail; exact Hp].
  rewrite (Permutation_app_comm l1 f1), <- app_assoc, <- IH, !app_assoc.
  by rewrite (Permutation_app_comm l2 f1).
Qed.

Lemma vec_run_refines (ops : list vec_op) (v : vector) (l : list Z) :
  vec_holds v l -> ops_ok l ops ->
  exists v', vec_run v ops = Some (v', if elem_free_f v then (abs_run l ops).2 else []) /\
    vec_holds v' (abs_run l ops).1 /\ elem_free_f v' = elem_free_f v.
Proof.
  revert v l. induction ops as [|op ops IH]; intros v l Hv Hok; cbn [vec_run abs_run].
  { exists v. split; [by destruct (elem_free_f v)|by split]. }
  destruct Hok as [Hop Hops]. destruct (vector_exec_refines v l op Hv Hop) as (v1 & -> & Hv1 & Hf).
  destruct (abs_exec l op) as [l1 f1]. cbn [fst snd mbind option_bind] in *.
  destruct (IH v1 l1 Hv1 Hops) as (v2 & -> & Hv2 & Hf2). rewrite Hf in Hf2 |- *.
  destruct (abs_run l1 ops) as [l2 f2]. cbn [fst snd mbind option_bind] in *.
  exists v2. split; [by destruct (elem_free_f v)|by split].
Qed.

(** ** Properties *)

Lemma filter_non_null (l : list Z) : Forall (fun p => p <> 0) l -> filter (fun p => p <> 0) l = l.
Proof. induction 1 as [|p l Hp _ IH]; [done|]. by rewrite filter_cons_True, IH. Qed.

(** [vector_free] hands over what is held, null pointers aside. *)
Lemma vector_free_spec (v : vector) (l : list Z) : vec_holds v l -> elem_free_f v = true ->
  vector_free (Some v) true = Some (filter (fun p => p <> 0) l) /\ vector_free (Some v) false = Some [].
Proof.
  intros [[Hb (k & Hk & Ha) Hl] Hh] Hf. split; [|done]. unfold vector_free, vector_free_data.
  rewrite bool_decide_false, Hf, Hh, cells_val_fmap; [done|]. intros E. rewrite E, zlen_nil in Hb.
  assert (2 ^ 3 <= 2 ^ k) by (apply Z.pow_le_mono_r; lia). lia.
Qed.

(** C38: every sequence of calls on a fresh vector with [elem_free_f] behaves as
    on a list, the pointers handed to [elem_free_f] so far together with the
    ones still held being exactly the pointers that were added.  Over the whole
    life of the vector, from [vector_new] to [vector_free] with its array, every
    pointer that was added, if none of them is null, is handed to [elem_free_f]
    exactly once; [vector_free] without the array hands over nothing. *)
Theorem vector_ownership (res : Z) (ops : list vec_op)
    (Hres : 0 <= res <= 2 ^ 32) (Hops : ops_ok [] ops) (Hnull : Forall (fun p => p <> 0) (added ops)) :
  exists v0 v freed rest, vector_new res true = Some (Some v0) /\ vec_run v0 ops = Some (v, freed) /\
    (abs_run [] ops).2 = freed /\ vec_holds v (abs_run [] ops).1 /\
    (abs_run [] ops).1 ++ freed ≡ₚ added ops /\
    vector_free (Some v) true = Some rest /\ freed ++ rest ≡ₚ added ops /\ vector_free (Some v) false = Some [].
Proof.
  destruct (vector_new_spec res true Hres) as [(v0 & Hn & Hv0 & _ & Hf)|(_ & n & ?)]; [|done].
  destruct (vec_run_refines ops v0 [] Hv0 Hops) as (v & Hr & Hv & Hfv). rewrite Hf in Hr, Hfv.
  pose proof (abs_run_perm ops [] Hops) as Hp. cbn [app] in Hp. destruct (vector_free_spec v _ Hv Hfv) as [F1 F2].
  assert (filter (fun p => p <> 0) (abs_run [] ops).1 = (abs_run [] ops).1) as Eall.
  { apply filter_non_null. rewrite <- Hp in Hnull. by apply Forall_app in Hnull as [? _]. }
  exists v0, v, (abs_run [] ops).2, (abs_run [] ops).1. rewrite Eall in F1. split_and!; try done. by rewrite Permutation_app_comm.
Qed.

Example vector_ownership_witness :
  let ops := [OpAdd 16; OpAdd 32; OpAdd 48; OpRemove 32; OpResize 1] in
  exists v0 v freed rest, vector_new 10 true = Some (Some v0) /\ vec_run v0 ops = Some (v, freed) /\
    (abs_run [] ops).2 = freed /\ vec_holds v (abs_run [] ops).1 /\ (abs_run [] ops).1 ++ freed ≡ₚ added ops /\
    vector_free (Some v) true = Some rest /\ freed ++ rest ≡ₚ added ops /\ vector_free (Some v) false = Some [].
Proof.
  apply (vector_ownership 10 [OpAdd 16; OpAdd 32; OpAdd 48; OpRemove 32; OpResize 1]).
  - lia.
  - cbn. unfold zlen. cbn. lia.
  - repeat constructor; lia.
Defined.

(** Growing with [vector_resize] reserves and clears the new cells and
    reports success, but the vector keeps its old length: an index in the new
    range is still outside of the vector. *)
Theorem vector_resize_grow_keeps_length (v : vector) (l : list Z) (n : Z)
    (Hv : vec_holds v l) (Hn : zlen l < n <= 2 ^ 32) :
  exists v', vector_resize v n = Some (true, v', []) /\ vec_holds v' l /\ vlen v' <> n /\
    n <= valloc v' /\ (forall i, zlen l <= i < n -> zget (data v') i = Some (Some 0)).
Proof.
  destruct (vector_resize_grow v l n Hv Hn) as (v' & Hr & Hv' & _ & Ha & Hz).
  exists v'. split_and!; try done. rewrite (vec_holds_len v' l Hv'). lia.
Qed.

Example vector_resize_grow_keeps_length_witness :
  exists v', vector_resize (mk_vector (replicate 8 None) 0 8 false) 20 = Some (true, v', []) /\
    vec_holds v' [] /\ vlen v' <> 20 /\ 20 <= valloc v' /\
    (forall i, zlen (@nil Z) <= i < 20 -> zget (data v') i = Some (Some 0)).
Proof.
  apply (vector_resize_grow_keeps_length (mk_vector (replicate 8 None) 0 8 false) [] 20).
  - split; [constructor; cbn; [done|by exists 3|lia]|done].
  - unfold zlen; cbn; lia.
Defined.
