(* ===== verification/Sha2.v ===== *)
(** * sha2.c: SHA-256, SHA-512 and HMAC

    Both hash functions run the same code at two word sizes: the transform with
    its message schedule kept in a circular buffer of 16 words that overlays
    [context->buffer], the incremental [Update] and the padding of [Final].
    The shared code is written once over [sha_algo], the record of what differs
    (word size, tables, sigma functions, bit counter); [sha256] and [sha512]
    are its two instances.  The reference is the FIPS 180-4 description: pad
    the message, split it in blocks, expand each block to the full schedule and
    fold the compression function.

    The modelled transform is the one compiled by default (without
    SHA2_UNROLL_TRANSFORM), on a little endian host. *)

From S2P Require Import Prelude.

(** ** Macros *)

(** [REVERSE32] and [REVERSE64]. *)
Definition REVERSE32 (w : Z) : Z :=
  let tmp := Z.lor (Z.shiftr w 16) (u32 (Z.shiftl w 16)) in
  Z.lor (Z.shiftr (Z.land tmp 0xff00ff00) 8) (u32 (Z.shiftl (Z.land tmp 0x00ff00ff) 8)).

Definition REVERSE64 (w : Z) : Z :=
  let tmp := Z.lor (Z.shiftr w 32) (u64 (Z.shiftl w 32)) in
  let tmp := Z.lor (Z.shiftr (Z.land tmp 0xff00ff00ff00ff00) 8)
                   (u64 (Z.shiftl (Z.land tmp 0x00ff00ff00ff00ff) 8)) in
  Z.lor (Z.shiftr (Z.land tmp 0xffff0000ffff0000) 16)
        (u64 (Z.shiftl (Z.land tmp 0x0000ffff0000ffff) 16)).

(** [R] is a shift, [S32] and [S64] are rotations to the right. *)
Definition R (b x : Z) : Z := Z.shiftr x b.
Definition S32 (b x : Z) : Z := Z.lor (Z.shiftr x b) (u32 (Z.shiftl x (32 - b))).
Definition S64 (b x : Z) : Z := Z.lor (Z.shiftr x b) (u64 (Z.shiftl x (64 - b))).

Definition Ch (x y z : Z) : Z := Z.lxor (Z.land x y) (Z.land (Z.lnot x) z).
Definition Maj (x y z : Z) : Z := Z.lxor (Z.lxor (Z.land x y) (Z.land x z)) (Z.land y z).

Definition Sigma0_256 (x : Z) : Z := Z.lxor (Z.lxor (S32 2 x) (S32 13 x)) (S32 22 x).
Definition Sigma1_256 (x : Z) : Z := Z.lxor (Z.lxor (S32 6 x) (S32 11 x)) (S32 25 x).
Definition sigma0_256 (x : Z) : Z := Z.lxor (Z.lxor (S32 7 x) (S32 18 x)) (R 3 x).
Definition sigma1_256 (x : Z) : Z := Z.lxor (Z.lxor (S32 17 x) (S32 19 x)) (R 10 x).

Definition Sigma0_512 (x : Z) : Z := Z.lxor (Z.lxor (S64 28 x) (S64 34 x)) (S64 39 x).
Definition Sigma1_512 (x : Z) : Z := Z.lxor (Z.lxor (S64 14 x) (S64 18 x)) (S64 41 x).
Definition sigma0_512 (x : Z) : Z := Z.lxor (Z.lxor (S64 1 x) (S64 8 x)) (R 7 x).
Definition sigma1_512 (x : Z) : Z := Z.lxor (Z.lxor (S64 19 x) (S64 61 x)) (R 6 x).

(** ** Tables *)

(** Four 32 bit words of a table, written as one numeral. *)
Definition quad (x : Z) : list Z := map (fun k => u32 (Z.shiftr x k)) [96; 64; 32; 0].

Definition K256 : list Z := Eval vm_compute in
  quad 0x428a2f98_71374491_b5c0fbcf_e9b5dba5 ++
  quad 0x3956c25b_59f111f1_923f82a4_ab1c5ed5 ++
  quad 0xd807aa98_12835b01_243185be_550c7dc3 ++
  quad 0x72be5d74_80deb1fe_9bdc06a7_c19bf174 ++
  quad 0xe49b69c1_efbe4786_0fc19dc6_240ca1cc ++
  quad 0x2de92c6f_4a7484aa_5cb0a9dc_76f988da ++
  quad 0x983e5152_a831c66d_b00327c8_bf597fc7 ++
  quad 0xc6e00bf3_d5a79147_06ca6351_14292967 ++
  quad 0x27b70a85_2e1b2138_4d2c6dfc_53380d13 ++
  quad 0x650a7354_766a0abb_81c2c92e_92722c85 ++
  quad 0xa2bfe8a1_a81a664b_c24b8b70_c76c51a3 ++
  quad 0xd192e819_d6990624_f40e3585_106aa070 ++
  quad 0x19a4c116_1e376c08_2748774c_34b0bcb5 ++
  quad 0x391c0cb3_4ed8aa4a_5b9cca4f_682e6ff3 ++
  quad 0x748f82ee_78a5636f_84c87814_8cc70208 ++
  quad 0x90befffa_a4506ceb_bef9a3f7_c67178f2.

Definition sha256_initial_hash_value : list Z :=
  [0x6a09e667; 0xbb67ae85; 0x3c6ef372; 0xa54ff53a;
   0x510e527f; 0x9b05688c; 0x1f83d9ab; 0x5be0cd19].

Definition K512 : list Z :=
  [0x428a2f98d728ae22; 0x7137449123ef65cd; 0xb5c0fbcfec4d3b2f;
   0xe9b5dba58189dbbc; 0x3956c25bf348b538; 0x59f111f1b605d019;
   0x923f82a4af194f9b; 0xab1c5ed5da6d8118; 0xd807aa98a3030242;
   0x12835b0145706fbe; 0x243185be4ee4b28c; 0x550c7dc3d5ffb4e2;
   0x72be5d74f27b896f; 0x80deb1fe3b1696b1; 0x9bdc06a725c71235;
   0xc19bf174cf692694; 0xe49b69c19ef14ad2; 0xefbe4786384f25e3;
   0x0fc19dc68b8cd5b5; 0x240ca1cc77ac9c65; 0x2de92c6f592b0275;
   0x4a7484aa6ea6e483; 0x5cb0a9dcbd41fbd4; 0x76f988da831153b5;
   0x983e5152ee66dfab; 0xa831c66d2db43210; 0xb00327c898fb213f;
   0xbf597fc7beef0ee4; 0xc6e00bf33da88fc2; 0xd5a79147930aa725;
   0x06ca6351e003826f; 0x142929670a0e6e70; 0x27b70a8546d22ffc;
   0x2e1b21385c26c926; 0x4d2c6dfc5ac42aed; 0x53380d139d95b3df;
   0x650a73548baf63de; 0x766a0abb3c77b2a8; 0x81c2c92e47edaee6;
   0x92722c851482353b; 0xa2bfe8a14cf10364; 0xa81a664bbc423001;
   0xc24b8b70d0f89791; 0xc76c51a30654be30; 0xd192e819d6ef5218;
   0xd69906245565a910; 0xf40e35855771202a; 0x106aa07032bbd1b8;
   0x19a4c116b8d2d0c8; 0x1e376c085141ab53; 0x2748774cdf8eeb99;
   0x34b0bcb5e19b48a8; 0x391c0cb3c5c95a63; 0x4ed8aa4ae3418acb;
   0x5b9cca4f7763e373; 0x682e6ff3d6b2b8a3; 0x748f82ee5defb2fc;
   0x78a5636f43172f60; 0x84c87814a1f0ab72; 0x8cc702081a6439ec;
   0x90befffa23631e28; 0xa4506cebde82bde9; 0xbef9a3f7b2c67915;
   0xc67178f2e372532b; 0xca273eceea26619c; 0xd186b8c721c0c207;
   0xeada7dd6cde0eb1e; 0xf57d4f7fee6ed178; 0x06f067aa72176fba;
   0x0a637dc5a2c898a6; 0x113f9804bef90dae; 0x1b710b35131c471b;
   0x28db77f523047d84; 0x32caab7b40c72493; 0x3c9ebe0a15c9bebc;
   0x431d67c49c100d4c; 0x4cc5d4becb3e42b6; 0x597f299cfc657e2a;
   0x5fcb6fab3ad6faec; 0x6c44198c4a475817].

Definition sha512_initial_hash_value : list Z :=
  [0x6a09e667f3bcc908; 0xbb67ae8584caa73b; 0x3c6ef372fe94f82b;
   0xa54ff53a5f1d36f1; 0x510e527fade682d1; 0x9b05688c2b3e6c1f;
   0x1f83d9abfb41bd6b; 0x5be0cd19137e2179].

(** ** What distinguishes the two algorithms *)

Class sha_algo := {
  wbits : Z;                      (* bits of a word *)
  wbytes : nat;                   (* bytes of a word *)
  nrounds : nat;                  (* number of rounds *)
  Kt : list Z;                    (* round constants *)
  H0 : list Z;                    (* initial hash value *)
  Sigma0 : Z -> Z; Sigma1 : Z -> Z; sigma0 : Z -> Z; sigma1 : Z -> Z;
  reverse : Z -> Z;               (* byte reversal of a word *)
  counter : Type;                 (* [context->bitcount] *)
  counter0 : counter;
  counter_low : counter -> Z;     (* its low 64 bits *)
  counter_add : counter -> Z -> counter;
  counter_image : counter -> list Z;  (* what the last block stores *)
  cleared : nat }.                (* bytes cleared before the last transform *)

Section Algorithm.
Context {A : sha_algo}.

Definition block_length : nat := 16 * wbytes.
Definition short_block_length : nat := block_length - 2 * wbytes.

Record CTX := mk_CTX { state : list Z; bitcount : counter; buffer : list Z }.

Record regs := mk_regs { ra : Z; rb : Z; rc : Z; rd : Z; re : Z; rf : Z; rg : Z; rh : Z }.

Definition load_regs (s : list Z) : regs :=
  mk_regs (nth 0 s 0) (nth 1 s 0) (nth 2 s 0) (nth 3 s 0)
          (nth 4 s 0) (nth 5 s 0) (nth 6 s 0) (nth 7 s 0).

Abbreviation word := (wrap wbits).

(** The body shared by the two loops of the transform. *)
Definition round (r : regs) (k w : Z) : regs :=
  let T1 := word (rh r + Sigma1 (re r) + Ch (re r) (rf r) (rg r) + k + w) in
  let T2 := word (Sigma0 (ra r) + Maj (ra r) (rb r) (rc r)) in
  mk_regs (word (T1 + T2)) (ra r) (rb r) (rc r) (word (rd r + T1)) (re r) (rf r) (rg r).

(** [do ... while (j < 16)]: copy with conversion of the byte order. *)
Fixpoint rounds_copy (data : list Z) (j : nat) (W : list Z) (r : regs) : list Z * regs :=
  match data with
  | [] => (W, r)
  | d :: data' =>
      let W := <[j := reverse d]> W in
      rounds_copy data' (S j) W (round r (nth j Kt 0) (nth j W 0))
  end.

(** [do ... while (j < rounds)]: in place expansion, [j & 0x0f] is [j mod 16]. *)
Fixpoint rounds_expand (n j : nat) (W : list Z) (r : regs) : list Z * regs :=
  match n with
  | O => (W, r)
  | S n' =>
      let s0 := sigma0 (nth ((j + 1) mod 16) W 0) in
      let s1 := sigma1 (nth ((j + 14) mod 16) W 0) in
      let w := word (nth (j mod 16) W 0 + word (s1 + nth ((j + 9) mod 16) W 0 + s0)) in
      let W := <[(j mod 16)%nat := w]> W in
      rounds_expand n' (S j) W (round r (nth j Kt 0) w)
  end.

Definition add_state (s : list Z) (r : regs) : list Z :=
  [word (nth 0 s 0 + ra r); word (nth 1 s 0 + rb r); word (nth 2 s 0 + rc r);
   word (nth 3 s 0 + rd r); word (nth 4 s 0 + re r); word (nth 5 s 0 + rf r);
   word (nth 6 s 0 + rg r); word (nth 7 s 0 + rh r)].

(** The little endian words of a byte array. *)
Fixpoint le_words (n : nat) (l : list Z) : list Z :=
  match n with
  | O => []
  | S n' => le_val (take wbytes l) :: le_words n' (drop wbytes l)
  end.

(** [data] is the block to process; it may be [context->buffer] itself, whose
    word [j] is read before it is overwritten. *)
Definition Transform (c : CTX) (data : list Z) : CTX :=
  let '(W, r) := rounds_copy (le_words 16 data) 0 (le_words 16 (buffer c)) (load_regs (state c)) in
  let '(W, r) := rounds_expand (nrounds - 16) 16 W r in
  mk_CTX (add_state (state c) r) (bitcount c) (flat_map (le_bytes wbytes) W).

(** [memcpy (l + i, src, |src|)] inside of the array. *)
Definition blit (l : list Z) (i : nat) (src : list Z) : list Z :=
  take i l ++ src ++ drop (i + length src) l.

Definition usedspace_of (c : CTX) : nat :=
  Z.to_nat ((Z.shiftr (counter_low (bitcount c)) 3) mod Z.of_nat block_length).

Definition with_buffer (c : CTX) (b : list Z) : CTX := mk_CTX (state c) (bitcount c) b.
Definition count_bytes (c : CTX) (n : nat) : CTX :=
  mk_CTX (state c) (counter_add (bitcount c) (u64 (Z.shiftl (Z.of_nat n) 3))) (buffer c).

(** [while (len >= BLOCK_LENGTH)] and the left-overs. *)
Fixpoint update_blocks (fuel : nat) (c : CTX) (data : list Z) : CTX :=
  match fuel with
  | O => c
  | S fuel' =>
      if (block_length <=? length data)%nat then
        let c := Transform c (take block_length data) in
        let c := count_bytes c block_length in
        update_blocks fuel' c (drop block_length data)
      else if (0 <? length data)%nat then
        count_bytes (with_buffer c (blit (buffer c) 0 data)) (length data)
      else c
  end.

Definition Update (c : CTX) (data : list Z) : CTX :=
  if (length data =? 0)%nat then c else
  let usedspace := usedspace_of c in
  if (0 <? usedspace)%nat then
    let freespace := (block_length - usedspace)%nat in
    if (freespace <=? length data)%nat then
      let c := with_buffer c (blit (buffer c) usedspace (take freespace data)) in
      let c := count_bytes c freespace in
      let c := Transform c (buffer c) in
      update_blocks (S (length data)) c (drop freespace data)
    else
      count_bytes (with_buffer c (blit (buffer c) usedspace data)) (length data)
  else update_blocks (S (length data)) c data.

Definition Init : CTX := mk_CTX H0 counter0 (replicate block_length 0).

(** The last blocks: padding, length, final transform. *)
Definition Last (c : CTX) : CTX :=
  let usedspace := usedspace_of c in
  let image := counter_image (bitcount c) in
  let c :=
    if (0 <? usedspace)%nat then
      let b := <[usedspace := 0x80]> (buffer c) in
      let usedspace := S usedspace in
      if (usedspace <=? short_block_length)%nat then
        with_buffer c (blit b usedspace (replicate (short_block_length - usedspace) 0))
      else
        let b := if (usedspace <? block_length)%nat
                 then blit b usedspace (replicate (block_length - usedspace) 0) else b in
        let c := Transform (with_buffer c b) b in
        with_buffer c (blit (buffer c) 0 (replicate cleared 0))
    else
      with_buffer c (<[O := 0x80]> (blit (buffer c) 0 (replicate short_block_length 0))) in
  let c := with_buffer c (blit (buffer c) short_block_length image) in
  Transform c (buffer c).

(** The digest; the context is zeroed. *)
Definition Final (c : CTX) : list Z * CTX :=
  let c := Last c in
  (flat_map (fun w => le_bytes wbytes (reverse w)) (state c),
   mk_CTX (replicate 8 0) counter0 (replicate block_length 0)).

Definition Raw (data : list Z) : list Z := fst (Final (Update Init data)).

(** HMAC: the key is hashed when longer than a block, then padded with zeros. *)
Definition hmac (key msg : list Z) : list Z :=
  let buf := replicate block_length 0 in
  let buf := if (block_length <? length key)%nat then blit buf 0 (Raw key) else blit buf 0 key in
  let o_key_pad := map (fun b => Z.lxor b 0x5c) buf in
  let i_key_pad := map (fun b => Z.lxor b 0x36) buf in
  let ctx := Update (Update Init i_key_pad) msg in
  let buf := blit buf 0 (fst (Final ctx)) in
  let ctx := Update (Update Init o_key_pad) (take (8 * wbytes) buf) in
  fst (Final ctx).

(** ** FIPS 180-4 *)

Definition be_words (b : list Z) : list Z :=
  map (fun i => be_val (take wbytes (drop (i * wbytes) b))) (seq 0 16).

(** The full message schedule [W_0 .. W_(n-1)]. *)
Fixpoint schedule (n : nat) (M : list Z) : list Z :=
  match n with
  | O => []
  | S t =>
      let W := schedule t M in
      W ++ [if (t <? 16)%nat then nth t M 0
            else word (sigma1 (nth (t - 2) W 0) + nth (t - 7) W 0 +
                       sigma0 (nth (t - 15) W 0) + nth (t - 16) W 0)]
  end.

Definition compress (s b : list Z) : list Z :=
  add_state s (fold_left (fun r kw => round r (fst kw) (snd kw))
                 (combine Kt (schedule nrounds (be_words b))) (load_regs s)).

(** Blocks of a byte string whose length is a multiple of the block length. *)
Fixpoint blocks (n : nat) (l : list Z) : list (list Z) :=
  match n with
  | O => []
  | S n' => take block_length l :: blocks n' (drop block_length l)
  end.

Definition pad_zeros (n : nat) : nat :=
  Z.to_nat ((Z.of_nat short_block_length - 1 - Z.of_nat n) mod Z.of_nat block_length).

Definition pad (m : list Z) : list Z :=
  m ++ [0x80] ++ replicate (pad_zeros (length m)) 0 ++
  be_bytes (2 * wbytes) (8 * Z.of_nat (length m)).

Definition sha_spec (m : list Z) : list Z :=
  flat_map (be_bytes wbytes)
    (fold_left compress (blocks (length (pad m) / block_length) (pad m)) H0).

Definition hmac_spec (key msg : list Z) : list Z :=
  let k0 := if (block_length <? length key)%nat then sha_spec key else key in
  let k := k0 ++ replicate (block_length - length k0) 0 in
  sha_spec (map (fun b => Z.lxor b 0x5c) k ++
            sha_spec (map (fun b => Z.lxor b 0x36) k ++ msg)).

End Algorithm.

(** ** The two instances *)

Definition sha256 : sha_algo := {|
  wbits := 32; wbytes := 4; nrounds := 64; Kt := K256; H0 := sha256_initial_hash_value;
  Sigma0 := Sigma0_256; Sigma1 := Sigma1_256; sigma0 := sigma0_256; sigma1 := sigma1_256;
  reverse := REVERSE32;
  counter := Z; counter0 := 0; counter_low c := c;
  counter_add c n := u64 (c + n);
  counter_image c := le_bytes 8 (REVERSE64 c);
  cleared := 56 |}.

(** [ADDINC128] on [bitcount[2]], low word first. *)
Definition ADDINC128 (w : Z * Z) (n : Z) : Z * Z :=
  let w0 := u64 (fst w + n) in
  (w0, if w0 <? n then u64 (snd w + 1) else snd w).

Definition sha512 : sha_algo := {|
  wbits := 64; wbytes := 8; nrounds := 80; Kt := K512; H0 := sha512_initial_hash_value;
  Sigma0 := Sigma0_512; Sigma1 := Sigma1_512; sigma0 := sigma0_512; sigma1 := sigma1_512;
  reverse := REVERSE64;
  counter := (Z * Z)%type; counter0 := (0, 0); counter_low c := fst c;
  counter_add := ADDINC128;
  counter_image c := le_bytes 8 (REVERSE64 (snd c)) ++ le_bytes 8 (REVERSE64 (fst c));
  cleared := 126 |}.

Definition sha256_Transform := @Transform sha256.
Definition sha256_Init := @Init sha256.
Definition sha256_Update := @Update sha256.
Definition sha256_Final := @Final sha256.
Definition sha256_Raw := @Raw sha256.
Definition hmac_sha256 := @hmac sha256.
Definition sha512_Transform := @Transform sha512.
Definition sha512_Init := @Init sha512.
Definition sha512_Update := @Update sha512.
Definition sha512_Last := @Last sha512.
Definition sha512_Final := @Final sha512.
Definition sha512_Raw := @Raw sha512.
Definition hmac_sha512 := @hmac sha512.

(** ** Byte reversal *)

(** Splits on the value of [i], which is below [n]. *)
Ltac enum_bits i n :=
  match n with
  | O => exfalso; lia
  | S ?m => destruct (Z.eq_dec i (Z.of_nat m)) as [->|]; [|enum_bits i m]
  end.

(** One bit, at a known index, of shifts and masks of the word [w]. *)
Ltac solve_bit w Hf :=
  clear - Hf;
  repeat first [rewrite Z.lor_spec | rewrite Z.land_spec | rewrite Z.shiftr_spec by lia
               | rewrite testbit_wrap by lia | rewrite Z.shiftl_spec by lia];
  let f := fresh "f" in
  set (f := Z.testbit w) in *; clearbody f; vm_compute;
  repeat match goal with |- context [f ?k] => rewrite (Hf k) by lia end;
  repeat match goal with |- context [f ?k] => destruct (f k) end; reflexivity.

Lemma REVERSE32_bit (w i : Z) :
  0 <= w < 2 ^ 32 -> 0 <= i < 32 ->
  Z.testbit (REVERSE32 w) i = Z.testbit w (8 * (3 - i / 8) + i mod 8).
Proof.
  intros Hw Hi. pose proof (fun i => testbit_high 32 w i Hw) as Hf. unfold REVERSE32. cbv zeta.
  enum_bits i 32%nat; solve_bit w Hf.
Qed.

Lemma REVERSE64_bit (w i : Z) :
  0 <= w < 2 ^ 64 -> 0 <= i < 64 ->
  Z.testbit (REVERSE64 w) i = Z.testbit w (8 * (7 - i / 8) + i mod 8).
Proof.
  intros Hw Hi. pose proof (fun i => testbit_high 64 w i Hw) as Hf. unfold REVERSE64. cbv zeta.
  enum_bits i 64%nat; solve_bit w Hf.
Qed.

Lemma REVERSE32_range (w : Z) : 0 <= w < 2 ^ 32 -> 0 <= REVERSE32 w < 2 ^ 32.
Proof.
  intros. unfold REVERSE32. cbv zeta.
  repeat first [apply lor_range | apply shiftr_range | apply land_range | by apply wrap_range]; lia.
Qed.

Lemma REVERSE64_range (w : Z) : 0 <= w < 2 ^ 64 -> 0 <= REVERSE64 w < 2 ^ 64.
Proof.
  intros. unfold REVERSE64. cbv zeta.
  repeat first [apply lor_range | apply shiftr_range | apply land_range | by apply wrap_range]; lia.
Qed.

(** A function that moves byte [k] of an [n] byte word to byte [n - 1 - k]
    turns the little endian reading of a word into the big endian one. *)
Lemma reverse_be (n : nat) (rv : Z -> Z) (b : list Z) :
  (forall w i, 0 <= w < 2 ^ (8 * Z.of_nat n) -> 0 <= i < 8 * Z.of_nat n ->
     Z.testbit (rv w) i = Z.testbit w (8 * (Z.of_nat n - 1 - i / 8) + i mod 8)) ->
  (forall w, 0 <= w < 2 ^ (8 * Z.of_nat n) -> 0 <= rv w < 2 ^ (8 * Z.of_nat n)) ->
  is_bytes b -> length b = n -> rv (le_val b) = be_val b.
Proof.
  intros Hbit Hrange Hb Hl. unfold be_val.
  assert (forall l, is_bytes l -> length l = n -> 0 <= le_val l < 2 ^ (8 * Z.of_nat n)) as Hr.
  { intros l H1 <-. rewrite Z.pow_mul_r by lia. by apply le_val_bound. }
  assert (is_bytes (rev b)) as Hrb by by apply Forall_rev.
  apply Z.bits_inj'. intros i Hi. destruct (Z.ltb_spec i (8 * Z.of_nat n)) as [Hlt|Hge].
  - assert (0 <= i / 8 < Z.of_nat n /\ 0 <= i mod 8 < 8) as [Hq Hm] by zdm.
    rewrite Hbit, !le_val_testbit by (auto; lia). f_equal.
    + rewrite rev_nth by lia. f_equal. rewrite Hl. zdm.
    + zdm.
  - rewrite !(testbit_high (8 * Z.of_nat n)); auto.
    apply Hr; [done|]. by rewrite length_rev.
Qed.
