(* ===== verification/Sha2Spec.v ===== *)
(** * sha2.c implements FIPS 180-4

    The circular message schedule equals the full one, the context after any
    sequence of updates represents the concatenation of their data, and the
    final transform hashes the padded message.  Both algorithms are instances
    of [sha_laws], what the shared code needs to know of them. *)

From S2P Require Import Prelude Sha2.

Class sha_laws (A : sha_algo) := {
  max_bytes : Z;                      (* messages the bit counter can hold *)
  counter_rep : counter -> Z -> Prop; (* the counter stands for that many bytes *)
  law_wbytes : (0 < wbytes <= 8)%nat;
  law_wbits : wbits = 8 * Z.of_nat wbytes;
  law_rounds : (16 <= nrounds)%nat;
  law_K : length Kt = nrounds;
  law_H0 : length H0 = 8%nat;
  law_reverse (b : list Z) : is_bytes b -> length b = wbytes -> reverse (le_val b) = be_val b;
  law_counter0 : counter_rep counter0 0;
  law_counter_add (c : counter) (n k : Z) :
    counter_rep c n -> 0 <= n -> 0 <= k < 2 ^ 61 -> n + k < max_bytes ->
    counter_rep (counter_add c (u64 (Z.shiftl k 3))) (n + k);
  law_counter_low (c : counter) (n : Z) :
    counter_rep c n -> 0 <= n < max_bytes ->
    (Z.shiftr (counter_low c) 3) mod Z.of_nat block_length = n mod Z.of_nat block_length;
  law_counter_image (c : counter) (n : Z) :
    counter_rep c n -> 0 <= n < max_bytes -> counter_image c = be_bytes (2 * wbytes) (8 * n);
  law_cleared : (short_block_length <= cleared <= block_length)%nat }.

Section Correct.
Context {A : sha_algo} {L : sha_laws A}.

(** ** The message schedule *)

Section Schedule.
Variable M : list Z.

Definition sch (t : nat) : Z := nth t (schedule (S t) M) 0.

Lemma schedule_length (n : nat) : length (schedule n M) = n.
Proof. induction n; simpl; [done|]. rewrite length_app, IHn. simpl. lia. Qed.

Lemma schedule_nth (n t : nat) : (t < n)%nat -> nth t (schedule n M) 0 = sch t.
Proof.
  induction n as [|n IH]; intros Hn; [lia|].
  destruct (decide (t = n)) as [->|]; [done|].
  cbn [schedule]. rewrite app_nth1 by (rewrite schedule_length; lia). apply IH. lia.
Qed.

Lemma schedule_map (n : nat) : schedule n M = map sch (seq 0 n).
Proof.
  apply (nth_ext _ _ 0 0); rewrite ?length_map, ?length_seq, schedule_length; [done|].
  intros t Ht. rewrite schedule_nth by done.
  rewrite (nth_indep _ 0 (sch 0)) by by rewrite length_map, length_seq.
  by rewrite map_nth, seq_nth.
Qed.

Lemma sch_low (t : nat) : (t < 16)%nat -> sch t = nth t M 0.
Proof.
  intros Ht. unfold sch. cbn [schedule]. rewrite app_nth2; rewrite schedule_length; [|lia].
  rewrite Nat.sub_diag. cbn [nth]. by apply Nat.ltb_lt in Ht as ->.
Qed.

Lemma sch_high (t : nat) : (16 <= t)%nat ->
  sch t = wrap wbits (sigma1 (sch (t - 2)) + sch (t - 7) + sigma0 (sch (t - 15)) + sch (t - 16)).
Proof.
  intros Ht. unfold sch at 1. cbn [schedule]. rewrite app_nth2; rewrite schedule_length; [|lia].
  rewrite Nat.sub_diag. cbn [nth]. assert ((t <? 16)%nat = false) as -> by by apply Nat.ltb_ge.
  by rewrite !schedule_nth by lia.
Qed.

(** The rounds, driven by the index. *)
Definition steps (r : regs) (ts : list nat) : regs :=
  fold_left (fun r t => round r (nth t Kt 0) (sch t)) ts r.

Lemma steps_combine (r : regs) :
  fold_left (fun r kw => round r (fst kw) (snd kw)) (combine Kt (schedule nrounds M)) r =
  steps r (seq 0 nrounds).
Proof.
  assert (combine Kt (schedule nrounds M) = map (fun t => (nth t Kt 0, sch t)) (seq 0 nrounds)) as ->.
  { rewrite schedule_map. apply (nth_ext _ _ (0, 0) (nth 0 Kt 0, sch 0)).
    - rewrite length_combine, !length_map, length_seq, law_K. lia.
    - intros t Ht. rewrite length_combine, length_map, length_seq, law_K in Ht.
      rewrite combine_nth by (rewrite law_K, length_map, length_seq; done).
      rewrite (map_nth (fun t => (nth t Kt 0, sch t)) _ 0%nat), seq_nth by lia.
      rewrite (nth_indep (map sch _) 0 (sch 0)) by (rewrite length_map, length_seq; lia).
      by rewrite map_nth, seq_nth by lia. }
  unfold steps. generalize (seq 0 nrounds) as ts. intros ts. revert r.
  induction ts as [|t ts IH]; intros r; [done|]. apply IH.
Qed.

(** [W] is the window of the schedule before round [j]. *)
Definition window (j : nat) (W : list Z) : Prop :=
  length W = 16%nat /\
  forall i, (j - 16 <= i < j)%nat -> nth (i mod 16) W 0 = sch i.

Lemma nth_insert (W : list Z) (i k : nat) (v : Z) :
  (i < length W)%nat -> nth k (<[i:=v]> W) 0 = if decide (k = i) then v else nth k W 0.
Proof.
  intros Hi. rewrite !nth_lookup. case_decide as E; [subst; by rewrite list_lookup_insert_eq|].
  by rewrite list_lookup_insert_ne by done.
Qed.

Lemma rounds_expand_spec (n j : nat) (W : list Z) (r : regs) :
  window j W -> (16 <= j)%nat ->
  snd (rounds_expand n j W r) = steps r (seq j n) /\ length (fst (rounds_expand n j W r)) = 16%nat.
Proof.
  revert j W r. induction n as [|n IH]; intros j W r [Hl Hw] Hj; [done|].
  cbn [rounds_expand seq]. unfold steps. cbn [fold_left].
  assert (forall k, (0 < k < 16)%nat -> nth ((j + k) mod 16) W 0 = sch (j + k - 16)) as Hk.
  { intros k Hk. rewrite <- Hw by lia. f_equal.
    replace (j + k)%nat with (j + k - 16 + 1 * 16)%nat at 1 by lia. apply Nat.Div0.mod_add. }
  assert (nth (j mod 16) W 0 = sch (j - 16)) as H0.
  { rewrite <- Hw by lia. f_equal.
    replace j with (j - 16 + 1 * 16)%nat at 1 by lia. apply Nat.Div0.mod_add. }
  rewrite !Hk, H0 by lia.
  assert (wrap wbits (sch (j - 16) + wrap wbits
     (sigma1 (sch (j + 14 - 16)) + sch (j + 9 - 16) + sigma0 (sch (j + 1 - 16)))) = sch j) as ->.
  { rewrite wrap_add_r, (sch_high j) by lia.
    replace (j + 14 - 16)%nat with (j - 2)%nat by lia.
    replace (j + 9 - 16)%nat with (j - 7)%nat by lia.
    replace (j + 1 - 16)%nat with (j - 15)%nat by lia. f_equal. lia. }
  apply IH; [|lia]. pose proof (Nat.mod_upper_bound j 16 ltac:(lia)).
  split; [by rewrite length_insert|]. intros i Hi. rewrite nth_insert by lia.
  case_decide as E; [|apply Hw].
  - f_equal. pose proof (Nat.div_mod_eq i 16). pose proof (Nat.div_mod_eq j 16). lia.
  - destruct (decide (i = j)) as [->|]; [done|lia].
Qed.

Lemma rounds_copy_spec (data : list Z) (j : nat) (W : list Z) (r : regs) :
  length W = 16%nat -> (j + length data = 16)%nat ->
  (forall i, (i < j)%nat -> nth i W 0 = sch i) ->
  (forall i, (i < length data)%nat -> reverse (nth i data 0) = sch (j + i)) ->
  snd (rounds_copy data j W r) = steps r (seq j (length data)) /\
  window 16 (fst (rounds_copy data j W r)).
Proof.
  revert j W r. induction data as [|d data IH]; intros j W r HW Hl Hlo Hhi; cbn [rounds_copy length].
  - split; [done|]. split; [done|]. intros i Hi. simpl in Hl. rewrite Nat.mod_small by lia. apply Hlo. lia.
  - simpl in Hl. assert (reverse d = sch j) as -> by (rewrite <- (Nat.add_0_r j); apply (Hhi 0%nat); simpl; lia).
    rewrite nth_insert by lia. rewrite decide_True by done. cbn [seq].
    unfold steps. cbn [fold_left]. apply IH.
    + by rewrite length_insert.
    + lia.
    + intros i Hi. rewrite nth_insert by lia. case_decide; [by subst|]. apply Hlo. lia.
    + intros i Hi. rewrite Nat.add_succ_comm. apply (Hhi (S i)). simpl. lia.
Qed.
End Schedule.

Lemma block_length_pos : (0 < block_length)%nat.
Proof. unfold block_length. pose proof law_wbytes. lia. Qed.

Lemma le_words_length (n : nat) (l : list Z) : length (le_words n l) = n.
Proof. revert l. induction n; intros l; simpl; auto. Qed.

Lemma le_words_nth (n i : nat) (l : list Z) :
  (i < n)%nat -> nth i (le_words n l) 0 = le_val (take wbytes (drop (i * wbytes) l)).
Proof.
  revert i l. induction n as [|n IH]; intros [|i] l Hi; try lia; [done|].
  cbn [le_words nth]. rewrite IH by lia. by rewrite drop_drop.
Qed.

Lemma be_words_nth (i : nat) (b : list Z) :
  (i < 16)%nat -> nth i (be_words b) 0 = be_val (take wbytes (drop (i * wbytes) b)).
Proof.
  intros Hi. unfold be_words.
  rewrite (nth_indep _ 0 (be_val (take wbytes (drop (0 * wbytes) b))))
    by by rewrite length_map, length_seq.
  rewrite (map_nth (fun i => be_val (take wbytes (drop (i * wbytes) b))) _ 0%nat).
  by rewrite seq_nth.
Qed.

Lemma flat_map_le_bytes_length (W : list Z) :
  length (flat_map (le_bytes wbytes) W) = (length W * wbytes)%nat.
Proof. induction W; simpl; [done|]. rewrite length_app, le_bytes_length. lia. Qed.

(** The transform of one block is the FIPS compression function. *)
Lemma Transform_spec (c : CTX) (data : list Z) :
  is_bytes data -> length data = block_length ->
  state (Transform c data) = compress (state c) data /\
  bitcount (Transform c data) = bitcount c /\
  length (buffer (Transform c data)) = block_length.
Proof.
  intros Hb Hl. unfold Transform. pose proof law_wbytes. unfold block_length in *.
  set (M := be_words data).
  destruct (rounds_copy_spec M (le_words 16 data) 0 (le_words 16 (buffer c)) (load_regs (state c)))
    as [E1 Hw]; try (rewrite le_words_length; done); [lia| |].
  { intros i Hi. rewrite le_words_length in Hi. rewrite Nat.add_0_l, sch_low, le_words_nth by lia.
    unfold M. rewrite be_words_nth by lia. apply law_reverse.
    - apply is_bytes_take, is_bytes_drop, Hb.
    - rewrite length_take, length_drop. nia. }
  destruct (rounds_copy _ _ _ _) as [W r]. cbn [fst snd] in *.
  destruct (rounds_expand_spec M (nrounds - 16) 16 W r Hw (le_n 16)) as [E2 Hl2].
  destruct (rounds_expand _ _ _ _) as [W' r']. cbn [fst snd state bitcount buffer] in *.
  split_and!; [|done|by rewrite flat_map_le_bytes_length, Hl2].
  unfold compress. rewrite steps_combine. f_equal. rewrite E2, E1, le_words_length.
  unfold steps. rewrite <- fold_left_app. f_equal. pose proof law_rounds.
  replace nrounds with (16 + (nrounds - 16))%nat at 2 by lia. by rewrite seq_app.
Qed.

(** ** The context represents the bytes fed so far *)

Lemma blocks_app (q k : nat) (a b : list Z) :
  length a = (q * block_length)%nat -> blocks (q + k) (a ++ b) = blocks q a ++ blocks k b.
Proof.
  revert a. induction q as [|q IH]; intros a Ha.
  - by destruct a.
  - simpl in Ha. cbn [blocks Nat.add app]. rewrite take_app_le, drop_app_le by lia.
    rewrite IH by (rewrite length_drop; lia). done.
Qed.

Lemma blocks_one (b : list Z) : length b = block_length -> blocks 1 b = [b].
Proof. intros H. cbn [blocks]. by rewrite take_ge by lia. Qed.

Definition full (m : list Z) : nat := (length m / block_length)%nat.
Definition tail_of (m : list Z) : list Z := drop (full m * block_length) m.
Definition head_of (m : list Z) : list Z := take (full m * block_length) m.

Record rep (c : CTX) (m : list Z) : Prop := mk_rep {
  rep_bytes : is_bytes m;
  rep_state : state c = fold_left compress (blocks (full m) (head_of m)) H0;
  rep_count : counter_rep (bitcount c) (Z.of_nat (length m));
  rep_max : Z.of_nat (length m) < max_bytes;
  rep_buffer : length (buffer c) = block_length;
  rep_tail : take (length m mod block_length) (buffer c) = tail_of m }.

Lemma full_le (m : list Z) : (full m * block_length <= length m)%nat.
Proof. unfold full. pose proof (Nat.Div0.mul_div_le (length m) block_length). lia. Qed.

Lemma length_head_of (m : list Z) : length (head_of m) = (full m * block_length)%nat.
Proof. unfold head_of. rewrite length_take. pose proof (full_le m). lia. Qed.

Lemma length_tail_of (m : list Z) : length (tail_of m) = (length m mod block_length)%nat.
Proof.
  unfold tail_of. rewrite length_drop. unfold full.
  pose proof (Nat.div_mod_eq (length m) block_length). lia.
Qed.

Lemma head_tail (m : list Z) : head_of m ++ tail_of m = m.
Proof. apply take_drop. Qed.

Lemma mod_block (n : nat) : (n mod block_length < block_length)%nat.
Proof. apply Nat.mod_upper_bound. pose proof block_length_pos. lia. Qed.

(** Splitting [m ++ d] at a block boundary [k] blocks further. *)
Lemma split_app (m d x y : list Z) (k : nat) :
  tail_of m ++ d = x ++ y -> length x = (k * block_length)%nat -> (length y < block_length)%nat ->
  full (m ++ d) = (full m + k)%nat /\ head_of (m ++ d) = head_of m ++ x /\ tail_of (m ++ d) = y.
Proof.
  intros E Hx Hy. pose proof block_length_pos.
  assert (m ++ d = (head_of m ++ x) ++ y) as Em by (rewrite <- app_assoc, <- E, app_assoc, head_tail; done).
  assert (length (head_of m ++ x) = (full m + k) * block_length)%nat as Hl
    by (rewrite length_app, length_head_of, Hx; lia).
  assert (full (m ++ d) = (full m + k)%nat) as Ef.
  { unfold full at 1. rewrite Em, length_app, Hl. rewrite Nat.div_add_l by lia.
    rewrite (Nat.div_small (length y)) by done. lia. }
  split; [done|]. unfold head_of at 1, tail_of at 1. rewrite Ef, Em, <- Hl.
  by rewrite take_app_length, drop_app_length.
Qed.

Lemma usedspace_rep (c : CTX) (m : list Z) : rep c m -> usedspace_of c = (length m mod block_length)%nat.
Proof.
  intros R. unfold usedspace_of.
  rewrite (law_counter_low _ (Z.of_nat (length m))) by (apply R || (pose proof (rep_max _ _ R); lia)).
  by rewrite <- Nat2Z.inj_mod, Nat2Z.id.
Qed.

Lemma count_rep (c : CTX) (m d : list Z) :
  counter_rep (bitcount c) (Z.of_nat (length m)) ->
  Z.of_nat (length (m ++ d)) < max_bytes -> Z.of_nat (length d) < 2 ^ 61 ->
  counter_rep (bitcount (count_bytes c (length d))) (Z.of_nat (length (m ++ d))).
Proof.
  intros Hc Hm Hd. rewrite length_app, Nat2Z.inj_add in *. cbn [count_bytes bitcount].
  apply law_counter_add; auto; lia.
Qed.

Lemma blit_length (l : list Z) (i : nat) (s : list Z) :
  (i + length s <= length l)%nat -> length (blit l i s) = length l.
Proof. intros. unfold blit. rewrite !length_app, length_take, length_drop. lia. Qed.

Lemma blit_take (l : list Z) (i : nat) (s : list Z) :
  (i + length s <= length l)%nat -> take (i + length s) (blit l i s) = take i l ++ s.
Proof.
  intros. unfold blit. rewrite app_assoc. apply take_app_length'.
  rewrite length_app, length_take. lia.
Qed.

(** Bytes that do not complete the buffer. *)
Lemma rep_fill (c : CTX) (m d : list Z) :
  rep c m -> is_bytes d -> (length m mod block_length + length d < block_length)%nat ->
  Z.of_nat (length (m ++ d)) < max_bytes -> Z.of_nat (length d) < 2 ^ 61 ->
  rep (count_bytes (with_buffer c (blit (buffer c) (length m mod block_length) d)) (length d)) (m ++ d).
Proof.
  intros R Hd Hl Hm H61. destruct R as [R1 R2 R3 R4 R5 R6].
  destruct (split_app m d [] (tail_of m ++ d) 0) as (Ef & Eh & Et); [done|done| |].
  { by rewrite length_app, length_tail_of. }
  rewrite app_nil_r in Eh. rewrite Nat.add_0_r in Ef. constructor; cbn [state buffer count_bytes with_buffer].
  - by apply is_bytes_app.
  - by rewrite Ef, Eh.
  - by apply (count_rep (with_buffer c _) m d).
  - done.
  - rewrite blit_length; lia.
  - rewrite Et, <- length_tail_of, Et, length_app, length_tail_of, blit_take by lia. by rewrite R6.
Qed.

(** One whole block made of the buffered bytes and [d]. *)
Lemma rep_state_block (c : CTX) (m d : list Z) :
  rep c m -> length (tail_of m ++ d) = block_length ->
  compress (state c) (tail_of m ++ d) =
    fold_left compress (blocks (full (m ++ d)) (head_of (m ++ d))) H0 /\
  (length (m ++ d) mod block_length = 0)%nat /\ tail_of (m ++ d) = [].
Proof.
  intros R Hl. pose proof block_length_pos.
  destruct (split_app m d (tail_of m ++ d) [] 1) as (Ef & Eh & Et);
    [by rewrite app_nil_r|by rewrite Hl; lia|simpl; lia|].
  split_and!; [|by rewrite <- length_tail_of, Et|done].
  rewrite Ef, Eh, blocks_app, blocks_one, fold_left_app, (rep_state _ _ R) by (done || apply length_head_of).
  done.
Qed.

Lemma is_bytes_tail (m : list Z) : is_bytes m -> is_bytes (tail_of m).
Proof. apply is_bytes_drop. Qed.

(** Bytes that complete the buffer. *)
Lemma rep_complete (c : CTX) (m d : list Z) :
  rep c m -> is_bytes d -> (length m mod block_length + length d = block_length)%nat ->
  Z.of_nat (length (m ++ d)) < max_bytes -> Z.of_nat (length d) < 2 ^ 61 ->
  let c1 := count_bytes (with_buffer c (blit (buffer c) (length m mod block_length) d)) (length d) in
  rep (Transform c1 (buffer c1)) (m ++ d).
Proof.
  intros R Hd Hl Hm H61 c1.
  destruct (rep_state_block c m d R) as (Es & Em & Et); [by rewrite length_app, length_tail_of|].
  destruct R as [R1 R2 R3 R4 R5 R6].
  assert (buffer c1 = tail_of m ++ d) as Eb.
  { cbn [c1 buffer count_bytes with_buffer]. rewrite <- R6, <- blit_take by lia.
    symmetry. apply take_ge. rewrite blit_length; lia. }
  destruct (Transform_spec c1 (buffer c1)) as (T1 & T2 & T3); rewrite Eb in *.
  - apply is_bytes_app. split; [by apply is_bytes_tail|done].
  - by rewrite length_app, length_tail_of.
  - constructor; [by apply is_bytes_app|by rewrite T1, <- Es| |done|done|by rewrite Em, Et].
    rewrite T2. by apply (count_rep (with_buffer c _) m d).
Qed.

(** A whole block taken from the input. *)
Lemma rep_block (c : CTX) (m d : list Z) :
  rep c m -> is_bytes d -> (length m mod block_length = 0)%nat -> length d = block_length ->
  Z.of_nat (length (m ++ d)) < max_bytes -> Z.of_nat (length d) < 2 ^ 61 ->
  rep (count_bytes (Transform c d) block_length) (m ++ d).
Proof.
  intros R Hd H0 Hl Hm H61.
  assert (tail_of m = []) as Et by (apply nil_length_inv; by rewrite length_tail_of).
  destruct (rep_state_block c m d R) as (Es & Em & Et'); [by rewrite Et|].
  rewrite Et in Es. destruct R as [R1 R2 R3 R4 R5 R6].
  destruct (Transform_spec c d Hd Hl) as (T1 & T2 & T3).
  constructor; cbn [state buffer count_bytes]; [by apply is_bytes_app|by rewrite T1, <- Es| |done|done|by rewrite Em, Et'].
  rewrite <- Hl. apply (count_rep (Transform c d) m d); [by rewrite T2|done|done].
Qed.

Lemma update_blocks_rep (fuel : nat) (c : CTX) (m d : list Z) :
  rep c m -> is_bytes d -> (length m mod block_length = 0)%nat -> (length d < fuel)%nat ->
  Z.of_nat (length (m ++ d)) < max_bytes -> Z.of_nat (length d) < 2 ^ 61 ->
  rep (update_blocks fuel c d) (m ++ d).
Proof.
  revert c m d. induction fuel as [|fuel IH]; intros c m d R Hd H0 Hf Hm H61; [lia|].
  pose proof block_length_pos. cbn [update_blocks].
  destruct (Nat.leb_spec block_length (length d)) as [Hb|Hb].
  - assert (length (take block_length d) = block_length) as Ht by (rewrite length_take; lia).
    assert (m ++ d = (m ++ take block_length d) ++ drop block_length d) as E
      by by rewrite <- app_assoc, take_drop.
    rewrite E in Hm |- *. apply IH.
    + apply rep_block; auto with libbtc; [|lia]. rewrite length_app in Hm. lia.
    + auto with libbtc.
    + rewrite length_app, Ht, Nat.Div0.add_mod, H0, Nat.Div0.mod_same. simpl.
      by apply Nat.Div0.mod_0_l.
    + rewrite length_drop. lia.
    + done.
    + rewrite length_drop. lia.
  - destruct (Nat.ltb_spec 0 (length d)) as [Hp|Hp].
    + pose proof (rep_fill c m d R Hd) as F. rewrite H0 in F. by apply F.
    + destruct d; [|simpl in Hp; lia]. by rewrite app_nil_r.
Qed.

(** [Update] appends its data to what the context represents. *)
Lemma Update_rep (c : CTX) (m d : list Z) :
  rep c m -> is_bytes d -> Z.of_nat (length (m ++ d)) < max_bytes -> Z.of_nat (length d) < 2 ^ 61 ->
  rep (Update c d) (m ++ d).
Proof.
  intros R Hd Hm H61. unfold Update. pose proof (mod_block (length m)).
  destruct (Nat.eqb_spec (length d) 0) as [E|E]; [apply nil_length_inv in E as ->; by rewrite app_nil_r|].
  rewrite (usedspace_rep c m R). set (u := (length m mod block_length)%nat) in *.
  destruct (Nat.ltb_spec 0 u) as [Hu|Hu]; [|by apply update_blocks_rep; auto; lia].
  destruct (Nat.leb_spec (block_length - u) (length d)) as [Hb|Hb]; [|apply rep_fill; auto; lia].
  set (f := (block_length - u)%nat). assert (length (take f d) = f) as Ht by (rewrite length_take; lia).
  assert (m ++ d = (m ++ take f d) ++ drop f d) as Ed by by rewrite <- app_assoc, take_drop.
  rewrite Ed in Hm |- *. apply update_blocks_rep; auto with libbtc.
  - pose proof (rep_complete c m (take f d)) as RC. cbv zeta in RC. rewrite Ht in RC.
    apply RC; auto with libbtc.
    + fold u. lia.
    + rewrite length_app in Hm. lia.
    + lia.
  - rewrite length_app, Ht. rewrite (Nat.div_mod_eq (length m) block_length). fold u.
    replace (block_length * (length m / block_length) + u + f)%nat
      with ((length m / block_length + 1) * block_length)%nat by lia.
    apply Nat.Div0.mod_mul.
  - rewrite length_drop. lia.
  - rewrite length_drop. lia.
Qed.

Lemma Init_rep : 0 < max_bytes -> rep Init [].
Proof.
  intros H. pose proof block_length_pos.
  assert (full [] = 0)%nat as E by (unfold full; apply Nat.Div0.div_0_l).
  constructor; cbn [length]; auto with libbtc.
  - by rewrite E.
  - apply law_counter0.
  - cbn [Init buffer]. apply length_replicate.
  - unfold tail_of. by rewrite Nat.Div0.mod_0_l, E.
Qed.

(** ** The last blocks *)

Lemma pad_zeros_spec (n u : nat) :
  u = (n mod block_length)%nat ->
  pad_zeros n = if (S u <=? short_block_length)%nat then (short_block_length - S u)%nat
                else (block_length + short_block_length - S u)%nat.
Proof.
  intros ->. unfold pad_zeros. pose proof (mod_block n) as Hu. pose proof law_wbytes.
  assert (0 < short_block_length < block_length)%nat as Hs
    by (unfold short_block_length, block_length; lia).
  set (u := (n mod block_length)%nat) in *.
  assert (Z.of_nat n = Z.of_nat block_length * Z.of_nat (n / block_length) + Z.of_nat u) as ->
    by (rewrite (Nat.div_mod_eq n block_length) at 1; fold u; lia).
  set (q := Z.of_nat (n / block_length)).
  replace (Z.of_nat short_block_length - 1 - (Z.of_nat block_length * q + Z.of_nat u))
    with (Z.of_nat short_block_length - 1 - Z.of_nat u + - q * Z.of_nat block_length) by lia.
  rewrite Z_mod_plus_full.
  destruct (Nat.leb_spec (S u) short_block_length).
  - rewrite Z.mod_small; lia.
  - replace (Z.of_nat short_block_length - 1 - Z.of_nat u)
      with (Z.of_nat short_block_length - 1 - Z.of_nat u + Z.of_nat block_length
            + -1 * Z.of_nat block_length) by lia.
    rewrite Z_mod_plus_full, Z.mod_small; lia.
Qed.

(** The blocks of a padded message: those already absorbed, then the rest. *)
Lemma pad_blocks (m rest : list Z) (k : nat) :
  pad m = head_of m ++ rest -> length rest = (k * block_length)%nat ->
  blocks (length (pad m) / block_length) (pad m) = blocks (full m) (head_of m) ++ blocks k rest.
Proof.
  intros E Hr. rewrite E. pose proof block_length_pos.
  rewrite <- blocks_app by apply length_head_of. f_equal.
  rewrite length_app, length_head_of, Hr, <- Nat.mul_add_distr_r. apply Nat.div_mul. lia.
Qed.

Lemma pad_head (m : list Z) :
  pad m = head_of m ++ (tail_of m ++ [0x80] ++ replicate (pad_zeros (length m)) 0 ++
                        be_bytes (2 * wbytes) (8 * Z.of_nat (length m))).
Proof. unfold pad. rewrite <- (head_tail m) at 1. by rewrite <- app_assoc. Qed.

Lemma blit_end (l : list Z) (i : nat) (s : list Z) :
  (i + length s = length l)%nat -> blit l i s = take i l ++ s.
Proof. intros. unfold blit. rewrite drop_ge by lia. by rewrite app_nil_r. Qed.

Lemma insert_blit (l : list Z) (i : nat) (v : Z) : (i < length l)%nat -> <[i:=v]> l = blit l i [v].
Proof. intros. unfold blit. rewrite insert_take_drop by done. simpl. by rewrite Nat.add_1_r. Qed.

Lemma blit_take_prefix (l : list Z) (i : nat) (s : list Z) (n : nat) :
  n = (i + length s)%nat -> (n <= length l)%nat -> take n (blit l i s) = take i l ++ s.
Proof. intros -> ?. by apply blit_take. Qed.

Lemma take_insert_0 (l : list Z) (v : Z) (n : nat) :
  (0 < n)%nat -> (n <= length l)%nat -> take n (<[O:=v]> l) = v :: take (n - 1) (drop 1 l).
Proof. destruct l, n; simpl; intros; try lia. by rewrite Nat.sub_0_r. Qed.

(** The final transform, from the bytes [x] before the length. *)
Lemma last_block (c : CTX) (x img : list Z) :
  is_bytes x -> is_bytes img -> length (buffer c) = block_length ->
  length x = short_block_length -> length (x ++ img) = block_length ->
  take short_block_length (buffer c) = x ->
  let c1 := with_buffer c (blit (buffer c) short_block_length img) in
  state (Transform c1 (buffer c1)) = compress (state c) (x ++ img).
Proof.
  intros Hx Hi Hb Hlx Hl Ht c1. rewrite length_app in Hl.
  assert (buffer c1 = x ++ img) as E
    by (cbn [c1 buffer with_buffer]; rewrite blit_end, Ht by lia; done).
  rewrite E. destruct (Transform_spec c1 (x ++ img)) as (-> & _ & _); [|rewrite length_app; lia|done].
  by apply is_bytes_app.
Qed.

Lemma short_lt : (0 < short_block_length < block_length)%nat /\
                 (short_block_length + 2 * wbytes = block_length)%nat.
Proof. unfold short_block_length, block_length. pose proof law_wbytes. lia. Qed.

Lemma is_bytes_80 (n : nat) : is_bytes ([0x80] ++ replicate n 0).
Proof. constructor; [unfold is_byte; lia|]. apply is_bytes_replicate. unfold is_byte. lia. Qed.

(** The three branches of the padding, from a buffer that starts with the
    bytes [tl] of an incomplete block. *)
Section Padding.
Variables (c : CTX) (tl img : list Z).
Hypothesis Htl : is_bytes tl.
Hypothesis Himg : is_bytes img.
Hypothesis Hbuf : length (buffer c) = block_length.
Hypothesis Hpre : take (length tl) (buffer c) = tl.
Hypothesis Hlen : length img = (2 * wbytes)%nat.

Let u := length tl.
Let b80 := <[u := 0x80]> (buffer c).

Lemma b80_prefix (n : nat) :
  (S u + n <= block_length)%nat -> take (S u + n) (blit b80 (S u) (replicate n 0)) = tl ++ [0x80] ++ replicate n 0.
Proof.
  intros Hn. rewrite (blit_take_prefix _ _ (replicate n 0)).
  - unfold b80. rewrite insert_blit by lia. rewrite (blit_take_prefix _ _ [0x80]) by (simpl; lia).
    unfold u. rewrite Hpre. by rewrite <- app_assoc.
  - by rewrite length_replicate.
  - unfold b80. rewrite length_insert. lia.
Qed.

Lemma padding_fits :
  (S u <= short_block_length)%nat ->
  let c1 := with_buffer c (blit b80 (S u) (replicate (short_block_length - S u) 0)) in
  let c2 := with_buffer c1 (blit (buffer c1) short_block_length img) in
  state (Transform c2 (buffer c2)) =
  compress (state c) (tl ++ [0x80] ++ replicate (short_block_length - S u) 0 ++ img).
Proof.
  intros Hu c1 c2. pose proof short_lt.
  set (x := tl ++ [0x80] ++ replicate (short_block_length - S u) 0).
  assert (length x = short_block_length) as Hx.
  { unfold x. rewrite !length_app, length_replicate. simpl. fold u. lia. }
  replace (tl ++ _) with (x ++ img) by (unfold x; by rewrite <- !app_assoc).
  apply (last_block c1 x img); auto.
  - apply is_bytes_app. split; [done|apply is_bytes_80].
  - cbn [c1 buffer with_buffer]. rewrite blit_length; unfold b80; rewrite length_insert; [done|].
    rewrite length_replicate. lia.
  - rewrite length_app. lia.
  - cbn [c1 buffer with_buffer]. unfold x. rewrite <- b80_prefix by lia. f_equal. lia.
Qed.

Lemma padding_overflows :
  (short_block_length < S u <= block_length)%nat ->
  let b := if (S u <? block_length)%nat
           then blit b80 (S u) (replicate (block_length - S u) 0) else b80 in
  let c0 := Transform (with_buffer c b) b in
  let c1 := with_buffer c0 (blit (buffer c0) 0 (replicate cleared 0)) in
  let c2 := with_buffer c1 (blit (buffer c1) short_block_length img) in
  state (Transform c2 (buffer c2)) =
  compress (compress (state c) (tl ++ [0x80] ++ replicate (block_length - S u) 0))
           (replicate short_block_length 0 ++ img).
Proof.
  intros Hu b c0 c1 c2. pose proof short_lt. pose proof law_cleared.
  assert (b = tl ++ [0x80] ++ replicate (block_length - S u) 0) as Eb.
  { rewrite <- b80_prefix by lia. unfold b. destruct (Nat.ltb_spec (S u) block_length).
    - rewrite take_ge; [done|]. rewrite blit_length; unfold b80; rewrite length_insert, ?length_replicate; lia.
    - replace (block_length - S u)%nat with 0%nat by lia. unfold blit. cbn [replicate app length].
      rewrite Nat.add_0_r, take_drop, take_ge; [done|]. unfold b80. rewrite length_insert. lia. }
  assert (length b = block_length) as Hlb.
  { rewrite Eb, !length_app, length_replicate. simpl. fold u. lia. }
  destruct (Transform_spec (with_buffer c b) b) as (E1 & E2 & E3); [|done|].
  { rewrite Eb. apply is_bytes_app. split; [done|apply is_bytes_80]. }
  rewrite <- Eb. cbn [with_buffer state] in E1. rewrite <- E1. fold c0 in E3 |- *.
  apply (last_block c1 (replicate short_block_length 0) img); auto.
  - apply is_bytes_replicate. unfold is_byte. lia.
  - cbn [c1 buffer with_buffer]. rewrite blit_length, E3; rewrite ?length_replicate; lia.
  - by rewrite length_replicate.
  - rewrite length_app, length_replicate. lia.
  - cbn [c1 buffer with_buffer]. unfold blit. rewrite take_0. simpl app.
    rewrite take_app_le by (rewrite length_replicate; lia). rewrite take_replicate. f_equal. lia.
Qed.

Lemma padding_empty :
  tl = [] ->
  let c1 := with_buffer c (<[O := 0x80]> (blit (buffer c) 0 (replicate short_block_length 0))) in
  let c2 := with_buffer c1 (blit (buffer c1) short_block_length img) in
  state (Transform c2 (buffer c2)) =
  compress (state c) (tl ++ [0x80] ++ replicate (short_block_length - 1) 0 ++ img).
Proof.
  intros -> c1 c2. pose proof short_lt. rewrite app_nil_l, app_assoc.
  apply (last_block c1); auto.
  - apply is_bytes_80.
  - cbn [c1 buffer with_buffer]. rewrite length_insert, blit_length; [done|]. rewrite length_replicate. lia.
  - rewrite length_app, length_replicate. simpl. lia.
  - rewrite !length_app, length_replicate. simpl. lia.
  - cbn [c1 buffer with_buffer]. rewrite take_insert_0.
    + unfold blit. rewrite take_0. simpl app. f_equal.
      rewrite skipn_app, take_app_le, drop_replicate, take_replicate by (rewrite length_drop, length_replicate; lia).
      f_equal. lia.
    + lia.
    + rewrite blit_length; rewrite ?length_replicate; lia.
Qed.
End Padding.

Lemma Last_spec (c : CTX) (m : list Z) :
  rep c m ->
  state (Last c) = fold_left compress (blocks (length (pad m) / block_length) (pad m)) H0.
Proof.
  intros R. unfold Last. rewrite (usedspace_rep c m R).
  pose proof (mod_block (length m)) as Hu. destruct short_lt as [Hs Hsb].
  rewrite (law_counter_image _ (Z.of_nat (length m))) by (apply R || (pose proof (rep_max _ _ R); lia)).
  pose proof (pad_head m) as Hp. rewrite (pad_zeros_spec _ _ eq_refl) in Hp.
  set (img := be_bytes (2 * wbytes) (8 * Z.of_nat (length m))) in *.
  assert (length img = 2 * wbytes)%nat as Hi by apply be_bytes_length.
  assert (is_bytes img) as Hib by apply be_bytes_is_bytes.
  pose proof (is_bytes_tail m (rep_bytes _ _ R)) as Htb.
  pose proof (length_tail_of m) as Htl. destruct R as [R1 R2 R3 R4 R5 R6].
  rewrite <- Htl in *. set (tl := tail_of m) in *.
  destruct (Nat.ltb_spec 0 (length tl)) as [Hpos|Hzero].
  - destruct (Nat.leb_spec (S (length tl)) short_block_length) as [Hfit|Hnofit].
    + rewrite (padding_fits c tl img) by (done || lia).
      rewrite (pad_blocks _ _ 1 Hp), fold_left_app, <- R2, blocks_one; [done| |];
        rewrite !length_app, length_replicate; simpl; lia.
    + rewrite (padding_overflows c tl img) by (done || lia).
      replace (block_length + short_block_length - S (length tl))%nat
        with (block_length - S (length tl) + short_block_length)%nat in Hp by lia.
      rewrite replicate_add, <- !app_assoc in Hp.
      rewrite (pad_blocks _ _ 2 Hp), fold_left_app, <- R2;
        [|rewrite !length_app, !length_replicate; simpl; lia].
      rewrite !app_assoc, <- (app_assoc _ _ img), (blocks_app 1 1), !blocks_one, <- app_assoc; [done|..];
        rewrite !length_app, ?length_replicate; simpl; lia.
  - assert (tl = []) as Et by (apply nil_length_inv; lia).
    rewrite (padding_empty c tl img) by (done || lia). rewrite Et in Hp. simpl length in Hp.
    assert ((1 <=? short_block_length)%nat = true) as E by (apply Nat.leb_le; lia). rewrite E in Hp.
    rewrite (pad_blocks _ _ 1 Hp), fold_left_app, <- R2, blocks_one, Et; [done| |];
      rewrite !length_app, length_replicate; simpl; lia.
Qed.

(** ** Digests *)

Lemma add_state_range (s : list Z) (r : regs) :
  Forall (fun w => 0 <= w < 2 ^ wbits) (add_state s r) /\ length (add_state s r) = 8%nat.
Proof.
  split; [|done]. pose proof law_wbits. pose proof law_wbytes.
  repeat constructor; apply wrap_range; lia.
Qed.

Lemma compress_length (bs : list (list Z)) (s : list Z) :
  length s = 8%nat -> length (fold_left compress bs s) = 8%nat.
Proof. revert s. induction bs as [|b bs IH]; intros s Hs; [done|]. by apply IH. Qed.

Lemma store_word (w : Z) : 0 <= w < 2 ^ wbits -> le_bytes wbytes (reverse w) = be_bytes wbytes w.
Proof.
  rewrite law_wbits, Z.pow_mul_r by lia. intros Hw. unfold be_bytes.
  rewrite <- (le_val_bytes_small wbytes w) at 1 by done.
  rewrite law_reverse by (apply le_bytes_is_bytes || apply le_bytes_length).
  unfold be_val. rewrite <- (le_bytes_length wbytes w) at 1. rewrite <- length_rev.
  apply le_bytes_val, be_bytes_is_bytes.
Qed.

Lemma Final_spec (c : CTX) (m : list Z) : rep c m -> fst (Final c) = sha_spec m.
Proof.
  intros R. unfold Final, sha_spec. cbn [fst]. rewrite <- (Last_spec c m R).
  assert (Forall (fun w => 0 <= w < 2 ^ wbits) (state (Last c))) as Hr.
  { unfold Last, Transform. repeat case_match; apply add_state_range. }
  induction Hr as [|w l Hw Hl IH]; [done|]. cbn [flat_map]. by rewrite IH, store_word.
Qed.

Lemma sha_spec_length (m : list Z) : length (sha_spec m) = (8 * wbytes)%nat.
Proof.
  unfold sha_spec. pose proof (compress_length (blocks (length (pad m) / block_length) (pad m)) H0 law_H0) as H.
  revert H. generalize 8%nat as n.
  induction (fold_left compress _ _) as [|w l IH]; intros n <-; [done|].
  cbn [flat_map]. rewrite length_app, be_bytes_length, (IH _ eq_refl). simpl. lia.
Qed.

Lemma sha_spec_bytes (m : list Z) : is_bytes (sha_spec m).
Proof.
  unfold sha_spec. induction (fold_left compress _ _) as [|w l IH]; [apply is_bytes_nil|].
  cbn [flat_map]. apply is_bytes_app. auto with libbtc.
Qed.

(** Any split of a message into updates. *)
Lemma updates_rep (chunks : list (list Z)) (c : CTX) (m : list Z) :
  rep c m -> Forall is_bytes chunks -> Z.of_nat (length (m ++ concat chunks)) < max_bytes ->
  Forall (fun d => Z.of_nat (length d) < 2 ^ 61) chunks ->
  rep (fold_left Update chunks c) (m ++ concat chunks).
Proof.
  intros R Hb. revert c m R. induction Hb as [|d ds Hd Hds IH]; intros c m R Hm H61.
  - simpl. by rewrite app_nil_r.
  - inversion_clear H61. cbn [fold_left concat] in *. rewrite app_assoc in *. apply IH; auto.
    apply Update_rep; auto. rewrite length_app in Hm. lia.
Qed.

Lemma stream_spec (chunks : list (list Z)) :
  Forall is_bytes chunks -> Z.of_nat (length (concat chunks)) < max_bytes ->
  Forall (fun d => Z.of_nat (length d) < 2 ^ 61) chunks ->
  fst (Final (fold_left Update chunks Init)) = sha_spec (concat chunks).
Proof.
  intros Hb Hm H61. apply Final_spec, (updates_rep chunks Init []); auto. apply Init_rep. lia.
Qed.

Lemma Raw_spec (m : list Z) :
  is_bytes m -> Z.of_nat (length m) < max_bytes -> Z.of_nat (length m) < 2 ^ 61 -> Raw m = sha_spec m.
Proof.
  intros Hb Hm H61. unfold Raw. rewrite <- (app_nil_r m) at 2.
  apply (stream_spec [m]); simpl; rewrite ?app_nil_r; auto.
Qed.

Lemma blit_start (n : nat) (x : list Z) :
  (length x <= n)%nat -> blit (replicate n 0) 0 x = x ++ replicate (n - length x) 0.
Proof. intros. unfold blit. by rewrite take_0, drop_replicate. Qed.

Lemma is_bytes_lxor (k : Z) (l : list Z) :
  is_byte k -> is_bytes l -> is_bytes (map (fun b => Z.lxor b k) l).
Proof.
  intros Hk. induction 1 as [|b l Hb Hl IH]; simpl; [apply is_bytes_nil|]. constructor; [|done].
  by apply (lxor_range 8).
Qed.

Lemma hmac_correct (key msg : list Z) :
  is_bytes key -> is_bytes msg -> 2 ^ 61 <= max_bytes ->
  Z.of_nat (length key) < 2 ^ 61 -> Z.of_nat (block_length + length msg) < 2 ^ 61 ->
  hmac key msg = hmac_spec key msg.
Proof.
  intros Hk Hm Hmax Hkl Hml. unfold hmac, hmac_spec. pose proof law_wbytes.
  assert (8 * wbytes <= block_length)%nat as H8 by (unfold block_length; lia).
  rewrite Raw_spec by (done || lia).
  set (k0 := if (block_length <? length key)%nat then sha_spec key else key).
  assert (is_bytes k0 /\ (length k0 <= block_length)%nat) as [Hk0 Hl0].
  { unfold k0. destruct (Nat.ltb_spec block_length (length key)); [|done].
    rewrite sha_spec_length. split; [apply sha_spec_bytes|lia]. }
  replace (if (block_length <? length key)%nat then _ else _)
    with (blit (replicate block_length 0) 0 k0) by (unfold k0; by destruct (_ <? _)%nat).
  rewrite blit_start by done. set (k := k0 ++ _).
  assert (length k = block_length) as Hlk by (unfold k; rewrite length_app, length_replicate; lia).
  assert (is_bytes k) as Hkb.
  { apply is_bytes_app. split; [done|]. apply is_bytes_replicate. unfold is_byte. lia. }
  assert (forall x d, is_byte x -> is_bytes d -> Z.of_nat (block_length + length d) < 2 ^ 61 ->
    fst (Final (Update (Update Init (map (fun b => Z.lxor b x) k)) d)) =
    sha_spec (map (fun b => Z.lxor b x) k ++ d)) as Hstep.
  { intros x d Hx Hd Hl. rewrite <- (app_nil_r d) at 2.
    apply (stream_spec [map (fun b => Z.lxor b x) k; d]); simpl;
      repeat constructor; rewrite ?app_nil_r, ?length_app, ?length_map, ?Hlk; auto using is_bytes_lxor; lia. }
  rewrite (Hstep 0x36 msg) by (done || (unfold is_byte; lia)). set (inner := sha_spec _).
  assert (length inner = 8 * wbytes)%nat as Hli by apply sha_spec_length.
  replace (take (8 * wbytes) (blit k 0 inner)) with inner
    by (unfold blit; simpl app; by rewrite take_app_length').
  apply Hstep; [unfold is_byte; lia|apply sha_spec_bytes|]. unfold block_length in *. lia.
Qed.

End Correct.

(** ** The two algorithms satisfy the laws *)

Lemma REVERSE64_store (w : Z) : 0 <= w < 2 ^ 64 -> le_bytes 8 (REVERSE64 w) = be_bytes 8 w.
Proof.
  intros Hw. unfold be_bytes. rewrite <- (le_val_bytes_small 8 w) at 1 by done.
  rewrite (reverse_be 8 REVERSE64).
  - unfold be_val. rewrite <- (le_bytes_length 8 w) at 1. rewrite <- length_rev.
    apply le_bytes_val, be_bytes_is_bytes.
  - apply REVERSE64_bit.
  - apply REVERSE64_range.
  - apply le_bytes_is_bytes.
  - apply le_bytes_length.
Qed.

#[export] Instance sha256_laws : sha_laws sha256.
Proof.
  refine (@Build_sha_laws sha256 (2 ^ 61) (fun (c n : Z) => c = 8 * n) _ _ _ _ _ _ _ _ _ _ _); try done; cbn -[Z.pow u64 le_bytes be_bytes].
  - lia.
  - lia.
  - intros b Hb Hl. apply (reverse_be 4 REVERSE32); auto; [apply REVERSE32_bit|apply REVERSE32_range].
  - intros c n k -> Hn Hk Hm. rewrite Z.shiftl_mul_pow2, wrap_add_r, wrap_small by lia. lia.
  - intros c n -> Hn. rewrite Z.shiftr_div_pow2 by lia. f_equal. change (2 ^ 3) with 8. zdm.
  - intros c n -> Hn. apply REVERSE64_store. lia.
  - unfold short_block_length, block_length. simpl. lia.
Defined.

(** [ADDINC128] is addition modulo [2^128]. *)
Lemma ADDINC128_add (lo hi n : Z) :
  0 <= lo < 2 ^ 64 -> 0 <= hi < 2 ^ 64 -> 0 <= n < 2 ^ 64 ->
  let w := ADDINC128 (lo, hi) n in
  fst w + 2 ^ 64 * snd w = (lo + 2 ^ 64 * hi + n) mod 2 ^ 128 /\
  0 <= fst w < 2 ^ 64 /\ 0 <= snd w < 2 ^ 64.
Proof.
  intros Hlo Hhi Hn. unfold ADDINC128, wrap. cbn [fst snd].
  assert ((lo + n) mod 2 ^ 64 = if lo + n <? 2 ^ 64 then lo + n else lo + n - 2 ^ 64) as ->.
  { destruct (Z.ltb_spec (lo + n) (2 ^ 64)); [rewrite Z.mod_small; lia|].
    replace (lo + n) with (lo + n - 2 ^ 64 + 1 * 2 ^ 64) at 1 by lia.
    rewrite Z_mod_plus_full, Z.mod_small; lia. }
  destruct (Z.ltb_spec (lo + n) (2 ^ 64)).
  - zif. rewrite Z.mod_small; lia.
  - zif. assert (hi + 1 < 2 ^ 64 \/ hi + 1 = 2 ^ 64) as [?|E] by lia.
    + rewrite (Z.mod_small (hi + 1)), Z.mod_small; lia.
    + rewrite E, Z_mod_same_full.
      replace (lo + 2 ^ 64 * hi + n) with (lo + n - 2 ^ 64 + 1 * 2 ^ 128) by lia.
      rewrite Z_mod_plus_full, Z.mod_small; lia.
Qed.

Lemma be_bytes_16 (v : Z) : 0 <= v -> be_bytes 16 v = be_bytes 8 (v / 2 ^ 64) ++ be_bytes 8 (v mod 2 ^ 64).
Proof.
  intros Hv. unfold be_bytes. rewrite <- rev_app_distr. f_equal.
  rewrite (le_bytes_add 8 8). f_equal. symmetry. apply (le_bytes_mod 8).
Qed.

#[export] Instance sha512_laws : sha_laws sha512.
Proof.
  refine (@Build_sha_laws sha512 (2 ^ 125)
    (fun (c : Z * Z) n => fst c = (8 * n) mod 2 ^ 64 /\ snd c = (8 * n) / 2 ^ 64)
    _ _ _ _ _ _ _ _ _ _ _);
    try done; cbn -[Z.pow u64 le_bytes be_bytes ADDINC128].
  - lia.
  - lia.
  - intros b Hb Hl. apply (reverse_be 8 REVERSE64); auto; [apply REVERSE64_bit|apply REVERSE64_range].
  - intros [lo hi] n k [Hlo Hhi] Hn Hk Hm. cbn [fst snd] in *.
    rewrite Z.shiftl_mul_pow2, wrap_small by lia.
    destruct (ADDINC128_add lo hi (k * 2 ^ 3)) as (E & B1 & B2); [zdm|zdm|lia|].
    rewrite Z.mod_small in E by zdm. zdm.
  - intros c n [-> _] Hn. rewrite Z.shiftr_div_pow2 by lia. change (2 ^ 3) with 8. zdm.
  - intros c n [-> ->] Hn. rewrite !REVERSE64_store by zdm. symmetry. apply be_bytes_16. lia.
  - unfold short_block_length, block_length. simpl. lia.
Defined.

(** ** Claims *)

(** The references at the two parameter sets. *)
Definition sha256_spec (d : list Z) : list Z := @sha_spec sha256 d.
Definition sha512_spec (d : list Z) : list Z := @sha_spec sha512 d.
Definition hmac_sha256_spec (key msg : list Z) : list Z := @hmac_spec sha256 key msg.
Definition hmac_sha512_spec (key msg : list Z) : list Z := @hmac_spec sha512 key msg.

(** C10: the digest sha2.c computes through any sequence of [sha256_Update]
    calls, and hence [sha256_Raw], is the FIPS 180-4 SHA-256 of the
    concatenation of their data, for less than [2^61] bytes. *)
Theorem sha256_streaming (chunks : list (list Z)) :
  Forall is_bytes chunks -> Z.of_nat (length (concat chunks)) < 2 ^ 61 ->
  fst (sha256_Final (fold_left sha256_Update chunks sha256_Init)) = sha256_spec (concat chunks) /\
  sha256_Raw (concat chunks) = sha256_spec (concat chunks).
Proof.
  intros Hb Hl.
  assert (is_bytes (concat chunks)) by (clear Hl; induction Hb; simpl; [constructor|by apply is_bytes_app]).
  split; [|by apply (Raw_spec (concat chunks))].
  apply stream_spec; [done|done|]. clear -Hl. revert Hl.
  induction chunks as [|d ds IH]; simpl; [constructor|]. rewrite length_app.
  intros. constructor; [lia|]. apply IH. lia.
Qed.

Lemma sha256_streaming_witness :
  (fst (sha256_Final (fold_left sha256_Update [[97]; replicate 70 98] sha256_Init)) =
     sha256_spec (97 :: replicate 70 98) /\
   sha256_Raw (97 :: replicate 70 98) = sha256_spec (97 :: replicate 70 98)) /\
  be_val (sha256_spec [97; 98; 99]) =
    0xba7816bf8f01cfea414140de5dae2223b00361a396177a9cb410ff61f20015ad.
Proof.
  split; [|vm_compute; reflexivity].
  apply (sha256_streaming [[97]; replicate 70 98]); [|vm_compute; reflexivity].
  repeat constructor; vm_compute; congruence.
Defined.

(** The same for SHA-512; the 128 bit counter never loses a carry. *)
Theorem sha512_streaming (chunks : list (list Z)) :
  Forall is_bytes chunks -> Forall (fun d => Z.of_nat (length d) < 2 ^ 61) chunks ->
  Z.of_nat (length (concat chunks)) < 2 ^ 125 ->
  fst (sha512_Final (fold_left sha512_Update chunks sha512_Init)) = sha512_spec (concat chunks).
Proof. intros Hb H61 Hl. by apply stream_spec. Qed.

Lemma sha512_streaming_witness :
  fst (sha512_Final (fold_left sha512_Update [[97]; replicate 130 98] sha512_Init)) =
    sha512_spec (97 :: replicate 130 98) /\
  be_val (sha512_spec [97; 98; 99]) =
    0xddaf35a193617abacc417349ae20413112e6fa4e89a97ea20a9eeee64b55d39a2192992a274fc1a836ba3c23a3feebbd454d4423643ce80e2a9ac94fa54ca49f.
Proof.
  split; [|vm_compute; reflexivity].
  apply (sha512_streaming [[97]; replicate 130 98]).
  - repeat constructor; vm_compute; congruence.
  - repeat constructor; vm_compute; congruence.
  - vm_compute. reflexivity.
Defined.

(** [hmac_sha256] and [hmac_sha512] compute HMAC (RFC 2104) over the
    corresponding hash function, for keys shorter and longer than a block. *)
Theorem hmac_sha2 (key msg : list Z) :
  is_bytes key -> is_bytes msg -> Z.of_nat (length key) < 2 ^ 61 ->
  Z.of_nat (128 + length msg) < 2 ^ 61 ->
  hmac_sha256 key msg = hmac_sha256_spec key msg /\
  hmac_sha512 key msg = hmac_sha512_spec key msg.
Proof.
  intros Hk Hm Hkl Hml. split.
  - apply (@hmac_correct sha256 sha256_laws); try done; change (@block_length sha256) with 64%nat; lia.
  - apply (@hmac_correct sha512 sha512_laws); try done; change (@block_length sha512) with 128%nat; lia.
Qed.

Lemma hmac_sha2_witness :
  hmac_sha256 (replicate 20 0x0b) [72; 105] = hmac_sha256_spec (replicate 20 0x0b) [72; 105] /\
  hmac_sha512 (replicate 20 0x0b) [72; 105] = hmac_sha512_spec (replicate 20 0x0b) [72; 105].
Proof.
  apply (hmac_sha2 (replicate 20 0x0b) [72; 105]); try (vm_compute; reflexivity);
    repeat constructor; vm_compute; congruence.
Defined.
