(* ===== verification/Ripemd160.v ===== *)
(** * ripemd160.c: RIPEMD-160

    [compress] is unrolled in the source into two lines of eighty macro calls
    that rename the working registers at every step instead of moving them.
    The two lines are kept here as the list of their macro calls, in the order
    and with the arguments of the source, run on a register file.  The reference
    is the published description: tables for the message words and the
    rotations, five registers shifted at every step, padding with 0x80, zeros
    and the bit length. *)

From S2P Require Import Prelude.

(** ** Macros *)

Definition not32 (x : Z) : Z := Z.lxor x 0xffffffff.
Definition ROL (x n : Z) : Z := Z.lor (u32 (Z.shiftl x n)) (Z.shiftr x (32 - n)).
Definition F (x y z : Z) : Z := Z.lxor (Z.lxor x y) z.
Definition G (x y z : Z) : Z := Z.lor (Z.land x y) (Z.land (not32 x) z).
Definition H (x y z : Z) : Z := Z.lxor (Z.lor x (not32 y)) z.
Definition IQ (x y z : Z) : Z := Z.lor (Z.land x z) (Z.land y (not32 z)).
Definition J (x y z : Z) : Z := Z.lxor x (Z.lor y (not32 z)).

Inductive reg := aa | bb | cc | dd | ee | aaa | bbb | ccc | ddd | eee.
#[export] Instance reg_eq_dec : EqDecision reg.
Proof. solve_decision. Defined.

(** The local variables of [compress]. *)
Definition regfile := reg -> Z.
Definition upd (r : reg) (v : Z) (s : regfile) : regfile :=
  fun q => if decide (q = r) then v else s q.

(** The body of the ten macros, which differ in the function and the constant. *)
Definition step (fn : Z -> Z -> Z -> Z) (k : Z) (a b c d e : reg) (x n : Z) (s : regfile) : regfile :=
  let s := upd a (u32 (s a + (fn (s b) (s c) (s d) + x + k))) s in
  let s := upd a (u32 (ROL (s a) n + s e)) s in
  upd c (ROL (s c) 10) s.

(** One macro call; the message word is named by its index. *)
Record call := mk_call {
  call_fn : Z -> Z -> Z -> Z; call_k : Z;
  call_a : reg; call_b : reg; call_c : reg; call_d : reg; call_e : reg;
  call_x : nat; call_s : Z }.

Definition FF := mk_call F 0.
Definition GG := mk_call G 0x5a827999.
Definition HH := mk_call H 0x6ed9eba1.
Definition II := mk_call IQ 0x8f1bbcdc.
Definition JJ := mk_call J 0xa953fd4e.
Definition FFF := mk_call F 0.
Definition GGG := mk_call G 0x7a6d76e9.
Definition HHH := mk_call H 0x6d703ef3.
Definition III := mk_call IQ 0x5c4dd124.
Definition JJJ := mk_call J 0x50a28be6.

(** Rounds 1 to 5. *)
Definition rounds : list call :=
  [
   FF aa bb cc dd ee 0 11; FF ee aa bb cc dd 1 14; FF dd ee aa bb cc 2 15; FF cc dd ee aa bb 3 12;
   FF bb cc dd ee aa 4 5; FF aa bb cc dd ee 5 8; FF ee aa bb cc dd 6 7; FF dd ee aa bb cc 7 9;
   FF cc dd ee aa bb 8 11; FF bb cc dd ee aa 9 13; FF aa bb cc dd ee 10 14; FF ee aa bb cc dd 11 15;
   FF dd ee aa bb cc 12 6; FF cc dd ee aa bb 13 7; FF bb cc dd ee aa 14 9; FF aa bb cc dd ee 15 8;

   GG ee aa bb cc dd 7 7; GG dd ee aa bb cc 4 6; GG cc dd ee aa bb 13 8; GG bb cc dd ee aa 1 13;
   GG aa bb cc dd ee 10 11; GG ee aa bb cc dd 6 9; GG dd ee aa bb cc 15 7; GG cc dd ee aa bb 3 15;
   GG bb cc dd ee aa 12 7; GG aa bb cc dd ee 0 12; GG ee aa bb cc dd 9 15; GG dd ee aa bb cc 5 9;
   GG cc dd ee aa bb 2 11; GG bb cc dd ee aa 14 7; GG aa bb cc dd ee 11 13; GG ee aa bb cc dd 8 12;

   HH dd ee aa bb cc 3 11; HH cc dd ee aa bb 10 13; HH bb cc dd ee aa 14 6; HH aa bb cc dd ee 4 7;
   HH ee aa bb cc dd 9 14; HH dd ee aa bb cc 15 9; HH cc dd ee aa bb 8 13; HH bb cc dd ee aa 1 15;
   HH aa bb cc dd ee 2 14; HH ee aa bb cc dd 7 8; HH dd ee aa bb cc 0 13; HH cc dd ee aa bb 6 6;
   HH bb cc dd ee aa 13 5; HH aa bb cc dd ee 11 12; HH ee aa bb cc dd 5 7; HH dd ee aa bb cc 12 5;

   II cc dd ee aa bb 1 11; II bb cc dd ee aa 9 12; II aa bb cc dd ee 11 14; II ee aa bb cc dd 10 15;
   II dd ee aa bb cc 0 14; II cc dd ee aa bb 8 15; II bb cc dd ee aa 12 9; II aa bb cc dd ee 4 8;
   II ee aa bb cc dd 13 9; II dd ee aa bb cc 3 14; II cc dd ee aa bb 7 5; II bb cc dd ee aa 15 6;
   II aa bb cc dd ee 14 8; II ee aa bb cc dd 5 6; II dd ee aa bb cc 6 5; II cc dd ee aa bb 2 12;

   JJ bb cc dd ee aa 4 9; JJ aa bb cc dd ee 0 15; JJ ee aa bb cc dd 5 5; JJ dd ee aa bb cc 9 11;
   JJ cc dd ee aa bb 7 6; JJ bb cc dd ee aa 12 8; JJ aa bb cc dd ee 2 13; JJ ee aa bb cc dd 10 12;
   JJ dd ee aa bb cc 14 5; JJ cc dd ee aa bb 1 12; JJ bb cc dd ee aa 3 13; JJ aa bb cc dd ee 8 14;
   JJ ee aa bb cc dd 11 11; JJ dd ee aa bb cc 6 8; JJ cc dd ee aa bb 15 5; JJ bb cc dd ee aa 13 6].

(** Parallel rounds 1 to 5. *)
Definition parallel_rounds : list call :=
  [
   JJJ aaa bbb ccc ddd eee 5 8; JJJ eee aaa bbb ccc ddd 14 9; JJJ ddd eee aaa bbb ccc 7 9; JJJ ccc ddd eee aaa bbb 0 11;
   JJJ bbb ccc ddd eee aaa 9 13; JJJ aaa bbb ccc ddd eee 2 15; JJJ eee aaa bbb ccc ddd 11 15; JJJ ddd eee aaa bbb ccc 4 5;
   JJJ ccc ddd eee aaa bbb 13 7; JJJ bbb ccc ddd eee aaa 6 7; JJJ aaa bbb ccc ddd eee 15 8; JJJ eee aaa bbb ccc ddd 8 11;
   JJJ ddd eee aaa bbb ccc 1 14; JJJ ccc ddd eee aaa bbb 10 14; JJJ bbb ccc ddd eee aaa 3 12; JJJ aaa bbb ccc ddd eee 12 6;

   III eee aaa bbb ccc ddd 6 9; III ddd eee aaa bbb ccc 11 13; III ccc ddd eee aaa bbb 3 15; III bbb ccc ddd eee aaa 7 7;
   III aaa bbb ccc ddd eee 0 12; III eee aaa bbb ccc ddd 13 8; III ddd eee aaa bbb ccc 5 9; III ccc ddd eee aaa bbb 10 11;
   III bbb ccc ddd eee aaa 14 7; III aaa bbb ccc ddd eee 15 7; III eee aaa bbb ccc ddd 8 12; III ddd eee aaa bbb ccc 12 7;
   III ccc ddd eee aaa bbb 4 6; III bbb ccc ddd eee aaa 9 15; III aaa bbb ccc ddd eee 1 13; III eee aaa bbb ccc ddd 2 11;

   HHH ddd eee aaa bbb ccc 15 9; HHH ccc ddd eee aaa bbb 5 7; HHH bbb ccc ddd eee aaa 1 15; HHH aaa bbb ccc ddd eee 3 11;
   HHH eee aaa bbb ccc ddd 7 8; HHH ddd eee aaa bbb ccc 14 6; HHH ccc ddd eee aaa bbb 6 6; HHH bbb ccc ddd eee aaa 9 14;
   HHH aaa bbb ccc ddd eee 11 12; HHH eee aaa bbb ccc ddd 8 13; HHH ddd eee aaa bbb ccc 12 5; HHH ccc ddd eee aaa bbb 2 14;
   HHH bbb ccc ddd eee aaa 10 13; HHH aaa bbb ccc ddd eee 0 13; HHH eee aaa bbb ccc ddd 4 7; HHH ddd eee aaa bbb ccc 13 5;

   GGG ccc ddd eee aaa bbb 8 15; GGG bbb ccc ddd eee aaa 6 5; GGG aaa bbb ccc ddd eee 4 8; GGG eee aaa bbb ccc ddd 1 11;
   GGG ddd eee aaa bbb ccc 3 14; GGG ccc ddd eee aaa bbb 11 14; GGG bbb ccc ddd eee aaa 15 6; GGG aaa bbb ccc ddd eee 0 14;
   GGG eee aaa bbb ccc ddd 5 6; GGG ddd eee aaa bbb ccc 12 9; GGG ccc ddd eee aaa bbb 2 12; GGG bbb ccc ddd eee aaa 13 9;
   GGG aaa bbb ccc ddd eee 9 12; GGG eee aaa bbb ccc ddd 7 5; GGG ddd eee aaa bbb ccc 10 15; GGG ccc ddd eee aaa bbb 14 8;

   FFF bbb ccc ddd eee aaa 12 8; FFF aaa bbb ccc ddd eee 15 5; FFF eee aaa bbb ccc ddd 10 12; FFF ddd eee aaa bbb ccc 4 9;
   FFF ccc ddd eee aaa bbb 1 12; FFF bbb ccc ddd eee aaa 5 5; FFF aaa bbb ccc ddd eee 8 14; FFF eee aaa bbb ccc ddd 7 6;
   FFF ddd eee aaa bbb ccc 6 8; FFF ccc ddd eee aaa bbb 2 13; FFF bbb ccc ddd eee aaa 13 6; FFF aaa bbb ccc ddd eee 14 5;
   FFF eee aaa bbb ccc ddd 0 15; FFF ddd eee aaa bbb ccc 3 13; FFF ccc ddd eee aaa bbb 9 11; FFF bbb ccc ddd eee aaa 11 11].

Definition run_call (X : list Z) (s : regfile) (i : call) : regfile :=
  step (call_fn i) (call_k i) (call_a i) (call_b i) (call_c i) (call_d i) (call_e i)
       (nth (call_x i) X 0) (call_s i) s.

Definition load (MDbuf : list Z) : regfile := fun r =>
  match r with
  | aa | aaa => nth 0 MDbuf 0 | bb | bbb => nth 1 MDbuf 0 | cc | ccc => nth 2 MDbuf 0
  | dd | ddd => nth 3 MDbuf 0 | ee | eee => nth 4 MDbuf 0
  end.

Definition compress (MDbuf X : list Z) : list Z :=
  let s := fold_left (run_call X) (rounds ++ parallel_rounds) (load MDbuf) in
  let md i := nth i MDbuf 0 in
  [u32 (s ddd + (s cc + md 1%nat)); u32 (md 2%nat + s dd + s eee); u32 (md 3%nat + s ee + s aaa);
   u32 (md 4%nat + s aa + s bbb); u32 (md 0%nat + s bb + s ccc)].

(** ** The hash function *)

(** [chunk[j]] read from four bytes. *)
Definition load_word (b : list Z) : Z :=
  Z.lor (Z.lor (Z.lor (nth 0 b 0) (Z.shiftl (nth 1 b 0) 8)) (Z.shiftl (nth 2 b 0) 16))
        (Z.shiftl (nth 3 b 0) 24).

Fixpoint load_chunk (n : nat) (msg : list Z) : list Z :=
  match n with
  | O => []
  | S n' => load_word msg :: load_chunk n' (drop 4 msg)
  end.

Fixpoint full_chunks (n : nat) (digest msg : list Z) : list Z * list Z :=
  match n with
  | O => (digest, msg)
  | S n' => full_chunks n' (compress digest (load_chunk 16 msg)) (drop 64 msg)
  end.

(** [chunk[i >> 2] ^= v << ((i & 3) << 3)] *)
Definition xor_at (i : nat) (v : Z) (chunk : list Z) : list Z :=
  alter (fun w => Z.lxor w (u32 (Z.shiftl v (8 * Z.of_nat (i mod 4))))) (i / 4)%nat chunk.

Fixpoint xor_bytes (i : nat) (msg chunk : list Z) : list Z :=
  match msg with
  | [] => chunk
  | b :: msg' => xor_bytes (S i) msg' (xor_at i b chunk)
  end.

Definition btc_ripemd160 (msg : list Z) : list Z :=
  let msg_len := zlen msg in
  let digest := [0x67452301; 0xefcdab89; 0x98badcfe; 0x10325476; 0xc3d2e1f0] in
  let '(digest, rest) := full_chunks (Z.to_nat (Z.shiftr msg_len 6)) digest msg in
  let used := Z.to_nat (Z.land msg_len 63) in
  let chunk := xor_bytes 0 (take used rest) (replicate 16 0) in
  let chunk := alter (fun w => Z.lxor w (Z.shiftl 1 (8 * Z.land msg_len 3 + 7)))
                 (Z.to_nat (Z.land (Z.shiftr msg_len 2) 15)) chunk in
  let '(digest, chunk) :=
    if (55 <? used)%nat then (compress digest chunk, replicate 16 0) else (digest, chunk) in
  let chunk := <[14%nat := u32 (Z.shiftl msg_len 3)]> chunk in
  let chunk := <[15%nat := Z.shiftr msg_len 29]> chunk in
  let digest := compress digest chunk in
  flat_map (fun w => [u8 w; u8 (Z.shiftr w 8); u8 (Z.shiftr w 16); u8 (Z.shiftr w 24)]) digest.

(** ** The published description *)

(** Message word selection and rotation amounts of the two lines. *)
Definition r_table : list nat :=
  [0; 1; 2; 3; 4; 5; 6; 7; 8; 9; 10; 11; 12; 13; 14; 15;
   7; 4; 13; 1; 10; 6; 15; 3; 12; 0; 9; 5; 2; 14; 11; 8;
   3; 10; 14; 4; 9; 15; 8; 1; 2; 7; 0; 6; 13; 11; 5; 12;
   1; 9; 11; 10; 0; 8; 12; 4; 13; 3; 7; 15; 14; 5; 6; 2;
   4; 0; 5; 9; 7; 12; 2; 10; 14; 1; 3; 8; 11; 6; 15; 13]%nat.
Definition r'_table : list nat :=
  [5; 14; 7; 0; 9; 2; 11; 4; 13; 6; 15; 8; 1; 10; 3; 12;
   6; 11; 3; 7; 0; 13; 5; 10; 14; 15; 8; 12; 4; 9; 1; 2;
   15; 5; 1; 3; 7; 14; 6; 9; 11; 8; 12; 2; 10; 0; 4; 13;
   8; 6; 4; 1; 3; 11; 15; 0; 5; 12; 2; 13; 9; 7; 10; 14;
   12; 15; 10; 4; 1; 5; 8; 7; 6; 2; 13; 14; 0; 3; 9; 11]%nat.
Definition s_table : list Z :=
  [11; 14; 15; 12; 5; 8; 7; 9; 11; 13; 14; 15; 6; 7; 9; 8;
   7; 6; 8; 13; 11; 9; 7; 15; 7; 12; 15; 9; 11; 7; 13; 12;
   11; 13; 6; 7; 14; 9; 13; 15; 14; 8; 13; 6; 5; 12; 7; 5;
   11; 12; 14; 15; 14; 15; 9; 8; 9; 14; 5; 6; 8; 6; 5; 12;
   9; 15; 5; 11; 6; 8; 13; 12; 5; 12; 13; 14; 11; 8; 5; 6].
Definition s'_table : list Z :=
  [8; 9; 9; 11; 13; 15; 15; 5; 7; 7; 8; 11; 14; 14; 12; 6;
   9; 13; 15; 7; 12; 8; 9; 11; 7; 7; 12; 7; 6; 15; 13; 11;
   9; 7; 15; 11; 8; 6; 6; 14; 12; 13; 5; 14; 13; 13; 7; 5;
   15; 5; 8; 11; 14; 14; 6; 14; 6; 9; 12; 9; 12; 5; 15; 8;
   8; 5; 12; 9; 12; 5; 14; 6; 8; 13; 6; 5; 15; 13; 11; 11].

Definition fn_of (j : nat) : Z -> Z -> Z -> Z :=
  nth (j / 16) [F; G; H; IQ; J] F.
Definition fn'_of (j : nat) : Z -> Z -> Z -> Z :=
  nth (j / 16) [J; IQ; H; G; F] F.
Definition K_of (j : nat) : Z :=
  nth (j / 16) [0; 0x5a827999; 0x6ed9eba1; 0x8f1bbcdc; 0xa953fd4e] 0.
Definition K'_of (j : nat) : Z :=
  nth (j / 16) [0x50a28be6; 0x5c4dd124; 0x6d703ef3; 0x7a6d76e9; 0] 0.

(** Five registers A, B, C, D, E. *)
Definition line_step (fn : nat -> Z -> Z -> Z -> Z) (K : nat -> Z) (r : list nat) (rot X : list Z)
    (s : Z * Z * Z * Z * Z) (j : nat) : Z * Z * Z * Z * Z :=
  let '(A, B, C, D, E) := s in
  let T := u32 (ROL (u32 (A + fn j B C D + nth (nth j r O) X 0 + K j)) (nth j rot 0) + E) in
  (E, T, B, ROL C 10, D).

Definition line (fn : nat -> Z -> Z -> Z -> Z) (K : nat -> Z) (r : list nat) (rot X h : list Z) :=
  fold_left (line_step fn K r rot X) (seq 0 80)
    (nth 0 h 0, nth 1 h 0, nth 2 h 0, nth 3 h 0, nth 4 h 0).

Definition rmd_block (h X : list Z) : list Z :=
  let '(A, B, C, D, E) := line fn_of K_of r_table s_table X h in
  let '(A', B', C', D', E') := line fn'_of K'_of r'_table s'_table X h in
  [u32 (nth 1 h 0 + C + D'); u32 (nth 2 h 0 + D + E'); u32 (nth 3 h 0 + E + A');
   u32 (nth 4 h 0 + A + B'); u32 (nth 0 h 0 + B + C')].

(** Little endian words of a block. *)
Definition words_of (b : list Z) : list Z :=
  map (fun i => le_val (take 4 (drop (4 * i) b))) (seq 0 16).

Fixpoint blocks64 (n : nat) (l : list Z) : list (list Z) :=
  match n with
  | O => []
  | S n' => take 64 l :: blocks64 n' (drop 64 l)
  end.

Definition rmd_pad (m : list Z) : list Z :=
  m ++ [0x80] ++ replicate (Z.to_nat ((55 - zlen m) mod 64)) 0 ++ le_bytes 8 (8 * zlen m).

Definition rmd160_spec (m : list Z) : list Z :=
  flat_map (le_bytes 4)
    (fold_left rmd_block (map words_of (blocks64 (length (rmd_pad m) / 64) (rmd_pad m)))
       [0x67452301; 0xefcdab89; 0x98badcfe; 0x10325476; 0xc3d2e1f0]).

(** The hash has 20 bytes. *)
Lemma ripemd160_bytes (msg : list Z) : zlen (btc_ripemd160 msg) = 20 /\ is_bytes (btc_ripemd160 msg).
Proof.
  unfold btc_ripemd160. destruct (full_chunks _ _ _) as [d rest]. destruct (if (55 <? _)%nat then _ else _) as [d' c'].
  assert (exists a b c d e, compress d' (<[15%nat:=Z.shiftr (zlen msg) 29]> (<[14%nat:=u32 (Z.shiftl (zlen msg) 3)]> c')) = [a; b; c; d; e])
    as (a & b & c & e & f & ->) by (unfold compress; by eexists _, _, _, _, _).
  split; [reflexivity|]. cbn [flat_map app]. repeat (apply is_bytes_cons; [apply wrap_range; lia|]). constructor.
Qed.

(** ** The unrolled lines follow the tables *)

Definition rot (rs : reg * reg * reg * reg * reg) : reg * reg * reg * reg * reg :=
  let '(a, b, c, d, e) := rs in (e, a, b, c, d).

(** The macro calls of a line generated from its tables. *)
Fixpoint line_calls (fn : nat -> Z -> Z -> Z -> Z) (K : nat -> Z) (r : list nat) (rt : list Z)
    (n j : nat) (rs : reg * reg * reg * reg * reg) : list call :=
  match n with
  | O => []
  | S n' =>
      let '(a, b, c, d, e) := rs in
      mk_call (fn j) (K j) a b c d e (nth j r O) (nth j rt 0)
        :: line_calls fn K r rt n' (S j) (rot rs)
  end.

Lemma rounds_table :
  rounds = line_calls fn_of K_of r_table s_table 80 0 (aa, bb, cc, dd, ee).
Proof. reflexivity. Qed.

Lemma parallel_rounds_table :
  parallel_rounds = line_calls fn'_of K'_of r'_table s'_table 80 0 (aaa, bbb, ccc, ddd, eee).
Proof. reflexivity. Qed.

Definition view (rs : reg * reg * reg * reg * reg) (s : regfile) : Z * Z * Z * Z * Z :=
  let '(a, b, c, d, e) := rs in (s a, s b, s c, s d, s e).
Definition regs_of (rs : reg * reg * reg * reg * reg) : list reg :=
  let '(a, b, c, d, e) := rs in [a; b; c; d; e].

Lemma upd_eq (r : reg) (v : Z) (s : regfile) : upd r v s r = v.
Proof. unfold upd. by rewrite decide_True. Qed.

Lemma upd_ne (r q : reg) (v : Z) (s : regfile) : q <> r -> upd r v s q = s q.
Proof. intros. unfold upd. by rewrite decide_False. Qed.

Lemma rot_regs (rs : reg * reg * reg * reg * reg) : regs_of (rot rs) ≡ₚ regs_of rs.
Proof. destruct rs as [[[[a b] c] d] e]. simpl. solve_Permutation. Qed.

(** One macro call is one step of the line, seen through the renamed registers. *)
Lemma run_call_view (X : list Z) (s : regfile) fn K r rt (j : nat) (a b c d e : reg) :
  NoDup [a; b; c; d; e] ->
  let s' := run_call X s (mk_call (fn j) (K j) a b c d e (nth j r O) (nth j rt 0)) in
  view (e, a, b, c, d) s' = line_step fn K r rt X (view (a, b, c, d, e) s) j /\
  (forall q, q ∉ [a; b; c; d; e] -> s' q = s q).
Proof.
  intros Hd.
  repeat match goal with D : NoDup (_ :: _) |- _ => apply list.NoDup_cons in D as [? D] end.
  repeat match goal with D : _ ∉ _ :: _ |- _ => apply not_elem_of_cons in D as [? D] end. split.
  - unfold run_call, step, line_step, view. cbn [call_fn call_k call_a call_b call_c call_d call_e call_x call_s].
    rewrite !(upd_eq c), !(upd_ne c), !(upd_eq a), !(upd_ne a) by congruence.
    by rewrite !Z.add_assoc.
  - intros q Hq. repeat match goal with D : _ ∉ _ :: _ |- _ => apply not_elem_of_cons in D as [? D] end.
    unfold run_call, step. cbn [call_a call_c]. by rewrite !upd_ne by done.
Qed.

Lemma line_calls_run (X : list Z) fn K r rt (n j : nat) rs (s : regfile) :
  NoDup (regs_of rs) ->
  let s' := fold_left (run_call X) (line_calls fn K r rt n j rs) s in
  view (Nat.iter n rot rs) s' = fold_left (line_step fn K r rt X) (seq j n) (view rs s) /\
  (forall q, q ∉ regs_of rs -> s' q = s q).
Proof.
  revert j rs s. induction n as [|n IH]; intros j rs s Hd; [done|].
  cbn [line_calls seq fold_left]. pose proof (rot_regs rs) as Hp.
  destruct rs as [[[[a b] c] d] e].
  destruct (run_call_view X s fn K r rt j a b c d e Hd) as [Hv Hf].
  cbn [fold_left]. rewrite <- Hv, Nat.iter_succ_r.
  destruct (IH (S j) (rot (a, b, c, d, e)) (run_call X s
    (mk_call (fn j) (K j) a b c d e (nth j r O) (nth j rt 0)))) as [IH1 IH2]; [by rewrite Hp|].
  split; [done|]. intros q Hq. rewrite IH2 by by rewrite Hp. by apply Hf.
Qed.

(** [compress] is the block function of the description. *)
Lemma compress_spec (MDbuf X : list Z) : compress MDbuf X = rmd_block MDbuf X.
Proof.
  unfold compress, rmd_block, line. rewrite fold_left_app, rounds_table, parallel_rounds_table.
  destruct (line_calls_run X fn_of K_of r_table s_table 80 0 (aa, bb, cc, dd, ee) (load MDbuf)) as [V1 F1].
  { apply (bool_decide_unpack _). by vm_compute. }
  set (s1 := fold_left (run_call X) (line_calls fn_of _ _ _ _ _ _) _) in *.
  destruct (line_calls_run X fn'_of K'_of r'_table s'_table 80 0 (aaa, bbb, ccc, ddd, eee) s1) as [V2 F2].
  { apply (bool_decide_unpack _). by vm_compute. }
  set (s2 := fold_left (run_call X) (line_calls fn'_of _ _ _ _ _ _) _) in *.
  change (view (Nat.iter 80 rot (aa, bb, cc, dd, ee)) s1) with (s1 aa, s1 bb, s1 cc, s1 dd, s1 ee) in V1.
  change (view (Nat.iter 80 rot (aaa, bbb, ccc, ddd, eee)) s2)
    with (s2 aaa, s2 bbb, s2 ccc, s2 ddd, s2 eee) in V2.
  cbn [view load] in V1.
  assert (view (aaa, bbb, ccc, ddd, eee) s1 =
    (nth 0 MDbuf 0, nth 1 MDbuf 0, nth 2 MDbuf 0, nth 3 MDbuf 0, nth 4 MDbuf 0)) as E.
  { cbn [view]. rewrite !F1; [done|..]; apply (bool_decide_unpack _); by vm_compute. }
  rewrite E in V2. rewrite <- V1, <- V2.
  rewrite (F2 aa), (F2 bb), (F2 cc), (F2 dd), (F2 ee)
    by (apply (bool_decide_unpack _); by vm_compute).
  f_equal. f_equal. lia.
Qed.

#[local] Opaque compress rmd_block.

(** ** Words of a block *)

Lemma words_of_length (l : list Z) : length (words_of l) = 16%nat.
Proof. done. Qed.

Lemma words_of_lookup (l : list Z) (k : nat) :
  (k < 16)%nat -> words_of l !! k = Some (le_val (take 4 (drop (4 * k) l))).
Proof. intros. unfold words_of. by rewrite list_lookup_fmap, lookup_seq_lt by done. Qed.

(** Two word lists agree when they do at the sixteen indices. *)
Lemma words_ext (a b : list Z) :
  length a = 16%nat -> length b = 16%nat -> (forall k, (k < 16)%nat -> a !! k = b !! k) -> a = b.
Proof.
  intros Ha Hb E. apply list_eq. intros k. destruct (decide (k < 16)%nat); [by apply E|].
  rewrite !lookup_ge_None_2; [done|lia|lia].
Qed.

Lemma load_word_val (b : list Z) : is_bytes b -> load_word b = le_val (take 4 b).
Proof. apply load32_val. Qed.

Lemma load_chunk_words (msg : list Z) : is_bytes msg -> load_chunk 16 msg = words_of (take 64 msg).
Proof.
  intros Hb. apply words_ext; [done|done|].
  assert (forall n k m, is_bytes m -> (k < n)%nat ->
    load_chunk n m !! k = Some (le_val (take 4 (drop (4 * k) m)))) as Hl.
  { induction n as [|n IH]; intros k m Hm Hk; [lia|]. cbn [load_chunk]. destruct k as [|k].
    - simpl. by rewrite load_word_val.
    - cbn [lookup list_lookup]. rewrite IH by (auto with libbtc; lia). rewrite drop_drop. repeat f_equal. lia. }
  intros k Hk. rewrite Hl, words_of_lookup by (done || lia). do 2 f_equal.
  rewrite skipn_firstn_comm, take_take. f_equal. lia.
Qed.

Lemma xor_at_words (b : Z) (l : list Z) :
  is_bytes l -> is_byte b -> (length l < 64)%nat ->
  xor_at (length l) b (words_of l) = words_of (l ++ [b]).
Proof.
  intros Hl Hb Hlen. unfold xor_at. set (i := length l) in *.
  pose proof (Nat.div_mod_eq i 4). pose proof (Nat.mod_upper_bound i 4 ltac:(lia)).
  apply words_ext; [by rewrite length_alter|done|]. intros k Hk. rewrite words_of_lookup by done.
  destruct (decide (k = i / 4)%nat) as [->|Hne].
  - rewrite list_lookup_alter_eq, words_of_lookup by done. cbn [fmap option_fmap option_map]. f_equal.
    rewrite (drop_app_le l) by lia. set (t := drop (4 * (i / 4)) l).
    assert (length t = i mod 4)%nat as Ht by (unfold t; rewrite length_drop; fold i; lia).
    assert (is_bytes t) as Htb by by apply is_bytes_drop.
    pose proof (le_val_bound t Htb) as Hv. unfold zlen in Hv. rewrite Ht in Hv.
    change 256 with (2 ^ 8) in Hv. rewrite <- Z.pow_mul_r in Hv by lia.
    rewrite !take_ge by (rewrite ?length_app; simpl; lia). rewrite le_val_app. unfold zlen. rewrite Ht.
    cbn [le_val]. unfold is_byte in Hb.
    rewrite wrap_small.
    + rewrite lxor_add_pow2, (Z.pow_mul_r 2 8) by lia. change (2 ^ 8) with 256.
      by rewrite Z.mul_0_r, Z.add_0_r.
    + rewrite Z.shiftl_mul_pow2 by lia. split; [lia|].
      assert (2 ^ (8 * Z.of_nat (i mod 4)) <= 2 ^ 24) by (apply Z.pow_le_mono_r; lia). nia.
  - rewrite list_lookup_alter_ne, words_of_lookup by (done || lia). do 2 f_equal.
    destruct (decide (k < i / 4)%nat).
    + rewrite (drop_app_le l) by lia. rewrite take_app_le; [done|]. rewrite length_drop. fold i. lia.
    + rewrite !(drop_ge _ (4 * k)); [done| |]; rewrite ?length_app; simpl; lia.
Qed.

Lemma xor_bytes_words (msg l : list Z) :
  is_bytes l -> is_bytes msg -> (length (l ++ msg) <= 64)%nat ->
  xor_bytes (length l) msg (words_of l) = words_of (l ++ msg).
Proof.
  intros Hl Hm. revert l Hl. induction Hm as [|b msg Hb Hm IH]; intros l Hl Hlen.
  - by rewrite app_nil_r.
  - rewrite length_app in Hlen. simpl in Hlen. cbn [xor_bytes].
    rewrite xor_at_words by (done || lia).
    replace (S (length l)) with (length (l ++ [b])) by (rewrite length_app; simpl; lia).
    rewrite IH, <- app_assoc; [done| |].
    + apply is_bytes_app. auto with libbtc.
    + rewrite !length_app. simpl. lia.
Qed.

(** Zeros after the bytes do not change the words. *)
Lemma words_of_zeros (l : list Z) (n : nat) : words_of (l ++ replicate n 0) = words_of l.
Proof.
  apply words_ext; [done|done|]. intros k Hk. rewrite !words_of_lookup by done. f_equal.
  rewrite skipn_app, drop_replicate, firstn_app, take_replicate, le_val_app, le_val_zeros. lia.
Qed.

(** The words of a block that ends with the length. *)
Lemma words_of_length_field (x : list Z) (v : Z) :
  length x = 56%nat -> 0 <= v < 2 ^ 64 ->
  words_of (x ++ le_bytes 8 v) = <[15%nat := v / 2 ^ 32]> (<[14%nat := u32 v]> (words_of x)).
Proof.
  intros Hx Hv. apply words_ext; [done|done|]. intros k Hk. rewrite words_of_lookup by done.
  pose proof (le_bytes_length 4 v) as L1. pose proof (le_bytes_length 4 (v / 256 ^ Z.of_nat 4)) as L2.
  change 8%nat with (4 + 4)%nat. rewrite (le_bytes_add 4 4 v), app_assoc.
  destruct (decide (k = 15)%nat) as [->|].
  { rewrite list_lookup_insert_eq by done. f_equal.
    rewrite drop_app_length' by (rewrite length_app; lia). rewrite take_ge by lia.
    apply le_val_bytes_small. change (256 ^ Z.of_nat 4) with (2 ^ 32). zdm. }
  rewrite list_lookup_insert_ne by done. destruct (decide (k = 14)%nat) as [->|].
  { rewrite list_lookup_insert_eq by done. f_equal.
    rewrite <- app_assoc, drop_app_length', take_app_length' by lia. apply le_val_bytes. }
  rewrite <- app_assoc.
  rewrite list_lookup_insert_ne, words_of_lookup by done. do 2 f_equal.
  rewrite drop_app_le, take_app_le; [done| |]; rewrite ?length_drop; lia.
Qed.

(** ** Whole messages *)

Lemma full_chunks_S (n : nat) (d msg : list Z) :
  full_chunks (S n) d msg = full_chunks n (compress d (load_chunk 16 msg)) (drop 64 msg).
Proof. reflexivity. Qed.

Lemma fold_left_cons {A B} (f : A -> B -> A) (b : B) (l : list B) (a : A) :
  fold_left f (b :: l) a = fold_left f l (f a b).
Proof. reflexivity. Qed.

Lemma blocks64_S (n : nat) (l : list Z) : blocks64 (S n) l = take 64 l :: blocks64 n (drop 64 l).
Proof. reflexivity. Qed.

Lemma fold_blocks_S (n : nat) (d msg : list Z) :
  fold_left rmd_block (map words_of (blocks64 (S n) msg)) d =
  fold_left rmd_block (map words_of (blocks64 n (drop 64 msg))) (rmd_block d (words_of (take 64 msg))).
Proof. by rewrite blocks64_S, map_cons, fold_left_cons. Qed.

Lemma full_chunks_spec (n : nat) (d msg : list Z) :
  is_bytes msg ->
  full_chunks n d msg = (fold_left rmd_block (map words_of (blocks64 n msg)) d, drop (64 * n) msg).
Proof.
  revert d msg. induction n as [|n IH]; intros d msg Hb; [done|].
  rewrite full_chunks_S, fold_blocks_S, IH by auto with libbtc.
  rewrite compress_spec, load_chunk_words, drop_drop by done.
  by replace (64 + 64 * n)%nat with (64 * S n)%nat by lia.
Qed.

Lemma blocks64_app (q k : nat) (a b : list Z) :
  length a = (64 * q)%nat -> blocks64 (q + k) (a ++ b) = blocks64 q a ++ blocks64 k b.
Proof.
  revert a. induction q as [|q IH]; intros a Ha; [by destruct a|].
  cbn [blocks64 Nat.add app]. rewrite take_app_le, drop_app_le by lia.
  rewrite IH by (rewrite length_drop; lia). done.
Qed.

Lemma blocks64_take (q : nat) (l : list Z) : blocks64 q (take (64 * q) l) = blocks64 q l.
Proof.
  revert l. induction q as [|q IH]; intros l; [done|]. cbn [blocks64].
  rewrite take_take, skipn_firstn_comm. replace (64 * S q - 64)%nat with (64 * q)%nat by lia.
  rewrite IH. do 2 f_equal. lia.
Qed.

(** The three ways to finish, on the [used] bytes [t] left over. *)
Lemma rmd_pad_zeros (n : Z) : 0 <= n ->
  Z.to_nat ((55 - n) mod 64) =
  if n mod 64 <=? 55 then Z.to_nat (55 - n mod 64) else Z.to_nat (119 - n mod 64).
Proof. intros Hn. case_bool; reflect_bools; f_equal; zdm. Qed.

Lemma digest_bytes (d : list Z) :
  flat_map (fun w => [u8 w; u8 (Z.shiftr w 8); u8 (Z.shiftr w 16); u8 (Z.shiftr w 24)]) d =
  flat_map (le_bytes 4) d.
Proof.
  induction d as [|w d IH]; [done|]. cbn [flat_map]. rewrite IH. f_equal. apply store32_val.
Qed.

(** Words of a message tail with its end marker. *)
Lemma marker_words (t : list Z) :
  is_bytes t -> (length t < 64)%nat ->
  alter (fun w => Z.lxor w (Z.shiftl 1 (8 * Z.of_nat (length t mod 4) + 7))) (length t / 4)%nat
    (xor_bytes 0 t (replicate 16 0)) = words_of (t ++ [0x80]).
Proof.
  intros Ht Hl. assert (xor_bytes 0 t (replicate 16 0) = words_of t) as ->.
  { apply (xor_bytes_words t []); auto with libbtc. simpl. lia. }
  rewrite <- xor_at_words by (done || unfold is_byte; lia). unfold xor_at.
  apply list_alter_ext; [|done]. intros w _. f_equal.
  pose proof (Nat.mod_upper_bound (length t) 4 ltac:(lia)).
  rewrite !Z.shiftl_mul_pow2 by lia. rewrite Z.pow_add_r, wrap_small; [lia| |lia|lia].
  assert (2 ^ (8 * Z.of_nat (length t mod 4)) <= 2 ^ 24) by (apply Z.pow_le_mono_r; lia).
  assert (0 < 2 ^ (8 * Z.of_nat (length t mod 4))) by lia. lia.
Qed.

(** What is left of the message after its full blocks, padded. *)
Definition rmd_rest (t : list Z) (n : Z) : list Z :=
  t ++ [0x80] ++ replicate (Z.to_nat ((55 - n) mod 64)) 0 ++ le_bytes 8 (8 * n).

Lemma rmd_rest_fits (d t : list Z) (n : Z) :
  length t = Z.to_nat (n mod 64) -> 0 <= n < 2 ^ 32 -> n mod 64 <= 55 ->
  length (rmd_rest t n) = 64%nat /\
  compress d (<[15%nat := (8 * n) / 2 ^ 32]> (<[14%nat := u32 (8 * n)]> (words_of (t ++ [0x80])))) =
  fold_left rmd_block (map words_of (blocks64 1 (rmd_rest t n))) d.
Proof.
  intros Ht Hn Hs. unfold rmd_rest. rewrite rmd_pad_zeros by lia. zif.
  match goal with |- length ?l = _ /\ _ => assert (length l = 64%nat) as Hl end.
  { rewrite !length_app, length_replicate, le_bytes_length. simpl. zdm. }
  split; [done|]. rewrite fold_blocks_S, compress_spec, take_ge by lia. cbn [blocks64 map fold_left].
  rewrite !app_assoc, words_of_length_field; [by rewrite words_of_zeros| |lia].
  rewrite !length_app, length_replicate. simpl. zdm.
Qed.

Lemma rmd_rest_overflows (d t : list Z) (n : Z) :
  length t = Z.to_nat (n mod 64) -> 0 <= n < 2 ^ 32 -> 55 < n mod 64 ->
  length (rmd_rest t n) = 128%nat /\
  compress (compress d (words_of (t ++ [0x80])))
    (<[15%nat := (8 * n) / 2 ^ 32]> (<[14%nat := u32 (8 * n)]> (replicate 16 0))) =
  fold_left rmd_block (map words_of (blocks64 2 (rmd_rest t n))) d.
Proof.
  intros Ht Hn Hs. unfold rmd_rest. rewrite rmd_pad_zeros by lia. zif.
  set (b1 := t ++ [0x80] ++ replicate (63 - length t) 0).
  assert (length b1 = 64%nat) as Hb1 by (unfold b1; rewrite !length_app, length_replicate; simpl; zdm).
  replace (Z.to_nat (119 - n mod 64)) with (63 - length t + 56)%nat by zdm.
  rewrite replicate_add, <- app_assoc.
  replace (t ++ _) with (b1 ++ replicate 56 0 ++ le_bytes 8 (8 * n)) by (unfold b1; by rewrite <- !app_assoc).
  split; [by rewrite !length_app, Hb1, length_replicate, le_bytes_length|].
  rewrite !fold_blocks_S, !compress_spec. cbn [blocks64 map fold_left].
  rewrite take_app_length', drop_app_length' by done.
  rewrite (take_ge (replicate _ _ ++ _)) by (rewrite length_app, length_replicate, le_bytes_length; lia).
  rewrite words_of_length_field by (rewrite ?length_replicate; lia).
  unfold b1. by rewrite (app_assoc t), !words_of_zeros.
Qed.

(** Full blocks, then the rest. *)
Lemma rmd_pad_fold (msg d : list Z) (q k : nat) :
  q = (length msg / 64)%nat -> length (rmd_rest (drop (64 * q) msg) (zlen msg)) = (64 * k)%nat ->
  fold_left rmd_block (map words_of (blocks64 (length (rmd_pad msg) / 64) (rmd_pad msg))) d =
  fold_left rmd_block (map words_of (blocks64 k (rmd_rest (drop (64 * q) msg) (zlen msg))))
    (fold_left rmd_block (map words_of (blocks64 q msg)) d).
Proof.
  intros Hq Hr. pose proof (Nat.Div0.mul_div_le (length msg) 64).
  assert (length (take (64 * q) msg) = (64 * q)%nat) as Ht by (rewrite length_take; lia).
  assert (rmd_pad msg = take (64 * q) msg ++ rmd_rest (drop (64 * q) msg) (zlen msg)) as ->.
  { unfold rmd_pad, rmd_rest. rewrite <- (take_drop (64 * q) msg) at 1. by rewrite <- app_assoc. }
  rewrite length_app, Ht, Hr, <- Nat.mul_add_distr_l, Nat.mul_comm, Nat.div_mul by lia.
  by rewrite blocks64_app, map_app, fold_left_app, blocks64_take.
Qed.

Lemma btc_ripemd160_spec (msg : list Z) :
  is_bytes msg -> zlen msg < 2 ^ 32 -> btc_ripemd160 msg = rmd160_spec msg.
Proof.
  intros Hb Hl. unfold btc_ripemd160, rmd160_spec. pose proof (zlen_nonneg msg) as Hn.
  set (q := (length msg / 64)%nat).
  rewrite !Z.shiftr_div_pow2, (Z.shiftl_mul_pow2 _ 3) by lia.
  change 63 with (Z.ones 6). change 15 with (Z.ones 4). change (Z.land (zlen msg) 3) with (Z.land (zlen msg) (Z.ones 2)).
  rewrite !Z.land_ones by lia.
  assert (Z.of_nat q = zlen msg / 64) as Hq by (unfold q; by rewrite Nat2Z.inj_div).
  assert (Z.to_nat (zlen msg / 2 ^ 6) = q) as -> by (change (2 ^ 6) with 64; lia).
  rewrite full_chunks_spec by done. set (t := drop (64 * q) msg).
  assert (length t = Z.to_nat (zlen msg mod 64)) as Ht.
  { unfold t. rewrite length_drop. unfold zlen in *. zdm. }
  assert (is_bytes t) as Htb by by apply is_bytes_drop.
  rewrite (take_ge t) by (rewrite Ht; done).
  replace (8 * (zlen msg mod 2 ^ 2) + 7) with (8 * Z.of_nat (length t mod 4) + 7)
    by (rewrite Ht, Nat2Z.inj_mod, Z2Nat.id by zdm; zdm).
  replace (Z.to_nat ((zlen msg / 2 ^ 2) mod 2 ^ 4)) with (length t / 4)%nat
    by (rewrite Ht; apply Nat2Z.inj; rewrite Nat2Z.inj_div, !Z2Nat.id by zdm; zdm).
  rewrite marker_words by (auto; rewrite Ht; zdm).
  assert (zlen msg / 2 ^ 29 = (8 * zlen msg) / 2 ^ 32) as -> by zdm.
  replace (zlen msg * 2 ^ 3) with (8 * zlen msg) by lia.
  change (Z.to_nat (zlen msg mod 2 ^ 6)) with (Z.to_nat (zlen msg mod 64)). rewrite <- Ht.
  destruct (Z.leb_spec (zlen msg mod 64) 55) as [Hs|Hs].
  - assert ((55 <? length t)%nat = false) as -> by (apply Nat.ltb_ge; lia).
    edestruct rmd_rest_fits as [Hr E]; [exact Ht|lia|done|].
    by rewrite digest_bytes, E, (rmd_pad_fold msg _ q 1).
  - assert ((55 <? length t)%nat = true) as -> by (apply Nat.ltb_lt; lia).
    edestruct rmd_rest_overflows as [Hr E]; [exact Ht|lia|done|].
    by rewrite digest_bytes, E, (rmd_pad_fold msg _ q 2).
Qed.

(** C11: [btc_ripemd160] is RIPEMD-160: the unrolled, register renaming macro
    calls compute the table driven compression function, and words, marker and
    length fields assembled in place equal the padded message, for every
    message of less than [2^32] bytes. *)
Theorem ripemd160_correct (msg : list Z) :
  is_bytes msg -> zlen msg < 2 ^ 32 -> btc_ripemd160 msg = rmd160_spec msg.
Proof. apply btc_ripemd160_spec. Qed.

Lemma ripemd160_correct_witness :
  btc_ripemd160 [97; 98; 99] = rmd160_spec [97; 98; 99] /\
  be_val (rmd160_spec [97; 98; 99]) = 0x8eb208f7e05d987a9b044a8e98c6b087f15a0bfc.
Proof.
  split; [|vm_compute; reflexivity]. apply (ripemd160_correct [97; 98; 99]); [|reflexivity].
  repeat constructor; vm_compute; congruence.
Defined.
