(* ===== verification/Script.v ===== *)
(** * script.c: parsing, classifying and building scripts

    A script that is only read is the list of the bytes of its [cstring]; a
    script that is built is the [cstring] itself.  A [vector] of operations is
    the list of its elements.  [btc_script_op] keeps the opcode and the pushed
    bytes, [datalen] being their number. *)

From S2P Require Import Prelude Cstr Serialize Sha2 Ripemd160.

(** ** Opcodes used by the code (script.h) *)

Definition OP_0 : Z := 0x00.
Definition OP_PUSHDATA1 : Z := 0x4c.
Definition OP_PUSHDATA2 : Z := 0x4d.
Definition OP_PUSHDATA4 : Z := 0x4e.
Definition OP_1 : Z := 0x51.
Definition OP_16 : Z := 0x60.
Definition OP_DUP : Z := 0x76.
Definition OP_EQUAL : Z := 0x87.
Definition OP_EQUALVERIFY : Z := 0x88.
Definition OP_HASH160 : Z := 0xa9.
Definition OP_CODESEPARATOR : Z := 0xab.
Definition OP_CHECKSIG : Z := 0xac.
Definition OP_CHECKMULTISIG : Z := 0xae.

Inductive btc_tx_out_type :=
  | BTC_TX_INVALID | BTC_TX_NONSTANDARD | BTC_TX_PUBKEY | BTC_TX_PUBKEYHASH | BTC_TX_SCRIPTHASH
  | BTC_TX_MULTISIG | BTC_TX_WITNESS_V0_PUBKEYHASH | BTC_TX_WITNESS_V0_SCRIPTHASH.

#[export] Instance btc_tx_out_type_eq_dec : EqDecision btc_tx_out_type.
Proof. solve_decision. Defined.

Record btc_script_op := mk_op { op : Z; data : list Z }.
Definition datalen (o : btc_script_op) : Z := zlen (data o).

#[export] Instance btc_script_op_eq_dec : EqDecision btc_script_op.
Proof. solve_decision. Defined.

Definition BTC_ECKEY_COMPRESSED_LENGTH : Z := 33.
Definition BTC_ECKEY_UNCOMPRESSED_LENGTH : Z := 65.

(** ecc_key.c *)
Definition btc_pubkey_get_length (ch_header : Z) : Z :=
  if (ch_header =? 2) || (ch_header =? 3) then BTC_ECKEY_COMPRESSED_LENGTH
  else if (ch_header =? 4) || (ch_header =? 6) || (ch_header =? 7) then BTC_ECKEY_UNCOMPRESSED_LENGTH
  else 0.

(** ** Parsing *)

(** The length that follows a push opcode; [None] for the other opcodes. *)
Definition push_length (opcode : Z) (buf : const_buffer) : option (outcome (Z * const_buffer)) :=
  if opcode <? OP_PUSHDATA1 then Some (Ret (opcode, buf))
  else if opcode =? OP_PUSHDATA1 then
    Some ('(v, b) ← deser_bytes buf 1; Ret (le_val v, b))
  else if opcode =? OP_PUSHDATA2 then Some (deser_u16 buf)
  else if opcode =? OP_PUSHDATA4 then Some (deser_u32 buf)
  else None.

(** [while (buf.len > 0)]; [ops_out] grows at its end. *)
Fixpoint get_ops_loop (fuel : nat) (buf : const_buffer) (ops_out : list btc_script_op) :
    bool * list btc_script_op :=
  match fuel with
  | O => (false, ops_out)
  | S fuel' =>
      match buf with
      | [] => (true, ops_out)
      | opcode :: buf1 =>
          match push_length opcode buf1 with
          | None => get_ops_loop fuel' buf1 (ops_out ++ [mk_op opcode []])
          | Some (Ret (data_len, buf2)) =>
              if (zlen buf2 =? 0) || (zlen buf2 <? data_len) then (false, ops_out) else
              let ops_out := ops_out ++ [mk_op opcode (ztake data_len buf2)] in
              match deser_skip buf2 data_len with
              | Ret buf3 => get_ops_loop fuel' buf3 ops_out
              | _ => (false, ops_out)
              end
          | Some _ => (false, ops_out)
          end
      end
  end.

(** The result and the operations left in the vector. *)
Definition btc_script_get_ops (script_in : list Z) : bool * list btc_script_op :=
  if zlen script_in =? 0 then (false, [])
  else get_ops_loop (S (length script_in)) script_in [].

(** [cstr_append_buf (script_out, &v, n)] for an object of [zlen v] bytes: an
    [n] above its size reads behind it. *)
Definition append_object (script_out : cstring) (v : list Z) (n : Z) : option cstring :=
  if zlen v <? n then None else ser_bytes script_out (ztake n v).

(** The operands of one opcode: data length, what is left, what was appended.
    [None] is the jump to [err_out]. *)
Definition copy_operand (opcode : Z) (buf : const_buffer) (script_out : cstring) :
    option (option (Z * const_buffer * cstring)) :=
  if (opcode <? OP_PUSHDATA1) && (OP_0 <? opcode) then
    s ← ser_bytes script_out [opcode]; Some (Some (opcode, buf, s))
  else if opcode =? OP_PUSHDATA1 then
    match deser_bytes buf 1 with
    | Ret (v, b) => s ← ser_bytes script_out [opcode]; s ← append_object s v 1; Some (Some (le_val v, b, s))
    | _ => Some None
    end
  else if opcode =? OP_PUSHDATA2 then
    match deser_u16 buf with
    | Ret (v, b) =>
        s ← ser_bytes script_out [opcode]; s ← append_object s (le_bytes 2 v) 2; Some (Some (v, b, s))
    | _ => Some None
    end
  else if opcode =? OP_PUSHDATA4 then
    match deser_u32 buf with
    | Ret (v, b) =>
        s ← ser_bytes script_out [opcode]; s ← append_object s (le_bytes 4 v) 5; Some (Some (v, b, s))
    | _ => Some None
    end
  else Some (Some (0, buf, script_out)).

Fixpoint copy_loop (fuel : nat) (buf : const_buffer) (script_out : cstring) : option (bool * cstring) :=
  match fuel with
  | O => None
  | S fuel' =>
      match buf with
      | [] => Some (true, script_out)
      | opcode :: buf1 =>
          if opcode =? OP_CODESEPARATOR then copy_loop fuel' buf1 script_out else
          r ← copy_operand opcode buf1 script_out;
          match r with
          | None => Some (false, script_out)
          | Some (data_len, buf2, s) =>
              if 0 <? data_len then
                if negb (data_len <? 16777215) then None else
                match deser_bytes buf2 data_len with
                | Ret (v, buf3) => s' ← ser_bytes s v; copy_loop fuel' buf3 s'
                | _ => (* the result is ignored: the fresh block is copied as it is *)
                    s' ← ser_cells s (replicate (Z.to_nat data_len) None); copy_loop fuel' buf2 s'
                end
              else
                s' ← ser_bytes s [opcode]; copy_loop fuel' buf2 s'
          end
      end
  end.

Definition btc_script_copy_without_op_codeseperator (script_in : list Z) (script_out : cstring) :
    option (bool * cstring) :=
  if zlen script_in =? 0 then Some (false, script_out)
  else copy_loop (S (length script_in)) script_in script_out.

(** ** Classification *)

Definition btc_script_is_pushdata (o : Z) : bool := o <=? OP_PUSHDATA4.

Definition btc_script_is_op (o : btc_script_op) (opcode : Z) : bool := op o =? opcode.

Definition btc_script_is_op_pubkey (o : btc_script_op) : bool :=
  if negb (btc_script_is_pushdata (op o)) then false
  else if negb (datalen o =? BTC_ECKEY_COMPRESSED_LENGTH) &&
          negb (datalen o =? BTC_ECKEY_UNCOMPRESSED_LENGTH) then false
  else if negb (btc_pubkey_get_length (nth 0 (data o) 0) =? datalen o) then false
  else true.

Definition btc_script_is_op_pubkeyhash (o : btc_script_op) : bool :=
  if negb (btc_script_is_pushdata (op o)) then false
  else if negb (datalen o =? 20) then false
  else true.

(** [vector_idx]; the callers stay within the length. *)
Definition vector_idx (ops : list btc_script_op) (i : nat) : btc_script_op := nth i ops (mk_op 0 []).

(** The predicates append a copy of the payload to [data_out] when they hold
    and the vector is given. *)
Definition add_data (data_out : option (list (list Z))) (d : list Z) : option (list (list Z)) :=
  match data_out with Some l => Some (l ++ [d]) | None => None end.

Definition btc_script_is_pubkey (ops : list btc_script_op) (data_out : option (list (list Z))) :
    bool * option (list (list Z)) :=
  if (zlen ops =? 2) && btc_script_is_op (vector_idx ops 1) OP_CHECKSIG &&
     btc_script_is_op_pubkey (vector_idx ops 0)
  then (true, add_data data_out (data (vector_idx ops 0)))
  else (false, data_out).

Definition btc_script_is_pubkeyhash (ops : list btc_script_op) (data_out : option (list (list Z))) :
    bool * option (list (list Z)) :=
  if (zlen ops =? 5) && btc_script_is_op (vector_idx ops 0) OP_DUP &&
     btc_script_is_op (vector_idx ops 1) OP_HASH160 &&
     btc_script_is_op_pubkeyhash (vector_idx ops 2) &&
     btc_script_is_op (vector_idx ops 3) OP_EQUALVERIFY &&
     btc_script_is_op (vector_idx ops 4) OP_CHECKSIG
  then (true, add_data data_out (ztake 20 (data (vector_idx ops 2))))
  else (false, data_out).

Definition btc_script_is_scripthash (ops : list btc_script_op) (data_out : option (list (list Z))) :
    bool * option (list (list Z)) :=
  if (zlen ops =? 3) && btc_script_is_op (vector_idx ops 0) OP_HASH160 &&
     btc_script_is_op_pubkeyhash (vector_idx ops 1) &&
     btc_script_is_op (vector_idx ops 2) OP_EQUAL
  then (true, add_data data_out (ztake 20 (data (vector_idx ops 1))))
  else (false, data_out).

Definition btc_script_is_op_smallint (o : btc_script_op) : bool :=
  (op o =? OP_0) || ((OP_1 <=? op o) && (op o <=? OP_16)).

Definition btc_script_is_multisig (ops : list btc_script_op) : bool :=
  if (zlen ops <? 3) || (16 + 3 <? zlen ops) ||
     negb (btc_script_is_op_smallint (vector_idx ops 0)) ||
     negb (btc_script_is_op_smallint (vector_idx ops (length ops - 2))) ||
     negb (btc_script_is_op (vector_idx ops (length ops - 1)) OP_CHECKMULTISIG)
  then false
  else forallb (fun i => btc_script_is_op_pubkey (vector_idx ops i)) (seq 1 (length ops - 3)).

Definition btc_script_classify_ops (ops : list btc_script_op) : btc_tx_out_type :=
  if fst (btc_script_is_pubkeyhash ops None) then BTC_TX_PUBKEYHASH
  else if fst (btc_script_is_scripthash ops None) then BTC_TX_SCRIPTHASH
  else if fst (btc_script_is_pubkey ops None) then BTC_TX_PUBKEY
  else if btc_script_is_multisig ops then BTC_TX_MULTISIG
  else BTC_TX_NONSTANDARD.

(** ** Witness programs *)

Definition btc_decode_op_n (o : Z) : option Z :=
  if o =? OP_0 then Some 0
  else if (OP_1 <=? o) && (o <=? OP_16) then Some (u8 (o - (OP_1 - 1))) else None.

(** [script->str] has type [char*]: its elements are signed.  [Ret None] is the
    result false; the version and the program are stored otherwise. *)
Definition btc_script_is_witnessprogram (script : list Z) : outcome (option (Z * list Z)) :=
  let len := zlen script in
  if (len <? 4) || (42 <? len) then Ret None else
  let c0 := swrap 8 (nth 0 script 0) in
  let c1 := swrap 8 (nth 1 script 0) in
  if negb (c0 =? OP_0) && ((c0 <? OP_1) || (OP_16 <? c0)) then Ret None else
  if u64 (c1 + 2) =? len then
    v ← total (btc_decode_op_n c0);
    assert_ (len - 2 <=? 40) ;;
    Ret (Some (v, zdrop 2 script))
  else Ret None.

(** The assignments of [btc_script_classify] in their order: a later match
    overrides the type and adds its payload. *)
Definition btc_script_classify (script : list Z) (data_out : option (list (list Z))) :
    outcome (btc_tx_out_type * option (list (list Z))) :=
  let ops := snd (btc_script_get_ops script) in
  let t := BTC_TX_NONSTANDARD in
  let '(b, data_out) := btc_script_is_pubkeyhash ops data_out in
  let t := if (b : bool) then BTC_TX_PUBKEYHASH else t in
  let '(b, data_out) := btc_script_is_scripthash ops data_out in
  let t := if (b : bool) then BTC_TX_SCRIPTHASH else t in
  let '(b, data_out) := btc_script_is_pubkey ops data_out in
  let t := if (b : bool) then BTC_TX_PUBKEY else t in
  let t := if btc_script_is_multisig ops then BTC_TX_MULTISIG else t in
  w ← btc_script_is_witnessprogram script;
  match w with
  | None => Ret (t, data_out)
  | Some (version, program) =>
      let '(t, data_out) :=
        if (version =? 0) && (zlen program =? 20)
        then (BTC_TX_WITNESS_V0_PUBKEYHASH, add_data data_out program) else (t, data_out) in
      let '(t, data_out) :=
        if (version =? 0) && (zlen program =? 32)
        then (BTC_TX_WITNESS_V0_SCRIPTHASH, add_data data_out program) else (t, data_out) in
      Ret (t, data_out)
  end.

(** ** Building *)

(** [assert (n >= 0 && n <= 16)] *)
Definition btc_encode_op_n (n : Z) : option Z :=
  if (0 <=? n) && (n <=? 16) then Some (if n =? 0 then OP_0 else OP_1 + n - 1) else None.

Definition btc_script_append_op (o : Z) (script_in : cstring) : option cstring :=
  ser_bytes script_in [u8 o].

Definition btc_script_append_pushdata (d : list Z) (script_in : cstring) : option cstring :=
  let datalen := zlen d in
  s ← (if datalen <? OP_PUSHDATA1 then ser_bytes script_in [u8 datalen]
       else if datalen <=? 0xff then
         s ← btc_script_append_op OP_PUSHDATA1 script_in; ser_bytes s [u8 datalen]
       else if datalen <=? 0xffff then
         s ← btc_script_append_op OP_PUSHDATA2 script_in; ser_bytes s (le_bytes 2 datalen)
       else
         s ← btc_script_append_op OP_PUSHDATA4 script_in; ser_bytes s (le_bytes 4 datalen));
  ser_bytes s d.

(** [cstr_resize (script_in, 0)], the result being ignored. *)
Definition clear_script (script_in : cstring) : option cstring :=
  '(_, s) ← cstr_resize script_in 0; Some s.

(** A [btc_pubkey]: 65 bytes of storage and the form in use. *)
Record btc_pubkey := mk_pubkey { compressed : bool; pubkey : list Z }.
Definition pubkey_bytes (k : btc_pubkey) : list Z :=
  ztake (if compressed k then BTC_ECKEY_COMPRESSED_LENGTH else BTC_ECKEY_UNCOMPRESSED_LENGTH) (pubkey k).

(** The result and the script. *)
Definition btc_script_build_multisig (script_in : cstring) (required_signatures : Z)
    (pubkeys_chars : list btc_pubkey) : option (bool * cstring) :=
  s ← clear_script script_in;
  if (16 <? required_signatures) || (16 <? zlen pubkeys_chars) then Some (false, s) else
  op_req_sig ← btc_encode_op_n required_signatures;
  s ← ser_bytes s [u8 op_req_sig];
  s ← for_each (fun pkey => btc_script_append_pushdata (pubkey_bytes pkey)) pubkeys_chars s;
  op_pub_len ← btc_encode_op_n (zlen pubkeys_chars);
  s ← ser_bytes s [u8 op_pub_len];
  s ← ser_bytes s [u8 OP_CHECKMULTISIG];
  Some (true, s).

Definition btc_script_build_p2pkh (script_in : cstring) (hash160 : list Z) : option cstring :=
  s ← clear_script script_in;
  s ← btc_script_append_op OP_DUP s;
  s ← btc_script_append_op OP_HASH160 s;
  s ← btc_script_append_pushdata (ztake 20 hash160) s;
  s ← btc_script_append_op OP_EQUALVERIFY s;
  btc_script_append_op OP_CHECKSIG s.

Definition btc_script_build_p2wpkh (script_in : cstring) (hash160 : list Z) : option cstring :=
  s ← clear_script script_in;
  s ← btc_script_append_op OP_0 s;
  btc_script_append_pushdata (ztake 20 hash160) s.

Definition btc_script_build_p2sh (script_in : cstring) (hash160 : list Z) : option cstring :=
  s ← clear_script script_in;
  s ← btc_script_append_op OP_HASH160 s;
  s ← btc_script_append_pushdata (ztake 20 hash160) s;
  btc_script_append_op OP_EQUAL s.

(** [btc_hash_sngl_sha256] then [btc_ripemd160]. *)
Definition btc_script_get_scripthash (script_in : list Z) : list Z :=
  btc_ripemd160 (sha256_Raw script_in).

(** ** The grammar of scripts *)

(** The bytes of an operation, in the form its opcode prescribes. *)
Definition op_bytes (o : btc_script_op) : list Z :=
  if op o <? OP_PUSHDATA1 then op o :: data o
  else if op o =? OP_PUSHDATA1 then op o :: le_bytes 1 (datalen o) ++ data o
  else if op o =? OP_PUSHDATA2 then op o :: le_bytes 2 (datalen o) ++ data o
  else if op o =? OP_PUSHDATA4 then op o :: le_bytes 4 (datalen o) ++ data o
  else [op o].

Definition op_wf (o : btc_script_op) : Prop :=
  is_byte (op o) /\ is_bytes (data o) /\
  (op o < OP_PUSHDATA1 -> datalen o = op o) /\
  (op o = OP_PUSHDATA1 -> datalen o < 2 ^ 8) /\
  (op o = OP_PUSHDATA2 -> datalen o < 2 ^ 16) /\
  (op o = OP_PUSHDATA4 -> datalen o < 2 ^ 32) /\
  (OP_PUSHDATA4 < op o -> data o = []).

Definition empty_push (o : btc_script_op) : Prop := op o <= OP_PUSHDATA4 /\ data o = [].

(** The parser wants a byte behind every push. *)
Definition ends_ok (ops : list btc_script_op) : Prop :=
  forall pre o, ops = pre ++ [o] -> ~ empty_push o.

#[export] Hint Unfold OP_PUSHDATA1 OP_PUSHDATA2 OP_PUSHDATA4 : libbtc.
Ltac unfold_ops := unfold OP_PUSHDATA1, OP_PUSHDATA2, OP_PUSHDATA4 in *.

Lemma op_bytes_head (o : btc_script_op) : exists r, op_bytes o = op o :: r.
Proof. unfold op_bytes. repeat case_bool; eauto. Qed.

(** What follows the opcode of a push, and how the parser reads it. *)
Lemma push_length_app (o : btc_script_op) (b : list Z) :
  op_wf o -> op o <= OP_PUSHDATA4 ->
  exists r, op_bytes o = op o :: r /\ push_length (op o) (r ++ b) = Some (Ret (datalen o, data o ++ b)).
Proof.
  intros (Hb & Hd & H0 & H1 & H2 & H4 & _) Hp. unfold op_bytes, push_length. unfold_ops.
  pose proof (zlen_nonneg (data o)) as Hn. fold (datalen o) in Hn. unfold is_byte in Hb.
  destruct (Z.ltb_spec (op o) 0x4c) as [Hl|Hl]; [exists (data o); by rewrite H0|].
  destruct (Z.eqb_spec (op o) 0x4c) as [E|E].
  { eexists. split; [done|]. rewrite <- app_assoc, deser_bytes_app by done. cbn [mbind outcome_bind].
    rewrite le_val_bytes_small; [done|]. change (256 ^ Z.of_nat 1) with 256. lia. }
  destruct (Z.eqb_spec (op o) 0x4d) as [E1|E1].
  { eexists. split; [done|]. rewrite <- app_assoc, deser_u16_app; [done|lia]. }
  destruct (Z.eqb_spec (op o) 0x4e) as [E2|E2]; [|lia].
  eexists. split; [done|]. rewrite <- app_assoc, deser_u32_app; [done|lia].
Qed.

(** One turn of the loop of [btc_script_get_ops]. *)
Lemma get_ops_step (f : nat) (o : btc_script_op) (b : list Z) (acc : list btc_script_op) :
  op_wf o -> ~ (empty_push o /\ b = []) ->
  get_ops_loop (S f) (op_bytes o ++ b) acc = get_ops_loop f b (acc ++ [o]).
Proof.
  intros Hwf Hne. destruct (Z.leb_spec (op o) OP_PUSHDATA4) as [Hp|Hp].
  - destruct (push_length_app o b Hwf Hp) as (r & -> & Hpl). cbn [get_ops_loop app]. rewrite Hpl.
    unfold datalen in *. pose proof (zlen_nonneg (data o)). pose proof (zlen_nonneg b). rewrite zlen_app.
    assert (zlen (data o) + zlen b <> 0) as Hpos.
    { intros E. apply Hne. split; [split; [done|]|];
        apply nil_length_inv; unfold zlen in *; lia. }
    zif. unfold deser_skip. rewrite zlen_app. zif.
    rewrite ztake_app_len, zdrop_app_len by done. by destruct o.
  - destruct Hwf as (Hb & _ & _ & _ & _ & _ & Hnil). specialize (Hnil Hp).
    unfold op_bytes, push_length, get_ops_loop. unfold_ops. zif. cbn [app]. fold get_ops_loop.
    unfold push_length. unfold_ops. zif. destruct o as [o d]. cbn in *. by subst.
Qed.

Lemma get_ops_loop_complete (ops : list btc_script_op) (f : nat) (acc : list btc_script_op) :
  Forall op_wf ops -> ends_ok ops -> (length (flat_map op_bytes ops) < f)%nat ->
  get_ops_loop f (flat_map op_bytes ops) acc = (true, acc ++ ops).
Proof.
  intros Hwf. revert f acc. induction Hwf as [|o ops Ho Hops IH]; intros f acc He Hf.
  - destruct f; [simpl in Hf; lia|]. simpl. by rewrite app_nil_r.
  - destruct f as [|f]; [lia|]. cbn [flat_map] in *. rewrite length_app in Hf.
    destruct (op_bytes_head o) as [r Hr].
    rewrite get_ops_step; [|done|].
    + rewrite IH; [by rewrite <- app_assoc| |rewrite Hr in Hf; simpl in Hf; lia].
      intros pre x ->. by apply (He (o :: pre)).
    + intros [Hemp Hnil]. destruct ops as [|o2 ops]; [by apply (He [] o)|].
      simpl in Hnil. destruct (op_bytes_head o2) as [r2 Hr2]. by rewrite Hr2 in Hnil.
Qed.

(** A byte string that starts with [push_length]'s reading of its operand. *)
Lemma push_length_inv (opc n : Z) (buf buf2 : list Z) :
  is_byte opc -> is_bytes buf -> push_length opc buf = Some (Ret (n, buf2)) -> n <= zlen buf2 ->
  let o := mk_op opc (ztake n buf2) in
  op_wf o /\ opc <= OP_PUSHDATA4 /\ opc :: buf = op_bytes o ++ zdrop n buf2 /\ 0 <= n.
Proof.
  intros Hb Hbuf Hp Hn o. unfold is_byte in Hb. unfold o, op_wf, op_bytes, datalen. cbn [op data].
  assert (forall w k v, deser_bytes buf k = Ret (w, v) -> 0 <= k ->
    buf = w ++ v /\ zlen w = k /\ is_bytes w /\ is_bytes v /\ 0 <= le_val w < 256 ^ k) as Hdb.
  { intros w k v E Hk. apply deser_bytes_Ret in E as [-> Hl]; [|done].
    apply is_bytes_app in Hbuf as [Hw ?]. pose proof (le_val_bound w Hw) as Hv.
    by rewrite Hl in Hv. }
  assert (forall w v (k : nat), is_bytes w -> zlen w = Z.of_nat k -> n = le_val w -> buf2 = v ->
     le_bytes k (zlen (ztake n v)) = w) as Hback.
  { intros w v k Hw Hl -> ->. pose proof (le_val_bound w Hw). rewrite zlen_ztake, Z.max_r, Z.min_l by lia.
    replace k with (length w) by (unfold zlen in Hl; lia). by apply le_bytes_val. }
  unfold push_length, deser_u16, deser_u32 in Hp. unfold_ops.
  destruct (Z.ltb_spec opc 0x4c).
  { injection Hp as <- <-. cbn [app]. rewrite zlen_ztake, ztake_zdrop. split_and!; try lia; try done.
    by apply is_bytes_take. }
  destruct (Z.eqb_spec opc 0x4c) as [->|]; [|destruct (Z.eqb_spec opc 0x4d) as [->|];
    [|destruct (Z.eqb_spec opc 0x4e) as [->|]; [|done]]].
  1: destruct (deser_bytes buf 1) as [[w v]| |] eqn:E; try done.
  2: destruct (deser_bytes buf 2) as [[w v]| |] eqn:E; try done.
  3: destruct (deser_bytes buf 4) as [[w v]| |] eqn:E; try done.
  all: injection Hp as <- <-; destruct (Hdb w _ v E ltac:(lia)) as (-> & Hl & Hw & Hv & Hr); cbn [Z.eqb Z.ltb Z.compare Pos.compare Pos.compare_cont Pos.eqb].
  1: rewrite (Hback w v 1%nat) by done.
  2: rewrite (Hback w v 2%nat) by done.
  3: rewrite (Hback w v 4%nat) by done.
  all: cbn [app]; rewrite <- app_assoc, ztake_zdrop, zlen_ztake; unfold ztake;
    split_and!; try done; try lia; by apply is_bytes_take.
Qed.

Lemma get_ops_loop_sound (f : nat) (buf : list Z) (acc r : list btc_script_op) :
  is_bytes buf -> get_ops_loop f buf acc = (true, r) ->
  exists ops, r = acc ++ ops /\ buf = flat_map op_bytes ops /\ Forall op_wf ops /\ ends_ok ops.
Proof.
  revert buf acc. induction f as [|f IH]; intros buf acc Hb; [done|].
  destruct buf as [|opc buf]; cbn [get_ops_loop].
  { intros [= <-]. exists []. rewrite app_nil_r. split_and!; try done.
    intros pre o E. by destruct pre. }
  apply list.Forall_cons in Hb as [Hopc Hb].
  assert (forall o b2, op_wf o -> opc :: buf = op_bytes o ++ b2 -> is_bytes b2 ->
    ~ (empty_push o /\ b2 = []) -> get_ops_loop f b2 (acc ++ [o]) = (true, r) ->
    exists ops, r = acc ++ ops /\ opc :: buf = flat_map op_bytes ops /\ Forall op_wf ops /\ ends_ok ops) as K.
  { intros o b2 Ho E Hb2 Hne Hr. destruct (IH b2 (acc ++ [o]) Hb2 Hr) as (ops & -> & -> & Hops & He).
    exists (o :: ops). rewrite <- app_assoc. split_and!; try done; [by constructor|].
    intros pre x Ex. destruct pre as [|p pre]; injection Ex as -> ->; [|by apply (He pre)].
    intros Hem. by apply Hne. }
  destruct (push_length opc buf) as [[[n buf2]| |]|] eqn:Hp; try done.
  - case_bool; [done|]. reflect_bools. unfold deser_skip. zif. intros Hr.
    destruct (push_length_inv opc n buf buf2 Hopc Hb Hp) as (Ho & Hle & E & Hn0); [lia|].
    apply (K _ _ Ho E); [|intros [[_ Hz] Hnil]|done].
    + assert (is_bytes (op_bytes (mk_op opc (ztake n buf2)) ++ zdrop n buf2)) as Hall
        by (rewrite <- E; by constructor). by apply is_bytes_app in Hall as [_ ?].
    + cbn [data] in Hz. apply (f_equal zlen) in Hz. apply (f_equal zlen) in Hnil.
      rewrite zlen_ztake in Hz. rewrite zlen_zdrop in Hnil. change (zlen []) with 0 in *. lia.
  - unfold push_length in Hp. repeat (case_bool; [done|]). reflect_bools. unfold_ops. unfold is_byte in Hopc.
    apply (K (mk_op opc []) buf); try done.
    + split_and!; cbn; try done; unfold_ops; try lia. apply is_bytes_nil.
    + unfold op_bytes. cbn [op]. unfold_ops. by zif.
    + intros [[Hle _] _]. cbn in Hle. unfold_ops. lia.
Qed.

(** The operations of a script, from its grammar. *)
Lemma get_ops_complete (ops : list btc_script_op) :
  ops <> [] -> Forall op_wf ops -> ends_ok ops ->
  btc_script_get_ops (flat_map op_bytes ops) = (true, ops).
Proof.
  intros Hne Hwf He. unfold btc_script_get_ops. destruct ops as [|o ops]; [done|].
  destruct (op_bytes_head o) as [r Hr].
  assert ((zlen (flat_map op_bytes (o :: ops)) =? 0) = false) as ->.
  { cbn [flat_map]. rewrite Hr. apply Z.eqb_neq. cbn [app]. rewrite zlen_cons. pose proof (zlen_nonneg (r ++ flat_map op_bytes ops)). lia. }
  by rewrite (get_ops_loop_complete (o :: ops)) by (done || lia).
Qed.

(** Operations in front of a non-empty rest are read one by one. *)
Lemma get_ops_loop_prefix (pre : list btc_script_op) (f : nat) (b : list Z) (acc : list btc_script_op) :
  Forall op_wf pre -> b <> [] ->
  get_ops_loop (length pre + f) (flat_map op_bytes pre ++ b) acc = get_ops_loop f b (acc ++ pre).
Proof.
  intros Hwf Hb. revert acc. induction Hwf as [|o pre Ho Hpre IH]; intros acc.
  - simpl. by rewrite app_nil_r.
  - cbn [flat_map length Nat.add]. rewrite <- app_assoc, get_ops_step; [|done|].
    + by rewrite IH, <- app_assoc.
    + intros [_ E]. by apply app_eq_nil in E as [_ ?].
Qed.

Lemma op_bytes_count (ops : list btc_script_op) : (length ops <= length (flat_map op_bytes ops))%nat.
Proof.
  induction ops as [|o ops IH]; [done|]. cbn [flat_map length]. rewrite length_app.
  destruct (op_bytes_head o) as [r ->]. simpl. lia.
Qed.

(** A script whose last operation is a push of nothing, such as a trailing
    [OP_0], is rejected although it is well-formed: the parser requires a
    further byte behind every push, and stops with the operations before it. *)
Lemma script_trailing_empty_push (pre : list btc_script_op) (o : btc_script_op)
    (Hpre : Forall op_wf pre) (Ho : op_wf o) (He : empty_push o) :
  btc_script_get_ops (flat_map op_bytes pre ++ op_bytes o) = (false, pre).
Proof.
  unfold btc_script_get_ops. destruct (op_bytes_head o) as [r Hr].
  assert (zlen (flat_map op_bytes pre ++ op_bytes o) <> 0) by (rewrite Hr; zlia). zif.
  pose proof (op_bytes_count pre). rewrite length_app.
  replace (S _) with (length pre + S (length (flat_map op_bytes pre) + length (op_bytes o) - length pre))%nat by lia.
  rewrite get_ops_loop_prefix by (done || by rewrite Hr). cbn [app].
  destruct He as [Hle Hd]. destruct (push_length_app o [] Ho Hle) as (r' & -> & Hp).
  rewrite !app_nil_r in Hp. cbn [get_ops_loop]. by rewrite Hp, Hd.
Qed.

(** ** Claims on parsing *)

(** C3: [btc_script_get_ops] is an exact parser for the non-empty sequences of
    well-formed operations (the pushed length fits the opcode) that do not end
    with an empty push: it returns true with the operations [ops] on a script if
    and only if the script is the concatenation of the encodings of [ops] and
    [ops] is such a sequence.  The well-formed sequences outside that set are
    refused: with an empty push at the end, such as a trailing [OP_0], the result
    is false with the operations in front of it. *)
Theorem script_parse_exact (s : list Z) (ops : list btc_script_op) (Hs : is_bytes s) :
  (btc_script_get_ops s = (true, ops) <->
   s = flat_map op_bytes ops /\ ops <> [] /\ Forall op_wf ops /\ ends_ok ops) /\
  (forall pre o, Forall op_wf pre -> op_wf o -> empty_push o -> s = flat_map op_bytes (pre ++ [o]) ->
     btc_script_get_ops s = (false, pre)).
Proof.
  split; [split; [|intros (-> & Hne & Hwf & He); by apply get_ops_complete]|].
  - unfold btc_script_get_ops. case_bool; [done|]. intros Hr.
    destruct (get_ops_loop_sound _ _ _ _ Hs Hr) as (ops' & -> & -> & Hwf & He).
    split_and!; try done. intros E. cbn in E. by subst.
  - intros pre o Hpre Ho He ->. rewrite flat_map_app. cbn [flat_map]. rewrite app_nil_r.
    by apply script_trailing_empty_push.
Qed.

Lemma script_parse_exact_witness :
  [0x76; 0xa9; 2; 7; 8; 0x88; 0xac] =
  flat_map op_bytes [mk_op 0x76 []; mk_op 0xa9 []; mk_op 2 [7; 8]; mk_op 0x88 []; mk_op 0xac []] /\
  btc_script_get_ops [0x51; 0] = (false, [mk_op 0x51 []]).
Proof.
  split.
  - apply (script_parse_exact [0x76; 0xa9; 2; 7; 8; 0x88; 0xac]
      [mk_op 0x76 []; mk_op 0xa9 []; mk_op 2 [7; 8]; mk_op 0x88 []; mk_op 0xac []]).
    + repeat constructor; vm_compute; congruence.
    + reflexivity.
  - apply (proj2 (script_parse_exact [0x51; 0] [] ltac:(repeat constructor; vm_compute; congruence))
      [mk_op 0x51 []] (mk_op 0 [])).
    + repeat constructor; vm_compute; congruence.
    + repeat split; vm_compute; try congruence. constructor.
    + repeat split; vm_compute; congruence.
    + reflexivity.
Defined.

(** ** Classification: lemmas *)

(** A version 0 witness program of 20 or 32 bytes. *)
Definition witness_v0 (script : list Z) : option (list Z) :=
  match script with
  | 0 :: n :: p => if ((n =? 20) || (n =? 32)) && (zlen p =? n) then Some p else None
  | _ => None
  end.

Lemma witness_v0_Some (script p : list Z) :
  witness_v0 script = Some p ->
  exists n, (n = 20 \/ n = 32) /\ zlen p = n /\ script = 0 :: n :: p.
Proof.
  unfold witness_v0. destruct script as [|[| |] [|n q]]; try done. destruct (_ && _) eqn:E; [|done].
  apply andb_true_iff in E as [E E2%Z.eqb_eq]. intros [= ->]. exists n. split_and!; [|done|done].
  apply orb_true_iff in E as [E%Z.eqb_eq|E%Z.eqb_eq]; auto.
Qed.

(** Its operations match no other template. *)
Lemma witness_v0_ops (script p : list Z) :
  is_bytes script -> witness_v0 script = Some p ->
  exists n, zlen p = n /\ (n = 20 \/ n = 32) /\
  btc_script_get_ops script = (true, [mk_op 0 []; mk_op n p]) /\
  btc_script_is_witnessprogram script = Ret (Some (0, p)).
Proof.
  intros Hb Hw. destruct (witness_v0_Some _ _ Hw) as (n & Hn & Hl & ->). exists n.
  assert (n <> 0 /\ n < 76) as [Hn0 Hn1] by lia.
  split_and!; [done|done| |].
  - assert (0 :: n :: p = flat_map op_bytes [mk_op 0 []; mk_op n p]) as ->.
    { unfold flat_map, op_bytes. cbn [op data]. unfold_ops. zif. by rewrite app_nil_r. }
    apply list.Forall_cons in Hb as [? Hb]. apply list.Forall_cons in Hb as [? Hb].
    apply get_ops_complete; [done| |].
    + repeat constructor; cbn [op data datalen]; unfold datalen; cbn [data]; unfold_ops; try done; lia.
    + intros pre o E. destruct pre as [|? [|? [|]]]; simplify_eq/=.
      intros [_ Hd]. cbn in Hd. subst. by cbn in *.
  - unfold btc_script_is_witnessprogram. rewrite !zlen_cons, Hl. cbn [nth].
    destruct Hn as [-> | ->]; vm_compute; reflexivity.
Qed.

Lemma swrap8_small (b : Z) : 0 <= b < 128 -> swrap 8 b = b.
Proof.
  intros. unfold swrap. change (2 ^ (8 - 1)) with 128. change (2 ^ 8) with 256.
  rewrite Z.mod_small; lia.
Qed.

Lemma swrap8_neg (b : Z) : 128 <= b < 256 -> swrap 8 b = b - 256.
Proof.
  intros. unfold swrap. change (2 ^ (8 - 1)) with 128. change (2 ^ 8) with 256.
  replace (b + 128) with (b - 128 + 1 * 256) by lia. rewrite Z_mod_plus_full, Z.mod_small; lia.
Qed.

(** Any other script is no version 0 program of these lengths. *)
Lemma witness_v0_None (script : list Z) :
  is_bytes script -> witness_v0 script = None ->
  btc_script_is_witnessprogram script = Ret None \/
  exists v p, btc_script_is_witnessprogram script = Ret (Some (v, p)) /\
    (v =? 0) && (zlen p =? 20) = false /\ (v =? 0) && (zlen p =? 32) = false.
Proof.
  intros Hb Hw. unfold btc_script_is_witnessprogram.
  destruct (_ || _) eqn:Hlen; [by left|]. reflect_bools.
  destruct script as [|b0 [|b1 p]]; [change (zlen []) with 0 in *; lia|zlia|].
  apply list.Forall_cons in Hb as [B0 Hb]. apply list.Forall_cons in Hb as [B1 Hb].
  unfold is_byte in *. cbn [nth]. set (c0 := swrap 8 b0).
  destruct (negb (c0 =? OP_0) && _) eqn:Hop; [by left|].
  destruct (u64 (swrap 8 b1 + 2) =? _) eqn:Hl; [|by left].
  reflect_bools. rewrite !zlen_cons in *.
  assert (btc_decode_op_n c0 = Some (if c0 =? 0 then 0 else c0 - 80)) as ->.
  { unfold btc_decode_op_n. unfold OP_0, OP_1, OP_16 in *.
    destruct (Z.eqb_spec c0 0); [done|].
    assert (0x51 <= c0 <= 0x60) by (destruct Hop as [Hop|Hop]; reflect_bools; lia).
    zif. rewrite wrap_small; [f_equal; lia|lia]. }
  cbn [total mbind outcome_bind]. unfold assert_.
  assert ((1 + (1 + zlen p) - 2 <=? 40) = true) as -> by (apply Z.leb_le; lia).
  cbn [mbind outcome_bind]. right. eexists _, _. split; [done|].
  change (zdrop 2 (b0 :: b1 :: p)) with p.
  assert (swrap 8 b1 = zlen p) as Hb1.
  { destruct (Z.ltb_spec b1 128).
    - rewrite swrap8_small in * by lia. rewrite wrap_small in Hl by lia. lia.
    - rewrite swrap8_neg in Hl by lia. exfalso. unfold wrap in Hl.
      destruct (Z.ltb_spec (b1 - 256 + 2) 0).
      + replace (b1 - 256 + 2) with (b1 - 254 + 2 ^ 64 + -1 * 2 ^ 64) in Hl by lia.
        rewrite Z_mod_plus_full, Z.mod_small in Hl; lia.
      + rewrite Z.mod_small in Hl; lia. }
  assert (b1 = zlen p).
  { destruct (Z.ltb_spec b1 128); [by rewrite swrap8_small in Hb1 by lia|].
    rewrite swrap8_neg in Hb1 by lia. zlia. }
  destruct (Z.eqb_spec c0 0) as [E0|E0].
  - assert (b0 = 0).
    { unfold c0 in E0. destruct (Z.ltb_spec b0 128); [by rewrite swrap8_small in E0 by lia|].
      rewrite swrap8_neg in E0 by lia. lia. }
    subst b0 b1. cbn [witness_v0] in Hw. rewrite Z.eqb_refl, andb_true_r in Hw.
    destruct ((zlen p =? 20) || (zlen p =? 32)) eqn:E; [done|]. by reflect_bools; zif.
  - assert (0x51 <= c0) by (unfold OP_0, OP_1, OP_16 in *; destruct Hop as [Hop|Hop]; reflect_bools; lia).
    by zif.
Qed.

(** The payload of the template the operations match. *)
Definition payload (ops : list btc_script_op) : list (list Z) :=
  match btc_script_classify_ops ops with
  | BTC_TX_PUBKEYHASH => [ztake 20 (data (vector_idx ops 2))]
  | BTC_TX_SCRIPTHASH => [ztake 20 (data (vector_idx ops 1))]
  | BTC_TX_PUBKEY => [data (vector_idx ops 0)]
  | _ => []
  end.

(** What each template fixes. *)
Lemma pubkeyhash_shape (ops : list btc_script_op) :
  fst (btc_script_is_pubkeyhash ops None) = true -> zlen ops = 5 /\ op (vector_idx ops 0) = OP_DUP.
Proof.
  unfold btc_script_is_pubkeyhash, btc_script_is_op. case_bool; [|done]. reflect_bools. done.
Qed.

Lemma scripthash_shape (ops : list btc_script_op) :
  fst (btc_script_is_scripthash ops None) = true -> zlen ops = 3 /\ op (vector_idx ops 0) = OP_HASH160.
Proof.
  unfold btc_script_is_scripthash, btc_script_is_op. case_bool; [|done]. reflect_bools. done.
Qed.

Lemma pubkey_shape (ops : list btc_script_op) :
  fst (btc_script_is_pubkey ops None) = true -> zlen ops = 2 /\ op (vector_idx ops 1) = OP_CHECKSIG.
Proof.
  unfold btc_script_is_pubkey, btc_script_is_op. case_bool; [|done]. reflect_bools. done.
Qed.

Lemma multisig_shape (ops : list btc_script_op) :
  btc_script_is_multisig ops = true -> 3 <= zlen ops /\ op (vector_idx ops 0) <= OP_16.
Proof.
  unfold btc_script_is_multisig, btc_script_is_op_smallint. case_bool; [done|]. reflect_bools.
  intros _. split; [done|]. unfold OP_0, OP_1, OP_16 in *.
  match goal with C : _ \/ _ |- _ => destruct C; reflect_bools; lia end.
Qed.

(** With a vector for the payload the predicates give the same answer. *)
Lemma template_data (ops : list btc_script_op) (l : list (list Z)) :
  btc_script_is_pubkeyhash ops (Some l) =
    (let b := fst (btc_script_is_pubkeyhash ops None) in
     (b, Some (l ++ if b then [ztake 20 (data (vector_idx ops 2))] else []))) /\
  btc_script_is_scripthash ops (Some l) =
    (let b := fst (btc_script_is_scripthash ops None) in
     (b, Some (l ++ if b then [ztake 20 (data (vector_idx ops 1))] else []))) /\
  btc_script_is_pubkey ops (Some l) =
    (let b := fst (btc_script_is_pubkey ops None) in
     (b, Some (l ++ if b then [data (vector_idx ops 0)] else []))).
Proof.
  unfold btc_script_is_pubkeyhash, btc_script_is_scripthash, btc_script_is_pubkey.
  split_and!; case_bool; cbn [fst]; by rewrite ?app_nil_r.
Qed.

(** The templates exclude one another, so that the order of the tests in the
    two classifiers does not matter. *)
Lemma classify_templates (script : list Z) (l : list (list Z)) (w : option (Z * list Z)) :
  btc_script_is_witnessprogram script = Ret w ->
  let ops := snd (btc_script_get_ops script) in
  let t := btc_script_classify_ops ops in
  btc_script_classify script (Some l) =
  match w with
  | None => Ret (t, Some (l ++ payload ops))
  | Some (v, p) =>
      if (v =? 0) && (zlen p =? 20) then Ret (BTC_TX_WITNESS_V0_PUBKEYHASH, Some (l ++ payload ops ++ [p]))
      else if (v =? 0) && (zlen p =? 32) then Ret (BTC_TX_WITNESS_V0_SCRIPTHASH, Some (l ++ payload ops ++ [p]))
      else Ret (t, Some (l ++ payload ops))
  end.
Proof.
  intros Hw ops t. unfold btc_script_classify. fold ops. rewrite Hw.
  destruct (template_data ops l) as (E1 & _ & _). rewrite E1. clear E1. cbv beta iota zeta.
  pose proof (pubkeyhash_shape ops). pose proof (scripthash_shape ops).
  pose proof (pubkey_shape ops). pose proof (multisig_shape ops).
  destruct (template_data ops (l ++ if fst (btc_script_is_pubkeyhash ops None)
    then [ztake 20 (data (vector_idx ops 2))] else [])) as (_ & E2 & _). rewrite E2. clear E2. cbv beta iota zeta.
  match goal with |- context [btc_script_is_pubkey ops (Some ?l')] =>
    destruct (template_data ops l') as (_ & _ & E3) end. rewrite E3. clear E3. cbv beta iota zeta.
  unfold t, payload, btc_script_classify_ops, OP_DUP, OP_HASH160, OP_16 in *.
  destruct (fst (btc_script_is_pubkeyhash ops None)), (fst (btc_script_is_scripthash ops None)),
    (fst (btc_script_is_pubkey ops None)), (btc_script_is_multisig ops);
    try (exfalso; repeat match goal with I : true = true -> _ |- _ => specialize (I eq_refl) end; lia);
    cbn [mbind outcome_bind]; rewrite ?app_nil_r; destruct w as [[v p]|];
    try destruct (Z.eqb_spec v 0), (Z.eqb_spec (zlen p) 20), (Z.eqb_spec (zlen p) 32); try lia;
    cbn [andb add_data]; by rewrite <- ?app_assoc.
Qed.

Lemma classify_exact (script : list Z) (l : list (list Z)) (Hs : is_bytes script) :
  let ops := snd (btc_script_get_ops script) in
  btc_script_classify script (Some l) =
    match witness_v0 script with
    | Some p => Ret (if zlen p =? 20 then BTC_TX_WITNESS_V0_PUBKEYHASH else BTC_TX_WITNESS_V0_SCRIPTHASH,
                     Some (l ++ [p]))
    | None => Ret (btc_script_classify_ops ops, Some (l ++ payload ops))
    end /\ (length (payload ops) <= 1)%nat.
Proof.
  intros ops. split; [|unfold payload; case_match; simpl; lia].
  destruct (witness_v0 script) as [p|] eqn:Hw.
  - destruct (witness_v0_ops script p Hs Hw) as (n & Hl & Hn & Hops & Hwp).
    rewrite (classify_templates _ _ _ Hwp), Hops.
    assert (payload [mk_op 0 []; mk_op n p] = []) as Hp.
    { unfold payload. destruct (btc_script_classify_ops _) eqn:E; try done;
        unfold btc_script_classify_ops in E; revert E;
        (destruct (fst (btc_script_is_pubkeyhash _ _)) eqn:E1; [by apply pubkeyhash_shape in E1 as [E1 _]|]);
        (destruct (fst (btc_script_is_scripthash _ _)) eqn:E2; [by apply scripthash_shape in E2 as [E2 _]|]);
        (destruct (fst (btc_script_is_pubkey _ _)) eqn:E3;
          [apply pubkey_shape in E3 as [_ E3]; cbn in E3; unfold OP_CHECKSIG in E3; lia|]);
        by destruct (btc_script_is_multisig _). }
    cbn [snd]. rewrite Hp, Hl. cbn [app]. destruct Hn as [-> | ->]; done.
  - destruct (witness_v0_None script Hs Hw) as [E|(v & p & E & E1 & E2)];
      rewrite (classify_templates _ _ _ E); [done|]. by rewrite E1, E2.
Qed.

(** [btc_script_classify] decides between the templates consistently: a
    version 0 witness program of 20 or 32 bytes is reported as such with the
    program as its only payload, any other script has the type
    [btc_script_classify_ops] gives its operations and the payload of that
    template, and the vector receives at most one element. *)
Theorem script_classify_exact (script : list Z) (l : list (list Z)) (Hs : is_bytes script) :
  let ops := snd (btc_script_get_ops script) in
  btc_script_classify script (Some l) =
    match witness_v0 script with
    | Some p => Ret (if zlen p =? 20 then BTC_TX_WITNESS_V0_PUBKEYHASH else BTC_TX_WITNESS_V0_SCRIPTHASH,
                     Some (l ++ [p]))
    | None => Ret (btc_script_classify_ops ops, Some (l ++ payload ops))
    end /\ (length (payload ops) <= 1)%nat.
Proof. by apply classify_exact. Qed.

Lemma script_classify_exact_witness :
  btc_script_classify (0 :: 20 :: replicate 20 7) (Some []) =
    Ret (BTC_TX_WITNESS_V0_PUBKEYHASH, Some [replicate 20 7]) /\
  btc_script_classify [0x51; 0x52] (Some []) = Ret (BTC_TX_NONSTANDARD, Some []).
Proof.
  split.
  - refine (proj1 (script_classify_exact (0 :: 20 :: replicate 20 7) [] _)).
    repeat constructor; vm_compute; congruence.
  - refine (proj1 (script_classify_exact [0x51; 0x52] [] _)).
    repeat constructor; vm_compute; congruence.
Defined.

(** ** Building: lemmas *)

#[export] Instance appends_op (o : Z) : Appends (btc_script_append_op o) [u8 o].
Proof. apply appends_bytes. Qed.

(** The push operation that [btc_script_append_pushdata] writes. *)
Definition push_op (d : list Z) : btc_script_op :=
  mk_op (if zlen d <? OP_PUSHDATA1 then zlen d
         else if zlen d <=? 0xff then OP_PUSHDATA1
         else if zlen d <=? 0xffff then OP_PUSHDATA2 else OP_PUSHDATA4) d.

Lemma push_op_wf (d : list Z) : is_bytes d -> zlen d < 2 ^ 32 -> op_wf (push_op d).
Proof.
  intros Hd Hl. pose proof (zlen_nonneg d). unfold op_wf, push_op, datalen, is_byte. cbn [op data].
  unfold_ops. repeat case_bool; reflect_bools; split_and!; try done; lia.
Qed.

#[export] Instance appends_pushdata (d : list Z) :
  Appends (btc_script_append_pushdata d) (op_bytes (push_op d)).
Proof.
  pose proof (zlen_nonneg d) as Hn. unfold btc_script_append_pushdata. cbv zeta.
  unfold op_bytes, push_op, datalen. cbn [op data].
  destruct (Z.ltb_spec (zlen d) OP_PUSHDATA1) as [H1|H1].
  { unfold_ops. zif. change (zlen d :: d) with ([zlen d] ++ d). apply appends_bind; [|apply appends_bytes].
    eapply appends_ext; [|apply appends_bytes]. rewrite wrap_small; [done|lia]. }
  destruct (Z.leb_spec (zlen d) 0xff) as [H2|H2]; [|destruct (Z.leb_spec (zlen d) 0xffff) as [H3|H3]];
    unfold_ops; cbn [Z.ltb Z.eqb Z.compare Pos.compare Pos.compare_cont Pos.eqb];
    (eapply appends_ext; [|apply appends_bind; [apply appends_bind; [apply appends_op|apply appends_bytes]
      |apply appends_bytes]]); rewrite <- app_assoc; done.
Qed.

(** A builder clears the script and appends. *)
Lemma clear_then_appends (g : cstring -> option cstring) (bs : list Z) (s : cstring) :
  Appends g bs -> cstr_wf s -> zlen bs < 2 ^ 30 ->
  exists s', (s0 ← clear_script s; g s0) = Some s' /\ cstr_wf s' /\ cstr_holds s' bs.
Proof.
  intros Hg Hs Hl. pose proof (cstr_wf_len s Hs).
  destruct (cstr_resize_shrink s 0) as (s0 & E & Hwf & Hc & _); [done|lia|].
  unfold clear_script. rewrite E. cbn [mbind option_bind].
  assert (cstr_cells s0 = []) as Hnil by done.
  assert (len s0 = 0) as Hlen by (rewrite <- (cstr_cells_zlen s0 Hwf), Hnil; done).
  destruct (Hg s0 Hwf) as (s' & E' & Hwf' & Hc'); [lia|].
  exists s'. split_and!; [done|done|]. unfold cstr_holds. by rewrite Hc', Hnil.
Qed.

Definition p2pkh_ops (h : list Z) : list btc_script_op :=
  [mk_op OP_DUP []; mk_op OP_HASH160 []; push_op h; mk_op OP_EQUALVERIFY []; mk_op OP_CHECKSIG []].
Definition p2sh_ops (h : list Z) : list btc_script_op :=
  [mk_op OP_HASH160 []; push_op h; mk_op OP_EQUAL []].
Definition p2wpkh_ops (h : list Z) : list btc_script_op := [mk_op OP_0 []; push_op h].

Lemma bare_op_wf (o : Z) : OP_PUSHDATA4 < o < 256 -> op_wf (mk_op o []).
Proof.
  intros. unfold op_wf, datalen, is_byte. cbn [op data]. unfold_ops.
  split_and!; try done; try lia. apply is_bytes_nil.
Qed.

Lemma bare_op_bytes (o : Z) : OP_PUSHDATA4 < o < 256 -> op_bytes (mk_op o []) = [u8 o].
Proof.
  intros. unfold op_bytes. cbn [op data]. unfold_ops. zif. rewrite wrap_small; [done|lia].
Qed.

Lemma zlen_push_op (d : list Z) : zlen d < OP_PUSHDATA1 -> push_op d = mk_op (zlen d) d.
Proof. intros. unfold push_op. by zif. Qed.

(** A script that ends with a plain opcode ends well. *)
Lemma ends_ok_op (pre : list btc_script_op) (o : Z) : OP_PUSHDATA4 < o -> ends_ok (pre ++ [mk_op o []]).
Proof. intros Ho pre' x E. apply app_inj_tail in E as [_ <-]. intros [Hle _]. cbn in Hle. lia. Qed.

Lemma op_bytes_is_bytes (o : btc_script_op) : op_wf o -> is_bytes (op_bytes o).
Proof.
  intros (Hb & Hd & _). unfold op_bytes.
  repeat case_bool; apply is_bytes_cons; auto with libbtc; apply is_bytes_app; auto with libbtc.
Qed.

Lemma flat_map_op_bytes (ops : list btc_script_op) : Forall op_wf ops -> is_bytes (flat_map op_bytes ops).
Proof.
  induction 1 as [|o ops Ho Hops IH]; [apply is_bytes_nil|]. cbn [flat_map]. apply is_bytes_app.
  split; [by apply op_bytes_is_bytes|done].
Qed.

(** The type of a script given by its operations, when it is no witness program. *)
Lemma classify_of_ops (ops : list btc_script_op) (t : btc_tx_out_type) :
  ops <> [] -> Forall op_wf ops -> ends_ok ops -> witness_v0 (flat_map op_bytes ops) = None ->
  btc_script_classify_ops ops = t ->
  btc_script_classify (flat_map op_bytes ops) (Some []) = Ret (t, Some (payload ops)).
Proof.
  intros Hne Hwf He Hw <-. destruct (classify_exact (flat_map op_bytes ops) []) as [E _];
    [by apply flat_map_op_bytes|].
  by rewrite E, Hw, get_ops_complete.
Qed.

Section Hash160.
Variables (s : cstring) (h : list Z).
Hypothesis Hs : cstr_wf s.
Hypothesis Hh : is_bytes h.
Hypothesis Hl : zlen h = 20.

Lemma push_hash : push_op h = mk_op 20 h.
Proof. rewrite zlen_push_op by (unfold_ops; lia). by rewrite Hl. Qed.

Lemma push_hash_wf : op_wf (mk_op 20 h).
Proof. rewrite <- push_hash. apply push_op_wf; [done|lia]. Qed.

Lemma push_hash_zlen : zlen (op_bytes (mk_op 20 h)) = 21.
Proof. unfold op_bytes. cbn [op data]. unfold_ops. zif. zlia. Qed.

(** Closes the length side condition of a builder. *)
Ltac script_len :=
  unfold p2pkh_ops, p2sh_ops, p2wpkh_ops; cbn [flat_map]; rewrite ?push_hash, ?zlen_app, ?push_hash_zlen; reflexivity.

Lemma build_p2pkh_spec :
  exists s', btc_script_build_p2pkh s h = Some s' /\ cstr_wf s' /\
    cstr_holds s' (flat_map op_bytes (p2pkh_ops h)).
Proof.
  unfold btc_script_build_p2pkh. rewrite (ztake_all 20) by lia.
  apply clear_then_appends; [|done|script_len].
  apply (appends_bind _ _ [_]); [apply appends_op|]. apply (appends_bind _ _ [_]); [apply appends_op|].
  apply appends_bind; [apply appends_pushdata|]. apply (appends_bind _ _ [_]); apply appends_op.
Qed.

Lemma build_p2sh_spec :
  exists s', btc_script_build_p2sh s h = Some s' /\ cstr_wf s' /\
    cstr_holds s' (flat_map op_bytes (p2sh_ops h)).
Proof.
  unfold btc_script_build_p2sh. rewrite (ztake_all 20) by lia.
  apply clear_then_appends; [|done|script_len].
  apply (appends_bind _ _ [_]); [apply appends_op|].
  apply appends_bind; [apply appends_pushdata|apply appends_op].
Qed.

Lemma build_p2wpkh_spec :
  exists s', btc_script_build_p2wpkh s h = Some s' /\ cstr_wf s' /\
    cstr_holds s' (flat_map op_bytes (p2wpkh_ops h)).
Proof.
  unfold btc_script_build_p2wpkh. rewrite (ztake_all 20) by lia.
  apply clear_then_appends; [|done|script_len].
  apply (appends_bind _ _ [_]); [apply appends_op|]. cbn [flat_map]. rewrite app_nil_r. apply appends_pushdata.
Qed.

Lemma hash_ops_wf : Forall op_wf (p2pkh_ops h) /\ Forall op_wf (p2sh_ops h).
Proof.
  pose proof push_hash_wf. unfold p2pkh_ops, p2sh_ops. rewrite push_hash.
  split; repeat constructor; try done; apply bare_op_wf; by vm_compute.
Qed.

Lemma classify_p2pkh :
  btc_script_classify (flat_map op_bytes (p2pkh_ops h)) (Some []) = Ret (BTC_TX_PUBKEYHASH, Some [h]).
Proof.
  rewrite (classify_of_ops _ BTC_TX_PUBKEYHASH); [|done|apply hash_ops_wf| |done|].
  all: cycle 1.
  - by apply (ends_ok_op [_; _; _; _]).
  - unfold btc_script_classify_ops, btc_script_is_pubkeyhash, p2pkh_ops. rewrite push_hash.
    unfold btc_script_is_op_pubkeyhash, datalen. cbn [vector_idx nth op data]. by rewrite Hl.
  - unfold payload, btc_script_classify_ops, btc_script_is_pubkeyhash, p2pkh_ops. rewrite push_hash.
    unfold btc_script_is_op_pubkeyhash, datalen. cbn [vector_idx nth op data]. rewrite Hl. simpl.
    by rewrite ztake_all by lia.
Qed.

Lemma classify_p2sh :
  btc_script_classify (flat_map op_bytes (p2sh_ops h)) (Some []) = Ret (BTC_TX_SCRIPTHASH, Some [h]).
Proof.
  rewrite (classify_of_ops _ BTC_TX_SCRIPTHASH); [|done|apply hash_ops_wf| |done|].
  all: cycle 1.
  - by apply (ends_ok_op [_; _]).
  - unfold btc_script_classify_ops, btc_script_is_pubkeyhash, btc_script_is_scripthash, p2sh_ops. rewrite push_hash.
    unfold btc_script_is_op_pubkeyhash, datalen. cbn [vector_idx nth op data]. by rewrite Hl.
  - unfold payload, btc_script_classify_ops, btc_script_is_pubkeyhash, btc_script_is_scripthash, p2sh_ops.
    rewrite push_hash.
    unfold btc_script_is_op_pubkeyhash, datalen. cbn [vector_idx nth op data]. rewrite Hl. simpl.
    by rewrite ztake_all by lia.
Qed.

Lemma classify_p2wpkh :
  btc_script_classify (flat_map op_bytes (p2wpkh_ops h)) (Some []) =
  Ret (BTC_TX_WITNESS_V0_PUBKEYHASH, Some [h]).
Proof.
  assert (flat_map op_bytes (p2wpkh_ops h) = 0 :: 20 :: h) as ->.
  { unfold p2wpkh_ops. rewrite push_hash. cbn [flat_map]. rewrite app_nil_r.
    unfold op_bytes. cbn [op data]. unfold OP_0. unfold_ops. by zif. }
  destruct (classify_exact (0 :: 20 :: h) []) as [E _].
  { repeat (apply is_bytes_cons; [unfold is_byte; lia|]). done. }
  rewrite E. unfold witness_v0. rewrite Hl. cbn [Z.eqb Pos.eqb orb andb]. by rewrite Hl.
Qed.
End Hash160.

(** The scripts [btc_script_build_p2pkh], [btc_script_build_p2sh] and
    [btc_script_build_p2wpkh] write for a 20 byte hash, over any previous
    content, are recognised by [btc_script_classify] as their own type with
    that hash as the payload. *)
Theorem script_build_classify (s : cstring) (h : list Z)
    (Hs : cstr_wf s) (Hh : is_bytes h) (Hl : zlen h = 20) :
  (exists s', btc_script_build_p2pkh s h = Some s' /\ cstr_wf s' /\
     exists bs, cstr_holds s' bs /\
       btc_script_classify bs (Some []) = Ret (BTC_TX_PUBKEYHASH, Some [h])) /\
  (exists s', btc_script_build_p2sh s h = Some s' /\ cstr_wf s' /\
     exists bs, cstr_holds s' bs /\
       btc_script_classify bs (Some []) = Ret (BTC_TX_SCRIPTHASH, Some [h])) /\
  (exists s', btc_script_build_p2wpkh s h = Some s' /\ cstr_wf s' /\
     exists bs, cstr_holds s' bs /\
       btc_script_classify bs (Some []) = Ret (BTC_TX_WITNESS_V0_PUBKEYHASH, Some [h])).
Proof.
  split_and!.
  - destruct (build_p2pkh_spec s h) as (s' & E & Hw & Hb); [done..|].
    exists s'. split_and!; [done|done|]. eexists. split; [done|by apply classify_p2pkh].
  - destruct (build_p2sh_spec s h) as (s' & E & Hw & Hb); [done..|].
    exists s'. split_and!; [done|done|]. eexists. split; [done|by apply classify_p2sh].
  - destruct (build_p2wpkh_spec s h) as (s' & E & Hw & Hb); [done..|].
    exists s'. split_and!; [done|done|]. eexists. split; [done|by apply classify_p2wpkh].
Qed.

Definition empty_cstr : cstring := mk_cstring [] 0 0.
Lemma empty_cstr_wf : cstr_wf empty_cstr.
Proof. constructor; [done|by left]. Qed.

Lemma script_build_classify_witness :
  exists s', btc_script_build_p2pkh empty_cstr (replicate 20 7) = Some s' /\
    cstr_holds s' (0x76 :: 0xa9 :: 20 :: replicate 20 7 ++ [0x88; 0xac]).
Proof.
  destruct (script_build_classify empty_cstr (replicate 20 7)) as [(s' & E & _) _].
  - apply empty_cstr_wf.
  - repeat constructor; vm_compute; congruence.
  - reflexivity.
  - exists s'. split; [exact E|]. vm_compute in E. injection E as <-. reflexivity.
Defined.

(** ** Multisig *)

(** The key storage starts with a header that matches the form in use. *)
Definition pubkey_wf (k : btc_pubkey) : Prop :=
  is_bytes (pubkey k) /\ zlen (pubkey k) = 65 /\
  btc_pubkey_get_length (nth 0 (pubkey k) 0) = zlen (pubkey_bytes k).

Definition op_n (n : Z) : Z := if n =? 0 then OP_0 else OP_1 + n - 1.

Definition multisig_ops (m : Z) (ks : list btc_pubkey) : list btc_script_op :=
  mk_op (op_n m) [] :: map (fun k => push_op (pubkey_bytes k)) ks ++
  [mk_op (op_n (zlen ks)) []; mk_op OP_CHECKMULTISIG []].

Lemma pubkey_bytes_zlen (k : btc_pubkey) :
  pubkey_wf k -> zlen (pubkey_bytes k) = if compressed k then 33 else 65.
Proof.
  intros (_ & Hl & _). unfold pubkey_bytes, BTC_ECKEY_COMPRESSED_LENGTH, BTC_ECKEY_UNCOMPRESSED_LENGTH.
  rewrite zlen_ztake. case_bool; lia.
Qed.

Lemma pubkey_push (k : btc_pubkey) :
  pubkey_wf k -> op_wf (push_op (pubkey_bytes k)) /\
  btc_script_is_op_pubkey (push_op (pubkey_bytes k)) = true /\
  zlen (op_bytes (push_op (pubkey_bytes k))) <= 66.
Proof.
  intros Hk. pose proof (pubkey_bytes_zlen k Hk) as Hl. destruct Hk as (Hb & H65 & Hg).
  assert (zlen (pubkey_bytes k) < OP_PUSHDATA1) as Hs by (rewrite Hl; unfold_ops; case_bool; lia).
  assert (0 < zlen (pubkey_bytes k)) as Hpos by (rewrite Hl; case_bool; lia).
  split_and!.
  - apply push_op_wf; [by apply is_bytes_take|unfold_ops; lia].
  - rewrite zlen_push_op by done. unfold btc_script_is_op_pubkey, btc_script_is_pushdata, datalen.
    cbn [op data]. unfold BTC_ECKEY_COMPRESSED_LENGTH, BTC_ECKEY_UNCOMPRESSED_LENGTH.
    assert (nth 0 (pubkey_bytes k) 0 = nth 0 (pubkey k) 0) as ->.
    { unfold pubkey_bytes, ztake. destruct (pubkey k); [done|]. by case_bool. }
    rewrite Hg, Z.eqb_refl. unfold_ops. rewrite Hl. by destruct (compressed k).
  - rewrite zlen_push_op by done. unfold op_bytes. cbn [op data]. unfold_ops. zif.
    rewrite zlen_cons, Hl. case_bool; lia.
Qed.

Lemma op_n_wf (n : Z) :
  0 <= n <= 16 -> op_wf (mk_op (op_n n) []) /\ op_bytes (mk_op (op_n n) []) = [u8 (op_n n)] /\
  btc_script_is_op_smallint (mk_op (op_n n) []) = true /\ btc_encode_op_n n = Some (op_n n).
Proof.
  intros Hn. unfold op_n, btc_encode_op_n, btc_script_is_op_smallint, OP_0, OP_1, OP_16. zif.
  destruct (Z.eqb_spec n 0) as [->|Hz].
  - split_and!; try done. repeat split; try done; by vm_compute.
  - split_and!; [apply bare_op_wf; unfold_ops; lia|apply bare_op_bytes; unfold_ops; lia| |done].
    cbn [op]. by zif.
Qed.

Lemma multisig_ops_wf (m : Z) (ks : list btc_pubkey) :
  0 <= m <= 16 -> zlen ks <= 16 -> Forall pubkey_wf ks -> Forall op_wf (multisig_ops m ks).
Proof.
  intros Hm Hk Hks. pose proof (zlen_nonneg ks). unfold multisig_ops.
  constructor; [by apply op_n_wf|]. apply Forall_app. split.
  - clear - Hks. induction Hks as [|k ks Hkk Hks IH]; [constructor|].
    constructor; [by apply pubkey_push|done].
  - constructor; [apply op_n_wf; lia|]. constructor; [|done]. by apply bare_op_wf.
Qed.

Lemma keys_zlen (ks : list btc_pubkey) :
  Forall pubkey_wf ks ->
  zlen (flat_map op_bytes (map (fun k => push_op (pubkey_bytes k)) ks)) <= 66 * zlen ks.
Proof.
  induction 1 as [|k ks Hk Hks IH]; [done|]. cbn [map flat_map]. rewrite zlen_app, zlen_cons.
  destruct (pubkey_push k Hk) as (_ & _ & ?). lia.
Qed.

Lemma flat_map_map {A B C} (f : B -> list C) (g : A -> B) (l : list A) :
  flat_map f (map g l) = flat_map (fun x => f (g x)) l.
Proof. induction l as [|x l IH]; [done|]. cbn. by rewrite IH. Qed.

Lemma build_multisig_spec (s : cstring) (m : Z) (ks : list btc_pubkey) :
  cstr_wf s -> 0 <= m <= 16 -> zlen ks <= 16 -> Forall pubkey_wf ks ->
  exists s', btc_script_build_multisig s m ks = Some (true, s') /\ cstr_wf s' /\
    cstr_holds s' (flat_map op_bytes (multisig_ops m ks)).
Proof.
  intros Hs Hm Hk Hks. pose proof (zlen_nonneg ks).
  destruct (op_n_wf m Hm) as (_ & Eb1 & _ & E1).
  destruct (op_n_wf (zlen ks)) as (_ & Eb2 & _ & E2); [lia|].
  assert (Appends (fun s0 => s1 ← ser_bytes s0 [u8 (op_n m)];
    s2 ← for_each (fun pkey => btc_script_append_pushdata (pubkey_bytes pkey)) ks s1;
    s3 ← ser_bytes s2 [u8 (op_n (zlen ks))]; ser_bytes s3 [u8 OP_CHECKMULTISIG])
    (flat_map op_bytes (multisig_ops m ks))) as Happ.
  { unfold multisig_ops. cbn [flat_map]. rewrite flat_map_app, flat_map_map, Eb1. cbn [flat_map]. rewrite Eb2.
    apply appends_bind; [apply appends_bytes|]. apply appends_bind.
    - apply (appends_for_each _ (fun k => op_bytes (push_op (pubkey_bytes k)))).
      apply Forall_forall. intros k _. apply appends_pushdata.
    - apply (appends_bind _ _ [_]); apply appends_bytes. }
  destruct (clear_then_appends _ _ s Happ Hs) as (s' & E & Hw & Hb).
  { unfold multisig_ops. cbn [flat_map]. rewrite flat_map_app. cbn [flat_map].
    rewrite !zlen_app, Eb1, Eb2. pose proof (keys_zlen ks Hks).
    change (zlen (op_bytes (mk_op OP_CHECKMULTISIG []))) with 1. autorewrite with zlist. lia. }
  exists s'. split_and!; [|done|done]. unfold btc_script_build_multisig. revert E.
  destruct (clear_script s) as [s0|]; [|done]. cbn [mbind option_bind]. zif. rewrite E1, E2. cbn [mbind option_bind].
  destruct (ser_bytes s0 _) as [s1|]; [|done]. cbn [mbind option_bind].
  destruct (for_each _ ks s1) as [s2|]; [|done]. cbn [mbind option_bind].
  destruct (ser_bytes s2 _) as [s3|]; [|done]. cbn [mbind option_bind]. by intros ->.
Qed.

Lemma multisig_not_witness (m : Z) (ks : list btc_pubkey) :
  0 <= m <= 16 -> zlen ks <= 16 -> Forall pubkey_wf ks ->
  witness_v0 (flat_map op_bytes (multisig_ops m ks)) = None.
Proof.
  intros Hm Hk Hks. destruct (op_n_wf m Hm) as (_ & Eb & _ & _).
  unfold multisig_ops. cbn [flat_map]. rewrite Eb. cbn [app].
  assert (exists n r, flat_map op_bytes (map (fun k => push_op (pubkey_bytes k)) ks ++
    [mk_op (op_n (zlen ks)) []; mk_op OP_CHECKMULTISIG []]) = n :: r /\ n <> 20 /\ n <> 32) as (n & r & -> & H1 & H2).
  { destruct Hks as [|k ks Hk1 Hks]; [by eexists _, _|]. cbn [map app flat_map].
    rewrite zlen_push_op by (rewrite pubkey_bytes_zlen by done; unfold_ops; case_bool; lia).
    destruct (op_bytes_head (mk_op (zlen (pubkey_bytes k)) (pubkey_bytes k))) as [r ->]. cbn [op app].
    eexists _, _. split; [done|]. rewrite pubkey_bytes_zlen by done. case_bool; lia. }
  unfold witness_v0. destruct (u8 (op_n m)) as [| |]; try done.
  by zif.
Qed.

Lemma multisig_ends (m : Z) (ks : list btc_pubkey) : ends_ok (multisig_ops m ks).
Proof.
  unfold multisig_ops. change [mk_op (op_n (zlen ks)) []; mk_op OP_CHECKMULTISIG []]
    with ([mk_op (op_n (zlen ks)) []] ++ [mk_op OP_CHECKMULTISIG []]).
  rewrite app_assoc, app_comm_cons. by apply ends_ok_op.
Qed.

Lemma vector_idx_app_r (a b : list btc_script_op) (i : nat) :
  vector_idx (a ++ b) (length a + i) = vector_idx b i.
Proof. unfold vector_idx. rewrite app_nth2_plus. done. Qed.

Lemma multisig_recognised (m : Z) (ks : list btc_pubkey) :
  0 <= m <= 16 -> zlen ks <= 16 -> Forall pubkey_wf ks ->
  btc_script_classify_ops (multisig_ops m ks) = BTC_TX_MULTISIG.
Proof.
  intros Hm Hk Hks. pose proof (zlen_nonneg ks).
  destruct (op_n_wf m Hm) as (_ & _ & Hsm & _).
  destruct (op_n_wf (zlen ks)) as (_ & _ & Hsn & _); [lia|].
  assert (btc_script_is_multisig (multisig_ops m ks) = true) as Hms.
  { set (a := mk_op (op_n m) [] :: map (fun k => push_op (pubkey_bytes k)) ks).
    assert (multisig_ops m ks = a ++ [mk_op (op_n (zlen ks)) []; mk_op OP_CHECKMULTISIG []]) as -> by done.
    assert (length a = S (length ks)) as Ha by (cbn; by rewrite length_map).
    unfold btc_script_is_multisig. rewrite length_app, zlen_app. cbn [length].
    replace (length a + 2 - 2)%nat with (length a + 0)%nat by lia.
    replace (length a + 2 - 1)%nat with (length a + 1)%nat by lia.
    rewrite !vector_idx_app_r. cbn [vector_idx nth]. rewrite Hsn.
    assert (vector_idx (a ++ [mk_op (op_n (zlen ks)) []; mk_op OP_CHECKMULTISIG []]) 0 = mk_op (op_n m) []) as -> by done.
    rewrite Hsm. change (zlen [_; _]) with 2. unfold zlen in *. rewrite Ha.
    change (btc_script_is_op (mk_op OP_CHECKMULTISIG []) OP_CHECKMULTISIG) with true. zif.
    apply forallb_forall. intros i Hi. apply in_seq in Hi.
    unfold vector_idx. rewrite app_nth1 by lia. destruct i as [|i]; [lia|]. cbn [a nth].
    rewrite (nth_indep _ _ (push_op (pubkey_bytes (mk_pubkey true [])))) by (rewrite length_map; lia).
    rewrite map_nth with (f := fun k => push_op (pubkey_bytes k)).
    apply pubkey_push. rewrite List.Forall_forall in Hks. apply Hks, nth_In. lia. }
  unfold btc_script_classify_ops. rewrite Hms. apply multisig_shape in Hms as [_ Hsh].
  assert (3 <= zlen (multisig_ops m ks)) by (unfold multisig_ops; zlia).
  destruct (fst (btc_script_is_pubkeyhash _ _)) eqn:E1; [apply pubkeyhash_shape in E1 as [_ E1]; unfold OP_DUP, OP_16 in *; lia|].
  destruct (fst (btc_script_is_scripthash _ _)) eqn:E2; [apply scripthash_shape in E2 as [_ E2]; unfold OP_HASH160, OP_16 in *; lia|].
  destruct (fst (btc_script_is_pubkey _ _)) eqn:E3; [apply pubkey_shape in E3 as [E3 _]; lia|done].
Qed.

(** For up to sixteen well-formed keys and any threshold up to sixteen,
    [btc_script_build_multisig] succeeds and its script is classified as
    multisig; a larger threshold or more keys are refused with the script
    cleared. *)
Theorem multisig_build_classify (s : cstring) (m : Z) (ks : list btc_pubkey)
    (Hs : cstr_wf s) (Hm : 0 <= m) (Hks : Forall pubkey_wf ks) :
  if (m <=? 16) && (zlen ks <=? 16) then
    exists s' bs, btc_script_build_multisig s m ks = Some (true, s') /\ cstr_wf s' /\
      cstr_holds s' bs /\ btc_script_classify bs (Some []) = Ret (BTC_TX_MULTISIG, Some [])
  else exists s', btc_script_build_multisig s m ks = Some (false, s') /\ cstr_holds s' [].
Proof.
  destruct (_ && _) eqn:E; reflect_bools.
  - destruct (build_multisig_spec s m ks) as (s' & Eb & Hw & Hb); [done|lia|done|done|].
    eexists s', _. split_and!; [done|done|done|].
    rewrite (classify_of_ops _ BTC_TX_MULTISIG).
    + unfold payload. by rewrite multisig_recognised by (done || lia).
    + done.
    + apply multisig_ops_wf; [lia|done|done].
    + apply multisig_ends.
    + by apply multisig_not_witness; [lia|..].
    + by apply multisig_recognised; [lia|..].
  - destruct (clear_then_appends Some [] s appends_skip Hs) as (s' & Ec & _ & Hh); [done|].
    exists s'. split; [|done]. unfold btc_script_build_multisig. revert Ec.
    destruct (clear_script s) as [s0|]; [|done]. cbn [mbind option_bind]. intros [= ->].
    destruct (Z.ltb_spec 16 m); [done|]. destruct (Z.ltb_spec 16 (zlen ks)); [done|].
    destruct E as [E|E]; apply Z.leb_gt in E; lia.
Qed.

Lemma multisig_build_classify_witness :
  exists s' bs, btc_script_build_multisig empty_cstr 1 [mk_pubkey true (2 :: replicate 64 9)] = Some (true, s') /\
    cstr_wf s' /\ cstr_holds s' bs /\ btc_script_classify bs (Some []) = Ret (BTC_TX_MULTISIG, Some []).
Proof.
  apply (multisig_build_classify empty_cstr 1 [mk_pubkey true (2 :: replicate 64 9)]).
  - apply empty_cstr_wf.
  - lia.
  - constructor; [|constructor]. split; [|split; reflexivity].
    cbn [pubkey]. repeat constructor; vm_compute; congruence.
Defined.

(** ** Copying without code separators *)

Definition copyable (o : btc_script_op) : Prop :=
  op o <> OP_PUSHDATA4 /\ (op o = OP_PUSHDATA1 \/ op o = OP_PUSHDATA2 -> data o <> []).

Definition kept (o : btc_script_op) : bool := negb (op o =? OP_CODESEPARATOR).
Definition kept_bytes (o : btc_script_op) : list Z := if kept o then op_bytes o else [].

(** The operand of a push other than [OP_PUSHDATA4] is copied unchanged. *)
Lemma copy_operand_app (o : btc_script_op) (b : list Z) (s : cstring) :
  op_wf o -> copyable o -> 0 < op o <= OP_PUSHDATA4 -> cstr_wf s -> len s + zlen (op_bytes o) < 2 ^ 30 ->
  exists r h s1, op_bytes o = op o :: r /\ op_bytes o = h ++ data o /\
    copy_operand (op o) (r ++ b) s = Some (Some (datalen o, data o ++ b, s1)) /\
    cstr_wf s1 /\ cstr_cells s1 = cstr_cells s ++ (Some <$> h).
Proof.
  intros Hwf [H4 _] Hop Hs Hl. destruct (push_length_app o b Hwf) as (r & Hr & Hp); [lia|].
  assert (forall h g, op_bytes o = h ++ data o -> Appends g h ->
    exists s1, g s = Some s1 /\ cstr_wf s1 /\ cstr_cells s1 = cstr_cells s ++ (Some <$> h)) as K.
  { intros h g E Hg. apply Hg; [done|]. rewrite E, zlen_app in Hl. pose proof (zlen_nonneg (data o)). lia. }
  exists r. unfold push_length in Hp. unfold copy_operand, op_bytes in *. unfold OP_0. unfold_ops.
  destruct (Z.ltb_spec (op o) 0x4c).
  { destruct (K [op o] _ eq_refl (appends_bytes [op o])) as (s1 & E1 & ?).
    exists [op o], s1. zif. injection Hr as <-. injection Hp as Ed. rewrite E1, <- Ed.
    by cbn [mbind option_bind]. }
  destruct (Z.eqb_spec (op o) 0x4c) as [E|E].
  { destruct (K (op o :: le_bytes 1 (datalen o)) _ eq_refl
      (appends_bind _ _ [_] _ (appends_bytes [op o]) (appends_bytes (le_bytes 1 (datalen o))))) as (s1 & E1 & Hs1 & Hc1).
    exists (op o :: le_bytes 1 (datalen o)), s1.
    assert (r = le_bytes 1 (datalen o) ++ data o) as -> by congruence. split_and!; [done|done| |done|done]. zif.
    rewrite <- app_assoc, deser_bytes_app in Hp |- * by done. cbn [mbind outcome_bind] in Hp.
    replace (le_val (le_bytes 1 (datalen o))) with (datalen o) by congruence. revert E1. destruct (ser_bytes s _) as [s2|]; [|done].
    cbn [mbind option_bind]. unfold append_object. rewrite zlen_le_bytes, ztake_all by (rewrite zlen_le_bytes; lia).
    cbn [Z.ltb Z.of_nat Pos.of_succ_nat Z.compare Pos.compare Pos.compare_cont]. by intros ->. }
  destruct (Z.eqb_spec (op o) 0x4d) as [E'|E']; [|zif; destruct (Z.eqb_spec (op o) 0x4e); [done|lia]].
  destruct (K (op o :: le_bytes 2 (datalen o)) _ eq_refl
    (appends_bind _ _ [_] _ (appends_bytes [op o]) (appends_bytes (le_bytes 2 (datalen o))))) as (s1 & E1 & Hs1 & Hc1).
  exists (op o :: le_bytes 2 (datalen o)), s1.
  assert (r = le_bytes 2 (datalen o) ++ data o) as -> by congruence. split_and!; [done|done| |done|done]. zif.
  apply (inj Some) in Hp. rewrite Hp. revert E1. destruct (ser_bytes s _) as [s2|]; [|done].
  cbn [mbind option_bind]. unfold append_object. rewrite zlen_le_bytes, ztake_all by (rewrite zlen_le_bytes; lia).
  cbn [Z.ltb Z.of_nat Pos.of_succ_nat Pos.succ Z.compare Pos.compare Pos.compare_cont]. by intros ->.
Qed.

Lemma copy_step (f : nat) (o : btc_script_op) (b : list Z) (s : cstring) :
  op_wf o -> copyable o -> cstr_wf s -> len s + zlen (op_bytes o) < 2 ^ 30 ->
  exists s', copy_loop (S f) (op_bytes o ++ b) s = copy_loop f b s' /\ cstr_wf s' /\
    cstr_cells s' = cstr_cells s ++ (Some <$> kept_bytes o).
Proof.
  intros Hwf Hc Hs Hl. unfold kept_bytes, kept.
  destruct (Z.eqb_spec (op o) OP_CODESEPARATOR) as [E|E]; cbn [negb].
  { exists s. unfold op_bytes. rewrite E. split_and!; [done|done|]. by rewrite app_nil_r. }
  destruct Hwf as (Hb & Hd & H0 & H1 & H2 & H4 & Hn) eqn:Ew. clear Ew. unfold is_byte in Hb.
  assert (forall s1, cstr_wf s1 -> cstr_cells s1 = cstr_cells s ++ (Some <$> []) ->
    op_bytes o = [op o] -> copy_operand (op o) b s = Some (Some (0, b, s1)) -> exists s',
    copy_loop (S f) (op_bytes o ++ b) s = copy_loop f b s' /\ cstr_wf s' /\
    cstr_cells s' = cstr_cells s ++ (Some <$> op_bytes o)) as K0.
  { intros s1 Hs1 Hc1 Eb Ec. rewrite Eb in *. cbn [copy_loop app]. rewrite Ec.
    cbn [mbind option_bind]. zif. rewrite app_nil_r in Hc1.
    destruct (appends_bytes [op o] s1) as (s' & -> & Hs' & Hc'); [done| |].
    { rewrite <- (cstr_cells_zlen s1 Hs1), Hc1, cstr_cells_zlen by done. done. }
    cbn [mbind option_bind]. exists s'. by rewrite Hc', Hc1. }
  assert (op o = 0 \/ 0 < op o <= OP_PUSHDATA4 \/ OP_PUSHDATA4 < op o) as [Hz|[Hp|Hp]] by lia.
  - assert (data o = []) as Hd0 by (apply nil_length_inv; unfold datalen, zlen in *; unfold_ops; lia).
    apply (K0 s); try done; [by rewrite app_nil_r|unfold op_bytes; unfold_ops; zif; by rewrite Hd0|by rewrite Hz].
  - destruct (copy_operand_app o b s) as (r & h & s1 & Hr & Hh & Ec & Hs1 & Hc1); [done..|].
    rewrite Hr. cbn [copy_loop app]. destruct (Z.eqb_spec (op o) OP_CODESEPARATOR); [done|]. rewrite Ec.
    cbn [mbind option_bind].
    assert (0 < datalen o < 16777215) as Hdl.
    { destruct Hc as [Hc4 Hce]. unfold_ops.
      assert (op o < 0x4c \/ op o = 0x4c \/ op o = 0x4d) as [?|[?|?]] by lia; [lia|..];
        (assert (data o <> []) as Hne by (apply Hce; auto);
         destruct (data o) eqn:Ed; [done|]; unfold datalen in *; rewrite Ed, zlen_cons in *; zlia). }
    zif. rewrite deser_bytes_app by done.
    destruct (appends_bytes (data o) s1) as (s' & -> & Hs' & Hc'); [done| |].
    { rewrite <- (cstr_cells_zlen s1 Hs1), Hc1, zlen_app, zlen_fmap, cstr_cells_zlen by done.
      rewrite Hh, zlen_app in Hl. lia. }
    cbn [mbind option_bind]. exists s'. split_and!; try done.
    by rewrite Hc', Hc1, <- Hr, Hh, fmap_app, app_assoc.
  - apply (K0 s); try done; [by rewrite app_nil_r|unfold op_bytes; unfold_ops; by zif|].
    unfold copy_operand. unfold OP_0. unfold_ops. by zif.
Qed.

Lemma kept_bytes_zlen (o : btc_script_op) : zlen (kept_bytes o) <= zlen (op_bytes o).
Proof. unfold kept_bytes. case_bool; zlia. Qed.

(** Any number of copyable operations in front of a rest. *)
Lemma copy_loop_prefix (ops : list btc_script_op) (f : nat) (b : list Z) (s : cstring) :
  Forall op_wf ops -> Forall copyable ops -> cstr_wf s ->
  len s + zlen (flat_map op_bytes ops) < 2 ^ 30 ->
  exists s', copy_loop (length ops + f) (flat_map op_bytes ops ++ b) s = copy_loop f b s' /\
    cstr_wf s' /\ cstr_cells s' = cstr_cells s ++ (Some <$> flat_map kept_bytes ops) /\
    len s' <= len s + zlen (flat_map op_bytes ops).
Proof.
  intros Hwf Hc. revert s Hc. induction Hwf as [|o ops Ho Hops IH]; intros s Hc Hs Hl.
  - exists s. cbn. rewrite app_nil_r. split_and!; try done. zlia.
  - apply list.Forall_cons in Hc as [Hco Hc]. cbn [flat_map length Nat.add] in *. rewrite zlen_app in Hl.
    pose proof (zlen_nonneg (flat_map op_bytes ops)).
    destruct (copy_step (length ops + f) o (flat_map op_bytes ops ++ b) s) as (s1 & E & Hs1 & Hc1); [done..|lia|].
    assert (len s1 = len s + zlen (kept_bytes o)) as Hl1
      by (rewrite <- (cstr_cells_zlen s1 Hs1), Hc1, zlen_app, zlen_fmap, cstr_cells_zlen; done).
    pose proof (kept_bytes_zlen o).
    destruct (IH s1) as (s2 & E2 & Hs2 & Hc2 & Hl2); [done|done|lia|].
    exists s2. rewrite <- app_assoc, E, E2, zlen_app. split_and!; try done; [|lia].
    by rewrite Hc2, Hc1, fmap_app, app_assoc.
Qed.

Lemma flat_map_kept (ops : list btc_script_op) :
  flat_map kept_bytes ops = flat_map op_bytes (List.filter kept ops).
Proof.
  induction ops as [|o ops IH]; [done|]. cbn [flat_map List.filter]. unfold kept_bytes at 1.
  rewrite IH. by destruct (kept o).
Qed.

Lemma copy_kept (ops : list btc_script_op) (s : cstring)
    (Hne : ops <> []) (Hwf : Forall op_wf ops) (Hc : Forall copyable ops) (Hs : cstr_wf s)
    (Hl : len s + zlen (flat_map op_bytes ops) < 2 ^ 30) :
  exists s', btc_script_copy_without_op_codeseperator (flat_map op_bytes ops) s = Some (true, s') /\
    cstr_wf s' /\
    cstr_cells s' = cstr_cells s ++ (Some <$> flat_map op_bytes (List.filter kept ops)).
Proof.
  destruct (copy_loop_prefix ops (S (length (flat_map op_bytes ops)) - length ops) [] s)
    as (s' & E & Hs' & Hc' & _); [done..|].
  exists s'. rewrite <- flat_map_kept. split_and!; [|done|done].
  unfold btc_script_copy_without_op_codeseperator. pose proof (op_bytes_count ops).
  assert (0 < length ops)%nat by (destruct ops; [done|simpl; lia]).
  assert (zlen (flat_map op_bytes ops) <> 0) by (unfold zlen; lia). zif.
  rewrite app_nil_r, <- Nat.le_add_sub in E by lia. rewrite E.
  by replace (S (length (flat_map op_bytes ops)) - length ops)%nat
    with (S (length (flat_map op_bytes ops) - length ops)) by lia.
Qed.

(** [btc_script_copy_without_op_codeseperator] appends exactly the encoding
    of the operations that are not [OP_CODESEPARATOR], in their order, for every
    script without [OP_PUSHDATA4] and without an explicit push of length zero. *)
Theorem copy_removes_codeseparators (ops : list btc_script_op) (s : cstring)
    (Hne : ops <> []) (Hwf : Forall op_wf ops) (Hc : Forall copyable ops) (Hs : cstr_wf s)
    (Hl : len s + zlen (flat_map op_bytes ops) < 2 ^ 30) :
  exists s', btc_script_copy_without_op_codeseperator (flat_map op_bytes ops) s = Some (true, s') /\
    cstr_wf s' /\
    cstr_cells s' = cstr_cells s ++ (Some <$> flat_map op_bytes (List.filter kept ops)).
Proof. by apply copy_kept. Qed.

Lemma copy_removes_codeseparators_witness :
  exists s', btc_script_copy_without_op_codeseperator [0x51; 0xab; 1; 9; 0xac] empty_cstr = Some (true, s') /\
    cstr_wf s' /\ cstr_cells s' = [Some 0x51; Some 1; Some 9; Some 0xac].
Proof.
  apply (copy_removes_codeseparators [mk_op 0x51 []; mk_op 0xab []; mk_op 1 [9]; mk_op 0xac []] empty_cstr).
  - discriminate.
  - repeat constructor; vm_compute; congruence.
  - repeat constructor; cbn; unfold OP_PUSHDATA4, OP_PUSHDATA1, OP_PUSHDATA2; intuition discriminate.
  - apply empty_cstr_wf.
  - reflexivity.
Defined.

(** Copying a script that contains [OP_PUSHDATA4] reads five bytes from a
    four byte variable: the behaviour is undefined whatever the operation
    pushes. *)
Theorem copy_pushdata4_overread (pre : list btc_script_op) (o : btc_script_op) (b : list Z) (s : cstring)
    (Hwf : Forall op_wf pre) (Hc : Forall copyable pre) (Ho : op_wf o) (H4 : op o = OP_PUSHDATA4)
    (Hs : cstr_wf s) (Hl : len s + zlen (flat_map op_bytes pre) < 2 ^ 30) :
  btc_script_copy_without_op_codeseperator (flat_map op_bytes pre ++ op_bytes o ++ b) s = None.
Proof.
  destruct (push_length_app o b Ho) as (r & Hr & Hp); [unfold_ops; lia|].
  unfold btc_script_copy_without_op_codeseperator. rewrite Hr, H4 in *. rewrite length_app.
  pose proof (op_bytes_count pre).
  assert (zlen (flat_map op_bytes pre ++ (OP_PUSHDATA4 :: r) ++ b) <> 0) by zlia. zif.
  replace (S _) with (length pre + S (length (flat_map op_bytes pre) +
    length ((OP_PUSHDATA4 :: r) ++ b) - length pre))%nat by lia.
  edestruct copy_loop_prefix as (s' & -> & Hs' & _); [exact Hwf|exact Hc|exact Hs|exact Hl|].
  cbn [copy_loop app Z.eqb OP_PUSHDATA4 OP_CODESEPARATOR Pos.eqb].
  unfold push_length in Hp. unfold copy_operand. cbn in Hp |- *. apply (inj Some) in Hp. rewrite Hp.
  by destruct (ser_bytes s' [OP_PUSHDATA4]) as [s1|].
Qed.

Lemma copy_pushdata4_overread_witness :
  btc_script_copy_without_op_codeseperator [0x4e; 1; 0; 0; 0; 7] empty_cstr = None.
Proof.
  apply (copy_pushdata4_overread [] (mk_op 0x4e [7]) [] empty_cstr).
  - constructor.
  - constructor.
  - repeat split; vm_compute; try congruence. repeat constructor; vm_compute; congruence.
  - reflexivity.
  - apply empty_cstr_wf.
  - reflexivity.
Defined.

(** An explicit push of nothing is copied with its opcode a second time. *)
Example copy_empty_pushdata :
  ((fun '(r, s) => (r, cstr_cells s)) <$> btc_script_copy_without_op_codeseperator [0x4c; 0; 0xac] empty_cstr) =
  Some (true, [Some 0x4c; Some 0; Some 0x4c; Some 0xac]).
Proof. reflexivity. Qed.
