(* ===== verification/Tx.v ===== *)
(** * tx.c: transactions

    The structs of include/btc/tx.h with their [cstring] fields; a null
    [cstring*] is [None].  The vectors are the lists of their elements:
    [btc_tx_new] and [btc_tx_in_new] always allocate them.  Functions that
    write append to a [cstring]; [None] is undefined behaviour, and the mapper
    of memory.c is the default one, which never returns null. *)

From S2P Require Import Prelude Cstr Serialize Sha2 Sha2Spec Ripemd160 Script.

(** ** hash.h *)

Definition BTC_HASH_LENGTH : Z := 32.

Definition btc_hash (d : list Z) : list Z := sha256_Raw (sha256_Raw d).
Definition btc_hash_clear : list Z := replicate 32 0.

(** [hash[0] == 0 && !memcmp (hash, hash + 1, 19)] *)
Definition btc_hash_is_empty (hash : list Z) : bool :=
  (nth 0 hash 0 =? 0) && bool_decide (take 19 hash = take 19 (drop 1 hash)).

(** ** Data *)

Record btc_tx_outpoint := mk_outpoint { hash : list Z; n : Z }.

Record btc_tx_in := mk_tx_in {
  prevout : btc_tx_outpoint; script_sig : option cstring; sequence : Z; witness_stack : list cstring }.

Record btc_tx_out := mk_tx_out { value : Z; script_pubkey : option cstring }.

Record btc_tx := mk_tx { version : Z; vin : list btc_tx_in; vout : list btc_tx_out; locktime : Z }.

Definition UINT32_MAX : Z := 0xffffffff.

Definition btc_tx_in_new : btc_tx_in := mk_tx_in (mk_outpoint (replicate 32 0) 0) None UINT32_MAX [].
Definition btc_tx_out_new : btc_tx_out := mk_tx_out 0 None.
Definition btc_tx_new : btc_tx := mk_tx 1 [] [] 0.

(** [cstr_new_sz] under the default mapper. *)
Definition new_sz (sz : Z) : option cstring := o ← cstr_new_sz sz; o.

(** ** Reading *)

(** [deser_u256 (hash, buf)] with its result ignored: on a short buffer
    nothing is stored and nothing is consumed. *)
Definition deser_u256_ignored (h : list Z) (buf : const_buffer) : list Z * const_buffer :=
  match deser_u256 buf with
  | Ret (h', b) => (h', b)
  | _ => (h, buf)
  end.

Definition btc_tx_in_deserialize (tx_in : btc_tx_in) (buf : const_buffer) :
    outcome (btc_tx_in * const_buffer) :=
  let '(h, buf) := deser_u256_ignored (hash (prevout tx_in)) buf in
  '(i, buf) ← deser_u32 buf;
  '(s, buf) ← deser_varstr buf;
  '(q, buf) ← deser_u32 buf;
  Ret (mk_tx_in (mk_outpoint h i) (Some s) q (witness_stack tx_in), buf).

Definition btc_tx_out_deserialize (tx_out : btc_tx_out) (buf : const_buffer) :
    outcome (btc_tx_out * const_buffer) :=
  '(v, buf) ← deser_s64 buf;
  '(s, buf) ← deser_varstr buf;
  Ret (mk_tx_out v (Some s), buf).

(** [for (i = 0; i < vlen; i++)] reading one element; the loop stops with the
    elements already added when one cannot be read. *)
Fixpoint deser_loop {A} (rd : const_buffer -> outcome (A * const_buffer)) (k : nat)
    (buf : const_buffer) (acc : list A) : outcome (bool * list A * const_buffer) :=
  match k with
  | O => Ret (true, acc, buf)
  | S k' =>
      match rd buf with
      | Ret (x, buf') => deser_loop rd k' buf' (acc ++ [x])
      | Fail => Ret (false, acc, buf)
      | Undef => Undef
      end
  end.

(** The witness stacks, input by input; the inputs after a failure keep theirs. *)
Fixpoint deser_witnesses (ins : list btc_tx_in) (buf : const_buffer) :
    outcome (bool * list btc_tx_in * const_buffer) :=
  match ins with
  | [] => Ret (true, [], buf)
  | i :: ins' =>
      match deser_varlen buf with
      | Undef => Undef
      | Fail => Ret (false, ins, buf)
      | Ret (vlen, buf1) =>
          '(ok, stack, buf2) ← deser_loop deser_varstr (Z.to_nat vlen) buf1 (witness_stack i);
          let i' := mk_tx_in (prevout i) (script_sig i) (sequence i) stack in
          if (ok : bool) then
            '(ok', rest, buf3) ← deser_witnesses ins' buf2;
            Ret (ok', i' :: rest, buf3)
          else Ret (false, i' :: ins', buf2)
      end
  end.

Definition with_vin (tx : btc_tx) (l : list btc_tx_in) : btc_tx :=
  mk_tx (version tx) l (vout tx) (locktime tx).
Definition with_vout (tx : btc_tx) (l : list btc_tx_out) : btc_tx :=
  mk_tx (version tx) (vin tx) l (locktime tx).

(** From the inputs on: the result, the transaction as far as it was filled,
    and the length consumed, which stays 0 on failure. *)
Definition deser_body (inlen : Z) (tx : btc_tx) (flags vlen : Z) (buf : const_buffer) (allow_witness : bool) :
    outcome (bool * btc_tx * Z) :=
  '(ok, ins, buf) ← deser_loop (btc_tx_in_deserialize btc_tx_in_new) (Z.to_nat vlen) buf (vin tx);
  let tx := with_vin tx ins in
  if negb ok then Ret (false, tx, 0) else
  match deser_varlen buf with
  | Undef => Undef
  | Fail => Ret (false, tx, 0)
  | Ret (vlen, buf) =>
      '(ok, outs, buf) ← deser_loop (btc_tx_out_deserialize btc_tx_out_new) (Z.to_nat vlen) buf (vout tx);
      let tx := with_vout tx outs in
      if negb ok then Ret (false, tx, 0) else
      '(ok, ins, buf, flags) ←
        (if Z.odd flags && allow_witness
         then '(ok, ins, buf) ← deser_witnesses (vin tx) buf; Ret (ok, ins, buf, Z.lxor flags 1)
         else Ret (true, vin tx, buf, flags));
      let tx := with_vin tx ins in
      if negb ok then Ret (false, tx, 0) else
      if negb (flags =? 0) then Ret (false, tx, 0) else
      match deser_u32 buf with
      | Undef => Undef
      | Fail => Ret (false, tx, 0)
      | Ret (l, buf) => Ret (true, mk_tx (version tx) (vin tx) (vout tx) l, inlen - zlen buf)
      end
  end.

Definition btc_tx_deserialize (tx_serialized : list Z) (tx : btc_tx) (allow_witness : bool) :
    outcome (bool * btc_tx * Z) :=
  let buf := tx_serialized in
  let '(v, buf) := match deser_s32 buf with Ret (v, b) => (v, b) | _ => (version tx, buf) end in
  let tx := mk_tx v (vin tx) (vout tx) (locktime tx) in
  match deser_varlen buf with
  | Undef => Undef
  | Fail => Ret (false, tx, 0)
  | Ret (vlen, buf) =>
      (* the flag byte, when the first length is zero *)
      let '(flags, buf) :=
        if (vlen =? 0) && allow_witness
        then match deser_bytes buf 1 with Ret (b, buf') => (le_val b, buf') | _ => (0, buf) end
        else (0, buf) in
      match (if negb (flags =? 0) then deser_varlen buf else Ret (vlen, buf)) with
      | Undef => Undef
      | Fail => Ret (false, tx, 0)
      | Ret (vlen, buf) => deser_body (zlen tx_serialized) tx flags vlen buf allow_witness
      end
  end.

(** ** Writing *)

Definition btc_tx_in_serialize (tx_in : btc_tx_in) (s : cstring) : option cstring :=
  s ← ser_u256 s (hash (prevout tx_in));
  s ← ser_u32 s (n (prevout tx_in));
  s ← ser_varstr s (script_sig tx_in);
  ser_u32 s (sequence tx_in).

Definition btc_tx_out_serialize (tx_out : btc_tx_out) (s : cstring) : option cstring :=
  s ← ser_s64 s (value tx_out);
  ser_varstr s (script_pubkey tx_out).

Definition btc_tx_has_witness (tx : btc_tx) : bool :=
  existsb (fun i => 0 <? zlen (witness_stack i)) (vin tx).

(** One witness stack. *)
Definition ser_witness (i : btc_tx_in) (s : cstring) : option cstring :=
  s ← ser_varlen s (u32 (zlen (witness_stack i)));
  for_each (fun item s => ser_varstr s (Some item)) (witness_stack i) s.

Definition btc_tx_serialize (s : cstring) (tx : btc_tx) (allow_witness : bool) : option cstring :=
  s ← ser_s32 s (version tx);
  let flags := if allow_witness && btc_tx_has_witness tx then 1 else 0 in
  s ← (if negb (flags =? 0) then s ← ser_bytes s [0]; ser_bytes s [flags] else Some s);
  s ← ser_varlen s (u32 (zlen (vin tx)));
  s ← for_each btc_tx_in_serialize (vin tx) s;
  s ← ser_varlen s (u32 (zlen (vout tx)));
  s ← for_each btc_tx_out_serialize (vout tx) s;
  s ← (if negb (flags =? 0) then for_each ser_witness (vin tx) s else Some s);
  ser_u32 s (locktime tx).

(** [s->str, s->len] as the input of a hash function. *)
Definition cstr_bytes (s : cstring) : option (list Z) := cells_val (cstr_cells s).

Definition btc_tx_hash (tx : btc_tx) : option (list Z) :=
  txser ← new_sz 1024;
  txser ← btc_tx_serialize txser tx false;
  d ← cstr_bytes txser;
  Some (sha256_Raw (sha256_Raw d)).

(** ** Copying *)

Definition copy_str (c : option cstring) : option (option cstring) :=
  match c with
  | None => Some None
  | Some c =>
      d ← new_sz (len c);
      '(_, d) ← cstr_append_buf d (cstr_cells c);
      Some (Some d)
  end.

Definition btc_tx_in_copy (src : btc_tx_in) : option btc_tx_in :=
  s ← copy_str (script_sig src);
  w ← mapM (fun item => o ← cstr_new_cstr item; o) (witness_stack src);
  Some (mk_tx_in (prevout src) s (sequence src) w).

Definition btc_tx_out_copy (src : btc_tx_out) : option btc_tx_out :=
  s ← copy_str (script_pubkey src);
  Some (mk_tx_out (value src) s).

(** The former vectors of [dest] are released. *)
Definition btc_tx_copy (dest src : btc_tx) : option btc_tx :=
  ins ← mapM btc_tx_in_copy (vin src);
  outs ← mapM btc_tx_out_copy (vout src);
  Some (mk_tx (version src) ins outs (locktime src)).

(** ** Signature hashes *)

Definition SIGHASH_ALL : Z := 1.
Definition SIGHASH_NONE : Z := 2.
Definition SIGHASH_SINGLE : Z := 3.
Definition SIGHASH_ANYONECANPAY : Z := 0x80.

Inductive btc_sig_version := SIGVERSION_BASE | SIGVERSION_WITNESS_V0.

Definition btc_tx_prevout_hash (tx : btc_tx) : option (list Z) :=
  s ← new_sz 512;
  s ← for_each (fun i s => s ← ser_u256 s (hash (prevout i)); ser_u32 s (n (prevout i))) (vin tx) s;
  d ← cstr_bytes s;
  Some (btc_hash d).

Definition btc_tx_sequence_hash (tx : btc_tx) : option (list Z) :=
  s ← new_sz 512;
  s ← for_each (fun i s => ser_u32 s (sequence i)) (vin tx) s;
  d ← cstr_bytes s;
  Some (btc_hash d).

Definition btc_tx_outputs_hash (tx : btc_tx) : option (list Z) :=
  s ← new_sz 512;
  s ← for_each btc_tx_out_serialize (vout tx) s;
  d ← cstr_bytes s;
  Some (btc_hash d).

(** [hashtype & 0x1f] and [hashtype & SIGHASH_ANYONECANPAY] of an [int]. *)
Definition base_type (hashtype : Z) : Z := Z.land hashtype 0x1f.
Definition anyone (hashtype : Z) : bool := negb (Z.land hashtype SIGHASH_ANYONECANPAY =? 0).

(** The segwit branch: the bytes to hash.  The hash of the single output goes
    to the result buffer, which is overwritten at the end. *)
Definition sighash_witness (tx_tmp : btc_tx) (fromPubKey : cstring) (in_num : nat)
    (hashtype amount : Z) : option cstring :=
  let t := base_type hashtype in
  hash_prevouts ← (if negb (anyone hashtype) then btc_tx_prevout_hash tx_tmp else Some btc_hash_clear);
  hash_outputs ← (if negb (anyone hashtype) then btc_tx_outputs_hash tx_tmp else Some btc_hash_clear);
  hash_sequence ← (if negb (anyone hashtype) && negb (t =? SIGHASH_SINGLE) && negb (t =? SIGHASH_NONE)
                   then btc_tx_sequence_hash tx_tmp else Some btc_hash_clear);
  hash_outputs ← (if negb (t =? SIGHASH_SINGLE) && negb (t =? SIGHASH_NONE)
                  then btc_tx_outputs_hash tx_tmp
                  else if (t =? SIGHASH_SINGLE) && (in_num <? length (vout tx_tmp))%nat then
                    s1 ← new_sz 512;
                    o ← vout tx_tmp !! in_num;
                    s1 ← btc_tx_out_serialize o s1;
                    d ← cstr_bytes s1;
                    Some (hash_outputs : list Z)
                  else Some hash_outputs);
  s ← new_sz 512;
  s ← ser_u32 s (u32 (version tx_tmp));
  s ← ser_u256 s hash_prevouts;
  s ← ser_u256 s hash_sequence;
  i ← vin tx_tmp !! in_num;
  s ← ser_u256 s (hash (prevout i));
  s ← ser_u32 s (n (prevout i));
  s ← ser_varstr s (Some fromPubKey);
  s ← ser_u64 s amount;
  s ← ser_u32 s (sequence i);
  s ← ser_u256 s hash_outputs;
  s ← ser_u32 s (locktime tx_tmp);
  ser_s32 s hashtype.

(** [cstr_resize (tx_in->script_sig, 0)] and the script of the signed input;
    a null [script_sig] is dereferenced. *)
Definition blank_script (new_script : cstring) (signed : bool) (i : btc_tx_in) : option btc_tx_in :=
  c ← script_sig i;
  '(_, c) ← cstr_resize c 0;
  c ← (if signed then '(_, c) ← cstr_append_buf c (cstr_cells new_script); Some c else Some c);
  Some (mk_tx_in (prevout i) (Some c) (sequence i) (witness_stack i)).

Fixpoint blank_scripts (new_script : cstring) (in_num : nat) (k : nat) (ins : list btc_tx_in) :
    option (list btc_tx_in) :=
  match ins with
  | [] => Some []
  | i :: ins' =>
      i ← blank_script new_script (k =? in_num)%nat i;
      r ← blank_scripts new_script in_num (S k) ins';
      Some ((i : btc_tx_in) :: r)
  end.

Definition zero_sequence (i : btc_tx_in) : btc_tx_in :=
  mk_tx_in (prevout i) (script_sig i) 0 (witness_stack i).

(** Let the others update at will. *)
Definition zero_sequences (in_num : nat) (ins : list btc_tx_in) : list btc_tx_in :=
  imap (fun k i => if (k =? in_num)%nat then i else zero_sequence i) ins.

Definition blank_out : btc_tx_out := mk_tx_out (-1) None.

(** The standard branch; [Fail] is the return value false. *)
Definition sighash_base (tx_tmp : btc_tx) (fromPubKey : cstring) (in_num : nat) (hashtype : Z) :
    outcome cstring :=
  let t := base_type hashtype in
  new_script ← total (new_sz (len fromPubKey));
  script ← total (cstr_bytes fromPubKey);
  '(_, new_script) ← total (btc_script_copy_without_op_codeseperator script new_script);
  ins ← total (blank_scripts new_script in_num 0 (vin tx_tmp));
  '(ins, outs) ←
    (if t =? SIGHASH_NONE then Ret (zero_sequences in_num ins, [])
     else if t =? SIGHASH_SINGLE then
       if (length (vout tx_tmp) <=? in_num)%nat then Fail
       else Ret (zero_sequences in_num ins,
                 replicate in_num blank_out ++ take 1 (drop in_num (vout tx_tmp)))
     else Ret (ins, vout tx_tmp));
  let ins := if anyone hashtype then take 1 (drop in_num ins) else ins in
  s ← total (new_sz 512);
  s ← total (btc_tx_serialize s (mk_tx (version tx_tmp) ins outs (locktime tx_tmp)) false);
  total (ser_s32 s hashtype).

Definition btc_tx_sighash (tx_to : btc_tx) (fromPubKey : cstring) (in_num : nat)
    (hashtype amount : Z) (sigversion : btc_sig_version) : outcome (list Z) :=
  if (length (vin tx_to) <=? in_num)%nat then Fail else
  tx_tmp ← total (btc_tx_copy btc_tx_new tx_to);
  s ← (match sigversion with
       | SIGVERSION_WITNESS_V0 => total (sighash_witness tx_tmp fromPubKey in_num hashtype amount)
       | SIGVERSION_BASE => sighash_base tx_tmp fromPubKey in_num hashtype
       end);
  d ← total (cstr_bytes s);
  Ret (sha256_Raw (sha256_Raw d)).

(** ** Adding outputs *)

Definition OP_RETURN : Z := 0x6a.
Definition OP_HASH256 : Z := 0xaa.

Definition add_out (tx : btc_tx) (amount : Z) (build : cstring -> option cstring) : option btc_tx :=
  s ← new_sz 1024;
  s ← build s;
  Some (with_vout tx (vout tx ++ [mk_tx_out amount (Some s)])).

(** [Fail] is the result false, with the transaction unchanged. *)
Definition btc_tx_add_data_out (tx : btc_tx) (amount : Z) (d : list Z) : outcome btc_tx :=
  require (zlen d <=? 80) ;;
  total (add_out tx amount (fun s => s ← btc_script_append_op OP_RETURN s; btc_script_append_pushdata d s)).

Definition btc_tx_add_puzzle_out (tx : btc_tx) (amount : Z) (puzzle : list Z) : outcome btc_tx :=
  require (zlen puzzle <=? BTC_HASH_LENGTH) ;;
  total (add_out tx amount (fun s => s ← btc_script_append_op OP_HASH256 s;
    s ← btc_script_append_pushdata puzzle s; btc_script_append_op OP_EQUAL s)).

Definition btc_tx_add_p2pkh_hash160_out (tx : btc_tx) (amount : Z) (hash160 : list Z) : option btc_tx :=
  add_out tx amount (fun s => btc_script_build_p2pkh s hash160).

Definition btc_tx_add_p2sh_hash160_out (tx : btc_tx) (amount : Z) (hash160 : list Z) : option btc_tx :=
  add_out tx amount (fun s => btc_script_build_p2sh s hash160).

(** [btc_pubkey_get_hash160] of ecc_key.c *)
Definition btc_pubkey_get_hash160 (k : btc_pubkey) : list Z :=
  btc_ripemd160 (sha256_Raw (pubkey_bytes k)).

Definition btc_tx_add_p2pkh_out (tx : btc_tx) (amount : Z) (k : btc_pubkey) : option btc_tx :=
  btc_tx_add_p2pkh_hash160_out tx amount (btc_pubkey_get_hash160 k).

Definition btc_tx_outpoint_is_null (tx : btc_tx_outpoint) : bool := true.

Definition btc_tx_is_coinbase (tx : btc_tx) : bool :=
  match vin tx with
  | [i] => btc_hash_is_empty (hash (prevout i)) && (n (prevout i) =? UINT32_MAX)
  | _ => false
  end.

(** ** Abstract transactions and their wire format *)

Record tin := mk_tin { t_hash : list Z; t_n : Z; t_sig : list Z; t_seq : Z; t_wit : list (list Z) }.
Record tout := mk_tout { t_value : Z; t_pk : list Z }.
Record atx := mk_atx { a_version : Z; a_ins : list tin; a_outs : list tout; a_lock : Z }.

Definition enc_in (i : tin) : list Z :=
  t_hash i ++ le_bytes 4 (t_n i) ++ varstr_bytes (t_sig i) ++ le_bytes 4 (t_seq i).
Definition enc_out (o : tout) : list Z := le_bytes 8 (u64 (t_value o)) ++ varstr_bytes (t_pk o).
Definition enc_wit (i : tin) : list Z := varlen_bytes (zlen (t_wit i)) ++ flat_map varstr_bytes (t_wit i).

Definition a_has_witness (a : atx) : bool := existsb (fun i => 0 <? zlen (t_wit i)) (a_ins a).

(** The serialisation of BIP 144; [w] allows the witness form. *)
Definition enc_tx (w : bool) (a : atx) : list Z :=
  let ext := w && a_has_witness a in
  le_bytes 4 (u32 (a_version a)) ++ (if ext then [0; 1] else []) ++
  varlen_bytes (zlen (a_ins a)) ++ flat_map enc_in (a_ins a) ++
  varlen_bytes (zlen (a_outs a)) ++ flat_map enc_out (a_outs a) ++
  (if ext then flat_map enc_wit (a_ins a) else []) ++ le_bytes 4 (a_lock a).

(** The ranges of the C types. *)
Definition tin_ok (i : tin) : Prop :=
  zlen (t_hash i) = 32 /\ is_bytes (t_hash i) /\ 0 <= t_n i < 2 ^ 32 /\ 0 <= t_seq i < 2 ^ 32 /\
  is_bytes (t_sig i) /\ Forall is_bytes (t_wit i).
Definition tout_ok (o : tout) : Prop := - 2 ^ 63 <= t_value o < 2 ^ 63 /\ is_bytes (t_pk o).
Definition atx_ok (a : atx) : Prop :=
  - 2 ^ 31 <= a_version a < 2 ^ 31 /\ 0 <= a_lock a < 2 ^ 32 /\
  Forall tin_ok (a_ins a) /\ Forall tout_ok (a_outs a).

(** What the structs stand for. *)
Definition rep_str (c : cstring) (bs : list Z) : Prop := cstr_wf c /\ cstr_holds c bs.

Record rep_in (i : btc_tx_in) (t : tin) : Prop := mk_rep_in {
  ri_hash : hash (prevout i) = t_hash t; ri_n : n (prevout i) = t_n t;
  ri_sig : str_field (script_sig i) (t_sig t); ri_seq : sequence i = t_seq t;
  ri_wit : Forall2 rep_str (witness_stack i) (t_wit t) }.

Record rep_out (o : btc_tx_out) (t : tout) : Prop := mk_rep_out {
  ro_value : value o = t_value t; ro_pk : str_field (script_pubkey o) (t_pk t) }.

Record rep_tx (x : btc_tx) (a : atx) : Prop := mk_rep_tx {
  rt_version : version x = a_version a; rt_lock : locktime x = a_lock a;
  rt_ins : Forall2 rep_in (vin x) (a_ins a); rt_outs : Forall2 rep_out (vout x) (a_outs a) }.

(** ** Writers refine the wire format *)

Lemma Forall2_zlen {A B} (P : A -> B -> Prop) (l : list A) (k : list B) :
  Forall2 P l k -> zlen l = zlen k.
Proof. intros H. unfold zlen. by rewrite (Forall2_length H). Qed.

(** Loops over related lists append the related encodings. *)
Lemma appends_for_each2 {A B} (P : A -> B -> Prop) (f : A -> cstring -> option cstring) (enc : B -> list Z)
    (l : list A) (k : list B) :
  Forall2 P l k -> (forall x y, P x y -> y ∈ k -> Appends (f x) (enc y)) ->
  Appends (for_each f l) (flat_map enc k).
Proof.
  induction 1 as [|x y l k Hxy Hlk IH]; intros Hf; [apply appends_skip|].
  cbn [for_each flat_map]. apply appends_bind.
  - apply Hf; [done|]. apply list_elem_of_here.
  - apply IH. intros x' y' ? ?. apply Hf; [done|]. by apply list_elem_of_further.
Qed.

Lemma appends_in (i : btc_tx_in) (t : tin) :
  rep_in i t -> zlen (t_hash t) = 32 -> Appends (btc_tx_in_serialize i) (enc_in t).
Proof.
  intros [H1 H2 H3 H4 _] Hh. unfold btc_tx_in_serialize, enc_in. rewrite H1, H2, H4.
  apply appends_bind; [by apply appends_u256|]. apply appends_bind; [apply appends_u32|].
  apply appends_bind; [by apply appends_varstr|apply appends_u32].
Qed.

Lemma appends_out (o : btc_tx_out) (t : tout) : rep_out o t -> Appends (btc_tx_out_serialize o) (enc_out t).
Proof.
  intros [H1 H2]. unfold btc_tx_out_serialize, enc_out. rewrite H1.
  apply appends_bind; [apply appends_s64|by apply appends_varstr].
Qed.

Lemma zlen_flat_map_ge {A} (f : A -> list Z) (l : list A) :
  (forall x, 0 < zlen (f x)) -> zlen l <= zlen (flat_map f l).
Proof.
  intros Hf. induction l as [|x l IH]; [done|]. cbn [flat_map]. rewrite zlen_cons, zlen_app.
  specialize (Hf x). lia.
Qed.

Lemma zlen_varstr_pos (bs : list Z) : 0 < zlen (varstr_bytes bs).
Proof. unfold varstr_bytes. rewrite zlen_app. pose proof (varlen_bytes_pos (zlen bs)). zlia. Qed.

(** It is enough to consider encodings that fit in a string. *)
Lemma appends_bounded (f : cstring -> option cstring) (bs : list Z) :
  (zlen bs < 2 ^ 30 -> Appends f bs) -> Appends f bs.
Proof. intros Hf s Hs Hn. pose proof (cstr_wf_len s Hs). apply Hf; [lia|done|done]. Qed.

Lemma appends_count (k : Z) : 0 <= k < 2 ^ 30 -> Appends (fun s => ser_varlen s (u32 k)) (varlen_bytes k).
Proof. intros. rewrite (wrap_small 32) by lia. apply appends_varlen. lia. Qed.

Lemma appends_witness (i : btc_tx_in) (t : tin) : rep_in i t -> Appends (ser_witness i) (enc_wit t).
Proof.
  intros [_ _ _ _ Hw]. unfold ser_witness, enc_wit. apply appends_bounded. intros Hb.
  pose proof (zlen_flat_map_ge varstr_bytes (t_wit t) zlen_varstr_pos). pose proof (varlen_bytes_pos (zlen (t_wit t))).
  rewrite zlen_app in Hb. rewrite (Forall2_zlen _ _ _ Hw). apply appends_bind.
  - apply appends_count. zlia.
  - apply (appends_for_each2 rep_str); [done|]. intros c bs Hc _. by apply (appends_varstr (Some c)).
Qed.

Lemma has_witness_rep (x : btc_tx) (a : atx) : rep_tx x a -> btc_tx_has_witness x = a_has_witness a.
Proof.
  intros [_ _ Hi _]. unfold btc_tx_has_witness, a_has_witness.
  induction Hi as [|i t l k Hit Hlk IH]; [done|]. cbn [existsb]. rewrite IH.
  destruct Hit as [_ _ _ _ Hw]. by rewrite (Forall2_zlen _ _ _ Hw).
Qed.

Lemma enc_in_pos (t : tin) : 0 < zlen (enc_in t).
Proof. unfold enc_in. rewrite !zlen_app, !zlen_le_bytes. pose proof (zlen_varstr_pos (t_sig t)). zlia. Qed.

Lemma enc_out_pos (t : tout) : 0 < zlen (enc_out t).
Proof. unfold enc_out. rewrite !zlen_app, !zlen_le_bytes. zlia. Qed.

Lemma enc_tx_counts (w : bool) (a : atx) :
  zlen (a_ins a) + zlen (a_outs a) < zlen (enc_tx w a).
Proof.
  unfold enc_tx. rewrite !zlen_app.
  pose proof (zlen_flat_map_ge enc_in (a_ins a) enc_in_pos).
  pose proof (zlen_flat_map_ge enc_out (a_outs a) enc_out_pos).
  pose proof (varlen_bytes_pos (zlen (a_ins a))). zlia.
Qed.

Lemma appends_tx (x : btc_tx) (a : atx) (w : bool) :
  rep_tx x a -> atx_ok a -> Appends (fun s => btc_tx_serialize s x w) (enc_tx w a).
Proof.
  intros R (_ & _ & Hins & _). apply appends_bounded. intros Hb. pose proof (enc_tx_counts w a).
  pose proof (zlen_nonneg (a_ins a)). pose proof (zlen_nonneg (a_outs a)).
  unfold btc_tx_serialize, enc_tx. rewrite (has_witness_rep _ _ R).
  destruct R as [Hv Hlk Hi Ho]. rewrite Hv, Hlk, (Forall2_zlen _ _ _ Hi), (Forall2_zlen _ _ _ Ho).
  rewrite list.Forall_forall in Hins.
  apply appends_bind; [apply appends_s32|]. apply appends_bind.
  { destruct (w && _); [|apply appends_skip]. apply (appends_bind _ _ [_]); apply appends_bytes. }
  apply appends_bind; [apply appends_count; lia|]. apply appends_bind.
  { apply (appends_for_each2 rep_in); [done|]. intros i t Hit Ht. apply appends_in; [done|]. by apply Hins. }
  apply appends_bind; [apply appends_count; lia|]. apply appends_bind.
  { apply (appends_for_each2 rep_out); [done|]. intros o t Hot _. by apply appends_out. }
  apply appends_bind; [|apply appends_u32].
  destruct (w && _); [|apply appends_skip].
  apply (appends_for_each2 rep_in); [done|]. intros i t Hit _. by apply appends_witness.
Qed.

(** ** Readers invert the wire format *)

Lemma deser_loop_app {A B} (P : A -> B -> Prop) (rd : const_buffer -> outcome (A * const_buffer))
    (enc : B -> list Z) (ks : list B) (b : list Z) (acc : list A) :
  (forall y b, y ∈ ks -> exists x, rd (enc y ++ b) = Ret (x, b) /\ P x y) ->
  exists xs, deser_loop rd (length ks) (flat_map enc ks ++ b) acc = Ret (true, acc ++ xs, b) /\ Forall2 P xs ks.
Proof.
  revert acc. induction ks as [|y ks IH]; intros acc Hrd.
  - exists []. cbn. by rewrite app_nil_r.
  - cbn [length deser_loop flat_map]. rewrite <- app_assoc.
    destruct (Hrd y (flat_map enc ks ++ b)) as (x & -> & Hx); [apply list_elem_of_here|].
    destruct (IH (acc ++ [x])) as (xs & -> & Hxs).
    { intros z c Hz. apply Hrd. by apply list_elem_of_further. }
    exists (x :: xs). rewrite <- app_assoc. split; [done|by constructor].
Qed.

Definition strip_in (t : tin) : tin := mk_tin (t_hash t) (t_n t) (t_sig t) (t_seq t) [].

Lemma deser_in_app (t : tin) (b : list Z) :
  tin_ok t -> zlen (t_sig t) < 2 ^ 30 ->
  exists i, btc_tx_in_deserialize btc_tx_in_new (enc_in t ++ b) = Ret (i, b) /\ rep_in i (strip_in t).
Proof.
  intros (Hh & _ & Hn & Hq & _) Hs. unfold btc_tx_in_deserialize, enc_in, deser_u256_ignored.
  rewrite <- !app_assoc, deser_u256_app, deser_u32_app by done. cbn [mbind outcome_bind].
  destruct (deser_varstr_app (t_sig t) (le_bytes 4 (t_seq t) ++ b) Hs) as (c & -> & Hc1 & Hc2).
  cbn [mbind outcome_bind]. rewrite deser_u32_app by done. cbn [mbind outcome_bind].
  eexists. split; [done|]. by constructor; cbn.
Qed.

Lemma deser_out_app (t : tout) (b : list Z) :
  tout_ok t -> zlen (t_pk t) < 2 ^ 30 ->
  exists o, btc_tx_out_deserialize btc_tx_out_new (enc_out t ++ b) = Ret (o, b) /\ rep_out o t.
Proof.
  intros (Hv & _) Hs. unfold btc_tx_out_deserialize, enc_out.
  rewrite <- !app_assoc, deser_s64_app by done. cbn [mbind outcome_bind].
  destruct (deser_varstr_app (t_pk t) b Hs) as (c & -> & Hc1 & Hc2). cbn [mbind outcome_bind].
  eexists. split; [done|]. by constructor; cbn.
Qed.

Lemma deser_witnesses_app (ts : list tin) (ins : list btc_tx_in) (b : list Z) :
  Forall2 rep_in ins (strip_in <$> ts) ->
  Forall (fun t => zlen (t_wit t) < 2 ^ 30 /\ Forall (fun w => zlen w < 2 ^ 30) (t_wit t)) ts ->
  exists ins', deser_witnesses ins (flat_map enc_wit ts ++ b) = Ret (true, ins', b) /\ Forall2 rep_in ins' ts.
Proof.
  intros Hr Hb. revert ins Hr. induction Hb as [|t ts [Ht Hw] Hts IH]; intros ins Hr.
  - inversion Hr; subst. by exists [].
  - inversion Hr as [|i ? l ? Hi Hl]; subst. cbn [deser_witnesses flat_map]. unfold enc_wit at 1.
    rewrite <- !app_assoc. pose proof (zlen_nonneg (t_wit t)). rewrite deser_varlen_app by lia.
    destruct Hi as [R1 R2 R3 R4 R5]. cbn [t_wit strip_in] in R5. apply Forall2_nil_inv_r in R5. rewrite R5.
    destruct (deser_loop_app rep_str deser_varstr varstr_bytes (t_wit t) (flat_map enc_wit ts ++ b) [])
      as (ws & E & Hws).
    { intros w c Hin. rewrite list.Forall_forall in Hw. apply (deser_varstr_app w c). by apply Hw. }
    replace (Z.to_nat (zlen (t_wit t))) with (length (t_wit t)) by (unfold zlen; lia).
    rewrite E. cbn [mbind outcome_bind app]. destruct (IH l Hl) as (l' & -> & Hl').
    cbn [mbind outcome_bind]. eexists. split; [done|]. constructor; [|done]. by constructor.
Qed.

(** What a reader recovers: without permission, witnesses are not written. *)
Definition seen (w : bool) (a : atx) : atx :=
  mk_atx (a_version a) (if w then a_ins a else strip_in <$> a_ins a) (a_outs a) (a_lock a).

Lemma no_witness_strip (a : atx) : a_has_witness a = false -> strip_in <$> a_ins a = a_ins a.
Proof.
  unfold a_has_witness. induction (a_ins a) as [|i l IH]; [done|]. cbn [existsb]. intros H.
  apply orb_false_iff in H as [H1 H2]. cbn [fmap list_fmap]. rewrite IH by done. f_equal.
  destruct i as [h k s q w]. cbn in *. unfold strip_in. cbn. f_equal.
  destruct w; [done|]. rewrite zlen_cons in H1. apply Z.ltb_ge in H1. zlia.
Qed.

(** Every variable part of a transaction is shorter than its encoding. *)
Lemma zlen_flat_map_elem {A} (f : A -> list Z) (l : list A) (x : A) :
  x ∈ l -> zlen (f x) <= zlen (flat_map f l).
Proof.
  induction 1 as [x l|x y l Hin IH]; cbn [flat_map]; rewrite zlen_app; [zlia|].
  pose proof (zlen_nonneg (f y)). lia.
Qed.

Lemma zlen_varstr_ge (bs : list Z) : zlen bs <= zlen (varstr_bytes bs).
Proof. unfold varstr_bytes. rewrite zlen_app. zlia. Qed.

Lemma enc_tx_parts (w : bool) (a : atx) :
  zlen (enc_tx w a) < 2 ^ 30 ->
  Forall (fun t => zlen (t_sig t) < 2 ^ 30) (a_ins a) /\ Forall (fun t => zlen (t_pk t) < 2 ^ 30) (a_outs a) /\
  (w && a_has_witness a = true ->
   Forall (fun t => zlen (t_wit t) < 2 ^ 30 /\ Forall (fun x => zlen x < 2 ^ 30) (t_wit t)) (a_ins a)).
Proof.
  unfold enc_tx. rewrite !zlen_app. intros Hb.
  pose proof (zlen_nonneg (flat_map enc_in (a_ins a))). pose proof (zlen_nonneg (flat_map enc_out (a_outs a))).
  pose proof (zlen_nonneg (varlen_bytes (zlen (a_ins a)))). pose proof (zlen_nonneg (varlen_bytes (zlen (a_outs a)))).
  rewrite !zlen_le_bytes in Hb. split_and!.
  - apply list.Forall_forall. intros t Ht. pose proof (zlen_flat_map_elem enc_in _ _ Ht) as Hz.
    unfold enc_in in Hz at 1. rewrite !zlen_app in Hz. pose proof (zlen_varstr_ge (t_sig t)). repeat case_bool; zlia.
  - apply list.Forall_forall. intros t Ht. pose proof (zlen_flat_map_elem enc_out _ _ Ht) as Hz.
    unfold enc_out in Hz at 1. rewrite !zlen_app in Hz. pose proof (zlen_varstr_ge (t_pk t)). repeat case_bool; zlia.
  - intros E. rewrite E in Hb. apply list.Forall_forall. intros t Ht.
    pose proof (zlen_flat_map_elem enc_wit _ _ Ht) as Hz. unfold enc_wit in Hz at 1. rewrite zlen_app in Hz.
    pose proof (zlen_flat_map_ge varstr_bytes (t_wit t) zlen_varstr_pos).
    change (zlen [0; 1]) with 2 in Hb. pose proof (zlen_nonneg (varlen_bytes (zlen (t_wit t)))).
    split; [lia|]. apply list.Forall_forall. intros x Hx.
    pose proof (zlen_flat_map_elem varstr_bytes _ _ Hx). pose proof (zlen_varstr_ge x). lia.
Qed.

Lemma deser_body_app (w ext : bool) (a : atx) (inlen : Z) (rest : list Z) :
  atx_ok a -> zlen (enc_tx w a) < 2 ^ 30 -> ext = w && a_has_witness a ->
  exists x, deser_body inlen (mk_tx (a_version a) [] [] 0) (if ext then 1 else 0) (zlen (a_ins a))
      (flat_map enc_in (a_ins a) ++ varlen_bytes (zlen (a_outs a)) ++ flat_map enc_out (a_outs a) ++
       (if ext then flat_map enc_wit (a_ins a) else []) ++ le_bytes 4 (a_lock a) ++ rest) w =
    Ret (true, x, inlen - zlen rest) /\ rep_tx x (seen w a).
Proof.
  intros (Hv & Hlk & Hin & Hout) Hb Hext.
  destruct (enc_tx_parts w a Hb) as (Hs & Hp & Hw). pose proof (enc_tx_counts w a).
  pose proof (zlen_nonneg (a_ins a)). pose proof (zlen_nonneg (a_outs a)).
  rewrite list.Forall_forall in Hin. rewrite list.Forall_forall in Hout.
  rewrite list.Forall_forall in Hs. rewrite list.Forall_forall in Hp. unfold deser_body. cbn [vin].
  replace (Z.to_nat (zlen (a_ins a))) with (length (a_ins a)) by (unfold zlen; lia).
  edestruct (deser_loop_app (fun i t => rep_in i (strip_in t)) (btc_tx_in_deserialize btc_tx_in_new) enc_in (a_ins a))
    as (ins & -> & Hri); [intros t c Ht; apply deser_in_app; auto|].
  cbn [mbind outcome_bind negb app]. rewrite deser_varlen_app by lia. cbn [with_vin vout].
  replace (Z.to_nat (zlen (a_outs a))) with (length (a_outs a)) by (unfold zlen; lia).
  edestruct (deser_loop_app rep_out (btc_tx_out_deserialize btc_tx_out_new) enc_out (a_outs a))
    as (outs & -> & Hro); [intros t c Ht; apply deser_out_app; auto|].
  cbn [mbind outcome_bind negb app with_vout with_vin vin version vout locktime].
  assert (Forall2 rep_in ins (strip_in <$> a_ins a)) as Hri' by by apply Forall2_fmap_r.
  destruct ext.
  - symmetry in Hext. specialize (Hw Hext). apply andb_true_iff in Hext as [-> _].
    cbn [Z.odd andb]. destruct (deser_witnesses_app (a_ins a) ins (le_bytes 4 (a_lock a) ++ rest) Hri' Hw)
      as (ins' & -> & Hi'). cbn [mbind outcome_bind negb Z.eqb Z.lxor Pos.lxor].
    rewrite deser_u32_app by done. eexists. split; [done|]. by constructor.
  - cbn [Z.odd andb mbind outcome_bind negb Z.eqb app]. rewrite deser_u32_app by done.
    eexists. split; [done|]. constructor; cbn; try done. destruct w; [|done].
    symmetry in Hext. cbn in Hext. by rewrite <- (no_witness_strip a Hext).
Qed.

Lemma deser_tx_app (w : bool) (a : atx) (rest : list Z) :
  atx_ok a -> zlen (enc_tx w a) < 2 ^ 30 -> (w = true -> a_ins a <> []) ->
  exists x, btc_tx_deserialize (enc_tx w a ++ rest) btc_tx_new w = Ret (true, x, zlen (enc_tx w a)) /\
    rep_tx x (seen w a).
Proof.
  intros Hok Hb Hne. destruct (deser_body_app w (w && a_has_witness a) a (zlen (enc_tx w a ++ rest)) rest Hok Hb eq_refl)
    as (x & E & Hx). exists x. split; [|done].
  replace (zlen (enc_tx w a ++ rest) - zlen rest) with (zlen (enc_tx w a)) in E by (rewrite zlen_app; lia).
  rewrite <- E. clear E Hx x. unfold btc_tx_deserialize. set (inlen := zlen (enc_tx w a ++ rest)).
  pose proof (enc_tx_counts w a). pose proof (zlen_nonneg (a_ins a)). pose proof (zlen_nonneg (a_outs a)).
  destruct Hok as (Hv & _). unfold enc_tx. rewrite <- !app_assoc, deser_s32_app by done.
  cbn [vin vout locktime btc_tx_new]. destruct (w && a_has_witness a) eqn:Hext.
  - apply andb_true_iff in Hext as [-> _]. change ([0; 1] ++ ?l) with (varlen_bytes 0 ++ [1] ++ l).
    rewrite deser_varlen_app by lia. cbn [Z.eqb andb]. rewrite deser_bytes_app by done.
    cbn [le_val Z.eqb Z.add Z.mul negb]. rewrite deser_varlen_app by lia. done.
  - cbn [app]. rewrite deser_varlen_app by lia.
    assert ((zlen (a_ins a) =? 0) && w = false) as ->.
    { destruct w; [|apply andb_false_r]. destruct (a_ins a) as [|i l]; [by specialize (Hne eq_refl)|].
      rewrite zlen_cons, andb_true_r. apply Z.eqb_neq. zlia. }
    cbn [Z.eqb negb]. done.
Qed.

(** ** Hashing serialisations *)

Definition dsha (d : list Z) : list Z := @sha_spec sha256 (@sha_spec sha256 d).

Lemma sha256_Raw_spec (d : list Z) : is_bytes d -> zlen d < 2 ^ 61 -> sha256_Raw d = @sha_spec sha256 d.
Proof. intros Hb Hl. by apply (@Raw_spec sha256 sha256_laws). Qed.

Lemma sha256_spec_zlen (d : list Z) : zlen (@sha_spec sha256 d) = 32.
Proof. unfold zlen. by rewrite (@sha_spec_length sha256 sha256_laws). Qed.

Lemma double_sha (d : list Z) : is_bytes d -> zlen d < 2 ^ 61 -> sha256_Raw (sha256_Raw d) = dsha d.
Proof.
  intros Hb Hl. rewrite (sha256_Raw_spec d) by done. apply sha256_Raw_spec; [apply sha_spec_bytes|].
  by rewrite sha256_spec_zlen.
Qed.

Lemma dsha_ok (d : list Z) : zlen (dsha d) = 32 /\ is_bytes (dsha d).
Proof. split; [apply sha256_spec_zlen|apply sha_spec_bytes]. Qed.

(** Writing to a fresh string and taking its bytes. *)
Lemma new_sz_ok (k : Z) : 0 <= k < 2 ^ 30 -> exists s, new_sz k = Some s /\ cstr_wf s /\ cstr_cells s = [] /\ len s = 0.
Proof.
  intros Hk. unfold new_sz. destruct (cstr_new_sz_spec k Hk) as [(s & -> & Hwf & Hl & _)|(_ & m & ?)]; [|done].
  exists s. split_and!; try done. unfold cstr_cells. by rewrite Hl.
Qed.

Lemma holds_bytes (s : cstring) (bs : list Z) : cstr_holds s bs -> cstr_bytes s = Some bs.
Proof. intros H. unfold cstr_bytes. rewrite H. apply cells_val_fmap. Qed.

Lemma fresh_writes (k : Z) (g : cstring -> option cstring) (bs : list Z) :
  0 <= k < 2 ^ 30 -> Appends g bs -> zlen bs < 2 ^ 30 ->
  exists s s', new_sz k = Some s /\ g s = Some s' /\ cstr_wf s' /\ cstr_holds s' bs /\ cstr_bytes s' = Some bs.
Proof.
  intros Hk Hg Hl. destruct (new_sz_ok k Hk) as (s & Hs & Hwf & Hc & Hlen).
  destruct (Hg s Hwf) as (s' & E & Hwf' & Hc'); [lia|].
  assert (cstr_holds s' bs) as Hh by (unfold cstr_holds; by rewrite Hc', Hc).
  exists s, s'. split_and!; try done. by apply holds_bytes.
Qed.

Lemma varlen_is_bytes (k : Z) : 0 <= k -> is_bytes (varlen_bytes k).
Proof.
  intros. unfold varlen_bytes. repeat case_bool; reflect_bools; apply is_bytes_cons; auto with libbtc;
    unfold is_byte; lia.
Qed.

Lemma varstr_is_bytes (bs : list Z) : is_bytes bs -> is_bytes (varstr_bytes bs).
Proof. intros. apply is_bytes_app. split; [apply varlen_is_bytes, zlen_nonneg|done]. Qed.

Lemma flat_map_is_bytes {A} (f : A -> list Z) (l : list A) :
  Forall (fun x => is_bytes (f x)) l -> is_bytes (flat_map f l).
Proof.
  induction 1 as [|x l Hx Hl IH]; [apply is_bytes_nil|]. cbn [flat_map]. by apply is_bytes_app.
Qed.

Lemma enc_in_bytes (t : tin) : tin_ok t -> is_bytes (enc_in t).
Proof.
  intros (_ & ? & _ & _ & ? & _). unfold enc_in.
  repeat (apply is_bytes_app; split); auto using varlen_is_bytes, zlen_nonneg with libbtc.
Qed.

Lemma enc_out_bytes (t : tout) : tout_ok t -> is_bytes (enc_out t).
Proof. intros (_ & ?). unfold enc_out. apply is_bytes_app; auto using varstr_is_bytes with libbtc. Qed.

Lemma enc_tx_bytes (a : atx) : atx_ok a -> is_bytes (enc_tx false a).
Proof.
  intros (_ & _ & Hi & Ho). unfold enc_tx. cbn [andb].
  repeat (apply is_bytes_app; split); auto using varlen_is_bytes, zlen_nonneg with libbtc.
  - apply flat_map_is_bytes. eapply list.Forall_impl; [exact Hi|exact enc_in_bytes].
  - apply flat_map_is_bytes. eapply list.Forall_impl; [exact Ho|exact enc_out_bytes].
Qed.

Lemma tx_hash_spec (x : btc_tx) (a : atx) :
  rep_tx x a -> atx_ok a -> zlen (enc_tx false a) < 2 ^ 30 -> btc_tx_hash x = Some (dsha (enc_tx false a)).
Proof.
  intros R Hok Hl. unfold btc_tx_hash.
  destruct (fresh_writes 1024 _ _ ltac:(lia) (appends_tx x a false R Hok) Hl) as (s & s' & -> & E & _ & _ & Hb).
  cbn [mbind option_bind]. rewrite E. cbn [mbind option_bind]. rewrite Hb. cbn [mbind option_bind].
  rewrite double_sha; [done|by apply enc_tx_bytes|lia].
Qed.

(** ** Copies *)

Lemma wf_len_bound (c : cstring) : cstr_wf c -> len c < 2 ^ 30.
Proof.
  intros [_ [[_ ->]|((k & Hk & Ha) & Hl & _)]]; [lia|]. rewrite Ha in Hl.
  pose proof (Z.pow_le_mono_r 2 k 30). lia.
Qed.

Lemma copy_str_spec (c : option cstring) (bs : list Z) :
  str_field c bs -> exists c', copy_str c = Some c' /\ str_field c' bs /\ (is_Some c -> is_Some c').
Proof.
  destruct c as [c|]; [|intros ->; by exists None]. intros [Hwf Hh].
  pose proof (wf_len_bound c Hwf). pose proof (cstr_wf_len c Hwf).
  destruct (new_sz_ok (len c)) as (d & E & Hd & Hc & Hl); [lia|].
  destruct (cstr_append_buf_correct d (cstr_cells c)) as [d' [(E' & Hd' & Hc' & _)|(_ & m & ?)]];
    [done|rewrite cstr_cells_zlen by done; lia| |done].
  exists (Some d'). cbn [copy_str]. rewrite E. cbn [mbind option_bind]. rewrite E'.
  cbn [mbind option_bind]. split_and!; [done| |by eexists]. split; [done|].
  unfold cstr_holds. by rewrite Hc', Hc, Hh.
Qed.

Lemma copy_items_spec (ws : list cstring) (bs : list (list Z)) :
  Forall2 rep_str ws bs -> exists ws', mapM (fun item => o ← cstr_new_cstr item; o) ws = Some ws' /\ Forall2 rep_str ws' bs.
Proof.
  induction 1 as [|w b ws bs [Hwf Hh] Hws IH]; [by exists []|]. destruct IH as (ws' & E & Hws').
  cbn [mapM].
  destruct (cstr_new_buf_wf (cstr_cells w)) as [(w' & Ew & Hwf' & Hc)|(_ & m & ?)];
    [rewrite cstr_cells_zlen by done; by apply wf_len_bound| |done].
  change (cstr_new_cstr w) with (cstr_new_buf (cstr_cells w)). rewrite Ew.
  cbn [mbind option_bind]. rewrite E. cbn [mbind option_bind]. eexists. split; [done|].
  constructor; [|done]. split; [done|]. unfold cstr_holds. by rewrite Hc.
Qed.

(** Elementwise copies of related lists are related. *)
Lemma mapM_rep {A B} (P : A -> B -> Prop) (f : A -> option A) (l : list A) (k : list B) :
  Forall2 P l k -> (forall x y, P x y -> exists x', f x = Some x' /\ P x' y) ->
  exists l', mapM f l = Some l' /\ Forall2 P l' k.
Proof.
  intros H Hf. induction H as [|x y l k Hxy Hlk IH]; [by exists []|].
  destruct IH as (l' & E & Hl'), (Hf x y Hxy) as (x' & Ex & Hx'). cbn [mapM]. rewrite Ex.
  cbn [mbind option_bind]. rewrite E. cbn [mbind option_bind]. eexists. split; [done|by constructor].
Qed.

Definition rep_in_sig (i : btc_tx_in) (t : tin) : Prop := rep_in i t /\ is_Some (script_sig i).

Lemma copy_in_spec (i : btc_tx_in) (t : tin) :
  rep_in i t -> exists i', btc_tx_in_copy i = Some i' /\ rep_in i' t /\ (is_Some (script_sig i) -> is_Some (script_sig i')).
Proof.
  intros [R1 R2 R3 R4 R5]. unfold btc_tx_in_copy.
  destruct (copy_str_spec _ _ R3) as (c & -> & Hc & Hs), (copy_items_spec _ _ R5) as (ws & E & Hws).
  cbn [mbind option_bind]. rewrite E. cbn [mbind option_bind]. eexists. split; [done|]. by split.
Qed.

Lemma copy_out_spec (o : btc_tx_out) (t : tout) :
  rep_out o t -> exists o', btc_tx_out_copy o = Some o' /\ rep_out o' t.
Proof.
  intros [R1 R2]. unfold btc_tx_out_copy. destruct (copy_str_spec _ _ R2) as (c & -> & Hc & _).
  cbn [mbind option_bind]. eexists. split; [done|]. by constructor.
Qed.

Lemma copy_tx_spec (d x : btc_tx) (a : atx) :
  rep_tx x a -> exists x', btc_tx_copy d x = Some x' /\ rep_tx x' a /\
    (Forall (fun i => is_Some (script_sig i)) (vin x) -> Forall2 rep_in_sig (vin x') (a_ins a)).
Proof.
  intros [R1 R2 R3 R4]. unfold btc_tx_copy.
  destruct (mapM_rep rep_out btc_tx_out_copy _ _ R4 copy_out_spec) as (outs & Eo & Ho).
  assert (exists ins, mapM btc_tx_in_copy (vin x) = Some ins /\ Forall2 rep_in ins (a_ins a) /\
    (Forall (fun i => is_Some (script_sig i)) (vin x) -> Forall2 rep_in_sig ins (a_ins a))) as (ins & -> & Hi & Hs).
  { clear -R3. induction R3 as [|i t l k Hit Hlk IH]; [by exists []|]. destruct IH as (l' & E & Hl' & Hs').
    destruct (copy_in_spec i t Hit) as (i' & Ei & Hi' & His). cbn [mapM]. rewrite Ei. cbn [mbind option_bind].
    rewrite E. cbn [mbind option_bind]. eexists. split_and!; [done|by constructor|].
    intros Hall. apply list.Forall_cons in Hall as [? ?]. constructor; [|by apply Hs']. split; auto. }
  cbn [mbind option_bind]. rewrite Eo. cbn [mbind option_bind]. eexists. split_and!; [done|by constructor|done].
Qed.

(** ** The legacy signature hash *)

Definition is_none (ht : Z) : bool := base_type ht =? SIGHASH_NONE.
Definition is_single (ht : Z) : bool := base_type ht =? SIGHASH_SINGLE.

Definition put_script (script : list Z) (signed : bool) (i : tin) : tin :=
  mk_tin (t_hash i) (t_n i) (if signed then script else []) (t_seq i) (t_wit i).
Definition put_seq (signed : bool) (i : tin) : tin :=
  if signed then i else mk_tin (t_hash i) (t_n i) (t_sig i) 0 (t_wit i).

(** What a signature commits to: the script only in the signed input, the
    sequences of the others unless all outputs are signed, and the inputs and
    outputs the hash type selects.  [None]: there is no output to sign. *)
Definition sig_ins (script : list Z) (in_num : nat) (ht : Z) (ins : list tin) : list tin :=
  let ins := imap (fun k => put_script script (k =? in_num)%nat) ins in
  let ins := if is_none ht || is_single ht then imap (fun k => put_seq (k =? in_num)%nat) ins else ins in
  if anyone ht then take 1 (drop in_num ins) else ins.

Definition sig_outs (in_num : nat) (ht : Z) (outs : list tout) : option (list tout) :=
  if is_none ht then Some []
  else if is_single ht then
    o ← outs !! in_num; Some (replicate in_num (mk_tout (-1) []) ++ [o])
  else Some outs.

Definition legacy_preimage (a : atx) (script : list Z) (in_num : nat) (ht : Z) : option (list Z) :=
  outs ← sig_outs in_num ht (a_outs a);
  Some (enc_tx false (mk_atx (a_version a) (sig_ins script in_num ht (a_ins a)) outs (a_lock a)) ++
        le_bytes 4 (u32 ht)).

Lemma blank_script_spec (ns : cstring) (script : list Z) (signed : bool) (i : btc_tx_in) (t : tin) :
  cstr_holds ns script -> zlen script < 2 ^ 30 -> rep_in_sig i t ->
  exists i', blank_script ns signed i = Some i' /\ rep_in i' (put_script script signed t).
Proof.
  intros Hns Hl [[R1 R2 R3 R4 R5] [c Hc]]. unfold blank_script. rewrite Hc in R3 |- *. destruct R3 as [Hwf _].
  pose proof (cstr_wf_len c Hwf). cbn [mbind option_bind].
  destruct (cstr_resize_shrink c 0) as (c0 & -> & Hwf0 & Hc0 & _); [done|lia|]. cbn [mbind option_bind].
  assert (len c0 = 0) as Hl0 by (rewrite <- (cstr_cells_zlen c0 Hwf0), Hc0; done).
  destruct signed; cbn [mbind option_bind].
  - destruct (cstr_append_buf_correct c0 (cstr_cells ns)) as [c1 [(-> & Hwf1 & Hc1 & _)|(_ & m & ?)]];
      [done|rewrite Hns, zlen_fmap; lia| |done].
    cbn [mbind option_bind]. eexists. split; [done|]. constructor; cbn; try done. split; [done|].
    unfold cstr_holds. by rewrite Hc1, Hc0, Hns.
  - eexists. split; [done|]. constructor; cbn; try done.
Qed.

Lemma blank_scripts_spec (ns : cstring) (script : list Z) (in_num k : nat) (ins : list btc_tx_in) (ts : list tin) :
  cstr_holds ns script -> zlen script < 2 ^ 30 -> Forall2 rep_in_sig ins ts ->
  exists ins', blank_scripts ns in_num k ins = Some ins' /\
    Forall2 rep_in ins' (imap (fun j => put_script script (k + j =? in_num)%nat) ts).
Proof.
  intros Hns Hl Hr. revert k. induction Hr as [|i t l ts Hit Hlk IH]; intros k; [by exists []|].
  cbn [blank_scripts]. destruct (blank_script_spec ns script (k =? in_num)%nat i t Hns Hl Hit) as (i' & -> & Hi').
  cbn [mbind option_bind]. destruct (IH (S k)) as (l' & -> & Hl'). cbn [mbind option_bind].
  eexists. split; [done|]. rewrite imap_cons, Nat.add_0_r. constructor; [done|].
  erewrite imap_ext; [exact Hl'|]. intros j x _. cbn. by rewrite Nat.add_succ_r.
Qed.

Lemma zero_sequences_spec (in_num : nat) (ins : list btc_tx_in) (ts : list tin) :
  Forall2 rep_in ins ts ->
  Forall2 rep_in (zero_sequences in_num ins) (imap (fun k => put_seq (k =? in_num)%nat) ts).
Proof.
  intros Hr. unfold zero_sequences. revert in_num.
  assert (forall f g, (forall k i t, rep_in i t -> rep_in (f k i) (g k t)) -> forall k,
    Forall2 rep_in (imap (fun j => f (k + j)%nat) ins) (imap (fun j => g (k + j)%nat) ts)) as K.
  { intros f g Hfg. induction Hr as [|i t l k' Hit Hlk IH]; intros k; [constructor|].
    rewrite !imap_cons, !Nat.add_0_r. constructor; [by apply Hfg|].
    erewrite (imap_ext _ (fun j => f (S k + j)%nat)), (imap_ext (_ ∘ S) (fun j => g (S k + j)%nat)); [apply IH| |];
      intros j x _; cbn; by rewrite Nat.add_succ_r. }
  intros in_num. apply (K (fun k i => if (k =? in_num)%nat then i else zero_sequence i)
    (fun k => put_seq (k =? in_num)%nat)) with (k := 0%nat).
  intros k i t Hit. destruct (k =? in_num)%nat; cbn [put_seq]; [done|].
  destruct Hit. by constructor.
Qed.

Lemma sig_outs_spec (in_num : nat) (ht : Z) (outs : list btc_tx_out) (ts : list tout) (ins : list btc_tx_in) :
  Forall2 rep_out outs ts ->
  (if is_none ht then Ret (ins, [])
   else if is_single ht then
     if (length outs <=? in_num)%nat then Fail
     else Ret (ins, replicate in_num blank_out ++ take 1 (drop in_num outs))
   else Ret (ins, outs)) = (match sig_outs in_num ht ts with None => Fail | Some _ => Ret (ins,
     if is_none ht then [] else if is_single ht then replicate in_num blank_out ++ take 1 (drop in_num outs) else outs) end) /\
  forall ts', sig_outs in_num ht ts = Some ts' ->
    Forall2 rep_out (if is_none ht then [] else if is_single ht
      then replicate in_num blank_out ++ take 1 (drop in_num outs) else outs) ts'.
Proof.
  intros Hr. pose proof (Forall2_length Hr) as Hlen. unfold sig_outs.
  destruct (is_none ht); [split; [done|]; intros ts' [= <-]; constructor|].
  destruct (is_single ht); [|split; [done|]; by intros ts' [= <-]].
  destruct (ts !! in_num) as [t|] eqn:E.
  - apply lookup_lt_Some in E as Hlt. cbn [mbind option_bind].
    split; [by rewrite (proj2 (Nat.leb_gt _ _)) by lia|]. intros ts' [= <-].
    destruct (lookup_lt_is_Some_2 outs in_num) as [o Eo]; [lia|].
    rewrite (drop_S outs o in_num Eo). cbn [take]. rewrite take_0. apply Forall2_app.
    + clear. induction in_num; constructor; [|done]. by constructor.
    + constructor; [|constructor]. by eapply Forall2_lookup_lr.
  - apply lookup_ge_None_1 in E. cbn [mbind option_bind]. split; [|done].
    by rewrite (proj2 (Nat.leb_le _ _)) by lia.
Qed.

(** The script code, without its code separators. *)
Lemma copy_script_spec (from : cstring) (ops : list btc_script_op) :
  rep_str from (flat_map op_bytes ops) -> Forall op_wf ops -> Forall copyable ops ->
  exists ns0 r ns, new_sz (len from) = Some ns0 /\ cstr_bytes from = Some (flat_map op_bytes ops) /\
    btc_script_copy_without_op_codeseperator (flat_map op_bytes ops) ns0 = Some (r, ns) /\
    cstr_holds ns (flat_map op_bytes (List.filter kept ops)).
Proof.
  intros [Hwf Hh] Hops Hc. pose proof (cstr_wf_len from Hwf). pose proof (wf_len_bound from Hwf) as Hb.
  destruct (new_sz_ok (len from)) as (ns0 & E & Hwf0 & Hc0 & Hl0); [lia|]. exists ns0.
  rewrite (cstr_holds_len from _ Hwf Hh) in Hb.
  assert (cstr_bytes from = Some (flat_map op_bytes ops)) as Eb by by apply holds_bytes.
  destruct (decide (ops = [])) as [->|Hne].
  - exists false, ns0. split_and!; try done.
  - destruct (copy_kept ops ns0 Hne Hops Hc Hwf0) as (ns & En & _ & Hn); [lia|].
    exists true, ns. split_and!; try done. unfold cstr_holds. by rewrite Hn, Hc0.
Qed.

Lemma sig_ins_spec (ns : cstring) (script : list Z) (in_num : nat) (ht : Z) (ins : list btc_tx_in) (ts : list tin) :
  cstr_holds ns script -> zlen script < 2 ^ 30 -> Forall2 rep_in_sig ins ts ->
  exists ins', blank_scripts ns in_num 0 ins = Some ins' /\
    Forall2 rep_in (let l := if is_none ht || is_single ht then zero_sequences in_num ins' else ins' in
                    if anyone ht then take 1 (drop in_num l) else l) (sig_ins script in_num ht ts).
Proof.
  intros Hns Hl Hr. destruct (blank_scripts_spec ns script in_num 0 ins ts Hns Hl Hr) as (ins' & E & Hi).
  exists ins'. split; [done|]. unfold sig_ins. cbv zeta.
  assert (Forall2 rep_in (if is_none ht || is_single ht then zero_sequences in_num ins' else ins')
    (if is_none ht || is_single ht then imap (fun k => put_seq (k =? in_num)%nat)
       (imap (fun k => put_script script (k =? in_num)%nat) ts)
     else imap (fun k => put_script script (k =? in_num)%nat) ts)) as H
    by (destruct (_ || _); [by apply zero_sequences_spec|done]).
  destruct (anyone ht); [|done]. by apply Forall2_take, Forall2_drop.
Qed.

Lemma imap_ok (f : nat -> tin -> tin) (ts : list tin) :
  (forall k t, tin_ok t -> tin_ok (f k t)) -> Forall tin_ok ts -> Forall tin_ok (imap f ts).
Proof.
  intros Hf Ht. revert f Hf. induction Ht as [|t ts Hok Hts IH]; intros f Hf; [constructor|].
  rewrite imap_cons. constructor; [by apply Hf|]. apply IH. intros k x. apply Hf.
Qed.

Lemma legacy_ok (a : atx) (script : list Z) (in_num : nat) (ht : Z) (outs : list tout) :
  atx_ok a -> is_bytes script -> sig_outs in_num ht (a_outs a) = Some outs ->
  atx_ok (mk_atx (a_version a) (sig_ins script in_num ht (a_ins a)) outs (a_lock a)).
Proof.
  intros (Hv & Hl & Hi & Ho) Hs Hso. split; [done|]. split; [done|].
  cbn [a_ins a_outs]. split.
  - unfold sig_ins. cbv zeta.
    assert (Forall tin_ok (imap (fun k => put_script script (k =? in_num)%nat) (a_ins a))) as H1.
    { apply imap_ok; [|done]. intros k t (? & ? & ? & ? & ? & ?). unfold put_script.
      split_and!; cbn; try done; try lia. case_bool; auto with libbtc. }
    assert (Forall tin_ok (imap (fun k => put_seq (k =? in_num)%nat)
      (imap (fun k => put_script script (k =? in_num)%nat) (a_ins a)))) as H2.
    { apply imap_ok; [|done]. intros k t (? & ? & ? & ? & ? & ?). unfold put_seq. case_bool;
        split_and!; cbn; try done; lia. }
    destruct (is_none ht || is_single ht), (anyone ht); auto using Forall_take, Forall_drop.
  - unfold sig_outs in Hso. destruct (is_none ht); [injection Hso as <-; constructor|].
    destruct (is_single ht); [|by injection Hso as <-].
    destruct (a_outs a !! in_num) as [o|] eqn:E; [|done]. injection Hso as <-. apply Forall_app. split.
    + apply Forall_replicate. split; cbn; [lia|constructor].
    + constructor; [|constructor]. by eapply Forall_lookup_1.
Qed.

Lemma sighash_base_spec (x : btc_tx) (a : atx) (from : cstring) (ops : list btc_script_op)
    (in_num : nat) (ht : Z) :
  rep_tx x a -> Forall2 rep_in_sig (vin x) (a_ins a) -> atx_ok a ->
  rep_str from (flat_map op_bytes ops) -> Forall op_wf ops -> Forall copyable ops ->
  let script := flat_map op_bytes (List.filter kept ops) in
  zlen script < 2 ^ 30 ->
  match legacy_preimage a script in_num ht with
  | None => sighash_base x from in_num ht = Fail
  | Some bs => zlen bs < 2 ^ 30 ->
      exists s, sighash_base x from in_num ht = Ret s /\ cstr_bytes s = Some bs /\ is_bytes bs
  end.
Proof.
  intros [Rv Rl _ Ro] Hri Hok Hfrom Hops Hc script Hsl. unfold sighash_base.
  destruct (copy_script_spec from ops Hfrom Hops Hc) as (ns0 & r & ns & -> & -> & E & Hns).
  cbn [total mbind outcome_bind]. rewrite E. cbn [total mbind outcome_bind].
  destruct (sig_ins_spec ns script in_num ht (vin x) (a_ins a) Hns Hsl Hri) as (ins' & -> & Hins).
  cbn [total mbind outcome_bind]. fold (is_none ht) (is_single ht).
  set (insz := if is_none ht || is_single ht then zero_sequences in_num ins' else ins') in *.
  destruct (sig_outs_spec in_num ht (vout x) (a_outs a) insz Ro) as [Eo Ho].
  match goal with |- context [mbind _ ?e] => replace e with
    (match sig_outs in_num ht (a_outs a) with None => Fail | Some _ => Ret (insz,
     if is_none ht then [] else if is_single ht
     then replicate in_num blank_out ++ take 1 (drop in_num (vout x)) else vout x) end)
    by (rewrite <- Eo; unfold insz; by destruct (is_none ht), (is_single ht)) end.
  unfold legacy_preimage. destruct (sig_outs in_num ht (a_outs a)) as [outs|] eqn:Es; [|done].
  cbn [mbind option_bind outcome_bind]. intros Hl. specialize (Ho outs eq_refl).
  set (a' := mk_atx (a_version a) (sig_ins script in_num ht (a_ins a)) outs (a_lock a)) in *.
  assert (is_bytes script) as Hsb.
  { apply flat_map_op_bytes. clear -Hops. induction Hops as [|o l Ho Hl IH]; [constructor|].
    cbn [List.filter]. destruct (kept o); [by constructor|done]. }
  assert (atx_ok a') as Hok' by by apply legacy_ok.
  assert (Appends (fun s => s ← btc_tx_serialize s (mk_tx (version x) (if anyone ht then take 1 (drop in_num insz) else insz)
      (if is_none ht then [] else if is_single ht
       then replicate in_num blank_out ++ take 1 (drop in_num (vout x)) else vout x) (locktime x)) false; ser_s32 s ht)
    (enc_tx false a' ++ le_bytes 4 (u32 ht))) as Happ
    by (apply appends_bind; [apply appends_tx; [by constructor|done]|apply appends_s32]).
  destruct (fresh_writes 512 _ _ ltac:(lia) Happ Hl) as (s & s' & -> & Ew & _ & _ & Hb).
  cbn [total mbind outcome_bind]. revert Ew. destruct (btc_tx_serialize s _ false) as [s1|]; [|done].
  cbn [total mbind option_bind outcome_bind]. intros ->. exists s'. split_and!; [done|done|].
  apply is_bytes_app. split; [by apply enc_tx_bytes|auto with libbtc].
Qed.

(** ** The segwit signature hash *)

Definition zeros32 : list Z := replicate 32 0.
Definition enc_outpoint (i : tin) : list Z := t_hash i ++ le_bytes 4 (t_n i).
Definition hash_prevouts (a : atx) : list Z := dsha (flat_map enc_outpoint (a_ins a)).
Definition hash_sequences (a : atx) : list Z := dsha (flat_map (fun i => le_bytes 4 (t_seq i)) (a_ins a)).
Definition hash_outputs (a : atx) : list Z := dsha (flat_map enc_out (a_outs a)).

(** The layout of BIP 143 around a given hash of the outputs. *)
Definition segwit_layout (a : atx) (i : tin) (script : list Z) (amount ht : Z) (outs : list Z) : list Z :=
  le_bytes 4 (u32 (a_version a)) ++
  (if anyone ht then zeros32 else hash_prevouts a) ++
  (if anyone ht || is_single ht || is_none ht then zeros32 else hash_sequences a) ++
  enc_outpoint i ++ varstr_bytes script ++ le_bytes 8 amount ++ le_bytes 4 (t_seq i) ++
  outs ++ le_bytes 4 (a_lock a) ++ le_bytes 4 (u32 ht).

(** The outputs BIP 143 commits to: all, the one with the index of the input,
    or none. *)
Definition bip143_outputs (a : atx) (in_num : nat) (ht : Z) : list Z :=
  if is_single ht then
    match a_outs a !! in_num with Some o => dsha (enc_out o) | None => zeros32 end
  else if is_none ht then zeros32 else hash_outputs a.

(** The outputs the code commits to. *)
Definition code_outputs (a : atx) (ht : Z) : list Z :=
  if (is_single ht || is_none ht) && anyone ht then zeros32 else hash_outputs a.

Definition segwit_preimage (a : atx) (i : tin) (script : list Z) (amount ht : Z) : list Z :=
  segwit_layout a i script amount ht (code_outputs a ht).
Definition bip143_preimage (a : atx) (i : tin) (script : list Z) (in_num : nat) (amount ht : Z) : list Z :=
  segwit_layout a i script amount ht (bip143_outputs a in_num ht).

(** A hash over the concatenation of one encoding per element. *)
Lemma list_hash_spec {A B} (P : A -> B -> Prop) (f : A -> cstring -> option cstring) (enc : B -> list Z)
    (l : list A) (k : list B) :
  Forall2 P l k -> (forall x y, P x y -> y ∈ k -> Appends (f x) (enc y) /\ is_bytes (enc y)) ->
  zlen (flat_map enc k) < 2 ^ 30 ->
  (s ← new_sz 512; s ← for_each f l s; d ← cstr_bytes s; Some (btc_hash d)) = Some (dsha (flat_map enc k)).
Proof.
  intros Hr Hf Hl.
  assert (Appends (for_each f l) (flat_map enc k)) as Happ
    by (apply (appends_for_each2 P); [done|]; intros x y Hxy Hy; by apply (Hf x y)).
  destruct (fresh_writes 512 _ _ ltac:(lia) Happ Hl) as (s & s' & -> & E & _ & _ & Hb).
  cbn [mbind option_bind]. rewrite E. cbn [mbind option_bind]. rewrite Hb. cbn [mbind option_bind].
  unfold btc_hash. rewrite double_sha; [done| |lia]. apply flat_map_is_bytes, list.Forall_forall.
  intros y Hy. apply list_elem_of_lookup_1 in Hy as Hi. destruct Hi as [j Hj].
  destruct (Forall2_lookup_r _ _ _ _ _ Hr Hj) as (x & _ & Hxy). by apply (Hf x y).
Qed.

Section Segwit.
Variables (x : btc_tx) (a : atx).
Hypothesis R : rep_tx x a.
Hypothesis Hok : atx_ok a.
Hypothesis Hsize : zlen (enc_tx false a) < 2 ^ 30.

Lemma enc_tx_shares :
  zlen (flat_map enc_in (a_ins a)) < 2 ^ 30 /\ zlen (flat_map enc_out (a_outs a)) < 2 ^ 30.
Proof. revert Hsize. unfold enc_tx. cbn [andb]. rewrite !zlen_app, !zlen_le_bytes. zlen_pos. lia. Qed.

Lemma flat_map_zlen_le {A} (f g : A -> list Z) (l : list A) :
  (forall y, zlen (f y) <= zlen (g y)) -> zlen (flat_map f l) <= zlen (flat_map g l).
Proof.
  intros Hfg. induction l as [|y l IH]; [done|]. cbn [flat_map]. rewrite !zlen_app. specialize (Hfg y). lia.
Qed.

Lemma in_ok (t : tin) : t ∈ a_ins a -> tin_ok t.
Proof. destruct Hok as (_ & _ & Hi & _). rewrite list.Forall_forall in Hi. apply Hi. Qed.

Lemma prevout_hash_spec : btc_tx_prevout_hash x = Some (hash_prevouts a).
Proof.
  apply (list_hash_spec rep_in); [apply R| |].
  - intros i t [R1 R2 _ _ _] Ht. destruct (in_ok t Ht) as (Hh & Hb & _).
    rewrite R1, R2. unfold enc_outpoint. split; [|apply is_bytes_app; auto with libbtc].
    apply appends_bind; [by apply appends_u256|apply appends_u32].
  - destruct enc_tx_shares as [H _]. eapply Z.le_lt_trans; [|exact H]. apply flat_map_zlen_le.
    intros t. unfold enc_outpoint, enc_in. zlia.
Qed.

Lemma sequence_hash_spec : btc_tx_sequence_hash x = Some (hash_sequences a).
Proof.
  apply (list_hash_spec rep_in); [apply R| |].
  - intros i t [_ _ _ R4 _] Ht. rewrite R4. split; [apply appends_u32|auto with libbtc].
  - destruct enc_tx_shares as [H _]. eapply Z.le_lt_trans; [|exact H]. apply flat_map_zlen_le.
    intros t. unfold enc_in. zlia.
Qed.

Lemma outputs_hash_spec : btc_tx_outputs_hash x = Some (hash_outputs a).
Proof.
  apply (list_hash_spec rep_out); [apply R| |apply enc_tx_shares].
  intros o t Ho Ht. destruct Hok as (_ & _ & _ & Hos). rewrite list.Forall_forall in Hos.
  split; [by apply appends_out|]. by apply enc_out_bytes, Hos.
Qed.

Lemma single_out_defined (in_num : nat) :
  (in_num < length (vout x))%nat ->
  exists s1 o s2 d, new_sz 512 = Some s1 /\ vout x !! in_num = Some o /\ btc_tx_out_serialize o s1 = Some s2 /\
    cstr_bytes s2 = Some d.
Proof.
  intros Hlt. destruct (lookup_lt_is_Some_2 _ _ Hlt) as [o Ho].
  destruct (Forall2_lookup_l _ _ _ _ _ (rt_outs _ _ R) Ho) as (t & Ht & Hot).
  assert (zlen (enc_out t) < 2 ^ 30) as Hl.
  { destruct enc_tx_shares as [_ H]. eapply Z.le_lt_trans; [|exact H].
    apply zlen_flat_map_elem. by eapply list_elem_of_lookup_2. }
  destruct (fresh_writes 512 _ _ ltac:(lia) (appends_out o t Hot) Hl) as (s1 & s2 & E1 & E2 & _ & _ & E3).
  by exists s1, o, s2, (enc_out t).
Qed.

Lemma dsha_field (d : list Z) : Appends (fun s => ser_u256 s (dsha d)) (dsha d).
Proof. apply appends_u256, dsha_ok. Qed.

Lemma zeros_field : Appends (fun s => ser_u256 s btc_hash_clear) zeros32.
Proof. by apply appends_u256. Qed.

Lemma sighash_witness_spec (from : cstring) (script : list Z) (in_num : nat) (i : btc_tx_in) (t : tin) (ht amount : Z) :
  rep_str from script -> is_bytes script -> vin x !! in_num = Some i -> a_ins a !! in_num = Some t ->
  zlen (segwit_preimage a t script amount ht) < 2 ^ 30 ->
  exists s, sighash_witness x from in_num ht amount = Some s /\
    cstr_bytes s = Some (segwit_preimage a t script amount ht).
Proof.
  intros Hfrom Hsb Hi Ht Hl. unfold sighash_witness. fold (is_single ht) (is_none ht).
  assert (rep_in i t) as [R1 R2 _ R4 _] by (eapply Forall2_lookup_lr; [apply R|done|done]).
  assert (tin_ok t) as (Hh & _) by (apply in_ok; by eapply list_elem_of_lookup_2).
  rewrite prevout_hash_spec, outputs_hash_spec, sequence_hash_spec.
  set (hp := if anyone ht then zeros32 else hash_prevouts a).
  set (hs := if anyone ht || is_single ht || is_none ht then zeros32 else hash_sequences a).
  assert (Appends (fun s => ser_u256 s hp) hp /\ Appends (fun s => ser_u256 s hs) hs /\
          Appends (fun s => ser_u256 s (code_outputs a ht)) (code_outputs a ht)) as (Ap & As & Ao).
  { unfold hp, hs, code_outputs. split_and!; case_bool; apply zeros_field || apply dsha_field. }
  assert (Appends (fun s => s ← ser_u32 s (u32 (version x)); s ← ser_u256 s hp; s ← ser_u256 s hs;
    s ← ser_u256 s (hash (prevout i)); s ← ser_u32 s (n (prevout i)); s ← ser_varstr s (Some from);
    s ← ser_u64 s amount; s ← ser_u32 s (sequence i); s ← ser_u256 s (code_outputs a ht);
    s ← ser_u32 s (locktime x); ser_s32 s ht) (segwit_preimage a t script amount ht)) as Happ.
  { unfold segwit_preimage, segwit_layout, enc_outpoint. fold hp hs. rewrite <- !app_assoc, R1, R2, R4.
    rewrite (rt_version _ _ R), (rt_lock _ _ R).
    apply appends_bind; [apply appends_u32|]. apply appends_bind; [exact Ap|]. apply appends_bind; [exact As|].
    apply appends_bind; [by apply appends_u256|]. apply appends_bind; [apply appends_u32|].
    apply appends_bind; [by apply (appends_varstr (Some from))|]. apply appends_bind; [apply appends_u64|].
    apply appends_bind; [apply appends_u32|]. apply appends_bind; [exact Ao|].
    apply appends_bind; [apply appends_u32|apply appends_s32]. }
  destruct (fresh_writes 512 _ _ ltac:(lia) Happ Hl) as (s & s' & Es & Ew & _ & _ & Hb).
  exists s'. split; [|done].
  assert ((if negb (anyone ht) then Some (hash_prevouts a) else Some btc_hash_clear) = Some hp) as ->
    by (unfold hp; by destruct (anyone ht)).
  assert ((if negb (anyone ht) && negb (is_single ht) && negb (is_none ht)
    then Some (hash_sequences a) else Some btc_hash_clear) = Some hs) as ->
    by (unfold hs; by destruct (anyone ht), (is_single ht), (is_none ht)).
  replace (if negb (anyone ht) then Some (hash_outputs a) else Some btc_hash_clear)
    with (Some (if anyone ht then zeros32 else hash_outputs a)) by (by destruct (anyone ht)).
  cbn [mbind option_bind].
  match goal with |- context [mbind ?k ?e] => assert (e = Some (code_outputs a ht)) as -> end.
  { unfold code_outputs. destruct (is_single ht) eqn:Es1; cbn [negb andb orb].
    - destruct (Nat.ltb_spec in_num (length (vout x))) as [Hlt|Hge]; [|by destruct (anyone ht)].
      destruct (single_out_defined in_num Hlt) as (s1 & o & s2 & d & -> & -> & E2 & E3).
      cbn [mbind option_bind]. rewrite E2. cbn [mbind option_bind]. rewrite E3. by destruct (anyone ht).
    - by destruct (is_none ht), (anyone ht). }
  cbn [mbind option_bind]. rewrite Es, Hi. exact Ew.
Qed.
End Segwit.

Lemma segwit_bytes (a : atx) (t : tin) (script : list Z) (amount ht : Z) (outs : list Z) :
  tin_ok t -> is_bytes script -> is_bytes outs -> is_bytes (segwit_layout a t script amount ht outs).
Proof.
  intros (_ & Ht & _) Hs Ho. unfold segwit_layout, enc_outpoint.
  assert (is_bytes zeros32) by (apply is_bytes_replicate; unfold is_byte; lia).
  repeat (apply is_bytes_app; split); auto using varlen_is_bytes, zlen_nonneg with libbtc;
    case_bool; auto; apply dsha_ok.
Qed.

(** ** Claims *)

Lemma sighash_legacy_eq (x : btc_tx) (a : atx) (from : cstring) (ops : list btc_script_op)
    (in_num : nat) (ht amount : Z)
    (R : rep_tx x a) (Hsig : Forall (fun i => is_Some (script_sig i)) (vin x)) (Hok : atx_ok a)
    (Hfrom : rep_str from (flat_map op_bytes ops)) (Hops : Forall op_wf ops) (Hc : Forall copyable ops)
    (Hl : zlen (default [] (legacy_preimage a (flat_map op_bytes (List.filter kept ops)) in_num ht)) +
          zlen (flat_map op_bytes (List.filter kept ops)) < 2 ^ 30) :
  btc_tx_sighash x from in_num ht amount SIGVERSION_BASE =
  if (length (a_ins a) <=? in_num)%nat then Fail else
  match legacy_preimage a (flat_map op_bytes (List.filter kept ops)) in_num ht with
  | Some bs => Ret (dsha bs)
  | None => Fail
  end.
Proof.
  unfold btc_tx_sighash. rewrite (Forall2_length (rt_ins _ _ R)).
  destruct (length (a_ins a) <=? in_num)%nat; [done|].
  destruct (copy_tx_spec btc_tx_new x a R) as (y & -> & Hy & Hys). specialize (Hys Hsig).
  cbn [total mbind outcome_bind]. zlen_pos.
  pose proof (sighash_base_spec y a from ops in_num ht Hy Hys Hok Hfrom Hops Hc) as Hspec. cbv zeta in Hspec.
  destruct (legacy_preimage a _ in_num ht) as [bs|]; cbn [default] in *; [|by rewrite Hspec by lia].
  destruct Hspec as (s & -> & Hb & Hbb); [lia|unfold id in *; lia|]. cbn [total mbind outcome_bind].
  rewrite Hb. cbn [total mbind outcome_bind]. rewrite double_sha; [done|done|unfold id in *; lia].
Qed.

(** Where all outputs are signed, the layout of the code is that of BIP 143. *)
Lemma segwit_preimage_all (a : atx) (t : tin) (script : list Z) (in_num : nat) (amount ht : Z) :
  is_single ht = false -> is_none ht = false ->
  segwit_preimage a t script amount ht = bip143_preimage a t script in_num amount ht.
Proof. unfold segwit_preimage, bip143_preimage, code_outputs, bip143_outputs. by intros -> ->. Qed.

Lemma sighash_segwit_eq (x : btc_tx) (a : atx) (from : cstring) (script : list Z)
    (in_num : nat) (t : tin) (ht amount : Z)
    (R : rep_tx x a) (Hok : atx_ok a) (Hfrom : rep_str from script) (Hsb : is_bytes script)
    (Ht : a_ins a !! in_num = Some t) (Hl : zlen (enc_tx false a) < 2 ^ 30)
    (Hp : zlen (segwit_preimage a t script amount ht) < 2 ^ 30) :
  btc_tx_sighash x from in_num ht amount SIGVERSION_WITNESS_V0 =
    Ret (dsha (segwit_preimage a t script amount ht)).
Proof.
  unfold btc_tx_sighash. rewrite (Forall2_length (rt_ins _ _ R)).
  apply lookup_lt_Some in Ht as Hlt. rewrite (proj2 (Nat.leb_gt _ _)) by done.
  destruct (copy_tx_spec btc_tx_new x a R) as (y & -> & Hy & _). cbn [total mbind outcome_bind].
  destruct (Forall2_lookup_r _ _ _ _ _ (rt_ins _ _ Hy) Ht) as (i & Hi & _).
  destruct (sighash_witness_spec y a Hy Hok Hl from script in_num i t ht amount) as (s & -> & Hb); [done..|].
  cbn [total mbind outcome_bind]. rewrite Hb. cbn [total mbind outcome_bind].
  rewrite double_sha; [done| |lia]. apply segwit_bytes; [|done|].
  - destruct Hok as (_ & _ & Hi' & _). by eapply Forall_lookup_1.
  - unfold code_outputs. case_bool; [|apply dsha_ok]. apply is_bytes_replicate. unfold is_byte. lia.
Qed.

(** C1: transactions survive the wire: for every transaction whose fields are in
    range, [btc_tx_serialize] appends its BIP 144 encoding, and
    [btc_tx_deserialize] accepts these bytes in front of anything, consumes
    exactly them and returns the same transaction, without its witnesses when
    they were not allowed. *)
Theorem tx_wire_roundtrip (x : btc_tx) (a : atx) (w : bool) (s : cstring) (rest : list Z)
    (R : rep_tx x a) (Hok : atx_ok a) (Hs : cstr_wf s) (Hl : len s + zlen (enc_tx w a) < 2 ^ 30)
    (Hne : w = true -> a_ins a <> []) :
  exists s' y, btc_tx_serialize s x w = Some s' /\ cstr_wf s' /\
    cstr_cells s' = cstr_cells s ++ (Some <$> enc_tx w a) /\
    btc_tx_deserialize (enc_tx w a ++ rest) btc_tx_new w = Ret (true, y, zlen (enc_tx w a)) /\
    rep_tx y (seen w a).
Proof.
  destruct (appends_tx x a w R Hok s Hs Hl) as (s' & E & Hs' & Hc). pose proof (cstr_wf_len s Hs).
  destruct (deser_tx_app w a rest Hok) as (y & Ey & Hy); [lia|done|].
  exists s', y. by split_and!.
Qed.

Definition example_atx : atx :=
  mk_atx 1 [mk_tin (replicate 32 7) 1 [] 5 [[]]] [mk_tout 9 []] 0.
Definition example_tx : btc_tx :=
  mk_tx 1 [mk_tx_in (mk_outpoint (replicate 32 7) 1) (Some empty_cstr) 5 [empty_cstr]] [mk_tx_out 9 None] 0.

Lemma example_rep : rep_tx example_tx example_atx.
Proof.
  constructor; try done; repeat constructor; try done; cbn; by left.
Qed.

Lemma example_ok : atx_ok example_atx.
Proof.
  split; [cbn; lia|]. split; [cbn; lia|]. split; repeat constructor; vm_compute; congruence.
Qed.

Lemma tx_wire_roundtrip_witness :
  exists s' y, btc_tx_serialize empty_cstr example_tx true = Some s' /\ cstr_wf s' /\
    cstr_cells s' = cstr_cells empty_cstr ++ (Some <$> enc_tx true example_atx) /\
    btc_tx_deserialize (enc_tx true example_atx ++ [3]) btc_tx_new true = Ret (true, y, zlen (enc_tx true example_atx)) /\
    rep_tx y (seen true example_atx).
Proof.
  apply (tx_wire_roundtrip example_tx example_atx true empty_cstr [3]).
  - apply example_rep.
  - apply example_ok.
  - apply empty_cstr_wf.
  - vm_compute. reflexivity.
  - discriminate.
Defined.

(** The transaction identifier is the double SHA-256 of the encoding
    without witnesses, and copying a transaction keeps it. *)
Theorem tx_hash_copy (x d : btc_tx) (a : atx)
    (R : rep_tx x a) (Hok : atx_ok a) (Hl : zlen (enc_tx false a) < 2 ^ 30) :
  btc_tx_hash x = Some (dsha (enc_tx false a)) /\
  exists y, btc_tx_copy d x = Some y /\ rep_tx y a /\ btc_tx_hash y = btc_tx_hash x.
Proof.
  split; [by apply tx_hash_spec|]. destruct (copy_tx_spec d x a R) as (y & E & Hy & _).
  exists y. split_and!; [done|done|]. by rewrite !(tx_hash_spec _ a).
Qed.

Lemma tx_hash_copy_witness : btc_tx_hash example_tx = Some (dsha (enc_tx false example_atx)).
Proof.
  apply (tx_hash_copy example_tx btc_tx_new example_atx).
  - apply example_rep.
  - apply example_ok.
  - vm_compute. reflexivity.
Defined.


(** Two inputs, two outputs, and a script code with a code separator. *)
Definition example2_atx : atx :=
  mk_atx 2 [mk_tin (replicate 32 7) 1 [] 5 []; mk_tin (replicate 32 9) 0 [] 6 []] [mk_tout 9 []; mk_tout 8 []] 3.
Definition example2_tx : btc_tx :=
  mk_tx 2 [mk_tx_in (mk_outpoint (replicate 32 7) 1) (Some empty_cstr) 5 [];
           mk_tx_in (mk_outpoint (replicate 32 9) 0) (Some empty_cstr) 6 []] [mk_tx_out 9 None; mk_tx_out 8 None] 3.

Lemma example2_rep : rep_tx example2_tx example2_atx.
Proof. constructor; try done; repeat constructor; try done; cbn; by left. Qed.

Lemma example2_ok : atx_ok example2_atx.
Proof. split; [cbn; lia|]. split; [cbn; lia|]. split; repeat constructor; vm_compute; congruence. Qed.

Definition example_ops : list btc_script_op := [mk_op 0x51 []; mk_op OP_CODESEPARATOR []; mk_op 2 [7; 8]; mk_op 0xac []].
Definition example_code : cstring := mk_cstring [Some 0x51; Some 0xab; Some 2; Some 7; Some 8; Some 0xac; Some 0; None] 6 8.

Lemma example_code_rep : rep_str example_code (flat_map op_bytes example_ops).
Proof.
  split; [|reflexivity]. constructor; [reflexivity|]. right. split; [by exists 3|]. split; [cbn; lia|reflexivity].
Qed.


(** C39: the segwit signature hash is the double SHA-256 of the BIP 143 preimage
    for every hash type that signs all outputs, such as [SIGHASH_ALL] with or
    without [SIGHASH_ANYONECANPAY]: the hashes of all outpoints and sequences (zero where
    the type leaves them out), the outpoint, script code, amount and sequence of
    the signed input, the hash of all outputs, the lock time and the type. *)
Theorem sighash_segwit (x : btc_tx) (a : atx) (from : cstring) (script : list Z)
    (in_num : nat) (t : tin) (ht amount : Z)
    (R : rep_tx x a) (Hok : atx_ok a) (Hfrom : rep_str from script) (Hsb : is_bytes script)
    (Ht : a_ins a !! in_num = Some t) (Hl : zlen (enc_tx false a) < 2 ^ 30)
    (Hall : is_single ht = false /\ is_none ht = false)
    (Hp : zlen (bip143_preimage a t script in_num amount ht) < 2 ^ 30) :
  btc_tx_sighash x from in_num ht amount SIGVERSION_WITNESS_V0 =
    Ret (dsha (bip143_preimage a t script in_num amount ht)).
Proof.
  rewrite <- (segwit_preimage_all a t script in_num amount ht) in Hp |- * by apply Hall.
  by apply (sighash_segwit_eq x a from script in_num t).
Qed.

(** The second input with the type ALL, and alone with ALL | ANYONECANPAY. *)
Lemma sighash_segwit_witness :
  let t := mk_tin (replicate 32 9) 0 [] 6 [] in
  btc_tx_sighash example2_tx example_code 1 SIGHASH_ALL 7 SIGVERSION_WITNESS_V0 =
    Ret (dsha (bip143_preimage example2_atx t (flat_map op_bytes example_ops) 1 7 SIGHASH_ALL)) /\
  btc_tx_sighash example2_tx example_code 1 (Z.lor SIGHASH_ALL SIGHASH_ANYONECANPAY) 7 SIGVERSION_WITNESS_V0 =
    Ret (dsha (bip143_preimage example2_atx t (flat_map op_bytes example_ops) 1 7 (Z.lor SIGHASH_ALL SIGHASH_ANYONECANPAY))).
Proof.
  cbv zeta. split; apply sighash_segwit.
  all: try (apply example2_rep || apply example2_ok || apply example_code_rep || (by split)).
  all: try (repeat constructor; vm_compute; congruence). all: try (vm_compute; reflexivity).
Defined.

(** For [SIGHASH_NONE] and [SIGHASH_SINGLE] the segwit hash is not that of
    BIP 143: it commits to all outputs (the hash of the single output is stored
    in the result buffer, which is overwritten). *)
Theorem sighash_segwit_divergence :
  let i := mk_tin (replicate 32 7) 1 [] 5 [] in
  let a := mk_atx 1 [i] [mk_tout 9 []; mk_tout 8 []] 0 in
  let x := mk_tx 1 [mk_tx_in (mk_outpoint (replicate 32 7) 1) None 5 []] [mk_tx_out 9 None; mk_tx_out 8 None] 0 in
  rep_tx x a /\
  Forall (fun ht => btc_tx_sighash x empty_cstr 0 ht 7 SIGVERSION_WITNESS_V0 <>
                    Ret (dsha (bip143_preimage a i [] 0 7 ht)))
    [SIGHASH_NONE; SIGHASH_SINGLE; Z.lor SIGHASH_SINGLE SIGHASH_ANYONECANPAY].
Proof.
  split; [constructor; try done; repeat constructor; done|].
  repeat constructor; vm_compute; discriminate.
Qed.

(** ** Adding outputs *)

Lemma add_out_spec (x : btc_tx) (a : atx) (amount : Z) (g : cstring -> option cstring) (bs : list Z) :
  rep_tx x a -> (forall s, cstr_wf s -> cstr_cells s = [] -> exists s', g s = Some s' /\ rep_str s' bs) ->
  exists y, add_out x amount g = Some y /\
    rep_tx y (mk_atx (a_version a) (a_ins a) (a_outs a ++ [mk_tout amount bs]) (a_lock a)).
Proof.
  intros [R1 R2 R3 R4] Hg. unfold add_out. destruct (new_sz_ok 1024) as (s & -> & Hs & Hc & _); [lia|].
  cbn [mbind option_bind]. destruct (Hg s Hs Hc) as (s' & -> & Hs'). cbn [mbind option_bind].
  eexists. split; [done|]. constructor; cbn; try done. apply Forall2_app; [done|].
  constructor; [|constructor]. by constructor.
Qed.

Lemma build_on_empty (g : cstring -> option cstring) (bs : list Z) (s : cstring) :
  Appends g bs -> zlen bs < 2 ^ 30 -> cstr_wf s -> cstr_cells s = [] -> exists s', g s = Some s' /\ rep_str s' bs.
Proof.
  intros Hg Hl Hs Hc. assert (len s = 0) as H0 by (rewrite <- (cstr_cells_zlen s Hs), Hc; done).
  destruct (Hg s Hs) as (s' & E & Hs' & Hc'); [lia|]. exists s'. split; [done|]. split; [done|].
  unfold cstr_holds. by rewrite Hc', Hc.
Qed.

Definition data_ops (d : list Z) : list btc_script_op := [mk_op OP_RETURN []; push_op d].

(** Adding an output to a pay-to-pubkey-hash or pay-to-script-hash address,
    or a data output, appends exactly one output with the given amount, whose
    script is the standard one and is classified as such; data of more than
    eighty bytes is refused. *)
Theorem tx_add_outputs (x : btc_tx) (a : atx) (amount : Z) (h d : list Z)
    (R : rep_tx x a) (Hh : is_bytes h) (Hl : zlen h = 20) :
  let plus bs := mk_atx (a_version a) (a_ins a) (a_outs a ++ [mk_tout amount bs]) (a_lock a) in
  (exists y bs, btc_tx_add_p2pkh_hash160_out x amount h = Some y /\ rep_tx y (plus bs) /\
     btc_script_classify bs (Some []) = Ret (BTC_TX_PUBKEYHASH, Some [h])) /\
  (exists y bs, btc_tx_add_p2sh_hash160_out x amount h = Some y /\ rep_tx y (plus bs) /\
     btc_script_classify bs (Some []) = Ret (BTC_TX_SCRIPTHASH, Some [h])) /\
  (if zlen d <=? 80 then exists y, btc_tx_add_data_out x amount d = Ret y /\
     rep_tx y (plus (flat_map op_bytes (data_ops d)))
   else btc_tx_add_data_out x amount d = Fail).
Proof.
  intros plus. split_and!.
  - destruct (add_out_spec x a amount (fun s => btc_script_build_p2pkh s h) (flat_map op_bytes (p2pkh_ops h)) R)
      as (y & E & Hy); [|by exists y, (flat_map op_bytes (p2pkh_ops h)); split_and!; [..|apply classify_p2pkh]].
    intros s Hs _. destruct (build_p2pkh_spec s h) as (s' & ? & ? & ?); [done..|]. by exists s'.
  - destruct (add_out_spec x a amount (fun s => btc_script_build_p2sh s h) (flat_map op_bytes (p2sh_ops h)) R)
      as (y & E & Hy); [|by exists y, (flat_map op_bytes (p2sh_ops h)); split_and!; [..|apply classify_p2sh]].
    intros s Hs _. destruct (build_p2sh_spec s h) as (s' & ? & ? & ?); [done..|]. by exists s'.
  - unfold btc_tx_add_data_out, require. destruct (Z.leb_spec (zlen d) 80) as [Hd|Hd]; [|done].
    cbn [mbind outcome_bind].
    destruct (add_out_spec x a amount (fun s => s ← btc_script_append_op OP_RETURN s; btc_script_append_pushdata d s)
      (flat_map op_bytes (data_ops d)) R) as (y & -> & Hy); [|by exists y].
    intros s Hs Hc. apply (build_on_empty (fun s => s ← btc_script_append_op OP_RETURN s; btc_script_append_pushdata d s));
      [|pose proof (zlen_nonneg d)|done|done].
    + apply (appends_bind _ _ [_]); [apply appends_op|]. cbn [flat_map]. rewrite app_nil_r. apply appends_pushdata.
    + unfold data_ops. cbn [flat_map]. rewrite !zlen_app. change (zlen (op_bytes (mk_op OP_RETURN []))) with 1.
      unfold op_bytes, push_op. cbn [op data]. repeat case_bool; zlia.
Qed.

Lemma tx_add_outputs_witness :
  exists y, btc_tx_add_data_out example_tx 5 [1; 2] = Ret y /\
    rep_tx y (mk_atx 1 (a_ins example_atx) (a_outs example_atx ++ [mk_tout 5 [0x6a; 2; 1; 2]]) 0).
Proof.
  refine (proj2 (proj2 (tx_add_outputs example_tx example_atx 5 (replicate 20 1) [1; 2] _ _ _))).
  - apply example_rep.
  - repeat constructor; vm_compute; congruence.
  - reflexivity.
Defined.

(** ** Coinbase *)

Lemma shift_equal_zero (k : nat) (h : list Z) (b : Z) :
  (k < length h)%nat -> nth 0 h 0 = b -> take k h = take k (drop 1 h) -> take (S k) h = replicate (S k) b.
Proof.
  revert h. induction k as [|k IH]; intros h Hl Hb E.
  - destruct h as [|x h]; [simpl in Hl; lia|]. cbn in *. by subst.
  - destruct h as [|x [|y h]]; [simpl in Hl; lia..|]. cbn in Hb. subst x. cbn [take drop] in E.
    injection E as -> E. cbn [take replicate]. f_equal. apply (IH (y :: h)); [simpl in *; lia|done|done].
Qed.

(** [btc_tx_is_coinbase] accepts exactly the transactions with one input
    whose output index is the maximum and whose previous hash starts with
    twenty zero bytes: the last twelve bytes of the hash are not looked at. *)
Theorem coinbase_prefix (i : btc_tx_in) (v l : Z) (outs : list btc_tx_out) (Hh : length (hash (prevout i)) = 32%nat) :
  btc_tx_is_coinbase (mk_tx v [i] outs l) = true <->
  n (prevout i) = UINT32_MAX /\ take 20 (hash (prevout i)) = replicate 20 0.
Proof.
  unfold btc_tx_is_coinbase, btc_hash_is_empty. cbn [vin]. rewrite !andb_true_iff, !Z.eqb_eq, bool_decide_eq_true.
  split.
  - intros [[H0 E] Hn]. split; [done|]. by apply (shift_equal_zero 19); [lia|..].
  - intros [Hn E]. split; [|done]. set (h := hash (prevout i)) in *.
    assert (forall k, (k < 20)%nat -> h !! k = Some 0) as Hk.
    { intros k Hlt. rewrite <- (lookup_take_lt h 20 k) by done. rewrite E. by apply lookup_replicate_2. }
    split; [rewrite nth_lookup, (Hk 0%nat); [done|lia]|].
    apply list_eq. intros k. destruct (decide (k < 19)%nat).
    + rewrite !lookup_take_lt, lookup_drop by done. rewrite !Hk; [done|lia|lia].
    + rewrite !lookup_take_ge by lia. done.
Qed.

Lemma coinbase_prefix_witness :
  btc_tx_is_coinbase (mk_tx 1 [mk_tx_in (mk_outpoint (replicate 20 0 ++ replicate 12 1) UINT32_MAX) None 0 []] [] 0) = true.
Proof.
  apply (coinbase_prefix (mk_tx_in (mk_outpoint (replicate 20 0 ++ replicate 12 1) UINT32_MAX) None 0 []) 1 0 []).
  - reflexivity.
  - split; reflexivity.
Defined.
