(* ===== verification/Block.v ===== *)
(** * block.c: block headers

    The eighty byte header: reading, writing, copying and hashing.  A reader
    that runs out of bytes stops with the fields it has already stored. *)

From S2P Require Import Prelude Cstr Serialize Sha2 Sha2Spec Tx.

Module Block.

Record btc_block_header := mk_header {
  version : Z; prev_block : list Z; merkle_root : list Z; timestamp : Z; bits : Z; nonce : Z }.

Definition btc_block_header_new : btc_block_header := mk_header 0 (replicate 32 0) (replicate 32 0) 0 0 0.

(** One field: [if (!deser (&header->field, buf)) return false;] *)
Definition field {A} (r : outcome (A * const_buffer)) (set : A -> btc_block_header -> btc_block_header)
    (next : btc_block_header -> const_buffer -> bool * btc_block_header * const_buffer)
    (header : btc_block_header) (buf : const_buffer) : bool * btc_block_header * const_buffer :=
  match r with
  | Ret (v, buf') => next (set v header) buf'
  | _ => (false, header, buf)
  end.

(** The result, the header as far as it was filled, the rest of the buffer. *)
Definition btc_block_header_deserialize (header : btc_block_header) (buf : const_buffer) :
    bool * btc_block_header * const_buffer :=
  field (deser_s32 buf)
    (fun v h => mk_header v (prev_block h) (merkle_root h) (timestamp h) (bits h) (nonce h)) (fun header buf =>
  field (deser_u256 buf)
    (fun v h => mk_header (version h) v (merkle_root h) (timestamp h) (bits h) (nonce h)) (fun header buf =>
  field (deser_u256 buf)
    (fun v h => mk_header (version h) (prev_block h) v (timestamp h) (bits h) (nonce h)) (fun header buf =>
  field (deser_u32 buf)
    (fun v h => mk_header (version h) (prev_block h) (merkle_root h) v (bits h) (nonce h)) (fun header buf =>
  field (deser_u32 buf)
    (fun v h => mk_header (version h) (prev_block h) (merkle_root h) (timestamp h) v (nonce h)) (fun header buf =>
  field (deser_u32 buf)
    (fun v h => mk_header (version h) (prev_block h) (merkle_root h) (timestamp h) (bits h) v) (fun header buf =>
  (true, header, buf)) header buf) header buf) header buf) header buf) header buf) header buf.

Definition btc_block_header_serialize (s : cstring) (header : btc_block_header) : option cstring :=
  s ← ser_s32 s (version header);
  s ← ser_u256 s (prev_block header);
  s ← ser_u256 s (merkle_root header);
  s ← ser_u32 s (timestamp header);
  s ← ser_u32 s (bits header);
  ser_u32 s (nonce header).

(** [dest] is overwritten field by field. *)
Definition btc_block_header_copy (dest src : btc_block_header) : btc_block_header :=
  mk_header (version src) (ztake 32 (prev_block src)) (ztake 32 (merkle_root src))
            (timestamp src) (bits src) (nonce src).

Definition btc_block_header_hash (header : btc_block_header) : option (list Z) :=
  s ← new_sz 80;
  s ← btc_block_header_serialize s header;
  d ← cstr_bytes s;
  Some (sha256_Raw (sha256_Raw d)).

(** ** Specification *)

Definition header_bytes (h : btc_block_header) : list Z :=
  le_bytes 4 (u32 (version h)) ++ prev_block h ++ merkle_root h ++
  le_bytes 4 (timestamp h) ++ le_bytes 4 (bits h) ++ le_bytes 4 (nonce h).

Definition header_ok (h : btc_block_header) : Prop :=
  - 2 ^ 31 <= version h < 2 ^ 31 /\ 0 <= timestamp h < 2 ^ 32 /\ 0 <= bits h < 2 ^ 32 /\ 0 <= nonce h < 2 ^ 32 /\
  zlen (prev_block h) = 32 /\ zlen (merkle_root h) = 32 /\ is_bytes (prev_block h) /\ is_bytes (merkle_root h).

Lemma appends_header (h : btc_block_header) :
  header_ok h -> Appends (fun s => btc_block_header_serialize s h) (header_bytes h).
Proof.
  intros (_ & _ & _ & _ & Hp & Hm & _). unfold btc_block_header_serialize, header_bytes.
  apply appends_bind; [apply appends_s32|]. apply appends_bind; [by apply appends_u256|].
  apply appends_bind; [by apply appends_u256|]. apply appends_bind; [apply appends_u32|].
  apply appends_bind; apply appends_u32.
Qed.

Lemma header_bytes_zlen (h : btc_block_header) : header_ok h -> zlen (header_bytes h) = 80.
Proof.
  intros (_ & _ & _ & _ & Hp & Hm & _). unfold header_bytes. rewrite !zlen_app, !zlen_le_bytes. lia.
Qed.

Lemma header_bytes_ok (h : btc_block_header) : header_ok h -> is_bytes (header_bytes h).
Proof.
  intros (_ & _ & _ & _ & _ & _ & Hp & Hm). unfold header_bytes.
  repeat (apply is_bytes_app; split); auto with libbtc.
Qed.

Lemma deser_header_app (h h0 : btc_block_header) (rest : list Z) :
  header_ok h -> btc_block_header_deserialize h0 (header_bytes h ++ rest) = (true, h, rest).
Proof.
  intros (Hv & Ht & Hb & Hn & Hp & Hm & _). unfold btc_block_header_deserialize, header_bytes.
  rewrite <- !app_assoc, deser_s32_app by done. cbn [field]. rewrite deser_u256_app by done. cbn [field].
  rewrite deser_u256_app by done. cbn [field]. rewrite deser_u32_app by done. cbn [field].
  rewrite deser_u32_app by done. cbn [field]. rewrite deser_u32_app by done. cbn [field]. by destruct h.
Qed.

(** A header that is accepted consumes eighty bytes, and fewer are rejected. *)
Lemma deser_header_inv (h0 h : btc_block_header) (buf rest : list Z) :
  btc_block_header_deserialize h0 buf = (true, h, rest) -> zlen buf = 80 + zlen rest.
Proof.
  unfold btc_block_header_deserialize, field, deser_s32, deser_u32, deser_u256.
  repeat match goal with
  | |- context [deser_bytes ?b ?k] =>
      destruct (deser_bytes b k) as [[? ?]| |] eqn:?; cbn [mbind outcome_bind]; [|done..]
  end.
  intros [= _ <-]. repeat match goal with E : deser_bytes _ _ = Ret _ |- _ =>
    apply deser_bytes_Ret in E as [-> ?]; [|lia] end.
  rewrite !zlen_app. lia.
Qed.

Lemma header_hash_spec (h : btc_block_header) : header_ok h -> btc_block_header_hash h = Some (dsha (header_bytes h)).
Proof.
  intros Hok. unfold btc_block_header_hash.
  destruct (fresh_writes 80 _ _ ltac:(lia) (appends_header h Hok)) as (s0 & s' & -> & E & _ & _ & Hb).
  { by rewrite header_bytes_zlen. }
  cbn [mbind option_bind]. rewrite E. cbn [mbind option_bind]. rewrite Hb. cbn [mbind option_bind].
  rewrite double_sha; [done|by apply header_bytes_ok|by rewrite header_bytes_zlen].
Qed.

(** A header that is read from bytes is well formed. *)
Lemma deser_header_ok (h0 h : btc_block_header) (buf rest : list Z) :
  is_bytes buf -> btc_block_header_deserialize h0 buf = (true, h, rest) -> header_ok h /\ is_bytes rest.
Proof.
  intros Hb. unfold btc_block_header_deserialize, field, deser_s32, deser_u32, deser_u256.
  repeat match goal with
  | |- context [deser_bytes ?b ?k] =>
      destruct (deser_bytes b k) as [[? ?]| |] eqn:?; cbn [mbind outcome_bind]; [|done..]
  end.
  intros [= <- <-]. repeat match goal with E : deser_bytes _ _ = Ret _ |- _ =>
    apply deser_bytes_Ret in E as [-> ?]; [|lia] end.
  repeat match goal with H : is_bytes (_ ++ _) |- _ => apply is_bytes_app in H as [? H] end.
  repeat match goal with H : zlen ?v = 4, B : is_bytes ?v |- _ =>
    pose proof (le_val_bound v B); rewrite H in *; clear H end.
  pose proof (swrap_range 32 (le_val l) ltac:(lia)). unfold header_ok. cbn.
  change (256 ^ 4) with (2 ^ 32) in *. split_and!; (done || lia).
Qed.

(** A block header is exactly eighty bytes on the wire: writing then reading
    gives it back, its copy is equal, its hash is the double SHA-256 of these
    bytes, and whatever is accepted consumed eighty bytes. *)
Theorem header_roundtrip (h h0 : btc_block_header) (s : cstring) (rest : list Z)
    (Hok : header_ok h) (Hs : cstr_wf s) (Hl : len s + 80 < 2 ^ 30) :
  (exists s', btc_block_header_serialize s h = Some s' /\ cstr_wf s' /\
     cstr_cells s' = cstr_cells s ++ (Some <$> header_bytes h)) /\
  btc_block_header_deserialize h0 (header_bytes h ++ rest) = (true, h, rest) /\
  btc_block_header_copy h0 h = h /\
  btc_block_header_hash h = Some (dsha (header_bytes h)) /\
  (forall buf h1 r, btc_block_header_deserialize h0 buf = (true, h1, r) -> zlen buf = 80 + zlen r).
Proof.
  split_and!.
  - apply (appends_header h Hok s Hs). by rewrite header_bytes_zlen.
  - by apply deser_header_app.
  - destruct Hok as (_ & _ & _ & _ & Hp & Hm & _). unfold btc_block_header_copy.
    rewrite !ztake_all by lia. by destruct h.
  - by apply header_hash_spec.
  - intros buf h1 r. apply deser_header_inv.
Qed.

Lemma header_roundtrip_witness :
  btc_block_header_deserialize btc_block_header_new
    (header_bytes (mk_header (-1) (replicate 32 1) (replicate 32 2) 3 4 5) ++ [9]) =
  (true, mk_header (-1) (replicate 32 1) (replicate 32 2) 3 4 5, [9]).
Proof.
  refine (proj1 (proj2 (header_roundtrip (mk_header (-1) (replicate 32 1) (replicate 32 2) 3 4 5)
    btc_block_header_new (mk_cstring [] 0 0) [9] _ _ _))).
  - repeat split; cbn; try lia; repeat constructor; vm_compute; congruence.
  - constructor; [reflexivity|by left].
  - reflexivity.
Defined.

End Block.
