(* ===== verification/SegwitAddr.v ===== *)
(** * segwit_addr.c: Bech32 strings and segwit addresses

    A C string is the list of its bytes without the final NUL; a [char] is read
    as a signed value.  The functions return what they write to their output
    arrays, or [None] for a return of 0.  The sizes of the fixed arrays of the
    callers are part of the theorems.  The reference is the checksum of BIP 173
    over the expanded human readable part and the data. *)

From S2P Require Import Prelude.
From Stdlib Require Import Btauto.

(** ** The code *)

Definition bech32_polymod_step (pre : Z) : Z :=
  let b := u8 (Z.shiftr pre 25) in
  let bit k := - Z.land (Z.shiftr b k) 1 in
  u32 (Z.lxor (Z.lxor (Z.lxor (Z.lxor (Z.lxor
    (u32 (Z.shiftl (Z.land pre 0x1FFFFFF) 5))
    (Z.land (bit 0) 0x3b6a57b2)) (Z.land (bit 1) 0x26508e6d)) (Z.land (bit 2) 0x1ea119fa))
    (Z.land (bit 3) 0x3d4233dd)) (Z.land (bit 4) 0x2a1462b3)).

(** "qpzry9x8gf2tvdw0s3jn54khce6mua7l" *)
Definition charset : list Z :=
  [113; 112; 122; 114; 121; 57; 120; 56; 103; 102; 50; 116; 118; 100; 119; 48;
   115; 51; 106; 110; 53; 52; 107; 104; 99; 101; 54; 109; 117; 97; 55; 108].

Definition charset_rev : list Z :=
  [-1; -1; -1; -1; -1; -1; -1; -1; -1; -1; -1; -1; -1; -1; -1; -1;
   -1; -1; -1; -1; -1; -1; -1; -1; -1; -1; -1; -1; -1; -1; -1; -1;
   -1; -1; -1; -1; -1; -1; -1; -1; -1; -1; -1; -1; -1; -1; -1; -1;
   15; -1; 10; 17; 21; 20; 26; 30;  7;  5; -1; -1; -1; -1; -1; -1;
   -1; 29; -1; 24; 13; 25;  9;  8; 23; -1; 18; 22; 31; 27; 19; -1;
    1;  0;  3; 16; 11; 28; 12; 14;  6;  4;  2; -1; -1; -1; -1; -1;
   -1; 29; -1; 24; 13; 25;  9;  8; 23; -1; 18; 22; 31; 27; 19; -1;
    1;  0;  3; 16; 11; 28; 12; 14;  6;  4;  2; -1; -1; -1; -1; -1].

(** A [char] of a string. *)
Definition char_of (b : Z) : Z := swrap 8 b.

Definition is_lower (ch : Z) : bool := (97 <=? ch) && (ch <=? 122).
Definition is_upper (ch : Z) : bool := (65 <=? ch) && (ch <=? 90).

(** [while (hrp[i] != 0)]: the checks and the high bits. *)
Fixpoint encode_check (hrp : list Z) (chk : Z) : option Z :=
  match hrp with
  | [] => Some chk
  | c :: hrp' =>
      let ch := char_of c in
      if (ch <? 33) || (126 <? ch) then None else
      if is_upper ch then None else
      encode_check hrp' (Z.lxor (bech32_polymod_step chk) (Z.shiftr ch 5))
  end.

(** [while ( *hrp != 0)]: the low bits. *)
Fixpoint low_bits (hrp : list Z) (chk : Z) : Z :=
  match hrp with
  | [] => chk
  | c :: hrp' => low_bits hrp' (Z.lxor (bech32_polymod_step chk) (Z.land (char_of c) 0x1f))
  end.

(** [for (i = 0; i < data_len; ++i)]: the checksum and the characters. *)
Fixpoint encode_data (data : list Z) (chk : Z) : option (Z * list Z) :=
  match data with
  | [] => Some (chk, [])
  | d :: data' =>
      if negb (Z.shiftr d 5 =? 0) then None else
      '(chk, out) ← encode_data data' (Z.lxor (bech32_polymod_step chk) d);
      Some (chk, nth (Z.to_nat d) charset 0 :: out)
  end.

Definition bech32_encode (hrp data : list Z) : option (list Z) :=
  chk ← encode_check hrp 1;
  if 90 <? zlen hrp + 7 + zlen data then None else
  let chk := bech32_polymod_step chk in
  let chk := low_bits hrp chk in
  '(chk, out) ← encode_data data chk;
  let chk := Nat.iter 6 bech32_polymod_step chk in
  let chk := Z.lxor chk 1 in
  let tail := map (fun i => nth (Z.to_nat (Z.land (Z.shiftr chk ((5 - i) * 5)) 0x1f)) charset 0) [0; 1; 2; 3; 4; 5] in
  Some (hrp ++ [49] ++ out ++ tail).

(** [while ( *data_len < input_len && input[(input_len - 1) - *data_len] != '1')];
    the argument is the input from its end. *)
Fixpoint count_data (rev_input : list Z) : Z :=
  match rev_input with
  | [] => 0
  | c :: r => if c =? 49 then 0 else 1 + count_data r
  end.

(** The first loop over the human readable part: the lower case string, the
    flags and the checksum. *)
Fixpoint decode_hrp (input : list Z) (chk : Z) (have_lower have_upper : bool) :
    option (list Z * Z * bool * bool) :=
  match input with
  | [] => Some ([], chk, have_lower, have_upper)
  | c :: input' =>
      let ch := char_of c in
      if (ch <? 33) || (126 <? ch) then None else
      let '(ch, have_lower, have_upper) :=
        if is_lower ch then (ch, true, have_upper)
        else if is_upper ch then (ch - 65 + 97, have_lower, true)
        else (ch, have_lower, have_upper) in
      '(hrp, chk, have_lower, have_upper) ←
        decode_hrp input' (Z.lxor (bech32_polymod_step chk) (Z.shiftr ch 5)) have_lower have_upper;
      Some (ch :: hrp, chk, have_lower, have_upper)
  end.

(** [while (i < input_len)]: every value, the last six included. *)
Fixpoint decode_data (input : list Z) (chk : Z) (have_lower have_upper : bool) :
    option (list Z * Z * bool * bool) :=
  match input with
  | [] => Some ([], chk, have_lower, have_upper)
  | c :: input' =>
      let v := if negb (Z.land c 0x80 =? 0) then -1 else nth (Z.to_nat c) charset_rev 0 in
      let have_lower := if is_lower (char_of c) then true else have_lower in
      let have_upper := if is_upper (char_of c) then true else have_upper in
      if v =? -1 then None else
      '(data, chk, have_lower, have_upper) ←
        decode_data input' (Z.lxor (bech32_polymod_step chk) v) have_lower have_upper;
      Some (v :: data, chk, have_lower, have_upper)
  end.

(** The human readable part and the data without the checksum. *)
Definition bech32_decode (input : list Z) : option (list Z * list Z) :=
  let input_len := zlen input in
  if (input_len <? 8) || (90 <? input_len) then None else
  let data_len := count_data (rev input) in
  let hrp_len := u64 (input_len - (1 + data_len)) in
  if (input_len <=? 1 + data_len) || (data_len <? 6) then None else
  let data_len := data_len - 6 in
  '(hrp, chk, have_lower, have_upper) ← decode_hrp (ztake hrp_len input) 1 false false;
  let chk := bech32_polymod_step chk in
  let chk := low_bits (ztake hrp_len input) chk in
  '(values, chk, have_lower, have_upper) ← decode_data (zdrop (hrp_len + 1) input) chk have_lower have_upper;
  if have_lower && have_upper then None else
  if chk =? 1 then Some (hrp, ztake data_len values) else None.

(** [while (bits >= outbits)] *)
Fixpoint emit_bits (fuel : nat) (val bits outbits maxv : Z) : list Z * Z :=
  match fuel with
  | O => ([], bits)
  | S fuel' =>
      if outbits <=? bits then
        let bits := bits - outbits in
        let '(out, bits') := emit_bits fuel' val bits outbits maxv in
        (Z.land (Z.shiftr val bits) maxv :: out, bits')
      else ([], bits)
  end.

(** [while (inlen--)]: the output, [val] and [bits]. *)
Fixpoint convert_loop (input : list Z) (val bits inbits outbits maxv : Z) : list Z * Z * Z :=
  match input with
  | [] => ([], val, bits)
  | x :: input' =>
      let val := Z.lor (u32 (Z.shiftl val inbits)) x in
      let bits := bits + inbits in
      let '(out, bits) := emit_bits (Z.to_nat (bits + 1)) val bits outbits maxv in
      let '(out', val, bits) := convert_loop input' val bits inbits outbits maxv in
      (out ++ out', val, bits)
  end.

(** What is appended to the output, and the result. *)
Definition convert_bits (outbits : Z) (input : list Z) (inbits : Z) (pad : bool) : list Z * bool :=
  let maxv := u32 (u32 (Z.shiftl 1 outbits) - 1) in
  let '(out, val, bits) := convert_loop input 0 0 inbits outbits maxv in
  if pad then
    (out ++ (if bits =? 0 then [] else [Z.land (u32 (Z.shiftl val (outbits - bits))) maxv]), true)
  else if negb (Z.land (u32 (Z.shiftl val (outbits - bits))) maxv =? 0) || (inbits <=? bits) then (out, false)
  else (out, true).

Definition segwit_addr_encode (hrp : list Z) (witver : Z) (witprog : list Z) : option (list Z) :=
  let witprog_len := zlen witprog in
  if 16 <? witver then None else
  if (witver =? 0) && negb (witprog_len =? 20) && negb (witprog_len =? 32) then None else
  if (witprog_len <? 2) || (40 <? witprog_len) then None else
  let data := u8 witver :: fst (convert_bits 5 witprog 8 true) in
  bech32_encode hrp data.

(** [strncmp (a, b, 84) != 0] on strings. *)
Definition strncmp_84 (a b : list Z) : bool := negb (bool_decide (take 84 (a ++ [0]) = take 84 (b ++ [0]))).

(** The version and the program. *)
Definition segwit_addr_decode (hrp addr : list Z) : option (Z * list Z) :=
  '(hrp_actual, data) ← bech32_decode addr;
  let data_len := zlen data in
  if (data_len =? 0) || (65 <? data_len) then None else
  if strncmp_84 hrp hrp_actual then None else
  let version := nth 0 data 0 in
  if 16 <? version then None else
  let '(witdata, ok) := convert_bits 8 (drop 1 data) 5 false in
  if negb ok then None else
  let witdata_len := zlen witdata in
  if (witdata_len <? 2) || (40 <? witdata_len) then None else
  if (version =? 0) && negb (witdata_len =? 20) && negb (witdata_len =? 32) then None else
  Some (version, witdata).

(** The example address of BIP 173: version 0, a 20 byte program. *)
Definition bip173_program : list Z := be_bytes 20 0x751e76e8199196d454941c45d1b3a323f1433bd6.

Example bip173_address :
  let bc := [98; 99] in
  (s ← segwit_addr_encode bc 0 bip173_program; segwit_addr_decode bc s) = Some (0, bip173_program) /\
  segwit_addr_encode bc 0 bip173_program =
    Some [98; 99; 49; 113; 119; 53; 48; 56; 100; 54; 113; 101; 106; 120; 116; 100; 103; 52; 121; 53; 114; 51; 122;
          97; 114; 118; 97; 114; 121; 48; 99; 53; 120; 119; 55; 107; 118; 56; 102; 51; 116; 52].
Proof. vm_compute. done. Qed.

(** ** The checksum *)

Abbreviation step := bech32_polymod_step.

(** One symbol. *)
Definition pstep (c v : Z) : Z := Z.lxor (step c) v.
Definition poly (c : Z) (vs : list Z) : Z := fold_left pstep vs c.

(** One generator, chosen by a bit of the state. *)
Definition gen (x k c : Z) : Z := if Z.testbit x (25 + k) then c else 0.

Lemma gen_mask (x k c : Z) : 0 <= k < 8 -> Z.land (- Z.land (Z.shiftr (u8 (Z.shiftr x 25)) k) 1) c = gen x k c.
Proof.
  intros Hk. unfold gen. change 1 with (Z.ones 1) at 1. rewrite Z.land_ones by lia.
  assert (Z.shiftr (u8 (Z.shiftr x 25)) k mod 2 ^ 1 = Z.b2z (Z.testbit x (25 + k))) as ->.
  { rewrite <- Z.bit0_mod. change (2 ^ 1) with 2.
    rewrite Z.shiftr_spec, testbit_wrap, Z.shiftr_spec by lia. rewrite Z.add_0_l.
    replace (k <? 8) with true by (symmetry; apply Z.ltb_lt; lia). rewrite Z.add_comm. done. }
  destruct (Z.testbit x (25 + k)); [apply Z.land_m1_l|apply Z.land_0_l].
Qed.

Lemma gen_lxor (x y k c : Z) : gen (Z.lxor x y) k c = Z.lxor (gen x k c) (gen y k c).
Proof.
  unfold gen. rewrite Z.lxor_spec. destruct (Z.testbit x (25 + k)), (Z.testbit y (25 + k)); cbn [xorb];
    by rewrite ?Z.lxor_nilpotent, ?Z.lxor_0_r, ?Z.lxor_0_l.
Qed.

Lemma gen_range (x k c : Z) : 0 <= c < 2 ^ 30 -> 0 <= gen x k c < 2 ^ 30.
Proof. intros. unfold gen. destruct (Z.testbit _ _); lia. Qed.

Lemma step_eq (x : Z) :
  step x = Z.lxor (Z.lxor (Z.lxor (Z.lxor (Z.lxor (Z.shiftl (Z.land x 0x1FFFFFF) 5)
    (gen x 0 0x3b6a57b2)) (gen x 1 0x26508e6d)) (gen x 2 0x1ea119fa)) (gen x 3 0x3d4233dd)) (gen x 4 0x2a1462b3).
Proof.
  unfold step. cbv zeta. rewrite !gen_mask by lia.
  assert (0 <= Z.shiftl (Z.land x 0x1FFFFFF) 5 < 2 ^ 30) as H0.
  { change 0x1FFFFFF with (Z.ones 25). rewrite Z.land_ones, Z.shiftl_mul_pow2 by lia.
    pose proof (Z.mod_pos_bound x (2 ^ 25)). lia. }
  rewrite (wrap_small 32 (Z.shiftl _ _)) by lia. apply wrap_small.
  match goal with |- 0 <= ?a < _ => assert (0 <= a < 2 ^ 30); [|lia] end.
  repeat (apply (lxor_range 30); [lia| |apply gen_range; lia]). done.
Qed.

Lemma step_range (x : Z) : 0 <= step x < 2 ^ 30.
Proof.
  rewrite step_eq. repeat (apply (lxor_range 30); [lia| |apply gen_range; lia]).
  change 0x1FFFFFF with (Z.ones 25). rewrite Z.land_ones, Z.shiftl_mul_pow2 by lia.
  pose proof (Z.mod_pos_bound x (2 ^ 25)). lia.
Qed.

(** The step is linear over the field of two elements. *)
Lemma step_lxor (x y : Z) : step (Z.lxor x y) = Z.lxor (step x) (step y).
Proof.
  rewrite !step_eq, !gen_lxor.
  assert (Z.land (Z.lxor x y) 0x1FFFFFF = Z.lxor (Z.land x 0x1FFFFFF) (Z.land y 0x1FFFFFF)) as ->.
  { apply Z.bits_inj'. intros i _. rewrite !Z.land_spec, !Z.lxor_spec, !Z.land_spec.
    by destruct (Z.testbit x i), (Z.testbit y i), (Z.testbit 0x1FFFFFF i). }
  rewrite Z.shiftl_lxor. apply Z.bits_inj'. intros i _. rewrite !Z.lxor_spec. btauto.
Qed.

Lemma step_small (x : Z) : 0 <= x < 2 ^ 25 -> step x = Z.shiftl x 5.
Proof.
  intros Hx. rewrite step_eq. unfold gen. rewrite !(testbit_high 25 x) by (done || lia).
  rewrite !Z.lxor_0_r. change 0x1FFFFFF with (Z.ones 25). rewrite Z.land_ones by lia. by rewrite Z.mod_small.
Qed.

(** Only the zero state is mapped to zero. *)
Lemma step_zero (x : Z) : 0 <= x < 2 ^ 30 -> step x = 0 -> x = 0.
Proof.
  intros Hx E. set (lo := Z.land x 0x1FFFFFF). set (hi := Z.shiftr x 25).
  assert (0 <= hi < 32) as Hhi by (unfold hi; rewrite Z.shiftr_div_pow2 by lia; zdm).
  assert (0 <= lo < 2 ^ 25) as Hlo.
  { unfold lo. change 0x1FFFFFF with (Z.ones 25). rewrite Z.land_ones by lia. apply Z.mod_pos_bound. lia. }
  assert (x = lo + 2 ^ 25 * hi) as Ex.
  { unfold lo, hi. change 0x1FFFFFF with (Z.ones 25). rewrite Z.land_ones, Z.shiftr_div_pow2 by lia.
    pose proof (Z_div_mod_eq_full x (2 ^ 25)). lia. }
  assert (x = Z.lxor lo (Z.shiftl hi 25)) as Ex' by (rewrite lxor_add_pow2 by lia; done).
  rewrite Ex', step_lxor, (step_small lo) in E by done.
  assert (Z.land (Z.lxor (Z.shiftl lo 5) (step (Z.shiftl hi 25))) 31 = 0) as E5 by (rewrite E; done).
  assert (Z.land (step (Z.shiftl hi 25)) 31 = 0) as Eh.
  { rewrite <- E5. apply Z.bits_inj'. intros i Hi. rewrite !Z.land_spec, Z.lxor_spec, Z.shiftl_spec by lia.
    change 31 with (Z.ones 5). rewrite Z.testbit_ones_nonneg by lia.
    destruct (Z.ltb_spec i 5); [|by rewrite !andb_false_r]. rewrite (Z.testbit_neg_r lo) by lia.
    by rewrite xorb_false_l. }
  assert (hi = 0) as ->.
  { assert (forall h : nat, (h < 32)%nat -> Z.land (step (Z.shiftl (Z.of_nat h) 25)) 31 = 0 -> h = 0%nat) as F.
    { intros h Hh. do 32 (destruct h as [|h]; [vm_compute; congruence|]). lia. }
    specialize (F (Z.to_nat hi) ltac:(lia)). rewrite Z2Nat.id in F by lia. specialize (F Eh). lia. }
  rewrite Z.shiftl_0_l in E. change (step 0) with 0 in E. rewrite Z.lxor_0_r in E.
  apply Z.shiftl_eq_0_iff in E; [|lia]. lia.
Qed.

Lemma poly_app (c : Z) (a b : list Z) : poly c (a ++ b) = poly (poly c a) b.
Proof. apply fold_left_app. Qed.

(** Two runs over the same symbols keep the difference of their states. *)
Lemma poly_lxor (c d : Z) (vs : list Z) :
  poly (Z.lxor c d) vs = Z.lxor (poly c vs) (Nat.iter (length vs) step d).
Proof.
  revert c d. induction vs as [|v vs IH]; intros c d; [done|]. cbn [poly fold_left length]. unfold pstep at 2 4.
  rewrite step_lxor. rewrite Nat.iter_succ_r.
  change (poly (Z.lxor (Z.lxor (step c) (step d)) v) vs =
          Z.lxor (poly (Z.lxor (step c) v) vs) (Nat.iter (length vs) step (step d))).
  rewrite <- IH. f_equal. by rewrite !Z.lxor_assoc, (Z.lxor_comm v).
Qed.

Lemma iter_step_zero (k : nat) (d : Z) : 0 <= d < 2 ^ 30 -> Nat.iter k step d = 0 -> d = 0.
Proof.
  revert d. induction k as [|k IH]; intros d Hd; [done|]. rewrite Nat.iter_succ_r. intros E.
  apply step_zero; [done|]. apply IH; [apply step_range|done].
Qed.

Lemma poly_range (c : Z) (vs : list Z) :
  0 <= c < 2 ^ 30 -> Forall (fun v => 0 <= v < 32) vs -> 0 <= poly c vs < 2 ^ 30.
Proof.
  intros Hc Hv. revert c Hc. induction Hv as [|v vs Hv Hvs IH]; intros c Hc; [done|].
  apply IH. apply (lxor_range 30); [lia|apply step_range|lia].
Qed.

(** The value of symbols read as digits to the base [2^w]. *)
Abbreviation bval w := (nval (2 ^ w)).
Abbreviation digits := (nval 32).

(** Six symbols on top of a state. *)
Lemma poly_six (c v0 v1 v2 v3 v4 v5 : Z) :
  Forall (fun v => 0 <= v < 32) [v0; v1; v2; v3; v4; v5] ->
  poly c [v0; v1; v2; v3; v4; v5] = Z.lxor (Nat.iter 6 step c) (digits [v0; v1; v2; v3; v4; v5]).
Proof.
  intros Hv. repeat match goal with H : Forall _ (_ :: _) |- _ => apply list.Forall_cons in H as [? H] end.
  replace c with (Z.lxor 0 c) at 1 by apply Z.lxor_0_l. rewrite poly_lxor, Z.lxor_comm. f_equal.
  assert (forall x v, 0 <= x < 2 ^ 25 -> 0 <= v < 32 -> pstep x v = 32 * x + v) as P.
  { intros x v Hx Hv'. unfold pstep. rewrite step_small by done. rewrite Z.lxor_comm, lxor_add_pow2 by lia. lia. }
  unfold poly, nval. cbn [fold_left]. rewrite (P 0 v0) by lia. rewrite (P _ v1) by lia.
  rewrite (P _ v2) by lia. rewrite (P _ v3) by lia. rewrite (P _ v4) by lia. apply P; lia.
Qed.

Lemma digits_six (y : Z) : 0 <= y < 2 ^ 30 ->
  digits (map (fun i => Z.land (Z.shiftr y ((5 - i) * 5)) 0x1f) [0; 1; 2; 3; 4; 5]) = y.
Proof.
  intros Hy. unfold nval. cbn [map fold_left]. change 0x1f with (Z.ones 5).
  rewrite !Z.land_ones, !Z.shiftr_div_pow2 by lia. cbn [Z.sub Z.mul Z.add Z.opp Z.pos_sub Pos.add Pos.mul]. zdm.
Qed.


(** ** Characters *)

Definition lower (c : Z) : Z := if is_upper c then c + 32 else c.
Definition printable (c : Z) : bool := (33 <=? c) && (c <=? 126).
Definition hi (c : Z) : Z := Z.shiftr c 5.
Definition lo (c : Z) : Z := Z.land c 0x1f.

(** The symbol of a character, and whether it has one. *)
Definition symbol (c : Z) : Z := nth (Z.to_nat c) charset_rev 0.
Definition symbolic (c : Z) : bool := (c <? 128) && negb (symbol c =? -1).
Definition letter (v : Z) : Z := nth (Z.to_nat v) charset 0.

Lemma char_of_ascii (c : Z) : 0 <= c < 128 -> char_of c = c.
Proof. intros. unfold char_of, swrap. change (2 ^ (8 - 1)) with 128. rewrite Z.mod_small; lia. Qed.

Lemma char_of_high (c : Z) : 128 <= c < 256 -> char_of c = c - 256.
Proof. intros. unfold char_of, swrap. change (2 ^ (8 - 1)) with 128. change (2 ^ 8) with 256. zdm. Qed.

(** A property of the 128 ASCII characters, by enumeration. *)
Lemma ascii_ind (P : Z -> bool) :
  forallb (fun k => P (Z.of_nat k)) (seq 0 128) = true -> forall c, 0 <= c < 128 -> P c = true.
Proof.
  intros H c Hc. rewrite forallb_forall in H. rewrite <- (Z2Nat.id c) by lia. apply H, in_seq. lia.
Qed.

Ltac ascii P := let H := fresh in pose proof (ascii_ind P ltac:(vm_compute; reflexivity)) as H; cbv beta in H.

Lemma symbol_range (c : Z) : 0 <= c -> symbolic c = true -> 0 <= symbol c < 32.
Proof.
  intros Hc H. assert (c < 128) by (unfold symbolic in H; reflect_bools; lia).
  ascii (fun c => negb (symbolic c) || (0 <=? symbol c) && (symbol c <? 32)).
  specialize (H1 c ltac:(lia)). rewrite H in H1. reflect_bools. lia.
Qed.

(** Letters and symbols are inverse up to case. *)
Lemma letter_symbol (c : Z) : 0 <= c -> symbolic c = true -> letter (symbol c) = lower c.
Proof.
  intros Hc H. assert (c < 128) by (unfold symbolic in H; reflect_bools; lia).
  ascii (fun c => negb (symbolic c) || (letter (symbol c) =? lower c)).
  specialize (H1 c ltac:(lia)). rewrite H in H1. by apply Z.eqb_eq in H1.
Qed.

Lemma symbol_letter (v : Z) : 0 <= v < 32 ->
  0 <= letter v < 128 /\ symbolic (letter v) = true /\ symbol (letter v) = v /\ letter v <> 49 /\
  is_upper (letter v) = false.
Proof.
  intros Hv. assert (forallb (fun k => let v := Z.of_nat k in (0 <=? letter v) && (letter v <? 128) && symbolic (letter v) &&
      (symbol (letter v) =? v) && negb (letter v =? 49) && negb (is_upper (letter v))) (seq 0 32) = true) as H by (vm_compute; reflexivity).
  rewrite forallb_forall in H. specialize (H (Z.to_nat v) ltac:(apply in_seq; lia)). cbv zeta in H.
  rewrite Z2Nat.id in H by lia. reflect_bools. split_and!; done || lia.
Qed.

Lemma symbol_lower (c : Z) : 0 <= c < 256 -> symbolic (lower c) = true -> symbolic c = true /\ symbol c = symbol (lower c).
Proof.
  intros Hc H. destruct (decide (c < 128)) as [Hl|Hl].
  - ascii (fun c => negb (symbolic (lower c)) || symbolic c && (symbol c =? symbol (lower c))).
    specialize (H0 c ltac:(lia)). rewrite H in H0. cbn [negb orb] in H0. reflect_bools. done.
  - exfalso. unfold lower, is_upper, symbolic in H.
    replace (c <=? 90) with false in H by (symmetry; apply Z.leb_gt; lia). rewrite andb_false_r in H.
    replace (c <? 128) with false in H by (symmetry; apply Z.ltb_ge; lia). done.
Qed.

Lemma hrp_char (c : Z) : printable c = true ->
  0 <= lo (lower c) < 32 /\ lo (lower c) = lo c /\ 0 <= hi (lower c) < 32 /\ printable (lower c) = true /\ is_upper (lower c) = false.
Proof.
  intros H. assert (0 <= c < 128) as Hc by (unfold printable in H; reflect_bools; lia).
  ascii (fun c => negb (printable c) || ((0 <=? lo (lower c)) && (lo (lower c) <? 32) && (lo (lower c) =? lo c) &&
    (0 <=? hi (lower c)) && (hi (lower c) <? 32) && printable (lower c) && negb (is_upper (lower c)))).
  specialize (H0 c Hc). rewrite H in H0. cbn [negb orb] in H0. reflect_bools. done.
Qed.

Lemma printable_lower (c : Z) : 0 <= c < 256 -> printable (lower c) = true -> printable c = true.
Proof.
  unfold printable, lower, is_upper. intros Hc. destruct ((65 <=? c) && (c <=? 90)) eqn:E; [|done]. intros _. reflect_bools.
  apply andb_true_iff. split; apply Z.leb_le; lia.
Qed.

Lemma lower_separator (c : Z) : lower c = 49 -> c = 49.
Proof. unfold lower, is_upper. destruct ((65 <=? c) && (c <=? 90)) eqn:E; reflect_bools; lia. Qed.

(** ** The loops *)

Lemma encode_check_spec (hrp : list Z) (c : Z) : is_bytes hrp ->
  encode_check hrp c = if forallb (fun x => printable x && negb (is_upper x)) hrp
                       then Some (poly c (map hi hrp)) else None.
Proof.
  intros Hb. revert c. induction Hb as [|x hrp Hx Hb IH]; intros c; [done|]. cbn [encode_check forallb map].
  unfold is_byte in Hx. unfold printable at 1. destruct (decide (x < 128)) as [Hl|Hl].
  - rewrite char_of_ascii by lia. rewrite Z.ltb_antisym, (Z.ltb_antisym x 126), <- negb_andb.
    destruct ((33 <=? x) && (x <=? 126)); cbn [negb andb]; [|done]. destruct (is_upper x); cbn [negb andb]; [done|]. apply IH.
  - rewrite char_of_high by lia. zif. done.
Qed.

Lemma low_bits_spec (hrp : list Z) (c : Z) :
  is_bytes hrp -> forallb printable hrp = true -> low_bits hrp c = poly c (map lo hrp).
Proof.
  intros Hb. revert c. induction Hb as [|x hrp Hx Hb IH]; intros c; [done|]. cbn [low_bits forallb map].
  intros [Hp Hps]%andb_true_iff. unfold printable in Hp. reflect_bools. rewrite char_of_ascii by lia. by apply IH.
Qed.

Lemma encode_data_spec (data : list Z) (c : Z) :
  is_bytes data ->
  encode_data data c = if forallb (fun v => v <? 32) data then Some (poly c data, map letter data) else None.
Proof.
  intros Hb. revert c. induction Hb as [|v data Hv Hb IH]; intros c; [done|]. cbn [encode_data forallb map].
  unfold is_byte in Hv. rewrite Z.shiftr_div_pow2 by lia. change (2 ^ 5) with 32.
  destruct (Z.ltb_spec v 32) as [Hlt|Hge].
  - rewrite Z.div_small by lia. cbn [Z.eqb negb andb]. rewrite IH. by destruct (forallb _ data).
  - replace (v / 32 =? 0) with false by (symmetry; apply Z.eqb_neq; zdm). done.
Qed.

Lemma decode_hrp_spec (s : list Z) (c : Z) (hl hu : bool) : is_bytes s ->
  decode_hrp s c hl hu =
    if forallb printable s
    then Some (map lower s, poly c (map hi (map lower s)), hl || existsb is_lower s, hu || existsb is_upper s) else None.
Proof.
  intros Hb. revert c hl hu. induction Hb as [|x s Hx Hb IH]; intros c hl hu; [by rewrite !orb_false_r|].
  cbn [decode_hrp forallb map existsb]. unfold is_byte in Hx. unfold printable at 1. destruct (decide (x < 128)) as [Hl|Hl].
  - rewrite char_of_ascii by lia. rewrite Z.ltb_antisym, (Z.ltb_antisym x 126), <- negb_andb.
    destruct ((33 <=? x) && (x <=? 126)); cbn [negb andb]; [|done].
    assert (is_lower x = true -> is_upper x = false) as Hlu.
    { unfold is_lower, is_upper. intros. reflect_bools. apply andb_false_iff. right. apply Z.leb_gt. lia. }
    assert (lower x = if is_upper x then x - 65 + 97 else x) as -> by (unfold lower; destruct (is_upper x); lia).
    destruct (is_lower x); [rewrite Hlu by done|destruct (is_upper x)]; rewrite IH;
      (destruct (forallb printable s); [|done]); cbn [mbind option_bind orb]; by rewrite ?orb_true_r, ?orb_false_l.
  - rewrite char_of_high by lia. zif. done.
Qed.

Lemma decode_data_spec (s : list Z) (c : Z) (hl hu : bool) : is_bytes s ->
  decode_data s c hl hu =
    if forallb symbolic s
    then Some (map symbol s, poly c (map symbol s), hl || existsb is_lower s, hu || existsb is_upper s) else None.
Proof.
  intros Hb. revert c hl hu. induction Hb as [|x s Hx Hb IH]; intros c hl hu; [by rewrite !orb_false_r|].
  cbn [decode_data forallb map existsb]. unfold is_byte in Hx. unfold symbolic at 1.
  assert ((Z.land x 128 =? 0) = (x <? 128)) as ->.
  { destruct (Z.ltb_spec x 128).
    - rewrite <- (Z.mod_small x (2 ^ 7)) by lia. rewrite <- Z.land_ones by lia.
      by rewrite <- Z.land_assoc, Z.land_0_r.
    - apply Z.eqb_neq. intros E. assert (Z.testbit (Z.land x 128) 7 = false) as E7 by by rewrite E.
      rewrite Z.land_spec in E7. change (Z.testbit 128 7) with true in E7. rewrite andb_true_r in E7.
      apply Z.testbit_false in E7; [|lia]. zdm. }
  fold (symbol x). destruct (Z.ltb_spec x 128) as [Hl|Hl]; cbn [negb andb]; [|done].
  destruct (symbol x =? -1); cbn [negb andb]; [done|]. rewrite char_of_ascii, IH by lia.
  destruct (forallb symbolic s); [|done]. cbn [mbind option_bind].
  by destruct (is_lower x), (is_upper x), hl, hu.
Qed.

Lemma count_data_spec (d t : list Z) : 49 ∉ d -> count_data (rev d ++ 49 :: t) = zlen d.
Proof.
  intros Hd. assert (forall r, 49 ∉ r -> count_data (r ++ 49 :: t) = zlen r) as H.
  { induction r as [|c r IH]; intros Hr; [done|]. cbn [app count_data]. rewrite zlen_cons.
    apply not_elem_of_cons in Hr as [Hc Hr]. rewrite IH by done. by zif. }
  rewrite H; [by unfold zlen; rewrite length_rev|]. intros Hin. apply Hd.
  by apply list_elem_of_In, in_rev, list_elem_of_In.
Qed.

Lemma count_data_none (s : list Z) : 49 ∉ s -> count_data (rev s) = zlen s.
Proof.
  intros Hs. assert (forall r, 49 ∉ r -> count_data r = zlen r) as H.
  { induction r as [|c r IH]; intros Hr; [done|]. cbn [count_data]. rewrite zlen_cons.
    apply not_elem_of_cons in Hr as [Hc Hr]. rewrite IH by done. by zif. }
  rewrite H; [by unfold zlen; rewrite length_rev|]. intros Hin. apply Hs.
  by apply list_elem_of_In, in_rev, list_elem_of_In.
Qed.

(** The last separator. *)
Lemma last_separator (s : list Z) : 49 ∉ s \/ exists h d, s = h ++ 49 :: d /\ 49 ∉ d.
Proof.
  induction s as [|c s IH] using rev_ind; [left; apply not_elem_of_nil|].
  destruct (decide (c = 49)) as [->|Hc]; [right; exists s, []; split; [done|apply not_elem_of_nil]|].
  destruct IH as [H|(h & d & -> & Hd)].
  - left. rewrite elem_of_app, list_elem_of_singleton. by intros [?|?].
  - right. exists h, (d ++ [c]). rewrite <- app_assoc. split; [done|].
    rewrite elem_of_app, list_elem_of_singleton. by intros [?|?].
Qed.

(** ** Bech32 strings *)

(** The symbols that stand for the human readable part. *)
Definition expand (hrp : list Z) : list Z := map hi hrp ++ [0] ++ map lo hrp.

Definition checksum (hrp data : list Z) : Z := Z.lxor (Nat.iter 6 step (poly 1 (expand hrp ++ data))) 1.
Definition six (y : Z) : list Z := map (fun i => Z.land (Z.shiftr y ((5 - i) * 5)) 0x1f) [0; 1; 2; 3; 4; 5].
Definition readable_part (hrp : list Z) : bool := forallb (fun x => printable x && negb (is_upper x)) hrp.
Definition mixed (s : list Z) : bool := existsb is_lower s && existsb is_upper s.

Abbreviation is_symbols := (Forall (fun v => 0 <= v < 32)).

Lemma six_symbols (y : Z) : is_symbols (six y).
Proof.
  unfold six. apply list.Forall_forall. intros v Hv. apply list_elem_of_In, in_map_iff in Hv as (i & <- & _).
  change 0x1f with (Z.ones 5). rewrite Z.land_ones by lia. apply Z.mod_pos_bound. lia.
Qed.

Lemma step_poly_zero (c : Z) : step c = poly c [0].
Proof. cbn. unfold pstep. by rewrite Z.lxor_0_r. Qed.

Lemma readable_printable (hrp : list Z) : readable_part hrp = true -> forallb printable hrp = true.
Proof. unfold readable_part. rewrite !forallb_forall. intros H x Hx. by apply H, andb_true_iff in Hx as [? _]. Qed.

Lemma bech32_encode_spec (hrp data : list Z) : is_bytes hrp -> is_bytes data ->
  bech32_encode hrp data =
    if readable_part hrp && (zlen hrp + 7 + zlen data <=? 90) && forallb (fun v => v <? 32) data
    then Some (hrp ++ 49 :: map letter (data ++ six (checksum hrp data))) else None.
Proof.
  intros Hh Hd. unfold bech32_encode. rewrite encode_check_spec by done. fold (readable_part hrp).
  destruct (readable_part hrp) eqn:Er; [|done]. cbn [mbind option_bind andb].
  rewrite Z.ltb_antisym. destruct (_ <=? 90); [|done]. cbn [negb andb].
  rewrite low_bits_spec, step_poly_zero by (done || by apply readable_printable).
  rewrite encode_data_spec by done. rewrite <- !poly_app. destruct (forallb _ data); [|done].
  cbn [mbind option_bind]. rewrite map_app. unfold checksum, expand, six. rewrite map_map.
  rewrite <- !app_assoc. done.
Qed.

Lemma bech32_decode_spec (h d : list Z) : is_bytes (h ++ 49 :: d) -> 49 ∉ d ->
  bech32_decode (h ++ 49 :: d) =
    if (zlen h + 1 + zlen d <=? 90) && negb (zlen h =? 0) && (6 <=? zlen d) && forallb printable h && forallb symbolic d &&
       negb (mixed (h ++ 49 :: d)) && (poly 1 (expand (map lower h) ++ map symbol d) =? 1)
    then Some (map lower h, ztake (zlen d - 6) (map symbol d)) else None.
Proof.
  intros Hb Hs. apply Forall_app in Hb as [Hh Hd]. apply Forall_inv_tail in Hd. unfold bech32_decode.
  rewrite rev_app_distr. cbn [rev]. rewrite <- app_assoc. cbn [app]. rewrite count_data_spec by done.
  rewrite zlen_app, zlen_cons. pose proof (zlen_nonneg h) as Ph. pose proof (zlen_nonneg d) as Pd.
  replace (zlen h + (1 + zlen d)) with (zlen h + 1 + zlen d) by lia.
  replace (zlen h + 1 + zlen d - (1 + zlen d)) with (zlen h) by lia.
  destruct (Z.leb_spec (zlen h + 1 + zlen d) 90) as [H90|H90]; [|by replace (90 <? _) with true by (symmetry; apply Z.ltb_lt; lia); rewrite orb_true_r].
  replace (90 <? _) with false by (symmetry; apply Z.ltb_ge; lia).
  rewrite orb_false_r. cbn [andb]. destruct (Z.eqb_spec (zlen h) 0) as [H0|H0]; cbn [negb andb].
  { replace (_ <=? 1 + zlen d) with true by (symmetry; apply Z.leb_le; lia). by destruct (_ <? 8). }
  replace (_ <=? 1 + zlen d) with false by (symmetry; apply Z.leb_gt; lia). rewrite orb_false_l, (Z.ltb_antisym 6).
  destruct (Z.leb_spec 6 (zlen d)) as [H6|H6]; cbn [negb andb]; [|by destruct (_ <? 8)].
  replace (_ <? 8) with false by (symmetry; apply Z.ltb_ge; lia).
  rewrite wrap_small by lia. rewrite ztake_app_len by done.
  rewrite decode_hrp_spec by done. destruct (forallb printable h) eqn:Ep; [|done]. cbn [mbind option_bind andb orb].
  replace (zdrop (zlen h + 1) (h ++ 49 :: d)) with d.
  2:{ change (h ++ 49 :: d) with (h ++ [49] ++ d). rewrite app_assoc. symmetry. apply zdrop_app_len. zlia. }
  rewrite decode_data_spec by done. destruct (forallb symbolic d); [|done]. cbn [mbind option_bind andb].
  rewrite low_bits_spec, step_poly_zero by done. rewrite <- !poly_app.
  assert (map lo h = map lo (map lower h)) as ->.
  { rewrite map_map. apply map_ext_in. intros c Hc. rewrite forallb_forall in Ep. symmetry. by apply hrp_char, Ep. }
  unfold mixed. rewrite !existsb_app. cbn [existsb]. change (is_lower 49) with false. change (is_upper 49) with false.
  cbn [orb]. unfold expand. rewrite <- !app_assoc. by destruct (_ && _).
Qed.

Lemma bech32_decode_none (s : list Z) : 49 ∉ s -> bech32_decode s = None.
Proof.
  intros Hs. unfold bech32_decode. rewrite count_data_none by done. case_bool; [done|].
  replace (zlen s <=? 1 + zlen s) with true by (symmetry; apply Z.leb_le; lia). done.
Qed.

(** The checksum is the only completion of a state. *)
Lemma poly_checksum (hrp data t : list Z) : length t = 6%nat -> is_symbols t -> is_symbols (expand hrp ++ data) ->
  (poly 1 (expand hrp ++ data ++ t) = 1 <-> t = six (checksum hrp data)).
Proof.
  intros Hl Ht He. rewrite app_assoc, poly_app. set (c := poly 1 (expand hrp ++ data)).
  assert (0 <= c < 2 ^ 30) as Hc by (apply poly_range; [lia|done]).
  assert (0 <= checksum hrp data < 2 ^ 30) as Hk.
  { unfold checksum. apply (lxor_range 30); [lia| |lia]. fold c. apply step_range. }
  destruct t as [|v0 [|v1 [|v2 [|v3 [|v4 [|v5 [|]]]]]]]; try done. rewrite poly_six by done. split.
  - intros E. apply (nval_inj 32); [lia|done|done|apply six_symbols|]. unfold six. rewrite digits_six by done.
    unfold checksum. fold c. by rewrite <- E, <- Z.lxor_assoc, Z.lxor_nilpotent, Z.lxor_0_l.
  - intros ->. unfold six. rewrite digits_six by done.
    unfold checksum. fold c. by rewrite <- Z.lxor_assoc, Z.lxor_nilpotent, Z.lxor_0_l.
Qed.

Lemma expand_symbols (hrp : list Z) : readable_part hrp = true -> is_symbols (expand hrp).
Proof.
  unfold readable_part. rewrite forallb_forall. intros Hr.
  assert (forall x, x ∈ hrp -> 0 <= hi x < 32 /\ 0 <= lo x < 32) as H.
  { intros x Hx. apply list_elem_of_In, Hr, andb_true_iff in Hx as [Hp Hu]. apply negb_true_iff in Hu.
    destruct (hrp_char x Hp) as (? & _ & ? & _). unfold lower in *. rewrite Hu in *. done. }
  unfold expand. apply Forall_app. split; [|constructor; [lia|]]; apply list.Forall_forall; intros v Hv;
    apply list_elem_of_In, in_map_iff in Hv as (x & <- & Hx); by apply H, list_elem_of_In.
Qed.

Lemma lower_readable (h : list Z) : forallb printable h = true -> readable_part (map lower h) = true.
Proof.
  unfold readable_part. rewrite !forallb_forall. intros H x Hx. apply in_map_iff in Hx as (c & <- & Hc).
  destruct (hrp_char c (H c Hc)) as (_ & _ & _ & -> & ->). done.
Qed.

Lemma readable_lower (h : list Z) : is_bytes h -> readable_part (map lower h) = true -> forallb printable h = true.
Proof.
  unfold readable_part. rewrite !forallb_forall. intros Hb H x Hx. apply printable_lower.
  { unfold is_bytes in Hb. rewrite list.Forall_forall in Hb. by apply Hb, list_elem_of_In. }
  specialize (H (lower x) (in_map _ _ _ Hx)). by apply andb_true_iff in H as [? _].
Qed.

Lemma symbols_range (d : list Z) : is_bytes d -> forallb symbolic d = true -> is_symbols (map symbol d).
Proof.
  intros Hb H. rewrite forallb_forall in H. apply list.Forall_forall. intros v Hv.
  apply list_elem_of_In, in_map_iff in Hv as (c & <- & Hc). apply symbol_range; [|by apply H].
  unfold is_bytes in Hb. rewrite list.Forall_forall in Hb. apply list_elem_of_In, Hb in Hc. unfold is_byte in Hc. lia.
Qed.

Lemma letters_symbols (d : list Z) : is_bytes d -> forallb symbolic d = true -> map letter (map symbol d) = map lower d.
Proof.
  intros Hb H. rewrite forallb_forall in H. rewrite map_map. apply map_ext_in. intros c Hc. apply letter_symbol; [|by apply H].
  unfold is_bytes in Hb. rewrite list.Forall_forall in Hb. apply list_elem_of_In, Hb in Hc. unfold is_byte in Hc. lia.
Qed.

(** Characters whose lower case is the letters of some symbols. *)
Lemma symbols_letters (d vs : list Z) : is_bytes d -> is_symbols vs -> map lower d = map letter vs ->
  (49 ∉ d) /\ forallb symbolic d = true /\ map symbol d = vs.
Proof.
  intros Hb. revert vs. induction Hb as [|c d Hc Hb IH]; intros vs Hv E.
  - destruct vs; [|done]. split_and!; [apply not_elem_of_nil|done|done].
  - destruct vs as [|v vs]; [done|]. cbn [map] in E. injection E as E1 E2.
    apply list.Forall_cons in Hv as [Hv Hvs]. destruct (IH vs Hvs E2) as (H1 & H2 & H3).
    destruct (symbol_letter v Hv) as (_ & Hs & Hsv & Hne & _). rewrite <- E1 in Hs, Hsv, Hne.
    destruct (symbol_lower c Hc Hs) as [Hs' Es]. cbn [forallb map]. rewrite Hs', H2, H3, Es, Hsv. split_and!; try done.
    apply not_elem_of_cons. split; [|done]. intros Ec. rewrite <- Ec in Hne. by apply Hne.
Qed.

Lemma map_lower_length (a b : list Z) : map lower a = b -> zlen a = zlen b.
Proof. intros <-. unfold zlen. by rewrite length_map. Qed.

Lemma symbols_below (data : list Z) : is_bytes data -> forallb (fun v => v <? 32) data = true -> is_symbols data.
Proof.
  intros Hd Hf. rewrite forallb_forall in Hf. apply list.Forall_forall. intros v Hin. unfold is_bytes in Hd.
  rewrite list.Forall_forall in Hd. pose proof (Hd v Hin) as Hv. apply list_elem_of_In, Hf in Hin. unfold is_byte in Hv. lia.
Qed.

Lemma decode_encodes (s hrp data : list Z) :
  is_bytes s -> is_bytes hrp -> is_bytes data -> bech32_decode s = Some (hrp, data) ->
  hrp <> [] /\ mixed s = false /\ bech32_encode hrp data = Some (map lower s).
Proof.
  intros Hs Hh Hd. rewrite bech32_encode_spec by done.
  destruct (last_separator s) as [H|(h & d & -> & Hsep)]; [by rewrite bech32_decode_none|].
  rewrite bech32_decode_spec by done. case_bool; [|done]. intros [= <- <-]. reflect_bools.
  apply Forall_app in Hs as [Hbh Hbd]. apply Forall_inv_tail in Hbd.
  assert (readable_part (map lower h) = true) as Hr by by apply lower_readable.
  pose proof (symbols_range d Hbd) as Hv. specialize (Hv ltac:(done)).
  rewrite <- (ztake_zdrop (zlen d - 6) (map symbol d)) in H0. rewrite <- (ztake_zdrop (zlen d - 6) (map symbol d)) in Hv.
  apply Forall_app in Hv as [Hv1 Hv2].
  assert (zlen (map symbol d) = zlen d) as El by (unfold zlen; by rewrite length_map).
  apply poly_checksum in H0; [|unfold zlen, zdrop in *; rewrite length_drop; lia|done|by apply Forall_app; split; [apply expand_symbols|]].
  split_and!; [intros E; apply map_eq_nil in E; subst; done|done|].
  rewrite Hr, <- H0, ztake_zdrop, letters_symbols by done.
  assert (zlen (map lower h) = zlen h) as Eh by (unfold zlen; by rewrite length_map).
  pose proof (zlen_ztake (zlen d - 6) (map symbol d)) as Et. zif. replace (forallb _ _) with true; [|symmetry; apply forallb_forall; intros v Hin; rewrite list.Forall_forall in Hv1;
    apply list_elem_of_In, Hv1 in Hin; lia]. by rewrite map_app.
Qed.

Lemma encode_decodes (s hrp data : list Z) :
  is_bytes s -> is_bytes hrp -> is_bytes data ->
  hrp <> [] -> mixed s = false -> bech32_encode hrp data = Some (map lower s) ->
  bech32_decode s = Some (hrp, data).
Proof.
  intros Hs Hh Hd. rewrite bech32_encode_spec by done.
  intros Hne Hm E. case_bool; [|done]. injection E as E. reflect_bools. symmetry in E.
  assert (is_symbols data) as Hv by by apply symbols_below.
  apply map_eq_app in E as (h & d & -> & Eh & E). destruct d as [|c d]; [done|]. cbn [map] in E. injection E as Ec Ed.
  apply lower_separator in Ec as ->. apply Forall_app in Hs as [Hbh Hbd]. pose proof Hbd as Hbd'. apply Forall_inv_tail in Hbd.
  destruct (symbols_letters d _ Hbd (proj2 (Forall_app _ _ _) (conj Hv (six_symbols _))) Ed) as (Hsep & Hsym & Esym).
  rewrite bech32_decode_spec by (done || by apply Forall_app). subst hrp.
  apply map_lower_length in Ed. assert (zlen (map lower h) = zlen h) as Eh by (unfold zlen; by rewrite length_map).
  assert (zlen d = zlen data + 6) as El.
  { rewrite Ed. unfold zlen. rewrite length_map, length_app. unfold six. cbn [length map]. lia. }
  assert (zlen h <> 0) as Hh0 by (destruct h; [done|rewrite zlen_cons; zlia]).
  rewrite (readable_lower h) by done. rewrite Hm, Hsym, Esym.
  assert (is_symbols (expand (map lower h) ++ data)) as Hx by (apply Forall_app; split; [by apply expand_symbols|done]).
  rewrite (proj2 (poly_checksum (map lower h) data (six (checksum (map lower h) data)) eq_refl (six_symbols _) Hx) eq_refl).
  rewrite Z.eqb_refl. pose proof (zlen_nonneg data). zif. rewrite ztake_app_len by lia. done.
Qed.

(** [bech32_decode] inverts [bech32_encode] and accepts nothing else.  It
    returns a human readable part and data exactly when the part is not empty,
    the string does not mix cases, and its lower case form is what
    [bech32_encode] makes of them: any string of at most 90 characters with a
    wrong checksum, a foreign character or a wrong length is refused, and any
    encoded string, in either case, is read back. *)
Theorem bech32_decode_exact (s hrp data : list Z) :
  is_bytes s -> is_bytes hrp -> is_bytes data ->
  (bech32_decode s = Some (hrp, data) <->
   hrp <> [] /\ mixed s = false /\ bech32_encode hrp data = Some (map lower s)).
Proof.
  intros Hs Hh Hd. split; [by apply decode_encodes|]. intros (? & ? & ?). by apply encode_decodes.
Qed.

Definition bip173_upper : list Z := (* "A12UEL5L" *) [65; 49; 50; 85; 69; 76; 53; 76].

Lemma bech32_decode_exact_witness :
  bech32_decode bip173_upper = Some ([97], []) /\ mixed bip173_upper = false /\
  bech32_encode [97] [] = Some (map lower bip173_upper).
Proof.
  assert (bech32_decode bip173_upper = Some ([97], [])) as E by (vm_compute; reflexivity). split; [done|].
  apply (bech32_decode_exact bip173_upper [97] []); [by apply is_bytes_of|by apply is_bytes_of|constructor|done].
Defined.

(** Changing one character of the data part changes the final state. *)
Lemma poly_change (c x y : Z) (t : list Z) :
  0 <= x < 32 -> 0 <= y < 32 -> poly c (x :: t) = poly c (y :: t) -> x = y.
Proof.
  intros Hx Hy. cbn [poly fold_left]. intros E. change (poly (pstep c x) t = poly (pstep c y) t) in E.
  assert (pstep c x = Z.lxor (pstep c y) (Z.lxor x y)) as Ex.
  { unfold pstep. rewrite Z.lxor_assoc, (Z.lxor_comm x y), <- (Z.lxor_assoc y y x), Z.lxor_nilpotent. by rewrite Z.lxor_0_l. }
  rewrite Ex, poly_lxor in E.
  assert (Nat.iter (length t) step (Z.lxor x y) = 0) as E0.
  { rewrite <- (Z.lxor_0_l (Nat.iter _ _ _)), <- (Z.lxor_nilpotent (poly (pstep c y) t)), Z.lxor_assoc, E. done. }
  apply iter_step_zero in E0; [by apply Z.lxor_eq|].
  pose proof (lxor_range 5 x y ltac:(lia) ltac:(lia) ltac:(lia)). lia.
Qed.

(** C36: [bech32_decode] detects the substitution of one symbol.  If a string is
    accepted, replacing one character after the separator by a character other
    than '1' that is not the same letter in the other case gives a string that is
    refused, wherever the character is: in the data or in the checksum.  (A '1'
    is a new separator, and moves the checksum: see [bech32_new_separator].) *)
Theorem bech32_detects (h a b : list Z) (x y : Z) (r : list Z * list Z) :
  is_bytes (h ++ 49 :: a ++ x :: b) -> 49 ∉ a ++ x :: b -> is_byte y -> y <> 49 -> lower y <> lower x ->
  bech32_decode (h ++ 49 :: a ++ x :: b) = Some r ->
  bech32_decode (h ++ 49 :: a ++ y :: b) = None.
Proof.
  intros Hb Hsep Hy Hy49 Hxy. pose proof Hb as Hb'. apply Forall_app in Hb as [Hh Hb]. apply list.Forall_cons in Hb as [_ Hb].
  apply Forall_app in Hb as [Ha Hb]. apply list.Forall_cons in Hb as [Hx Hb].
  apply not_elem_of_app in Hsep as [Hsa Hsb]. apply not_elem_of_cons in Hsb as [Hsx Hsb].
  rewrite bech32_decode_spec by (done || by apply not_elem_of_app; split; [|apply not_elem_of_cons]).
  rewrite bech32_decode_spec.
  2:{ repeat (apply Forall_app; split; [done|]; constructor; [done|]). done. }
  2:{ apply not_elem_of_app; split; [done|]. by apply not_elem_of_cons. }
  case_bool; [|done]. intros _. reflect_bools. case_bool; [|done]. reflect_bools. exfalso.
  repeat match goal with H : forallb symbolic (_ ++ _) = true |- _ => rewrite forallb_app in H; cbn [forallb] in H; reflect_bools end.
  rewrite !map_app in *. cbn [map] in *. rewrite !app_assoc in *. rewrite poly_app in *.
  unfold is_byte in *. assert (symbol x = symbol y) as E.
  { eapply poly_change; [apply symbol_range; (done || lia)|apply symbol_range; (done || lia)|].
    match goal with H : poly _ _ = 1 |- _ => rewrite H end. congruence. }
  apply Hxy. rewrite <- !letter_symbol by (done || lia). by rewrite E.
Qed.

(** "b1aeu24f7jl7p05ca" and "b1aeu24f7j17p05ca": a '1' in place of a symbol is
    a new separator, and both strings are accepted. *)
Example bech32_new_separator :
  bech32_decode [98; 49; 97; 101; 117; 50; 52; 102; 55; 106; 108; 55; 112; 48; 53; 99; 97] = Some ([98], [29; 25; 28; 10; 21; 9; 30; 18; 31]) /\
  bech32_decode [98; 49; 97; 101; 117; 50; 52; 102; 55; 106; 49; 55; 112; 48; 53; 99; 97] =
    Some ([98; 49; 97; 101; 117; 50; 52; 102; 55; 106], []).
Proof. by vm_compute. Qed.

(** "A12UEL5L" with its third data character changed to Q. *)
Lemma bech32_detects_witness : bech32_decode ([65] ++ 49 :: [50; 85] ++ 81 :: [76; 53; 76]) = None.
Proof.
  apply (bech32_detects [65] [50; 85] [76; 53; 76] 69 81 ([97], [])); try done.
  - by apply is_bytes_of.
  - intros H. apply list_elem_of_In in H. cbn in H. lia.
Defined.

(** ** Regrouping bits *)

Section Convert.

Context (i o : Z) (Hi : 0 < i <= 8) (Ho : 0 < o <= 8).

Abbreviation maxv := (u32 (u32 (Z.shiftl 1 o) - 1)).

Lemma land_maxv (x : Z) : Z.land x maxv = x mod 2 ^ o.
Proof.
  assert (maxv = Z.ones o) as ->; [|apply Z.land_ones; lia].
  rewrite Z.shiftl_1_l, Z.ones_equiv. assert (2 ^ 1 <= 2 ^ o <= 2 ^ 8) by (split; apply Z.pow_le_mono_r; lia).
  rewrite (wrap_small 32 (2 ^ o)), wrap_small; lia.
Qed.

(** A group of bits of the low word. *)
Lemma low_group (N k : Z) : 0 <= k -> k + o <= 32 ->
  Z.land (Z.shiftr (u32 N) k) maxv = (N / 2 ^ k) mod 2 ^ o.
Proof.
  intros Hk Hko. rewrite land_maxv, <- Z.shiftr_div_pow2 by lia. rewrite <- !Z.land_ones by lia.
  apply Z.bits_inj'. intros j Hj. rewrite !Z.land_spec, !Z.shiftr_spec, testbit_wrap, Z.testbit_ones_nonneg by lia.
  destruct (Z.ltb_spec j o); [|by rewrite !andb_false_r]. by replace (j + k <? 32) with true by (symmetry; apply Z.ltb_lt; lia).
Qed.

Lemma div_group (N k : Z) : 0 <= k -> 2 ^ o * (N / 2 ^ (k + o)) + (N / 2 ^ k) mod 2 ^ o = N / 2 ^ k.
Proof.
  intros Hk. rewrite Z.pow_add_r, <- Z.div_div by lia. symmetry. apply Z_div_mod_eq_full.
Qed.

Lemma emit_spec (fuel : nat) (N bits : Z) (pre : list Z) :
  0 <= bits <= 32 -> (Z.to_nat bits < fuel)%nat -> bval o pre = N / 2 ^ bits ->
  exists out bits', emit_bits fuel (u32 N) bits o maxv = (out, bits') /\ 0 <= bits' < o /\
    bval o (pre ++ out) = N / 2 ^ bits' /\ Forall (fun v => 0 <= v < 2 ^ o) out /\ o * zlen out + bits' = bits.
Proof.
  revert bits pre. induction fuel as [|fuel IH]; intros bits pre Hb Hf E; [lia|]. cbn [emit_bits].
  destruct (Z.leb_spec o bits) as [Hle|Hlt].
  - destruct (IH (bits - o) (pre ++ [(N / 2 ^ (bits - o)) mod 2 ^ o])) as (out & bits' & -> & Hb' & E' & Hr & El); [lia|lia| |].
    { rewrite nval_snoc, E. pose proof (div_group N (bits - o) ltac:(lia)) as G. by replace (bits - o + o) with bits in G by lia. }
    rewrite low_group by lia. eexists _, _. split; [done|]. rewrite <- app_assoc in E'. split_and!; [lia|lia|done| |rewrite zlen_cons; lia].
    constructor; [apply Z.mod_pos_bound; lia|done].
  - exists [], bits. rewrite (app_nil_r pre). change (zlen []) with 0. split_and!; (done || lia).
Qed.

(** The value of the input read so far, digit by digit. *)
Abbreviation acc := (fun N x => 2 ^ i * N + x).

Lemma loop_spec (input : list Z) (N bits : Z) (pre : list Z) :
  0 <= bits < o -> Forall (fun v => 0 <= v < 2 ^ i) input -> bval o pre = N / 2 ^ bits ->
  exists out bits', convert_loop input (u32 N) bits i o maxv = (out, u32 (fold_left acc input N), bits') /\
    0 <= bits' < o /\ bval o (pre ++ out) = fold_left acc input N / 2 ^ bits' /\
    Forall (fun v => 0 <= v < 2 ^ o) out /\ o * zlen out + bits' = bits + i * zlen input.
Proof.
  intros Hb Hin. revert N bits pre Hb. induction Hin as [|x input Hx Hin IH]; intros N bits pre Hb E.
  { exists [], bits. rewrite (app_nil_r pre). change (zlen []) with 0. split_and!; (done || lia). }
  cbn [convert_loop fold_left].
  assert (Z.lor (u32 (Z.shiftl (u32 N) i)) x = u32 (2 ^ i * N + x)) as ->.
  { rewrite Z.add_comm, <- lor_add_pow2 by lia. rewrite Z.lor_comm. apply Z.bits_inj'. intros j Hj.
    rewrite testbit_wrap, !Z.lor_spec, testbit_wrap, !Z.shiftl_spec, testbit_wrap by lia.
    destruct (Z.ltb_spec j 32); cbn [andb]; [by replace (j - i <? 32) with true by (symmetry; apply Z.ltb_lt; lia)|].
    rewrite orb_false_r. apply (testbit_high i); [done|lia]. }
  destruct (emit_spec (Z.to_nat (bits + i + 1)) (2 ^ i * N + x) (bits + i) pre) as (out & bits1 & -> & Hb1 & E1 & Hr1 & El1); [lia|lia| |].
  { rewrite E, (Z.add_comm bits), Z.pow_add_r, <- Z.div_div by lia.
    by rewrite (Z.mul_comm (2 ^ i)), Z.div_add_l, (Z.div_small x), Z.add_0_r by lia. }
  destruct (IH (2 ^ i * N + x) bits1 (pre ++ out) Hb1 E1) as (out' & bits2 & -> & Hb2 & E2 & Hr2 & El2).
  eexists _, _. split; [done|]. rewrite <- app_assoc in E2. rewrite zlen_app, zlen_cons.
  split_and!; [lia|lia|done|by apply Forall_app|lia].
Qed.

Lemma convert_loop_spec (input : list Z) : Forall (fun v => 0 <= v < 2 ^ i) input ->
  exists out bits, convert_loop input 0 0 i o maxv = (out, u32 (bval i input), bits) /\
    0 <= bits < o /\ bval o out = bval i input / 2 ^ bits /\
    Forall (fun v => 0 <= v < 2 ^ o) out /\ o * zlen out + bits = i * zlen input.
Proof.
  intros H. destruct (loop_spec input 0 0 [] ltac:(lia) H eq_refl) as (out & bits & E & Hb & Ev & Hr & El).
  exists out, bits. split_and!; (done || lia).
Qed.

(** The bits that are left over, moved to the top of a group. *)
Lemma rest_group (N bits : Z) : 0 <= bits < o ->
  Z.land (u32 (Z.shiftl (u32 N) (o - bits))) maxv = 2 ^ (o - bits) * (N mod 2 ^ bits).
Proof.
  intros Hb. rewrite land_maxv. unfold wrap.
  assert (forall x, (x mod 2 ^ 32) mod 2 ^ o = x mod 2 ^ o) as M.
  { intros x. replace (2 ^ 32) with (2 ^ o * 2 ^ (32 - o)) by (rewrite <- Z.pow_add_r by lia; f_equal; lia).
    rewrite Z.rem_mul_r by lia. by rewrite (Z.mul_comm (2 ^ o)), Z_mod_plus_full, Zmod_mod. }
  rewrite M, Z.shiftl_mul_pow2 by lia.
  rewrite <- Zmult_mod_idemp_l, M, Zmult_mod_idemp_l. rewrite Z.mul_comm.
  replace (2 ^ o) with (2 ^ (o - bits) * 2 ^ bits) by (rewrite <- Z.pow_add_r by lia; f_equal; lia).
  rewrite Z.mul_mod_distr_l; lia.
Qed.

End Convert.

(** [data] holds the bits of the bytes [prog], followed by fewer than five zero
    bits. *)
Definition packs (prog data : list Z) : Prop :=
  exists k, 0 <= k < 5 /\ 5 * zlen data = 8 * zlen prog + k /\ bval 5 data = 2 ^ k * bval 8 prog.

Lemma convert_pad (prog : list Z) : is_bytes prog ->
  exists data, convert_bits 5 prog 8 true = (data, true) /\ is_symbols data /\ packs prog data.
Proof.
  intros Hp. unfold convert_bits.
  destruct (convert_loop_spec 8 5 ltac:(lia) ltac:(lia) prog Hp) as (out & bits & -> & Hb & Ev & Hr & El).
  rewrite rest_group by lia. set (N := bval 8 prog) in *. eexists. split; [done|].
  destruct (Z.eqb_spec bits 0) as [->|Hne].
  - rewrite app_nil_r. split; [done|]. exists 0. rewrite Ev, Z.div_1_r. lia.
  - assert (0 <= N mod 2 ^ bits < 2 ^ bits) as Hm by (apply Z.mod_pos_bound; lia).
    assert (32 = 2 ^ (5 - bits) * 2 ^ bits) as E32 by (rewrite <- Z.pow_add_r by lia; by replace (5 - bits + bits) with 5 by lia).
    split; [apply Forall_app; split; [done|repeat constructor; nia]|].
    exists (5 - bits). rewrite nval_snoc, Ev, zlen_app. change (zlen [_]) with 1. change (2 ^ 5) with 32.
    split_and!; [lia|lia|lia|]. pose proof (Z_div_mod_eq_full N (2 ^ bits)) as Edm. rewrite E32. nia.
Qed.

Lemma convert_unpad (data : list Z) : is_symbols data ->
  exists out ok, convert_bits 8 data 5 false = (out, ok) /\ is_bytes out /\ 8 * zlen out <= 5 * zlen data /\
    (ok = true -> packs out data) /\ (forall p, is_bytes p -> packs p data -> ok = true /\ p = out).
Proof.
  intros Hd. unfold convert_bits.
  destruct (convert_loop_spec 5 8 ltac:(lia) ltac:(lia) data Hd) as (out & bits & -> & Hb & Ev & Hr & El).
  rewrite rest_group by lia. set (N := bval 5 data) in *.
  assert (0 <= N mod 2 ^ bits < 2 ^ bits) as Hm by (apply Z.mod_pos_bound; lia).
  pose proof (Z_div_mod_eq_full N (2 ^ bits)) as Edm. assert (0 < 2 ^ (8 - bits)) by (apply Z.pow_pos_nonneg; lia).
  assert (forall p, is_bytes p -> packs p data -> (N mod 2 ^ bits = 0 /\ bits < 5) /\ p = out) as U.
  { intros p Hp (k & Hk & Ek & EN). fold N in EN. assert (k = bits) as -> by lia.
    assert (bval 8 p = N / 2 ^ bits) as E by (rewrite EN, Z.mul_comm, Z.div_mul by lia; done).
    split; [split; [rewrite EN, Z.mul_comm; apply Z.mod_mul; lia|lia]|].
    apply (nval_inj (2 ^ 8)); [lia|unfold zlen in *; lia|done|done|lia]. }
  exists out. destruct (_ || _) eqn:Eb; eexists; (split; [done|]); (split; [done|]); (split; [lia|]); (split; [try done|]).
  - intros p Hp P. destruct (U p Hp P) as [[Z0 H5] _]. rewrite Z0, Z.mul_0_r in Eb. reflect_bools. destruct Eb as [Eb|Eb]; [done|lia].
  - intros _. reflect_bools. exists bits. fold N. split_and!; [lia|lia|lia|nia].
  - intros p Hp P. by destruct (U p Hp P).
Qed.

(** Packing is a function of the bytes. *)
Lemma packs_fun (prog data data' : list Z) :
  is_symbols data -> is_symbols data' -> packs prog data -> packs prog data' -> data = data'.
Proof.
  intros Hd Hd' (k & Hk & El & Ev) (k' & Hk' & El' & Ev'). assert (k = k') as -> by lia.
  apply (nval_inj (2 ^ 5)); [lia|unfold zlen in *; lia|done|done|lia].
Qed.

Lemma convert_exact (prog data : list Z) : is_bytes prog -> is_symbols data ->
  (convert_bits 8 data 5 false = (prog, true) <-> fst (convert_bits 5 prog 8 true) = data).
Proof.
  intros Hp Hd. destruct (convert_pad prog Hp) as (data' & -> & Hd' & P'). cbn [fst].
  destruct (convert_unpad data Hd) as (out & ok & -> & Ho & _ & Hok & Hun). split.
  - intros [= -> ->]. by apply (packs_fun prog), Hok.
  - intros ->. by destruct (Hun prog Hp P') as [-> ->].
Qed.

(** ** Segwit addresses *)

Lemma decode_result (s hrp data : list Z) : is_bytes s -> bech32_decode s = Some (hrp, data) ->
  is_bytes hrp /\ (0 ∉ hrp) /\ is_symbols data /\ zlen hrp <= 83 /\ zlen data <= 82.
Proof.
  intros Hs. destruct (last_separator s) as [H|(h & d & -> & Hsep)]; [by rewrite bech32_decode_none|].
  rewrite bech32_decode_spec by done. case_bool; [|done]. intros [= <- <-]. reflect_bools.
  apply Forall_app in Hs as [Hbh Hbd]. apply Forall_inv_tail in Hbd.
  match goal with H : forallb printable h = true |- _ => rewrite forallb_forall in H; rename H into Hp end.
  assert (forall x, x ∈ map lower h -> 33 <= x <= 126) as Hx.
  { intros x Hin. apply list_elem_of_In, in_map_iff in Hin as (c & <- & Hc).
    destruct (hrp_char c (Hp c Hc)) as (_ & _ & _ & Hl & _). unfold printable in Hl. reflect_bools. lia. }
  split_and!.
  - apply list.Forall_forall. intros x Hin. apply Hx in Hin. unfold is_byte. lia.
  - intros Hin. apply Hx in Hin. lia.
  - apply Forall_take. by apply symbols_range.
  - unfold zlen in *. rewrite length_map. lia.
  - rewrite zlen_ztake. assert (zlen (map symbol d) = zlen d) by (unfold zlen; by rewrite length_map). pose proof (zlen_nonneg h). lia.
Qed.

Lemma strncmp_84_spec (a b : list Z) : (0 ∉ a) -> (0 ∉ b) -> zlen b <= 83 -> (strncmp_84 a b = false <-> a = b).
Proof.
  unfold strncmp_84, zlen. intros Ha Hb Hl. rewrite negb_false_iff, bool_decide_eq_true.
  split; [|by intros ->]. rewrite (take_ge (b ++ [0])) by (rewrite length_app; cbn; lia). intros E.
  destruct (decide (84 <= Z.of_nat (length a))) as [H84|H84].
  - rewrite take_app_le in E by lia. exfalso. apply Ha. rewrite <- (take_drop 84 a), E, !elem_of_app. left. right. by apply list_elem_of_singleton.
  - rewrite take_ge in E by (rewrite length_app; cbn; lia). by apply app_inj_tail in E as [-> _].
Qed.

Lemma symbols_bytes (d : list Z) : is_symbols d -> is_bytes d.
Proof. intros H. apply (list.Forall_impl _ _ _ H). unfold is_byte. lia. Qed.

Lemma encode_symbols (hrp data out : list Z) : is_bytes data -> bech32_encode hrp data = Some out -> is_symbols data.
Proof.
  intros Hd. unfold bech32_encode. destruct (encode_check hrp 1); [|done]. cbn [mbind option_bind].
  case_bool; [done|]. rewrite encode_data_spec by done. case_bool; [|done]. intros _. by apply symbols_below.
Qed.

(** The conditions on a version and a program that both directions share. *)
Definition program_ok (ver : Z) (prog : list Z) : bool :=
  (ver <=? 16) && (2 <=? zlen prog) && (zlen prog <=? 40) && (negb (ver =? 0) || (zlen prog =? 20) || (zlen prog =? 32)).

Lemma segwit_encode_spec (hrp prog : list Z) (ver : Z) :
  segwit_addr_encode hrp ver prog =
    if program_ok ver prog then bech32_encode hrp (u8 ver :: fst (convert_bits 5 prog 8 true)) else None.
Proof.
  unfold segwit_addr_encode, program_ok. rewrite !(Z.ltb_antisym _ 16), (Z.ltb_antisym 2), (Z.ltb_antisym _ 40).
  destruct (_ <=? 16), (ver =? 0), (2 <=? _), (_ <=? 40), (_ =? 20), (_ =? 32); done.
Qed.

Lemma segwit_decode_spec (hrp addr : list Z) : is_bytes addr -> (0 ∉ hrp) ->
  segwit_addr_decode hrp addr =
    match bech32_decode addr with
    | Some (hrp', ver :: data) =>
        let '(prog, ok) := convert_bits 8 data 5 false in
        if bool_decide (hrp = hrp') && (zlen data <=? 64) && ok && program_ok ver prog then Some (ver, prog) else None
    | _ => None
    end.
Proof.
  intros Ha H0. unfold segwit_addr_decode. destruct (bech32_decode addr) as [[hrp' data]|] eqn:E; [|done].
  destruct (decode_result addr hrp' data Ha E) as (_ & H0' & _ & Hl & _). cbn [mbind option_bind].
  destruct data as [|ver data]; [done|]. cbn [nth drop]. rewrite drop_0, zlen_cons. pose proof (zlen_nonneg data).
  replace (1 + zlen data =? 0) with false by (symmetry; apply Z.eqb_neq; lia). rewrite orb_false_l.
  destruct (convert_bits 8 data 5 false) as [prog ok].
  replace (65 <? 1 + zlen data) with (negb (zlen data <=? 64)) by (rewrite <- Z.ltb_antisym; destruct (Z.ltb_spec 64 (zlen data)), (Z.ltb_spec 65 (1 + zlen data)); lia).
  assert (strncmp_84 hrp hrp' = negb (bool_decide (hrp = hrp'))) as ->.
  { destruct (strncmp_84 hrp hrp') eqn:Es.
    - symmetry. apply negb_true_iff, bool_decide_eq_false. intros ->. by rewrite (proj2 (strncmp_84_spec hrp' hrp' H0 H0' Hl)) in Es.
    - symmetry. apply negb_false_iff, bool_decide_eq_true. by apply strncmp_84_spec. }
  unfold program_ok. rewrite (Z.ltb_antisym ver), (Z.ltb_antisym 2), (Z.ltb_antisym _ 40).
  destruct (bool_decide _), (zlen data <=? 64), ok, (_ <=? 16), (ver =? 0), (2 <=? _), (_ <=? 40), (_ =? 20), (_ =? 32); done.
Qed.

Lemma segwit_decodes (hrp addr prog : list Z) (ver : Z) :
  is_bytes hrp -> (0 ∉ hrp) -> is_bytes addr -> is_bytes prog -> 0 <= ver ->
  hrp <> [] -> mixed addr = false -> segwit_addr_encode hrp ver prog = Some (map lower addr) ->
  segwit_addr_decode hrp addr = Some (ver, prog).
Proof.
  intros Hh H0 Ha Hp Hv Hne Hm. rewrite segwit_decode_spec, segwit_encode_spec by done. intros E. destruct (program_ok ver prog) eqn:Eok; [|done].
  assert (0 <= ver <= 16 /\ 2 <= zlen prog <= 40) as [Hver Hlen] by (unfold program_ok in Eok; reflect_bools; lia).
  rewrite wrap_small in E by lia. destruct (convert_pad prog Hp) as (data & Ec & Hs & k & Hk & El & _).
  rewrite Ec in E. cbn [fst] in E. rewrite (encode_decodes addr hrp (ver :: data)); try done.
  2:{ constructor; [unfold is_byte; lia|by apply symbols_bytes]. }
  rewrite (proj2 (convert_exact prog data Hp Hs)); [|by rewrite Ec].
  rewrite Eok, bool_decide_true by done. by replace (zlen data <=? 64) with true by (symmetry; apply Z.leb_le; lia).
Qed.

(** Encoded strings are bytes without capital letters. *)
Lemma encode_lower (hrp data s : list Z) : is_bytes hrp -> is_bytes data -> bech32_encode hrp data = Some s ->
  is_bytes s /\ existsb is_upper s = false.
Proof.
  intros Hh Hd E. pose proof (encode_symbols hrp data s Hd E) as Hs. revert E.
  rewrite bech32_encode_spec by done. case_bool; [|done]. intros [= <-]. reflect_bools.
  assert (is_symbols (data ++ six (checksum hrp data))) as Hv by (apply Forall_app; split; [done|apply six_symbols]).
  assert (Forall (fun c => is_byte c /\ is_upper c = false) (hrp ++ 49 :: map letter (data ++ six (checksum hrp data)))) as H2.
  { apply Forall_app. split; [|constructor; [split; [unfold is_byte; lia|done]|]].
    - apply list.Forall_forall. intros c Hin. unfold is_bytes in Hh. rewrite list.Forall_forall in Hh. split; [by apply Hh|].
      unfold readable_part in H. rewrite forallb_forall in H. apply list_elem_of_In, H in Hin. by reflect_bools.
    - revert Hv. generalize (data ++ six (checksum hrp data)). induction 1 as [|v l Hv Hl IH]; [constructor|].
      cbn [map]. constructor; [|done]. destruct (symbol_letter v Hv) as (? & _ & _ & _ & ?). unfold is_byte. split; [lia|done]. }
  split; [eapply list.Forall_impl; [exact H2|by intros ? [? _]]|].
  apply not_true_iff_false. rewrite existsb_exists. intros (c & Hin & Hc). rewrite list.Forall_forall in H2.
  apply list_elem_of_In, H2 in Hin as [_ Hu]. congruence.
Qed.

(** What was encoded is decoded. *)
Lemma segwit_encoded (hrp addr prog : list Z) (ver : Z) :
  is_bytes hrp -> (0 ∉ hrp) -> is_bytes prog -> 0 <= ver -> hrp <> [] ->
  segwit_addr_encode hrp ver prog = Some addr -> segwit_addr_decode hrp addr = Some (ver, prog).
Proof.
  intros Hh H0 Hp Hv Hne E. destruct (convert_pad prog Hp) as (data & Ec & Hs & _).
  assert (is_bytes addr /\ existsb is_upper addr = false) as [Hb Hu].
  { rewrite segwit_encode_spec, Ec in E. cbn [fst] in E. case_bool; [|done].
    apply (encode_lower hrp (u8 ver :: data)); [done| |done].
    constructor; [unfold is_byte; pose proof (wrap_range 8 ver); lia|by apply symbols_bytes]. }
  apply segwit_decodes; try done.
  - unfold mixed. by rewrite Hu, andb_false_r.
  - rewrite E. f_equal. symmetry. rewrite <- (map_id addr) at 2. apply map_ext_in. intros c Hin. unfold lower.
    destruct (is_upper c) eqn:Ec'; [|done]. exfalso. apply not_true_iff_false in Hu. apply Hu, existsb_exists. by exists c.
Qed.

(** C35: [segwit_addr_decode] inverts [segwit_addr_encode] and accepts nothing
    else.  It returns a version and a program exactly when the address does not
    mix cases and its lower case form is what [segwit_addr_encode] makes of
    them with the expected human readable part: every encodable address, in
    either case, is read back, and every accepted address has one version and
    one program, whose encoding it is. *)
Theorem segwit_addr_exact (hrp addr prog : list Z) (ver : Z) :
  is_bytes hrp -> (0 ∉ hrp) -> is_bytes addr -> is_bytes prog -> 0 <= ver ->
  (segwit_addr_decode hrp addr = Some (ver, prog) <->
   hrp <> [] /\ mixed addr = false /\ segwit_addr_encode hrp ver prog = Some (map lower addr)).
Proof.
  intros Hh H0 Ha Hp Hv. split.
  - rewrite segwit_decode_spec, segwit_encode_spec by done.
    destruct (bech32_decode addr) as [[hrp' [|ver' data]]|] eqn:E; [done| |done].
    destruct (decode_result addr hrp' _ Ha E) as (Hb' & _ & Hs & _). apply list.Forall_cons in Hs as [Hsv Hsd].
    apply decode_encodes in E as (Hne & Hm & E); [|done|done|apply symbols_bytes; by constructor].
    destruct (convert_bits 8 data 5 false) as [prog' ok] eqn:Ec. case_bool; [|done]. intros [= -> ->].
    apply andb_true_iff in Heqb as [Heqb ->]. reflect_bools. apply bool_decide_eq_true in H. subst hrp' ok.
    apply convert_exact in Ec; [|done|done]. rewrite Ec, wrap_small by lia. done.
  - intros (? & ? & ?). by apply segwit_decodes.
Qed.

Lemma segwit_addr_exact_witness :
  let addr := [66; 67; 49; 83; 87; 53; 48; 81; 65; 51; 74; 88; 51; 83] in (* "BC1SW50QA3JX3S" *)
  segwit_addr_encode [98; 99] 16 [0x75; 0x1e] = Some (map lower addr) /\
  segwit_addr_decode [98; 99] addr = Some (16, [0x75; 0x1e]).
Proof.
  cbv zeta. split; [vm_compute; reflexivity|].
  apply segwit_addr_exact; [by apply is_bytes_of| |by apply is_bytes_of|by apply is_bytes_of|lia|by vm_compute].
  intros H. apply list_elem_of_In in H. cbn in H. lia.
Defined.

(** The fixed arrays are large enough.  What [bech32_decode] writes fits
    the arrays of 84 that [segwit_addr_decode] gives it, the terminating NUL
    included; what [convert_bits] writes before any length is checked fits the
    40 bytes of a witness program in the decoder and, after the version, the 65
    bytes of [segwit_addr_encode]; an encoded string and its NUL take at most
    91 bytes. *)
Theorem segwit_addr_bounds (hrp addr data prog out : list Z) (ver : Z) :
  is_bytes hrp -> is_bytes addr -> is_bytes data -> is_bytes prog ->
  (bech32_decode addr = Some (hrp, data) -> zlen hrp + 1 <= 84 /\ zlen data <= 84) /\
  (bech32_decode addr = Some (hrp, data) -> zlen data <= 65 -> zlen (fst (convert_bits 8 (drop 1 data) 5 false)) <= 40) /\
  (zlen prog <= 40 -> 1 + zlen (fst (convert_bits 5 prog 8 true)) <= 65) /\
  (segwit_addr_encode hrp ver prog = Some out -> zlen out + 1 <= 91).
Proof.
  intros Hh Ha Hd Hp. destruct (convert_pad prog Hp) as (pd & Ec & Hs & k & Hk & El & _). split_and!.
  - intros E. destruct (decode_result _ _ _ Ha E) as (_ & _ & _ & ? & ?). lia.
  - intros E H65. destruct (decode_result _ _ _ Ha E) as (_ & _ & Hsy & _ & _).
    destruct (convert_unpad (drop 1 data) (Forall_drop _ _ _ Hsy)) as (o & ok & -> & _ & Hl & _). cbn [fst].
    unfold zlen in *. rewrite length_drop in Hl. lia.
  - rewrite Ec. cbn [fst]. lia.
  - rewrite segwit_encode_spec, Ec. cbn [fst]. case_bool; [|done].
    rewrite bech32_encode_spec; [|done|constructor; [unfold is_byte; pose proof (wrap_range 8 ver); lia|by apply symbols_bytes]].
    case_bool; [|done]. intros [= <-]. reflect_bools. rewrite zlen_cons in *. rewrite zlen_app, !zlen_cons.
    assert (forall y, zlen (map letter (pd ++ six y)) = zlen pd + 6) as ->; [|lia].
    intros y. unfold zlen, six. rewrite length_map, length_app. cbn [length map]. lia.
Qed.

Lemma segwit_addr_bounds_witness :
  1 + zlen (fst (convert_bits 5 (replicate 40 255) 8 true)) <= 65 /\
  (segwit_addr_encode [116; 98] 1 (replicate 40 255) = None \/
   exists out, segwit_addr_encode [116; 98] 1 (replicate 40 255) = Some out /\ zlen out + 1 <= 91).
Proof.
  destruct (segwit_addr_bounds [116; 98] [] [] (replicate 40 255)
    (default [] (segwit_addr_encode [116; 98] 1 (replicate 40 255))) 1) as (_ & _ & H1 & H2);
    [by apply is_bytes_of|by apply is_bytes_of|by apply is_bytes_of|by apply is_bytes_of|].
  split; [by apply H1|]. right. eexists. split; [|apply H2]; vm_compute; reflexivity.
Defined.
