(* ===== verification/Base58.v ===== *)
(** * base58.c: Base58 and Base58Check

    Strings are lists of characters without the final NUL, buffers are lists of
    bytes; the storage [btc_malloc] returns is never null (memory.c ends the
    process instead).  [Ret] is a return of true, [Fail] of false, [Undef] an
    access outside of an array.  The reference is the numeral of the bytes, read
    to the base 256, written to the base 58, with one '1' for every leading zero
    byte. *)

From S2P Require Import Prelude.
From S2P Require Import Sha2.
From S2P Require Import Sha2Spec.
From S2P Require Import SegwitAddr.

(** ** The code *)

Definition b58digits_map : list Z :=
  [-1; -1; -1; -1; -1; -1; -1; -1; -1; -1; -1; -1; -1; -1; -1; -1;
   -1; -1; -1; -1; -1; -1; -1; -1; -1; -1; -1; -1; -1; -1; -1; -1;
   -1; -1; -1; -1; -1; -1; -1; -1; -1; -1; -1; -1; -1; -1; -1; -1;
   -1;  0;  1;  2;  3;  4;  5;  6;  7;  8; -1; -1; -1; -1; -1; -1;
   -1;  9; 10; 11; 12; 13; 14; 15; 16; -1; 17; 18; 19; 20; 21; -1;
   22; 23; 24; 25; 26; 27; 28; 29; 30; 31; 32; -1; -1; -1; -1; -1;
   -1; 33; 34; 35; 36; 37; 38; 39; 40; 41; 42; 43; -1; 44; 45; 46;
   47; 48; 49; 50; 51; 52; 53; 54; 55; 56; 57; -1; -1; -1; -1; -1].

(** [for (i = 0; i < b58sz && !b58digits_map[b58u[i]]; ++i)]: the count and the
    characters that follow. *)
Fixpoint count_ones (b58 : list Z) : option (Z * list Z) :=
  match b58 with
  | [] => Some (0, [])
  | ch :: b58' =>
      d ← zget b58digits_map ch;
      if d =? 0 then '(zerocount, rest) ← count_ones b58'; Some (u32 (zerocount + 1), rest)
      else Some (0, b58)
  end.

(** [for (j = outisz; j--;)]; the argument is the array from its end. *)
Fixpoint mul_add (rev_outi : list Z) (c : Z) : list Z * Z :=
  match rev_outi with
  | [] => ([], c)
  | w :: rest =>
      let t := u64 (w * 58 + c) in
      let c := Z.shiftr (Z.land t 0x3f00000000) 32 in
      let '(rest, c) := mul_add rest c in
      (Z.land t 0xffffffff :: rest, c)
  end.

(** [for (; i < b58sz; ++i)] *)
Fixpoint decode_digits (b58 : list Z) (outi : list Z) (zeromask : Z) : outcome (list Z) :=
  match b58 with
  | [] => Ret outi
  | ch :: b58' =>
      _ ← require (Z.land ch 0x80 =? 0);
      d ← total (zget b58digits_map ch);
      _ ← require (negb (d =? -1));
      let '(rev_outi, c) := mul_add (rev outi) (u32 d) in
      let outi := rev rev_outi in
      _ ← require (c =? 0);
      w ← total (zget outi 0);
      _ ← require (Z.land w zeromask =? 0);
      decode_digits b58' outi zeromask
  end.

(** The [switch] on the bytes of an incomplete first word. *)
Definition store_head (bytesleft w : Z) : list Z :=
  let b2 := Z.shiftr (Z.land w 0xff0000) 16 in
  let b1 := Z.shiftr (Z.land w 0xff00) 8 in
  let b0 := Z.land w 0xff in
  if bytesleft =? 3 then [b2; b1; b0] else
  if bytesleft =? 2 then [b1; b0] else
  if bytesleft =? 1 then [b0] else [].

Definition store_be32 (w : Z) : list Z :=
  [Z.land (Z.shiftr w 24) 0xff; Z.land (Z.shiftr w 16) 0xff; Z.land (Z.shiftr w 8) 0xff; Z.land (Z.shiftr w 0) 0xff].

(** Leading zero bytes. *)
Fixpoint lead_zeros (bin : list Z) : Z :=
  match bin with
  | [] => 0
  | b :: bin' => if b =? 0 then 1 + lead_zeros bin' else 0
  end.

(** What is written to [bin], and the new [*binszp]. *)
Definition btc_base58_decode (binsz : Z) (b58 : list Z) : outcome (list Z * Z) :=
  let outisz := u64 (binsz + 3) / 4 in
  let bytesleft := binsz mod 4 in
  let zeromask := if bytesleft =? 0 then 0 else u32 (Z.shiftl 0xffffffff (bytesleft * 8)) in
  '(zerocount, rest) ← total (count_ones b58);
  outi ← decode_digits rest (replicate (Z.to_nat outisz) 0) zeromask;
  w ← (if bytesleft =? 0 then Ret 0 else total (zget outi 0));
  let j := if bytesleft =? 0 then 0 else 1 in
  let bin := store_head bytesleft w ++ flat_map store_be32 (zdrop j outi) in
  Ret (bin, u64 (u64 (binsz - lead_zeros bin) + zerocount)).

(** [for (i = 0; binc[i] == 0 && base58str[i] == '1'; ++i)] and the two
    characters it stops at. *)
Fixpoint skip_zeros (fuel : nat) (binc base58str : list Z) (i : Z) : option (Z * Z) :=
  match fuel with
  | O => None
  | S fuel' =>
      b ← zget binc i;
      c ← zget (base58str ++ [0]) i;
      if (b =? 0) && (c =? 49) then skip_zeros fuel' binc base58str (i + 1) else Some (b, c)
  end.

(** The array [bin] may be longer than [binsz]. *)
Definition btc_b58check (bin : list Z) (binsz : Z) (base58str : list Z) : option Z :=
  if binsz <? 4 then Some (-4) else
  let buf := sha256_Raw (sha256_Raw (ztake (binsz - 4) bin)) in
  if negb (bool_decide (ztake 4 (zdrop (binsz - 4) bin) = take 4 buf)) then Some (-1) else
  '(b, c) ← skip_zeros (S (length bin)) bin base58str 0;
  if (b =? 0) || (c =? 49) then Some (-3) else zget bin 0.

(** "123456789ABCDEFGHJKLMNPQRSTUVWXYZabcdefghijkmnopqrstuvwxyz" *)
Definition b58digits_ordered : list Z :=
  [49; 50; 51; 52; 53; 54; 55; 56; 57; 65; 66; 67; 68; 69; 70; 71; 72; 74; 75; 76; 77; 78; 80; 81; 82; 83; 84; 85; 86;
   87; 88; 89; 90; 97; 98; 99; 100; 101; 102; 103; 104; 105; 106; 107; 109; 110; 111; 112; 113; 114; 115; 116; 117; 118;
   119; 120; 121; 122].

(** [for (carry = bin[i], j = size - 1; (j > high) || carry; --j)] *)
Fixpoint carry_loop (fuel : nat) (buf : list Z) (carry j high : Z) : option (list Z * Z) :=
  match fuel with
  | O => None
  | S fuel' =>
      if (high <? j) || negb (carry =? 0) then
        v ← zget buf j;
        let carry := carry + 256 * v in
        buf ← zset buf j (carry mod 58);
        carry_loop fuel' buf (carry / 58) (j - 1) high
      else Some (buf, j)
  end.

(** [for (i = zcount, high = size - 1; i < binsz; ++i, high = j)] *)
Fixpoint encode_loop (bin buf : list Z) (high : Z) : option (list Z) :=
  match bin with
  | [] => Some buf
  | b :: bin' =>
      '(buf, j) ← carry_loop (S (length buf)) buf b (zlen buf - 1) high;
      encode_loop bin' buf j
  end.

(** The string, [None] for a return of false, and the new [*b58sz]. *)
Definition btc_base58_encode (b58sz : Z) (bin : list Z) : option (option (list Z) * Z) :=
  let zcount := lead_zeros bin in
  let size := u64 (u64 (u64 (zlen bin - zcount) * 138) / 100 + 1) in
  buf ← encode_loop (zdrop zcount bin) (replicate (Z.to_nat size) 0) (size - 1);
  let j := lead_zeros buf in
  let len := u64 (zcount + size - j) in
  if b58sz <=? len then Some (None, u64 (len + 1)) else
  let b58 := replicate (Z.to_nat zcount) 49 ++ map (fun d => nth (Z.to_nat d) b58digits_ordered 0) (zdrop j buf) in
  Some (Some b58, u64 (len + 1)).

(** The return value and the string. *)
Definition btc_base58_encode_check (data : list Z) (strsize : Z) : option (Z * list Z) :=
  let datalen := zlen data in
  if 128 <? datalen then Some (0, []) else
  let hash := sha256_Raw (sha256_Raw data) in
  let buf := data ++ hash in
  '(r, res) ← btc_base58_encode (u64 strsize) (ztake (datalen + 4) buf);
  match r with
  | Some str => Some (s32 res, str)
  | None => Some (0, [])
  end.

(** [memmove (data, data + from, n)] *)
Definition memmove_down (data : list Z) (from n : Z) : list Z :=
  ztake n (zdrop from data) ++ zdrop n data.

(** The return value and the contents of [data]. *)
Definition btc_base58_decode_check (str data : list Z) : option (Z * list Z) :=
  let datalen := zlen data in
  let strl := zlen str in
  if (128 <? strl) || (datalen <? strl) then Some (0, data) else
  '(data, binsize) ←
    match btc_base58_decode strl str with
    | Ret (bin, binsize) => Some (bin ++ zdrop strl data, binsize)
    | Fail => Some (data, strl)
    | Undef => None
    end;
  if negb (binsize <=? strl) then None else
  let data := memmove_down data (strl - binsize) binsize in
  let data := ztake binsize data ++ replicate (Z.to_nat (datalen - binsize)) 0 in
  r ← btc_b58check data binsize str;
  Some (if r <? 0 then 0 else s32 binsize, data).

(** ** Characters *)

Definition digit58 (c : Z) : Z := nth (Z.to_nat c) b58digits_map (-1).
Definition letter58 (d : Z) : Z := nth (Z.to_nat d) b58digits_ordered 0.
Definition in_alphabet (c : Z) : bool := negb (digit58 c =? -1).

Abbreviation is_digits := (Forall (fun d => 0 <= d < 58)).
Abbreviation is_ascii := (Forall (fun c => 0 <= c < 128)).

Lemma map_lookup (c : Z) : 0 <= c < 128 -> zget b58digits_map c = Some (digit58 c).
Proof.
  intros Hc. unfold zget. replace (c <? 0) with false by (symmetry; apply Z.ltb_ge; lia).
  destruct (nth_lookup_or_length b58digits_map (Z.to_nat c) (-1)) as [->|H]; [done|]. cbn in H. lia.
Qed.

Lemma digit_range (c : Z) : 0 <= c < 128 -> -1 <= digit58 c < 58 /\ (digit58 c = 0 <-> c = 49) /\
  (in_alphabet c = true -> letter58 (digit58 c) = c).
Proof.
  intros Hc.
  pose proof (ascii_ind (fun c => (-1 <=? digit58 c) && (digit58 c <? 58) && Bool.eqb (digit58 c =? 0) (c =? 49) &&
    (negb (in_alphabet c) || (letter58 (digit58 c) =? c))) ltac:(vm_compute; reflexivity) c Hc) as H.
  apply andb_true_iff in H as [H HL]. apply andb_true_iff in H as [H HE]. apply eqb_prop in HE. reflect_bools.
  split; [lia|]. split; [split; intros E|intros E].
  - rewrite E in HE. symmetry in HE. by apply Z.eqb_eq in HE.
  - rewrite E in HE. by rewrite E; apply Z.eqb_eq in HE.
  - rewrite E in HL. by destruct HL as [HL|HL%Z.eqb_eq].
Qed.

Lemma digit_letter (d : Z) : 0 <= d < 58 ->
  0 <= letter58 d < 128 /\ digit58 (letter58 d) = d /\ in_alphabet (letter58 d) = true.
Proof.
  intros Hd. assert (forallb (fun k => let d := Z.of_nat k in (0 <=? letter58 d) && (letter58 d <? 128) &&
    (digit58 (letter58 d) =? d) && in_alphabet (letter58 d)) (seq 0 58) = true) as H by (vm_compute; reflexivity).
  rewrite forallb_forall in H. specialize (H (Z.to_nat d) ltac:(apply in_seq; lia)). cbv zeta in H.
  rewrite Z2Nat.id in H by lia. reflect_bools. done.
Qed.

Lemma digits_letters (ds : list Z) : is_digits ds ->
  is_ascii (map letter58 ds) /\ map digit58 (map letter58 ds) = ds /\ forallb in_alphabet (map letter58 ds) = true.
Proof.
  induction 1 as [|d ds Hd Hds IH]; [by repeat constructor|]. destruct IH as (I1 & I2 & I3).
  destruct (digit_letter d Hd) as (H1 & H2 & H3). cbn [map forallb]. rewrite H2, H3, I2, I3. split_and!; [by constructor|done|done].
Qed.

Lemma letters_digits (t : list Z) : is_ascii t -> forallb in_alphabet t = true ->
  is_digits (map digit58 t) /\ map letter58 (map digit58 t) = t.
Proof.
  induction 1 as [|c t Hc Ht IH]; [by repeat constructor|]. cbn [map forallb]. intros [Ha Hs]%andb_true_iff.
  destruct (IH Hs) as [I1 I2]. destruct (digit_range c Hc) as (R & _ & L). rewrite (L Ha), I2. split; [|done].
  constructor; [|done]. unfold in_alphabet in Ha. reflect_bools. lia.
Qed.

(** ** Leading zeros *)

Lemma lead_zeros_split (l : list Z) :
  exists r, l = replicate (Z.to_nat (lead_zeros l)) 0 ++ r /\ head r <> Some 0 /\ 0 <= lead_zeros l /\
    zlen l = lead_zeros l + zlen r.
Proof.
  induction l as [|b l (r & IH & Hr & Hz & Hl)]; [exists []; done|]. cbn [lead_zeros].
  destruct (Z.eqb_spec b 0) as [->|Hb].
  - exists r. replace (Z.to_nat (1 + lead_zeros l)) with (S (Z.to_nat (lead_zeros l))) by lia. cbn [replicate app].
    rewrite <- IH, zlen_cons. split_and!; (done || lia).
  - exists (b :: l). cbn. split_and!; [done|congruence|lia|lia].
Qed.

Lemma lead_zeros_app (n : nat) (r : list Z) : head r <> Some 0 -> lead_zeros (replicate n 0 ++ r) = Z.of_nat n.
Proof.
  intros Hr. induction n as [|n IH]; [|cbn [replicate app lead_zeros]; rewrite IH; cbn; lia].
  destruct r as [|b r]; [done|]. cbn in *. destruct (Z.eqb_spec b 0); [congruence|done].
Qed.

(** The leading '1's of a string. *)
Lemma ones_split (s : list Z) : exists n r, s = replicate n 49 ++ r /\ head r <> Some 49.
Proof.
  induction s as [|c s (n & r & -> & Hr)]; [by exists 0%nat, []|]. destruct (decide (c = 49)) as [->|Hc].
  - by exists (S n), r.
  - exists 0%nat, (c :: replicate n 49 ++ r). split; [done|]. cbn. congruence.
Qed.

Lemma count_ones_spec (n : nat) (t : list Z) :
  is_ascii t -> head t <> Some 49 -> Z.of_nat n < 2 ^ 32 -> count_ones (replicate n 49 ++ t) = Some (Z.of_nat n, t).
Proof.
  intros Ht Hh. induction n as [|n IH]; intros Hn.
  - destruct Ht as [|c t Hc Ht]; [done|]. cbn [replicate app count_ones]. rewrite map_lookup by done. cbn [mbind option_bind].
    destruct (digit_range c Hc) as (_ & H0 & _). destruct (Z.eqb_spec (digit58 c) 0) as [E|E]; [|done].
    apply H0 in E as ->. done.
  - cbn [replicate app count_ones]. rewrite map_lookup by lia. cbn [mbind option_bind]. change (digit58 49 =? 0) with true.
    cbv iota. rewrite IH by lia. cbn [mbind option_bind]. rewrite wrap_small by lia. do 2 f_equal. lia.
Qed.

(** ** Decoding *)

Abbreviation W := (2 ^ 32).
Abbreviation is_words := (Forall (fun w => 0 <= w < W)).
Abbreviation len l := (Z.of_nat (length l)).

Lemma mul_add_spec (l : list Z) (c : Z) : is_words l -> 0 <= c < 58 ->
  exists l' c', mul_add l c = (l', c') /\ is_words l' /\ length l' = length l /\ 0 <= c' < 58 /\
    nval W (rev l') + W ^ len l * c' = 58 * nval W (rev l) + c.
Proof.
  intros Hl. revert c. induction Hl as [|w l Hw Hl IH]; intros c Hc.
  { exists [], c. split_and!; try done; try lia. cbn [length rev]. change (nval W []) with 0. change (Z.of_nat 0) with 0.
    rewrite Z.pow_0_r. lia. }
  cbn [mul_add]. rewrite wrap_small by lia. set (t := w * 58 + c).
  assert (Z.land t 0xffffffff = t mod W) as -> by (change 0xffffffff with (Z.ones 32); apply Z.land_ones; lia).
  assert (Z.shiftr (Z.land t 0x3f00000000) 32 = t / W) as ->.
  { change 0x3f00000000 with (Z.shiftl (Z.ones 6) 32). rewrite Z.shiftr_land, Z.shiftr_shiftl_l by lia.
    replace (32 - 32) with 0 by lia. rewrite Z.shiftl_0_r, Z.land_ones, Z.shiftr_div_pow2 by lia.
    apply Z.mod_small. split; [apply Z.div_pos; lia|apply Z.div_lt_upper_bound; lia]. }
  pose proof (Z_div_mod_eq_full t W) as Et. pose proof (Z.mod_pos_bound t W ltac:(lia)) as Rt.
  destruct (IH (t / W)) as (l' & c' & -> & H1 & H2 & H3 & H4).
  { split; [apply Z.div_pos; lia|apply Z.div_lt_upper_bound; lia]. }
  eexists _, _. split; [done|]. split_and!; [by constructor|cbn; lia|lia|lia|].
  cbn [rev length]. rewrite !nval_snoc, Nat2Z.inj_succ, Z.pow_succ_r by lia. fold t in H4. unfold t in *. nia.
Qed.

Section Decode.

Context (binsz : Z) (Hsz : 0 < binsz < 2 ^ 63).

Abbreviation outisz := (u64 (binsz + 3) / 4).
Abbreviation bytesleft := (binsz mod 4).
Abbreviation zeromask := (if bytesleft =? 0 then 0 else u32 (Z.shiftl 0xffffffff (bytesleft * 8))).
Abbreviation limit := (256 ^ binsz).

(** How the bytes are laid out in words. *)
Lemma layout (n : nat) : n = Z.to_nat outisz -> exists m, n = S m /\
  (bytesleft = 0 /\ binsz = 4 * Z.of_nat n \/ 0 < bytesleft < 4 /\ binsz = 4 * Z.of_nat m + bytesleft).
Proof.
  intros ->. rewrite wrap_small by lia. exists (Z.to_nat ((binsz + 3) / 4 - 1)).
  assert (1 <= (binsz + 3) / 4) by zdm. split; [lia|].
  destruct (decide (binsz mod 4 = 0)); [left|right]; zdm.
Qed.

Lemma words_limit (k : Z) : 0 <= k -> W ^ k = 256 ^ (4 * k).
Proof. intros. change W with (256 ^ 4). rewrite <- Z.pow_mul_r by lia. done. Qed.

(** A word below a power of two has no bit above it. *)
Lemma land_mask_zero (b w : Z) : 0 < b < 4 -> 0 <= w < W ->
  (Z.land w (u32 (Z.shiftl 0xffffffff (b * 8))) =? 0) = (w <? 256 ^ b).
Proof.
  intros Hb Hw. assert (256 ^ b = 2 ^ (b * 8)) as -> by (change 256 with (2 ^ 8); rewrite <- Z.pow_mul_r by lia; f_equal; lia).
  assert (Z.land w (u32 (Z.shiftl 0xffffffff (b * 8))) = Z.shiftl (Z.shiftr w (b * 8)) (b * 8)) as ->.
  { apply Z.bits_inj'. intros i Hi. rewrite Z.land_spec, testbit_wrap, !Z.shiftl_spec by lia.
    change 0xffffffff with (Z.ones 32). destruct (Z.ltb_spec i (b * 8)).
    - rewrite !(Z.testbit_neg_r _ (i - b * 8)) by lia. by rewrite !andb_false_r.
    - rewrite Z.shiftr_spec by lia. replace (i - b * 8 + b * 8) with i by lia. rewrite Z.testbit_ones_nonneg by lia.
      destruct (Z.ltb_spec i 32); [by replace (i - b * 8 <? 32) with true by (symmetry; apply Z.ltb_lt; lia); rewrite andb_true_r|].
      cbn [andb]. rewrite andb_false_r. symmetry. apply (testbit_high 32); [done|lia]. }
  rewrite Z.shiftl_mul_pow2, Z.shiftr_div_pow2 by lia. assert (0 < 2 ^ (b * 8)) by (apply Z.pow_pos_nonneg; lia).
  destruct (Z.ltb_spec w (2 ^ (b * 8))); [by rewrite Z.div_small by lia|].
  apply Z.eqb_neq. assert (1 <= w / 2 ^ (b * 8)) by (apply Z.div_le_lower_bound; lia). nia.
Qed.

Lemma mask_check (w : Z) (r : list Z) : is_words (w :: r) -> length (w :: r) = Z.to_nat outisz ->
  (Z.land w zeromask =? 0) = (nval W (w :: r) <? limit).
Proof.
  intros Hw Hl. destruct (layout _ Hl) as (m & Em & Hlay). cbn [length] in *. assert (length r = m) as Er by lia.
  apply list.Forall_cons in Hw as [Hw Hr]. pose proof (nval_range W r ltac:(lia) Hr) as Rr. rewrite nval_cons. rewrite Er in *.
  destruct Hlay as [[-> Eb]|[Hb Eb]].
  - cbn [Z.eqb]. rewrite Z.land_0_r. symmetry. apply Z.ltb_lt. rewrite Eb, <- words_limit, Nat2Z.inj_succ, Z.pow_succ_r by lia. nia.
  - replace (bytesleft =? 0) with false by (symmetry; apply Z.eqb_neq; lia). rewrite land_mask_zero by lia.
    assert (limit = W ^ Z.of_nat m * 256 ^ bytesleft) as El.
    { rewrite Eb at 1. rewrite Z.pow_add_r, words_limit by lia. done. }
    rewrite El. assert (0 < W ^ Z.of_nat m) by (apply Z.pow_pos_nonneg; lia).
    destruct (Z.ltb_spec w (256 ^ bytesleft)); symmetry; [apply Z.ltb_lt|apply Z.ltb_ge]; nia.
Qed.

(** The number that digits append to a number. *)
Abbreviation append58 := (fold_left (fun a d => 58 * a + d)).

Lemma append58_mono (ds : list Z) (V : Z) : is_digits ds -> 0 <= V -> V <= append58 ds V.
Proof.
  intros Hd. revert V. induction Hd as [|d ds Hd Hds IH]; intros V HV; [done|]. cbn [fold_left].
  specialize (IH (58 * V + d)). lia.
Qed.

Lemma decode_digits_spec (t outi : list Z) : is_ascii t -> is_words outi -> length outi = Z.to_nat outisz ->
  nval W outi < limit ->
  let N := append58 (map digit58 t) (nval W outi) in
  (decode_digits t outi zeromask = Fail /\ forallb in_alphabet t && (N <? limit) = false) \/
  (exists outi', decode_digits t outi zeromask = Ret outi' /\ forallb in_alphabet t && (N <? limit) = true /\
    is_words outi' /\ length outi' = Z.to_nat outisz /\ nval W outi' = N).
Proof.
  intros Ht. cbv zeta. revert outi. induction Ht as [|c t Hc Ht IH]; intros outi Hw Hl Hlim; cbn [map fold_left forallb andb].
  { right. exists outi. split_and!; try done. by apply Z.ltb_lt. }
  cbn [decode_digits]. replace (Z.land c 128 =? 0) with true.
  2:{ symmetry. apply Z.eqb_eq. rewrite <- (Z.mod_small c (2 ^ 7)) by lia. rewrite <- Z.land_ones by lia.
      by rewrite <- Z.land_assoc, Z.land_0_r. }
  rewrite map_lookup by done. cbn [require total mbind outcome_bind]. fold (in_alphabet c).
  destruct (in_alphabet c) eqn:Ea; cbn [require mbind outcome_bind andb]; [|by left].
  assert (0 <= digit58 c < 58) as Hd by (destruct (digit_range c Hc) as [? _]; unfold in_alphabet in Ea; reflect_bools; lia).
  rewrite wrap_small by lia.
  destruct (mul_add_spec (rev outi) (digit58 c)) as (l' & c' & -> & H1 & H2 & H3 & H4); [by apply Forall_rev|done|].
  rewrite rev_involutive, length_rev in *.
  destruct (layout _ Hl) as (m & Em & Hlay). assert (length (rev l') = Z.to_nat outisz) as Hl' by (rewrite length_rev; lia).
  pose proof (nval_range W (rev l') ltac:(lia) (Forall_rev H1)) as R. pose proof (nval_range W outi ltac:(lia) Hw) as R0.
  rewrite length_rev, H2 in R.
  assert (limit <= W ^ len outi) as HW.
  { rewrite words_limit by lia. apply Z.pow_le_mono_r; [lia|]. destruct Hlay as [[_ ->]|[? ->]]; lia. }
  assert (forallb in_alphabet t = true -> limit <= 58 * nval W outi + digit58 c ->
    limit <= append58 (map digit58 t) (58 * nval W outi + digit58 c)) as Hbig.
  { intros Hal Hge. pose proof (append58_mono (map digit58 t) (58 * nval W outi + digit58 c)
      (proj1 (letters_digits t Ht Hal)) ltac:(lia)). lia. }
  destruct (Z.eqb_spec c' 0) as [->|Hc']; cbn [require mbind outcome_bind].
  2:{ left. split; [done|]. destruct (forallb in_alphabet t); [|done]. cbn [andb]. apply Z.ltb_ge, Hbig; [done|nia]. }
  destruct (rev l') as [|w r] eqn:El; [cbn in Hl'; lia|]. change (zget (w :: r) 0) with (Some w). cbn [total mbind outcome_bind].
  pose proof (Forall_rev H1) as Hwr. rewrite El in Hwr. rewrite (mask_check w r Hwr Hl').
  replace (58 * nval W outi + digit58 c) with (nval W (w :: r)) in * by lia.
  destruct (Z.ltb_spec (nval W (w :: r)) limit) as [Hlt|Hge]; cbn [require mbind outcome_bind]; [by apply IH|].
  left. split; [done|]. destruct (forallb in_alphabet t); [|done]. by apply Z.ltb_ge, Hbig.
Qed.

End Decode.

Lemma land_ff (w : Z) : Z.land w 0xff = w mod 256.
Proof. change 0xff with (Z.ones 8). by apply Z.land_ones. Qed.

Lemma store_be32_spec (w : Z) : 0 <= w < W -> is_bytes (store_be32 w) /\ nval 256 (store_be32 w) = w.
Proof.
  intros Hw. unfold store_be32. rewrite !land_ff, !Z.shiftr_div_pow2 by lia. split.
  - repeat (constructor; [apply is_byte_mod|]). constructor.
  - unfold nval. cbn [fold_left]. change (2 ^ 0) with 1. rewrite Z.div_1_r. change (2 ^ 24) with 16777216.
    change (2 ^ 16) with 65536. change (2 ^ 8) with 256. zdm.
Qed.

Lemma store_words_spec (l : list Z) : is_words l ->
  is_bytes (flat_map store_be32 l) /\ length (flat_map store_be32 l) = (4 * length l)%nat /\
  nval 256 (flat_map store_be32 l) = nval W l.
Proof.
  induction 1 as [|w l Hw Hl (I1 & I2 & I3)]; [split_and!; [constructor|done|done]|].
  destruct (store_be32_spec w Hw) as [S1 S2]. cbn [flat_map].
  split_and!; [by apply is_bytes_app|rewrite length_app, I2; cbn; lia|].
  rewrite nval_app, nval_cons, S2, I2, I3. do 2 f_equal. rewrite words_limit by lia. f_equal. lia.
Qed.

Lemma store_head_spec (b w : Z) : 0 < b < 4 -> 0 <= w < 256 ^ b ->
  is_bytes (store_head b w) /\ length (store_head b w) = Z.to_nat b /\ nval 256 (store_head b w) = w.
Proof.
  intros Hb Hw. unfold store_head.
  assert (Z.shiftr (Z.land w 0xff0000) 16 = (w / 65536) mod 256) as ->.
  { rewrite Z.shiftr_land. change (Z.shiftr 0xff0000 16) with (Z.ones 8). by rewrite Z.land_ones, Z.shiftr_div_pow2 by lia. }
  assert (Z.shiftr (Z.land w 0xff00) 8 = (w / 256) mod 256) as ->.
  { rewrite Z.shiftr_land. change (Z.shiftr 0xff00 8) with (Z.ones 8). by rewrite Z.land_ones, Z.shiftr_div_pow2 by lia. }
  rewrite land_ff. assert (b = 1 \/ b = 2 \/ b = 3) as [-> | [-> | ->]] by lia; cbn [Z.eqb Pos.eqb];
    (split; [repeat (constructor; [apply is_byte_mod|]); constructor|]); (split; [done|]);
    unfold nval; cbn [fold_left].
  - change (256 ^ 1) with 256 in Hw. zdm.
  - change (256 ^ 2) with 65536 in Hw. zdm.
  - change (256 ^ 3) with 16777216 in Hw. zdm.
Qed.

(** The whole function: a string of '1's and other characters of the alphabet
    whose number fits the buffer. *)
Lemma base58_decode_spec (binsz : Z) (n : nat) (t : list Z) :
  0 < binsz < 2 ^ 63 -> Z.of_nat n < 2 ^ 32 -> is_ascii t -> head t <> Some 49 ->
  let N := nval 58 (map digit58 t) in
  (btc_base58_decode binsz (replicate n 49 ++ t) = Fail /\ forallb in_alphabet t && (N <? 256 ^ binsz) = false) \/
  (exists bin rest, btc_base58_decode binsz (replicate n 49 ++ t) = Ret (bin, zlen rest + Z.of_nat n) /\
    forallb in_alphabet t && (N <? 256 ^ binsz) = true /\
    bin = replicate (Z.to_nat (binsz - zlen rest)) 0 ++ rest /\ zlen rest <= binsz /\
    is_bytes rest /\ head rest <> Some 0 /\ nval 256 rest = N).
Proof.
  intros Hsz Hn Ht Hh. cbv zeta. unfold btc_base58_decode. rewrite count_ones_spec by done. cbn [total mbind outcome_bind].
  assert (is_words (replicate (Z.to_nat (u64 (binsz + 3) / 4)) 0)) as Hw0 by (apply Forall_replicate; lia).
  assert (nval W (replicate (Z.to_nat (u64 (binsz + 3) / 4)) 0) = 0) as E0.
  { rewrite <- (app_nil_r (replicate _ _)). apply nval_zeros. }
  destruct (decode_digits_spec binsz Hsz t _ Ht Hw0 (length_replicate _ _)) as [[-> HF]|(outi & -> & HT & Hw & Hl & HN)];
    rewrite ?E0; [apply Z.pow_pos_nonneg; lia| |]; rewrite E0 in *; fold (nval 58 (map digit58 t)) in *; [by left|right].
  apply andb_true_iff in HT as [Hal Hlt]. cbn [mbind outcome_bind]. set (N := nval 58 (map digit58 t)) in *.
  destruct (layout binsz Hsz _ Hl) as (m & Em & Hlay). destruct outi as [|w r]; [done|]. cbn [length] in Em.
  match goal with |- exists bin rest, ?X = _ /\ _ =>
    assert (exists bin, X = Ret (bin, u64 (u64 (binsz - lead_zeros bin) + Z.of_nat n)) /\
    is_bytes bin /\ zlen bin = binsz /\ nval 256 bin = N) as (bin & -> & Hb & Hbl & HbN) end.
  { destruct Hlay as [[E4 Eb]|[H4 Eb]].
    - rewrite E4. cbn [Z.eqb mbind outcome_bind]. eexists. split; [done|]. change (store_head 0 0) with (@nil Z). cbn [app].
      change (zdrop 0 (w :: r)) with (w :: r). destruct (store_words_spec (w :: r) Hw) as (S1 & S2 & S3).
      split_and!; [done|unfold zlen; rewrite S2; lia|lia].
    - replace (binsz mod 4 =? 0) with false by (symmetry; apply Z.eqb_neq; lia). change (zget (w :: r) 0) with (Some w).
      cbn [total mbind outcome_bind]. eexists. split; [done|]. change (zdrop 1 (w :: r)) with (drop 0 r). rewrite drop_0.
      pose proof (mask_check binsz Hsz w r Hw Hl) as M. rewrite HN, Hlt in M.
      replace (binsz mod 4 =? 0) with false in M by (symmetry; apply Z.eqb_neq; lia).
      apply list.Forall_cons in Hw as [Hw Hr]. rewrite land_mask_zero in M by lia. apply Z.ltb_lt in M.
      destruct (store_words_spec r Hr) as (S1 & S2 & S3). destruct (store_head_spec (binsz mod 4) w H4 ltac:(lia)) as (T1 & T2 & T3).
      split_and!; [by apply is_bytes_app|unfold zlen; rewrite length_app, S2, T2; lia|].
      rewrite nval_app, S2, S3, T3, <- HN, nval_cons. do 2 f_equal. rewrite words_limit by lia. f_equal. lia. }
  destruct (lead_zeros_split bin) as (rest & Er & Hr & Hz & Hlen). exists bin, rest.
  apply Z.ltb_lt in Hlt. rewrite Hal. replace (N <? 256 ^ binsz) with true by (symmetry; by apply Z.ltb_lt).
  pose proof (zlen_nonneg rest). rewrite !wrap_small by (rewrite ?wrap_small; lia).
  split_and!; try done; try lia.
  - do 2 f_equal. lia.
  - replace (binsz - zlen rest) with (lead_zeros bin) by lia. done.
  - rewrite Er in Hb. by apply is_bytes_app in Hb as [_ ?].
  - rewrite Er, nval_zeros in HbN. done.
Qed.

(** ** Encoding *)

(** [p] is what the loop has not reached, [q] what it has written. *)
Lemma carry_loop_spec (fuel : nat) (p q : list Z) (carry high : Z) :
  (length p < fuel)%nat -> is_digits p -> is_digits q -> 0 <= carry -> -1 <= high ->
  (forall k x, zget p k = Some x -> k <= high -> x = 0) ->
  58 ^ len q * (256 * nval 58 p + carry) + nval 58 q < 58 ^ (len p + len q) ->
  exists buf j, carry_loop fuel (p ++ q) carry (zlen p - 1) high = Some (buf, j) /\
    length buf = (length p + length q)%nat /\ is_digits buf /\ -1 <= j /\
    (forall k x, zget buf k = Some x -> k <= j -> x = 0) /\
    nval 58 buf = 58 ^ len q * (256 * nval 58 p + carry) + nval 58 q.
Proof.
  revert p q carry. induction fuel as [|fuel IH]; intros p q carry Hf Hp Hq Hc Hh Hz Hlt; [lia|]. cbn [carry_loop].
  assert (0 < 58 ^ len q) as P by (apply Z.pow_pos_nonneg; lia).
  pose proof (nval_range 58 q ltac:(lia) Hq) as Rq. pose proof (nval_range 58 p ltac:(lia) Hp) as Rp.
  destruct ((high <? zlen p - 1) || negb (carry =? 0)) eqn:Eg.
  - destruct p as [|v p _] using rev_ind.
    { exfalso. unfold zlen in Eg. cbn [length] in *. replace (high <? Z.of_nat 0 - 1) with false in Eg by (symmetry; apply Z.ltb_ge; lia).
      reflect_bools. destruct Eg as [?|Eg]; [done|]. reflect_bools. change (nval 58 []) with 0 in Hlt.
      replace (Z.of_nat 0 + len q) with (len q) in Hlt by lia. nia. }
    apply Forall_app in Hp as [Hp Hv]. apply Forall_inv in Hv. rewrite <- app_assoc. cbn [app].
    replace (zlen (p ++ [v]) - 1) with (zlen p) by zlia. rewrite zget_mid. cbn [mbind option_bind].
    rewrite zset_mid. cbn [mbind option_bind]. set (t := carry + 256 * v).
    assert (0 <= t mod 58 < 58) as Rt by (apply Z.mod_pos_bound; lia).
    pose proof (Z_div_mod_eq_full t 58) as Et.
    assert (58 ^ len q * (256 * nval 58 (p ++ [v]) + carry) + nval 58 q =
            58 ^ len (t mod 58 :: q) * (256 * nval 58 p + t / 58) + nval 58 (t mod 58 :: q)) as ET.
    { rewrite nval_snoc, nval_cons. cbn [length]. rewrite Nat2Z.inj_succ, Z.pow_succ_r by lia. subst t. nia. }
    rewrite ET in *. rewrite length_app in Hf, Hlt |- *. cbn [length] in Hf, Hlt |- *.
    destruct (IH p (t mod 58 :: q) (t / 58)) as (buf & j & -> & B1 & B2 & B3 & B4 & B5).
    + lia.
    + done.
    + by constructor.
    + apply Z.div_pos; lia.
    + done.
    + intros k x Hk Hle. apply (Hz k x); [|done]. rewrite zget_app_l; [done|]. apply zget_Some in Hk. lia.
    + cbn [length]. replace (len p + Z.of_nat (S (length q))) with (Z.of_nat (length p + 1) + len q) by lia. done.
    + exists buf, j. cbn [length] in B1. split_and!; (done || lia).
  - reflect_bools. subst carry. exists (p ++ q), (zlen p - 1). rewrite length_app.
    assert (nval 58 p = 0) as Ep.
    { assert (p = replicate (length p) 0) as ->; [|rewrite <- (app_nil_r (replicate _ _)); apply nval_zeros].
      apply list_eq_same_length with (length p); [by rewrite length_replicate|done|].
      intros k x y Hk Hx Hy. apply lookup_replicate in Hy as [-> _]. apply (Hz (Z.of_nat k)); [|unfold zlen in *; lia].
      unfold zget. replace (Z.of_nat k <? 0) with false by (symmetry; apply Z.ltb_ge; lia). by rewrite Nat2Z.id. }
    split_and!; [done|lia|by apply Forall_app|unfold zlen; lia| |].
    + intros k x Hk Hle. rewrite zget_app_l in Hk by lia. apply (Hz k x); [done|lia].
    + rewrite nval_app, Ep. lia.
Qed.

Lemma encode_loop_spec (bin buf : list Z) (high : Z) :
  is_bytes bin -> is_digits buf -> -1 <= high -> (forall k x, zget buf k = Some x -> k <= high -> x = 0) ->
  256 ^ len bin * (nval 58 buf + 1) <= 58 ^ len buf ->
  exists buf', encode_loop bin buf high = Some buf' /\ length buf' = length buf /\ is_digits buf' /\
    nval 58 buf' = 256 ^ len bin * nval 58 buf + nval 256 bin.
Proof.
  intros Hb. revert buf high. induction Hb as [|b bin Hb Hbs IH]; intros buf high Hd Hh Hz Hlt; cbn [encode_loop].
  { exists buf. split_and!; try done. change (nval 256 []) with 0. cbn [length]. change (256 ^ Z.of_nat 0) with 1. lia. }
  unfold is_byte in Hb. cbn [length] in Hlt. rewrite Nat2Z.inj_succ, Z.pow_succ_r in Hlt by lia.
  assert (0 < 256 ^ len bin) as P by (apply Z.pow_pos_nonneg; lia).
  pose proof (nval_range 58 buf ltac:(lia) Hd) as Rb.
  destruct (carry_loop_spec (S (length buf)) buf [] b high) as (buf' & j & E & B1 & B2 & B3 & B4 & B5);
    [lia|done|constructor|lia|done|done| |].
  { cbn [length]. change (nval 58 []) with 0. change (58 ^ Z.of_nat 0) with 1. replace (len buf + Z.of_nat 0) with (len buf) by lia. nia. }
  rewrite app_nil_r in E. rewrite E. cbn [mbind option_bind]. cbn [length] in B1, B5. change (nval 58 []) with 0 in B5.
  change (58 ^ Z.of_nat 0) with 1 in B5.
  destruct (IH buf' j) as (buf'' & -> & C1 & C2 & C3); [done|lia|done| |].
  { rewrite B1, Nat.add_0_r, B5. nia. }
  exists buf''. split_and!; [done|lia|done|]. rewrite C3, B5, nval_cons. cbn [length].
  rewrite Nat2Z.inj_succ, Z.pow_succ_r by lia. nia.
Qed.

(** The estimate of the number of digits: 138/100 digits for a byte. *)
Lemma size_enough (n : Z) : 0 <= n -> 256 ^ n <= 58 ^ (n * 138 / 100 + 1).
Proof.
  intros Hn. set (s := n * 138 / 100 + 1).
  assert (0 <= s /\ 138 * n <= 100 * s) as [Hs Hns] by (unfold s; zdm).
  apply Z.nlt_ge. intros Hlt. assert (0 <= 58 ^ s) by (apply Z.pow_nonneg; lia).
  pose proof (Z.pow_lt_mono_l (58 ^ s) (256 ^ n) 100 ltac:(lia) ltac:(lia)) as Hlt'. clear Hlt. rename Hlt' into Hlt.
  rewrite <- !Z.pow_mul_r in Hlt by lia.
  assert (256 ^ (n * 100) <= 58 ^ (s * 100)); [|lia].
  transitivity (58 ^ (138 * n)); [|apply Z.pow_le_mono_r; lia].
  rewrite (Z.mul_comm n 100), !Z.pow_mul_r by lia. apply Z.pow_le_mono_l. split; [lia|].
  apply Z.leb_le. vm_compute. reflexivity.
Qed.

(** ** What a string stands for *)

(** The bytes and the string are the same number without leading zeros, to the
    base 256 and 58, behind the same number of zero bytes and '1's. *)
Definition represents (bin str : list Z) : Prop :=
  exists n rest ds, bin = replicate n 0 ++ rest /\ head rest <> Some 0 /\
    str = replicate n 49 ++ map letter58 ds /\ head ds <> Some 0 /\ is_digits ds /\ nval 58 ds = nval 256 rest.

Lemma replicate_inj_head {A} (x : A) (n m : nat) (a b : list A) :
  head a <> Some x -> head b <> Some x -> replicate n x ++ a = replicate m x ++ b -> n = m /\ a = b.
Proof.
  intros Ha Hb. revert m. induction n as [|n IH]; intros [|m] E; cbn in E; [done| | |].
  - subst a. done.
  - subst b. done.
  - injection E as E. destruct (IH m E) as [-> ->]. done.
Qed.

Lemma letters_head (ds : list Z) : is_digits ds -> head ds <> Some 0 -> head (map letter58 ds) <> Some 49.
Proof.
  intros Hd Hh E. destruct Hd as [|d ds Hd Hds]; [done|]. cbn [head map] in *. injection E as E.
  destruct (digit_letter d Hd) as (_ & Ed & _). rewrite E in Ed. change (digit58 49) with 0 in Ed. congruence.
Qed.

Lemma letters_inj (a b : list Z) : is_digits a -> is_digits b -> map letter58 a = map letter58 b -> a = b.
Proof.
  intros Ha Hb E. rewrite <- (proj1 (proj2 (digits_letters a Ha))), <- (proj1 (proj2 (digits_letters b Hb))). by rewrite E.
Qed.

Lemma represents_str (bin str str' : list Z) : represents bin str -> represents bin str' -> str = str'.
Proof.
  intros (n & rest & ds & -> & Hr & -> & Hd & Dd & E) (n' & rest' & ds' & E' & Hr' & -> & Hd' & Dd' & Ev').
  apply replicate_inj_head in E' as [<- <-]; [|done|done]. do 2 f_equal. apply (nval_canonical 58); (done || lia).
Qed.

Lemma represents_bin (bin bin' str : list Z) :
  is_bytes bin -> is_bytes bin' -> represents bin str -> represents bin' str -> bin = bin'.
Proof.
  intros Hb Hb' (n & rest & ds & -> & Hr & -> & Hd & Dd & E) (n' & rest' & ds' & -> & Hr' & E' & Hd' & Dd' & Ev').
  apply replicate_inj_head in E' as [<- E']; [|by apply letters_head|by apply letters_head].
  apply letters_inj in E' as <-; [|done|done]. apply is_bytes_app in Hb as [_ Hb], Hb' as [_ Hb'].
  f_equal. apply (nval_canonical 256); (done || lia).
Qed.

Lemma base58_encode_spec (b58sz : Z) (bin : list Z) : is_bytes bin -> zlen bin < 2 ^ 50 ->
  exists str, represents bin str /\ is_ascii str /\ zlen str <= zlen bin * 138 / 100 + 1 /\
    btc_base58_encode b58sz bin = Some (if zlen str <? b58sz then Some str else None, zlen str + 1).
Proof.
  intros Hb Hl. unfold btc_base58_encode. destruct (lead_zeros_split bin) as (rest & Eb & Hh & Hz & Hlen).
  set (z := lead_zeros bin) in *. pose proof (zlen_nonneg rest) as Hr0.
  replace (zlen bin - z) with (zlen rest) by lia. set (s := zlen rest * 138 / 100 + 1).
  assert (0 < s <= zlen bin * 138 / 100 + 1 /\ s < 2 ^ 52 /\ z + s <= zlen bin * 138 / 100 + 1) as (Hs & Hs2 & Hzs) by (unfold s; zdm).
  assert (u64 (u64 (u64 (zlen rest) * 138) / 100 + 1) = s) as ->.
  { rewrite (wrap_small 64 (zlen rest)) by lia. rewrite (wrap_small 64 (zlen rest * 138)) by lia. apply wrap_small. fold s. lia. }
  assert (zdrop z bin = rest) as ->.
  { rewrite Eb. apply zdrop_app_len. rewrite zlen_replicate. lia. }
  assert (is_bytes rest) as Hbr by (rewrite Eb in Hb; by apply is_bytes_app in Hb as [_ ?]).
  assert (nval 58 (replicate (Z.to_nat s) 0) = 0) as E0 by (rewrite <- (app_nil_r (replicate _ _)); apply nval_zeros).
  destruct (encode_loop_spec rest (replicate (Z.to_nat s) 0) (s - 1)) as (buf & -> & B1 & B2 & B3); [done| |lia| | |].
  { apply Forall_replicate. lia. }
  { intros k x Hk _. unfold zget in Hk. case_bool; [done|]. by apply lookup_replicate in Hk as [-> _]. }
  { rewrite E0, length_replicate, Z2Nat.id by lia. change (len rest) with (zlen rest). rewrite Z.mul_1_r. by apply size_enough. }
  cbn [mbind option_bind]. rewrite length_replicate in B1. rewrite E0, Z.mul_0_r, Z.add_0_l in B3.
  destruct (lead_zeros_split buf) as (ds & Ed & Hdh & Hdz & Hdl). set (j := lead_zeros buf) in *.
  pose proof (zlen_nonneg ds) as Hds0.
  assert (zlen buf = s) as Hbs by (unfold zlen; rewrite B1; lia).
  assert (zdrop j buf = ds) as -> by (rewrite Ed; apply zdrop_app_len; rewrite zlen_replicate; lia).
  assert (is_digits ds) as Hdd by (rewrite Ed in B2; by apply Forall_app in B2 as [_ ?]).
  exists (replicate (Z.to_nat z) 49 ++ map letter58 ds).
  assert (zlen (replicate (Z.to_nat z) 49 ++ map letter58 ds) = z + zlen ds) as El.
  { rewrite zlen_app, zlen_replicate. unfold zlen. rewrite length_map. lia. }
  split_and!.
  - exists (Z.to_nat z), rest, ds. split_and!; try done. rewrite <- B3, Ed. symmetry. apply nval_zeros.
  - apply Forall_app. split; [apply Forall_replicate; lia|]. by apply digits_letters.
  - lia.
  - rewrite El. replace (u64 (z + s - j)) with (z + zlen ds) by (rewrite wrap_small; lia).
    rewrite (wrap_small 64 (z + zlen ds + 1)) by lia. rewrite Z.leb_antisym. by destruct (_ <? b58sz).
Qed.

Lemma ones_alphabet (n : nat) : forallb in_alphabet (replicate n 49) = true.
Proof. induction n as [|n IH]; [done|]. cbn [replicate forallb]. by rewrite IH. Qed.

(** Decoding into a buffer that is at least as long as the string. *)
Lemma base58_decode_represents (binsz : Z) (str : list Z) :
  0 < binsz < 2 ^ 32 -> zlen str <= binsz -> is_ascii str ->
  if forallb in_alphabet str then
    exists bin, btc_base58_decode binsz str = Ret (replicate (Z.to_nat (binsz - zlen bin)) 0 ++ bin, zlen bin) /\
      is_bytes bin /\ represents bin str /\ zlen bin <= zlen str
  else btc_base58_decode binsz str = Fail.
Proof.
  intros Hsz Hl Ha. destruct (ones_split str) as (n & t & -> & Hh). apply Forall_app in Ha as [_ Ht].
  rewrite zlen_app, zlen_replicate in *. pose proof (zlen_nonneg t) as Ht0.
  replace (forallb in_alphabet (replicate n 49 ++ t)) with (forallb in_alphabet t).
  2:{ by rewrite forallb_app, ones_alphabet. }
  assert (forallb in_alphabet t = true -> 0 <= nval 58 (map digit58 t) < 58 ^ zlen t) as HN.
  { intros Hal. destruct (letters_digits t Ht Hal) as [Hd _]. pose proof (nval_range 58 _ ltac:(lia) Hd) as R.
    by rewrite length_map in R. }
  destruct (base58_decode_spec binsz n t ltac:(lia) ltac:(lia) Ht Hh) as [[-> HF]|(bin & rest & -> & HT & -> & Hrl & Hrb & Hrh & HrN)].
  - destruct (forallb in_alphabet t) eqn:Hal; [|done]. exfalso. cbn [andb] in HF. apply Z.ltb_ge in HF. specialize (HN eq_refl).
    assert (58 ^ zlen t <= 256 ^ zlen t) by (apply Z.pow_le_mono_l; lia).
    assert (256 ^ zlen t <= 256 ^ binsz) by (apply Z.pow_le_mono_r; lia). lia.
  - apply andb_true_iff in HT as [Hal _]. rewrite Hal. destruct (letters_digits t Ht Hal) as [Hd Hlt]. specialize (HN Hal).
    pose proof (zlen_nonneg rest) as Hr0.
    assert (zlen rest <= zlen t) as Hrt.
    { destruct rest as [|b rest]; [rewrite zlen_nil; lia|]. rewrite nval_cons in HrN. apply list.Forall_cons in Hrb as [Hb Hrb].
      pose proof (nval_range 256 rest ltac:(lia) Hrb) as Rr. unfold is_byte in Hb. assert (b <> 0) by (cbn in Hrh; congruence).
      assert (256 ^ len rest < 256 ^ zlen t).
      { assert (58 ^ zlen t <= 256 ^ zlen t) by (apply Z.pow_le_mono_l; lia). nia. }
      assert (len rest < zlen t) by (apply (Z.pow_lt_mono_r_iff 256); lia). rewrite zlen_cons. unfold zlen at 1. lia. }
    exists (replicate n 0 ++ rest). rewrite zlen_app, zlen_replicate. split_and!.
    + rewrite app_assoc, <- replicate_add. do 2 f_equal; [|lia]. do 2 f_equal. lia.
    + apply is_bytes_app. split; [apply is_bytes_replicate; unfold is_byte; lia|done].
    + exists n, rest, (map digit58 t). rewrite Hlt. split_and!; try done.
      destruct Ht as [|c t Hc Ht]; [done|]. cbn [map head] in *. intros [= E]. apply digit_range in E; [|done]. congruence.
    + lia.
Qed.

Lemma represents_alphabet (bin str : list Z) : represents bin str -> is_ascii str /\ forallb in_alphabet str = true.
Proof.
  intros (n & rest & ds & _ & _ & -> & _ & Hd & _). destruct (digits_letters ds Hd) as (H1 & _ & H3). split.
  - apply Forall_app. split; [apply Forall_replicate; lia|done].
  - by rewrite forallb_app, H3, andb_true_r, ones_alphabet.
Qed.

(** [btc_base58_decode] and [btc_base58_encode] are inverse.  With a buffer
    at least as long as the string, decoding a string gives some bytes, right
    aligned behind zeros and with their exact count, if and only if encoding
    those bytes gives the string: nothing that is not an encoding is accepted,
    and leading zeros are kept. *)
Theorem base58_exact (binsz b58sz : Z) (bin str : list Z) :
  0 < binsz < 2 ^ 32 -> zlen str <= binsz -> is_ascii str -> is_bytes bin -> zlen bin < 2 ^ 32 -> zlen str < b58sz ->
  (btc_base58_decode binsz str = Ret (replicate (Z.to_nat (binsz - zlen bin)) 0 ++ bin, zlen bin) <->
   btc_base58_encode b58sz bin = Some (Some str, zlen str + 1)).
Proof.
  intros Hsz Hl Ha Hb Hbl Hb58. pose proof (base58_decode_represents binsz str Hsz Hl Ha) as D.
  destruct (base58_encode_spec b58sz bin Hb ltac:(lia)) as (str' & R & Ha' & _ & ->). split.
  - destruct (forallb in_alphabet str); [|by rewrite D]. destruct D as (bin' & -> & Hb' & R' & _). intros [= E1 E2].
    rewrite E2 in E1. apply app_inv_head in E1. subst bin'. rewrite (represents_str _ _ _ R' R) in *.
    by replace (zlen str' <? b58sz) with true by (symmetry; apply Z.ltb_lt; lia).
  - case_bool; [|done]. intros [= ->]. destruct (represents_alphabet bin str R) as [_ Hal]. rewrite Hal in D.
    destruct D as (bin' & -> & Hb' & R' & _). by rewrite (represents_bin bin bin' str).
Qed.

(** Two zero bytes and the number 58 are "1121". *)
Lemma base58_exact_witness :
  btc_base58_encode 10 [0; 0; 58] = Some (Some [49; 49; 50; 49], 5) /\
  btc_base58_decode 4 [49; 49; 50; 49] = Ret ([0; 0; 0; 58], 3).
Proof.
  split; [vm_compute; reflexivity|].
  apply (base58_exact 4 10 [0; 0; 58] [49; 49; 50; 49]); [lia|done|repeat constructor; lia|by apply is_bytes_of|done|done|].
  vm_compute. reflexivity.
Defined.

(** ** Base58Check *)

Lemma raw_digest (d : list Z) : is_bytes d -> zlen d < 2 ^ 61 -> length (sha256_Raw d) = 32%nat /\ is_bytes (sha256_Raw d).
Proof.
  intros Hb Hl. unfold sha256_Raw. rewrite (@Raw_spec sha256 sha256_laws) by done.
  rewrite sha_spec_length. split; [done|apply sha_spec_bytes].
Qed.

#[local] Opaque sha256_Raw.

(** The checksum of a payload, sealed so that proofs do not evaluate it. *)
Definition tag58_seal : { f : list Z -> list Z | forall d, f d = take 4 (sha256_Raw (sha256_Raw d)) }.
Proof. by exists (fun d => take 4 (sha256_Raw (sha256_Raw d))). Qed.
Definition tag58 : list Z -> list Z := proj1_sig tag58_seal.

Lemma tag58_eq (d : list Z) : take 4 (sha256_Raw (sha256_Raw d)) = tag58 d.
Proof. symmetry. apply (proj2_sig tag58_seal). Qed.

Lemma tag58_ok (d : list Z) : is_bytes d -> zlen d < 2 ^ 61 -> zlen (tag58 d) = 4 /\ is_bytes (tag58 d).
Proof.
  intros Hb Hl. destruct (raw_digest d Hb Hl) as [L1 B1].
  destruct (raw_digest (sha256_Raw d) B1) as [L2 B2]; [unfold zlen; lia|].
  rewrite <- tag58_eq. unfold zlen. rewrite length_take, L2. split; [done|by apply is_bytes_take].
Qed.

Lemma skip_zeros_spec (m : nat) (fuel : nat) (a s : list Z) (b c : Z) (r t : list Z) :
  (m < fuel)%nat -> b <> 0 -> c <> 49 -> length a = length s ->
  skip_zeros fuel (a ++ replicate m 0 ++ b :: r) (s ++ replicate m 49 ++ c :: t) (zlen a) = Some (b, c).
Proof.
  intros Hf Hb Hc. revert fuel a s Hf. induction m as [|m IH]; intros [|fuel] a s Hf Hl; try lia; cbn [skip_zeros replicate app].
  - rewrite zget_mid. cbn [mbind option_bind]. rewrite <- app_assoc. cbn [app].
    replace (zlen a) with (zlen s) by (unfold zlen; lia). rewrite zget_mid. cbn [mbind option_bind].
    replace (b =? 0) with false by (symmetry; by apply Z.eqb_neq). done.
  - rewrite zget_mid. cbn [mbind option_bind]. rewrite <- app_assoc. cbn [app].
    replace (zlen a) with (zlen s) by (unfold zlen; lia). rewrite zget_mid. cbn [mbind option_bind Z.eqb Pos.eqb andb].
    specialize (IH fuel (a ++ [0]) (s ++ [49]) ltac:(lia)). rewrite !length_app, <- !app_assoc in IH. cbn [app length] in IH.
    replace (zlen s + 1) with (zlen (a ++ [0])) by (rewrite zlen_app; change (zlen [0]) with 1; unfold zlen; lia).
    apply IH. lia.
Qed.

Lemma represents_nonzero (bin str : list Z) : is_bytes bin -> represents bin str -> Exists (fun c => c <> 49) str ->
  exists n b r c t, bin = replicate n 0 ++ b :: r /\ str = replicate n 49 ++ c :: t /\ b <> 0 /\ c <> 49.
Proof.
  intros Hb (n & rest & ds & -> & Hr & -> & Hd & Dd & E) He.
  pose proof (letters_head ds Dd Hd) as Hlh. destruct rest as [|b r].
  - assert (ds = []) as ->.
    { apply (nval_canonical 58); (done || lia || constructor). }
    cbn [map] in He. rewrite app_nil_r in He. apply Exists_exists in He as (c & Hin & Hc).
    apply list_elem_of_In, elem_of_replicate in Hin as [-> _]. done.
  - destruct ds as [|d ds].
    { exfalso. change (nval 58 []) with 0 in E. rewrite nval_cons in E. apply is_bytes_app in Hb as [_ Hb].
      apply list.Forall_cons in Hb as [Hb Hbr]. unfold is_byte in Hb. pose proof (nval_range 256 r ltac:(lia) Hbr).
      assert (b <> 0) by (cbn in Hr; congruence). assert (0 < 256 ^ len r) by (apply Z.pow_pos_nonneg; lia). nia. }
    exists n, b, r, (letter58 d), (map letter58 ds). split_and!; try done.
    + cbn in Hr. congruence.
    + cbn [map head] in Hlh. congruence.
Qed.

Lemma b58check_spec (bin zs str : list Z) : is_bytes bin -> zlen bin < 2 ^ 61 -> represents bin str -> Exists (fun c => c <> 49) str ->
  exists r, btc_b58check (bin ++ zs) (zlen bin) str = Some r /\
    (0 <= r <-> exists payload, bin = payload ++ tag58 payload).
Proof.
  intros Hb Hl R He. unfold btc_b58check. destruct (Z.ltb_spec (zlen bin) 4) as [H4|H4].
  { eexists. split; [done|]. split; [lia|]. intros (p & E). exfalso. subst bin. apply is_bytes_app in Hb as [Hp _].
    rewrite zlen_app in *. destruct (tag58_ok p Hp) as [Et _]; [pose proof (zlen_nonneg (tag58 p)); lia|]. pose proof (zlen_nonneg p). lia. }
  set (p := ztake (zlen bin - 4) bin). set (q := zdrop (zlen bin - 4) bin).
  assert (bin = p ++ q) as Ebin by (symmetry; apply ztake_zdrop).
  assert (zlen q = 4 /\ zlen p = zlen bin - 4) as [Hq Hp] by (subst p q; rewrite zlen_zdrop, zlen_ztake; lia).
  clearbody p q.
  assert (ztake (zlen bin - 4) (bin ++ zs) = p) as ->.
  { rewrite Ebin at 2. rewrite <- app_assoc. apply ztake_app_len. lia. }
  assert (ztake 4 (zdrop (zlen bin - 4) (bin ++ zs)) = q) as ->.
  { rewrite Ebin at 2. rewrite <- app_assoc. rewrite (zdrop_app_len p) by lia. apply ztake_app_len. lia. }
  rewrite tag58_eq. destruct (bool_decide_reflect (q = tag58 p)) as [Eq|Eq]; cbn [negb].
  - destruct (represents_nonzero bin str Hb R He) as (n & b & r & c & t & En & -> & Hb0 & Hc).
    assert (skip_zeros (S (length (bin ++ zs))) (bin ++ zs) (replicate n 49 ++ c :: t) 0 = Some (b, c)) as ->.
    { rewrite En. rewrite <- app_assoc. apply (skip_zeros_spec n _ [] [] b c); [|done|done|done].
      rewrite !length_app, length_replicate. lia. }
    cbn [mbind option_bind]. replace (b =? 0) with false by (symmetry; by apply Z.eqb_neq).
    replace (c =? 49) with false by (symmetry; by apply Z.eqb_neq). cbn [orb].
    destruct (zget_is_Some bin 0) as [x Hx]; [lia|]. exists x. rewrite zget_app_l by lia. split; [done|].
    split; [|intros _]; [exists p; by rewrite <- Eq|].
    unfold zget in Hx. cbn in Hx. apply (Forall_lookup_1 _ _ _ _ Hb) in Hx. unfold is_byte in Hx. lia.
  - exists (-1). split; [done|]. split; [lia|]. intros (p' & E). exfalso. apply Eq.
    pose proof Hb as Hb'. rewrite E in Hb'. apply is_bytes_app in Hb' as [Hp' _].
    assert (zlen p' <= zlen bin) as Hle by (rewrite E, zlen_app; pose proof (zlen_nonneg (tag58 p')); lia).
    destruct (tag58_ok p' Hp') as [Et _]; [lia|].
    assert (length p = length p') by (apply (f_equal zlen) in E; rewrite zlen_app in E; unfold zlen in *; lia).
    rewrite Ebin in E. destruct (app_inj_1 _ _ _ _ ltac:(done) E) as [-> ->]. reflexivity.
Qed.

Lemma encode_check_spec58 (p : list Z) (strsize : Z) : is_bytes p -> zlen p <= 128 -> 0 <= strsize < 2 ^ 31 ->
  exists str, represents (p ++ tag58 p) str /\
    btc_base58_encode_check p strsize = Some (if zlen str <? strsize then (zlen str + 1, str) else (0, [])).
Proof.
  intros Hp Hl Hs. unfold btc_base58_encode_check. replace (128 <? zlen p) with false by (symmetry; apply Z.ltb_ge; lia).
  destruct (tag58_ok p Hp ltac:(lia)) as [Ht Hb].
  assert (ztake (zlen p + 4) (p ++ sha256_Raw (sha256_Raw p)) = p ++ tag58 p) as ->.
  { rewrite <- (take_drop 4 (sha256_Raw (sha256_Raw p))), tag58_eq, app_assoc. apply ztake_app_len. rewrite zlen_app. lia. }
  rewrite wrap_small by lia. pose proof (zlen_nonneg p).
  destruct (base58_encode_spec strsize (p ++ tag58 p)) as (str & R & _ & Hlen & ->).
  { by apply is_bytes_app. } { rewrite zlen_app. lia. }
  exists str. split; [done|]. cbn [mbind option_bind]. case_bool; [|done]. rewrite zlen_app, Ht in Hlen. do 2 f_equal.
  unfold swrap. pose proof (zlen_nonneg str). assert (zlen str <= 184) by zdm. rewrite Z.mod_small; lia.
Qed.

Lemma decode_check_spec58 (str data : list Z) :
  is_ascii str -> forallb in_alphabet str = true -> Exists (fun c => c <> 49) str ->
  zlen str <= 128 -> zlen str <= zlen data ->
  exists r buf, btc_base58_decode_check str data = Some (r, buf) /\ zlen buf = zlen data /\
    ((exists payload, is_bytes payload /\ zlen payload <= 128 /\
        btc_base58_encode_check payload 256 = Some (zlen str + 1, str) /\ r = zlen payload + 4 /\
        buf = payload ++ tag58 payload ++ replicate (Z.to_nat (zlen data - r)) 0) \/
     r = 0 /\ forall payload, is_bytes payload -> zlen payload <= 128 ->
        btc_base58_encode_check payload 256 <> Some (zlen str + 1, str)).
Proof.
  intros Ha Hal He H128 Hd. unfold btc_base58_decode_check.
  replace (128 <? zlen str) with false by (symmetry; apply Z.ltb_ge; lia).
  replace (zlen data <? zlen str) with false by (symmetry; apply Z.ltb_ge; lia). cbn [orb].
  assert (0 < zlen str) as H0 by (destruct str; [by apply Exists_nil in He|rewrite zlen_cons; pose proof (zlen_nonneg str); lia]).
  pose proof (base58_decode_represents (zlen str) str ltac:(lia) ltac:(lia) Ha) as D. rewrite Hal in D.
  destruct D as (bin & -> & Hb & R & Hbl). cbn [mbind option_bind]. pose proof (zlen_nonneg bin) as Hb0.
  replace (zlen bin <=? zlen str) with true by (symmetry; apply Z.leb_le; lia). cbn [negb].
  set (rest := zdrop (zlen str) data). set (zs := replicate (Z.to_nat (zlen data - zlen bin)) 0).
  assert (ztake (zlen bin) (memmove_down ((replicate (Z.to_nat (zlen str - zlen bin)) 0 ++ bin) ++ rest)
    (zlen str - zlen bin) (zlen bin)) = bin) as ->.
  { unfold memmove_down. rewrite <- app_assoc, zdrop_app_len by (rewrite zlen_replicate; lia).
    rewrite (ztake_app_len bin) by done. apply ztake_app_len. done. }
  destruct (b58check_spec bin zs str Hb ltac:(lia) R He) as (v & -> & Hv). cbn [mbind option_bind].
  eexists _, _. split; [done|]. split; [unfold zs; rewrite zlen_app, zlen_replicate; lia|].
  assert (forall p, is_bytes p -> zlen p <= 128 ->
    (btc_base58_encode_check p 256 = Some (zlen str + 1, str) <-> bin = p ++ tag58 p)) as U.
  { intros p Hp Hpl. destruct (encode_check_spec58 p 256 Hp Hpl ltac:(lia)) as (str' & R' & ->).
    destruct (tag58_ok p Hp ltac:(lia)) as [Ht Hbt]. split.
    - case_bool; [|intros [= E]; lia]. intros [= _ ->]. apply (represents_bin _ _ str); [done|by apply is_bytes_app|done|done].
    - intros ->. rewrite (represents_str _ _ _ R' R). by replace (zlen str <? 256) with true by (symmetry; apply Z.ltb_lt; lia). }
  destruct (Z.ltb_spec v 0) as [Hneg|Hpos].
  - right. split; [done|]. intros p Hp Hpl E. apply U in E; [|done|done]. assert (0 <= v); [|lia]. apply Hv. by exists p.
  - left. apply Hv in Hpos as (p & Ep). assert (is_bytes p) as Hp by (rewrite Ep in Hb; by apply is_bytes_app in Hb as [? _]).
    assert (zlen p <= zlen bin) by (rewrite Ep, zlen_app; pose proof (zlen_nonneg (tag58 p)); lia).
    destruct (tag58_ok p Hp ltac:(lia)) as [Ht _]. exists p.
    assert (s32 (zlen bin) = zlen bin) as -> by (unfold swrap; rewrite Z.mod_small; lia).
    split_and!; [done|lia|apply U; (done || lia)|rewrite Ep, zlen_app; lia|]. unfold zs. rewrite Ep at 1. by rewrite <- app_assoc.
Qed.

(** What was encoded is read back. *)
Lemma decode_check_encoded (p str data : list Z) (strsize : Z) :
  is_bytes p -> zlen p <= 80 -> 0 <= strsize < 2 ^ 31 -> Exists (fun b => b <> 0) (p ++ tag58 p) ->
  btc_base58_encode_check p strsize = Some (zlen str + 1, str) -> zlen str <= zlen data ->
  btc_base58_decode_check str data = Some (zlen p + 4, p ++ tag58 p ++ replicate (Z.to_nat (zlen data - (zlen p + 4))) 0).
Proof.
  intros Hp Hl Hs He Ee Hd. destruct (encode_check_spec58 p strsize Hp ltac:(lia) Hs) as (str' & R & E').
  rewrite E' in Ee. case_bool; [|injection Ee; pose proof (zlen_nonneg str); lia]. injection Ee as _ ->.
  destruct (tag58_ok p Hp ltac:(lia)) as [Ht Hbt]. assert (is_bytes (p ++ tag58 p)) as Hb by (apply is_bytes_app; exact (conj Hp Hbt)).
  destruct (represents_alphabet _ _ R) as [Ha Hal].
  assert (zlen str <= 128) as H128.
  { destruct (base58_encode_spec strsize (p ++ tag58 p) Hb) as (s' & R' & _ & Hlen & _); [rewrite zlen_app; lia|].
    rewrite (represents_str _ _ _ R R') in *. rewrite zlen_app, Ht in Hlen. pose proof (zlen_nonneg p). zdm. }
  destruct (decode_check_spec58 str data Ha Hal) as (r & buf & -> & _ & [(q & Hq & Hql & Eq & -> & ->)|[_ HF]]); [|done|done| |].
  - destruct R as (n & rest & ds & Eb & Hr & -> & Hdh & Hdd & Ev). rewrite Eb in He.
    apply Exists_app in He as [He|He].
    { apply Exists_exists in He as (x & Hin & Hx). apply list_elem_of_In, elem_of_replicate in Hin as [-> _]. done. }
    apply Exists_app. right. destruct ds as [|d ds].
    { exfalso. destruct rest as [|b rest]; [by apply Exists_nil in He|]. rewrite Eb in Hb. apply is_bytes_app in Hb as [_ Hb].
      apply list.Forall_cons in Hb as [Hb Hbr]. unfold is_byte in Hb. pose proof (nval_range 256 rest ltac:(lia) Hbr).
      assert (b <> 0) by (cbn in Hr; congruence). assert (0 < 256 ^ len rest) by (apply Z.pow_pos_nonneg; lia).
      change (nval 58 []) with 0 in Ev. rewrite nval_cons in Ev. nia. }
    apply Exists_exists. exists (letter58 d). split; [by left|]. pose proof (letters_head _ Hdd Hdh) as Hh. cbn [map head] in Hh. congruence.
  - destruct (encode_check_spec58 q 256 Hq Hql ltac:(lia)) as (str2 & R2 & E2). rewrite E2 in Eq.
    case_bool; [|injection Eq; pose proof (zlen_nonneg str); lia]. injection Eq as _ ->.
    destruct (tag58_ok q Hq ltac:(lia)) as [Htq Hbq].
    assert (p ++ tag58 p = q ++ tag58 q) as E by (apply (represents_bin _ _ str); [exact Hb|apply is_bytes_app; exact (conj Hq Hbq)|exact R|exact R2]).
    assert (length p = length q) as El by (apply (f_equal zlen) in E; rewrite !zlen_app in E; unfold zlen in *; lia).
    destruct (app_inj_1 _ _ _ _ El E) as [-> _]. reflexivity.
  - exfalso. apply (HF p Hp ltac:(lia)). destruct (encode_check_spec58 p 256 Hp ltac:(lia) ltac:(lia)) as (str2 & R2 & ->).
    rewrite (represents_str _ _ _ R2 R). by replace (zlen str <? 256) with true by (symmetry; apply Z.ltb_lt; lia).
Qed.


(** The address of the first block: "1A1zP1eP5QGefi2DMPTfTL5SLmv7DivfNa". *)
Definition genesis_address : list Z :=
  [49; 65; 49; 122; 80; 49; 101; 80; 53; 81; 71; 101; 102; 105; 50; 68; 77; 80; 84; 102; 84; 76; 53; 83; 76; 109; 118; 55;
   68; 105; 118; 102; 78; 97].
Definition genesis_payload : list Z := 0 :: be_bytes 20 0x62e907b15cbf27d5425399ebf6f0fb50ebb88f18.

Example genesis_encode : btc_base58_encode_check genesis_payload 256 = Some (35, genesis_address).
Proof. vm_compute. reflexivity. Qed.


(** A string that is not over the alphabet is not decoded, but the result of
    [btc_base58_decode] is not used: the checksum of whatever the caller's
    buffer holds is verified, and here accepted. *)
Example decode_check_stale :
  let stale := 5 :: take 4 (sha256_Raw (sha256_Raw [5])) in
  btc_base58_decode 5 [48; 48; 48; 48; 48] = Fail /\ btc_base58_decode_check [48; 48; 48; 48; 48] stale = Some (5, stale).
Proof. vm_compute. done. Qed.

(** A first character above 127 indexes the digit table behind its end. *)
Example decode_high_bit : btc_base58_decode 5 [200; 50; 50] = Undef.
Proof. vm_compute. done. Qed.

(** ** Addresses *)

(** The part of the chain parameters that texts of addresses and keys use. *)
Record btc_chainparams := mk_chainparams {
  b58prefix_pubkey_address : Z;
  b58prefix_script_address : Z;
  bech32_hrp : list Z;
  b58prefix_secret_address : Z;
  b58prefix_bip32_privkey : Z;
  b58prefix_bip32_pubkey : Z
}.

Definition btc_chainparams_main : btc_chainparams :=
  mk_chainparams 0x00 0x05 [98; 99] 0x80 0x0488ADE4 0x0488B21E.
Definition btc_chainparams_test : btc_chainparams :=
  mk_chainparams 0x6f 0xc4 [116; 98] 0xEF 0x04358394 0x043587CF.
Definition btc_chainparams_regtest : btc_chainparams :=
  mk_chainparams 0x6f 0xc4 [98; 99; 114; 116] 0xEF 0x04358394 0x043587CF.

(** The result and the string. *)
Definition btc_p2pkh_addr_from_hash160 (hashin : list Z) (chain : btc_chainparams) (len : Z) : option (bool * list Z) :=
  let hash160 := b58prefix_pubkey_address chain :: hashin in
  '(r, addrout) ← btc_base58_encode_check hash160 len;
  Some (0 <? r, addrout).

Definition btc_p2wpkh_addr_from_hash160 (hashin : list Z) (chain : btc_chainparams) : option (list Z) :=
  segwit_addr_encode (bech32_hrp chain) 0 hashin.
