(* ===== verification/Utils.v ===== *)
(** * utils.c: hexadecimal text

    The conversions between bytes and hexadecimal text.  A [char] is a byte, a
    text the list of its characters without the terminator, and an output array
    a list that is written cell by cell, so that a write behind its end is
    undefined.  The two static buffers of the file are the state
    [utils_buffers]. *)

From S2P Require Import Prelude.

(** ** The code *)

Definition TO_UINT8_HEX_BUF_LEN : Z := 2048.

Record utils_buffers := mk_utils_buffers { buffer_hex_to_uint8 : list Z; buffer_uint8_to_hex : list Z }.

Definition utils_clear_buffers (u : utils_buffers) : utils_buffers :=
  mk_utils_buffers (replicate (Z.to_nat TO_UINT8_HEX_BUF_LEN) 0) (replicate (Z.to_nat TO_UINT8_HEX_BUF_LEN) 0).

(** [c >= lo && c <= hi] *)
Definition between (c lo hi : Z) : bool := (lo <=? c) && (c <=? hi).

(** [str[i]], the terminator included. *)
Definition char_at (str : list Z) (i : Z) : option Z := zget (str ++ [0]) i.

(** The two characters of one byte, as [utils_hex_to_bin] stores them to [*out]. *)
Definition store_high (out c : Z) : Z :=
  let out := if between c 48 57 then u8 (Z.shiftl (c - 48) 4) else out in
  let out := if between c 97 102 then u8 (Z.shiftl (10 + c - 97) 4) else out in
  if between c 65 70 then u8 (Z.shiftl (10 + c - 65) 4) else out.

Definition store_low (out c : Z) : Z :=
  let out := if between c 48 57 then Z.lor out (c - 48) else out in
  let out := if between c 97 102 then Z.lor out (10 + c - 97) else out in
  if between c 65 70 then Z.lor out (10 + c - 65) else out.

(** [for (i = 0; i < bLen; i++)], with [n] turns left. *)
Fixpoint hex_to_bin_loop (n : nat) (str : list Z) (i : Z) (out : list Z) : option (list Z) :=
  match n with
  | O => Some out
  | S n' =>
      a ← char_at str (i * 2);
      b ← char_at str (i * 2 + 1);
      o ← zget out i;
      out ← zset out i (store_low (store_high o a) b);
      hex_to_bin_loop n' str (i + 1) out
  end.

(** The array [out] and [*outLen]. *)
Definition utils_hex_to_bin (str out : list Z) (inLen : Z) : option (list Z * Z) :=
  let bLen := Z.quot inLen 2 in
  if (bLen <? 0) || (zlen out <? bLen) then None else
  let out := replicate (Z.to_nat bLen) 0 ++ zdrop bLen out in
  out ← hex_to_bin_loop (Z.to_nat bLen) str 0 out;
  Some (out, bLen).

(** The same characters in [utils_hex_to_uint8], added to [c]. *)
Definition add_high (v c : Z) : Z :=
  let v := if between c 48 57 then u8 (v + Z.shiftl (c - 48) 4) else v in
  let v := if between c 97 102 then u8 (v + Z.shiftl (10 + c - 97) 4) else v in
  if between c 65 70 then u8 (v + Z.shiftl (10 + c - 65) 4) else v.

Definition add_low (v c : Z) : Z :=
  let v := if between c 48 57 then u8 (v + (c - 48)) else v in
  let v := if between c 97 102 then u8 (v + (10 + c - 97)) else v in
  if between c 65 70 then u8 (v + (10 + c - 65)) else v.

Fixpoint hex_to_uint8_loop (n : nat) (str : list Z) (i : Z) (buf : list Z) : option (list Z) :=
  match n with
  | O => Some buf
  | S n' =>
      a ← char_at str (i * 2);
      b ← char_at str (i * 2 + 1);
      buf ← zset buf i (add_low (add_high 0 a) b);
      hex_to_uint8_loop n' str (i + 1) buf
  end.

(** The buffers, and whether their first one is returned. *)
Definition utils_hex_to_uint8 (u : utils_buffers) (str : list Z) : option (utils_buffers * bool) :=
  if TO_UINT8_HEX_BUF_LEN <? zlen str then Some (u, false) else
  buf ← hex_to_uint8_loop (Z.to_nat (zlen str / 2)) str 0 (replicate (Z.to_nat TO_UINT8_HEX_BUF_LEN) 0);
  Some (mk_utils_buffers buf (buffer_uint8_to_hex u), true).

(** "0123456789abcdef" *)
Definition digits : list Z := [48; 49; 50; 51; 52; 53; 54; 55; 56; 57; 97; 98; 99; 100; 101; 102].

Definition high_digit (b : Z) : option Z := zget digits (Z.land (Z.shiftr b 4) 0xF).
Definition low_digit (b : Z) : option Z := zget digits (Z.land b 0xF).

(** [for (i = 0; i < inlen; i++)] *)
Fixpoint bin_to_hex_loop (bin : list Z) (i : Z) (hex_out : list Z) : option (list Z) :=
  match bin with
  | [] => Some hex_out
  | b :: bin' =>
      h ← high_digit b;
      hex_out ← zset hex_out (i * 2) h;
      l ← low_digit b;
      hex_out ← zset hex_out (i * 2 + 1) l;
      bin_to_hex_loop bin' (i + 1) hex_out
  end.

Definition utils_bin_to_hex (bin_in : list Z) (inlen : Z) (hex_out : list Z) : option (list Z) :=
  if zlen bin_in <? inlen then None else
  hex_out ← bin_to_hex_loop (ztake inlen bin_in) 0 hex_out;
  zset hex_out (inlen * 2) 0.

(** The buffers, and whether their second one is returned. *)
Definition utils_uint8_to_hex (u : utils_buffers) (bin : list Z) (l : Z) : option (utils_buffers * bool) :=
  if TO_UINT8_HEX_BUF_LEN / 2 - 1 <? l then Some (u, false) else
  if zlen bin <? l then None else
  buf ← bin_to_hex_loop (ztake l bin) 0 (replicate (Z.to_nat TO_UINT8_HEX_BUF_LEN) 0);
  buf ← zset buf (l * 2) 0;
  Some (mk_utils_buffers (buffer_hex_to_uint8 u) buf, true).

(** [strncpy (copy, h, len)]: up to the terminator, then zeros. *)
Fixpoint strncpy (h : list Z) (len : nat) {struct len} : option (list Z) :=
  match len, h with
  | O, _ => Some []
  | S _, [] => None
  | S len', c :: h' => if c =? 0 then Some (replicate len 0) else cons c <$> strncpy h' len'
  end.

(** [for (i = 0; i < len; i += 2)] *)
Fixpoint reverse_hex_loop (n : nat) (i len : Z) (copy h : list Z) : option (list Z) :=
  match n with
  | O => Some h
  | S n' =>
      a ← zget copy (len - i - 2);
      h ← zset h i a;
      b ← zget copy (len - i - 1);
      h ← zset h (i + 1) b;
      reverse_hex_loop n' (i + 2) len copy h
  end.

(** [h] is the array, terminator included. *)
Definition utils_reverse_hex (h : list Z) (len : Z) : option (list Z) :=
  copy ← strncpy h (Z.to_nat len);
  reverse_hex_loop (Z.to_nat ((len + 1) / 2)) 0 len copy h.

Definition p_util_hexdigit : list Z :=
  replicate 48 (-1) ++ [0; 1; 2; 3; 4; 5; 6; 7; 8; 9] ++ replicate 7 (-1) ++ [0xa; 0xb; 0xc; 0xd; 0xe; 0xf] ++
  replicate 26 (-1) ++ [0xa; 0xb; 0xc; 0xd; 0xe; 0xf] ++ replicate 153 (-1).

Definition utils_hex_digit (c : Z) : Z := nth (Z.to_nat c) p_util_hexdigit 0.

Definition isspace (c : Z) : bool := (c =? 32) || between c 9 13.

(** [while (isspace ( *psz)) psz++] *)
Fixpoint skip_spaces (psz : list Z) : list Z :=
  match psz with
  | c :: psz' => if isspace c then skip_spaces psz' else psz
  | [] => []
  end.

(** [psz[0] == '0' && tolower (psz[1]) == 'x'] *)
Definition skip_0x (psz : list Z) : list Z :=
  match psz with
  | c0 :: c1 :: psz' => if (c0 =? 48) && ((c1 =? 120) || (c1 =? 88)) then psz' else psz
  | _ => psz
  end.

(** [while (utils_hex_digit ( *psz) != -1) psz++]: the digits from [pbegin] on. *)
Fixpoint hex_span (psz : list Z) : list Z :=
  match psz with
  | c :: psz' => if negb (utils_hex_digit c =? -1) then c :: hex_span psz' else []
  | [] => []
  end.

(** [while (psz >= pbegin && p1 < pend)]: [back] holds the characters from [psz]
    down to [pbegin], [room] is [pend - p1]; the bytes written. *)
Fixpoint sethex_loop (back : list Z) (room : nat) : list Z :=
  match room, back with
  | O, _ | _, [] => []
  | S _, [c] => [u8 (utils_hex_digit c)]
  | S room', c :: d :: back' => Z.lor (u8 (utils_hex_digit c)) (u8 (Z.shiftl (u8 (utils_hex_digit d)) 4)) :: sethex_loop back' room'
  end.

Definition utils_uint256_sethex (psz : list Z) : list Z :=
  let out := sethex_loop (rev (hex_span (skip_0x (skip_spaces psz)))) 32 in
  out ++ replicate (32 - length out) 0.

(** ** Digits *)

(** The text of some bytes. *)
Definition hex_digit (v : Z) : Z := if v <? 10 then 48 + v else 87 + v.
Definition hex_text (bs : list Z) : list Z := flat_map (fun b => [hex_digit (b / 16); hex_digit (b mod 16)]) bs.

(** Every value of a digit. *)
Lemma hex_digit_cases (P : Z -> Prop) (v : Z) : 0 <= v < 16 ->
  Forall P [0; 1; 2; 3; 4; 5; 6; 7; 8; 9; 10; 11; 12; 13; 14; 15] -> P v.
Proof.
  intros Hv HP. rewrite list.Forall_forall in HP. apply HP. rewrite list_elem_of_In. cbn [In]. lia.
Qed.

Ltac by_digits := repeat (apply list.Forall_cons; split; [by vm_compute|]); by apply list.Forall_nil.

Lemma hex_digit_values (v : Z) : 0 <= v < 16 ->
  zget digits v = Some (hex_digit v) /\ utils_hex_digit (hex_digit v) = v /\
  store_high 0 (hex_digit v) = 16 * v /\ add_high 0 (hex_digit v) = 16 * v /\ 48 <= hex_digit v < 128 /\
  isspace (hex_digit v) = false /\ (hex_digit v =? 120) || (hex_digit v =? 88) = false.
Proof.
  intros Hv. apply (hex_digit_cases (fun v => zget digits v = Some (hex_digit v) /\ utils_hex_digit (hex_digit v) = v /\
  store_high 0 (hex_digit v) = 16 * v /\ add_high 0 (hex_digit v) = 16 * v /\ 48 <= hex_digit v < 128 /\
  isspace (hex_digit v) = false /\ (hex_digit v =? 120) || (hex_digit v =? 88) = false)); [done|]. by_digits.
Qed.

(** A low digit completes a byte. *)
Lemma low_digit_values (h v : Z) : 0 <= h < 16 -> 0 <= v < 16 ->
  store_low (16 * h) (hex_digit v) = 16 * h + v /\ add_low (16 * h) (hex_digit v) = 16 * h + v /\
  Z.lor v (u8 (Z.shiftl h 4)) = 16 * h + v.
Proof.
  intros Hh. revert v. apply (hex_digit_cases (fun h => forall v, 0 <= v < 16 ->
    store_low (16 * h) (hex_digit v) = 16 * h + v /\ add_low (16 * h) (hex_digit v) = 16 * h + v /\
    Z.lor v (u8 (Z.shiftl h 4)) = 16 * h + v)); [done|].
  repeat (apply list.Forall_cons; split; [intros v Hv; apply (hex_digit_cases (fun v => store_low (16 * _) (hex_digit v) = 16 * _ + v /\
    add_low (16 * _) (hex_digit v) = 16 * _ + v /\ Z.lor v (u8 (Z.shiftl _ 4)) = 16 * _ + v)); [done|by_digits]|]).
  by apply list.Forall_nil.
Qed.

Lemma digit_parts (b : Z) : is_byte b -> high_digit b = Some (hex_digit (b / 16)) /\ low_digit b = Some (hex_digit (b mod 16)) /\
  0 <= b / 16 < 16 /\ 0 <= b mod 16 < 16.
Proof.
  unfold is_byte. intros Hb. assert (0 <= b / 16 < 16) by zdm. assert (0 <= b mod 16 < 16) by zdm. unfold high_digit, low_digit.
  change 0xF with (Z.ones 4). rewrite !Z.land_ones, Z.shiftr_div_pow2 by lia. change (2 ^ 4) with 16. rewrite (Z.mod_small (b / 16)) by lia.
  split_and!; try lia; by apply hex_digit_values.
Qed.

Lemma zlen_hex_text (bs : list Z) : zlen (hex_text bs) = 2 * zlen bs.
Proof. induction bs as [|b bs IH]; [done|]. cbn [hex_text flat_map app]. rewrite !zlen_cons. unfold hex_text in IH. lia. Qed.

Lemma hex_text_cons (b : Z) (bs : list Z) : hex_text (b :: bs) = hex_digit (b / 16) :: hex_digit (b mod 16) :: hex_text bs.
Proof. done. Qed.

Lemma hex_text_app (a b : list Z) : hex_text (a ++ b) = hex_text a ++ hex_text b.
Proof. apply flat_map_app. Qed.

(** The characters of a text are digits and no terminators. *)
Lemma hex_text_chars (bs : list Z) : is_bytes bs -> Forall (fun c => exists v, 0 <= v < 16 /\ c = hex_digit v) (hex_text bs).
Proof.
  induction 1 as [|b bs Hb _ IH]; [by apply list.Forall_nil|]. destruct (digit_parts b Hb) as (_ & _ & H1 & H2). rewrite hex_text_cons.
  apply list.Forall_cons. split; [by exists (b / 16)|]. apply list.Forall_cons. split; [by exists (b mod 16)|done].
Qed.

(** ** Loops *)

Lemma bin_to_hex_spec (bs pre rest : list Z) (i : Z) : is_bytes bs -> zlen pre = 2 * i -> 2 * zlen bs <= zlen rest ->
  bin_to_hex_loop bs i (pre ++ rest) = Some (pre ++ hex_text bs ++ zdrop (2 * zlen bs) rest).
Proof.
  intros Hb. revert pre rest i. induction Hb as [|b bs Hb _ IH]; intros pre rest i Hp Hr; [by change (zdrop _ rest) with (drop 0 rest)|].
  rewrite zlen_cons in *. pose proof (zlen_nonneg bs). destruct rest as [|x [|y rest]]; rewrite ?zlen_cons, ?zlen_nil in Hr; [lia..|].
  destruct (digit_parts b Hb) as (Eh & El & _ & _). cbn [bin_to_hex_loop]. rewrite Eh. cbn [mbind option_bind].
  replace (i * 2) with (zlen pre) by lia. rewrite zset_mid. cbn [mbind option_bind]. rewrite El. cbn [mbind option_bind].
  set (h := hex_digit (b / 16)). change (pre ++ h :: y :: rest) with (pre ++ [h] ++ y :: rest). rewrite app_assoc.
  replace (zlen pre + 1) with (zlen (pre ++ [h])) by (by rewrite zlen_app). rewrite zset_mid. cbn [mbind option_bind].
  set (l := hex_digit (b mod 16)). change (?p ++ l :: rest) with (p ++ [l] ++ rest). rewrite (app_assoc _ [l]), IH.
  - rewrite hex_text_cons. fold h l. rewrite <- !app_assoc. cbn [app]. do 5 f_equal. unfold zdrop.
    replace (Z.to_nat (2 * (1 + zlen bs))) with (S (S (Z.to_nat (2 * zlen bs)))) by lia. done.
  - rewrite !zlen_app. change (zlen [h]) with 1. change (zlen [l]) with 1. lia.
  - lia.
Qed.

(** The two characters of the next byte. *)
Lemma char_pair (spre stail : list Z) (b i : Z) : zlen spre = 2 * i ->
  char_at (spre ++ hex_digit (b / 16) :: hex_digit (b mod 16) :: stail) (i * 2) = Some (hex_digit (b / 16)) /\
  char_at (spre ++ hex_digit (b / 16) :: hex_digit (b mod 16) :: stail) (i * 2 + 1) = Some (hex_digit (b mod 16)).
Proof.
  intros Hs. unfold char_at. rewrite <- app_assoc. cbn [app]. replace (i * 2) with (zlen spre) by lia. split; [apply zget_mid|].
  rewrite zget_app_r by lia. by replace (zlen spre + 1 - zlen spre) with 1 by lia.
Qed.

Lemma hex_to_bin_spec (bs spre stail opre post : list Z) (i : Z) : is_bytes bs -> zlen spre = 2 * i -> zlen opre = i ->
  hex_to_bin_loop (length bs) (spre ++ hex_text bs ++ stail) i (opre ++ replicate (length bs) 0 ++ post) = Some (opre ++ bs ++ post).
Proof.
  intros Hb. revert spre opre i. induction Hb as [|b bs Hb _ IH]; intros spre opre i Hs Ho; [done|].
  destruct (digit_parts b Hb) as (_ & _ & Rh & Rl). cbn [length hex_to_bin_loop replicate app]. rewrite hex_text_cons. cbn [app].
  destruct (char_pair spre (hex_text bs ++ stail) b i Hs) as [-> ->]. cbn [mbind option_bind]. rewrite <- Ho, zget_mid. cbn [mbind option_bind].
  destruct (hex_digit_values (b / 16) Rh) as (_ & _ & -> & _). destruct (low_digit_values (b / 16) (b mod 16) Rh Rl) as (-> & _).
  rewrite <- Z_div_mod_eq_full. rewrite zset_mid. cbn [mbind option_bind].
  change (opre ++ b :: ?r) with (opre ++ [b] ++ r). rewrite (app_assoc opre).
  change (spre ++ ?h :: ?l :: ?r) with (spre ++ [h; l] ++ r). rewrite (app_assoc spre), IH.
  - by rewrite <- app_assoc.
  - rewrite zlen_app, zlen_cons, zlen_cons, zlen_nil. lia.
  - rewrite zlen_app, zlen_cons, zlen_nil. lia.
Qed.

Lemma hex_to_uint8_spec (bs spre stail opre mid post : list Z) (i : Z) : is_bytes bs -> zlen spre = 2 * i -> zlen opre = i ->
  length mid = length bs ->
  hex_to_uint8_loop (length bs) (spre ++ hex_text bs ++ stail) i (opre ++ mid ++ post) = Some (opre ++ bs ++ post).
Proof.
  intros Hb. revert spre opre mid i. induction Hb as [|b bs Hb _ IH]; intros spre opre mid i Hs Ho Hm; [by destruct mid|].
  destruct mid as [|x mid]; [done|]. injection Hm as Hm.
  destruct (digit_parts b Hb) as (_ & _ & Rh & Rl). cbn [length hex_to_uint8_loop app]. rewrite hex_text_cons. cbn [app].
  destruct (char_pair spre (hex_text bs ++ stail) b i Hs) as [-> ->]. cbn [mbind option_bind].
  destruct (hex_digit_values (b / 16) Rh) as (_ & _ & _ & -> & _). destruct (low_digit_values (b / 16) (b mod 16) Rh Rl) as (_ & -> & _).
  rewrite <- Z_div_mod_eq_full. rewrite <- Ho, zset_mid. cbn [mbind option_bind].
  change (opre ++ b :: ?r) with (opre ++ [b] ++ r). rewrite (app_assoc opre).
  change (spre ++ ?h :: ?l :: ?r) with (spre ++ [h; l] ++ r). rewrite (app_assoc spre), IH; [by rewrite <- app_assoc| | |done].
  - rewrite zlen_app, zlen_cons, zlen_cons, zlen_nil. lia.
  - rewrite zlen_app, zlen_cons, zlen_nil. lia.
Qed.

Lemma strncpy_spec (t rest : list Z) : Forall (fun c => c <> 0) t -> strncpy (t ++ rest) (length t) = Some t.
Proof.
  induction 1 as [|c t Hc _ IH]; [done|]. cbn [app length strncpy]. rewrite (proj2 (Z.eqb_neq c 0) Hc), IH. done.
Qed.

Lemma reverse_hex_spec (bs done_ : list Z) (rest : list Z) : 2 * zlen bs <= zlen rest ->
  reverse_hex_loop (length bs) (2 * zlen done_) (2 * zlen bs + 2 * zlen done_) (hex_text (bs ++ done_)) (hex_text (rev done_) ++ rest) =
  Some (hex_text (rev (bs ++ done_)) ++ zdrop (2 * zlen bs) rest).
Proof.
  revert done_ rest. induction bs as [|b bs IH] using rev_ind; intros dn rest Hr; [by change (zdrop _ rest) with (drop 0 rest)|].
  rewrite zlen_app, zlen_cons, zlen_nil in *. pose proof (zlen_nonneg bs). pose proof (zlen_nonneg dn).
  destruct rest as [|x [|y rest]]; [by unfold zlen in *; cbn [length] in *; lia..|]. rewrite !zlen_cons in Hr.
  rewrite length_app, Nat.add_1_r. cbn [reverse_hex_loop]. rewrite <- !app_assoc. cbn [app].
  rewrite hex_text_app, hex_text_cons. set (h := hex_digit (b / 16)). set (l := hex_digit (b mod 16)).
  pose proof (zlen_hex_text bs) as Lb. pose proof (zlen_hex_text (rev dn)) as Ld.
  assert (zlen (rev dn) = zlen dn) as Hrv by (unfold zlen; by rewrite length_rev). rewrite Hrv in Ld.
  replace (2 * (zlen bs + (1 + 0)) + 2 * zlen dn - 2 * zlen dn - 2) with (zlen (hex_text bs)) by lia. rewrite zget_mid.
  cbn [mbind option_bind]. rewrite <- Ld, zset_mid. cbn [mbind option_bind].
  replace (2 * (zlen bs + (1 + 0)) + zlen (hex_text (rev dn)) - zlen (hex_text (rev dn)) - 1) with (zlen (hex_text bs ++ [h])) by (rewrite zlen_app; change (zlen [h]) with 1; lia).
  change (hex_text bs ++ h :: l :: hex_text dn) with (hex_text bs ++ [h] ++ l :: hex_text dn). rewrite (app_assoc (hex_text bs)), zget_mid.
  cbn [mbind option_bind]. change (?p ++ h :: y :: rest) with (p ++ [h] ++ y :: rest). rewrite (app_assoc _ [h]).
  replace (zlen (hex_text (rev dn)) + 1) with (zlen (hex_text (rev dn) ++ [h])) by (by rewrite zlen_app). rewrite zset_mid. cbn [mbind option_bind].
  specialize (IH (b :: dn) rest ltac:(lia)). rewrite zlen_cons in IH. cbn [rev] in IH.
  rewrite (hex_text_app (rev dn)), <- app_assoc in IH. change (hex_text [b] ++ rest) with (h :: l :: rest) in IH.
  rewrite <- ?app_assoc. cbn [app].
  replace (zlen (hex_text (rev dn)) + 2) with (2 * (1 + zlen dn)) by lia.
  replace (2 * (zlen bs + (1 + 0)) + zlen (hex_text (rev dn))) with (2 * zlen bs + 2 * (1 + zlen dn)) by lia.
  replace (hex_text bs ++ h :: l :: hex_text dn) with (hex_text (bs ++ b :: dn)) by (by rewrite hex_text_app). rewrite IH.
  do 2 f_equal. unfold zdrop. by replace (Z.to_nat (2 * (zlen bs + (1 + 0)))) with (S (S (Z.to_nat (2 * zlen bs)))) by lia.
Qed.

Lemma sethex_spec (bs : list Z) (room : nat) : is_bytes bs -> sethex_loop (rev (hex_text (rev bs))) room = take room bs.
Proof.
  intros Hb. revert room. induction Hb as [|b bs Hb _ IH]; intros room; [by destruct room|].
  destruct (digit_parts b Hb) as (_ & _ & Rh & Rl). cbn [rev]. rewrite hex_text_app, rev_app_distr. cbn [hex_text flat_map rev app].
  destruct room as [|room]; [done|]. cbn [sethex_loop take]. unfold hex_text in IH. rewrite IH. f_equal.
  destruct (hex_digit_values (b / 16) Rh) as (_ & -> & _). destruct (hex_digit_values (b mod 16) Rl) as (_ & -> & _).
  rewrite !(wrap_small 8 (_ mod 16)), !(wrap_small 8 (_ / 16)) by lia.
  destruct (low_digit_values (b / 16) (b mod 16) Rh Rl) as (_ & _ & ->). symmetry. apply Z_div_mod_eq_full.
Qed.

Lemma hex_span_text (bs : list Z) : is_bytes bs -> hex_span (skip_0x (skip_spaces (hex_text bs))) = hex_text bs.
Proof.
  intros Hb. assert (forall t, Forall (fun c => exists v, 0 <= v < 16 /\ c = hex_digit v) t -> hex_span t = t) as Hsp.
  { induction 1 as [|c t (v & Hv & ->) _ IH]; [done|]. cbn [hex_span]. destruct (hex_digit_values v Hv) as (_ & -> & _).
    rewrite (proj2 (Z.eqb_neq v (-1))) by lia. cbn [negb]. by rewrite IH. }
  pose proof (hex_text_chars bs Hb) as Hc. destruct bs as [|b bs]; [done|]. rewrite hex_text_cons in *.
  apply list.Forall_cons in Hb as [Hb _]. destruct (digit_parts b Hb) as (_ & _ & Rh & Rl). cbn [skip_spaces].
  destruct (hex_digit_values (b / 16) Rh) as (_ & _ & _ & _ & _ & -> & _). cbn [skip_0x].
  destruct (hex_digit_values (b mod 16) Rl) as (_ & _ & _ & _ & _ & _ & ->). rewrite andb_false_r. by apply Hsp.
Qed.

(** ** Whole texts *)

(** The text and its terminator, in place. *)
Lemma text_in_place (bs buf : list Z) : is_bytes bs -> 2 * zlen bs + 1 <= zlen buf ->
  (buf' ← bin_to_hex_loop (ztake (zlen bs) bs) 0 buf; zset buf' (zlen bs * 2) 0) =
  Some (hex_text bs ++ 0 :: zdrop (2 * zlen bs + 1) buf).
Proof.
  intros Hb Hl. pose proof (zlen_nonneg bs). rewrite ztake_all by lia.
  pose proof (bin_to_hex_spec bs [] buf 0 Hb eq_refl ltac:(lia)) as E0. cbn [app] in E0. rewrite E0. clear E0.
  cbn [mbind option_bind app]. replace (zlen bs * 2) with (zlen (hex_text bs)) by (rewrite zlen_hex_text; lia).
  assert (zdrop (2 * zlen bs) buf = ztake 1 (zdrop (2 * zlen bs) buf) ++ zdrop (2 * zlen bs + 1) buf) as ->.
  { rewrite <- (ztake_zdrop 1 (zdrop (2 * zlen bs) buf)) at 1. f_equal. unfold zdrop. rewrite drop_drop. f_equal. lia. }
  destruct (ztake 1 _) as [|x [|y r]] eqn:E; apply (f_equal zlen) in E; rewrite zlen_ztake, zlen_zdrop in E;
    unfold zlen in *; cbn [length] in E; [lia| |lia]. apply zset_mid.
Qed.

Lemma hex_to_bin_whole (bs out : list Z) : is_bytes bs -> zlen bs <= zlen out ->
  utils_hex_to_bin (hex_text bs) out (2 * zlen bs) = Some (bs ++ zdrop (zlen bs) out, zlen bs).
Proof.
  intros Hb Ho. pose proof (zlen_nonneg bs). unfold utils_hex_to_bin. rewrite (Z.mul_comm 2), Z.quot_mul by lia. zif. cbn [orb].
  assert (Z.to_nat (zlen bs) = length bs) as -> by (unfold zlen; lia).
  pose proof (hex_to_bin_spec bs [] [] [] (zdrop (zlen bs) out) 0 Hb eq_refl eq_refl) as E.
  cbn [app] in E. rewrite app_nil_r in E. by rewrite E.
Qed.

Lemma hex_to_uint8_whole (bs : list Z) : is_bytes bs -> zlen bs <= 1024 ->
  hex_to_uint8_loop (Z.to_nat (zlen (hex_text bs) / 2)) (hex_text bs) 0 (replicate (Z.to_nat TO_UINT8_HEX_BUF_LEN) 0) =
  Some (bs ++ replicate (Z.to_nat (2048 - zlen bs)) 0).
Proof.
  intros Hb Hl. rewrite zlen_hex_text, (Z.mul_comm 2), Z.div_mul by lia. unfold zlen in *. rewrite Nat2Z.id.
  replace (Z.to_nat TO_UINT8_HEX_BUF_LEN) with (length bs + Z.to_nat (2048 - Z.of_nat (length bs)))%nat by (change TO_UINT8_HEX_BUF_LEN with 2048; lia).
  rewrite replicate_add. set (post := replicate (Z.to_nat _) 0). pose proof (hex_to_uint8_spec bs [] [] [] (replicate (length bs) 0) post 0 Hb eq_refl eq_refl) as E.
  cbn [app] in E. rewrite app_nil_r in E. apply E. apply length_replicate.
Qed.

Lemma reverse_hex_whole (bs : list Z) : is_bytes bs ->
  utils_reverse_hex (hex_text bs ++ [0]) (2 * zlen bs) = Some (hex_text (rev bs) ++ [0]).
Proof.
  intros Hb. pose proof (zlen_nonneg bs). pose proof (zlen_hex_text bs) as Ht. unfold utils_reverse_hex.
  replace (Z.to_nat (2 * zlen bs)) with (length (hex_text bs)) by (unfold zlen in *; lia). rewrite strncpy_spec.
  - cbn [mbind option_bind]. replace (Z.to_nat ((2 * zlen bs + 1) / 2)) with (length bs)
      by (replace ((2 * zlen bs + 1) / 2) with (zlen bs) by zdm; unfold zlen; lia).
    pose proof (reverse_hex_spec bs [] (hex_text bs ++ [0])) as E. rewrite app_nil_r in E. change (2 * zlen []) with 0 in E.
    rewrite Z.add_0_r in E. change (hex_text (rev []) ++ ?x) with x in E. rewrite E by (rewrite zlen_app, Ht; change (zlen [0]) with 1; lia).
    do 2 f_equal. by rewrite zdrop_app_len.
  - apply (list.Forall_impl _ _ _ (hex_text_chars bs Hb)). intros c (v & Hv & ->). destruct (hex_digit_values v Hv) as (_ & _ & _ & _ & R & _). lia.
Qed.

(** Hexadecimal text is exact in both directions.  The text
    [utils_bin_to_hex] writes for any bytes is the lower case digits and a
    terminator, written in exactly [2 n + 1] characters of the array;
    [utils_hex_to_bin] turns the text back into the bytes; the variants on static
    buffers agree and refuse what does not fit; [utils_reverse_hex] turns the
    text of the bytes into that of the reversed bytes; and
    [utils_uint256_sethex] reads 32 bytes back in reverse order. *)
Theorem hex_roundtrip (bs out hex_out : list Z) (u : utils_buffers) :
  is_bytes bs -> zlen bs <= zlen out -> 2 * zlen bs + 1 <= zlen hex_out ->
  utils_bin_to_hex bs (zlen bs) hex_out = Some (hex_text bs ++ 0 :: zdrop (2 * zlen bs + 1) hex_out) /\
  utils_hex_to_bin (hex_text bs) out (2 * zlen bs) = Some (bs ++ zdrop (zlen bs) out, zlen bs) /\
  utils_uint8_to_hex u bs (zlen bs) =
    Some (if zlen bs <=? 1023 then (mk_utils_buffers (buffer_hex_to_uint8 u) (hex_text bs ++ replicate (Z.to_nat (2048 - 2 * zlen bs)) 0), true)
          else (u, false)) /\
  utils_hex_to_uint8 u (hex_text bs) =
    Some (if zlen bs <=? 1024 then (mk_utils_buffers (bs ++ replicate (Z.to_nat (2048 - zlen bs)) 0) (buffer_uint8_to_hex u), true)
          else (u, false)) /\
  utils_reverse_hex (hex_text bs ++ [0]) (2 * zlen bs) = Some (hex_text (rev bs) ++ [0]) /\
  (zlen bs = 32 -> utils_uint256_sethex (hex_text bs) = rev bs).
Proof.
  intros Hb Ho Hh. pose proof (zlen_nonneg bs). pose proof (zlen_hex_text bs) as Ht. split_and!.
  - unfold utils_bin_to_hex. zif. by apply text_in_place.
  - by apply hex_to_bin_whole.
  - unfold utils_uint8_to_hex. change (TO_UINT8_HEX_BUF_LEN / 2 - 1) with 1023. destruct (Z.leb_spec (zlen bs) 1023); zif; [|done].
    pose proof (text_in_place bs (replicate (Z.to_nat TO_UINT8_HEX_BUF_LEN) 0) Hb) as E. rewrite zlen_replicate in E.
    change TO_UINT8_HEX_BUF_LEN with 2048 in *. specialize (E ltac:(lia)).
    destruct (bin_to_hex_loop _ _ _) as [buf|]; [|done]. cbn [mbind option_bind] in *. rewrite E. cbn [mbind option_bind]. do 4 f_equal.
    unfold zdrop. rewrite drop_replicate.
    replace (Z.to_nat (2048 - 2 * zlen bs)) with (S (Z.to_nat 2048 - Z.to_nat (2 * zlen bs + 1)))%nat by lia. done.
  - unfold utils_hex_to_uint8. rewrite Ht. change TO_UINT8_HEX_BUF_LEN with 2048 at 1.
    destruct (Z.leb_spec (zlen bs) 1024); zif; [|done]. rewrite <- Ht, hex_to_uint8_whole by done. done.
  - by apply reverse_hex_whole.
  - intros H32. unfold utils_uint256_sethex. rewrite hex_span_text by done. rewrite <- (rev_involutive bs) at 1 2.
    rewrite sethex_spec by (by apply Forall_rev). assert (length (rev bs) = 32%nat) as Hr by (rewrite length_rev; unfold zlen in H32; lia).
    rewrite take_ge by lia. rewrite Hr. apply app_nil_r.
Qed.

Lemma hex_roundtrip_witness :
  utils_bin_to_hex [0xbc; 0x1f] 2 (replicate 6 7) = Some [98; 99; 49; 102; 0; 7] /\
  utils_hex_to_bin [98; 99; 49; 102] [1; 2; 3] 4 = Some ([0xbc; 0x1f; 3], 2).
Proof.
  destruct (hex_roundtrip [0xbc; 0x1f] [1; 2; 3] (replicate 6 7) (mk_utils_buffers [] [])) as (E1 & E2 & _);
    [by apply is_bytes_of|by vm_compute|by vm_compute|exact (conj E1 E2)].
Defined.

(** An odd length reads in front of the copy. *)
Example reverse_hex_odd : utils_reverse_hex [48; 49; 50; 0] 3 = None.
Proof. reflexivity. Qed.
