(* ===== verification/Scalar.v ===== *)
(** * scalar_4x64_impl.h of secp256k1: numbers modulo the order of the group

    A scalar is four limbs of 64 bits; sums are formed in 128 bits, products in
    an accumulator of three words.  The portable code is translated (the build
    may replace [mul_512] and [reduce_512] by assembly).  [val] is the number a
    scalar stands for. *)

From S2P Require Import Prelude.

Abbreviation u128 := (wrap 128).

(** ** The code *)

Record secp256k1_scalar := mk_scalar { d0 : Z; d1 : Z; d2 : Z; d3 : Z }.

Definition SECP256K1_N_0 : Z := 0xBFD25E8CD0364141.
Definition SECP256K1_N_1 : Z := 0xBAAEDCE6AF48A03B.
Definition SECP256K1_N_2 : Z := 0xFFFFFFFFFFFFFFFE.
Definition SECP256K1_N_3 : Z := 0xFFFFFFFFFFFFFFFF.

Definition SECP256K1_N_C_0 : Z := u64 (u64 (Z.lnot SECP256K1_N_0) + 1).
Definition SECP256K1_N_C_1 : Z := u64 (Z.lnot SECP256K1_N_1).
Definition SECP256K1_N_C_2 : Z := 1.

Definition SECP256K1_N_H_0 : Z := 0xDFE92F46681B20A0.
Definition SECP256K1_N_H_1 : Z := 0x5D576E7357A4501D.
Definition SECP256K1_N_H_2 : Z := 0xFFFFFFFFFFFFFFFF.
Definition SECP256K1_N_H_3 : Z := 0x7FFFFFFFFFFFFFFF.

(** [x & 0xFFFFFFFFFFFFFFFF] *)
Definition low64 (x : Z) : Z := Z.land x 0xFFFFFFFFFFFFFFFF.

Definition secp256k1_scalar_set_int (v : Z) : secp256k1_scalar := mk_scalar v 0 0 0.

Definition secp256k1_scalar_check_overflow (a : secp256k1_scalar) : Z :=
  let yes := 0 in
  let no := 0 in
  let no := Z.lor no (Z.b2z (d3 a <? SECP256K1_N_3)) in
  let no := Z.lor no (Z.b2z (d2 a <? SECP256K1_N_2)) in
  let yes := Z.lor yes (Z.land (Z.b2z (SECP256K1_N_2 <? d2 a)) (Z.lnot no)) in
  let no := Z.lor no (Z.b2z (d1 a <? SECP256K1_N_1)) in
  let yes := Z.lor yes (Z.land (Z.b2z (SECP256K1_N_1 <? d1 a)) (Z.lnot no)) in
  let yes := Z.lor yes (Z.land (Z.b2z (SECP256K1_N_0 <=? d0 a)) (Z.lnot no)) in
  yes.

Definition secp256k1_scalar_reduce (r : secp256k1_scalar) (overflow : Z) : secp256k1_scalar :=
  let t := u128 (d0 r + u64 (overflow * SECP256K1_N_C_0)) in
  let r0 := low64 t in let t := Z.shiftr t 64 in
  let t := u128 (t + u128 (d1 r + u64 (overflow * SECP256K1_N_C_1))) in
  let r1 := low64 t in let t := Z.shiftr t 64 in
  let t := u128 (t + u128 (d2 r + u32 (overflow * SECP256K1_N_C_2))) in
  let r2 := low64 t in let t := Z.shiftr t 64 in
  let t := u128 (t + d3 r) in
  let r3 := low64 t in
  mk_scalar r0 r1 r2 r3.

(** The sum and the overflow. *)
Definition secp256k1_scalar_add (a b : secp256k1_scalar) : secp256k1_scalar * Z :=
  let t := u128 (d0 a + d0 b) in
  let r0 := low64 t in let t := Z.shiftr t 64 in
  let t := u128 (t + u128 (d1 a + d1 b)) in
  let r1 := low64 t in let t := Z.shiftr t 64 in
  let t := u128 (t + u128 (d2 a + d2 b)) in
  let r2 := low64 t in let t := Z.shiftr t 64 in
  let t := u128 (t + u128 (d3 a + d3 b)) in
  let r3 := low64 t in let t := Z.shiftr t 64 in
  let r := mk_scalar r0 r1 r2 r3 in
  let overflow := s32 (u128 (t + secp256k1_scalar_check_overflow r)) in
  (secp256k1_scalar_reduce r overflow, overflow).

(** Eight bytes from [b32 + k], the first one highest. *)
Definition word_be (b32 : list Z) (k : nat) : Z :=
  let b i := nth (k + i)%nat b32 0 in
  Z.lor (Z.lor (Z.lor (Z.lor (Z.lor (Z.lor (Z.lor (b 7%nat) (Z.shiftl (b 6%nat) 8)) (Z.shiftl (b 5%nat) 16)) (Z.shiftl (b 4%nat) 24))
    (Z.shiftl (b 3%nat) 32)) (Z.shiftl (b 2%nat) 40)) (Z.shiftl (b 1%nat) 48)) (Z.shiftl (b 0%nat) 56).

(** The scalar and [*overflow]. *)
Definition secp256k1_scalar_set_b32 (b32 : list Z) : secp256k1_scalar * Z :=
  let r := mk_scalar (word_be b32 24) (word_be b32 16) (word_be b32 8) (word_be b32 0) in
  let over := secp256k1_scalar_check_overflow r in
  (secp256k1_scalar_reduce r over, over).

Definition bytes_be (d : Z) : list Z :=
  [u8 (Z.shiftr d 56); u8 (Z.shiftr d 48); u8 (Z.shiftr d 40); u8 (Z.shiftr d 32); u8 (Z.shiftr d 24); u8 (Z.shiftr d 16);
   u8 (Z.shiftr d 8); u8 d].

Definition secp256k1_scalar_get_b32 (a : secp256k1_scalar) : list Z :=
  bytes_be (d3 a) ++ bytes_be (d2 a) ++ bytes_be (d1 a) ++ bytes_be (d0 a).

Definition secp256k1_scalar_is_zero (a : secp256k1_scalar) : bool :=
  Z.lor (Z.lor (Z.lor (d0 a) (d1 a)) (d2 a)) (d3 a) =? 0.

Definition secp256k1_scalar_negate (a : secp256k1_scalar) : secp256k1_scalar :=
  let nonzero := u64 (0xFFFFFFFFFFFFFFFF * Z.b2z (negb (secp256k1_scalar_is_zero a))) in
  let t := u128 (u64 (Z.lnot (d0 a)) + SECP256K1_N_0 + 1) in
  let r0 := Z.land t nonzero in let t := Z.shiftr t 64 in
  let t := u128 (t + u128 (u64 (Z.lnot (d1 a)) + SECP256K1_N_1)) in
  let r1 := Z.land t nonzero in let t := Z.shiftr t 64 in
  let t := u128 (t + u128 (u64 (Z.lnot (d2 a)) + SECP256K1_N_2)) in
  let r2 := Z.land t nonzero in let t := Z.shiftr t 64 in
  let t := u128 (t + u128 (u64 (Z.lnot (d3 a)) + SECP256K1_N_3)) in
  let r3 := Z.land t nonzero in
  mk_scalar r0 r1 r2 r3.

Definition secp256k1_scalar_is_high (a : secp256k1_scalar) : Z :=
  let yes := 0 in
  let no := 0 in
  let no := Z.lor no (Z.b2z (d3 a <? SECP256K1_N_H_3)) in
  let yes := Z.lor yes (Z.land (Z.b2z (SECP256K1_N_H_3 <? d3 a)) (Z.lnot no)) in
  let no := Z.lor no (Z.land (Z.b2z (d2 a <? SECP256K1_N_H_2)) (Z.lnot yes)) in
  let no := Z.lor no (Z.land (Z.b2z (d1 a <? SECP256K1_N_H_1)) (Z.lnot yes)) in
  let yes := Z.lor yes (Z.land (Z.b2z (SECP256K1_N_H_1 <? d1 a)) (Z.lnot no)) in
  let yes := Z.lor yes (Z.land (Z.b2z (SECP256K1_N_H_0 <? d0 a)) (Z.lnot no)) in
  yes.

(** *** The accumulator (c0,c1,c2), whose top word has [w] bits *)

Record acc := mk_acc { c0 : Z; c1 : Z; c2 : Z }.

Definition muladd (w : Z) (c : acc) (a b : Z) : acc :=
  let t := u128 (a * b) in
  let th := Z.shiftr t 64 in
  let tl := u64 t in
  let x0 := u64 (c0 c + tl) in
  let th := u64 (th + (if x0 <? tl then 1 else 0)) in
  let x1 := u64 (c1 c + th) in
  let x2 := wrap w (c2 c + (if x1 <? th then 1 else 0)) in
  mk_acc x0 x1 x2.

Definition muladd_fast (c : acc) (a b : Z) : acc :=
  let t := u128 (a * b) in
  let th := Z.shiftr t 64 in
  let tl := u64 t in
  let x0 := u64 (c0 c + tl) in
  let th := u64 (th + (if x0 <? tl then 1 else 0)) in
  let x1 := u64 (c1 c + th) in
  mk_acc x0 x1 (c2 c).

Definition muladd2 (w : Z) (c : acc) (a b : Z) : acc :=
  let t := u128 (a * b) in
  let th := Z.shiftr t 64 in
  let tl := u64 t in
  let th2 := u64 (th + th) in
  let x2 := wrap w (c2 c + (if th2 <? th then 1 else 0)) in
  let tl2 := u64 (tl + tl) in
  let th2 := u64 (th2 + (if tl2 <? tl then 1 else 0)) in
  let x0 := u64 (c0 c + tl2) in
  let th2 := u64 (th2 + (if x0 <? tl2 then 1 else 0)) in
  let x2 := wrap w (x2 + Z.land (Z.b2z (x0 <? tl2)) (Z.b2z (th2 =? 0))) in
  let x1 := u64 (c1 c + th2) in
  let x2 := wrap w (x2 + (if x1 <? th2 then 1 else 0)) in
  mk_acc x0 x1 x2.

Definition sumadd (w : Z) (c : acc) (a : Z) : acc :=
  let x0 := u64 (c0 c + a) in
  let over := if x0 <? a then 1 else 0 in
  let x1 := u64 (c1 c + over) in
  let x2 := wrap w (c2 c + (if x1 <? over then 1 else 0)) in
  mk_acc x0 x1 x2.

Definition sumadd_fast (c : acc) (a : Z) : acc :=
  let x0 := u64 (c0 c + a) in
  let x1 := u64 (c1 c + (if x0 <? a then 1 else 0)) in
  mk_acc x0 x1 (c2 c).

(** [extract (n)] is [n = c0] and this. *)
Definition extract (c : acc) : acc := mk_acc (c1 c) (c2 c) 0.
Definition extract_fast (c : acc) : acc := mk_acc (c1 c) 0 (c2 c).

(** The eight words of a product. *)
Record words8 := mk_words8 { l0 : Z; l1 : Z; l2 : Z; l3 : Z; l4 : Z; l5 : Z; l6 : Z; l7 : Z }.

Definition secp256k1_scalar_mul_512 (a b : secp256k1_scalar) : words8 :=
  let c := mk_acc 0 0 0 in
  let c := muladd_fast c (d0 a) (d0 b) in
  let x0 := c0 c in
  let c := extract_fast c in
  let c := muladd 32 c (d0 a) (d1 b) in
  let c := muladd 32 c (d1 a) (d0 b) in
  let x1 := c0 c in
  let c := extract c in
  let c := muladd 32 c (d0 a) (d2 b) in
  let c := muladd 32 c (d1 a) (d1 b) in
  let c := muladd 32 c (d2 a) (d0 b) in
  let x2 := c0 c in
  let c := extract c in
  let c := muladd 32 c (d0 a) (d3 b) in
  let c := muladd 32 c (d1 a) (d2 b) in
  let c := muladd 32 c (d2 a) (d1 b) in
  let c := muladd 32 c (d3 a) (d0 b) in
  let x3 := c0 c in
  let c := extract c in
  let c := muladd 32 c (d1 a) (d3 b) in
  let c := muladd 32 c (d2 a) (d2 b) in
  let c := muladd 32 c (d3 a) (d1 b) in
  let x4 := c0 c in
  let c := extract c in
  let c := muladd 32 c (d2 a) (d3 b) in
  let c := muladd 32 c (d3 a) (d2 b) in
  let x5 := c0 c in
  let c := extract c in
  let c := muladd_fast c (d3 a) (d3 b) in
  let x6 := c0 c in
  let c := extract_fast c in
  mk_words8 x0 x1 x2 x3 x4 x5 x6 (c0 c).

Definition secp256k1_scalar_sqr_512 (a : secp256k1_scalar) : words8 :=
  let c := mk_acc 0 0 0 in
  let c := muladd_fast c (d0 a) (d0 a) in
  let x0 := c0 c in
  let c := extract_fast c in
  let c := muladd2 32 c (d0 a) (d1 a) in
  let x1 := c0 c in
  let c := extract c in
  let c := muladd2 32 c (d0 a) (d2 a) in
  let c := muladd 32 c (d1 a) (d1 a) in
  let x2 := c0 c in
  let c := extract c in
  let c := muladd2 32 c (d0 a) (d3 a) in
  let c := muladd2 32 c (d1 a) (d2 a) in
  let x3 := c0 c in
  let c := extract c in
  let c := muladd2 32 c (d1 a) (d3 a) in
  let c := muladd 32 c (d2 a) (d2 a) in
  let x4 := c0 c in
  let c := extract c in
  let c := muladd2 32 c (d2 a) (d3 a) in
  let x5 := c0 c in
  let c := extract c in
  let c := muladd_fast c (d3 a) (d3 a) in
  let x6 := c0 c in
  let c := extract_fast c in
  mk_words8 x0 x1 x2 x3 x4 x5 x6 (c0 c).

(** Reduce 512 bits into 385: m0 to m5 and m6. *)
Definition reduce_385 (l : words8) : words8 :=
  let n0 := l4 l in let n1 := l5 l in let n2 := l6 l in let n3 := l7 l in
  let c := mk_acc (l0 l) 0 0 in
  let c := muladd_fast c n0 SECP256K1_N_C_0 in
  let m0 := c0 c in
  let c := extract_fast c in
  let c := sumadd_fast c (l1 l) in
  let c := muladd 64 c n1 SECP256K1_N_C_0 in
  let c := muladd 64 c n0 SECP256K1_N_C_1 in
  let m1 := c0 c in
  let c := extract c in
  let c := sumadd 64 c (l2 l) in
  let c := muladd 64 c n2 SECP256K1_N_C_0 in
  let c := muladd 64 c n1 SECP256K1_N_C_1 in
  let c := sumadd 64 c n0 in
  let m2 := c0 c in
  let c := extract c in
  let c := sumadd 64 c (l3 l) in
  let c := muladd 64 c n3 SECP256K1_N_C_0 in
  let c := muladd 64 c n2 SECP256K1_N_C_1 in
  let c := sumadd 64 c n1 in
  let m3 := c0 c in
  let c := extract c in
  let c := muladd 64 c n3 SECP256K1_N_C_1 in
  let c := sumadd 64 c n2 in
  let m4 := c0 c in
  let c := extract c in
  let c := sumadd_fast c n3 in
  let m5 := c0 c in
  let c := extract_fast c in
  mk_words8 m0 m1 m2 m3 m4 m5 (u32 (c0 c)) 0.

(** Reduce 385 bits into 258: p0 to p3 and p4. *)
Definition reduce_258 (m : words8) : words8 :=
  let c := mk_acc (l0 m) 0 0 in
  let c := muladd_fast c (l4 m) SECP256K1_N_C_0 in
  let p0 := c0 c in
  let c := extract_fast c in
  let c := sumadd_fast c (l1 m) in
  let c := muladd 64 c (l5 m) SECP256K1_N_C_0 in
  let c := muladd 64 c (l4 m) SECP256K1_N_C_1 in
  let p1 := c0 c in
  let c := extract c in
  let c := sumadd 64 c (l2 m) in
  let c := muladd 64 c (l6 m) SECP256K1_N_C_0 in
  let c := muladd 64 c (l5 m) SECP256K1_N_C_1 in
  let c := sumadd 64 c (l4 m) in
  let p2 := c0 c in
  let c := extract c in
  let c := sumadd_fast c (l3 m) in
  let c := muladd_fast c (l6 m) SECP256K1_N_C_1 in
  let c := sumadd_fast c (l5 m) in
  let p3 := c0 c in
  let c := extract_fast c in
  mk_words8 p0 p1 p2 p3 (u32 (c0 c + l6 m)) 0 0 0.

(** Reduce 258 bits into 256: the limbs and the carry. *)
Definition reduce_256 (p : words8) : secp256k1_scalar * Z :=
  let p4 := l4 p in
  let c := u128 (l0 p + u128 (SECP256K1_N_C_0 * p4)) in
  let r0 := low64 c in let c := Z.shiftr c 64 in
  let c := u128 (c + u128 (l1 p + u128 (SECP256K1_N_C_1 * p4))) in
  let r1 := low64 c in let c := Z.shiftr c 64 in
  let c := u128 (c + u128 (l2 p + p4)) in
  let r2 := low64 c in let c := Z.shiftr c 64 in
  let c := u128 (c + l3 p) in
  let r3 := low64 c in let c := Z.shiftr c 64 in
  (mk_scalar r0 r1 r2 r3, c).

Definition secp256k1_scalar_reduce_512 (l : words8) : secp256k1_scalar :=
  let '(r, c) := reduce_256 (reduce_258 (reduce_385 l)) in
  secp256k1_scalar_reduce r (u32 (u128 (c + secp256k1_scalar_check_overflow r))).

Definition secp256k1_scalar_mul (a b : secp256k1_scalar) : secp256k1_scalar :=
  secp256k1_scalar_reduce_512 (secp256k1_scalar_mul_512 a b).

Definition secp256k1_scalar_sqr (a : secp256k1_scalar) : secp256k1_scalar :=
  secp256k1_scalar_reduce_512 (secp256k1_scalar_sqr_512 a).

Definition secp256k1_scalar_eq (a b : secp256k1_scalar) : bool :=
  Z.lor (Z.lor (Z.lor (Z.lxor (d0 a) (d0 b)) (Z.lxor (d1 a) (d1 b))) (Z.lxor (d2 a) (d2 b))) (Z.lxor (d3 a) (d3 b)) =? 0.

(** ** Values *)

(** The order of the group. *)
Definition order : Z := 0xFFFFFFFFFFFFFFFFFFFFFFFFFFFFFFFEBAAEDCE6AF48A03BBFD25E8CD0364141.

Definition val (a : secp256k1_scalar) : Z := d0 a + 2 ^ 64 * d1 a + 2 ^ 128 * d2 a + 2 ^ 192 * d3 a.

Definition limbs_ok (a : secp256k1_scalar) : Prop :=
  0 <= d0 a < 2 ^ 64 /\ 0 <= d1 a < 2 ^ 64 /\ 0 <= d2 a < 2 ^ 64 /\ 0 <= d3 a < 2 ^ 64.

(** A scalar in its normal form. *)
Definition scalar_ok (a : secp256k1_scalar) : Prop := limbs_ok a /\ val a < order.

Lemma order_limbs : order = val (mk_scalar SECP256K1_N_0 SECP256K1_N_1 SECP256K1_N_2 SECP256K1_N_3) /\
  2 ^ 256 - order = val (mk_scalar SECP256K1_N_C_0 SECP256K1_N_C_1 SECP256K1_N_C_2 0) /\
  order / 2 = val (mk_scalar SECP256K1_N_H_0 SECP256K1_N_H_1 SECP256K1_N_H_2 SECP256K1_N_H_3).
Proof. by vm_compute. Qed.

Lemma low64_mod (x : Z) : low64 x = x mod 2 ^ 64.
Proof. unfold low64. change 0xFFFFFFFFFFFFFFFF with (Z.ones 64). by rewrite Z.land_ones by lia. Qed.

Lemma overflow_spec (a : secp256k1_scalar) : limbs_ok a ->
  secp256k1_scalar_check_overflow a = if order <=? val a then 1 else 0.
Proof.
  destruct a as [a0 a1 a2 a3]. unfold limbs_ok, secp256k1_scalar_check_overflow, val. cbn [d0 d1 d2 d3]. intros (H0 & H1 & H2 & H3).
  unfold SECP256K1_N_0, SECP256K1_N_1, SECP256K1_N_2, SECP256K1_N_3, order.
  repeat match goal with |- context [?x <? ?y] => destruct (Z.ltb_spec x y) end;
    match goal with |- context [Z.b2z (?x <=? ?y)] => destruct (Z.leb_spec x y) end;
    match goal with |- context [if ?x <=? ?y then _ else _] => destruct (Z.leb_spec x y) end; cbv; lia.
Qed.

(** Four sums whose carries run upwards, as the code forms them. *)
Lemma carry_chain (x0 x1 x2 x3 : Z) : 0 <= x0 < 2 ^ 100 -> 0 <= x1 < 2 ^ 100 -> 0 <= x2 < 2 ^ 100 -> 0 <= x3 < 2 ^ 100 ->
  let t1 := u128 (Z.shiftr x0 64 + x1) in let t2 := u128 (Z.shiftr t1 64 + x2) in let t3 := u128 (Z.shiftr t2 64 + x3) in
  let r := mk_scalar (low64 x0) (low64 t1) (low64 t2) (low64 t3) in
  limbs_ok r /\ val r + 2 ^ 256 * Z.shiftr t3 64 = x0 + 2 ^ 64 * x1 + 2 ^ 128 * x2 + 2 ^ 192 * x3.
Proof.
  intros H0 H1 H2 H3. cbv zeta. rewrite !low64_mod, !Z.shiftr_div_pow2 by lia.
  assert (forall x y, 0 <= x < 2 ^ 101 -> 0 <= y < 2 ^ 100 -> u128 (x / 2 ^ 64 + y) = x / 2 ^ 64 + y /\ 0 <= x / 2 ^ 64 + y < 2 ^ 101) as S.
  { intros x y Hx Hy. assert (0 <= x / 2 ^ 64 < 2 ^ 37) by zdm. rewrite wrap_small; lia. }
  destruct (S x0 x1) as [-> R1]; [lia..|]. destruct (S (x0 / 2 ^ 64 + x1) x2) as [-> R2]; [lia..|].
  destruct (S ((x0 / 2 ^ 64 + x1) / 2 ^ 64 + x2) x3) as [-> R3]; [lia..|].
  set (t1 := x0 / 2 ^ 64 + x1). set (t2 := t1 / 2 ^ 64 + x2). set (t3 := t2 / 2 ^ 64 + x3).
  unfold limbs_ok, val. cbn [d0 d1 d2 d3]. split.
  - split_and!; apply Z.mod_pos_bound; lia.
  - pose proof (Z_div_mod_eq_full x0 (2 ^ 64)). pose proof (Z_div_mod_eq_full t1 (2 ^ 64)).
    pose proof (Z_div_mod_eq_full t2 (2 ^ 64)). pose proof (Z_div_mod_eq_full t3 (2 ^ 64)). unfold t3, t2, t1 in *. lia.
Qed.

(** Names the scalar and the carry of a chain. *)
Ltac name_chain Hv r k :=
  match type of Hv with val ?s + _ * ?q = _ => set (r := s) in *; set (k := q) in *; clearbody r k end.

Lemma val_range (a : secp256k1_scalar) : limbs_ok a -> 0 <= val a < 2 ^ 256.
Proof. unfold limbs_ok, val. lia. Qed.

Lemma small_sum (x y : Z) : 0 <= x < 2 ^ 100 -> 0 <= y < 2 ^ 100 -> u128 (x + y) = x + y.
Proof. intros. apply wrap_small. lia. Qed.

Lemma N_C_range : 0 <= SECP256K1_N_C_0 < 2 ^ 63 /\ 0 <= SECP256K1_N_C_1 < 2 ^ 63.
Proof. by vm_compute. Qed.

Lemma order_bounds : 2 ^ 255 < order < 2 ^ 256.
Proof. by vm_compute. Qed.

Lemma scalar_reduce_spec (r : secp256k1_scalar) (overflow : Z) : limbs_ok r -> 0 <= overflow <= 1 ->
  limbs_ok (secp256k1_scalar_reduce r overflow) /\
  val (secp256k1_scalar_reduce r overflow) = (val r + overflow * (2 ^ 256 - order)) mod 2 ^ 256.
Proof.
  destruct r as [r0 r1 r2 r3]. unfold limbs_ok at 1. cbn [d0 d1 d2 d3]. intros (H0 & H1 & H2 & H3) Ho.
  unfold secp256k1_scalar_reduce. cbn [d0 d1 d2 d3]. cbv zeta.
  destruct order_limbs as (_ & EC & _). rewrite EC. clear EC. unfold val at 3. cbn [d0 d1 d2 d3].
  destruct N_C_range as [HC0 HC1].
  change SECP256K1_N_C_2 with 1. set (C0 := SECP256K1_N_C_0) in *. set (C1 := SECP256K1_N_C_1) in *. clearbody C0 C1.
  assert (overflow = 0 \/ overflow = 1) as Hov by lia.
  rewrite (wrap_small 64 (overflow * C0)), (wrap_small 64 (overflow * C1)), (wrap_small 32 (overflow * 1)) by (destruct Hov; subst; lia).
  rewrite (small_sum r0), (small_sum r1), (small_sum r2) by (destruct Hov; subst; lia).
  destruct (carry_chain (r0 + overflow * C0) (r1 + overflow * C1) (r2 + overflow * 1) r3) as [Hl Hv]; [destruct Hov; subst; lia..|].
  split; [exact Hl|]. name_chain Hv r k. apply (Zmod_unique _ _ k); [by apply val_range|].
  unfold val at 1. cbn [d0 d1 d2 d3]. destruct Hov; subst overflow; lia.
Qed.

(** One subtraction brings a number below twice the order into range. *)
Lemma reduce_once (r : secp256k1_scalar) (k : Z) : limbs_ok r -> 0 <= k -> val r + 2 ^ 256 * k < 2 * order ->
  let overflow := k + secp256k1_scalar_check_overflow r in
  0 <= overflow <= 1 /\ overflow = (if order <=? val r + 2 ^ 256 * k then 1 else 0) /\
  scalar_ok (secp256k1_scalar_reduce r overflow) /\
  val (secp256k1_scalar_reduce r overflow) = (val r + 2 ^ 256 * k) mod order.
Proof.
  intros Hr Hk Hlt overflow. pose proof order_bounds as Ho. pose proof (val_range r Hr) as Rr.
  assert (k = 0 \/ k = 1) as Hk1 by lia.
  assert (overflow = (if order <=? val r + 2 ^ 256 * k then 1 else 0) /\ 0 <= overflow <= 1) as [Ev Hov].
  { unfold overflow. rewrite overflow_spec by done. destruct (Z.leb_spec order (val r)), (Z.leb_spec order (val r + 2 ^ 256 * k)); lia. }
  destruct (scalar_reduce_spec r overflow Hr Hov) as [Hl Hv].
  assert (val (secp256k1_scalar_reduce r overflow) = (val r + 2 ^ 256 * k) mod order) as E.
  { rewrite Hv. symmetry. rewrite Ev. destruct (Z.leb_spec order (val r + 2 ^ 256 * k)).
    - rewrite <- (Z_mod_plus_full (val r + 2 ^ 256 * k) (-1) order), Z.mod_small by lia.
      rewrite <- (Z_mod_plus_full _ (k - 1) (2 ^ 256)). rewrite Z.mod_small; lia.
    - rewrite !Z.mod_small; lia. }
  split; [done|]. split; [done|]. split; [|done]. split; [done|]. rewrite E. apply Z.mod_pos_bound. lia.
Qed.

Lemma scalar_add_spec (a b : secp256k1_scalar) : scalar_ok a -> scalar_ok b ->
  let '(r, overflow) := secp256k1_scalar_add a b in
  scalar_ok r /\ val r = (val a + val b) mod order /\ overflow = if order <=? val a + val b then 1 else 0.
Proof.
  intros [Ha Hao] [Hb Hbo]. destruct a as [a0 a1 a2 a3], b as [b0 b1 b2 b3]. unfold limbs_ok in Ha, Hb. cbn [d0 d1 d2 d3] in Ha, Hb.
  unfold secp256k1_scalar_add. cbn [d0 d1 d2 d3]. cbv zeta. rewrite (small_sum a0), (small_sum a1), (small_sum a2), (small_sum a3) by lia.
  destruct (carry_chain (a0 + b0) (a1 + b1) (a2 + b2) (a3 + b3)) as [Hl Hv]; [lia..|]. name_chain Hv r k.
  pose proof (val_range r Hl). pose proof order_bounds. set (va := val (mk_scalar a0 a1 a2 a3)) in *. set (vb := val (mk_scalar b0 b1 b2 b3)) in *.
  assert (val r + 2 ^ 256 * k = va + vb) as E by (unfold va, vb, val at 2 3; cbn [d0 d1 d2 d3]; lia).
  assert (0 <= va /\ 0 <= vb) by (split; apply val_range; done). assert (0 <= k) by lia.
  destruct (reduce_once r k Hl ltac:(lia) ltac:(lia)) as (Hov & Eo & Hok & Ev).
  rewrite (wrap_small 128) by lia. replace (s32 (k + _)) with (k + secp256k1_scalar_check_overflow r) by (unfold swrap; rewrite Z.mod_small; lia).
  rewrite <- E. done.
Qed.

(** ** Bytes *)

Lemma be_val_app (a b : list Z) : be_val (a ++ b) = 256 ^ zlen b * be_val a + be_val b.
Proof. unfold be_val. rewrite rev_app_distr, le_val_app. unfold zlen. rewrite length_rev. lia. Qed.

Lemma word_be_spec (pre w post : list Z) : is_bytes w -> length w = 8%nat ->
  word_be (pre ++ w ++ post) (length pre) = be_val w /\ 0 <= be_val w < 2 ^ 64.
Proof.
  intros Hw Hl. unfold word_be. rewrite !app_nth2_plus. do 8 (destruct w as [|? w]; [done|]). destruct w; [|done].
  unfold is_bytes in Hw. repeat match goal with B : Forall _ (_ :: _) |- _ => apply list.Forall_cons in B as [? B] end. cbn [app nth]. unfold is_byte in *.
  rewrite (lor_add_pow2 8), (lor_add_pow2 16), (lor_add_pow2 24), (lor_add_pow2 32), (lor_add_pow2 40), (lor_add_pow2 48), (lor_add_pow2 56) by lia.
  unfold be_val. cbn [rev app le_val]. lia.
Qed.

Lemma bytes_be_spec (d : Z) : bytes_be d = be_bytes 8 d.
Proof.
  unfold bytes_be, be_bytes, wrap. rewrite !Z.shiftr_div_pow2 by lia. cbn [le_bytes rev app]. by rewrite !Z.div_div by lia.
Qed.

Lemma set_b32_spec (b32 : list Z) : is_bytes b32 -> length b32 = 32%nat ->
  let '(r, overflow) := secp256k1_scalar_set_b32 b32 in
  scalar_ok r /\ val r = be_val b32 mod order /\ overflow = if order <=? be_val b32 then 1 else 0.
Proof.
  intros Hb Hl. rewrite <- (take_drop 8 b32), <- (take_drop 8 (drop 8 b32)), <- (take_drop 8 (drop 8 (drop 8 b32))) in *.
  set (w3 := take 8 b32) in *. set (w2 := take 8 (drop 8 b32)) in *. set (w1 := take 8 (drop 8 (drop 8 b32))) in *.
  set (w0 := drop 8 (drop 8 (drop 8 b32))) in *.
  assert (length w3 = 8 /\ length w2 = 8 /\ length w1 = 8 /\ length w0 = 8)%nat as (L3 & L2 & L1 & L0).
  { rewrite !length_app in Hl. unfold w3, w2, w1, w0 in *. rewrite !length_take, !length_drop in *. lia. }
  clearbody w3 w2 w1 w0. rewrite !is_bytes_app in Hb. destruct Hb as (H3 & H2 & H1 & H0).
  destruct (word_be_spec [] w3 (w2 ++ w1 ++ w0) H3 L3) as [E3 R3]. cbn [length app] in E3.
  destruct (word_be_spec w3 w2 (w1 ++ w0) H2 L2) as [E2 R2]. rewrite L3 in E2.
  destruct (word_be_spec (w3 ++ w2) w1 w0 H1 L1) as [E1 R1]. rewrite length_app, L3, L2, <- app_assoc in E1.
  destruct (word_be_spec (w3 ++ w2 ++ w1) w0 [] H0 L0) as [E0 R0]. rewrite !length_app, L3, L2, L1, app_nil_r, <- !app_assoc in E0.
  unfold secp256k1_scalar_set_b32. change (8 + (8 + 8))%nat with 24%nat in E0. change (8 + 8)%nat with 16%nat in E1. rewrite E0, E1, E2, E3.
  cbv zeta. set (r := mk_scalar _ _ _ _). assert (limbs_ok r) as Hr by done.
  assert (be_val (w3 ++ w2 ++ w1 ++ w0) = val r + 2 ^ 256 * 0) as ->.
  { rewrite !be_val_app, !zlen_app. unfold zlen. rewrite L0, L1, L2. unfold val, r. cbn [d0 d1 d2 d3]. lia. }
  pose proof (val_range r Hr). pose proof order_bounds.
  destruct (reduce_once r 0 Hr ltac:(lia) ltac:(lia)) as (_ & Eo & Hok & Ev). rewrite Z.add_0_l in *. done.
Qed.

Lemma be_bytes_add (a b : nat) (v : Z) : be_bytes (a + b) v = be_bytes a (v / 256 ^ Z.of_nat b) ++ be_bytes b v.
Proof. unfold be_bytes. by rewrite Nat.add_comm, le_bytes_add, rev_app_distr. Qed.

Lemma be_bytes_mod (n : nat) (v x : Z) : be_bytes n (v + 256 ^ Z.of_nat n * x) = be_bytes n v.
Proof. unfold be_bytes. by rewrite <- (le_bytes_mod n (v + _)), Z.mul_comm, Z_mod_plus_full, le_bytes_mod. Qed.

Lemma get_b32_spec (a : secp256k1_scalar) : limbs_ok a -> secp256k1_scalar_get_b32 a = be_bytes 32 (val a).
Proof.
  intros (H0 & H1 & H2 & H3). unfold secp256k1_scalar_get_b32. rewrite !bytes_be_spec. unfold val.
  rewrite (be_bytes_add 24 8), (be_bytes_add 16 8), (be_bytes_add 8 8), !Z.div_div by lia.
  change (256 ^ Z.of_nat 8) with (2 ^ 64). rewrite <- !app_assoc. f_equal; [|f_equal; [|f_equal]].
  - f_equal. zdm.
  - etransitivity; [symmetry; apply (be_bytes_mod 8 (d2 a) (d3 a))|]. f_equal. change (256 ^ Z.of_nat 8) with (2 ^ 64). zdm.
  - etransitivity; [symmetry; apply (be_bytes_mod 8 (d1 a) (d2 a + 2 ^ 64 * d3 a))|]. f_equal. change (256 ^ Z.of_nat 8) with (2 ^ 64). zdm.
  - etransitivity; [symmetry; apply (be_bytes_mod 8 (d0 a) (d1 a + 2 ^ 64 * d2 a + 2 ^ 128 * d3 a))|]. f_equal.
    change (256 ^ Z.of_nat 8) with (2 ^ 64). lia.
Qed.

Lemma is_zero_spec (a : secp256k1_scalar) : limbs_ok a -> secp256k1_scalar_is_zero a = (val a =? 0).
Proof.
  intros (H0 & H1 & H2 & H3). unfold secp256k1_scalar_is_zero. apply eq_bool_prop_intro. rewrite !Is_true_true, !Z.eqb_eq, !Z.lor_eq_0_iff.
  unfold val. lia.
Qed.

Lemma eq_spec (a b : secp256k1_scalar) : limbs_ok a -> limbs_ok b -> secp256k1_scalar_eq a b = (val a =? val b).
Proof.
  intros (A0 & A1 & A2 & A3) (B0 & B1 & B2 & B3). unfold secp256k1_scalar_eq. apply eq_bool_prop_intro.
  rewrite !Is_true_true, !Z.eqb_eq, !Z.lor_eq_0_iff, !Z.lxor_eq_0_iff. unfold val. lia.
Qed.

Lemma is_high_spec (a : secp256k1_scalar) : limbs_ok a ->
  secp256k1_scalar_is_high a = if order / 2 <? val a then 1 else 0.
Proof.
  destruct a as [a0 a1 a2 a3]. destruct order_limbs as (_ & _ & ->). unfold limbs_ok, secp256k1_scalar_is_high, val. cbn [d0 d1 d2 d3]. intros (H0 & H1 & H2 & H3).
  unfold SECP256K1_N_H_0, SECP256K1_N_H_1, SECP256K1_N_H_2, SECP256K1_N_H_3.
  repeat match goal with |- context [Z.b2z (?x <? ?y)] => destruct (Z.ltb_spec x y) end;
    match goal with |- context [if ?x <? ?y then _ else _] => destruct (Z.ltb_spec x y) end; cbv; lia.
Qed.

Lemma lnot64 (x : Z) : 0 <= x < 2 ^ 64 -> u64 (Z.lnot x) = 2 ^ 64 - 1 - x.
Proof. intros. unfold wrap, Z.lnot. symmetry. apply (Zmod_unique _ _ (-1)); lia. Qed.

Lemma negate_spec (a : secp256k1_scalar) : scalar_ok a ->
  scalar_ok (secp256k1_scalar_negate a) /\ val (secp256k1_scalar_negate a) = (- val a) mod order.
Proof.
  intros [Ha Hlt]. pose proof (is_zero_spec a Ha) as Hz. pose proof (val_range a Ha) as Ra. unfold secp256k1_scalar_negate. rewrite Hz. clear Hz.
  pose proof order_bounds as Ho.
  destruct (Z.eqb_spec (val a) 0) as [E0|Hne]; cbv zeta.
  - change (u64 (0xFFFFFFFFFFFFFFFF * Z.b2z (negb true))) with 0. rewrite !Z.land_0_r, E0. by vm_compute.
  - change (u64 (0xFFFFFFFFFFFFFFFF * Z.b2z (negb false))) with 0xFFFFFFFFFFFFFFFF.
    destruct a as [a0 a1 a2 a3]. unfold limbs_ok in Ha. cbn [d0 d1 d2 d3] in *. destruct Ha as (H0 & H1 & H2 & H3).
    rewrite !lnot64 by done. rewrite <- (Z.add_assoc _ SECP256K1_N_0).
    assert (0 <= SECP256K1_N_0 < 2 ^ 64 /\ 0 <= SECP256K1_N_1 < 2 ^ 64 /\ 0 <= SECP256K1_N_2 < 2 ^ 64 /\ 0 <= SECP256K1_N_3 < 2 ^ 64)
      as (N0 & N1 & N2 & N3) by (by vm_compute).
    rewrite (small_sum (_ - a0)), (small_sum (_ - a1)), (small_sum (_ - a2)), (small_sum (_ - a3)) by lia.
    destruct (carry_chain (2 ^ 64 - 1 - a0 + (SECP256K1_N_0 + 1)) (2 ^ 64 - 1 - a1 + SECP256K1_N_1) (2 ^ 64 - 1 - a2 + SECP256K1_N_2)
      (2 ^ 64 - 1 - a3 + SECP256K1_N_3)) as [Hl Hv]; [lia..|]. unfold low64 in *.
    destruct order_limbs as (EN & _ & _). unfold val at 1 in EN. cbn [d0 d1 d2 d3] in EN.
    name_chain Hv r k. set (va := val _) in *. assert (val r = order - va) as E.
    { pose proof (val_range r Hl). assert (val r + 2 ^ 256 * k = 2 ^ 256 + order - va) by (unfold va, val at 2; cbn [d0 d1 d2 d3]; lia). lia. }
    split; [split; [done|lia]|]. rewrite E. apply (Zmod_unique _ _ (-1)); lia.
Qed.

(** ** Products *)

Definition accv (c : acc) : Z := c0 c + 2 ^ 64 * c1 c + 2 ^ 128 * c2 c.
Definition acc_ok (w : Z) (c : acc) : Prop := 0 <= c0 c < 2 ^ 64 /\ 0 <= c1 c < 2 ^ 64 /\ 0 <= c2 c < 2 ^ w.

(** An addition and the carry found by a comparison. *)
Lemma add64 (x y : Z) : 0 <= x < 2 ^ 64 -> 0 <= y < 2 ^ 64 ->
  x + y = u64 (x + y) + 2 ^ 64 * (if u64 (x + y) <? y then 1 else 0) /\ 0 <= u64 (x + y) < 2 ^ 64.
Proof.
  intros Hx Hy. destruct (decide (x + y < 2 ^ 64)) as [Hlt|Hge].
  - rewrite wrap_small by lia. destruct (Z.ltb_spec (x + y) y); lia.
  - assert (u64 (x + y) = x + y - 2 ^ 64) as -> by (unfold wrap; symmetry; apply (Zmod_unique _ _ 1); lia).
    destruct (Z.ltb_spec (x + y - 2 ^ 64) y); lia.
Qed.

Lemma prod64 (a b : Z) : 0 <= a < 2 ^ 64 -> 0 <= b < 2 ^ 64 -> 0 <= a * b <= (2 ^ 64 - 1) * (2 ^ 64 - 1).
Proof. intros. nia. Qed.

(** The two halves of a product. *)
Lemma halves (p : Z) : 0 <= p <= (2 ^ 64 - 1) * (2 ^ 64 - 1) ->
  p = u64 (u128 p) + 2 ^ 64 * Z.shiftr (u128 p) 64 /\ 0 <= u64 (u128 p) < 2 ^ 64 /\ 0 <= Z.shiftr (u128 p) 64 <= 2 ^ 64 - 2.
Proof. intros. rewrite (wrap_small 128) by lia. unfold wrap. rewrite Z.shiftr_div_pow2 by lia. zdm. Qed.

(** The carry of a comparison, as a number. *)
Ltac name_add x y s k :=
  let E := fresh "E" in let R := fresh "R" in
  destruct (add64 x y) as [E R]; [lia..|]; set (s := u64 (x + y)) in *; set (k := if s <? y then 1 else 0) in *;
  assert (0 <= k <= 1) by (unfold k; destruct (s <? y); lia); clearbody k s.

Lemma muladd_spec (w : Z) (c : acc) (a b : Z) : 0 <= w -> acc_ok w c -> 0 <= a < 2 ^ 64 -> 0 <= b < 2 ^ 64 ->
  accv c + a * b < 2 ^ 128 * 2 ^ w -> acc_ok w (muladd w c a b) /\ accv (muladd w c a b) = accv c + a * b.
Proof.
  intros Hw (H0 & H1 & H2) Ha Hb. unfold accv, acc_ok, muladd. pose proof (prod64 a b Ha Hb) as Hp. set (p := a * b) in *. clearbody p.
  intros Hlt. destruct (halves p Hp) as (Ep & Rl & Rh). set (tl := u64 (u128 p)) in *. set (th := Z.shiftr (u128 p) 64) in *. clearbody tl th.
  cbv zeta. cbn [c0 c1 c2]. name_add (c0 c) tl s0 k0. rewrite (wrap_small 64 (th + k0)) by lia.
  name_add (c1 c) (th + k0) s1 k1. rewrite (wrap_small w) by lia. lia.
Qed.

Lemma muladd_fast_spec (w : Z) (c : acc) (a b : Z) : acc_ok w c -> c2 c = 0 -> 0 <= a < 2 ^ 64 -> 0 <= b < 2 ^ 64 ->
  accv c + a * b < 2 ^ 128 -> acc_ok w (muladd_fast c a b) /\ accv (muladd_fast c a b) = accv c + a * b /\ c2 (muladd_fast c a b) = 0.
Proof.
  intros (H0 & H1 & H2) Hz Ha Hb. unfold accv, acc_ok, muladd_fast. pose proof (prod64 a b Ha Hb) as Hp. set (p := a * b) in *. clearbody p.
  intros Hlt. destruct (halves p Hp) as (Ep & Rl & Rh). set (tl := u64 (u128 p)) in *. set (th := Z.shiftr (u128 p) 64) in *. clearbody tl th.
  cbv zeta. cbn [c0 c1 c2]. name_add (c0 c) tl s0 k0. rewrite (wrap_small 64 (th + k0)) by lia.
  rewrite (wrap_small 64 (c1 c + _)) by lia. lia.
Qed.

Lemma muladd2_spec (w : Z) (c : acc) (a b : Z) : 0 <= w -> acc_ok w c -> 0 <= a < 2 ^ 64 -> 0 <= b < 2 ^ 64 ->
  accv c + 2 * (a * b) < 2 ^ 128 * 2 ^ w -> acc_ok w (muladd2 w c a b) /\ accv (muladd2 w c a b) = accv c + 2 * (a * b).
Proof.
  intros Hw (H0 & H1 & H2) Ha Hb. unfold accv, acc_ok, muladd2. pose proof (prod64 a b Ha Hb) as Hp. set (p := a * b) in *. clearbody p.
  intros Hlt. destruct (halves p Hp) as (Ep & Rl & Rh). set (tl := u64 (u128 p)) in *. set (th := Z.shiftr (u128 p) 64) in *. clearbody tl th.
  cbv zeta. cbn [c0 c1 c2]. name_add th th th2 k0. name_add tl tl tl2 k1. rewrite (wrap_small 64 (th2 + k1)) by lia.
  destruct (add64 (c0 c) tl2) as [Es Rs]; [lia..|]. set (s0 := u64 (c0 c + tl2)) in *.
  set (t := u64 (th2 + k1 + (if s0 <? tl2 then 1 else 0))). set (j := Z.land (Z.b2z (s0 <? tl2)) (Z.b2z (t =? 0))).
  assert (th2 + k1 + (if s0 <? tl2 then 1 else 0) = t + 2 ^ 64 * j /\ 0 <= t < 2 ^ 64 /\ 0 <= j <= 1) as (Et & Rt & Rj).
  { unfold j. destruct (s0 <? tl2).
    - destruct (decide (th2 + k1 = 2 ^ 64 - 1)) as [Em|Em].
      + assert (t = 0) as -> by (unfold t; rewrite Em; done). change (Z.land _ _) with 1. lia.
      + assert (t = th2 + k1 + 1) as -> by (apply wrap_small; lia). rewrite (proj2 (Z.eqb_neq _ 0)) by lia. change (Z.land _ _) with 0. lia.
    - assert (t = th2 + k1 + 0) as -> by (apply wrap_small; lia). change (Z.land (Z.b2z false) ?y) with 0. lia. }
  set (k2 := if s0 <? tl2 then 1 else 0) in *. assert (0 <= k2 <= 1) by (unfold k2; destruct (s0 <? tl2); lia). clearbody k2 t j s0.
  name_add (c1 c) t s1 k3. rewrite (wrap_small w (c2 c + k0)) by lia. rewrite (wrap_small w (c2 c + k0 + j)) by lia.
  rewrite (wrap_small w) by lia. lia.
Qed.

Lemma sumadd_spec (w : Z) (c : acc) (a : Z) : 0 <= w -> acc_ok w c -> 0 <= a < 2 ^ 64 ->
  accv c + a < 2 ^ 128 * 2 ^ w -> acc_ok w (sumadd w c a) /\ accv (sumadd w c a) = accv c + a.
Proof.
  intros Hw (H0 & H1 & H2) Ha. unfold accv, acc_ok, sumadd. intros Hlt. cbv zeta. cbn [c0 c1 c2]. name_add (c0 c) a s0 k0.
  name_add (c1 c) k0 s1 k1. rewrite (wrap_small w) by lia. lia.
Qed.

Lemma sumadd_fast_spec (w : Z) (c : acc) (a : Z) : acc_ok w c -> c2 c = 0 -> 0 <= a < 2 ^ 64 ->
  accv c + a < 2 ^ 128 -> acc_ok w (sumadd_fast c a) /\ accv (sumadd_fast c a) = accv c + a /\ c2 (sumadd_fast c a) = 0.
Proof.
  intros (H0 & H1 & H2) Hz Ha. unfold accv, acc_ok, sumadd_fast. intros Hlt. cbv zeta. cbn [c0 c1 c2]. name_add (c0 c) a s0 k0.
  rewrite (wrap_small 64 (c1 c + _)) by lia. lia.
Qed.

Lemma extract_spec (w : Z) (c : acc) : w <= 64 -> 0 <= w -> acc_ok w c ->
  accv c = c0 c + 2 ^ 64 * accv (extract c) /\ acc_ok w (extract c) /\ 0 <= c0 c < 2 ^ 64 /\ c2 (extract c) = 0 /\
  0 <= accv (extract c) < 2 ^ 128.
Proof.
  intros Hw Hw0 (H0 & H1 & H2). unfold accv, acc_ok, extract. cbn [c0 c1 c2].
  assert (2 ^ w <= 2 ^ 64) by (apply Z.pow_le_mono_r; lia). assert (0 < 2 ^ w) by (apply Z.pow_pos_nonneg; lia). lia.
Qed.

Lemma extract_fast_spec (w : Z) (c : acc) : acc_ok w c -> c2 c = 0 ->
  accv c = c0 c + 2 ^ 64 * accv (extract_fast c) /\ acc_ok w (extract_fast c) /\ 0 <= c0 c < 2 ^ 64 /\
  c2 (extract_fast c) = 0 /\ accv (extract_fast c) = c0 (extract_fast c).
Proof. intros (H0 & H1 & H2) Hz. unfold accv, acc_ok, extract_fast. cbn [c0 c1 c2]. lia. Qed.

Definition words_ok (l : words8) : Prop :=
  0 <= l0 l < 2 ^ 64 /\ 0 <= l1 l < 2 ^ 64 /\ 0 <= l2 l < 2 ^ 64 /\ 0 <= l3 l < 2 ^ 64 /\
  0 <= l4 l < 2 ^ 64 /\ 0 <= l5 l < 2 ^ 64 /\ 0 <= l6 l < 2 ^ 64 /\ 0 <= l7 l < 2 ^ 64.

Definition words_val (l : words8) : Z :=
  l0 l + 2 ^ 64 * l1 l + 2 ^ 128 * l2 l + 2 ^ 192 * l3 l + 2 ^ 256 * l4 l + 2 ^ 320 * l5 l + 2 ^ 384 * l6 l + 2 ^ 448 * l7 l.

(** The accumulator with a bound on its value.  The bounds are numbers, so the
    conditions that no carry is lost are computed. *)
Definition fits (w : Z) (c : acc) (B : Z) : Prop := acc_ok w c /\ accv c <= B.

Lemma fits_c2 (w : Z) (c : acc) (B : Z) : fits w c B -> B < 2 ^ 128 -> c2 c = 0.
Proof. intros [(H0 & H1 & H2) Hv] HB. unfold accv in Hv. lia. Qed.

Lemma mul_bound (a b am bm : Z) : 0 <= a <= am -> 0 <= b <= bm -> a * b <= am * bm.
Proof. intros. nia. Qed.

Section Columns.

Context (w : Z) (c : acc) (a b B am bm B' : Z).
Context (Hw : 0 <= w <= 64) (F : fits w c B) (Ha : 0 <= a <= am) (Hb : 0 <= b <= bm).
Context (Ham : am < 2 ^ 64) (Hbm : bm < 2 ^ 64).

Lemma muladd_fits : B' = B + am * bm -> B' < 2 ^ 128 * 2 ^ w ->
  fits w (muladd w c a b) B' /\ accv (muladd w c a b) = accv c + a * b.
Proof.
  intros -> HB. pose proof (mul_bound a b am bm Ha Hb). destruct F as [Hok Hv].
  destruct (muladd_spec w c a b) as [Hok' Hv']; [lia|done|lia|lia|lia|]. split; [split; [done|lia]|done].
Qed.

Lemma muladd2_fits : B' = B + 2 * (am * bm) -> B' < 2 ^ 128 * 2 ^ w ->
  fits w (muladd2 w c a b) B' /\ accv (muladd2 w c a b) = accv c + 2 * (a * b).
Proof.
  intros -> HB. pose proof (mul_bound a b am bm Ha Hb). destruct F as [Hok Hv].
  destruct (muladd2_spec w c a b) as [Hok' Hv']; [lia|done|lia|lia|lia|]. split; [split; [done|lia]|done].
Qed.

Lemma muladd_fast_fits : B' = B + am * bm -> B' < 2 ^ 128 ->
  fits w (muladd_fast c a b) B' /\ accv (muladd_fast c a b) = accv c + a * b.
Proof.
  intros -> HB. pose proof (mul_bound a b am bm Ha Hb). assert (0 <= am * bm) by nia. pose proof (fits_c2 w c B F ltac:(lia)). destruct F as [Hok Hv].
  destruct (muladd_fast_spec w c a b) as (Hok' & Hv' & _); [done|done|lia|lia|lia|]. split; [split; [done|lia]|done].
Qed.

Lemma sumadd_fits : B' = B + am -> B' < 2 ^ 128 * 2 ^ w ->
  fits w (sumadd w c a) B' /\ accv (sumadd w c a) = accv c + a.
Proof.
  intros -> HB. destruct F as [Hok Hv].
  destruct (sumadd_spec w c a) as [Hok' Hv']; [lia|done|lia|lia|]. split; [split; [done|lia]|done].
Qed.

Lemma sumadd_fast_fits : B' = B + am -> B' < 2 ^ 128 ->
  fits w (sumadd_fast c a) B' /\ accv (sumadd_fast c a) = accv c + a.
Proof.
  intros -> HB. pose proof (fits_c2 w c B F ltac:(lia)). destruct F as [Hok Hv].
  destruct (sumadd_fast_spec w c a) as (Hok' & Hv' & _); [done|done|lia|lia|]. split; [split; [done|lia]|done].
Qed.

Lemma extract_fits : B' = B / 2 ^ 64 ->
  fits w (extract c) B' /\ accv c = c0 c + 2 ^ 64 * accv (extract c) /\ 0 <= c0 c < 2 ^ 64.
Proof.
  intros ->. destruct F as [Hok Hv]. destruct (extract_spec w c) as (E & Hok' & R & _ & _); [lia..|done|].
  split; [split; [done|]|split; [done|done]]. apply Z.div_le_lower_bound; lia.
Qed.

Lemma extract_fast_fits : B' = B / 2 ^ 64 -> B < 2 ^ 128 ->
  fits w (extract_fast c) B' /\ accv c = c0 c + 2 ^ 64 * accv (extract_fast c) /\ 0 <= c0 c < 2 ^ 64 /\
  accv (extract_fast c) = c0 (extract_fast c).
Proof.
  intros -> HB. pose proof (fits_c2 w c B F HB). destruct F as [Hok Hv].
  destruct (extract_fast_spec w c) as (E & Hok' & R & _ & E'); [done|done|].
  split; [split; [done|]|split; [done|split; done]]. apply Z.div_le_lower_bound; lia.
Qed.

End Columns.

(** The next statement of a computation on the accumulator, whose current state
    is a variable. *)
Ltac closed := vm_compute; first [reflexivity | split; discriminate | discriminate].
Ltac acc_next F' V R E :=
  let name X := (let c := fresh "c" in set (c := X) in *; clearbody c) in
  match goal with
  | F : fits ?w ?c' ?B |- context [muladd ?w ?c' ?a ?b] =>
      match goal with Ha : 0 <= a <= ?am |- _ => match goal with Hb : 0 <= b <= ?bm |- _ =>
      let B' := eval vm_compute in (B + am * bm) in
      destruct (muladd_fits w c' a b B am bm B' ltac:(closed) F Ha Hb ltac:(closed) ltac:(closed) ltac:(closed) ltac:(closed)) as [F' V];
      name (muladd w c' a b); clear F end end
  | F : fits ?w ?c' ?B |- context [muladd2 ?w ?c' ?a ?b] =>
      match goal with Ha : 0 <= a <= ?am |- _ => match goal with Hb : 0 <= b <= ?bm |- _ =>
      let B' := eval vm_compute in (B + 2 * (am * bm)) in
      destruct (muladd2_fits w c' a b B am bm B' ltac:(closed) F Ha Hb ltac:(closed) ltac:(closed) ltac:(closed) ltac:(closed)) as [F' V];
      name (muladd2 w c' a b); clear F end end
  | F : fits ?w ?c' ?B |- context [muladd_fast ?c' ?a ?b] =>
      match goal with Ha : 0 <= a <= ?am |- _ => match goal with Hb : 0 <= b <= ?bm |- _ =>
      let B' := eval vm_compute in (B + am * bm) in
      destruct (muladd_fast_fits w c' a b B am bm B' F Ha Hb ltac:(closed) ltac:(closed) ltac:(closed) ltac:(closed)) as [F' V];
      name (muladd_fast c' a b); clear F end end
  | F : fits ?w ?c' ?B |- context [sumadd ?w ?c' ?a] =>
      match goal with Ha : 0 <= a <= ?am |- _ =>
      let B' := eval vm_compute in (B + am) in
      destruct (sumadd_fits w c' a B am B' ltac:(closed) F Ha ltac:(closed) ltac:(closed) ltac:(closed)) as [F' V];
      name (sumadd w c' a); clear F end
  | F : fits ?w ?c' ?B |- context [sumadd_fast ?c' ?a] =>
      match goal with Ha : 0 <= a <= ?am |- _ =>
      let B' := eval vm_compute in (B + am) in
      destruct (sumadd_fast_fits w c' a B am B' F Ha ltac:(closed) ltac:(closed) ltac:(closed)) as [F' V];
      name (sumadd_fast c' a); clear F end
  | F : fits ?w ?c' ?B |- context [extract ?c'] =>
      let B' := eval vm_compute in (B / 2 ^ 64) in
      destruct (extract_fits w c' B B' ltac:(closed) F ltac:(closed)) as (F' & V & R);
      name (extract c'); clear F
  | F : fits ?w ?c' ?B |- context [extract_fast ?c'] =>
      let B' := eval vm_compute in (B / 2 ^ 64) in
      destruct (extract_fast_fits w c' B B' F ltac:(closed) ltac:(closed)) as (F' & V & R & E);
      name (extract_fast c'); clear F
  end.

Ltac acc_step :=
  let F := fresh "F" in let V := fresh "V" in let R := fresh "R" in let E := fresh "E" in acc_next F V R E.

(** Runs a computation on the accumulator to its end. *)
Ltac run_acc := repeat acc_step; match goal with F : fits _ _ _ |- _ => destruct F as [(? & _ & _) ?] end.

Lemma mul_512_spec (a b : secp256k1_scalar) : limbs_ok a -> limbs_ok b ->
  words_ok (secp256k1_scalar_mul_512 a b) /\ words_val (secp256k1_scalar_mul_512 a b) = val a * val b.
Proof.
  assert (forall x, 0 <= x < 2 ^ 64 -> 0 <= x <= 0xFFFFFFFFFFFFFFFF) as L by (intros; lia).
  intros (A0%L & A1%L & A2%L & A3%L) (B0%L & B1%L & B2%L & B3%L). clear L.
  unfold secp256k1_scalar_mul_512. assert (fits 32 (mk_acc 0 0 0) 0) as F by (by vm_compute).
  assert (accv (mk_acc 0 0 0) = 0) as V by done. set (c := mk_acc 0 0 0) in *. clearbody c.
  run_acc.
  split; [unfold words_ok; cbn [l0 l1 l2 l3 l4 l5 l6 l7]; split_and!; lia|].
  unfold words_val, val. cbn [l0 l1 l2 l3 l4 l5 l6 l7]. lia.
Qed.

Lemma sqr_512_spec (a : secp256k1_scalar) : limbs_ok a ->
  words_ok (secp256k1_scalar_sqr_512 a) /\ words_val (secp256k1_scalar_sqr_512 a) = val a * val a.
Proof.
  assert (forall x, 0 <= x < 2 ^ 64 -> 0 <= x <= 0xFFFFFFFFFFFFFFFF) as L by (intros; lia).
  intros (A0%L & A1%L & A2%L & A3%L). clear L.
  unfold secp256k1_scalar_sqr_512. assert (fits 32 (mk_acc 0 0 0) 0) as F by (by vm_compute).
  assert (accv (mk_acc 0 0 0) = 0) as V by done. set (c := mk_acc 0 0 0) in *. clearbody c. run_acc.
  split; [unfold words_ok; cbn [l0 l1 l2 l3 l4 l5 l6 l7]; split_and!; lia|].
  unfold words_val, val. cbn [l0 l1 l2 l3 l4 l5 l6 l7]. lia.
Qed.

(** ** Reduction of products *)

(** The limbs of [2^256 - order]. *)
Lemma N_C_exact : 0 <= SECP256K1_N_C_0 <= 0x402DA1732FC9BEBF /\ 0 <= SECP256K1_N_C_1 <= 0x4551231950B75FC4 /\
  2 ^ 256 - order = SECP256K1_N_C_0 + 2 ^ 64 * SECP256K1_N_C_1 + 2 ^ 128.
Proof. by vm_compute. Qed.

#[local] Opaque SECP256K1_N_C_0 SECP256K1_N_C_1 order.

(** [m] stands for [l] with the upper half multiplied by [2^256 - order]. *)
Lemma reduce_385_spec (l : words8) : words_ok l ->
  let m := reduce_385 l in
  words_ok m /\ l7 m = 0 /\ l6 m <= 1 /\
  words_val m = l0 l + 2 ^ 64 * l1 l + 2 ^ 128 * l2 l + 2 ^ 192 * l3 l +
    (l4 l + 2 ^ 64 * l5 l + 2 ^ 128 * l6 l + 2 ^ 192 * l7 l) * (2 ^ 256 - order).
Proof.
  assert (forall x, 0 <= x < 2 ^ 64 -> 0 <= x <= 0xFFFFFFFFFFFFFFFF) as L by (intros; lia).
  intros (A0%L & A1%L & A2%L & A3%L & A4%L & A5%L & A6%L & A7%L). clear L. destruct N_C_exact as (C0 & C1 & ->).
  unfold reduce_385. assert (fits 64 (mk_acc (l0 l) 0 0) 0xFFFFFFFFFFFFFFFF) as F by (unfold fits, acc_ok, accv; cbn [c0 c1 c2]; lia).
  assert (accv (mk_acc (l0 l) 0 0) = l0 l) as V by (unfold accv; cbn [c0 c1 c2]; lia). set (c := mk_acc _ 0 0) in *. clearbody c. run_acc.
  rewrite (wrap_small 32) by lia. unfold words_ok, words_val. cbn [l0 l1 l2 l3 l4 l5 l6 l7]. split; [split_and!; lia|]. split; [done|]. split; lia.
Qed.

Lemma reduce_258_spec (m : words8) : words_ok m -> l6 m <= 1 -> l4 m + 2 ^ 64 * l5 m + 2 ^ 128 * l6 m <= 2 ^ 256 - order + 1 ->
  let p := reduce_258 m in
  words_ok p /\ l4 p <= 2 /\
  l0 p + 2 ^ 64 * l1 p + 2 ^ 128 * l2 p + 2 ^ 192 * l3 p + 2 ^ 256 * l4 p =
  l0 m + 2 ^ 64 * l1 m + 2 ^ 128 * l2 m + 2 ^ 192 * l3 m + (l4 m + 2 ^ 64 * l5 m + 2 ^ 128 * l6 m) * (2 ^ 256 - order).
Proof.
  assert (forall x, 0 <= x < 2 ^ 64 -> 0 <= x <= 0xFFFFFFFFFFFFFFFF) as L by (intros; lia).
  intros (A0%L & A1%L & A2%L & A3%L & A4%L & A5%L & A6%L & A7%L) Hm6 Hu. assert (0 <= l6 m <= 1) as A6' by lia. clear L A6 A7 Hm6.
  assert ((l4 m + 2 ^ 64 * l5 m + 2 ^ 128 * l6 m) * (2 ^ 256 - order) < 2 ^ 257) as Hmax.
  { eapply Z.le_lt_trans; [apply Z.mul_le_mono_nonneg_r; [by vm_compute|exact Hu]|by vm_compute]. }
  clear Hu. revert Hmax. destruct N_C_exact as (C0 & C1 & ->). intros Hmax.
  unfold reduce_258. assert (fits 64 (mk_acc (l0 m) 0 0) 0xFFFFFFFFFFFFFFFF) as F by (unfold fits, acc_ok, accv; cbn [c0 c1 c2]; lia).
  assert (accv (mk_acc (l0 m) 0 0) = l0 m) as V by (unfold accv; cbn [c0 c1 c2]; lia). set (c := mk_acc _ 0 0) in *. clearbody c. run_acc.
  rewrite (wrap_small 32) by lia. unfold words_ok. cbn [l0 l1 l2 l3 l4 l5 l6 l7].
  match goal with |- _ /\ ?x <= 2 /\ ?y = ?z => assert (y = z) as Hy by lia; assert (x <= 2) as Hx by lia end.
  split; [split_and!; lia|]. split; [exact Hx|exact Hy].
Qed.

Lemma reduce_256_spec (p : words8) : words_ok p -> l4 p <= 2 ->
  let '(r, c) := reduce_256 p in
  limbs_ok r /\ val r + 2 ^ 256 * c = l0 p + 2 ^ 64 * l1 p + 2 ^ 128 * l2 p + 2 ^ 192 * l3 p + l4 p * (2 ^ 256 - order).
Proof.
  intros (A0 & A1 & A2 & A3 & A4 & _) H4. destruct N_C_exact as (C0 & C1 & ->). unfold reduce_256. cbv zeta.
  rewrite (wrap_small 128 (SECP256K1_N_C_0 * _)), (wrap_small 128 (SECP256K1_N_C_1 * _)) by nia.
  assert (0 <= SECP256K1_N_C_0 * l4 p < 2 ^ 66 /\ 0 <= SECP256K1_N_C_1 * l4 p < 2 ^ 66) as [P0 P1] by nia.
  rewrite (small_sum (l0 p)), (small_sum (l1 p)), (small_sum (l2 p)) by lia.
  destruct (carry_chain (l0 p + SECP256K1_N_C_0 * l4 p) (l1 p + SECP256K1_N_C_1 * l4 p) (l2 p + l4 p) (l3 p)) as [Hl Hv]; [lia..|].
  split; [exact Hl|]. rewrite Hv. lia.
Qed.

(** Multiples of [2^256 - order] are multiples of [2^256] modulo the order. *)
Lemma fold_256 (lo hi : Z) : (lo + hi * (2 ^ 256 - order)) mod order = (lo + 2 ^ 256 * hi) mod order.
Proof. rewrite <- (Z_mod_plus_full (lo + hi * (2 ^ 256 - order)) hi order). f_equal. lia. Qed.

Lemma reduce_512_spec (l : words8) : words_ok l ->
  scalar_ok (secp256k1_scalar_reduce_512 l) /\ val (secp256k1_scalar_reduce_512 l) = words_val l mod order.
Proof.
  intros Hl. destruct (reduce_385_spec l Hl) as (Hm & Hm7 & Hm6 & Vm). set (m := reduce_385 l) in *.
  assert (l4 m + 2 ^ 64 * l5 m + 2 ^ 128 * l6 m <= 2 ^ 256 - order + 1) as Hu.
  { destruct Hl as (A0 & A1 & A2 & A3 & A4 & A5 & A6 & A7), Hm as (B0 & B1 & B2 & B3 & _). unfold words_val in Vm. rewrite Hm7 in Vm.
    set (hi := l4 l + _ + _ + _) in *. assert (0 <= hi < 2 ^ 256) as Hhi by (unfold hi; lia). clearbody hi.
    pose proof order_bounds. assert (hi * (2 ^ 256 - order) <= 2 ^ 256 * (2 ^ 256 - order)) by nia. lia. }
  destruct (reduce_258_spec m Hm Hm6 Hu) as (Hp & Hp4 & Vp). set (p := reduce_258 m) in *.
  unfold secp256k1_scalar_reduce_512. fold m p. pose proof (reduce_256_spec p Hp Hp4) as Hr.
  destruct (reduce_256 p) as [r k]. destruct Hr as [Hr Vr]. pose proof (val_range r Hr) as Rr. pose proof order_bounds as Ho.
  assert (2 ^ 256 - order < 2 ^ 130) as Hc by (by vm_compute).
  assert (0 <= val r + 2 ^ 256 * k < 2 ^ 256 + 2 ^ 132) as Rk.
  { destruct Hp as (P0 & P1 & P2 & P3 & P4 & _). rewrite Vr. nia. }
  destruct (reduce_once r k Hr ltac:(lia) ltac:(lia)) as (Hov & _ & Hok & Ev).
  rewrite (wrap_small 128), (wrap_small 32) by lia. split; [exact Hok|]. rewrite Ev, Vr. clear Ev Vr Hok Hov.
  rewrite fold_256, Vp, fold_256. unfold words_val in *. rewrite Hm7 in Vm.
  transitivity ((l0 l + 2 ^ 64 * l1 l + 2 ^ 128 * l2 l + 2 ^ 192 * l3 l +
    (l4 l + 2 ^ 64 * l5 l + 2 ^ 128 * l6 l + 2 ^ 192 * l7 l) * (2 ^ 256 - order)) mod order).
  - rewrite <- Vm. f_equal. lia.
  - rewrite fold_256. f_equal. lia.
Qed.

Lemma scalar_mul_spec (a b : secp256k1_scalar) : limbs_ok a -> limbs_ok b ->
  scalar_ok (secp256k1_scalar_mul a b) /\ val (secp256k1_scalar_mul a b) = (val a * val b) mod order.
Proof.
  intros Ha Hb. destruct (mul_512_spec a b Ha Hb) as [Hw Ew]. unfold secp256k1_scalar_mul. rewrite <- Ew. by apply reduce_512_spec.
Qed.

Lemma scalar_sqr_spec (a : secp256k1_scalar) : limbs_ok a ->
  scalar_ok (secp256k1_scalar_sqr a) /\ val (secp256k1_scalar_sqr a) = (val a * val a) mod order.
Proof.
  intros Ha. destruct (sqr_512_spec a Ha) as [Hw Ew]. unfold secp256k1_scalar_sqr. rewrite <- Ew. by apply reduce_512_spec.
Qed.

Lemma val_inj (a b : secp256k1_scalar) : limbs_ok a -> limbs_ok b -> val a = val b -> a = b.
Proof.
  destruct a as [a0 a1 a2 a3], b as [b0 b1 b2 b3]. unfold limbs_ok, val. cbn [d0 d1 d2 d3]. intros.
  assert (a0 = b0 /\ a1 = b1 /\ a2 = b2 /\ a3 = b3) as (-> & -> & -> & ->) by lia. done.
Qed.

Lemma scalar_bytes (a : secp256k1_scalar) : scalar_ok a -> secp256k1_scalar_set_b32 (secp256k1_scalar_get_b32 a) = (a, 0).
Proof.
  intros [Ha Hlt]. rewrite get_b32_spec by done. pose proof (set_b32_spec (be_bytes 32 (val a)) (be_bytes_is_bytes _ _) (be_bytes_length _ _)) as S.
  destruct (secp256k1_scalar_set_b32 _) as [r o]. destruct S as ([Hr _] & Ev & ->). pose proof (val_range a Ha).
  assert (be_val (be_bytes 32 (val a)) = val a) as E by (rewrite be_val_bytes; apply Z.mod_small; done). rewrite E in *.
  rewrite Z.mod_small in Ev by lia. rewrite (proj2 (Z.leb_gt _ _) Hlt). by rewrite (val_inj r a Hr Ha Ev).
Qed.

(** C17: scalars are the integers modulo the order of the group.  On the four 64-bit
    limbs of a normalised scalar, addition (with its carry flag), negation,
    multiplication and squaring through the three word accumulator return
    normalised scalars with the value of the operation modulo the order; the
    tests for zero, equality and "high" decide the values; and the 32 byte image
    is the big endian value and is read back.  No carry is lost. *)
Theorem scalar_field (a b : secp256k1_scalar) : scalar_ok a -> scalar_ok b ->
  (let '(r, overflow) := secp256k1_scalar_add a b in
   scalar_ok r /\ val r = (val a + val b) mod order /\ overflow = if order <=? val a + val b then 1 else 0) /\
  (scalar_ok (secp256k1_scalar_mul a b) /\ val (secp256k1_scalar_mul a b) = (val a * val b) mod order) /\
  secp256k1_scalar_sqr a = secp256k1_scalar_mul a a /\
  (scalar_ok (secp256k1_scalar_negate a) /\ val (secp256k1_scalar_negate a) = (- val a) mod order) /\
  secp256k1_scalar_is_zero a = (val a =? 0) /\ secp256k1_scalar_eq a b = (val a =? val b) /\
  secp256k1_scalar_is_high a = (if order / 2 <? val a then 1 else 0) /\
  secp256k1_scalar_get_b32 a = be_bytes 32 (val a) /\ secp256k1_scalar_set_b32 (secp256k1_scalar_get_b32 a) = (a, 0).
Proof.
  intros Ha Hb. split; [by apply scalar_add_spec|]. split; [apply scalar_mul_spec; [apply Ha|apply Hb]|]. split.
  { destruct (scalar_sqr_spec a) as [[Hs _] Es]; [apply Ha|]. destruct (scalar_mul_spec a a) as [[Hm _] Em]; [apply Ha..|].
    apply val_inj; [done|done|by rewrite Es, Em]. }
  split; [by apply negate_spec|]. split; [apply is_zero_spec, Ha|]. split; [apply eq_spec; [apply Ha|apply Hb]|].
  split; [apply is_high_spec, Ha|]. split; [apply get_b32_spec, Ha|by apply scalar_bytes].
Qed.

Lemma scalar_field_witness : let a := mk_scalar (SECP256K1_N_0 - 1) SECP256K1_N_1 SECP256K1_N_2 SECP256K1_N_3 in
  scalar_ok a /\ val (secp256k1_scalar_mul a a) = (val a * val a) mod order /\ val (secp256k1_scalar_mul a a) = 1.
Proof.
  intros a. assert (scalar_ok a) as Ha by (by vm_compute).
  destruct (scalar_field a a Ha Ha) as (_ & (_ & E) & _). split; [exact Ha|]. split; [exact E|]. by vm_compute.
Defined.
