(* ===== verification/Prime.v ===== *)
(** * The order of the group is a prime

    Pocklington's criterion and a certificate for the order of secp256k1, so
    that the inverse that the code computes by an exponentiation can be shown to
    be one. *)

From Stdlib Require Import Znumtheory.
From Stdlib Require ZmodInv.
From S2P Require Import Prelude.
From S2P Require Import Scalar.

(** ** Powers modulo a number *)

Fixpoint powmod (a : Z) (e : positive) (n : Z) : Z :=
  match e with
  | xH => a mod n
  | xO e' => let t := powmod a e' n in (t * t) mod n
  | xI e' => let t := powmod a e' n in (((t * t) mod n) * a) mod n
  end.

Lemma powmod_spec (a n : Z) (e : positive) : powmod a e n = a ^ Z.pos e mod n.
Proof.
  induction e as [e IH|e IH|]; cbn [powmod]; [| |by rewrite Z.pow_1_r].
  - rewrite IH, <- Zmult_mod, Zmult_mod_idemp_l. f_equal. rewrite Pos2Z.inj_xI, Z.pow_add_r, Z.pow_1_r, (Z.mul_comm 2), Z.pow_mul_r, Z.pow_2_r by lia. lia.
  - rewrite IH, <- Zmult_mod. f_equal. by rewrite Pos2Z.inj_xO, (Z.mul_comm 2), Z.pow_mul_r, Z.pow_2_r by lia.
Qed.

(** ** Pocklington's criterion *)

Lemma prime_divisor (n : Z) : 1 < n -> exists p, Z.prime p /\ (p | n).
Proof.
  intros Hn. pattern n. apply (Zlt_lower_bound_ind _ 2); [|lia]. clear n Hn. intros n IH Hn.
  destruct (prime_dec n) as [Hp|Hp]; [exists n; split; [by apply prime_alt|done]|].
  destruct (not_prime_divide n ltac:(lia) Hp) as (m & Hm & D). destruct (IH m ltac:(lia)) as (p & Pp & Dp).
  exists p. split; [done|]. by transitivity m.
Qed.

(** A number that is not a prime has a small prime divisor. *)
Lemma small_divisor (n : Z) : 1 < n -> (forall p, Z.prime p -> (p | n) -> n < p * p) -> Z.prime n.
Proof.
  intros Hn H. destruct (prime_dec n) as [Hp|Hp]; [by apply prime_alt|].
  destruct (not_prime_divide n Hn Hp) as (m & Hm & k & Hk). destruct (prime_divisor m ltac:(lia)) as (p & Pp & Dp).
  assert (1 < k) as Hk1 by nia. destruct (prime_divisor k Hk1) as (q & Pq & Dq).
  pose proof (H p Pp ltac:(transitivity m; [done|by exists k])) as H1. pose proof (H q Pq ltac:(transitivity k; [done|by exists m; lia])) as H2.
  apply Z.divide_pos_le in Dp; [|lia]. apply Z.divide_pos_le in Dq; [|lia]. pose proof (Z.prime_ge_2 p Pp). pose proof (Z.prime_ge_2 q Pq).
  assert (p * q <= m * k) by (apply Z.mul_le_mono_nonneg; lia). destruct (Z.le_ge_cases p q); nia.
Qed.

Definition witness_ok (n q x y : Z) : bool := (powmod x (Z.to_pos q) n =? 1) && (((x - 1) * y) mod n =? 1).

(** A prime order of some number modulo [n] divides [p - 1] for all primes [p] of [n]. *)
Lemma witness_divides (n q x y p : Z) : 1 < n -> Z.prime q -> witness_ok n q x y = true -> Z.prime p -> (p | n) -> (q | p - 1).
Proof.
  intros Hn Hq Hw Hp Hpn. unfold witness_ok in Hw. rewrite !andb_true_iff, !Z.eqb_eq in Hw. destruct Hw as (H1 & Hg).
  pose proof (Z.prime_ge_2 p Hp) as Hp2. pose proof (Z.prime_ge_2 q Hq) as Hq2. rewrite powmod_spec, Z2Pos.id in H1 by lia.
  set (b := x mod p). assert (b ^ q mod p = 1) as Hbq.
  { unfold b. rewrite Z.mod_pow_l, <- (Z.mod_mod_divide (x ^ q) n p Hpn), H1. apply Z.mod_small. lia. }
  assert (b <> 1) as Hb1.
  { intros E. assert ((p | x - 1)) as D.
    { apply Z.mod_divide; [lia|]. rewrite Zminus_mod. fold b. rewrite E, (Z.mod_small 1), Z.sub_diag by lia. by apply Z.mod_0_l; lia. }
    assert (((x - 1) * y) mod n mod p = 0) as D0 by (rewrite Z.mod_mod_divide by done; apply Z.mod_divide; [lia|]; by apply Z.divide_mul_l).
    rewrite Hg, Z.mod_small in D0; lia. }
  assert (b mod p <> 0) as Hb0.
  { intros E. rewrite <- Z.mod_pow_l, E, Z.pow_0_l, Z.mod_0_l in Hbq by lia. lia. }
  pose proof (ZmodInv.Z.fermat_nz p b Hp Hb0) as Hf.
  destruct (decide ((p - 1) mod q = 0)) as [D|D]; [by apply Z.mod_divide; [lia|]|rewrite Z.mod_divide in D by lia]. exfalso. apply Hb1.
  apply (Z.coprime_prime_l q (p - 1) Hq) in D. apply Z.Bezout_coprime_iff in D as (u & v & Huv).
  set (w := u mod (p - 1)). set (z := (w * q - 1) / (p - 1)).
  assert (w * q = 1 + (p - 1) * z) as Exy.
  { unfold z. rewrite <- Z_div_exact_full_2; [lia|lia|]. unfold w. rewrite Zminus_mod, Zmult_mod_idemp_l, <- Zminus_mod.
    apply Z.mod_divide; [lia|]. exists (- v). lia. }
  assert (0 <= w) by (unfold w; apply Z.mod_pos_bound; lia). assert (0 <= z \/ (w = 0 /\ p = 2)) as [Hy|[Hx0 Hp']] by nia.
  - transitivity (b mod p); [symmetry; apply Z.mod_small; unfold b; split; [apply Z.mod_pos_bound; lia|apply Z.mod_pos_bound; lia]|].
    transitivity (b ^ (w * q) mod p).
    + rewrite Exy, Z.pow_add_r, Z.pow_1_r, Z.pow_mul_r by nia. rewrite <- Zmult_mod_idemp_r, <- Z.mod_pow_l, Hf, Z.pow_1_l by lia.
      by rewrite Zmult_mod_idemp_r, Z.mul_1_r.
    + rewrite Z.mul_comm, Z.pow_mul_r, <- Z.mod_pow_l, Hbq, Z.pow_1_l by lia. apply Z.mod_small. lia.
  - assert (0 <= b < p) by (unfold b; apply Z.mod_pos_bound; lia). rewrite Z.mod_small in Hb0 by lia. lia.
Qed.

Lemma pocklington (n q x y : Z) : 1 < n -> Z.prime q -> witness_ok n q x y = true -> n < q * q -> Z.prime n.
Proof.
  intros Hn Hq Hw Hlt. apply small_divisor; [done|]. intros p Hp Hpn.
  pose proof (witness_divides n q x y p Hn Hq Hw Hp Hpn) as D. pose proof (Z.prime_ge_2 p Hp). apply Z.divide_pos_le in D; [|lia].
  pose proof (Z.prime_ge_2 q Hq). nia.
Qed.

Lemma pocklington2 (n q1 q2 x1 y1 x2 y2 : Z) : 1 < n -> Z.prime q1 -> Z.prime q2 -> q1 <> q2 -> witness_ok n q1 x1 y1 = true -> witness_ok n q2 x2 y2 = true ->
  n < (q1 * q2) * (q1 * q2) -> Z.prime n.
Proof.
  intros Hn Hq1 Hq2 Hne Hw1 Hw2 Hlt. apply small_divisor; [done|]. intros p Hp Hpn.
  pose proof (witness_divides n q1 x1 y1 p Hn Hq1 Hw1 Hp Hpn) as D1. pose proof (witness_divides n q2 x2 y2 p Hn Hq2 Hw2 Hp Hpn) as D2.
  assert (Z.coprime q1 q2) as Hc. { apply Z.coprime_prime_l; [done|]. intros D. by apply Z.divide_prime_prime in D. }
  destruct D2 as [k Hk]. rewrite Hk in D1. rewrite Z.mul_comm in D1. apply Z.gauss in D1; [|done]. destruct D1 as [j Hj].
  pose proof (Z.prime_ge_2 p Hp). pose proof (Z.prime_ge_2 q1 Hq1). pose proof (Z.prime_ge_2 q2 Hq2).
  assert (p - 1 = j * (q1 * q2)) as E by lia. assert (0 < q1 * q2) by lia. assert (0 < j) by nia. assert (q1 * q2 <= p - 1) by nia. nia.
Qed.

(** ** The certificate *)

(** No number from 2 to [k + 1] divides [n]. *)
Fixpoint no_divisor (n : Z) (k : nat) : bool :=
  match k with
  | O => true
  | S k' => negb (n mod Z.of_nat (k' + 2) =? 0) && no_divisor n k'
  end.

Lemma trial_prime (n : Z) (k : nat) : 1 < n -> no_divisor n k = true -> n < Z.of_nat (k + 2) * Z.of_nat (k + 2) -> Z.prime n.
Proof.
  intros Hn Hk Hlt. apply small_divisor; [done|]. intros p Hp D. pose proof (Z.prime_ge_2 p Hp).
  destruct (decide (p < Z.of_nat (k + 2))) as [Hs|Hs]; [|nia]. exfalso.
  assert (forall j, 2 <= j < Z.of_nat (k + 2) -> n mod j <> 0) as Hall.
  { clear -Hk. induction k as [|k IH]; intros j Hj; [lia|]. cbn [no_divisor] in Hk. apply andb_true_iff in Hk as [Hk1 Hk2].
    apply negb_true_iff, Z.eqb_neq in Hk1. destruct (decide (j = Z.of_nat (k + 2))) as [->|Hne]; [done|]. apply IH; [done|lia]. }
  apply (Hall p); [lia|]. by apply Z.mod_divide; [lia|].
Qed.

Ltac closed_bool := vm_compute; reflexivity.

Lemma prime_order : Z.prime order.
Proof.
  assert (Z.prime 1871) as P1 by (apply (trial_prime _ 42); [lia|closed_bool|lia]).
  assert (Z.prime 28181) as P2 by (apply (trial_prime _ 166); [lia|closed_bool|lia]).
  assert (Z.prime 9349) as P3 by (apply (trial_prime _ 96); [lia|closed_bool|lia]).
  assert (Z.prime 120233) as P4 by (apply (trial_prime _ 346); [lia|closed_bool|lia]).
  assert (Z.prime 1627771) as P5 by (apply (pocklington _ 1871 910796 589711); [lia|done|closed_bool|lia]).
  assert (Z.prime 545358713) as P6 by (apply (pocklington _ 28181 420071726 160797069); [lia|done|closed_bool|lia]).
  assert (Z.prime 44706919) as P7 by (apply (pocklington _ 9349 24793509 35850462); [lia|done|closed_bool|lia]).
  assert (Z.prime 297159362677) as P8 by (apply (pocklington _ 1627771 114170894341 44169280672); [lia|done|closed_bool|lia]).
  assert (Z.prime 29047611873442575647497758179) as P9
    by (apply (pocklington2 _ 297159362677 545358713
      16062460713643416818883781819 7881196461825673388358983901
      1548700731856248688196814844 9643653164146849936640551407); [lia|done|done|lia|closed_bool|closed_bool|lia]).
  assert (Z.prime 341948486974166000522343609283189) as P10
    by (apply (pocklington _ 29047611873442575647497758179 291782875431971620014836968593543 230912421032721991545077801069578); [lia|done|closed_bool|lia]).
  assert (Z.prime 174723607534414371449) as P11
    by (apply (pocklington2 _ 44706919 120233
      69188669156729060297 97513711501333925610
      97784642313376440036 14283963398578376782); [lia|done|done|lia|closed_bool|closed_bool|lia]).
  apply (pocklington2 _ 341948486974166000522343609283189 174723607534414371449
      86644313145397489891193855759928671818841495415153161568930588450251036589538 57112704531168816596589732607440886458891436705097388389849158079043094771009
      58138579787377535003503259606714116115479494849592057519620557805018937774448 82825258999207434266669200773575514537865192807825383256844795767869923999078);
    [by vm_compute|done|done|lia|closed_bool|closed_bool|by vm_compute].
Qed.
