(* ===== verification/ScalarInv.v ===== *)
(** * scalar_impl.h of secp256k1: inversion of scalars

    The inverse is the power [order - 2], by a fixed chain of squarings and
    multiplications. *)

From Stdlib Require Import Znumtheory.
From Stdlib Require ZmodInv.
From S2P Require Import Prelude.
From S2P Require Import Scalar.
From S2P Require Import Prime.

(** ** The code *)

(** [for (i = 0; i < n; i++) secp256k1_scalar_sqr (t, t)] *)
Fixpoint sqr_times (n : nat) (t : secp256k1_scalar) : secp256k1_scalar :=
  match n with O => t | S n' => sqr_times n' (secp256k1_scalar_sqr t) end.

Definition secp256k1_scalar_inverse (x : secp256k1_scalar) : secp256k1_scalar :=
  let x2 := secp256k1_scalar_sqr x in
  let x2 := secp256k1_scalar_mul x2 x in
  let x3 := secp256k1_scalar_sqr x2 in
  let x3 := secp256k1_scalar_mul x3 x in
  let x4 := secp256k1_scalar_sqr x3 in
  let x4 := secp256k1_scalar_mul x4 x in
  let x6 := secp256k1_scalar_sqr x4 in
  let x6 := secp256k1_scalar_sqr x6 in
  let x6 := secp256k1_scalar_mul x6 x2 in
  let x7 := secp256k1_scalar_sqr x6 in
  let x7 := secp256k1_scalar_mul x7 x in
  let x8 := secp256k1_scalar_sqr x7 in
  let x8 := secp256k1_scalar_mul x8 x in
  let x15 := secp256k1_scalar_sqr x8 in
  let x15 := sqr_times 6 x15 in
  let x15 := secp256k1_scalar_mul x15 x7 in
  let x30 := secp256k1_scalar_sqr x15 in
  let x30 := sqr_times 14 x30 in
  let x30 := secp256k1_scalar_mul x30 x15 in
  let x60 := secp256k1_scalar_sqr x30 in
  let x60 := sqr_times 29 x60 in
  let x60 := secp256k1_scalar_mul x60 x30 in
  let x120 := secp256k1_scalar_sqr x60 in
  let x120 := sqr_times 59 x120 in
  let x120 := secp256k1_scalar_mul x120 x60 in
  let x127 := secp256k1_scalar_sqr x120 in
  let x127 := sqr_times 6 x127 in
  let x127 := secp256k1_scalar_mul x127 x7 in
  let t := x127 in
  let t := sqr_times 2 t in
  let t := secp256k1_scalar_mul t x in
  let t := sqr_times 4 t in
  let t := secp256k1_scalar_mul t x3 in
  let t := sqr_times 2 t in
  let t := secp256k1_scalar_mul t x in
  let t := sqr_times 2 t in
  let t := secp256k1_scalar_mul t x in
  let t := sqr_times 2 t in
  let t := secp256k1_scalar_mul t x in
  let t := sqr_times 4 t in
  let t := secp256k1_scalar_mul t x3 in
  let t := sqr_times 3 t in
  let t := secp256k1_scalar_mul t x2 in
  let t := sqr_times 4 t in
  let t := secp256k1_scalar_mul t x3 in
  let t := sqr_times 5 t in
  let t := secp256k1_scalar_mul t x3 in
  let t := sqr_times 4 t in
  let t := secp256k1_scalar_mul t x2 in
  let t := sqr_times 2 t in
  let t := secp256k1_scalar_mul t x in
  let t := sqr_times 2 t in
  let t := secp256k1_scalar_mul t x in
  let t := sqr_times 5 t in
  let t := secp256k1_scalar_mul t x4 in
  let t := sqr_times 2 t in
  let t := secp256k1_scalar_mul t x in
  let t := sqr_times 3 t in
  let t := secp256k1_scalar_mul t x in
  let t := sqr_times 4 t in
  let t := secp256k1_scalar_mul t x in
  let t := sqr_times 2 t in
  let t := secp256k1_scalar_mul t x in
  let t := sqr_times 10 t in
  let t := secp256k1_scalar_mul t x3 in
  let t := sqr_times 4 t in
  let t := secp256k1_scalar_mul t x3 in
  let t := sqr_times 9 t in
  let t := secp256k1_scalar_mul t x8 in
  let t := sqr_times 2 t in
  let t := secp256k1_scalar_mul t x in
  let t := sqr_times 3 t in
  let t := secp256k1_scalar_mul t x in
  let t := sqr_times 3 t in
  let t := secp256k1_scalar_mul t x in
  let t := sqr_times 5 t in
  let t := secp256k1_scalar_mul t x4 in
  let t := sqr_times 2 t in
  let t := secp256k1_scalar_mul t x in
  let t := sqr_times 5 t in
  let t := secp256k1_scalar_mul t x2 in
  let t := sqr_times 4 t in
  let t := secp256k1_scalar_mul t x2 in
  let t := sqr_times 2 t in
  let t := secp256k1_scalar_mul t x in
  let t := sqr_times 8 t in
  let t := secp256k1_scalar_mul t x2 in
  let t := sqr_times 3 t in
  let t := secp256k1_scalar_mul t x2 in
  let t := sqr_times 3 t in
  let t := secp256k1_scalar_mul t x in
  let t := sqr_times 6 t in
  let t := secp256k1_scalar_mul t x in
  let t := sqr_times 8 t in
  let r := secp256k1_scalar_mul t x6 in
  r.

(** With the builtin inverse of the build. *)
Definition secp256k1_scalar_inverse_var (x : secp256k1_scalar) : secp256k1_scalar := secp256k1_scalar_inverse x.

(** ** Exponents *)

(** [y] is the power [e] of [x]. *)
Definition is_power (x y : secp256k1_scalar) (e : Z) : Prop := scalar_ok y /\ val y = val x ^ e mod order /\ 0 <= e.

Lemma power_sqr (x y : secp256k1_scalar) (e : Z) : is_power x y e -> is_power x (secp256k1_scalar_sqr y) (2 * e).
Proof.
  intros (Hy & Ey & He). destruct (scalar_sqr_spec y) as [Hs Es]; [apply Hy|]. split; [done|]. split; [|lia].
  rewrite Es, Ey, <- Zmult_mod, <- Z.pow_add_r by lia. f_equal. f_equal. lia.
Qed.

Lemma power_mul (x y z : secp256k1_scalar) (e f : Z) : is_power x y e -> is_power x z f -> is_power x (secp256k1_scalar_mul y z) (e + f).
Proof.
  intros (Hy & Ey & He) (Hz & Ez & Hf). destruct (scalar_mul_spec y z) as [Hs Es]; [apply Hy|apply Hz|]. split; [done|]. split; [|lia].
  by rewrite Es, Ey, Ez, <- Zmult_mod, <- Z.pow_add_r by lia.
Qed.

Lemma power_times (x y : secp256k1_scalar) (n : nat) (e : Z) : is_power x y e -> is_power x (sqr_times n y) (2 ^ Z.of_nat n * e).
Proof.
  revert y e. induction n as [|n IH]; intros y e Hy; cbn [sqr_times]; [by rewrite Z.mul_1_l|].
  rewrite Nat2Z.inj_succ, Z.pow_succ_r, (Z.mul_comm 2), <- Z.mul_assoc by lia. by apply IH, power_sqr.
Qed.

(** The next statement of the chain, with its exponent computed. *)
Ltac chain_step :=
  let name X H e := (let y := fresh "y" in let e' := eval vm_compute in e in change e with e' in H; set (y := X) in *; clearbody y) in
  match goal with
  | Hy : is_power ?x ?y ?e |- context [secp256k1_scalar_sqr ?y] =>
      let H := fresh "H" in pose proof (power_sqr x y e Hy) as H; name (secp256k1_scalar_sqr y) H (2 * e)
  | Hy : is_power ?x ?y ?e |- context [secp256k1_scalar_mul ?y ?z] =>
      match goal with Hz : is_power x z ?f |- _ =>
      let H := fresh "H" in pose proof (power_mul x y z e f Hy Hz) as H; name (secp256k1_scalar_mul y z) H (e + f) end
  | Hy : is_power ?x ?y ?e |- context [sqr_times ?n ?y] =>
      let H := fresh "H" in pose proof (power_times x y n e Hy) as H; name (sqr_times n y) H (2 ^ Z.of_nat n * e)
  end.

Lemma inverse_power (x : secp256k1_scalar) : scalar_ok x -> is_power x (secp256k1_scalar_inverse x) (order - 2).
Proof.
  intros Hx. unfold secp256k1_scalar_inverse.
  assert (is_power x x 1) as H0.
  { destruct Hx as [Hl Hlt]. split; [done|]. rewrite Z.pow_1_r, Z.mod_small; [done|]. pose proof (val_range x Hl). lia. } repeat chain_step.
  match goal with H : is_power x ?y ?e |- is_power x ?y _ => replace (order - 2) with e by (by vm_compute); exact H end.
Qed.

(** The chain computes the inverse of every scalar that is not zero. *)
Lemma inverse_spec (x : secp256k1_scalar) : scalar_ok x -> val x <> 0 ->
  scalar_ok (secp256k1_scalar_inverse x) /\ (val x * val (secp256k1_scalar_inverse x)) mod order = 1.
Proof.
  intros Hx Hne. destruct (inverse_power x Hx) as (Hi & Ei & _). split; [done|]. destruct Hx as [Hl Hlt]. pose proof (val_range x Hl).
  pose proof order_bounds. rewrite Ei, Zmult_mod_idemp_r, <- Z.pow_succ_r by lia. replace (Z.succ (order - 2)) with (order - 1) by lia.
  apply ZmodInv.Z.fermat_nz; [apply prime_order|]. rewrite Z.mod_small by lia. done.
Qed.
