(* ===== verification/FieldPrime.v ===== *)
(** * The field of secp256k1

    The modulus of the field is a prime, by a certificate for Pocklington's
    criterion.  Numbers are compared modulo it with the setoid equality [==p],
    for which the tactics [ring] and [field] are set up in [FieldTactics]. *)

From Stdlib Require Import Znumtheory Ring Field Setoid Morphisms.
From Stdlib Require ZmodInv.
From S2P Require Import Prelude.
From S2P Require Import Prime.

Definition field_p : Z := 2 ^ 256 - 2 ^ 32 - 977.

(** ** The certificate *)

Fixpoint decreasing (qs : list Z) : bool :=
  match qs with
  | q :: (r :: _) as l => (r <? q) && decreasing l
  | _ => true
  end.

Definition certificate (n : Z) (ws : list (Z * Z * Z)) : bool :=
  decreasing (map (fun w => w.1.1) ws) && forallb (fun w => witness_ok n w.1.1 w.1.2 w.2) ws.

Lemma decreasing_below (q : Z) (qs : list Z) : decreasing (q :: qs) = true -> Forall (fun r => r < q) qs /\ decreasing qs = true.
Proof.
  revert q. induction qs as [|r qs IH]; intros q H; [done|]. cbn [decreasing] in H. apply andb_prop in H as [Hr H]. apply Z.ltb_lt in Hr. split; [|exact H].
  destruct (IH r H) as [Hall _]. constructor; [exact Hr|]. eapply list.Forall_impl; [exact Hall|]. intros x Hx. cbn in *. lia.
Qed.

Lemma product_divides (k : Z) (qs : list Z) : Forall Z.prime qs -> decreasing qs = true -> Forall (fun q => (q | k)) qs -> (fold_right Z.mul 1 qs | k).
Proof.
  induction qs as [|q qs IH]; intros Hp Hd Hk; [apply Z.divide_1_l|]. cbn [fold_right]. apply list.Forall_cons in Hp as [Hq Hp]. apply list.Forall_cons in Hk as [Dq Hk].
  destruct (decreasing_below q qs Hd) as [Hb Hd']. destruct (IH Hp Hd' Hk) as [j Hj]. rewrite Hj in Dq |- *. rewrite Z.mul_comm in Dq. apply Z.gauss in Dq as [i Hi].
  - exists i. rewrite Hi. lia.
  - clear -Hq Hp Hb. induction qs as [|r qs IH]; [apply Z.coprime_1_r|]. apply list.Forall_cons in Hp as [Hr Hp]. apply list.Forall_cons in Hb as [Hlt Hb].
    cbn [fold_right]. apply Z.coprime_mul_r; [|by apply IH]. apply Z.coprime_prime_l; [exact Hq|]. intros D. apply Z.divide_prime_prime in D; [lia|done|done].
Qed.

Lemma pocklington_all (n : Z) (ws : list (Z * Z * Z)) : 1 < n -> Forall (fun w => Z.prime w.1.1) ws -> certificate n ws = true ->
  n < fold_right Z.mul 1 (map (fun w => w.1.1) ws) * fold_right Z.mul 1 (map (fun w => w.1.1) ws) -> Z.prime n.
Proof.
  intros Hn Hp Hc Hlt. apply andb_prop in Hc as [Hd Hw]. apply small_divisor; [exact Hn|]. intros p Pp Hpn. pose proof (Z.prime_ge_2 p Pp) as Hp2.
  assert (Forall Z.prime (map (fun w : Z * Z * Z => w.1.1) ws)) as Hps by (by apply Forall_map).
  assert ((fold_right Z.mul 1 (map (fun w => w.1.1) ws) | p - 1)) as D.
  { apply product_divides; [exact Hps|exact Hd|]. apply Forall_map. rewrite forallb_forall in Hw. apply Forall_forall. intros w Hin. rewrite Forall_forall in Hp.
    apply (witness_divides n _ w.1.2 w.2); [exact Hn|by apply Hp|by apply Hw|exact Pp|exact Hpn]. }
  apply Z.divide_pos_le in D; [|lia]. assert (0 <= fold_right Z.mul 1 (map (fun w : Z * Z * Z => w.1.1) ws)); [|nia].
  clear -Hps. induction (map _ ws) as [|q l IH]; cbn; [lia|]. apply Forall_inv_tail in Hps as Hl. apply Forall_inv in Hps as Hq. pose proof (Z.prime_ge_2 q Hq). specialize (IH Hl). nia.
Qed.

Ltac all_primes := repeat (apply List.Forall_cons; [assumption|]); apply List.Forall_nil.

Lemma prime_field : Z.prime field_p.
Proof.
  assert (Z.prime 53) as P1 by (apply (trial_prime _ 6); [lia|closed_bool|lia]).
  assert (Z.prime 29) as P2 by (apply (trial_prime _ 4); [lia|closed_bool|lia]).
  assert (Z.prime 7) as P3 by (apply (trial_prime _ 1); [lia|closed_bool|lia]).
  assert (Z.prime 107590001) as P4
    by (apply (pocklington_all _ [(53, 10394437, 58975013); (29, 86128515, 38768664); (7, 45931556, 98109797)]); [lia|all_primes|closed_bool|by vm_compute]).
  assert (Z.prime 20113) as P5 by (apply (trial_prime _ 140); [lia|closed_bool|lia]).
  assert (Z.prime 1206781) as P6
    by (apply (pocklington_all _ [(20113, 284000, 709458)]); [lia|all_primes|closed_bool|by vm_compute]).
  assert (Z.prime 7240687) as P7
    by (apply (pocklington_all _ [(1206781, 177320, 3317088)]); [lia|all_primes|closed_bool|by vm_compute]).
  assert (Z.prime 96557) as P8 by (apply (trial_prime _ 309); [lia|closed_bool|lia]).
  assert (Z.prime 255515944373312847190720520512484175977) as P9
    by (apply (pocklington_all _ [(107590001, 115766156583777321838581775604551111512, 204359656535207930847323149947462229425); (7240687, 237009718555159705532133154661857075784, 220421339627429863518299897836858161249); (96557, 2893852097708040884214285665902086879, 47814839439027884484778539543394800569)]); [lia|all_primes|closed_bool|by vm_compute]).
  assert (Z.prime 205115282021455665897114700593932402728804164701536103180137503955397371) as P10
    by (apply (pocklington_all _ [(255515944373312847190720520512484175977, 42259636525514628095013863011757266834672387236469508969558495321707362, 169252273485957044832272532407570143907335204440509940439556991578042662)]); [lia|all_primes|closed_bool|by vm_compute]).
  apply (pocklington_all _ [(205115282021455665897114700593932402728804164701536103180137503955397371, 77089797905329716238957632535681233409495778589812351840009110542404816689576, 43004542878304912632667165226851371544180500524227913305171061543771963782540)]); [by vm_compute|all_primes|closed_bool|by vm_compute].
Qed.

(** ** Numbers modulo [p] *)

Definition eqp (a b : Z) : Prop := a mod field_p = b mod field_p.
Infix "==p" := eqp (at level 70, no associativity) : Z_scope.

#[export] Instance eqp_equiv : Equivalence eqp.
Proof. unfold eqp. split; [done|by intros ??|intros ???; congruence]. Qed.
#[export] Instance eqp_add : Proper (eqp ==> eqp ==> eqp) Z.add.
Proof. unfold eqp. intros a b H c d H'. by rewrite Zplus_mod, H, H', <- Zplus_mod. Qed.
#[export] Instance eqp_mul : Proper (eqp ==> eqp ==> eqp) Z.mul.
Proof. unfold eqp. intros a b H c d H'. by rewrite Zmult_mod, H, H', <- Zmult_mod. Qed.
#[export] Instance eqp_sub : Proper (eqp ==> eqp ==> eqp) Z.sub.
Proof. unfold eqp. intros a b H c d H'. by rewrite Zminus_mod, H, H', <- Zminus_mod. Qed.
#[export] Instance eqp_opp : Proper (eqp ==> eqp) Z.opp.
Proof. intros a b H. change (- a) with (0 - a). change (- b) with (0 - b). by rewrite H. Qed.

Lemma eqp_of_eq (a b : Z) : a = b -> a ==p b.
Proof. by intros ->. Qed.

Lemma eqp_mod (a : Z) : a mod field_p ==p a.
Proof. apply Zmod_mod. Qed.

Lemma eqp_multiple (a k : Z) : a + k * field_p ==p a.
Proof. unfold eqp. apply Z_mod_plus_full. Qed.

(** [a / b] as [a b^(p - 2)]. *)
Definition finv (a : Z) : Z := powmod a (Z.to_pos (field_p - 2)) field_p.
Definition fdiv (a b : Z) : Z := a * finv b.

#[export] Instance eqp_pow : Proper (eqp ==> eq ==> eqp) Z.pow.
Proof. unfold eqp. intros a b H n _ <-. by rewrite <- (Z.mod_pow_l a), H, Z.mod_pow_l. Qed.
#[export] Instance eqp_inv : Proper (eqp ==> eqp) finv.
Proof. intros a b H. unfold finv. rewrite !powmod_spec, !eqp_mod. by rewrite H. Qed.
#[export] Instance eqp_div : Proper (eqp ==> eqp ==> eqp) fdiv.
Proof. intros a b H c d H'. unfold fdiv. by rewrite H, H'. Qed.

Lemma eqp_0 (a : Z) : a ==p 0 <-> (field_p | a).
Proof. unfold eqp. rewrite (Z.mod_0_l field_p) by done. by rewrite Z.mod_divide by done. Qed.

Lemma finv_l (a : Z) : ~ a ==p 0 -> finv a * a ==p 1.
Proof.
  intros Ha. unfold finv. rewrite powmod_spec, eqp_mod. change (Z.pos (Z.to_pos (field_p - 2))) with (field_p - 2).
  rewrite <- (Z.pow_1_r a) at 2. rewrite <- Z.pow_add_r by done. change (field_p - 2 + 1) with (field_p - 1). unfold eqp.
  rewrite (ZmodInv.Z.fermat_nz field_p a prime_field); [done|]. intros H. apply Ha. unfold eqp. by rewrite H.
Qed.

Lemma eqp_integral (a b : Z) : a * b ==p 0 -> a ==p 0 \/ b ==p 0.
Proof. rewrite !eqp_0. apply Z.divide_prime_mul, prime_field. Qed.

Lemma fp_ring : ring_theory 0 1 Z.add Z.mul Z.sub Z.opp eqp.
Proof. split; intros; apply eqp_of_eq; ring. Qed.

Lemma fp_field : field_theory 0 1 Z.add Z.mul Z.sub Z.opp fdiv finv eqp.
Proof. split; [apply fp_ring|done|reflexivity|apply finv_l]. Qed.

Lemma fp_morph : ring_morph 0 1 Z.add Z.mul Z.sub Z.opp eqp 0 1 Z.add Z.mul Z.sub Z.opp Z.eqb (fun x => x).
Proof. split; try reflexivity. intros x y H. apply eqp_of_eq. by apply Z.eqb_eq. Qed.

Lemma fp_ext : ring_eq_ext Z.add Z.mul Z.opp eqp.
Proof. split; [apply eqp_add|apply eqp_mul|apply eqp_opp]. Qed.

Lemma fp_power : power_theory 1 Z.mul eqp Z.of_N Z.pow.
Proof. split. intros r n. apply eqp_of_eq, ZArithRing.Zpower_theory. Qed.

(** To be imported where equations modulo [p] are proved: the tactics then no
    longer apply to plain equations between numbers. *)
Module FieldTactics.
Add Field fp : fp_field (morphism fp_morph, setoid eqp_equiv fp_ext, constants [Zcst], power_tac fp_power [Zpow_tac]).
End FieldTactics.
