(* ===== verification/FieldImpl.v ===== *)
(** * field_5x52_impl.h, field_impl.h of secp256k1: the field of the curve

    An element is five limbs of 64 bits to the base 2^52, with room above them:
    the operations defer carries, and the bounds of [secp256k1_fe_verify] (the
    predicate [magnitude] of FieldSpec.v) keep the limbs from overflowing.
    Products are formed in 128 bits by the portable code
    (field_5x52_int128_impl.h; a build may replace it by assembly). *)

From S2P Require Import Prelude.
From S2P Require Import FieldPrime.
From Stdlib Require Import Setoid Morphisms.

Abbreviation u128 := (wrap 128).

(** ** The code *)

Record secp256k1_fe := mk_fe { n0 : Z; n1 : Z; n2 : Z; n3 : Z; n4 : Z }.
Record secp256k1_fe_storage := mk_storage { s0 : Z; s1 : Z; s2 : Z; s3 : Z }.

Definition M52 : Z := 0xFFFFFFFFFFFFF.
Definition M48 : Z := 0x0FFFFFFFFFFFF.

(** *** Normalisation *)

(** The carries from limb to limb. *)
Definition carry_limbs (t0 t1 t2 t3 t4 : Z) : secp256k1_fe :=
  let t1 := u64 (t1 + Z.shiftr t0 52) in let t0 := Z.land t0 M52 in
  let t2 := u64 (t2 + Z.shiftr t1 52) in let t1 := Z.land t1 M52 in
  let t3 := u64 (t3 + Z.shiftr t2 52) in let t2 := Z.land t2 M52 in
  let t4 := u64 (t4 + Z.shiftr t3 52) in let t3 := Z.land t3 M52 in
  mk_fe t0 t1 t2 t3 t4.

(** The bits from 256 on are folded into the lowest limb, then the carries. *)
Definition first_pass (r : secp256k1_fe) : secp256k1_fe :=
  let x := Z.shiftr (n4 r) 48 in let t4 := Z.land (n4 r) M48 in
  carry_limbs (u64 (n0 r + u64 (x * 0x1000003D1))) (n1 r) (n2 r) (n3 r) t4.

(** Whether a final reduction is needed. *)
Definition final_x (t : secp256k1_fe) : Z :=
  let m := Z.land (Z.land (n1 t) (n2 t)) (n3 t) in
  Z.lor (Z.shiftr (n4 t) 48)
    (Z.land (Z.land (Z.b2z (n4 t =? M48)) (Z.b2z (m =? M52))) (Z.b2z (0xFFFFEFFFFFC2F <=? n0 t))).

Definition secp256k1_fe_normalize (r : secp256k1_fe) : secp256k1_fe :=
  let t := first_pass r in
  let x := final_x t in
  let t := carry_limbs (u64 (n0 t + u64 (x * 0x1000003D1))) (n1 t) (n2 t) (n3 t) (n4 t) in
  mk_fe (n0 t) (n1 t) (n2 t) (n3 t) (Z.land (n4 t) M48).

Definition secp256k1_fe_normalize_weak (r : secp256k1_fe) : secp256k1_fe := first_pass r.

Definition secp256k1_fe_normalize_var (r : secp256k1_fe) : secp256k1_fe :=
  let t := first_pass r in
  let x := final_x t in
  if negb (x =? 0) then
    let t := carry_limbs (u64 (n0 t + 0x1000003D1)) (n1 t) (n2 t) (n3 t) (n4 t) in
    mk_fe (n0 t) (n1 t) (n2 t) (n3 t) (Z.land (n4 t) M48)
  else t.

Definition secp256k1_fe_normalizes_to_zero (r : secp256k1_fe) : bool :=
  let t := first_pass r in
  let z0 := Z.lor (Z.lor (Z.lor (Z.lor (n0 t) (n1 t)) (n2 t)) (n3 t)) (n4 t) in
  let z1 := Z.land (Z.land (Z.land (Z.land (Z.lxor (n0 t) 0x1000003D0) (n1 t)) (n2 t)) (n3 t)) (Z.lxor (n4 t) 0xF000000000000) in
  (z0 =? 0) || (z1 =? M52).

Definition secp256k1_fe_normalizes_to_zero_var (r : secp256k1_fe) : bool :=
  let x := Z.shiftr (n4 r) 48 in
  let t0 := u64 (n0 r + u64 (x * 0x1000003D1)) in
  let z0 := Z.land t0 M52 in
  let z1 := Z.lxor z0 0x1000003D0 in
  if negb (z0 =? 0) && negb (z1 =? M52) then false else
  let t4 := Z.land (n4 r) M48 in
  let t1 := u64 (n1 r + Z.shiftr t0 52) in
  let t2 := u64 (n2 r + Z.shiftr t1 52) in let t1 := Z.land t1 M52 in let z0 := Z.lor z0 t1 in let z1 := Z.land z1 t1 in
  let t3 := u64 (n3 r + Z.shiftr t2 52) in let t2 := Z.land t2 M52 in let z0 := Z.lor z0 t2 in let z1 := Z.land z1 t2 in
  let t4 := u64 (t4 + Z.shiftr t3 52) in let t3 := Z.land t3 M52 in let z0 := Z.lor z0 t3 in let z1 := Z.land z1 t3 in
  let z0 := Z.lor z0 t4 in let z1 := Z.land z1 (Z.lxor t4 0xF000000000000) in
  (z0 =? 0) || (z1 =? M52).

(** *** Small operations *)

Definition secp256k1_fe_set_int (a : Z) : secp256k1_fe := mk_fe a 0 0 0 0.
Definition secp256k1_fe_clear : secp256k1_fe := mk_fe 0 0 0 0 0.

Definition secp256k1_fe_is_zero (a : secp256k1_fe) : bool := Z.lor (Z.lor (Z.lor (Z.lor (n0 a) (n1 a)) (n2 a)) (n3 a)) (n4 a) =? 0.
Definition secp256k1_fe_is_odd (a : secp256k1_fe) : Z := Z.land (n0 a) 1.

Fixpoint cmp_limbs (a b : list Z) : Z :=
  match a, b with
  | x :: a, y :: b => if y <? x then 1 else if x <? y then -1 else cmp_limbs a b
  | _, _ => 0
  end.
Definition limbs (a : secp256k1_fe) : list Z := [n0 a; n1 a; n2 a; n3 a; n4 a].
Definition secp256k1_fe_cmp_var (a b : secp256k1_fe) : Z := cmp_limbs (rev (limbs a)) (rev (limbs b)).

(** The nibbles of the loops: bit [8 i + 4 j] of the number. *)
Definition nibbles : list (Z * Z) := flat_map (fun i => [(Z.of_nat i, 0); (Z.of_nat i, 1)]) (seq 0 32).

Definition set_nibble (a : list Z) (r : list Z) (ij : Z * Z) : list Z :=
  let '(i, j) := ij in
  let limb := (8 * i + 4 * j) / 52 in
  let shift := (8 * i + 4 * j) mod 52 in
  alter (fun l => Z.lor l (u64 (Z.shiftl (Z.land (Z.shiftr (nth (Z.to_nat (31 - i)) a 0) (4 * j)) 0xF) shift))) (Z.to_nat limb) r.

Definition of_limbs (l : list Z) : secp256k1_fe := mk_fe (nth 0 l 0) (nth 1 l 0) (nth 2 l 0) (nth 3 l 0) (nth 4 l 0).

Definition secp256k1_fe_set_b32 (a : list Z) : secp256k1_fe * bool :=
  let r := of_limbs (fold_left (set_nibble a) nibbles [0; 0; 0; 0; 0]) in
  (r, negb ((n4 r =? M48) && (Z.land (Z.land (n3 r) (n2 r)) (n1 r) =? M52) && (0xFFFFEFFFFFC2F <=? n0 r))).

Definition get_nibble (a : secp256k1_fe) (i j : Z) : Z :=
  let limb := (8 * i + 4 * j) / 52 in
  let shift := (8 * i + 4 * j) mod 52 in
  Z.shiftl (Z.land (Z.shiftr (nth (Z.to_nat limb) (limbs a) 0) shift) 0xF) (4 * j).
Definition secp256k1_fe_get_b32 (a : secp256k1_fe) : list Z :=
  map (fun k => let i := 31 - Z.of_nat k in u8 (Z.lor (get_nibble a i 0) (get_nibble a i 1))) (seq 0 32).

Definition secp256k1_fe_negate (a : secp256k1_fe) (m : Z) : secp256k1_fe :=
  mk_fe (u64 (0xFFFFEFFFFFC2F * 2 * (m + 1) - n0 a)) (u64 (M52 * 2 * (m + 1) - n1 a)) (u64 (M52 * 2 * (m + 1) - n2 a))
    (u64 (M52 * 2 * (m + 1) - n3 a)) (u64 (M48 * 2 * (m + 1) - n4 a)).

Definition secp256k1_fe_mul_int (r : secp256k1_fe) (a : Z) : secp256k1_fe :=
  mk_fe (u64 (n0 r * a)) (u64 (n1 r * a)) (u64 (n2 r * a)) (u64 (n3 r * a)) (u64 (n4 r * a)).

Definition secp256k1_fe_add (r a : secp256k1_fe) : secp256k1_fe :=
  mk_fe (u64 (n0 r + n0 a)) (u64 (n1 r + n1 a)) (u64 (n2 r + n2 a)) (u64 (n3 r + n3 a)) (u64 (n4 r + n4 a)).

Definition cmov_limb (mask0 mask1 r a : Z) : Z := Z.lor (Z.land r mask0) (Z.land a mask1).

Definition secp256k1_fe_cmov (r a : secp256k1_fe) (flag : Z) : secp256k1_fe :=
  let mask0 := u64 (flag + 0xFFFFFFFFFFFFFFFF) in
  let mask1 := u64 (Z.lnot mask0) in
  let mv := cmov_limb mask0 mask1 in
  mk_fe (mv (n0 r) (n0 a)) (mv (n1 r) (n1 a)) (mv (n2 r) (n2 a)) (mv (n3 r) (n3 a)) (mv (n4 r) (n4 a)).

Definition secp256k1_fe_storage_cmov (r a : secp256k1_fe_storage) (flag : Z) : secp256k1_fe_storage :=
  let mask0 := u64 (flag + 0xFFFFFFFFFFFFFFFF) in
  let mask1 := u64 (Z.lnot mask0) in
  let mv := cmov_limb mask0 mask1 in
  mk_storage (mv (s0 r) (s0 a)) (mv (s1 r) (s1 a)) (mv (s2 r) (s2 a)) (mv (s3 r) (s3 a)).

Definition secp256k1_fe_to_storage (a : secp256k1_fe) : secp256k1_fe_storage :=
  mk_storage (Z.lor (n0 a) (u64 (Z.shiftl (n1 a) 52))) (Z.lor (Z.shiftr (n1 a) 12) (u64 (Z.shiftl (n2 a) 40)))
    (Z.lor (Z.shiftr (n2 a) 24) (u64 (Z.shiftl (n3 a) 28))) (Z.lor (Z.shiftr (n3 a) 36) (u64 (Z.shiftl (n4 a) 16))).

Definition secp256k1_fe_from_storage (a : secp256k1_fe_storage) : secp256k1_fe :=
  mk_fe (Z.land (s0 a) M52) (Z.lor (Z.shiftr (s0 a) 52) (Z.land (u64 (Z.shiftl (s1 a) 12)) M52))
    (Z.lor (Z.shiftr (s1 a) 40) (Z.land (u64 (Z.shiftl (s2 a) 24)) M52)) (Z.lor (Z.shiftr (s2 a) 28) (Z.land (u64 (Z.shiftl (s3 a) 36)) M52))
    (Z.shiftr (s3 a) 16).

(** *** Products *)

Definition secp256k1_fe_mul_inner (a b : secp256k1_fe) : secp256k1_fe :=
  let a0 := n0 a in let a1 := n1 a in let a2 := n2 a in let a3 := n3 a in let a4 := n4 a in
  let b0 := n0 b in let b1 := n1 b in let b2 := n2 b in let b3 := n3 b in let b4 := n4 b in
  let M := 0xFFFFFFFFFFFFF in let R := 0x1000003D10 in
  let d := u128 (a0 * b3 + a1 * b2 + a2 * b1 + a3 * b0) in
  let c := u128 (a4 * b4) in
  let d := u128 (d + Z.land c M * R) in let c := Z.shiftr c 52 in
  let t3 := u64 (Z.land d M) in let d := Z.shiftr d 52 in
  let d := u128 (d + (a0 * b4 + a1 * b3 + a2 * b2 + a3 * b1 + a4 * b0)) in
  let d := u128 (d + c * R) in
  let t4 := u64 (Z.land d M) in let d := Z.shiftr d 52 in
  let tx := Z.shiftr t4 48 in let t4 := Z.land t4 (Z.shiftr M 4) in
  let c := u128 (a0 * b0) in
  let d := u128 (d + (a1 * b4 + a2 * b3 + a3 * b2 + a4 * b1)) in
  let u0 := u64 (Z.land d M) in let d := Z.shiftr d 52 in
  let u0 := Z.lor (u64 (Z.shiftl u0 4)) tx in
  let c := u128 (c + u0 * Z.shiftr R 4) in
  let r0 := u64 (Z.land c M) in let c := Z.shiftr c 52 in
  let c := u128 (c + (a0 * b1 + a1 * b0)) in
  let d := u128 (d + (a2 * b4 + a3 * b3 + a4 * b2)) in
  let c := u128 (c + Z.land d M * R) in let d := Z.shiftr d 52 in
  let r1 := u64 (Z.land c M) in let c := Z.shiftr c 52 in
  let c := u128 (c + (a0 * b2 + a1 * b1 + a2 * b0)) in
  let d := u128 (d + (a3 * b4 + a4 * b3)) in
  let c := u128 (c + Z.land d M * R) in let d := Z.shiftr d 52 in
  let r2 := u64 (Z.land c M) in let c := Z.shiftr c 52 in
  let c := u128 (c + (d * R + t3)) in
  let r3 := u64 (Z.land c M) in let c := Z.shiftr c 52 in
  let c := u128 (c + t4) in
  let r4 := u64 c in
  mk_fe r0 r1 r2 r3 r4.

(** The temporaries are [int64_t] here. *)
Definition secp256k1_fe_sqr_inner (a : secp256k1_fe) : secp256k1_fe :=
  let a0 := n0 a in let a1 := n1 a in let a2 := n2 a in let a3 := n3 a in let a4 := n4 a in
  let M := 0xFFFFFFFFFFFFF in let R := 0x1000003D10 in
  let d := u128 (u64 (a0 * 2) * a3 + u64 (a1 * 2) * a2) in
  let c := u128 (a4 * a4) in
  let d := u128 (d + Z.land c M * R) in let c := Z.shiftr c 52 in
  let t3 := s64 (Z.land d M) in let d := Z.shiftr d 52 in
  let a4 := u64 (a4 * 2) in
  let d := u128 (d + (a0 * a4 + u64 (a1 * 2) * a3 + a2 * a2)) in
  let d := u128 (d + c * R) in
  let t4 := s64 (Z.land d M) in let d := Z.shiftr d 52 in
  let tx := Z.shiftr t4 48 in let t4 := Z.land t4 (Z.shiftr M 4) in
  let c := u128 (a0 * a0) in
  let d := u128 (d + (a1 * a4 + u64 (a2 * 2) * a3)) in
  let u0 := s64 (Z.land d M) in let d := Z.shiftr d 52 in
  let u0 := Z.lor (s64 (Z.shiftl u0 4)) tx in
  let c := u128 (c + u128 u0 * Z.shiftr R 4) in
  let r0 := u64 (Z.land c M) in let c := Z.shiftr c 52 in
  let a0 := u64 (a0 * 2) in
  let c := u128 (c + a0 * a1) in
  let d := u128 (d + (a2 * a4 + a3 * a3)) in
  let c := u128 (c + Z.land d M * R) in let d := Z.shiftr d 52 in
  let r1 := u64 (Z.land c M) in let c := Z.shiftr c 52 in
  let c := u128 (c + (a0 * a2 + a1 * a1)) in
  let d := u128 (d + a3 * a4) in
  let c := u128 (c + Z.land d M * R) in let d := Z.shiftr d 52 in
  let r2 := u64 (Z.land c M) in let c := Z.shiftr c 52 in
  let c := u128 (c + (d * R + u128 t3)) in
  let r3 := u64 (Z.land c M) in let c := Z.shiftr c 52 in
  let c := u128 (c + u128 t4) in
  let r4 := u64 c in
  mk_fe r0 r1 r2 r3 r4.

Definition secp256k1_fe_mul (a b : secp256k1_fe) : secp256k1_fe := secp256k1_fe_mul_inner a b.
Definition secp256k1_fe_sqr (a : secp256k1_fe) : secp256k1_fe := secp256k1_fe_sqr_inner a.

Definition secp256k1_fe_equal (a b : secp256k1_fe) : bool :=
  let na := secp256k1_fe_negate a 1 in
  let na := secp256k1_fe_add na b in
  secp256k1_fe_normalizes_to_zero na.

Definition secp256k1_fe_equal_var (a b : secp256k1_fe) : bool :=
  let na := secp256k1_fe_negate a 1 in
  let na := secp256k1_fe_add na b in
  secp256k1_fe_normalizes_to_zero_var na.

(** *** Powers *)

(** [for (j = 0; j < n; j++) sqr(&x, &x)] *)
Definition fe_sqr_times (n : nat) (x : secp256k1_fe) : secp256k1_fe := Nat.iter n secp256k1_fe_sqr x.

(** The powers [2^n - 1] that both chains start with: [x2], [x22] and [x223]. *)
Definition chain_start (a : secp256k1_fe) : secp256k1_fe * secp256k1_fe * secp256k1_fe :=
  let mul := secp256k1_fe_mul in
  let x2 := mul (secp256k1_fe_sqr a) a in
  let x3 := mul (secp256k1_fe_sqr x2) a in
  let x6 := mul (fe_sqr_times 3 x3) x3 in
  let x9 := mul (fe_sqr_times 3 x6) x3 in
  let x11 := mul (fe_sqr_times 2 x9) x2 in
  let x22 := mul (fe_sqr_times 11 x11) x11 in
  let x44 := mul (fe_sqr_times 22 x22) x22 in
  let x88 := mul (fe_sqr_times 44 x44) x44 in
  let x176 := mul (fe_sqr_times 88 x88) x88 in
  let x220 := mul (fe_sqr_times 44 x176) x44 in
  let x223 := mul (fe_sqr_times 3 x220) x3 in
  (x2, x22, x223).

Definition secp256k1_fe_sqrt (a : secp256k1_fe) : secp256k1_fe * bool :=
  let '(x2, x22, x223) := chain_start a in
  let t1 := secp256k1_fe_mul (fe_sqr_times 23 x223) x22 in
  let t1 := secp256k1_fe_mul (fe_sqr_times 6 t1) x2 in
  let t1 := secp256k1_fe_sqr t1 in
  let r := secp256k1_fe_sqr t1 in
  let t1 := secp256k1_fe_sqr r in
  (r, secp256k1_fe_equal t1 a).

Definition secp256k1_fe_inv (a : secp256k1_fe) : secp256k1_fe :=
  let '(x2, x22, x223) := chain_start a in
  let t1 := secp256k1_fe_mul (fe_sqr_times 23 x223) x22 in
  let t1 := secp256k1_fe_mul (fe_sqr_times 5 t1) a in
  let t1 := secp256k1_fe_mul (fe_sqr_times 3 t1) x2 in
  let t1 := fe_sqr_times 2 t1 in
  secp256k1_fe_mul a t1.

(** The build selects the native inverse. *)
Definition secp256k1_fe_inv_var (a : secp256k1_fe) : secp256k1_fe := secp256k1_fe_inv a.

(** [r[i] = r[i - 1] * a[i]] from the element before on. *)
Fixpoint inv_products (prev : secp256k1_fe) (a : list secp256k1_fe) : list secp256k1_fe :=
  match a with
  | [] => []
  | x :: a => let r := secp256k1_fe_mul prev x in r :: inv_products r a
  end.

(** The way back, on the reversed products and elements: the inverses of the
    elements from the last on, and the inverse of the first one. *)
Fixpoint inv_back (u : secp256k1_fe) (r a : list secp256k1_fe) : list secp256k1_fe * secp256k1_fe :=
  match r, a with
  | ri :: r, aj :: a =>
      let rj := secp256k1_fe_mul ri u in
      let u := secp256k1_fe_mul u aj in
      let '(l, u) := inv_back u r a in (rj :: l, u)
  | _, _ => ([], u)
  end.

Definition secp256k1_fe_inv_all_var (a : list secp256k1_fe) : list secp256k1_fe :=
  match a with
  | [] => []
  | a0 :: rest =>
      let r := rev (a0 :: inv_products a0 rest) in
      let u := secp256k1_fe_inv_var (List.hd a0 r) in
      let '(l, u) := inv_back u (List.tl r) (rev rest) in
      u :: rev l
  end.
