(* ===== verification/FieldSpec.v ===== *)
(** * The field operations of secp256k1 compute in the field

    Every operation on limbs keeps the bounds of [secp256k1_fe_verify], within
    which nothing overflows, and computes modulo [field_p]. *)

From S2P Require Import Prelude.
From S2P Require Import FieldPrime.
From S2P Require Import FieldImpl.
From S2P Require Import Prime.
From Stdlib Require Import Setoid Morphisms.
From Stdlib Require ZmodInv.

Definition fval (a : secp256k1_fe) : Z := n0 a + 2 ^ 52 * n1 a + 2 ^ 104 * n2 a + 2 ^ 156 * n3 a + 2 ^ 208 * n4 a.

(** The bounds of [secp256k1_fe_verify]. *)
Record magnitude (m : Z) (a : secp256k1_fe) : Prop := mk_magnitude {
  mag0 : 0 <= n0 a <= M52 * (2 * m); mag1 : 0 <= n1 a <= M52 * (2 * m); mag2 : 0 <= n2 a <= M52 * (2 * m);
  mag3 : 0 <= n3 a <= M52 * (2 * m); mag4 : 0 <= n4 a <= M48 * (2 * m) }.

Lemma split52 (x : Z) : 0 <= x -> x = 2 ^ 52 * Z.shiftr x 52 + Z.land x 0xFFFFFFFFFFFFF /\ 0 <= Z.land x 0xFFFFFFFFFFFFF < 2 ^ 52 /\ 0 <= Z.shiftr x 52.
Proof.
  intros Hx. change 0xFFFFFFFFFFFFF with (Z.ones 52). rewrite Z.land_ones, Z.shiftr_div_pow2 by lia. pose proof (Z.div_mod x (2 ^ 52) ltac:(lia)).
  pose proof (Z.mod_pos_bound x (2 ^ 52) ltac:(lia)). pose proof (Z.div_pos x (2 ^ 52) Hx ltac:(lia)). lia.
Qed.

Lemma split48 (x : Z) : 0 <= x -> x = 2 ^ 48 * Z.shiftr x 48 + Z.land x 0xFFFFFFFFFFFF /\ 0 <= Z.land x 0xFFFFFFFFFFFF < 2 ^ 48 /\ 0 <= Z.shiftr x 48.
Proof.
  intros Hx. change 0xFFFFFFFFFFFF with (Z.ones 48). rewrite Z.land_ones, Z.shiftr_div_pow2 by lia. pose proof (Z.div_mod x (2 ^ 48) ltac:(lia)).
  pose proof (Z.mod_pos_bound x (2 ^ 48) ltac:(lia)). pose proof (Z.div_pos x (2 ^ 48) Hx ltac:(lia)). lia.
Qed.

(** The next [let] of an equation becomes a variable with its equation. *)
Ltac let_step H E :=
  lazymatch type of H with
  | ?r = (let x := ?e in @?k x) =>
      let v := fresh x in pose (v := e); assert (v = e) as E by reflexivity; change (r = k v) in H; cbv beta in H; clearbody v
  end.

Ltac let_inline H := lazymatch type of H with ?r = (let x := ?e in @?k x) => change (r = k e) in H; cbv beta in H end.

Lemma shift_or (x y : Z) : 0 <= x < 2 ^ 56 -> 0 <= y < 16 -> Z.lor (u64 (Z.shiftl x 4)) y = 16 * x + y.
Proof.
  intros Hx Hy. rewrite wrap_small by (rewrite Z.shiftl_mul_pow2; lia). rewrite Z.lor_comm, lor_add_pow2 by lia. lia.
Qed.

Lemma s64_small (x : Z) : - 2 ^ 63 <= x < 2 ^ 63 -> s64 x = x.
Proof. intros H. unfold swrap. rewrite Z.mod_small; lia. Qed.

Lemma shift_or_signed (x y : Z) : 0 <= x < 2 ^ 56 -> 0 <= y < 16 -> Z.lor (s64 (Z.shiftl x 4)) y = 16 * x + y.
Proof. intros Hx Hy. rewrite <- (shift_or x y) by done. f_equal. rewrite s64_small, wrap_small by (rewrite Z.shiftl_mul_pow2; lia). done. Qed.

(** The wrapping of what fits and the parts of limbs, in one step. *)
Ltac name_parts x b m lem :=
  let D := fresh "D" in let L := fresh "L" in let G := fresh "G" in destruct (lem x ltac:(lia)) as (D & L & G);
  let l := fresh "lo" in let h := fresh "hi" in set (l := Z.land x m) in *; set (h := Z.shiftr x b) in *; clearbody h l.
Ltac limb_step H :=
  let E := fresh "E" in let_step H E;
  repeat match type of E with
  | context [Z.land ?x 0xFFFFFFFFFFFFF] => name_parts x 52 0xFFFFFFFFFFFFF split52
  | context [Z.shiftr ?x 52] => name_parts x 52 0xFFFFFFFFFFFFF split52
  | context [Z.shiftr ?x 48] => name_parts x 48 0xFFFFFFFFFFFF split48
  | context [Z.lor (u64 (Z.shiftl ?x 4)) ?y] => rewrite (shift_or x y) in E by lia
  | context [Z.lor (s64 (Z.shiftl ?x 4)) ?y] => rewrite (shift_or_signed x y) in E by lia
  | context [s64 ?e] => rewrite (s64_small e) in E by lia
  | context [wrap ?w ?e] => rewrite (wrap_small w e) in E by lia
  end.
Ltac limb_steps n H := do n limb_step H.

Lemma product_bound (x y a b : Z) : 0 <= x <= a -> 0 <= y <= b -> 0 <= x * y <= a * b.
Proof. nia. Qed.

Ltac name_product x y := 
  let p := fresh "p" in let B := fresh "B" in
  match goal with Hx : 0 <= x <= ?a |- _ => match goal with Hy : 0 <= y <= ?b |- _ =>
    let c := eval vm_compute in (a * b) in assert (0 <= x * y <= c) as B by (apply (product_bound x y a b Hx Hy)) end end;
  set (p := x * y) in *; clearbody p.

Ltac name_double x e F :=
  assert (u64 (x * 2) = x * 2) as F by (apply wrap_small; lia);
  match goal with Hx : 0 <= x <= ?a |- _ => let c := eval vm_compute in (a * 2) in assert (0 <= u64 (x * 2) <= c) by lia end;
  set (e := u64 (x * 2)) in *; clearbody e.

Lemma mul_inner_val (a b : secp256k1_fe) : magnitude 8 a -> magnitude 8 b ->
  fval (secp256k1_fe_mul_inner a b) ==p fval a * fval b /\ magnitude 1 (secp256k1_fe_mul_inner a b).
Proof.
  destruct a as [a0 a1 a2 a3 a4], b as [b0 b1 b2 b3 b4]. intros [A0 A1 A2 A3 A4] [B0 B1 B2 B3 B4]. cbn [n0 n1 n2 n3 n4] in *.
  remember (secp256k1_fe_mul_inner (mk_fe a0 a1 a2 a3 a4) (mk_fe b0 b1 b2 b3 b4)) as r eqn:H.
  cbv beta iota delta [secp256k1_fe_mul_inner n0 n1 n2 n3 n4] in H.
  assert (fval (mk_fe a0 a1 a2 a3 a4) * fval (mk_fe b0 b1 b2 b3 b4) = a0 * b0 + 2 ^ 52 * (a0 * b1 + a1 * b0) + 2 ^ 104 * (a0 * b2 + a1 * b1 + a2 * b0) +
    2 ^ 156 * (a0 * b3 + a1 * b2 + a2 * b1 + a3 * b0) + 2 ^ 208 * (a0 * b4 + a1 * b3 + a2 * b2 + a3 * b1 + a4 * b0) +
    2 ^ 260 * (a1 * b4 + a2 * b3 + a3 * b2 + a4 * b1) + 2 ^ 312 * (a2 * b4 + a3 * b3 + a4 * b2) + 2 ^ 364 * (a3 * b4 + a4 * b3) + 2 ^ 416 * (a4 * b4)) as ->.
  { unfold fval. cbn [n0 n1 n2 n3 n4]. ring. }
  do 12 let_inline H. unfold M52, M48 in A0, A1, A2, A3, A4, B0, B1, B2, B3, B4. cbn [Z.mul Pos.mul Pos.add Pos.succ Pos.add_carry] in A0, A1, A2, A3, A4, B0, B1, B2, B3, B4.
  name_product a0 b0. name_product a0 b1. name_product a0 b2. name_product a0 b3. name_product a0 b4.
  name_product a1 b0. name_product a1 b1. name_product a1 b2. name_product a1 b3. name_product a1 b4.
  name_product a2 b0. name_product a2 b1. name_product a2 b2. name_product a2 b3. name_product a2 b4.
  name_product a3 b0. name_product a3 b1. name_product a3 b2. name_product a3 b3. name_product a3 b4.
  name_product a4 b0. name_product a4 b1. name_product a4 b2. name_product a4 b3. name_product a4 b4.
  clear A0 A1 A2 A3 A4 B0 B1 B2 B3 B4 a0 a1 a2 a3 a4 b0 b1 b2 b3 b4.
  change (Z.shiftr 0xFFFFFFFFFFFFF 4) with 0xFFFFFFFFFFFF in H. change (Z.shiftr 0x1000003D10 4) with 0x1000003D1 in H.
  repeat limb_step H. subst r. split; [|split; cbn [n0 n1 n2 n3 n4]; unfold M52, M48; lia].
  rewrite <- (eqp_multiple (fval _) (16 * (2 ^ 156 * lo + 2 ^ 208 * c0 + 2 ^ 52 * lo5 + 2 ^ 104 * lo7 + 2 ^ 156 * d10) + u1)).
  apply eqp_of_eq. unfold fval, field_p. cbn [n0 n1 n2 n3 n4]. lia.
Qed.

Lemma sqr_inner_val (a : secp256k1_fe) : magnitude 8 a -> fval (secp256k1_fe_sqr_inner a) ==p fval a * fval a /\ magnitude 1 (secp256k1_fe_sqr_inner a).
Proof.
  destruct a as [a0 a1 a2 a3 a4]. intros [A0 A1 A2 A3 A4]. cbn [n0 n1 n2 n3 n4] in *.
  remember (secp256k1_fe_sqr_inner (mk_fe a0 a1 a2 a3 a4)) as r eqn:H. cbv beta iota delta [secp256k1_fe_sqr_inner n0 n1 n2 n3 n4] in H.
  do 7 let_inline H. unfold M52, M48 in A0, A1, A2, A3, A4. name_double a0 e0 F0. name_double a1 e1 F1. name_double a2 e2 F2. name_double a4 e4 F4.
  assert (fval (mk_fe a0 a1 a2 a3 a4) * fval (mk_fe a0 a1 a2 a3 a4) = a0 * a0 + 2 ^ 52 * (e0 * a1) + 2 ^ 104 * (e0 * a2 + a1 * a1) + 2 ^ 156 * (e0 * a3 + e1 * a2) +
    2 ^ 208 * (a0 * e4 + e1 * a3 + a2 * a2) + 2 ^ 260 * (a1 * e4 + e2 * a3) + 2 ^ 312 * (a2 * e4 + a3 * a3) + 2 ^ 364 * (a3 * e4) + 2 ^ 416 * (a4 * a4)) as ->.
  { unfold fval. cbn [n0 n1 n2 n3 n4]. rewrite F0, F1, F2, F4. ring. }
  change (Z.shiftr 0xFFFFFFFFFFFFF 4) with 0xFFFFFFFFFFFF in H. change (Z.shiftr 0x1000003D10 4) with 0x1000003D1 in H.
  name_product e0 a3. name_product e1 a2. name_product a4 a4. limb_step H. limb_step H. limb_step H. limb_step H. limb_step H. limb_step H. let_inline H.
  name_product a0 e4. name_product e1 a3. name_product a2 a2. name_product a0 a0. name_product a1 e4. name_product e2 a3.
  name_product a2 e4. name_product a3 a3. name_product a1 a1. name_product a3 e4.
  do 14 limb_step H. let_inline H. name_product e0 a1. name_product e0 a2. repeat limb_step H. subst r. split; [|split; cbn [n0 n1 n2 n3 n4]; unfold M52, M48; lia].
  rewrite <- (eqp_multiple (fval _) (16 * (2 ^ 156 * lo + 2 ^ 208 * c0 + 2 ^ 52 * lo5 + 2 ^ 104 * lo7 + 2 ^ 156 * d10) + u1)).
  apply eqp_of_eq. unfold fval, field_p. cbn [n0 n1 n2 n3 n4]. lia.
Qed.

Lemma fe_mul_spec (a b : secp256k1_fe) : magnitude 8 a -> magnitude 8 b -> fval (secp256k1_fe_mul a b) ==p fval a * fval b /\ magnitude 1 (secp256k1_fe_mul a b).
Proof. apply mul_inner_val. Qed.

Lemma fe_sqr_spec (a : secp256k1_fe) : magnitude 8 a -> fval (secp256k1_fe_sqr a) ==p fval a * fval a /\ magnitude 1 (secp256k1_fe_sqr a).
Proof. apply sqr_inner_val. Qed.

(** ** Small operations *)

Lemma magnitude_weaken (m m' : Z) (a : secp256k1_fe) : magnitude m a -> m <= m' -> magnitude m' a.
Proof. intros [A0 A1 A2 A3 A4] H. unfold M52, M48 in *. split; unfold M52, M48; lia. Qed.

Ltac fe_bounds := intros; repeat match goal with H : magnitude _ _ |- _ => destruct H end; unfold M52, M48 in *; cbn [n0 n1 n2 n3 n4].

Lemma fe_add_spec (a b : secp256k1_fe) (m m' : Z) : magnitude m a -> magnitude m' b -> m + m' <= 2048 ->
  fval (secp256k1_fe_add a b) = fval a + fval b /\ magnitude (m + m') (secp256k1_fe_add a b).
Proof.
  fe_bounds. unfold secp256k1_fe_add. rewrite !wrap_small by lia. split; [unfold fval; cbn [n0 n1 n2 n3 n4]; lia|split; cbn [n0 n1 n2 n3 n4]; unfold M52, M48; lia].
Qed.

Lemma fe_mul_int_spec (a : secp256k1_fe) (m k : Z) : magnitude m a -> 0 <= k <= 32 -> m * k <= 2048 ->
  fval (secp256k1_fe_mul_int a k) = k * fval a /\ magnitude (m * k) (secp256k1_fe_mul_int a k).
Proof.
  fe_bounds. unfold secp256k1_fe_mul_int. assert (forall x B, 0 <= x <= B * (2 * m) -> 0 <= B <= 2 ^ 52 - 1 -> 0 <= x * k <= B * (2 * (m * k)) /\ x * k < 2 ^ 64) as Hk by (intros; nia).
  rewrite !wrap_small by (split; [|eapply Hk; [eassumption|lia]]; nia). split; [unfold fval; cbn [n0 n1 n2 n3 n4]; ring|]. split; cbn [n0 n1 n2 n3 n4]; unfold M52, M48; apply Hk; assumption || lia.
Qed.

Lemma fe_negate_spec (a : secp256k1_fe) (m : Z) : magnitude m a -> 0 <= m < 2000 -> fval (secp256k1_fe_negate a m) ==p - fval a /\ magnitude (m + 1) (secp256k1_fe_negate a m).
Proof.
  fe_bounds. unfold secp256k1_fe_negate, M52, M48. rewrite !wrap_small by lia. split; [|split; cbn [n0 n1 n2 n3 n4]; unfold M52, M48; lia].
  rewrite <- (eqp_multiple (- fval a) (2 * (m + 1))). apply eqp_of_eq. unfold fval, field_p. cbn [n0 n1 n2 n3 n4]. lia.
Qed.

Lemma fe_set_int_spec (k : Z) : 0 <= k <= 1000 -> fval (secp256k1_fe_set_int k) = k /\ magnitude 1 (secp256k1_fe_set_int k).
Proof. intros H. split; [unfold fval; cbn [n0 n1 n2 n3 n4 secp256k1_fe_set_int]; lia|split; cbn [n0 n1 n2 n3 n4 secp256k1_fe_set_int]; unfold M52, M48; lia]. Qed.

(** ** Normalisation *)

(** Limbs with the carries done. *)
Record carried (a : secp256k1_fe) : Prop := mk_carried {
  car0 : 0 <= n0 a < 2 ^ 52; car1 : 0 <= n1 a < 2 ^ 52; car2 : 0 <= n2 a < 2 ^ 52; car3 : 0 <= n3 a < 2 ^ 52; car4 : 0 <= n4 a < 2 ^ 49 }.

Lemma carry_limbs_spec (t0 t1 t2 t3 t4 : Z) : 0 <= t0 < 2 ^ 64 -> 0 <= t1 < 2 ^ 64 - 2 ^ 13 -> 0 <= t2 < 2 ^ 64 - 2 ^ 13 -> 0 <= t3 < 2 ^ 64 - 2 ^ 13 -> 0 <= t4 <= 2 ^ 48 + 2 ^ 13 ->
  let r := carry_limbs t0 t1 t2 t3 t4 in carried r /\ n4 r <= t4 + 2 ^ 12 /\ fval r = t0 + 2 ^ 52 * t1 + 2 ^ 104 * t2 + 2 ^ 156 * t3 + 2 ^ 208 * t4.
Proof.
  intros T0 T1 T2 T3 T4 r. remember r as x eqn:H. unfold r in H. clear r. cbv beta delta [carry_limbs M52] in H. 
  do 8 limb_step H. subst x. split; [split; cbn [n0 n1 n2 n3 n4]; lia|]. unfold fval. cbn [n0 n1 n2 n3 n4]. lia.
Qed.

Lemma first_pass_spec (a : secp256k1_fe) (m : Z) : magnitude m a -> 0 <= m <= 2000 ->
  carried (first_pass a) /\ n4 (first_pass a) < 2 ^ 48 + 2 ^ 12 + 2 ^ 12 /\ fval (first_pass a) ==p fval a.
Proof.
  fe_bounds. unfold first_pass. cbv zeta. destruct (split48 (n4 a) ltac:(lia)) as (D & L & G). unfold M48. set (x := Z.shiftr (n4 a) 48) in *. set (t4 := Z.land (n4 a) _) in *.
  rewrite !wrap_small by (rewrite ?wrap_small; lia). destruct (carry_limbs_spec (n0 a + x * 4294968273) (n1 a) (n2 a) (n3 a) t4) as (C & N & V); [lia..|].
  split; [exact C|]. split; [lia|]. rewrite V. rewrite <- (eqp_multiple _ x). apply eqp_of_eq. unfold fval, field_p. lia.
Qed.

Lemma fval_carried (t : secp256k1_fe) : carried t -> 0 <= fval t < 2 ^ 257.
Proof. intros []. unfold fval. lia. Qed.

Lemma land_full (k x y : Z) : 0 <= k -> 0 <= x < 2 ^ k -> 0 <= y < 2 ^ k -> Z.land x y = 2 ^ k - 1 <-> x = 2 ^ k - 1 /\ y = 2 ^ k - 1.
Proof.
  intros Hk Hx Hy. replace (2 ^ k - 1) with (Z.ones k) by (rewrite Z.ones_equiv; lia). split.
  - intros E. assert (forall i, 0 <= i < k -> Z.testbit x i = true /\ Z.testbit y i = true) as Hi.
    { intros i Hi. apply andb_prop. rewrite <- Z.land_spec, E. by apply Z.ones_spec_low. }
    split; apply Z.bits_inj'; intros i H0; destruct (Z.ltb_spec i k) as [H|H].
    + rewrite Z.ones_spec_low by lia. by apply Hi.
    + rewrite Z.ones_spec_high by lia. apply (testbit_high k); [done|by right].
    + rewrite Z.ones_spec_low by lia. by apply Hi.
    + rewrite Z.ones_spec_high by lia. apply (testbit_high k); [done|by right].
  - intros [-> ->]. apply Z.land_diag.
Qed.

Lemma land_le (k x y : Z) : 0 <= k -> 0 <= x < 2 ^ k -> 0 <= y < 2 ^ k -> 0 <= Z.land x y < 2 ^ k.
Proof. intros. apply land_range; lia. Qed.

Lemma land3_full (x y z : Z) : 0 <= x < 2 ^ 52 -> 0 <= y < 2 ^ 52 -> 0 <= z < 2 ^ 52 -> (Z.land (Z.land x y) z = M52 <-> x = M52 /\ y = M52 /\ z = M52).
Proof.
  intros Hx Hy Hz. change M52 with (2 ^ 52 - 1). rewrite land_full by (done || by apply land_le). rewrite land_full by done. tauto.
Qed.

(** The final reduction is made exactly when it is needed. *)
Lemma final_x_spec (t : secp256k1_fe) : carried t -> final_x t = if field_p <=? fval t then 1 else 0.
Proof.
  intros [C0 C1 C2 C3 C4]. unfold final_x. cbv zeta. destruct (split48 (n4 t) ltac:(lia)) as (D & L & G). set (x := Z.shiftr (n4 t) 48) in *. 
  pose proof (land3_full _ _ _ C1 C2 C3) as F. assert (x = 0 \/ x = 1) as [Hx|Hx] by lia; rewrite Hx in *.
  - rewrite Z.lor_0_l. assert (n4 t <= M48) by (unfold M48; lia). unfold fval, field_p. destruct (Z.eqb_spec (n4 t) M48) as [E4|E4].
    + destruct (Z.eqb_spec (Z.land (Z.land (n1 t) (n2 t)) (n3 t)) M52) as [E|E].
      * apply F in E as (E1 & E2 & E3). unfold M52, M48 in *. cbn [Z.b2z]. change (Z.land 1 1) with 1. rewrite E1, E2, E3, E4.
        destruct (Z.leb_spec 4503595332402223 (n0 t)), (Z.leb_spec (2 ^ 256 - 2 ^ 32 - 977) (n0 t + 2 ^ 52 * 4503599627370495 + 2 ^ 104 * 4503599627370495 + 2 ^ 156 * 4503599627370495 + 2 ^ 208 * 281474976710655)); try lia; done.
      * cbn [Z.b2z]. rewrite Z.land_0_r, Z.land_0_l. destruct (Z.leb_spec (2 ^ 256 - 2 ^ 32 - 977) (n0 t + 2 ^ 52 * n1 t + 2 ^ 104 * n2 t + 2 ^ 156 * n3 t + 2 ^ 208 * n4 t)) as [Hle|Hle]; [|done].
        exfalso. apply E, F. unfold M52, M48 in *. lia.
    + cbn [Z.b2z]. rewrite !Z.land_0_l. destruct (Z.leb_spec (2 ^ 256 - 2 ^ 32 - 977) (n0 t + 2 ^ 52 * n1 t + 2 ^ 104 * n2 t + 2 ^ 156 * n3 t + 2 ^ 208 * n4 t)); [|done]. unfold M48 in *. lia.
  - rewrite (proj2 (Z.eqb_neq (n4 t) M48)) by (unfold M48; lia). cbn [Z.b2z]. rewrite !Z.land_0_l, Z.lor_0_r. unfold fval, field_p.
    rewrite (proj2 (Z.leb_le _ _)) by lia. done.
Qed.

(** The canonical form. *)
Record normalized (a : secp256k1_fe) : Prop := mk_normalized {
  norm0 : 0 <= n0 a < 2 ^ 52; norm1 : 0 <= n1 a < 2 ^ 52; norm2 : 0 <= n2 a < 2 ^ 52; norm3 : 0 <= n3 a < 2 ^ 52; norm4 : 0 <= n4 a < 2 ^ 48;
  norm_val : fval a < field_p }.

Lemma normalized_magnitude (a : secp256k1_fe) : normalized a -> magnitude 1 a.
Proof. intros []. split; unfold M52, M48; lia. Qed.

Lemma normalized_range (a : secp256k1_fe) : normalized a -> fval a mod field_p = fval a.
Proof. intros []. apply Z.mod_small. unfold fval, field_p in *. lia. Qed.

Lemma carried_normalized (t : secp256k1_fe) : carried t -> fval t < field_p -> normalized t.
Proof. intros [] H. split; try assumption. unfold fval, field_p in H. lia. Qed.

Lemma fe_eta (t : secp256k1_fe) : mk_fe (n0 t) (n1 t) (n2 t) (n3 t) (n4 t) = t.
Proof. by destruct t. Qed.

(** Both ways of the final reduction. *)
Lemma final_reduction (t : secp256k1_fe) : carried t -> n4 t < 2 ^ 48 + 2 ^ 13 -> field_p <= fval t ->
  let s := carry_limbs (n0 t + 0x1000003D1) (n1 t) (n2 t) (n3 t) (n4 t) in
  let r := mk_fe (n0 s) (n1 s) (n2 s) (n3 s) (Z.land (n4 s) M48) in normalized r /\ fval r ==p fval t.
Proof.
  intros [C0 C1 C2 C3 C4] H4 Hp s r. destruct (carry_limbs_spec (n0 t + 4294968273) (n1 t) (n2 t) (n3 t) (n4 t)) as ([S0 S1 S2 S3 S4] & N & V); [lia..|]. fold s in S0, S1, S2, S3, S4, N, V.
  destruct (split48 (n4 s) ltac:(lia)) as (D & L & G). set (x := Z.shiftr (n4 s) 48) in *. assert (fval s = fval t + 4294968273) as E by (rewrite V; unfold fval; lia).
  assert (x = 1) as Hx by (unfold fval, field_p in *; lia). assert (fval r = fval t - field_p) as Er.
  { unfold fval, r, M48 in *. cbn [n0 n1 n2 n3 n4]. unfold field_p. lia. }
  split; [split; cbn [n0 n1 n2 n3 n4]; try assumption; rewrite Er; unfold fval, field_p; lia|]. rewrite <- (eqp_multiple _ 1), Er. apply eqp_of_eq. lia.
Qed.

Lemma fe_normalize_var_spec (a : secp256k1_fe) (m : Z) : magnitude m a -> 0 <= m <= 2000 -> normalized (secp256k1_fe_normalize_var a) /\ fval (secp256k1_fe_normalize_var a) ==p fval a.
Proof.
  intros Ha Hm. destruct (first_pass_spec a m Ha Hm) as (C & N & V). unfold secp256k1_fe_normalize_var. cbv zeta. set (t := first_pass a) in *. clearbody t. rewrite (final_x_spec t C).
  destruct (Z.leb_spec field_p (fval t)) as [H|H]; cbn [negb Z.eqb]; [|by split; [apply carried_normalized|]].
  rewrite wrap_small by (destruct C; lia). destruct (final_reduction t C ltac:(lia) H) as [R E]. split; [exact R|]. by rewrite E.
Qed.

Lemma fe_normalize_spec (a : secp256k1_fe) (m : Z) : magnitude m a -> 0 <= m <= 2000 -> normalized (secp256k1_fe_normalize a) /\ fval (secp256k1_fe_normalize a) ==p fval a.
Proof.
  intros Ha Hm. destruct (first_pass_spec a m Ha Hm) as (C & N & V). unfold secp256k1_fe_normalize. cbv zeta. set (t := first_pass a) in *. clearbody t. rewrite (final_x_spec t C).
  destruct (Z.leb_spec field_p (fval t)) as [H|H].
  - rewrite !wrap_small by (rewrite ?wrap_small; destruct C; lia). destruct (final_reduction t C ltac:(lia) H) as [R E]. split; [exact R|]. by rewrite E.
  - rewrite Z.mul_0_l, (wrap_small 64 0), Z.add_0_r, wrap_small by (destruct C; lia). destruct (carried_normalized t C H) as [A0 A1 A2 A3 A4 _].
    destruct (carry_limbs_spec (n0 t) (n1 t) (n2 t) (n3 t) (n4 t)) as (Cs & _ & Vs); [lia..|]. set (s := carry_limbs _ _ _ _ _) in *. destruct Cs as [S0 S1 S2 S3 S4]. clearbody s.
    assert (n0 s = n0 t /\ n1 s = n1 t /\ n2 s = n2 t /\ n3 s = n3 t /\ n4 s = n4 t) as (-> & -> & -> & -> & ->) by (unfold fval in Vs; lia).
    replace (Z.land (n4 t) M48) with (n4 t) by (unfold M48; destruct (split48 (n4 t) ltac:(lia)); lia).
    rewrite fe_eta. split; [by apply carried_normalized|exact V].
Qed.

Lemma fe_normalize_weak_spec (a : secp256k1_fe) (m : Z) : magnitude m a -> 0 <= m <= 2000 -> magnitude 1 (secp256k1_fe_normalize_weak a) /\ fval (secp256k1_fe_normalize_weak a) ==p fval a.
Proof.
  intros Ha Hm. destruct (first_pass_spec a m Ha Hm) as ([] & N & V). split; [|exact V]. unfold secp256k1_fe_normalize_weak. split; unfold M52, M48; lia.
Qed.

(** *** Zero *)

Lemma lor5_zero (a b c d e : Z) : 0 <= a -> 0 <= b -> 0 <= c -> 0 <= d -> 0 <= e -> Z.lor (Z.lor (Z.lor (Z.lor a b) c) d) e = 0 <-> a = 0 /\ b = 0 /\ c = 0 /\ d = 0 /\ e = 0.
Proof. intros. rewrite !Z.lor_eq_0_iff. tauto. Qed.

Lemma xor_is (x y z : Z) : Z.lxor x y = z <-> x = Z.lxor z y.
Proof. split; [intros <-|intros ->]; by rewrite Z.lxor_assoc, Z.lxor_nilpotent, Z.lxor_0_r. Qed.

(** The limbs of [0] and of the modulus are the only ones that stand for zero. *)
Lemma carried_zero (t : secp256k1_fe) : carried t -> n4 t < 2 ^ 48 + 2 ^ 13 ->
  (fval t ==p 0 <-> (n0 t = 0 /\ n1 t = 0 /\ n2 t = 0 /\ n3 t = 0 /\ n4 t = 0) \/
    (n0 t = 0xFFFFEFFFFFC2F /\ n1 t = M52 /\ n2 t = M52 /\ n3 t = M52 /\ n4 t = M48)).
Proof.
  intros [C0 C1 C2 C3 C4] H. rewrite eqp_0. unfold M52, M48. split.
  - intros [k Hk]. assert (k = 0 \/ k = 1) as [-> | ->] by (unfold fval, field_p in Hk; lia); unfold fval, field_p in Hk; [left|right]; lia.
  - intros [(E0 & E1 & E2 & E3 & E4)|(E0 & E1 & E2 & E3 & E4)]; [exists 0|exists 1]; unfold fval, field_p; lia.
Qed.

Lemma zero_test (t : secp256k1_fe) : carried t -> n4 t < 2 ^ 48 + 2 ^ 13 ->
  (Z.lor (Z.lor (Z.lor (Z.lor (n0 t) (n1 t)) (n2 t)) (n3 t)) (n4 t) =? 0) ||
    (Z.land (Z.land (Z.land (Z.land (Z.lxor (n0 t) 0x1000003D0) (n1 t)) (n2 t)) (n3 t)) (Z.lxor (n4 t) 0xF000000000000) =? M52) = true <-> fval t ==p 0.
Proof.
  intros C H. rewrite (carried_zero t C H). destruct C as [C0 C1 C2 C3 C4]. rewrite orb_true_iff, !Z.eqb_eq, lor5_zero by lia.
  assert (0 <= Z.lxor (n0 t) 4294968272 < 2 ^ 52) by (apply lxor_range; lia). assert (0 <= Z.lxor (n4 t) 4222124650659840 < 2 ^ 52) by (apply lxor_range; lia).
  change M52 with (2 ^ 52 - 1). rewrite !land_full by first [assumption | lia | repeat (apply land_le; [lia| |]); assumption]. rewrite (xor_is (n0 t)), (xor_is (n4 t)).
  change (Z.lxor (2 ^ 52 - 1) 4294968272) with 0xFFFFEFFFFFC2F. change (Z.lxor (2 ^ 52 - 1) 4222124650659840) with M48. tauto.
Qed.

Lemma fe_normalizes_to_zero_spec (a : secp256k1_fe) (m : Z) : magnitude m a -> 0 <= m <= 2000 -> secp256k1_fe_normalizes_to_zero a = true <-> fval a ==p 0.
Proof.
  intros Ha Hm. destruct (first_pass_spec a m Ha Hm) as (C & N & V). unfold secp256k1_fe_normalizes_to_zero. cbv zeta. rewrite zero_test by (exact C || lia). by rewrite V.
Qed.

Lemma land_first (x r : Z) : 0 <= x < 2 ^ 52 -> Z.land x r = M52 -> x = M52.
Proof.
  intros Hx H. apply Z.bits_inj'. intros i Hi. change M52 with (Z.ones 52) in *. destruct (Z.ltb_spec i 52) as [H5|H5].
  - rewrite Z.ones_spec_low by lia. assert (Z.testbit (Z.land x r) i = true) as E by (rewrite H; apply Z.ones_spec_low; lia). rewrite Z.land_spec in E. by apply andb_prop in E as [E _].
  - rewrite Z.ones_spec_high by lia. apply (testbit_high 52); [exact Hx|by right].
Qed.

(** The variant with an early exit gives the same answer. *)
Lemma fe_zero_var_same (a : secp256k1_fe) (m : Z) : magnitude m a -> 0 <= m <= 2000 -> secp256k1_fe_normalizes_to_zero_var a = secp256k1_fe_normalizes_to_zero a.
Proof.
  intros Ha Hm. destruct (first_pass_spec a m Ha Hm) as ([C0 _ _ _ _] & _ & _). unfold secp256k1_fe_normalizes_to_zero_var, secp256k1_fe_normalizes_to_zero.
  unfold first_pass, carry_limbs in *. cbv zeta in *. cbn [n0 n1 n2 n3 n4] in *. set (t0 := u64 (n0 a + u64 (Z.shiftr (n4 a) 48 * 4294968273))) in *.
  destruct (Z.eqb_spec (Z.land t0 M52) 0) as [E|E]; [done|]. destruct (Z.eqb_spec (Z.lxor (Z.land t0 M52) 4294968272) M52) as [F|F]; [done|]. cbn [negb andb]. symmetry.
  apply orb_false_iff. split; apply Z.eqb_neq; intros H; [apply E; rewrite !Z.lor_eq_0_iff in H; tauto|]. apply F. rewrite <- !Z.land_assoc in H. apply land_first in H; [exact H|].
  apply lxor_range; lia.
Qed.

Lemma fe_zero_var_spec (a : secp256k1_fe) (m : Z) : magnitude m a -> 0 <= m <= 2000 -> secp256k1_fe_normalizes_to_zero_var a = true <-> fval a ==p 0.
Proof. intros Ha Hm. rewrite (fe_zero_var_same a m Ha Hm). by apply (fe_normalizes_to_zero_spec a m). Qed.

Lemma fe_difference (a b : secp256k1_fe) (m : Z) : magnitude 1 a -> magnitude m b -> 0 <= m <= 1000 ->
  magnitude (2 + m) (secp256k1_fe_add (secp256k1_fe_negate a 1) b) /\ (fval (secp256k1_fe_add (secp256k1_fe_negate a 1) b) ==p 0 <-> fval a ==p fval b).
Proof.
  intros Ha Hb Hm. destruct (fe_negate_spec a 1 Ha ltac:(lia)) as [V N]. destruct (fe_add_spec _ b (1 + 1) m N Hb ltac:(lia)) as [E M]. split; [exact M|]. rewrite E, V.
  split; intros H.
  - symmetry. transitivity (fval a + (- fval a + fval b)); [apply eqp_of_eq; lia|]. rewrite H. apply eqp_of_eq. lia.
  - rewrite <- H. apply eqp_of_eq. lia.
Qed.

Lemma fe_equal_spec (a b : secp256k1_fe) (m : Z) : magnitude 1 a -> magnitude m b -> 0 <= m <= 1000 -> secp256k1_fe_equal a b = true <-> fval a ==p fval b.
Proof. intros Ha Hb Hm. destruct (fe_difference a b m Ha Hb Hm) as [M E]. rewrite <- E. apply (fe_normalizes_to_zero_spec _ (2 + m)); [exact M|lia]. Qed.

Lemma fe_equal_var_spec (a b : secp256k1_fe) (m : Z) : magnitude 1 a -> magnitude m b -> 0 <= m <= 1000 -> secp256k1_fe_equal_var a b = true <-> fval a ==p fval b.
Proof. intros Ha Hb Hm. destruct (fe_difference a b m Ha Hb Hm) as [M E]. rewrite <- E. apply (fe_zero_var_spec _ (2 + m)); [exact M|lia]. Qed.

(** *** Moves, comparison and the packed form *)

Lemma cmov_limb_spec (r a flag : Z) : 0 <= r < 2 ^ 64 -> 0 <= a < 2 ^ 64 -> flag = 0 \/ flag = 1 ->
  cmov_limb (u64 (flag + 0xFFFFFFFFFFFFFFFF)) (u64 (Z.lnot (u64 (flag + 0xFFFFFFFFFFFFFFFF)))) r a = if flag =? 0 then r else a.
Proof.
  intros Hr Ha Hf. assert (forall x, 0 <= x < 2 ^ 64 -> Z.land x (Z.ones 64) = x) as Hfull by (intros x Hx; rewrite Z.land_ones, Z.mod_small by lia; done).
  unfold cmov_limb. destruct Hf as [-> | ->]; cbn [Z.eqb].
  - change (u64 (0 + 18446744073709551615)) with (Z.ones 64). change (u64 (Z.lnot (Z.ones 64))) with 0. by rewrite Z.land_0_r, Z.lor_0_r, Hfull.
  - change (u64 (1 + 18446744073709551615)) with 0. change (u64 (Z.lnot 0)) with (Z.ones 64). by rewrite Z.land_0_r, Z.lor_0_l, Hfull.
Qed.

(** Limbs of 64 bits, whatever they stand for. *)
Definition words (a : secp256k1_fe) : Prop := Forall (fun n => 0 <= n < 2 ^ 64) (limbs a).

Lemma mul_int_words (a : secp256k1_fe) (k : Z) : words (secp256k1_fe_mul_int a k).
Proof. unfold words, limbs. repeat constructor; apply Z.mod_pos_bound; lia. Qed.

Lemma magnitude_words (a : secp256k1_fe) (m : Z) : magnitude m a -> m <= 2048 -> words a.
Proof. intros [] Hm. unfold words, limbs, M52, M48 in *. repeat constructor; lia. Qed.

Lemma fe_cmov_spec (r a : secp256k1_fe) (flag : bool) : words r -> words a -> secp256k1_fe_cmov r a (Z.b2z flag) = if flag then a else r.
Proof.
  unfold words, limbs. rewrite !list.Forall_cons. intros (R0 & R1 & R2 & R3 & R4 & _) (A0 & A1 & A2 & A3 & A4 & _). unfold secp256k1_fe_cmov. cbv zeta.
  rewrite !cmov_limb_spec by (assumption || (destruct flag; [by right|by left])). destruct flag; apply fe_eta.
Qed.

Lemma fe_is_zero_spec (a : secp256k1_fe) : normalized a -> secp256k1_fe_is_zero a = true <-> fval a ==p 0.
Proof.
  intros Ha. unfold secp256k1_fe_is_zero. rewrite Z.eqb_eq. destruct (Ha) as [A0 A1 A2 A3 A4 Av]. rewrite lor5_zero by lia. unfold eqp. rewrite (normalized_range a Ha), (Z.mod_0_l field_p) by done. unfold fval. lia.
Qed.

Lemma fe_is_odd_spec (a : secp256k1_fe) : normalized a -> secp256k1_fe_is_odd a = fval a mod 2.
Proof.
  intros [A0 A1 A2 A3 A4 Av]. unfold secp256k1_fe_is_odd. change 1 with (Z.ones 1). rewrite Z.land_ones by lia. change (2 ^ 1) with 2. unfold fval.
  replace (n0 a + 2 ^ 52 * n1 a + 2 ^ 104 * n2 a + 2 ^ 156 * n3 a + 2 ^ 208 * n4 a) with (n0 a + (2 ^ 51 * n1 a + 2 ^ 103 * n2 a + 2 ^ 155 * n3 a + 2 ^ 207 * n4 a) * 2) by lia.
  by rewrite Z_mod_plus_full.
Qed.

Lemma fe_cmp_spec (a b : secp256k1_fe) : normalized a -> normalized b ->
  secp256k1_fe_cmp_var a b = match Z.compare (fval a) (fval b) with Lt => -1 | Eq => 0 | Gt => 1 end.
Proof.
  intros [A0 A1 A2 A3 A4 _] [B0 B1 B2 B3 B4 _]. unfold secp256k1_fe_cmp_var, limbs. cbn [rev app cmp_limbs].
  repeat match goal with |- context [?x <? ?y] => destruct (Z.ltb_spec x y) end; destruct (Z.compare_spec (fval a) (fval b)); unfold fval in *; lia || reflexivity.
Qed.

Ltac limb_bits i c :=
  let Hi := fresh in apply Z.bits_inj'; intros i Hi; change M52 with (Z.ones 52); destruct (Z.ltb_spec i c);
  repeat first [rewrite Z.land_spec | rewrite Z.lor_spec | rewrite Z.shiftr_spec by lia | rewrite Z.shiftl_spec by lia | rewrite testbit_wrap by lia | rewrite Z.testbit_ones_nonneg by lia | match goal with |- context [Z.testbit ?v (?j - ?k)] => rewrite (Z.testbit_neg_r v (j - k)) by lia end];
  repeat match goal with |- context [?x <? ?y] => destruct (Z.ltb_spec x y) end; cbn [andb orb];
  repeat match goal with
  | H : 0 <= ?v < 2 ^ ?k |- context [Z.testbit ?v ?j] => rewrite (testbit_high k v j H) by lia
  end; rewrite ?andb_true_r, ?andb_false_r, ?orb_false_r, ?orb_false_l; try reflexivity; try lia; f_equal; try lia.

Lemma storage_roundtrip (a : secp256k1_fe) : normalized a -> secp256k1_fe_from_storage (secp256k1_fe_to_storage a) = a.
Proof.
  intros [A0 A1 A2 A3 A4 _]. transitivity (mk_fe (n0 a) (n1 a) (n2 a) (n3 a) (n4 a)); [|apply fe_eta]. unfold secp256k1_fe_from_storage, secp256k1_fe_to_storage. cbn [s0 s1 s2 s3].
  f_equal; [limb_bits i 0|limb_bits i 12|limb_bits i 24|limb_bits i 36|limb_bits i 0].
Qed.

(** *** Bytes *)

Definition limb_of (N l : Z) : Z := (N / 2 ^ (52 * l)) mod 2 ^ 52.

Lemma limb_of_bit (N l b : Z) : 0 <= l -> 0 <= b -> Z.testbit (limb_of N l) b = (b <? 52) && Z.testbit N (52 * l + b).
Proof.
  intros Hl Hb. unfold limb_of. rewrite <- Z.shiftr_div_pow2 by lia. destruct (Z.ltb_spec b 52) as [H|H].
  - rewrite Z.mod_pow2_bits_low, Z.shiftr_spec by lia. cbn [andb]. f_equal. lia.
  - by rewrite Z.mod_pow2_bits_high by lia.
Qed.

Lemma mod_bit (N k i : Z) : 0 <= k -> Z.testbit (N mod 2 ^ k) i = (i <? k) && Z.testbit N i.
Proof. intros Hk. apply (testbit_wrap k N i Hk). Qed.

(** Bytes are digits of the number. *)
Lemma be_val_byte (b : list Z) (i : Z) : is_bytes b -> length b = 32%nat -> 0 <= i < 32 -> nth (Z.to_nat (31 - i)) b 0 = (be_val b / 2 ^ (8 * i)) mod 256.
Proof.
  intros Hb Hl Hi. unfold be_val. assert (length (rev b) = 32%nat) as Hlr by (by rewrite length_rev). assert (is_bytes (rev b)) as Hbr by (by apply Forall_rev).
  replace (Z.to_nat (31 - i)) with (length b - S (Z.to_nat i))%nat by lia. rewrite <- rev_nth by lia. replace i with (Z.of_nat (Z.to_nat i)) at 2 by lia.
  set (k := Z.to_nat i). assert (k < 32)%nat as Hk by lia. clearbody k. rewrite <- (take_drop k (rev b)) at 2. rewrite le_val_app. unfold zlen. rewrite length_take, Nat.min_l by lia.
  assert (is_bytes (take k (rev b))) as Ht by (by apply is_bytes_take). pose proof (le_val_bound _ Ht) as Hv. unfold zlen in Hv. rewrite length_take, Nat.min_l in Hv by lia.
  replace (2 ^ (8 * Z.of_nat k)) with (256 ^ Z.of_nat k) by (change 256 with (2 ^ 8); by rewrite <- Z.pow_mul_r by lia).
  rewrite (Z.mul_comm (256 ^ _)), Z.div_add, (Z.div_small (le_val _)) by lia. cbn [Z.add]. rewrite nth_lookup.
  destruct (lookup_lt_is_Some_2 (rev b) k ltac:(lia)) as [x Hx]. rewrite Hx, (drop_S (rev b) x k Hx). cbn [le_val default]. unfold is_bytes in Hbr. rewrite list.Forall_lookup in Hbr.
  specialize (Hbr k x Hx). unfold is_byte in Hbr. change (id x) with x. rewrite Z.add_0_l, (Z.mul_comm 256), Z_mod_plus_full, Z.mod_small by lia. done.
Qed.

Lemma nibbles_eq : nibbles = map (fun q => (Z.of_nat (q / 2), Z.of_nat (q mod 2))) (seq 0 64).
Proof. reflexivity. Qed.

Definition state_of (N : Z) (q : nat) : list Z := map (fun l => limb_of (N mod 2 ^ (4 * Z.of_nat q)) (Z.of_nat l)) (seq 0 5).

Lemma nibble_of_byte (b : list Z) (i j : Z) : is_bytes b -> length b = 32%nat -> 0 <= i < 32 -> j = 0 \/ j = 1 ->
  Z.land (Z.shiftr (nth (Z.to_nat (31 - i)) b 0) (4 * j)) 0xF = (be_val b / 2 ^ (8 * i + 4 * j)) mod 16.
Proof.
  intros Hb Hl Hi Hj. rewrite (be_val_byte b i Hb Hl Hi). change 15 with (Z.ones 4). change 16 with (2 ^ 4). change 256 with (2 ^ 8). set (N := be_val b).
  rewrite <- !Z.shiftr_div_pow2 by lia. apply Z.bits_inj'. intros k Hk. rewrite Z.land_spec, Z.shiftr_spec, !mod_bit, !Z.shiftr_spec, Z.testbit_ones_nonneg by lia.
  replace (k + 4 * j + 8 * i) with (k + (8 * i + 4 * j)) by lia. destruct (Z.ltb_spec k 4), (Z.ltb_spec (k + 4 * j) 8); cbn [andb]; rewrite ?andb_true_r, ?andb_false_r; done || lia.
Qed.

Lemma nibble_limbs (N : Z) (q l l0 s : Z) : 0 <= q -> 0 <= l -> 4 * q = 52 * l0 + s -> 0 <= s <= 48 -> 0 <= l0 ->
  limb_of (N mod 2 ^ (4 * (q + 1))) l = if l =? l0 then Z.lor (limb_of (N mod 2 ^ (4 * q)) l) (u64 (Z.shiftl ((N / 2 ^ (4 * q)) mod 16) s)) else limb_of (N mod 2 ^ (4 * q)) l.
Proof.
  intros Hq Hl E Hs Hl0. assert (exists t, s = 4 * t) as [t Ht] by (exists (q - 13 * l0); lia). change 16 with (2 ^ 4). rewrite <- (Z.shiftr_div_pow2 N) by lia.
  apply Z.bits_inj'. intros b Hb. destruct (Z.eqb_spec l l0) as [->|Hn].
  - rewrite Z.lor_spec, testbit_wrap, Z.shiftl_spec, !limb_of_bit, !mod_bit by lia. destruct (Z.ltb_spec b s) as [Hbs|Hbs].
    + rewrite (Z.testbit_neg_r _ (b - s)) by lia. rewrite !andb_false_r, orb_false_r. do 2 f_equal. destruct (Z.ltb_spec (52 * l0 + b) (4 * (q + 1))), (Z.ltb_spec (52 * l0 + b) (4 * q)); lia || done.
    + rewrite Z.shiftr_spec by lia. replace (b - s + 4 * q) with (52 * l0 + b) by lia.
      destruct (Z.ltb_spec b 52), (Z.ltb_spec (52 * l0 + b) (4 * (q + 1))), (Z.ltb_spec (52 * l0 + b) (4 * q)), (Z.ltb_spec b 64), (Z.ltb_spec (b - s) 4); try lia; cbn [andb orb]; rewrite ?orb_false_r; done.
  - rewrite !limb_of_bit, !mod_bit by lia. destruct (Z.ltb_spec b 52); [|done]. cbn [andb]. f_equal.
    destruct (Z.ltb_spec (52 * l + b) (4 * (q + 1))), (Z.ltb_spec (52 * l + b) (4 * q)); lia || done.
Qed.

Lemma set_fold (b : list Z) (q : nat) : is_bytes b -> length b = 32%nat -> (q <= 64)%nat ->
  fold_left (set_nibble b) (map (fun q => (Z.of_nat (q / 2), Z.of_nat (q mod 2))) (seq 0 q)) [0; 0; 0; 0; 0] = state_of (be_val b) q.
Proof.
  intros Hb Hl. induction q as [|q IH]; intros Hq.
  - cbn [seq map fold_left]. unfold state_of. change (2 ^ (4 * Z.of_nat 0)) with 1. rewrite Z.mod_1_r. reflexivity.
  - rewrite seq_S, map_app, fold_left_app, IH by lia. cbn [map fold_left Nat.add]. unfold set_nibble. pose proof (Nat.div_mod_eq q 2) as E. pose proof (Nat.mod_upper_bound q 2 ltac:(lia)) as Hm.
    rewrite nibble_of_byte by (done || lia). replace (8 * Z.of_nat (q / 2) + 4 * Z.of_nat (q mod 2)) with (4 * Z.of_nat q) by lia.
    set (l0 := 4 * Z.of_nat q / 52). set (s := (4 * Z.of_nat q) mod 52). assert (4 * Z.of_nat q = 52 * l0 + s) as Es by (apply Z.div_mod; lia). assert (0 <= s < 52) as Hs by (apply Z.mod_pos_bound; lia).
    assert (0 <= l0 < 5) as Hl0 by lia. assert (s <= 48) as Hs' by lia. clearbody l0 s. unfold state_of. replace (4 * Z.of_nat (S q)) with (4 * (Z.of_nat q + 1)) by lia.
    rewrite (map_ext _ _ (fun l => nibble_limbs (be_val b) (Z.of_nat q) (Z.of_nat l) l0 s ltac:(lia) ltac:(lia) Es ltac:(lia) ltac:(lia)) (seq 0 5)).
    assert (l0 = 0 \/ l0 = 1 \/ l0 = 2 \/ l0 = 3 \/ l0 = 4) as [-> |[-> |[-> |[-> | ->]]]] by lia; reflexivity.
Qed.

Lemma limb_of_sum (N : Z) : 0 <= N < 2 ^ 256 -> N = limb_of N 0 + 2 ^ 52 * limb_of N 1 + 2 ^ 104 * limb_of N 2 + 2 ^ 156 * limb_of N 3 + 2 ^ 208 * limb_of N 4 /\
  0 <= limb_of N 4 < 2 ^ 48 /\ forall l, 0 <= limb_of N l < 2 ^ 52.
Proof.
  intros HN. unfold limb_of. change (2 ^ (52 * 0)) with 1. change (2 ^ (52 * 1)) with (2 ^ 52). change (2 ^ (52 * 2)) with (2 ^ 52 * 2 ^ 52). change (2 ^ (52 * 3)) with (2 ^ 52 * 2 ^ 52 * 2 ^ 52).
  change (2 ^ (52 * 4)) with (2 ^ 52 * 2 ^ 52 * 2 ^ 52 * 2 ^ 52). rewrite Z.div_1_r, <- !Z.div_div by lia. split; [|split]; [| |intros l; apply Z.mod_pos_bound; lia].
  - pose proof (Z.div_mod N (2 ^ 52) ltac:(lia)). pose proof (Z.div_mod (N / 2 ^ 52) (2 ^ 52) ltac:(lia)). pose proof (Z.div_mod (N / 2 ^ 52 / 2 ^ 52) (2 ^ 52) ltac:(lia)).
    pose proof (Z.div_mod (N / 2 ^ 52 / 2 ^ 52 / 2 ^ 52) (2 ^ 52) ltac:(lia)). pose proof (Z.div_mod (N / 2 ^ 52 / 2 ^ 52 / 2 ^ 52 / 2 ^ 52) (2 ^ 52) ltac:(lia)).
    assert (N / 2 ^ 52 / 2 ^ 52 / 2 ^ 52 / 2 ^ 52 / 2 ^ 52 = 0) as E; [rewrite !Z.div_div by lia; apply Z.div_small; lia|]. rewrite E in *. lia.
  - split; [apply Z.mod_pos_bound; lia|]. rewrite Z.mod_small; rewrite !Z.div_div by lia; [apply Z.div_lt_upper_bound; lia|]. split; [apply Z.div_pos; lia|apply Z.div_lt_upper_bound; lia].
Qed.

Lemma be_val_32 (b : list Z) : is_bytes b -> length b = 32%nat -> 0 <= be_val b < 2 ^ 256.
Proof.
  intros Hb Hl. unfold be_val. pose proof (le_val_bound (rev b) ltac:(by apply Forall_rev)) as H. unfold zlen in H. rewrite length_rev, Hl in H. exact H.
Qed.

Lemma fe_set_b32_spec (b : list Z) : is_bytes b -> length b = 32%nat -> let '(r, ok) := secp256k1_fe_set_b32 b in
  fval r = be_val b /\ ok = (be_val b <? field_p) /\ (ok = true -> normalized r).
Proof.
  intros Hb Hl. unfold secp256k1_fe_set_b32. cbv zeta. rewrite nibbles_eq, set_fold by (done || lia). set (N := be_val b). assert (0 <= N < 2 ^ 256) as HN by (by apply be_val_32).
  unfold state_of. change (4 * Z.of_nat 64) with 256. rewrite (Z.mod_small N) by lia. unfold of_limbs. cbn [seq map nth Z.of_nat Pos.of_succ_nat Pos.succ]. destruct (limb_of_sum N HN) as (E & H4 & Hr).
  set (r := mk_fe _ _ _ _ _). assert (fval r = N) as Ev by (rewrite E; reflexivity). assert (carried r) as C by (split; [apply Hr..|change (n4 r) with (limb_of N 4); lia]).
  pose proof (final_x_spec r C) as F. unfold final_x in F. cbv zeta in F. replace (Z.shiftr (n4 r) 48) with 0 in F by (rewrite Z.shiftr_div_pow2 by lia; symmetry; apply Z.div_small; exact H4).
  rewrite Z.lor_0_l, Ev in F. split; [exact Ev|].
  assert (negb ((n4 r =? M48) && (Z.land (Z.land (n3 r) (n2 r)) (n1 r) =? M52) && (4503595332402223 <=? n0 r)) = (N <? field_p)) as Eok.
  { rewrite (Z.land_comm (n3 r)), (Z.land_comm _ (n1 r)), Z.land_assoc. rewrite Z.ltb_antisym. f_equal. revert F. 
    destruct (_ =? M48), (_ =? M52), (_ <=? n0 r), (field_p <=? N); cbn; done. }
  split; [exact Eok|]. rewrite Eok. intros H%Z.ltb_lt. apply carried_normalized; [exact C|lia].
Qed.

Lemma limb_bit (a : secp256k1_fe) (l s : Z) : normalized a -> 0 <= l < 5 -> 0 <= s -> nth (Z.to_nat l) (limbs a) 0 = limb_of (fval a) l.
Proof.
  intros Ha Hl Hs. assert (0 <= fval a < 2 ^ 256) as Hv by (destruct Ha; unfold fval, field_p in *; lia). destruct (limb_of_sum (fval a) Hv) as (E & H4 & Hr).
  pose proof (Hr 0). pose proof (Hr 1). pose proof (Hr 2). pose proof (Hr 3). destruct Ha. unfold fval in E at 1.
  assert (n0 a = limb_of (fval a) 0 /\ n1 a = limb_of (fval a) 1 /\ n2 a = limb_of (fval a) 2 /\ n3 a = limb_of (fval a) 3 /\ n4 a = limb_of (fval a) 4) as (E0 & E1 & E2 & E3 & E4) by lia.
  assert (l = 0 \/ l = 1 \/ l = 2 \/ l = 3 \/ l = 4) as [-> |[-> |[-> |[-> | ->]]]] by lia; assumption.
Qed.

Lemma get_byte (a : secp256k1_fe) (i : Z) : normalized a -> 0 <= i < 32 -> u8 (Z.lor (get_nibble a i 0) (get_nibble a i 1)) = (fval a / 2 ^ (8 * i)) mod 256.
Proof.
  intros Ha Hi. assert (forall j k, j = 0 \/ j = 1 -> 0 <= k -> Z.testbit (get_nibble a i j) k = (4 * j <=? k) && (k <? 4 * j + 4) && Z.testbit (fval a) (8 * i + k)) as Hn.
  { intros j k Hj Hk. unfold get_nibble. cbv zeta. set (l := (8 * i + 4 * j) / 52). set (s := (8 * i + 4 * j) mod 52). assert (8 * i + 4 * j = 52 * l + s) as E by (apply Z.div_mod; lia).
    assert (0 <= s < 52) as Hs by (apply Z.mod_pos_bound; lia). assert (0 <= l < 5) as Hl by lia. clearbody l s. rewrite (limb_bit a l s Ha Hl) by lia. change 15 with (Z.ones 4).
    rewrite Z.shiftl_spec by lia. destruct (Z.leb_spec (4 * j) k) as [H|H]; [|by rewrite Z.testbit_neg_r by lia].
    rewrite Z.land_spec, Z.shiftr_spec, Z.testbit_ones_nonneg, limb_of_bit by lia. replace (52 * l + (k - 4 * j + s)) with (8 * i + k) by lia.
    assert (exists t, s = 4 * t) as [t Ht] by (exists (2 * i + j - 13 * l); lia). destruct (Z.ltb_spec (k - 4 * j) 4), (Z.ltb_spec k (4 * j + 4)), (Z.ltb_spec (k - 4 * j + s) 52); try lia; cbn [andb]; by rewrite ?andb_true_r, ?andb_false_r. }
  change 256 with (2 ^ 8). rewrite <- Z.shiftr_div_pow2 by lia. apply Z.bits_inj'. intros k Hk. rewrite testbit_wrap, mod_bit, Z.shiftr_spec, Z.lor_spec, !Hn by (lia || auto).
  replace (k + 8 * i) with (8 * i + k) by lia. change (4 * 0) with 0. change (4 * 1) with 4.
  destruct (Z.ltb_spec k 8), (Z.leb_spec 0 k), (Z.leb_spec 4 k), (Z.ltb_spec k (0 + 4)), (Z.ltb_spec k (4 + 4)); try lia; cbn [andb orb]; by rewrite ?orb_false_r.
Qed.

Lemma le_bytes_map (n : nat) (v : Z) : le_bytes n v = map (fun i => (v / 256 ^ Z.of_nat i) mod 256) (seq 0 n).
Proof.
  revert v. induction n as [|n IH]; intros v; [done|]. cbn [le_bytes seq map]. f_equal; [by rewrite Z.div_1_r|]. rewrite IH, <- seq_shift, map_map. apply map_ext. intros i.
  rewrite Nat2Z.inj_succ, Z.pow_succ_r, Z.div_div by lia. done.
Qed.

Lemma fe_get_b32_spec (a : secp256k1_fe) : normalized a -> secp256k1_fe_get_b32 a = be_bytes 32 (fval a).
Proof.
  intros Ha. unfold be_bytes. rewrite le_bytes_map, <- map_rev. change (rev (seq 0 32)) with (map (fun k => 31 - k)%nat (seq 0 32)). rewrite map_map. unfold secp256k1_fe_get_b32.
  apply map_ext_in. intros k Hk%in_seq. cbv zeta. rewrite get_byte by (done || lia). change 256 with (2 ^ 8) at 2. rewrite <- Z.pow_mul_r by lia. do 3 f_equal. lia.
Qed.

(** ** Powers *)

Definition pow_of (v e : Z) (x : secp256k1_fe) : Prop := 0 <= e /\ fval x ==p v ^ e /\ magnitude 8 x.

Lemma pow_of_self (a : secp256k1_fe) : magnitude 8 a -> pow_of (fval a) 1 a.
Proof. intros H. split; [lia|]. split; [by rewrite Z.pow_1_r|exact H]. Qed.

Lemma pow_of_sqr (v e : Z) (x : secp256k1_fe) : pow_of v e x -> pow_of v (2 * e) (secp256k1_fe_sqr x).
Proof.
  intros (He & Hv & Hm). destruct (fe_sqr_spec x Hm) as [V M]. split; [lia|]. split; [|apply (magnitude_weaken 1); [exact M|lia]].
  rewrite V, Hv, <- Z.pow_add_r by lia. by replace (e + e) with (2 * e) by lia.
Qed.

Lemma pow_of_mul (v e f : Z) (x y : secp256k1_fe) : pow_of v e x -> pow_of v f y -> pow_of v (e + f) (secp256k1_fe_mul x y).
Proof.
  intros (He & Hv & Hm) (Hf & Hw & Hn). destruct (fe_mul_spec x y Hm Hn) as [V M]. split; [lia|]. split; [|apply (magnitude_weaken 1); [exact M|lia]].
  by rewrite V, Hv, Hw, <- Z.pow_add_r by lia.
Qed.

Lemma pow_of_times (v e : Z) (n : nat) (x : secp256k1_fe) : pow_of v e x -> pow_of v (2 ^ Z.of_nat n * e) (fe_sqr_times n x).
Proof.
  intros H. induction n as [|n IH]; [by rewrite Z.mul_1_l|]. rewrite Nat2Z.inj_succ, Z.pow_succ_r, <- Z.mul_assoc by lia. by apply pow_of_sqr.
Qed.

Lemma pow_of_eq (v e f : Z) (x : secp256k1_fe) : pow_of v e x -> e = f -> pow_of v f x.
Proof. by intros H <-. Qed.

#[local] Opaque secp256k1_fe_mul secp256k1_fe_sqr fe_sqr_times.

(** Names the power [x] that the chain has reached. *)
Ltac chain_step x P E T :=
  pose proof (pow_of_eq _ _ E _ T eq_refl) as P; match type of P with pow_of _ _ ?t => set (x := t) in *; clearbody x end.

Lemma chain_start_spec (a : secp256k1_fe) : magnitude 8 a -> let '(x2, x22, x223) := chain_start a in
  pow_of (fval a) (2 ^ 2 - 1) x2 /\ pow_of (fval a) (2 ^ 22 - 1) x22 /\ pow_of (fval a) (2 ^ 223 - 1) x223.
Proof.
  intros Ha. pose proof (pow_of_self a Ha) as P1. unfold chain_start. cbv zeta.
  chain_step x2 P2 (2 ^ 2 - 1) (pow_of_mul _ _ _ _ _ (pow_of_sqr _ _ _ P1) P1).
  chain_step x3 P3 (2 ^ 3 - 1) (pow_of_mul _ _ _ _ _ (pow_of_sqr _ _ _ P2) P1).
  chain_step x6 P6 (2 ^ 6 - 1) (pow_of_mul _ _ _ _ _ (pow_of_times _ _ 3 _ P3) P3).
  chain_step x9 P9 (2 ^ 9 - 1) (pow_of_mul _ _ _ _ _ (pow_of_times _ _ 3 _ P6) P3).
  chain_step x11 P11 (2 ^ 11 - 1) (pow_of_mul _ _ _ _ _ (pow_of_times _ _ 2 _ P9) P2).
  chain_step x22 P22 (2 ^ 22 - 1) (pow_of_mul _ _ _ _ _ (pow_of_times _ _ 11 _ P11) P11).
  chain_step x44 P44 (2 ^ 44 - 1) (pow_of_mul _ _ _ _ _ (pow_of_times _ _ 22 _ P22) P22).
  chain_step x88 P88 (2 ^ 88 - 1) (pow_of_mul _ _ _ _ _ (pow_of_times _ _ 44 _ P44) P44).
  chain_step x176 P176 (2 ^ 176 - 1) (pow_of_mul _ _ _ _ _ (pow_of_times _ _ 88 _ P88) P88).
  chain_step x220 P220 (2 ^ 220 - 1) (pow_of_mul _ _ _ _ _ (pow_of_times _ _ 44 _ P176) P44).
  chain_step x223 P223 (2 ^ 223 - 1) (pow_of_mul _ _ _ _ _ (pow_of_times _ _ 3 _ P220) P3). done.
Qed.

Lemma fe_inv_spec (a : secp256k1_fe) : magnitude 8 a -> fval (secp256k1_fe_inv a) ==p finv (fval a) /\ magnitude 1 (secp256k1_fe_inv a).
Proof.
  intros Ha. pose proof (pow_of_self a Ha) as P1. pose proof (chain_start_spec a Ha) as C. unfold secp256k1_fe_inv. destruct (chain_start a) as [[x2 x22] x223]. destruct C as (P2 & P22 & P223). cbv zeta.
  chain_step t1 T1 ((2 ^ 223 - 1) * 2 ^ 23 + (2 ^ 22 - 1)) (pow_of_mul _ _ _ _ _ (pow_of_times _ _ 23 _ P223) P22).
  chain_step t2 T2 (((2 ^ 223 - 1) * 2 ^ 23 + (2 ^ 22 - 1)) * 2 ^ 5 + 1) (pow_of_mul _ _ _ _ _ (pow_of_times _ _ 5 _ T1) P1).
  chain_step t3 T3 ((((2 ^ 223 - 1) * 2 ^ 23 + (2 ^ 22 - 1)) * 2 ^ 5 + 1) * 2 ^ 3 + 3) (pow_of_mul _ _ _ _ _ (pow_of_times _ _ 3 _ T2) P2).
  pose proof (pow_of_times _ _ 2 _ T3) as T4. pose proof (pow_of_eq _ _ (field_p - 2) _ (pow_of_mul _ _ _ _ _ P1 T4) eq_refl) as (_ & V & _).
  destruct (fe_mul_spec a (fe_sqr_times 2 t3) Ha ltac:(apply T4)) as [_ M]. split; [|exact M]. rewrite V. unfold finv. rewrite powmod_spec. by rewrite eqp_mod.
Qed.

Lemma fermat (x : Z) : x ^ field_p ==p x.
Proof.
  destruct (Z.eq_dec (x mod field_p) 0) as [E|E].
  - assert (x ==p 0) as -> by (unfold eqp; by rewrite E). rewrite Z.pow_0_l by done. done.
  - replace (x ^ field_p) with (x ^ (field_p - 1 + 1)) by (f_equal; lia). rewrite Z.pow_add_r, Z.pow_1_r by (unfold field_p; lia). assert (x ^ (field_p - 1) ==p 1) as ->; [|apply eqp_of_eq; lia].
    unfold eqp. by rewrite (ZmodInv.Z.fermat_nz field_p x prime_field E).
Qed.

(** The root is computed exactly for the squares. *)
Lemma fe_sqrt_spec (a : secp256k1_fe) : magnitude 8 a -> let '(r, ok) := secp256k1_fe_sqrt a in
  magnitude 1 r /\ (exists s, fval r ==p s * s) /\ (ok = true <-> fval r * fval r ==p fval a) /\ (ok = true <-> exists x, x * x ==p fval a).
Proof.
  intros Ha. pose proof (pow_of_self a Ha) as P1. pose proof (chain_start_spec a Ha) as C. unfold secp256k1_fe_sqrt. destruct (chain_start a) as [[x2 x22] x223]. destruct C as (P2 & P22 & P223). cbv zeta.
  chain_step t1 T1 ((2 ^ 223 - 1) * 2 ^ 23 + (2 ^ 22 - 1)) (pow_of_mul _ _ _ _ _ (pow_of_times _ _ 23 _ P223) P22).
  chain_step t2 T2 (((2 ^ 223 - 1) * 2 ^ 23 + (2 ^ 22 - 1)) * 2 ^ 6 + 3) (pow_of_mul _ _ _ _ _ (pow_of_times _ _ 6 _ T1) P2).
  chain_step t3 T3 ((field_p + 1) / 8) (pow_of_sqr _ _ _ T2). destruct (fe_sqr_spec t3 ltac:(apply T3)) as [_ M]. chain_step r T4 ((field_p + 1) / 4) (pow_of_sqr _ _ _ T3).
  destruct T4 as (_ & V & M8). destruct (fe_sqr_spec r M8) as [Vs Ms]. split; [exact M|]. split; [exists (fval a ^ ((field_p + 1) / 8)); rewrite V, <- Z.pow_add_r by done; done|].
  assert (secp256k1_fe_equal (secp256k1_fe_sqr r) a = true <-> fval r * fval r ==p fval a) as Eok by (rewrite (fe_equal_spec _ a 8 Ms Ha) by lia; by rewrite Vs).
  split; [exact Eok|]. rewrite Eok. split; [by exists (fval r)|]. intros [x Hx]. rewrite V, <- Hx, <- (Z.pow_2_r x), <- Z.pow_mul_r by done. rewrite <- Z.pow_add_r by done.
  change (2 * ((field_p + 1) / 4) + 2 * ((field_p + 1) / 4)) with (field_p + 1). rewrite Z.pow_add_r, Z.pow_1_r by done. rewrite fermat, Z.pow_2_r. done.
Qed.

(** *** Many inverses at once *)

#[local] Opaque finv.

Definition is_inverse (a r : secp256k1_fe) : Prop := fval r ==p finv (fval a) /\ magnitude 1 r.

Lemma products_snoc (a0 x : secp256k1_fe) (l : list secp256k1_fe) :
  inv_products a0 (l ++ [x]) = inv_products a0 l ++ [secp256k1_fe_mul (fold_left secp256k1_fe_mul l a0) x].
Proof. revert a0. induction l as [|y l IH]; intros a0; [done|]. cbn. by rewrite IH. Qed.

Lemma products_rev (a0 : secp256k1_fe) (l : list secp256k1_fe) :
  rev (a0 :: inv_products a0 l) = fold_left secp256k1_fe_mul l a0 :: tl (rev (a0 :: inv_products a0 l)).
Proof.
  destruct l as [|x l _] using rev_ind; [done|]. rewrite products_snoc, fold_left_app. cbn [fold_left]. rewrite app_comm_cons, rev_app_distr. done.
Qed.

Lemma products_val (a0 : secp256k1_fe) (l : list secp256k1_fe) : magnitude 8 a0 -> Forall (fun x => magnitude 8 x /\ ~ fval x ==p 0) l -> ~ fval a0 ==p 0 ->
  magnitude 8 (fold_left secp256k1_fe_mul l a0) /\ ~ fval (fold_left secp256k1_fe_mul l a0) ==p 0.
Proof.
  revert a0. induction l as [|x l IH]; intros a0 Ha Hl Hz; [done|]. apply list.Forall_cons in Hl as [[Hx Hxz] Hl]. cbn [fold_left]. destruct (fe_mul_spec a0 x Ha Hx) as [V M].
  apply IH; [apply (magnitude_weaken 1); [exact M|lia]|exact Hl|]. rewrite V. intros [H|H]%eqp_integral; tauto.
Qed.

Lemma inverse_mul (a b c i j : Z) : c * (a * b) ==p 1 -> i * a ==p 1 -> j * b ==p 1 -> c ==p i * j.
Proof.
  intros Hc Hi Hj. transitivity (c * ((i * a) * (j * b))); [rewrite Hi, Hj; apply eqp_of_eq; ring|]. transitivity ((c * (a * b)) * (i * j)); [apply eqp_of_eq; ring|].
  rewrite Hc. apply eqp_of_eq. ring.
Qed.

Lemma finv_mul (a b : Z) : ~ a ==p 0 -> ~ b ==p 0 -> finv (a * b) ==p finv a * finv b.
Proof. intros Ha Hb. apply (inverse_mul a b); apply finv_l; try assumption. intros [H|H]%eqp_integral; tauto. Qed.

Lemma cancel_l (i a j : Z) : i * a ==p 1 -> a * (i * j) ==p j.
Proof. intros H. transitivity ((i * a) * j); [apply eqp_of_eq; ring|]. rewrite H. apply eqp_of_eq. ring. Qed.

Lemma cancel_r (i j b : Z) : j * b ==p 1 -> (i * j) * b ==p i.
Proof. intros H. transitivity (i * (j * b)); [apply eqp_of_eq; ring|]. rewrite H. apply eqp_of_eq. ring. Qed.

Lemma inv_back_spec (a0 : secp256k1_fe) (Ha : magnitude 8 a0) (Hz : ~ fval a0 ==p 0) : forall l u, Forall (fun x => magnitude 8 x /\ ~ fval x ==p 0) l ->
  is_inverse (fold_left secp256k1_fe_mul l a0) u -> let '(r, u') := inv_back u (tl (rev (a0 :: inv_products a0 l))) (rev l) in Forall2 is_inverse l (rev r) /\ is_inverse a0 u'.
Proof.
  induction l as [|x l IH] using rev_ind; intros u Hl [Vu Mu]; [by split|]. apply Forall_app in Hl as [Hl Hx]. apply list.Forall_cons in Hx as [[Hx Hxz] _].
  destruct (products_val a0 l Ha Hl Hz) as [Pm Pz]. rewrite fold_left_app in Vu. cbn [fold_left] in Vu. set (P := fold_left secp256k1_fe_mul l a0) in *.
  rewrite products_snoc, app_comm_cons, !rev_app_distr. change (rev [x]) with [x]. pose proof (products_rev a0 l) as Er. fold P in Er. set (R := rev (a0 :: inv_products a0 l)) in *.
  clearbody R. fold P. change (rev [secp256k1_fe_mul P x]) with [secp256k1_fe_mul P x]. cbn [app tl tail]. rewrite Er. cbn [inv_back].
  assert (magnitude 8 u) as Mu8 by (apply (magnitude_weaken 1); [exact Mu|lia]). destruct (fe_mul_spec P x Pm Hx) as [Vp _]. destruct (fe_mul_spec P u Pm Mu8) as [V1 M1]. destruct (fe_mul_spec u x Mu8 Hx) as [V2 M2].
  rewrite Vu, Vp, (finv_mul _ _ Pz Hxz) in V1, V2.
  specialize (IH (secp256k1_fe_mul u x) Hl). destruct (inv_back _ _ _) as [r u']. assert (is_inverse P (secp256k1_fe_mul u x)) as Hu.
  - split; [|exact M2]. rewrite V2. by apply cancel_r, finv_l.
  - destruct (IH Hu) as [IH1 IH2]. split; [|exact IH2]. cbn [rev]. apply Forall2_app; [exact IH1|]. constructor; [|constructor]. split; [|exact M1]. rewrite V1. by apply cancel_l, finv_l.
Qed.

Lemma fe_inv_all_spec (a : list secp256k1_fe) : Forall (fun x => magnitude 8 x /\ ~ fval x ==p 0) a -> Forall2 is_inverse a (secp256k1_fe_inv_all_var a).
Proof.
  destruct a as [|a0 l]; intros H; [constructor|]. apply list.Forall_cons in H as [[Ha Hz] Hl]. unfold secp256k1_fe_inv_all_var. cbv zeta. pose proof (products_rev a0 l) as Er. set (R := rev (a0 :: inv_products a0 l)) in *. replace (hd a0 R) with (fold_left secp256k1_fe_mul l a0) by (by rewrite Er).
  destruct (products_val a0 l Ha Hl Hz) as [Pm Pz]. pose proof (inv_back_spec a0 Ha Hz l (secp256k1_fe_inv_var (fold_left secp256k1_fe_mul l a0)) Hl (fe_inv_spec _ Pm)) as B.
  destruct (inv_back _ _ _) as [r u]. destruct B as [B1 B2]. by constructor.
Qed.

(** ** The field *)

(** C18: within the bounds the code keeps (magnitude at most 8, limbs of a little
    over 55 bits) no operation on limbs loses a carry: products, squares, sums
    and negations stand for the results modulo the prime and stay bounded,
    both normalisations give the unique representative below the prime, and the
    zero tests decide whether the element is zero modulo the prime. *)
Theorem field_ops (a b : secp256k1_fe) : magnitude 8 a -> magnitude 8 b ->
  (fval (secp256k1_fe_mul a b) ==p fval a * fval b /\ magnitude 1 (secp256k1_fe_mul a b)) /\
  (fval (secp256k1_fe_sqr a) ==p fval a * fval a /\ magnitude 1 (secp256k1_fe_sqr a)) /\
  (fval (secp256k1_fe_add a b) = fval a + fval b /\ magnitude 16 (secp256k1_fe_add a b)) /\
  (fval (secp256k1_fe_negate a 8) ==p - fval a /\ magnitude 9 (secp256k1_fe_negate a 8)) /\
  (fval (secp256k1_fe_normalize_weak a) ==p fval a /\ magnitude 1 (secp256k1_fe_normalize_weak a)) /\
  (fval (secp256k1_fe_normalize a) = fval a mod field_p /\ normalized (secp256k1_fe_normalize a)) /\
  (fval (secp256k1_fe_normalize_var a) = fval a mod field_p /\ normalized (secp256k1_fe_normalize_var a)) /\
  (secp256k1_fe_normalizes_to_zero a = true <-> fval a mod field_p = 0) /\
  (secp256k1_fe_normalizes_to_zero_var a = true <-> fval a mod field_p = 0).
Proof.
  intros Ha Hb.
  destruct (fe_normalize_weak_spec a 8 Ha ltac:(lia)) as [W1 W2]. destruct (fe_normalize_spec a 8 Ha ltac:(lia)) as [N1 N2]. destruct (fe_normalize_var_spec a 8 Ha ltac:(lia)) as [V1 V2].
  pose proof (fe_normalizes_to_zero_spec a 8 Ha ltac:(lia)) as Z1. pose proof (fe_zero_var_spec a 8 Ha ltac:(lia)) as Z2. unfold eqp in Z1, Z2. rewrite Z.mod_0_l in Z1, Z2 by done.
  split; [by apply fe_mul_spec|]. split; [by apply fe_sqr_spec|]. split; [by apply (fe_add_spec a b 8 8)|]. split; [by apply (fe_negate_spec a 8)|].
  split; [by split|]. split; [split; [by rewrite <- (normalized_range _ N1)|exact N1]|]. split; [split; [by rewrite <- (normalized_range _ V1)|exact V1]|]. by split.
Qed.

(** The largest limbs of magnitude 8. *)
Definition largest : secp256k1_fe := mk_fe (16 * M52) (16 * M52) (16 * M52) (16 * M52) (16 * M48).

Lemma field_ops_witness : magnitude 8 largest /\ fval (secp256k1_fe_sqr largest) ==p fval largest * fval largest /\ fval (secp256k1_fe_normalize largest) = fval largest mod field_p.
Proof.
  assert (magnitude 8 largest) as H by (split; vm_compute; split; discriminate). destruct (field_ops largest largest H H) as (_ & [S _] & _ & _ & _ & [N _] & _). split; [exact H|]. split; [exact S|exact N].
Defined.

(** C19: the inverse is the inverse modulo the prime (zero for zero), the batch
    inversion gives it for every element of a list, and the root is a root, itself
    a square, exactly for the squares. *)
Theorem field_inverse_sqrt (a : secp256k1_fe) (l : list secp256k1_fe) : magnitude 8 a -> Forall (fun x => magnitude 8 x /\ ~ fval x ==p 0) l ->
  (~ fval a ==p 0 -> fval (secp256k1_fe_inv a) * fval a ==p 1) /\ (fval a ==p 0 -> fval (secp256k1_fe_inv a) ==p 0) /\
  Forall2 (fun x r => fval r * fval x ==p 1 /\ magnitude 1 r) l (secp256k1_fe_inv_all_var l) /\
  (exists s, fval (secp256k1_fe_sqrt a).1 ==p s * s) /\
  ((secp256k1_fe_sqrt a).2 = true <-> exists x, x * x ==p fval a) /\
  ((secp256k1_fe_sqrt a).2 = true <-> fval (secp256k1_fe_sqrt a).1 * fval (secp256k1_fe_sqrt a).1 ==p fval a).
Proof.
  intros Ha Hl. destruct (fe_inv_spec a Ha) as [V _]. split; [intros Hn; rewrite V; by apply finv_l|]. split; [intros E; by rewrite V, E|]. split.
  - pose proof (fe_inv_all_spec l Hl) as H. clear -H Hl. induction H as [|x r l rs [Vr Mr] H IH]; [constructor|]. apply list.Forall_cons in Hl as [[_ Hn] Hl]. constructor; [|by apply IH].
    split; [|exact Mr]. rewrite Vr. by apply finv_l.
  - pose proof (fe_sqrt_spec a Ha) as S. destruct (secp256k1_fe_sqrt a) as [r ok]. tauto.
Qed.

Lemma field_inverse_sqrt_witness : fval (secp256k1_fe_inv (mk_fe 4 0 0 0 0)) * fval (mk_fe 4 0 0 0 0) ==p 1 /\ (secp256k1_fe_sqrt (mk_fe 4 0 0 0 0)).2 = true.
Proof.
  assert (magnitude 8 (mk_fe 4 0 0 0 0)) as H by (split; vm_compute; split; discriminate). assert (~ fval (mk_fe 4 0 0 0 0) ==p 0) as Hn by (by vm_compute).
  destruct (field_inverse_sqrt (mk_fe 4 0 0 0 0) [mk_fe 4 0 0 0 0] H) as (I & _ & _ & _ & S & _); [by repeat constructor|]. split; [by apply I|]. apply S. exists 2. by vm_compute.
Defined.
