(* ===== verification/Group.v ===== *)
(** * group_impl.h and the public keys of eckey_impl.h: points of the curve

    A point is affine, [secp256k1_ge], or Jacobian, [secp256k1_gej], standing for
    [(x / z^2, y / z^3)].  The functions write through their first argument
    [r]; a branch that leaves coordinates of [r] alone takes them from the old
    [r], so that the same definitions describe calls in place.  What is stored
    through [rzr], the ratio of the [z] coordinates, is a second result, [None]
    where nothing is stored. *)

From S2P Require Import Prelude.
From S2P Require Import FieldPrime.
From S2P Require Import FieldImpl.

Record secp256k1_ge := mk_ge { ge_x : secp256k1_fe; ge_y : secp256k1_fe; ge_infinity : bool }.
Record secp256k1_gej := mk_gej { gej_x : secp256k1_fe; gej_y : secp256k1_fe; gej_z : secp256k1_fe; gej_infinity : bool }.
Record secp256k1_ge_storage := mk_ge_storage { ges_x : secp256k1_fe_storage; ges_y : secp256k1_fe_storage }.

(** The limbs of a constant from its eight words, the highest first. *)
Definition SECP256K1_FE_CONST (d7 d6 d5 d4 d3 d2 d1 d0 : Z) : secp256k1_fe :=
  mk_fe (Z.lor d0 (u64 (Z.shiftl (Z.land d1 0xFFFFF) 32)))
    (Z.lor (Z.lor (Z.shiftr d1 20) (u64 (Z.shiftl d2 12))) (u64 (Z.shiftl (Z.land d3 0xFF) 44)))
    (Z.lor (Z.shiftr d3 8) (u64 (Z.shiftl (Z.land d4 0xFFFFFFF) 24)))
    (Z.lor (Z.lor (Z.shiftr d4 28) (u64 (Z.shiftl d5 4))) (u64 (Z.shiftl (Z.land d6 0xFFFF) 36)))
    (Z.lor (Z.shiftr d6 16) (u64 (Z.shiftl d7 16))).

Definition secp256k1_ge_const_g : secp256k1_ge :=
  mk_ge (SECP256K1_FE_CONST 0x79BE667E 0xF9DCBBAC 0x55A06295 0xCE870B07 0x029BFCDB 0x2DCE28D9 0x59F2815B 0x16F81798)
    (SECP256K1_FE_CONST 0x483ADA77 0x26A3C465 0x5DA4FBFC 0x0E1108A8 0xFD17B448 0xA6855419 0x9C47D08F 0xFB10D4B8) false.

(** ** Conversions *)

Definition secp256k1_ge_set_gej_zinv (a : secp256k1_gej) (zi : secp256k1_fe) : secp256k1_ge :=
  let zi2 := secp256k1_fe_sqr zi in
  let zi3 := secp256k1_fe_mul zi2 zi in
  mk_ge (secp256k1_fe_mul (gej_x a) zi2) (secp256k1_fe_mul (gej_y a) zi3) (gej_infinity a).

Definition secp256k1_ge_set_xy (x y : secp256k1_fe) : secp256k1_ge := mk_ge x y false.

Definition secp256k1_ge_is_infinity (a : secp256k1_ge) : bool := ge_infinity a.

Definition secp256k1_ge_neg (a : secp256k1_ge) : secp256k1_ge :=
  mk_ge (ge_x a) (secp256k1_fe_negate (secp256k1_fe_normalize_weak (ge_y a)) 1) (ge_infinity a).

(** The affine point, and [a], which is scaled in place. *)
Definition secp256k1_ge_set_gej (a : secp256k1_gej) : secp256k1_ge * secp256k1_gej :=
  let z := secp256k1_fe_inv (gej_z a) in
  let z2 := secp256k1_fe_sqr z in
  let z3 := secp256k1_fe_mul z z2 in
  let x := secp256k1_fe_mul (gej_x a) z2 in
  let y := secp256k1_fe_mul (gej_y a) z3 in
  (mk_ge x y (gej_infinity a), mk_gej x y (secp256k1_fe_set_int 1) (gej_infinity a)).

Definition secp256k1_ge_set_gej_var (r : secp256k1_ge) (a : secp256k1_gej) : secp256k1_ge * secp256k1_gej :=
  if gej_infinity a then (mk_ge (ge_x r) (ge_y r) true, a) else
  let z := secp256k1_fe_inv_var (gej_z a) in
  let z2 := secp256k1_fe_sqr z in
  let z3 := secp256k1_fe_mul z z2 in
  let x := secp256k1_fe_mul (gej_x a) z2 in
  let y := secp256k1_fe_mul (gej_y a) z3 in
  (mk_ge x y (gej_infinity a), mk_gej x y (secp256k1_fe_set_int 1) (gej_infinity a)).

(** The second loop of [secp256k1_ge_set_all_gej_var], with the inverses that are left. *)
Fixpoint set_all_loop (r : list secp256k1_ge) (a : list secp256k1_gej) (azi : list secp256k1_fe) : list secp256k1_ge :=
  match r, a with
  | ri :: r, ai :: a =>
      if gej_infinity ai then mk_ge (ge_x ri) (ge_y ri) true :: set_all_loop r a azi
      else match azi with
           | zi :: azi => secp256k1_ge_set_gej_zinv ai zi :: set_all_loop r a azi
           | [] => []
           end
  | _, _ => []
  end.

Definition secp256k1_ge_set_all_gej_var (r : list secp256k1_ge) (a : list secp256k1_gej) : list secp256k1_ge :=
  let az := map gej_z (filter (fun ai => gej_infinity ai = false) a) in
  let azi := secp256k1_fe_inv_all_var az in
  set_all_loop r a azi.

(** The loops backwards over a table, on the reversed points and ratios: [zi]
    belongs to the point before. *)
Fixpoint table_back (zi : secp256k1_fe) (a : list secp256k1_gej) (zr : list secp256k1_fe) : list secp256k1_ge :=
  match a, zr with
  | ai :: a, zri :: zr => let zi := secp256k1_fe_mul zi zri in secp256k1_ge_set_gej_zinv ai zi :: table_back zi a zr
  | _, _ => []
  end.

Definition secp256k1_ge_set_table_gej_var (a : list secp256k1_gej) (zr : list secp256k1_fe) : list secp256k1_ge :=
  match rev a with
  | [] => []
  | ai :: a => let zi := secp256k1_fe_inv (gej_z ai) in rev (secp256k1_ge_set_gej_zinv ai zi :: table_back zi a (rev zr))
  end.

(** The table and the common [z]; the first ratio is used as it is. *)
Definition secp256k1_ge_globalz_set_table_gej (a : list secp256k1_gej) (zr : list secp256k1_fe) : list secp256k1_ge * option secp256k1_fe :=
  match rev a, rev zr with
  | ai :: a, zs :: zr =>
      let r := match a with
               | [] => []
               | aj :: a => secp256k1_ge_set_gej_zinv aj zs :: table_back zs a zr
               end in
      (rev (mk_ge (gej_x ai) (gej_y ai) false :: r), Some (gej_z ai))
  | _, _ => ([], None)
  end.

Definition secp256k1_gej_set_infinity : secp256k1_gej :=
  mk_gej (secp256k1_fe_set_int 0) (secp256k1_fe_set_int 0) (secp256k1_fe_set_int 0) true.
Definition secp256k1_gej_clear : secp256k1_gej := mk_gej secp256k1_fe_clear secp256k1_fe_clear secp256k1_fe_clear false.
Definition secp256k1_ge_clear : secp256k1_ge := mk_ge secp256k1_fe_clear secp256k1_fe_clear false.

Definition secp256k1_ge_set_xquad (x : secp256k1_fe) : secp256k1_ge * bool :=
  let x2 := secp256k1_fe_sqr x in
  let x3 := secp256k1_fe_mul x x2 in
  let c := secp256k1_fe_add (secp256k1_fe_set_int 7) x3 in
  let '(y, ok) := secp256k1_fe_sqrt c in
  (mk_ge x y false, ok).

Definition secp256k1_ge_set_xo_var (x : secp256k1_fe) (odd : Z) : secp256k1_ge * bool :=
  let '(r, ok) := secp256k1_ge_set_xquad x in
  if negb ok then (r, false) else
  let y := secp256k1_fe_normalize_var (ge_y r) in
  let y := if negb (secp256k1_fe_is_odd y =? odd) then secp256k1_fe_negate y 1 else y in
  (mk_ge (ge_x r) y (ge_infinity r), true).

Definition secp256k1_gej_set_ge (a : secp256k1_ge) : secp256k1_gej := mk_gej (ge_x a) (ge_y a) (secp256k1_fe_set_int 1) (ge_infinity a).

Definition secp256k1_gej_eq_x_var (x : secp256k1_fe) (a : secp256k1_gej) : bool :=
  let r := secp256k1_fe_mul (secp256k1_fe_sqr (gej_z a)) x in
  let r2 := secp256k1_fe_normalize_weak (gej_x a) in
  secp256k1_fe_equal_var r r2.

Definition secp256k1_gej_neg (a : secp256k1_gej) : secp256k1_gej :=
  mk_gej (gej_x a) (secp256k1_fe_negate (secp256k1_fe_normalize_weak (gej_y a)) 1) (gej_z a) (gej_infinity a).

Definition secp256k1_gej_is_infinity (a : secp256k1_gej) : bool := gej_infinity a.

Definition secp256k1_gej_is_valid_var (a : secp256k1_gej) : bool :=
  if gej_infinity a then false else
  let y2 := secp256k1_fe_sqr (gej_y a) in
  let x3 := secp256k1_fe_mul (secp256k1_fe_sqr (gej_x a)) (gej_x a) in
  let z2 := secp256k1_fe_sqr (gej_z a) in
  let z6 := secp256k1_fe_mul (secp256k1_fe_sqr z2) z2 in
  let z6 := secp256k1_fe_mul_int z6 7 in
  let x3 := secp256k1_fe_add x3 z6 in
  let x3 := secp256k1_fe_normalize_weak x3 in
  secp256k1_fe_equal_var y2 x3.

Definition secp256k1_ge_is_valid_var (a : secp256k1_ge) : bool :=
  if ge_infinity a then false else
  let y2 := secp256k1_fe_sqr (ge_y a) in
  let x3 := secp256k1_fe_mul (secp256k1_fe_sqr (ge_x a)) (ge_x a) in
  let x3 := secp256k1_fe_add x3 (secp256k1_fe_set_int 7) in
  let x3 := secp256k1_fe_normalize_weak x3 in
  secp256k1_fe_equal_var y2 x3.

(** ** Doubling and addition *)

Definition secp256k1_gej_double_var (r a : secp256k1_gej) : secp256k1_gej * option secp256k1_fe :=
  if gej_infinity a then (mk_gej (gej_x r) (gej_y r) (gej_z r) true, Some (secp256k1_fe_set_int 1)) else
  let rzr := secp256k1_fe_mul_int (secp256k1_fe_normalize_weak (gej_y a)) 2 in
  let z := secp256k1_fe_mul_int (secp256k1_fe_mul (gej_z a) (gej_y a)) 2 in
  let t1 := secp256k1_fe_mul_int (secp256k1_fe_sqr (gej_x a)) 3 in
  let t2 := secp256k1_fe_sqr t1 in
  let t3 := secp256k1_fe_mul_int (secp256k1_fe_sqr (gej_y a)) 2 in
  let t4 := secp256k1_fe_mul_int (secp256k1_fe_sqr t3) 2 in
  let t3 := secp256k1_fe_mul t3 (gej_x a) in
  let x := secp256k1_fe_mul_int t3 4 in
  let x := secp256k1_fe_negate x 4 in
  let x := secp256k1_fe_add x t2 in
  let t2 := secp256k1_fe_negate t2 1 in
  let t3 := secp256k1_fe_mul_int t3 6 in
  let t3 := secp256k1_fe_add t3 t2 in
  let y := secp256k1_fe_mul t1 t3 in
  let t2 := secp256k1_fe_negate t4 2 in
  let y := secp256k1_fe_add y t2 in
  (mk_gej x y z false, Some rzr).

Definition secp256k1_gej_double_nonzero (r a : secp256k1_gej) : secp256k1_gej * option secp256k1_fe := secp256k1_gej_double_var r a.

Definition secp256k1_gej_add_var (r a b : secp256k1_gej) : secp256k1_gej * option secp256k1_fe :=
  if gej_infinity a then (b, None) else
  if gej_infinity b then (a, Some (secp256k1_fe_set_int 1)) else
  let z22 := secp256k1_fe_sqr (gej_z b) in
  let z12 := secp256k1_fe_sqr (gej_z a) in
  let u1 := secp256k1_fe_mul (gej_x a) z22 in
  let u2 := secp256k1_fe_mul (gej_x b) z12 in
  let s1 := secp256k1_fe_mul (secp256k1_fe_mul (gej_y a) z22) (gej_z b) in
  let s2 := secp256k1_fe_mul (secp256k1_fe_mul (gej_y b) z12) (gej_z a) in
  let h := secp256k1_fe_add (secp256k1_fe_negate u1 1) u2 in
  let i := secp256k1_fe_add (secp256k1_fe_negate s1 1) s2 in
  if secp256k1_fe_normalizes_to_zero_var h then
    if secp256k1_fe_normalizes_to_zero_var i then secp256k1_gej_double_var (mk_gej (gej_x r) (gej_y r) (gej_z r) false) a
    else (mk_gej (gej_x r) (gej_y r) (gej_z r) true, Some (secp256k1_fe_set_int 0))
  else
  let i2 := secp256k1_fe_sqr i in
  let h2 := secp256k1_fe_sqr h in
  let h3 := secp256k1_fe_mul h h2 in
  let h := secp256k1_fe_mul h (gej_z b) in
  let rzr := h in
  let z := secp256k1_fe_mul (gej_z a) h in
  let t := secp256k1_fe_mul u1 h2 in
  let x := secp256k1_fe_mul_int t 2 in let x := secp256k1_fe_add x h3 in
  let x := secp256k1_fe_negate x 3 in let x := secp256k1_fe_add x i2 in
  let y := secp256k1_fe_negate x 5 in let y := secp256k1_fe_add y t in let y := secp256k1_fe_mul y i in
  let h3 := secp256k1_fe_mul h3 s1 in let h3 := secp256k1_fe_negate h3 1 in
  let y := secp256k1_fe_add y h3 in
  (mk_gej x y z false, Some rzr).

Definition secp256k1_gej_add_ge_var (r a : secp256k1_gej) (b : secp256k1_ge) : secp256k1_gej * option secp256k1_fe :=
  if gej_infinity a then (secp256k1_gej_set_ge b, None) else
  if ge_infinity b then (a, Some (secp256k1_fe_set_int 1)) else
  let z12 := secp256k1_fe_sqr (gej_z a) in
  let u1 := secp256k1_fe_normalize_weak (gej_x a) in
  let u2 := secp256k1_fe_mul (ge_x b) z12 in
  let s1 := secp256k1_fe_normalize_weak (gej_y a) in
  let s2 := secp256k1_fe_mul (secp256k1_fe_mul (ge_y b) z12) (gej_z a) in
  let h := secp256k1_fe_add (secp256k1_fe_negate u1 1) u2 in
  let i := secp256k1_fe_add (secp256k1_fe_negate s1 1) s2 in
  if secp256k1_fe_normalizes_to_zero_var h then
    if secp256k1_fe_normalizes_to_zero_var i then secp256k1_gej_double_var (mk_gej (gej_x r) (gej_y r) (gej_z r) false) a
    else (mk_gej (gej_x r) (gej_y r) (gej_z r) true, Some (secp256k1_fe_set_int 0))
  else
  let i2 := secp256k1_fe_sqr i in
  let h2 := secp256k1_fe_sqr h in
  let h3 := secp256k1_fe_mul h h2 in
  let rzr := h in
  let z := secp256k1_fe_mul (gej_z a) h in
  let t := secp256k1_fe_mul u1 h2 in
  let x := secp256k1_fe_mul_int t 2 in let x := secp256k1_fe_add x h3 in
  let x := secp256k1_fe_negate x 3 in let x := secp256k1_fe_add x i2 in
  let y := secp256k1_fe_negate x 5 in let y := secp256k1_fe_add y t in let y := secp256k1_fe_mul y i in
  let h3 := secp256k1_fe_mul h3 s1 in let h3 := secp256k1_fe_negate h3 1 in
  let y := secp256k1_fe_add y h3 in
  (mk_gej x y z false, Some rzr).

Definition secp256k1_gej_add_zinv_var (r a : secp256k1_gej) (b : secp256k1_ge) (bzinv : secp256k1_fe) : secp256k1_gej :=
  if ge_infinity b then a else
  if gej_infinity a then
    let bzinv2 := secp256k1_fe_sqr bzinv in
    let bzinv3 := secp256k1_fe_mul bzinv2 bzinv in
    mk_gej (secp256k1_fe_mul (ge_x b) bzinv2) (secp256k1_fe_mul (ge_y b) bzinv3) (secp256k1_fe_set_int 1) (ge_infinity b)
  else
  let az := secp256k1_fe_mul (gej_z a) bzinv in
  let z12 := secp256k1_fe_sqr az in
  let u1 := secp256k1_fe_normalize_weak (gej_x a) in
  let u2 := secp256k1_fe_mul (ge_x b) z12 in
  let s1 := secp256k1_fe_normalize_weak (gej_y a) in
  let s2 := secp256k1_fe_mul (secp256k1_fe_mul (ge_y b) z12) az in
  let h := secp256k1_fe_add (secp256k1_fe_negate u1 1) u2 in
  let i := secp256k1_fe_add (secp256k1_fe_negate s1 1) s2 in
  if secp256k1_fe_normalizes_to_zero_var h then
    if secp256k1_fe_normalizes_to_zero_var i then (secp256k1_gej_double_var (mk_gej (gej_x r) (gej_y r) (gej_z r) false) a).1
    else mk_gej (gej_x r) (gej_y r) (gej_z r) true
  else
  let i2 := secp256k1_fe_sqr i in
  let h2 := secp256k1_fe_sqr h in
  let h3 := secp256k1_fe_mul h h2 in
  let z := secp256k1_fe_mul (gej_z a) h in
  let t := secp256k1_fe_mul u1 h2 in
  let x := secp256k1_fe_mul_int t 2 in let x := secp256k1_fe_add x h3 in
  let x := secp256k1_fe_negate x 3 in let x := secp256k1_fe_add x i2 in
  let y := secp256k1_fe_negate x 5 in let y := secp256k1_fe_add y t in let y := secp256k1_fe_mul y i in
  let h3 := secp256k1_fe_mul h3 s1 in let h3 := secp256k1_fe_negate h3 1 in
  let y := secp256k1_fe_add y h3 in
  mk_gej x y z false.

(** Without branches on the points, for an affine [b] other than infinity. *)
Definition secp256k1_gej_add_ge (a : secp256k1_gej) (b : secp256k1_ge) : secp256k1_gej :=
  let fe_1 := SECP256K1_FE_CONST 0 0 0 0 0 0 0 1 in
  let zz := secp256k1_fe_sqr (gej_z a) in
  let u1 := secp256k1_fe_normalize_weak (gej_x a) in
  let u2 := secp256k1_fe_mul (ge_x b) zz in
  let s1 := secp256k1_fe_normalize_weak (gej_y a) in
  let s2 := secp256k1_fe_mul (ge_y b) zz in
  let s2 := secp256k1_fe_mul s2 (gej_z a) in
  let t := secp256k1_fe_add u1 u2 in
  let m := secp256k1_fe_add s1 s2 in
  let rr := secp256k1_fe_sqr t in
  let m_alt := secp256k1_fe_negate u2 1 in
  let tt := secp256k1_fe_mul u1 m_alt in
  let rr := secp256k1_fe_add rr tt in
  let degenerate := secp256k1_fe_normalizes_to_zero m && secp256k1_fe_normalizes_to_zero rr in
  let rr_alt := secp256k1_fe_mul_int s1 2 in
  let m_alt := secp256k1_fe_add m_alt u1 in
  let rr_alt := secp256k1_fe_cmov rr_alt rr (Z.b2z (negb degenerate)) in
  let m_alt := secp256k1_fe_cmov m_alt m (Z.b2z (negb degenerate)) in
  let n := secp256k1_fe_sqr m_alt in
  let q := secp256k1_fe_mul n t in
  let n := secp256k1_fe_sqr n in
  let n := secp256k1_fe_cmov n m (Z.b2z degenerate) in
  let t := secp256k1_fe_sqr rr_alt in
  let z := secp256k1_fe_mul (gej_z a) m_alt in
  let infinity := secp256k1_fe_normalizes_to_zero z && negb (gej_infinity a) in
  let z := secp256k1_fe_mul_int z 2 in
  let q := secp256k1_fe_negate q 1 in
  let t := secp256k1_fe_add t q in
  let t := secp256k1_fe_normalize_weak t in
  let x := t in
  let t := secp256k1_fe_mul_int t 2 in
  let t := secp256k1_fe_add t q in
  let t := secp256k1_fe_mul t rr_alt in
  let t := secp256k1_fe_add t n in
  let y := secp256k1_fe_negate t 3 in
  let y := secp256k1_fe_normalize_weak y in
  let x := secp256k1_fe_mul_int x 4 in
  let y := secp256k1_fe_mul_int y 4 in
  let x := secp256k1_fe_cmov x (ge_x b) (Z.b2z (gej_infinity a)) in
  let y := secp256k1_fe_cmov y (ge_y b) (Z.b2z (gej_infinity a)) in
  let z := secp256k1_fe_cmov z fe_1 (Z.b2z (gej_infinity a)) in
  mk_gej x y z infinity.

Definition secp256k1_gej_rescale (r : secp256k1_gej) (s : secp256k1_fe) : secp256k1_gej :=
  let zz := secp256k1_fe_sqr s in
  mk_gej (secp256k1_fe_mul (gej_x r) zz) (secp256k1_fe_mul (secp256k1_fe_mul (gej_y r) zz) s) (secp256k1_fe_mul (gej_z r) s) (gej_infinity r).

(** ** Storage *)

Definition secp256k1_ge_to_storage (a : secp256k1_ge) : secp256k1_ge_storage :=
  let x := secp256k1_fe_normalize (ge_x a) in
  let y := secp256k1_fe_normalize (ge_y a) in
  mk_ge_storage (secp256k1_fe_to_storage x) (secp256k1_fe_to_storage y).

Definition secp256k1_ge_from_storage (a : secp256k1_ge_storage) : secp256k1_ge :=
  mk_ge (secp256k1_fe_from_storage (ges_x a)) (secp256k1_fe_from_storage (ges_y a)) false.

Definition secp256k1_ge_storage_cmov (r a : secp256k1_ge_storage) (flag : Z) : secp256k1_ge_storage :=
  mk_ge_storage (secp256k1_fe_storage_cmov (ges_x r) (ges_x a) flag) (secp256k1_fe_storage_cmov (ges_y r) (ges_y a) flag).

(** Without a number library the residue test is the root. *)
Definition secp256k1_fe_is_quad_var (a : secp256k1_fe) : bool := (secp256k1_fe_sqrt a).2.

Definition secp256k1_gej_has_quad_y_var (a : secp256k1_gej) : bool :=
  if gej_infinity a then false else secp256k1_fe_is_quad_var (secp256k1_fe_mul (gej_y a) (gej_z a)).

(** ** Public keys *)

Definition secp256k1_eckey_pubkey_parse (pub : list Z) : option secp256k1_ge :=
  let b0 := nth 0 pub 0 in
  if (zlen pub =? 33) && ((b0 =? 2) || (b0 =? 3)) then
    let '(x, ok) := secp256k1_fe_set_b32 (take 32 (drop 1 pub)) in
    if negb ok then None else
    let '(elem, ok) := secp256k1_ge_set_xo_var x (Z.b2z (b0 =? 3)) in
    if ok then Some elem else None
  else if (zlen pub =? 65) && ((b0 =? 4) || (b0 =? 6) || (b0 =? 7)) then
    let '(x, okx) := secp256k1_fe_set_b32 (take 32 (drop 1 pub)) in
    let '(y, oky) := secp256k1_fe_set_b32 (take 32 (drop 33 pub)) in
    if negb okx || negb oky then None else
    let elem := secp256k1_ge_set_xy x y in
    if ((b0 =? 6) || (b0 =? 7)) && negb (secp256k1_fe_is_odd y =? Z.b2z (b0 =? 7)) then None else
    if secp256k1_ge_is_valid_var elem then Some elem else None
  else None.

(** The bytes, and the element, which is normalised in place. *)
Definition secp256k1_eckey_pubkey_serialize (elem : secp256k1_ge) (compressed : bool) : option (list Z * secp256k1_ge) :=
  if secp256k1_ge_is_infinity elem then None else
  let x := secp256k1_fe_normalize_var (ge_x elem) in
  let y := secp256k1_fe_normalize_var (ge_y elem) in
  let pub := if compressed
             then Z.lor 2 (if negb (secp256k1_fe_is_odd y =? 0) then 1 else 0) :: secp256k1_fe_get_b32 x
             else 4 :: secp256k1_fe_get_b32 x ++ secp256k1_fe_get_b32 y in
  Some (pub, mk_ge x y (ge_infinity elem)).
