(* ===== verification/GroupSpec.v ===== *)
(** * The point operations compute the group law of the curve

    [padd] is the addition of points by chord and tangent on coordinates modulo
    [field_p].  A Jacobian point represents an affine one, [gej_rep]; every
    addition of group_impl.h represents the sum of what its arguments represent. *)

From S2P Require Import Prelude.
From S2P Require Import FieldPrime.
From S2P Require Import FieldImpl.
From S2P Require Import FieldSpec.
From S2P Require Import Group.
From S2P Require Import Prime.
From Stdlib Require Import Setoid Morphisms Field.
Import FieldTactics.

(** ** The curve *)

Definition eqpb (a b : Z) : bool := a mod field_p =? b mod field_p.

Lemma eqpb_spec (a b : Z) : eqpb a b = true <-> a ==p b.
Proof. apply Z.eqb_eq. Qed.

Lemma eqpb_false (a b : Z) : eqpb a b = false <-> ~ a ==p b.
Proof. apply Z.eqb_neq. Qed.

(** [None] is the point at infinity. *)
Definition apoint : Type := option (Z * Z).

Definition on_curve (P : apoint) : Prop :=
  match P with None => True | Some (x, y) => y * y ==p x * x * x + 7 end.

Definition slope (x1 y1 x2 y2 : Z) : Z :=
  if eqpb x1 x2 then fdiv (3 * x1 * x1) (2 * y1) else fdiv (y2 - y1) (x2 - x1).

Definition padd (P Q : apoint) : apoint :=
  match P, Q with
  | None, _ => Q
  | _, None => P
  | Some (x1, y1), Some (x2, y2) =>
      if eqpb x1 x2 && eqpb (y1 + y2) 0 then None
      else let l := slope x1 y1 x2 y2 in
           let x3 := (l * l - x1 - x2) mod field_p in
           Some (x3, (l * (x1 - x3) - y1) mod field_p)
  end.

Definition pneg (P : apoint) : apoint := match P with None => None | Some (x, y) => Some (x, (- y) mod field_p) end.

(** No point of the curve has [y = 0]: [-7] is no cube, since its power to a third
    of [p - 1] is not one. *)
Lemma seven_power : (powmod (-7) (Z.to_pos ((field_p - 1) / 3)) field_p =? 1) = false.
Proof. by vm_compute. Qed.

Lemma third : field_p - 1 = 3 * Z.pos (Z.to_pos ((field_p - 1) / 3)).
Proof. by vm_compute. Qed.

Lemma no_cube (x : Z) : ~ x * x * x + 7 ==p 0.
Proof.
  intros H. assert (x * x * x ==p -7) as Hc by (transitivity (x * x * x + 7 - 7); [ring|rewrite H; ring]).
  assert (~ x ==p 0) as Hx by (intros E; rewrite E in H; by apply eqpb_spec in H).
  assert (x ^ (field_p - 1) ==p 1) as F.
  { unfold eqp. rewrite (ZmodInv.Z.fermat_nz field_p x prime_field); [done|]. intros E. apply Hx. unfold eqp. by rewrite E. }
  rewrite third in F. pose proof seven_power as S. set (k := Z.to_pos ((field_p - 1) / 3)) in *. clearbody k. rewrite Z.pow_mul_r in F by lia.
  replace (x ^ 3) with (x * x * x) in F by (change 3 with (Z.succ 2); rewrite Z.pow_succ_r, Z.pow_2_r by lia; lia). rewrite Hc in F.
  unfold eqp in F. rewrite <- powmod_spec in F. change (1 mod field_p) with 1 in F. apply Z.eqb_neq in S. contradiction.
Qed.

Lemma curve_y (x y : Z) : y * y ==p x * x * x + 7 -> ~ y ==p 0.
Proof. intros H E. apply (no_cube x). rewrite <- H, E. ring. Qed.

Lemma small_nonzero (k : Z) : 0 < k < field_p -> ~ k ==p 0.
Proof. intros H. unfold eqp. rewrite !Z.mod_small by lia. lia. Qed.

Lemma two_nonzero : ~ 2 ==p 0.
Proof. by vm_compute. Qed.

Lemma mul_nonzero (a b : Z) : ~ a ==p 0 -> ~ b ==p 0 -> ~ a * b ==p 0.
Proof. intros Ha Hb [H|H]%eqp_integral; tauto. Qed.

Lemma scaled_zero (u v : Z) : ~ v ==p 0 -> u * v ==p 0 <-> u ==p 0.
Proof. intros Hv. split; [intros [E|E]%eqp_integral; tauto|intros E; rewrite E; ring]. Qed.

Lemma sub_zero (a b : Z) : a - b ==p 0 <-> a ==p b.
Proof. split; intros H; [transitivity (a - b + b); [ring|rewrite H; ring]|rewrite H; ring]. Qed.

Lemma opp_of_sum (a b : Z) : a + b ==p 0 <-> a ==p - b.
Proof. rewrite <- (sub_zero a (- b)). split; intros <-; ring. Qed.

(** Two points of the curve on a vertical line. *)
Lemma same_x (x1 y1 x2 y2 : Z) : y1 * y1 ==p x1 * x1 * x1 + 7 -> y2 * y2 ==p x2 * x2 * x2 + 7 -> x1 ==p x2 -> y1 ==p y2 \/ y1 + y2 ==p 0.
Proof.
  intros H1 H2 E. assert ((y1 - y2) * (y1 + y2) ==p 0) as [H|H]%eqp_integral; [|left; by apply sub_zero|by right].
  transitivity (y1 * y1 - y2 * y2); [ring|]. rewrite H1, H2, E. ring.
Qed.

(** The slope is given by its equation. *)
Lemma slope_eq (x1 y1 x2 y2 : Z) : y1 * y1 ==p x1 * x1 * x1 + 7 -> y2 * y2 ==p x2 * x2 * x2 + 7 -> ~ (x1 ==p x2 /\ y1 + y2 ==p 0) ->
  let l := slope x1 y1 x2 y2 in l * (x2 - x1) ==p y2 - y1 /\ l * (y1 + y2) ==p x1 * x1 + x1 * x2 + x2 * x2.
Proof.
  intros H1 H2 Hn l. unfold l, slope. destruct (eqpb x1 x2) eqn:E.
  - apply eqpb_spec in E. destruct (same_x _ _ _ _ H1 H2 E) as [Ey|Ey]; [|tauto]. pose proof (curve_y _ _ H1) as Hy. split.
    + rewrite <- E, <- Ey. ring.
    + rewrite <- E, <- Ey. field. split; [exact Hy|apply two_nonzero].
  - apply eqpb_false in E. assert (~ x2 - x1 ==p 0) as Hd by (rewrite sub_zero; intros E'; by apply E). split; [by field|].
    transitivity (fdiv (y2 * y2 - y1 * y1) (x2 - x1)); [by field|]. rewrite H1, H2. by field.
Qed.

(** ** Values with their magnitude *)

(** [x] stands for [v] with limbs of magnitude [m]. *)
Definition feval (m v : Z) (x : secp256k1_fe) : Prop := fval x ==p v /\ magnitude m x.

#[export] Instance feval_proper : Proper (eq ==> eqp ==> eq ==> iff) feval.
Proof. intros m ? <- v w E x ? <-. unfold feval. by rewrite E. Qed.

Lemma fe_value (m : Z) (x : secp256k1_fe) : magnitude m x -> feval m (fval x) x.
Proof. by split. Qed.

Lemma fe_weaken (m m' v : Z) (x : secp256k1_fe) : feval m v x -> m <= m' -> feval m' v x.
Proof. intros [E H] Hm. split; [exact E|]. by apply (magnitude_weaken m). Qed.

Lemma fe_as (m v w : Z) (x : secp256k1_fe) : feval m v x -> v ==p w -> feval m w x.
Proof. intros H E. by rewrite <- E. Qed.

Section Chain.
Context (m m' v w : Z) (x y : secp256k1_fe) (X : feval m v x) (Y : feval m' w y).

Lemma feval_mul : m <= 8 -> m' <= 8 -> feval 1 (v * w) (secp256k1_fe_mul x y).
Proof.
  intros H H'. destruct X as [E M], Y as [E' M']. destruct (fe_mul_spec x y) as [V N]; [by apply (magnitude_weaken m)|by apply (magnitude_weaken m')|].
  split; [|exact N]. by rewrite V, E, E'.
Qed.

Lemma feval_sqr : m <= 8 -> feval 1 (v * v) (secp256k1_fe_sqr x).
Proof. intros H. destruct X as [E M]. destruct (fe_sqr_spec x) as [V N]; [by apply (magnitude_weaken m)|]. split; [|exact N]. by rewrite V, E. Qed.

Lemma feval_add : m + m' <= 2048 -> feval (m + m') (v + w) (secp256k1_fe_add x y).
Proof. intros H. destruct X as [E M], Y as [E' M']. destruct (fe_add_spec x y m m' M M' H) as [V N]. split; [|exact N]. by rewrite V, E, E'. Qed.

Lemma feval_mul_int (k : Z) : 0 <= k <= 32 -> m * k <= 2048 -> feval (m * k) (k * v) (secp256k1_fe_mul_int x k).
Proof. intros H H'. destruct X as [E M]. destruct (fe_mul_int_spec x m k M H H') as [V N]. split; [|exact N]. by rewrite V, E. Qed.

Lemma feval_negate (k : Z) : m <= k < 2000 -> 0 <= k -> feval (k + 1) (- v) (secp256k1_fe_negate x k).
Proof.
  intros H H0. destruct X as [E M]. assert (magnitude k x) as M' by (apply (magnitude_weaken m); [exact M|lia]).
  destruct (fe_negate_spec x k M' ltac:(lia)) as [V N]. split; [|exact N]. by rewrite V, E.
Qed.

Lemma feval_weak : 0 <= m <= 2000 -> feval 1 v (secp256k1_fe_normalize_weak x).
Proof. intros H. destruct X as [E M]. destruct (fe_normalize_weak_spec x m M H) as [N V]. split; [|exact N]. by rewrite V. Qed.

Lemma feval_zero : 0 <= m <= 2000 -> secp256k1_fe_normalizes_to_zero x = true <-> v ==p 0.
Proof. intros H. destruct X as [E M]. by rewrite (fe_normalizes_to_zero_spec x m M H), E. Qed.

Lemma feval_zero_var : 0 <= m <= 2000 -> secp256k1_fe_normalizes_to_zero_var x = true <-> v ==p 0.
Proof. intros H. destruct X as [E M]. by rewrite (fe_zero_var_spec x m M H), E. Qed.

Lemma feval_inv : m <= 8 -> feval 1 (finv v) (secp256k1_fe_inv x).
Proof. intros H. destruct X as [E M]. destruct (fe_inv_spec x) as [V N]; [by apply (magnitude_weaken m)|]. split; [|exact N]. by rewrite V, E. Qed.

Lemma feval_equal_var : m <= 1 -> 0 <= m' <= 1000 -> secp256k1_fe_equal_var x y = true <-> v ==p w.
Proof. intros H H'. destruct X as [E M], Y as [E' M']. rewrite (fe_equal_var_spec x y m'); [by rewrite E, E'|by apply (magnitude_weaken m)|exact M'|exact H']. Qed.

End Chain.

Lemma feval_int (k : Z) : 0 <= k <= 1000 -> feval 1 k (secp256k1_fe_set_int k).
Proof. intros H. destruct (fe_set_int_spec k H) as [V N]. split; [by rewrite V|exact N]. Qed.

(** The value of a composed element, by its shape; the bounds are closed. *)
Ltac fe_bound := lia.
Ltac fe_chain :=
  lazymatch goal with
  | |- feval _ _ (secp256k1_fe_mul _ _) => eapply feval_mul; [fe_chain|fe_chain|fe_bound|fe_bound]
  | |- feval _ _ (secp256k1_fe_sqr _) => eapply feval_sqr; [fe_chain|fe_bound]
  | |- feval _ _ (secp256k1_fe_add _ _) => eapply feval_add; [fe_chain|fe_chain|fe_bound]
  | |- feval _ _ (secp256k1_fe_mul_int _ _) => eapply feval_mul_int; [fe_chain|fe_bound|fe_bound]
  | |- feval _ _ (secp256k1_fe_negate _ _) => eapply feval_negate; [fe_chain|fe_bound|fe_bound]
  | |- feval _ _ (secp256k1_fe_normalize_weak _) => eapply feval_weak; [fe_chain|fe_bound]
  | |- feval _ _ (secp256k1_fe_inv _) => eapply feval_inv; [fe_chain|fe_bound]
  | |- feval _ _ (secp256k1_fe_inv_var _) => eapply feval_inv; [fe_chain|fe_bound]
  | |- feval _ _ (secp256k1_fe_set_int _) => apply feval_int; fe_bound
  | _ => eassumption
  end.

(** [x] has the value [v], with a magnitude of at most [m]. *)
Lemma fe_close (m m' v w : Z) (x : secp256k1_fe) : feval m v x -> m <= m' -> v ==p w -> feval m' w x.
Proof. intros H Hm E. eapply fe_as; [|exact E]. by apply (fe_weaken m). Qed.
Ltac fe_have := eapply fe_close; [fe_chain|fe_bound|].

#[local] Opaque secp256k1_fe_mul secp256k1_fe_sqr secp256k1_fe_add secp256k1_fe_mul_int secp256k1_fe_negate secp256k1_fe_normalize_weak secp256k1_fe_inv secp256k1_fe_set_int
  secp256k1_fe_normalizes_to_zero secp256k1_fe_normalizes_to_zero_var secp256k1_fe_equal_var secp256k1_fe_sqrt secp256k1_fe_cmov secp256k1_fe_normalize
  secp256k1_fe_normalize_var finv field_p.

(** ** Representation *)

Definition gej_rep (a : secp256k1_gej) (P : apoint) : Prop :=
  match P with
  | None => gej_infinity a = true
  | Some (x, y) => gej_infinity a = false /\ exists z, ~ z ==p 0 /\ feval 8 z (gej_z a) /\ feval 8 (x * (z * z)) (gej_x a) /\ feval 8 (y * (z * z * z)) (gej_y a)
  end.

Definition ge_rep (a : secp256k1_ge) (P : apoint) : Prop :=
  match P with
  | None => ge_infinity a = true
  | Some (x, y) => ge_infinity a = false /\ feval 8 x (ge_x a) /\ feval 8 y (ge_y a)
  end.

(** Equal points up to the coordinates modulo [p]. *)
Definition peq (P Q : apoint) : Prop :=
  match P, Q with None, None => True | Some (x1, y1), Some (x2, y2) => x1 ==p x2 /\ y1 ==p y2 | _, _ => False end.

#[export] Instance peq_equiv : Equivalence peq.
Proof.
  split.
  - intros [[]|]; done.
  - intros [[]|] [[]|]; try done. intros [E F]. split; by symmetry.
  - intros [[]|] [[]|] [[]|]; try done. intros [E F] [E' F']. split; etransitivity; eassumption.
Qed.

#[export] Instance on_curve_proper : Proper (peq ==> iff) on_curve.
Proof. intros [[x1 y1]|] [[x2 y2]|]; try done. cbn. intros [E F]. by rewrite E, F. Qed.

#[export] Instance gej_rep_proper : Proper (eq ==> peq ==> iff) gej_rep.
Proof. intros a ? <- [[x1 y1]|] [[x2 y2]|]; try done. cbn. intros [Ex Ey]. by setoid_rewrite Ex; setoid_rewrite Ey. Qed.

#[export] Instance ge_rep_proper : Proper (eq ==> peq ==> iff) ge_rep.
Proof. intros a ? <- [[x1 y1]|] [[x2 y2]|]; try done. cbn. intros [E F]. by rewrite E, F. Qed.

Lemma padd_some (x1 y1 x2 y2 : Z) : on_curve (Some (x1, y1)) -> on_curve (Some (x2, y2)) -> ~ (x1 ==p x2 /\ y1 + y2 ==p 0) ->
  exists l x3 y3, padd (Some (x1, y1)) (Some (x2, y2)) = Some (x3, y3) /\ l * (x2 - x1) ==p y2 - y1 /\ l * (y1 + y2) ==p x1 * x1 + x1 * x2 + x2 * x2 /\
    x3 ==p l * l - x1 - x2 /\ y3 ==p l * (x1 - x3) - y1.
Proof.
  intros H1 H2 Hn. unfold padd. destruct (eqpb x1 x2 && eqpb (y1 + y2) 0) eqn:E; [apply andb_prop in E as [E1%eqpb_spec E2%eqpb_spec]; tauto|].
  exists (slope x1 y1 x2 y2). eexists _, _. split; [done|]. destruct (slope_eq x1 y1 x2 y2 H1 H2 Hn) as [L1 L2]. split; [exact L1|]. split; [exact L2|]. split; apply eqp_mod.
Qed.

Lemma padd_none (x1 y1 x2 y2 : Z) : x1 ==p x2 -> y1 + y2 ==p 0 -> padd (Some (x1, y1)) (Some (x2, y2)) = None.
Proof. intros E1%eqpb_spec E2%eqpb_spec. unfold padd. by rewrite E1, E2. Qed.

(** ** Doubling *)

Lemma double_rep (r a : secp256k1_gej) (P Q : apoint) : on_curve P -> peq P Q -> gej_rep a P -> gej_rep (secp256k1_gej_double_var r a).1 (padd P Q).
Proof.
  destruct P as [[x y]|], Q as [[x2 y2]|]; try done.
  - intros Hc Hq (Hi & z & Hz & Rz & Rx & Ry). assert (on_curve (Some (x2, y2))) as Hc2 by (by rewrite <- Hq). destruct Hq as [Eqx Eqy]. pose proof (curve_y x y Hc) as Hy.
    destruct (padd_some x y x2 y2 Hc Hc2) as (l & x3 & y3 & -> & _ & El & Ex & Ey).
    { rewrite <- Eqy. intros [_ E]. apply (mul_nonzero 2 y two_nonzero Hy). rewrite <- E. ring. }
    rewrite <- Eqx in El, Ex. rewrite <- Eqy in El.
    unfold secp256k1_gej_double_var. rewrite Hi. cbv zeta. cbn [fst gej_rep gej_infinity gej_x gej_y gej_z]. split; [done|]. exists (2 * (z * (y * (z * z * z)))).
    split; [repeat apply mul_nonzero; try assumption; apply two_nonzero|]. split; [fe_have; ring|].
    assert (3 * x * x ==p 2 * l * y) as El' by (transitivity (x * x + x * x + x * x); [ring|rewrite <- El; ring]).
    split; fe_have.
    + transitivity ((3 * x * x) * (3 * x * x) * (z ^ 8) - 8 * x * y * y * z ^ 8); [ring|]. rewrite Ex, El'. ring.
    + rewrite Ey, Ex. transitivity ((3 * x * x) * z ^ 12 * (12 * x * y * y - (3 * x * x) * (3 * x * x)) - 8 * y * y * y * y * z ^ 12); [ring|]. rewrite El'. ring.
  - intros _ _ Hi. unfold secp256k1_gej_double_var. by rewrite Hi.
Qed.

(** ** Addition by the chord *)

(** The common end of the additions: [w] is the common [z] of the scaled points. *)
Lemma add_tail (u1 s1 h i z : secp256k1_fe) (w x1 y1 x2 y2 : Z) :
  on_curve (Some (x1, y1)) -> on_curve (Some (x2, y2)) -> ~ x1 ==p x2 -> ~ w ==p 0 ->
  feval 1 (x1 * (w * w)) u1 -> feval 1 (y1 * (w * w * w)) s1 -> feval 3 ((x2 - x1) * (w * w)) h -> feval 3 ((y2 - y1) * (w * w * w)) i -> feval 1 (w * ((x2 - x1) * (w * w))) z ->
  let i2 := secp256k1_fe_sqr i in let h2 := secp256k1_fe_sqr h in let h3 := secp256k1_fe_mul h h2 in let t := secp256k1_fe_mul u1 h2 in
  let x := secp256k1_fe_add (secp256k1_fe_negate (secp256k1_fe_add (secp256k1_fe_mul_int t 2) h3) 3) i2 in
  let y := secp256k1_fe_add (secp256k1_fe_mul (secp256k1_fe_add (secp256k1_fe_negate x 5) t) i) (secp256k1_fe_negate (secp256k1_fe_mul h3 s1) 1) in
  gej_rep (mk_gej x y z false) (padd (Some (x1, y1)) (Some (x2, y2))).
Proof.
  intros H1 H2 Hx Hw U1 S1 H I Z. cbv zeta. destruct (padd_some x1 y1 x2 y2 H1 H2) as (l & x3 & y3 & -> & El & _ & Ex & Ey); [tauto|]. 
  cbn [gej_rep gej_infinity gej_x gej_y gej_z]. split; [done|]. exists (w * ((x2 - x1) * (w * w))). assert (~ x2 - x1 ==p 0) as Hd by (rewrite sub_zero; intros E; by apply Hx).
  split; [repeat apply mul_nonzero; assumption|]. split; [by apply (fe_weaken 1)|]. split; fe_have.
  - rewrite Ex, <- El. ring.
  - rewrite Ey, Ex, <- El. ring.
Qed.

(** How the two tests decide. *)
Lemma add_tests (h i : secp256k1_fe) (w x1 y1 x2 y2 : Z) : on_curve (Some (x1, y1)) -> on_curve (Some (x2, y2)) -> ~ w ==p 0 ->
  feval 3 ((x2 - x1) * (w * w)) h -> feval 3 ((y2 - y1) * (w * w * w)) i ->
  if secp256k1_fe_normalizes_to_zero_var h then
    if secp256k1_fe_normalizes_to_zero_var i then peq (Some (x1, y1)) (Some (x2, y2)) else padd (Some (x1, y1)) (Some (x2, y2)) = None
  else ~ x1 ==p x2.
Proof.
  intros H1 H2 Hw H I. pose proof (feval_zero_var _ _ _ H ltac:(lia)) as Zh. pose proof (feval_zero_var _ _ _ I ltac:(lia)) as Zi.
  assert (forall a b c, ~ c ==p 0 -> (b - a) * c ==p 0 <-> a ==p b) as Hz.
  { intros a b c Hc. rewrite <- (sub_zero a b). split; [intros [E|E]%eqp_integral; [|tauto]; transitivity (- (b - a)); [ring|]; rewrite E; ring|intros E]. transitivity (- (a - b) * c); [ring|]. rewrite E. ring. }
  rewrite Hz in Zh, Zi by (repeat apply mul_nonzero; assumption). destruct (secp256k1_fe_normalizes_to_zero_var h); [|intros E; by apply Zh in E].
  assert (x1 ==p x2) as Ex by (by apply Zh). destruct (secp256k1_fe_normalizes_to_zero_var i); [split; [done|by apply Zi]|].
  destruct (same_x _ _ _ _ H1 H2 Ex) as [E|E]; [by apply Zi in E|by apply padd_none].
Qed.

(** After the tests: the sum, the double or infinity. *)
Lemma add_dispatch (r a : secp256k1_gej) (u1 s1 h i z : secp256k1_fe) (w x1 y1 x2 y2 : Z) :
  on_curve (Some (x1, y1)) -> on_curve (Some (x2, y2)) -> ~ w ==p 0 -> gej_rep a (Some (x1, y1)) ->
  feval 1 (x1 * (w * w)) u1 -> feval 1 (y1 * (w * w * w)) s1 -> feval 3 ((x2 - x1) * (w * w)) h -> feval 3 ((y2 - y1) * (w * w * w)) i -> feval 1 (w * ((x2 - x1) * (w * w))) z ->
  let i2 := secp256k1_fe_sqr i in let h2 := secp256k1_fe_sqr h in let h3 := secp256k1_fe_mul h h2 in let t := secp256k1_fe_mul u1 h2 in
  let x := secp256k1_fe_add (secp256k1_fe_negate (secp256k1_fe_add (secp256k1_fe_mul_int t 2) h3) 3) i2 in
  let y := secp256k1_fe_add (secp256k1_fe_mul (secp256k1_fe_add (secp256k1_fe_negate x 5) t) i) (secp256k1_fe_negate (secp256k1_fe_mul h3 s1) 1) in
  gej_rep (if secp256k1_fe_normalizes_to_zero_var h then
             if secp256k1_fe_normalizes_to_zero_var i then (secp256k1_gej_double_var (mk_gej (gej_x r) (gej_y r) (gej_z r) false) a).1
             else mk_gej (gej_x r) (gej_y r) (gej_z r) true
           else mk_gej x y z false) (padd (Some (x1, y1)) (Some (x2, y2))).
Proof.
  intros H1 H2 Hw Ra U1 S1 H I Z. pose proof (add_tests h i w x1 y1 x2 y2 H1 H2 Hw H I) as T. cbv zeta.
  destruct (secp256k1_fe_normalizes_to_zero_var h); [destruct (secp256k1_fe_normalizes_to_zero_var i)|].
  - by apply double_rep.
  - by rewrite T.
  - by apply (add_tail u1 s1 h i z w).
Qed.

Lemma fst_if {A B} (c : bool) (x y : A * B) : (if c then x else y).1 = if c then x.1 else y.1.
Proof. by destruct c. Qed.

Lemma add_var_rep (r a b : secp256k1_gej) (P Q : apoint) : on_curve P -> on_curve Q -> gej_rep a P -> gej_rep b Q -> gej_rep (secp256k1_gej_add_var r a b).1 (padd P Q).
Proof.
  intros HP HQ Ra Rb. unfold secp256k1_gej_add_var. destruct P as [[x1 y1]|]; [|cbn in Ra; rewrite Ra; exact Rb]. destruct (Ra) as (-> & z1 & Hz1 & Z1 & X1 & Y1).
  destruct Q as [[x2 y2]|]; [|cbn in Rb; rewrite Rb; exact Ra]. destruct Rb as (-> & z2 & Hz2 & Z2 & X2 & Y2). cbv zeta. rewrite !fst_if. cbn [fst].
  apply (add_dispatch r a _ _ _ _ _ (z1 * z2)); try assumption; [by apply mul_nonzero|..]; fe_have; ring.
Qed.

Lemma set_ge_rep (b : secp256k1_ge) (Q : apoint) : ge_rep b Q -> gej_rep (secp256k1_gej_set_ge b) Q.
Proof.
  destruct Q as [[x y]|]; [|done]. intros (Hi & X & Y). split; [exact Hi|]. exists 1. split; [by apply small_nonzero|]. cbn [gej_x gej_y gej_z secp256k1_gej_set_ge].
  split; [apply (fe_weaken 1); [by apply feval_int|lia]|]. split; (eapply fe_as; [eassumption|ring]).
Qed.

Lemma add_ge_var_rep (r a : secp256k1_gej) (b : secp256k1_ge) (P Q : apoint) : on_curve P -> on_curve Q -> gej_rep a P -> ge_rep b Q ->
  gej_rep (secp256k1_gej_add_ge_var r a b).1 (padd P Q).
Proof.
  intros HP HQ Ra Rb. unfold secp256k1_gej_add_ge_var. destruct P as [[x1 y1]|]; [|cbn in Ra; rewrite Ra; by apply set_ge_rep]. destruct (Ra) as (-> & z1 & Hz1 & Z1 & X1 & Y1).
  destruct Q as [[x2 y2]|]; [|cbn in Rb; rewrite Rb; exact Ra]. destruct Rb as (-> & X2 & Y2). cbv zeta. rewrite !fst_if. cbn [fst].
  apply (add_dispatch r a _ _ _ _ _ z1); try assumption; fe_have; ring.
Qed.

(** [b] with the inverse [bzinv] of its third coordinate: the affine coordinates
    are those of [b] times the square and the cube of [bzinv]. *)
Definition zinv_rep (b : secp256k1_ge) (bzinv : secp256k1_fe) (Q : apoint) : Prop :=
  match Q with
  | None => ge_infinity b = true
  | Some (x, y) => ge_infinity b = false /\ exists zi bx by_, ~ zi ==p 0 /\ feval 8 zi bzinv /\
      feval 8 bx (ge_x b) /\ feval 8 by_ (ge_y b) /\ x ==p bx * (zi * zi) /\ y ==p by_ * (zi * zi * zi)
  end.

Lemma add_zinv_var_rep (r a : secp256k1_gej) (b : secp256k1_ge) (bzinv : secp256k1_fe) (P Q : apoint) : on_curve P -> on_curve Q -> gej_rep a P ->
  zinv_rep b bzinv Q -> gej_rep (secp256k1_gej_add_zinv_var r a b bzinv) (padd P Q).
Proof.
  intros HP HQ Ra Rb. unfold secp256k1_gej_add_zinv_var. destruct Q as [[x2 y2]|].
  - destruct Rb as (-> & zi & bx & by_ & Hzi & Zi & BX & BY & Ex & Ey). destruct P as [[x1 y1]|].
    + destruct (Ra) as (-> & z1 & Hz1 & Z1 & X1 & Y1). cbv zeta. apply (add_dispatch r a _ _ _ _ _ z1); try assumption; fe_have; rewrite ?Ex, ?Ey; ring.
    + cbn in Ra. rewrite Ra. cbv zeta. split; [done|]. exists 1. split; [by apply small_nonzero|]. cbn [gej_x gej_y gej_z]. split; [fe_have; ring|]. split; fe_have; rewrite ?Ex, ?Ey; ring.
  - rewrite Rb. destruct P as [[]|]; exact Ra.
Qed.

(** ** The ratio of the third coordinates *)

(** [rzr] is the third coordinate of the result over that of [a]; it is given
    unless [a] is infinity. *)
Definition zratio (a : secp256k1_gej) (res : secp256k1_gej * option secp256k1_fe) : Prop :=
  match res.2 with
  | None => gej_infinity a = true
  | Some f => gej_infinity res.1 = false -> exists v, feval 8 v f /\ fval (gej_z res.1) ==p fval (gej_z a) * v
  end.

Lemma zratio_intro (a r : secp256k1_gej) (f : secp256k1_fe) (z v : Z) : feval 8 z (gej_z a) -> feval 8 v f -> feval 8 (z * v) (gej_z r) -> zratio a (r, Some f).
Proof. intros [Ez _] F [Er _] _. exists v. split; [exact F|]. cbn [fst]. by rewrite Er, Ez. Qed.

Lemma zratio_same (a : secp256k1_gej) : gej_infinity a = false -> zratio a (a, Some (secp256k1_fe_set_int 1)).
Proof. intros Ha _. exists 1. split; [apply (fe_weaken 1); [by apply feval_int|lia]|]. cbn [fst]. by rewrite Z.mul_1_r. Qed.

Lemma double_zratio (r a : secp256k1_gej) (P : apoint) : gej_rep a P -> zratio a (secp256k1_gej_double_var r a).
Proof.
  destruct P as [[x y]|]; [|intros Ha; unfold secp256k1_gej_double_var; by rewrite Ha]. intros (Hi & z & Hz & Rz & Rx & Ry). unfold secp256k1_gej_double_var. rewrite Hi. cbv zeta.
  apply (zratio_intro _ _ _ z (2 * (y * (z * z * z)))); cbn [gej_z]; [exact Rz|fe_have; ring|fe_have; ring].
Qed.

Lemma ratio_dispatch (b1 b2 : bool) (r a : secp256k1_gej) (f x y z : secp256k1_fe) (P : apoint) (res : secp256k1_gej * option secp256k1_fe) : gej_rep a P -> zratio a res ->
  zratio a (if b1 then if b2 then secp256k1_gej_double_var r a else (mk_gej x y z true, Some f) else res).
Proof. intros Ra Hr. destruct b1; [|exact Hr]. destruct b2; [by eapply double_zratio|done]. Qed.

Lemma add_var_zratio (r a b : secp256k1_gej) (P Q : apoint) : gej_rep a P -> gej_rep b Q -> zratio a (secp256k1_gej_add_var r a b).
Proof.
  intros Ra Rb. unfold secp256k1_gej_add_var. destruct P as [[x1 y1]|]; [|cbn in Ra; by rewrite Ra]. destruct (Ra) as (Ha & z1 & Hz1 & Z1 & X1 & Y1). rewrite Ha.
  destruct Q as [[x2 y2]|]; [|cbn in Rb; rewrite Rb; by apply zratio_same]. destruct Rb as (-> & z2 & Hz2 & Z2 & X2 & Y2). cbv zeta.
  apply (ratio_dispatch _ _ _ _ _ _ _ _ (Some (x1, y1))); [exact Ra|]. apply (zratio_intro _ _ _ z1 ((x2 - x1) * (z1 * z2) * (z1 * z2) * z2)); [exact Z1|..]; cbn [gej_z]; fe_have; ring.
Qed.

Lemma add_ge_var_zratio (r a : secp256k1_gej) (b : secp256k1_ge) (P Q : apoint) : gej_rep a P -> ge_rep b Q -> zratio a (secp256k1_gej_add_ge_var r a b).
Proof.
  intros Ra Rb. unfold secp256k1_gej_add_ge_var. destruct P as [[x1 y1]|]; [|cbn in Ra; by rewrite Ra]. destruct (Ra) as (Ha & z1 & Hz1 & Z1 & X1 & Y1). rewrite Ha.
  destruct Q as [[x2 y2]|]; [|cbn in Rb; rewrite Rb; by apply zratio_same]. destruct Rb as (-> & X2 & Y2). cbv zeta.
  apply (ratio_dispatch _ _ _ _ _ _ _ _ (Some (x1, y1))); [exact Ra|]. apply (zratio_intro _ _ _ z1 ((x2 - x1) * (z1 * z1))); [exact Z1|..]; cbn [gej_z]; fe_have; ring.
Qed.

(** ** Addition without branches *)

Lemma feval_cmov (m v w : Z) (r a : secp256k1_fe) (flag : bool) : feval m v r -> feval m w a -> m <= 2048 -> feval m (if flag then w else v) (secp256k1_fe_cmov r a (Z.b2z flag)).
Proof. intros R A Hm. rewrite fe_cmov_spec by (eapply magnitude_words; [apply R || apply A|exact Hm]). by destruct flag. Qed.

(** The numerator and the denominator of the slope: the first line of the pair
    unless both vanish. *)
Lemma unified_slope (x1 y1 x2 y2 : Z) (d : bool) : on_curve (Some (x1, y1)) -> on_curve (Some (x2, y2)) ->
  (d = true <-> y1 + y2 ==p 0 /\ x1 * x1 + x1 * x2 + x2 * x2 ==p 0) ->
  let M := if d then x1 - x2 else y1 + y2 in
  (M ==p 0 <-> x1 ==p x2 /\ y1 + y2 ==p 0) /\
  forall l, l * (x2 - x1) ==p y2 - y1 -> l * (y1 + y2) ==p x1 * x1 + x1 * x2 + x2 * x2 -> (if d then 2 * y1 else x1 * x1 + x1 * x2 + x2 * x2) ==p l * M.
Proof.
  cbn [on_curve]. intros H1 H2 Hd. cbv zeta. destruct d.
  - destruct (proj1 Hd eq_refl) as [Ey Er]. split.
    + rewrite sub_zero. tauto.
    + intros l L _. transitivity (- (y2 - y1) + (y1 + y2)); [ring|]. rewrite <- L, Ey. ring.
  - split; [|intros l _ L; by rewrite L]. split; [|tauto]. intros Ey. split; [|exact Ey]. assert ((x1 - x2) * (x1 * x1 + x1 * x2 + x2 * x2) ==p 0) as [E|E]%eqp_integral.
    + transitivity ((x1 * x1 * x1 + 7) - (x2 * x2 * x2 + 7)); [ring|]. rewrite <- H1, <- H2. transitivity ((y1 + y2) * (y1 - y2)); [ring|]. rewrite Ey. ring.
    + by apply sub_zero.
    + by assert (false = true) by tauto.
Qed.

(** The end of the computation, for a slope [l k z / k]. *)
Lemma unified_tail (az rr_alt m_alt n t : secp256k1_fe) (l k z x1 y1 x2 y2 x3 y3 : Z) :
  ~ z ==p 0 -> ~ k ==p 0 -> feval 8 z az -> feval 2 (l * k * z) rr_alt -> feval 3 k m_alt -> feval 2 ((y1 + y2) * (z * z * z) * (k * k * k)) n -> feval 2 ((x1 + x2) * (z * z)) t ->
  l * (x2 - x1) ==p y2 - y1 -> x3 ==p l * l - x1 - x2 -> y3 ==p l * (x1 - x3) - y1 ->
  let q := secp256k1_fe_negate (secp256k1_fe_mul (secp256k1_fe_sqr m_alt) t) 1 in
  let x := secp256k1_fe_normalize_weak (secp256k1_fe_add (secp256k1_fe_sqr rr_alt) q) in
  let t := secp256k1_fe_add (secp256k1_fe_mul (secp256k1_fe_add (secp256k1_fe_mul_int x 2) q) rr_alt) n in
  let y := secp256k1_fe_normalize_weak (secp256k1_fe_negate t 3) in
  gej_rep (mk_gej (secp256k1_fe_mul_int x 4) (secp256k1_fe_mul_int y 4) (secp256k1_fe_mul_int (secp256k1_fe_mul az m_alt) 2) false) (Some (x3, y3)).
Proof.
  intros Hz Hk Z R M N T El Ex Ey. cbv zeta. split; [done|]. exists (2 * (z * k)). cbn [gej_x gej_y gej_z].
  split; [repeat apply mul_nonzero; try assumption; apply two_nonzero|]. split; [fe_have; ring|]. split; fe_have.
  - rewrite Ex. ring.
  - rewrite Ey, Ex. assert (y2 ==p y1 + l * (x2 - x1)) as -> by (rewrite El; ring). ring.
Qed.

(** The chosen numerator and denominator. *)
Lemma unified_choice (s1 ma m rr : secp256k1_fe) (z x1 y1 x2 y2 : Z) (d : bool) : on_curve (Some (x1, y1)) -> on_curve (Some (x2, y2)) -> ~ z ==p 0 ->
  feval 1 (y1 * (z * z * z)) s1 -> feval 3 ((x1 - x2) * (z * z)) ma -> feval 2 ((y1 + y2) * (z * z * z)) m -> feval 2 ((x1 * x1 + x1 * x2 + x2 * x2) * (z * z * z * z)) rr ->
  (d = true <-> y1 + y2 ==p 0 /\ x1 * x1 + x1 * x2 + x2 * x2 ==p 0) ->
  let k := if d then (x1 - x2) * (z * z) else (y1 + y2) * (z * z * z) in
  let mm := secp256k1_fe_cmov ma m (Z.b2z (negb d)) in
  feval 3 k mm /\ (k ==p 0 <-> x1 ==p x2 /\ y1 + y2 ==p 0) /\
  feval 2 ((y1 + y2) * (z * z * z) * (k * k * k)) (secp256k1_fe_cmov (secp256k1_fe_sqr (secp256k1_fe_sqr mm)) m (Z.b2z d)) /\
  forall l, l * (x2 - x1) ==p y2 - y1 -> l * (y1 + y2) ==p x1 * x1 + x1 * x2 + x2 * x2 -> feval 2 (l * k * z) (secp256k1_fe_cmov (secp256k1_fe_mul_int s1 2) rr (Z.b2z (negb d))).
Proof.
  intros HP HQ Hz S1 MA M RR Hd. destruct (unified_slope x1 y1 x2 y2 d HP HQ Hd) as [H0 Hl]. cbv zeta. assert (feval 2 (2 * (y1 * (z * z * z))) (secp256k1_fe_mul_int s1 2)) as S2 by (fe_have; ring).
  assert (feval 3 ((y1 + y2) * (z * z * z)) m) as M3 by (by apply (fe_weaken 2)). destruct d; cbn [negb].
  - pose proof (feval_cmov 3 _ _ _ _ false MA M3 ltac:(lia)) as C. cbv iota in C. split; [exact C|]. split; [rewrite <- H0; apply scaled_zero; repeat apply mul_nonzero; assumption|]. split.
    + eapply fe_as; [apply (feval_cmov 2 ((x1 - x2) ^ 4 * z ^ 8)); [fe_have; ring|exact M|lia]|]. cbv iota. destruct (proj1 Hd eq_refl) as [-> _]. ring.
    + intros l L1 L2. eapply fe_as; [apply (feval_cmov 2 _ _ _ _ false S2 RR); lia|]. cbv iota. transitivity (2 * y1 * (z * z * z)); [ring|]. rewrite (Hl l L1 L2). ring.
  - pose proof (feval_cmov 3 _ _ _ _ true MA M3 ltac:(lia)) as C. cbv iota in C. split; [exact C|]. split; [rewrite <- H0; apply scaled_zero; repeat apply mul_nonzero; assumption|]. split.
    + eapply fe_as; [apply (feval_cmov 2 ((y1 + y2) ^ 4 * z ^ 12) ((y1 + y2) * (z * z * z)) _ m false); [fe_have; ring|exact M|lia]|]. cbv iota. ring.
    + intros l L1 L2. eapply fe_as; [apply (feval_cmov 2 _ _ _ _ true S2 RR); lia|]. cbv iota. rewrite (Hl l L1 L2). ring.
Qed.

Lemma fe_one : SECP256K1_FE_CONST 0 0 0 0 0 0 0 1 = mk_fe 1 0 0 0 0.
Proof. done. Qed.

Lemma feval_one : feval 1 1 (SECP256K1_FE_CONST 0 0 0 0 0 0 0 1).
Proof. rewrite fe_one. split; [done|]. split; unfold M52, M48; cbn; lia. Qed.

Lemma add_ge_rep (a : secp256k1_gej) (b : secp256k1_ge) (P : apoint) (x2 y2 : Z) : on_curve P -> on_curve (Some (x2, y2)) -> gej_rep a P -> ge_rep b (Some (x2, y2)) ->
  gej_rep (secp256k1_gej_add_ge a b) (padd P (Some (x2, y2))).
Proof.
  intros HP HQ Ra (Hb & X2 & Y2). assert (words (ge_x b) /\ words (ge_y b) /\ words (SECP256K1_FE_CONST 0 0 0 0 0 0 0 1)) as (Wx & Wy & W1).
  { repeat split; (eapply magnitude_words; [first [apply X2|apply Y2|apply feval_one]|lia]). }
  unfold secp256k1_gej_add_ge. cbv zeta. rewrite (fe_cmov_spec _ (ge_x b)), (fe_cmov_spec _ (ge_y b)), (fe_cmov_spec _ (SECP256K1_FE_CONST _ _ _ _ _ _ _ _)) by (assumption || apply mul_int_words).
  destruct P as [[x1 y1]|].
  - destruct Ra as (-> & z & Hz & Z & X1 & Y1). set (zz := secp256k1_fe_sqr (gej_z a)). set (u1 := secp256k1_fe_normalize_weak (gej_x a)). set (u2 := secp256k1_fe_mul (ge_x b) zz).
    set (s1 := secp256k1_fe_normalize_weak (gej_y a)). set (s2 := secp256k1_fe_mul (secp256k1_fe_mul (ge_y b) zz) (gej_z a)). set (t := secp256k1_fe_add u1 u2). set (m := secp256k1_fe_add s1 s2).
    set (rr := secp256k1_fe_add (secp256k1_fe_sqr t) (secp256k1_fe_mul u1 (secp256k1_fe_negate u2 1))). set (d := secp256k1_fe_normalizes_to_zero m && secp256k1_fe_normalizes_to_zero rr).
    assert (feval 1 (x1 * (z * z)) u1) as U1 by (unfold u1; fe_have; ring). assert (feval 1 (y1 * (z * z * z)) s1) as S1 by (unfold s1; fe_have; ring).
    assert (feval 1 (x2 * (z * z)) u2) as U2 by (unfold u2, zz; fe_have; ring). assert (feval 1 (y2 * (z * z * z)) s2) as S2 by (unfold s2, zz; fe_have; ring).
    assert (feval 2 ((x1 + x2) * (z * z)) t) as T by (unfold t; fe_have; ring). assert (feval 2 ((y1 + y2) * (z * z * z)) m) as M by (unfold m; fe_have; ring).
    assert (feval 2 ((x1 * x1 + x1 * x2 + x2 * x2) * (z * z * z * z)) rr) as RR by (unfold rr; fe_have; ring).
    assert (feval 3 ((x1 - x2) * (z * z)) (secp256k1_fe_add (secp256k1_fe_negate u2 1) u1)) as MA by (fe_have; ring).
    assert (d = true <-> y1 + y2 ==p 0 /\ x1 * x1 + x1 * x2 + x2 * x2 ==p 0) as Hd.
    { unfold d. rewrite andb_true_iff, (feval_zero _ _ _ M), (feval_zero _ _ _ RR) by lia. by rewrite !scaled_zero by (repeat apply mul_nonzero; assumption). }
    clearbody d t m rr. destruct (unified_choice s1 _ m rr z x1 y1 x2 y2 d HP HQ Hz S1 MA M RR Hd) as (MM & Hk & N & R).
    set (k := if d then _ else _) in *. set (mm := secp256k1_fe_cmov (secp256k1_fe_add _ u1) m (Z.b2z (negb d))) in *. cbn [negb andb]. rewrite andb_true_r.
    assert (secp256k1_fe_normalizes_to_zero (secp256k1_fe_mul (gej_z a) mm) = true <-> k ==p 0) as Hi by (rewrite (feval_zero 1 (k * z)); [by apply scaled_zero|fe_have; ring|lia]).
    destruct (secp256k1_fe_normalizes_to_zero (secp256k1_fe_mul (gej_z a) mm)); [by rewrite padd_none by (apply Hk, Hi; done)|].
    assert (~ k ==p 0) as Hkn by (intros E; apply Hi in E; done). destruct (padd_some x1 y1 x2 y2 HP HQ) as (l & x3 & y3 & -> & L1 & L2 & Ex & Ey); [by rewrite <- Hk|].
    apply (unified_tail (gej_z a) _ mm _ t l k z x1 y1 x2 y2); try assumption. by apply R.
  - cbn in Ra. rewrite Ra. cbn [negb andb padd]. rewrite andb_false_r. split; [done|]. exists 1. split; [by apply small_nonzero|]. cbn [gej_x gej_y gej_z].
    split; [apply (fe_weaken 1); [apply feval_one|lia]|]. split; (eapply fe_as; [eassumption|ring]).
Qed.

(** ** The curve is closed *)

Lemma padd_on_curve (P Q : apoint) : on_curve P -> on_curve Q -> on_curve (padd P Q).
Proof.
  destruct P as [[x1 y1]|], Q as [[x2 y2]|]; try done. intros HP HQ. destruct (eqpb x1 x2 && eqpb (y1 + y2) 0) eqn:E.
  - apply andb_prop in E as [E1%eqpb_spec E2%eqpb_spec]. by rewrite padd_none.
  - destruct (padd_some x1 y1 x2 y2 HP HQ) as (l & x3 & y3 & -> & L1 & L2 & Ex & Ey); [intros [E1%eqpb_spec E2%eqpb_spec]; by rewrite E1, E2 in E|]. cbn [on_curve] in *.
    assert (2 * l * y1 ==p l * l * (x1 - x2) + (x1 * x1 + x1 * x2 + x2 * x2)) as A by (rewrite <- L2; transitivity (l * (y1 + y2) - l * (y2 - y1)); [ring|rewrite <- L1; ring]).
    rewrite Ey. transitivity (l * l * (x1 - x3) * (x1 - x3) - 2 * l * y1 * (x1 - x3) + y1 * y1); [ring|]. rewrite A, HP, Ex. ring.
Qed.

Lemma pneg_on_curve (P : apoint) : on_curve P -> on_curve (pneg P).
Proof. destruct P as [[x y]|]; [|done]. cbn [on_curve pneg]. intros H. rewrite (eqp_mod (- y)), <- H. ring. Qed.

(** ** Conversions *)

Lemma gej_neg_rep (a : secp256k1_gej) (P : apoint) : gej_rep a P -> gej_rep (secp256k1_gej_neg a) (pneg P).
Proof.
  destruct P as [[x y]|]; [|done]. intros (Hi & z & Hz & Z & X & Y). split; [exact Hi|]. exists z. cbn [gej_x gej_y gej_z secp256k1_gej_neg].
  repeat (split; [assumption|]). fe_have. rewrite (eqp_mod (- y)). ring.
Qed.

Lemma ge_neg_rep (a : secp256k1_ge) (P : apoint) : ge_rep a P -> ge_rep (secp256k1_ge_neg a) (pneg P).
Proof.
  destruct P as [[x y]|]; [|done]. intros (Hi & X & Y). split; [exact Hi|]. cbn [ge_x ge_y secp256k1_ge_neg]. split; [assumption|]. fe_have. by rewrite (eqp_mod (- y)).
Qed.

Lemma set_infinity_rep : gej_rep secp256k1_gej_set_infinity None.
Proof. done. Qed.

Lemma rescale_rep (a : secp256k1_gej) (P : apoint) (s : secp256k1_fe) (v : Z) : gej_rep a P -> feval 8 v s -> ~ v ==p 0 -> gej_rep (secp256k1_gej_rescale a s) P.
Proof.
  destruct P as [[x y]|]; [|done]. intros (Hi & z & Hz & Z & X & Y) S Hv. split; [exact Hi|]. exists (z * v). cbn [gej_x gej_y gej_z secp256k1_gej_rescale].
  split; [by apply mul_nonzero|]. split; [fe_have; ring|]. split; fe_have; ring.
Qed.

(** The affine coordinates, given the inverse of [z]. *)
Lemma set_gej_zinv_rep (a : secp256k1_gej) (zi : secp256k1_fe) (m v x y z : Z) : gej_infinity a = false -> feval 8 (x * (z * z)) (gej_x a) -> feval 8 (y * (z * z * z)) (gej_y a) ->
  feval m v zi -> m <= 8 -> v * z ==p 1 -> ge_rep (secp256k1_ge_set_gej_zinv a zi) (Some (x, y)).
Proof.
  intros Hi X Y V Hm E. split; [exact Hi|]. cbn [ge_x ge_y secp256k1_ge_set_gej_zinv]. split; fe_have.
  - transitivity (x * (v * z) * (v * z)); [ring|]. rewrite E. ring.
  - transitivity (y * (v * z) * (v * z) * (v * z)); [ring|]. rewrite E. ring.
Qed.

Lemma set_gej_rep (a : secp256k1_gej) (P : apoint) : gej_rep a P -> ge_rep (secp256k1_ge_set_gej a).1 P /\ gej_rep (secp256k1_ge_set_gej a).2 P.
Proof.
  destruct P as [[x y]|]; [|done]. intros (Hi & z & Hz & Z & X & Y). pose proof (finv_l z Hz) as E. unfold secp256k1_ge_set_gej. cbv zeta. cbn [fst snd].
  assert (forall u, feval 8 (x * (z * z)) u -> feval 8 x (secp256k1_fe_mul u (secp256k1_fe_sqr (secp256k1_fe_inv (gej_z a))))) as Hx.
  { intros u U. fe_have. transitivity (x * (finv z * z) * (finv z * z)); [ring|]. rewrite E. ring. }
  assert (forall u, feval 8 (y * (z * z * z)) u -> feval 8 y (secp256k1_fe_mul u (secp256k1_fe_mul (secp256k1_fe_inv (gej_z a)) (secp256k1_fe_sqr (secp256k1_fe_inv (gej_z a)))))) as Hy.
  { intros u U. fe_have. transitivity (y * (finv z * z) * (finv z * z) * (finv z * z)); [ring|]. rewrite E. ring. }
  split; [split; [exact Hi|]; split; [by apply Hx|by apply Hy]|]. split; [exact Hi|]. exists 1. split; [by apply small_nonzero|]. cbn [gej_x gej_y gej_z].
  split; [apply (fe_weaken 1); [by apply feval_int|lia]|]. split; [eapply fe_as; [apply Hx; exact X|ring]|eapply fe_as; [apply Hy; exact Y|ring]].
Qed.

Lemma set_gej_var_rep (r : secp256k1_ge) (a : secp256k1_gej) (P : apoint) : gej_rep a P -> ge_rep (secp256k1_ge_set_gej_var r a).1 P /\ gej_rep (secp256k1_ge_set_gej_var r a).2 P.
Proof.
  intros Ra. unfold secp256k1_ge_set_gej_var. destruct P as [[x y]|]; [|cbn in Ra; by rewrite Ra]. pose proof (set_gej_rep a _ Ra) as H. destruct Ra as [E _]. rewrite E. unfold secp256k1_ge_set_gej in H. by rewrite E in H.
Qed.

(** ** The additions *)

(** C20: for points of the curve, in whatever coordinates and in every case
    (infinity, equal points, opposite points, and points with opposite [y] and
    different [x], where the unified formula degenerates), the doubling and each
    addition represent the sum by chord and tangent, with coordinates within the
    bounds of the field operations, and the sum is on the curve again.  The
    second point is in Jacobian coordinates for [secp256k1_gej_add_var], affine
    for [secp256k1_gej_add_ge_var] and (other than infinity)
    [secp256k1_gej_add_ge], and given by two coordinates with the inverse of the
    third one, any field element but zero, for [secp256k1_gej_add_zinv_var].  The
    ratio [rzr] of the third coordinates, where it is computed, is right. *)
Theorem group_add_correct (r a b : secp256k1_gej) (g h : secp256k1_ge) (bzinv : secp256k1_fe) (P Q : apoint) :
  on_curve P -> on_curve Q -> gej_rep a P -> gej_rep b Q -> ge_rep g Q -> zinv_rep h bzinv Q ->
  gej_rep (secp256k1_gej_double_var r a).1 (padd P P) /\ zratio a (secp256k1_gej_double_var r a) /\
  gej_rep (secp256k1_gej_add_var r a b).1 (padd P Q) /\ zratio a (secp256k1_gej_add_var r a b) /\
  gej_rep (secp256k1_gej_add_ge_var r a g).1 (padd P Q) /\ zratio a (secp256k1_gej_add_ge_var r a g) /\
  gej_rep (secp256k1_gej_add_zinv_var r a h bzinv) (padd P Q) /\
  (Q <> None -> gej_rep (secp256k1_gej_add_ge a g) (padd P Q)) /\
  on_curve (padd P Q).
Proof.
  intros HP HQ Ra Rb Rg Rh. split_and!;
    [by apply double_rep|by eapply double_zratio|by apply add_var_rep|by eapply add_var_zratio|by apply add_ge_var_rep|by eapply add_ge_var_zratio|by apply add_zinv_var_rep| |by apply padd_on_curve].
  intros Hn. destruct Q as [[x y]|]; [by apply add_ge_rep|done].
Qed.

(** The coordinates of the generator. *)
Definition generator : apoint :=
  Some (0x79BE667EF9DCBBAC55A06295CE870B07029BFCDB2DCE28D959F2815B16F81798, 0x483ADA7726A3C4655DA4FBFC0E1108A8FD17B448A68554199C47D08FFB10D4B8).

Lemma generator_on_curve : on_curve generator.
Proof. apply eqpb_spec. by vm_compute. Qed.

Lemma generator_rep : ge_rep secp256k1_ge_const_g generator.
Proof. split; [done|]. split; (split; [apply eqpb_spec; by vm_compute|split; vm_compute; split; discriminate]). Qed.

(** The generator with [z = 2]. *)
Definition scaled_g : secp256k1_ge :=
  mk_ge (secp256k1_fe_mul_int (ge_x secp256k1_ge_const_g) 4) (secp256k1_fe_mul_int (ge_y secp256k1_ge_const_g) 8) false.
Definition half : secp256k1_fe :=
  SECP256K1_FE_CONST 0x7fffffff 0xffffffff 0xffffffff 0xffffffff 0xffffffff 0xffffffff 0xffffffff 0x7ffffe18.

Lemma scaled_g_rep : zinv_rep scaled_g half generator.
Proof.
  split; [done|]. exists (fval half), (fval (ge_x scaled_g)), (fval (ge_y scaled_g)).
  split; [intros E; apply eqpb_spec in E; revert E; by vm_compute|].
  split_and!; try (split; [reflexivity|split; vm_compute; split; discriminate]); apply eqpb_spec; by vm_compute.
Qed.

Lemma group_add_correct_witness : exists P, on_curve P /\
  gej_rep (secp256k1_gej_add_ge (secp256k1_gej_set_ge secp256k1_ge_const_g) secp256k1_ge_const_g) P /\
  gej_rep (secp256k1_gej_add_zinv_var secp256k1_gej_set_infinity (secp256k1_gej_set_ge secp256k1_ge_const_g) scaled_g half) P.
Proof.
  pose proof (set_ge_rep _ _ generator_rep) as R. exists (padd generator generator).
  destruct (group_add_correct secp256k1_gej_set_infinity _ _ _ _ _ _ _ generator_on_curve generator_on_curve R R generator_rep scaled_g_rep)
    as (_ & _ & _ & _ & _ & _ & Z & A & C).
  split; [exact C|]. split; [apply A; discriminate|exact Z].
Defined.
