(* ===== verification/GroupCodec.v ===== *)
(** * Points and their coordinates: batches, tables, decoding and public keys

    The conversions of many points at once, the points with a given x, the
    tests, the packed form and the bytes of eckey_impl.h. *)

From S2P Require Import Prelude.
From S2P Require Import FieldPrime.
From S2P Require Import FieldImpl.
From S2P Require Import FieldSpec.
From S2P Require Import Group.
From S2P Require Import GroupSpec.
From Stdlib Require Import Setoid Morphisms Field.
Import FieldTactics.

#[local] Opaque secp256k1_fe_mul secp256k1_fe_sqr secp256k1_fe_add secp256k1_fe_mul_int secp256k1_fe_negate secp256k1_fe_normalize_weak secp256k1_fe_inv secp256k1_fe_set_int
  secp256k1_fe_normalizes_to_zero secp256k1_fe_normalizes_to_zero_var secp256k1_fe_equal_var secp256k1_fe_sqrt secp256k1_fe_cmov secp256k1_fe_normalize
  secp256k1_fe_normalize_var secp256k1_fe_inv_all_var finv field_p.

(** ** Many points at once *)

Lemma Forall2_rev {A B} (R : A -> B -> Prop) (l : list A) (k : list B) : Forall2 R l k -> Forall2 R (rev l) (rev k).
Proof. induction 1; cbn [rev]; [constructor|]. apply Forall2_app; [done|by repeat constructor]. Qed.

Lemma set_all_loop_rep (r : list secp256k1_ge) (a : list secp256k1_gej) (P : list apoint) (azi : list secp256k1_fe) : length r = length a -> Forall2 gej_rep a P ->
  Forall2 is_inverse (map gej_z (filter (fun ai => gej_infinity ai = false) a)) azi -> Forall2 ge_rep (set_all_loop r a azi) P.
Proof.
  intros Hl Ha. revert r azi Hl. induction Ha as [|ai Pi a P Hi Ha IH]; intros [|ri r] azi Hl Hz; try done. injection Hl as Hl.
  cbn [set_all_loop]. destruct Pi as [[x y]|].
  - destruct Hi as (E & z & Hzn & Z & X & Y). rewrite filter_cons_True in Hz by exact E. rewrite E. cbn [map] in Hz. inversion Hz as [|? zi ? azi' [Vi Mi] Hz' E1 E2]; subst. constructor.
    + apply (set_gej_zinv_rep ai zi 1 (finv z) x y z); try assumption; [|lia|by apply finv_l]. split; [|exact Mi]. rewrite Vi. by rewrite (proj1 Z).
    + by apply IH.
  - cbn in Hi. rewrite Hi. rewrite filter_cons_False in Hz by (by rewrite Hi). constructor; [done|]. by apply IH.
Qed.

Lemma set_all_rep (r : list secp256k1_ge) (a : list secp256k1_gej) (P : list apoint) : length r = length a -> Forall2 gej_rep a P -> Forall2 ge_rep (secp256k1_ge_set_all_gej_var r a) P.
Proof.
  intros Hl Ha. apply set_all_loop_rep; [exact Hl|exact Ha|]. apply fe_inv_all_spec. clear r Hl. induction Ha as [|ai Pi a P Hi Ha IH]; [constructor|]. destruct Pi as [[x y]|].
  - destruct Hi as (E & z & Hzn & [V M] & _). rewrite filter_cons_True by exact E. cbn [map]. constructor; [|exact IH]. split; [exact M|]. by rewrite V.
  - cbn in Hi. rewrite filter_cons_False by (by rewrite Hi). exact IH.
Qed.

(** *** Tables *)

(** Points from the last on, each with its [z] the one of the point before times
    a ratio. *)
Inductive ratios : list secp256k1_gej -> list secp256k1_fe -> Prop :=
  | ratios_one a zr : ratios [a] zr
  | ratios_more a b l zr v w zrs : feval 8 v (gej_z b) -> feval 8 w zr -> fval (gej_z a) ==p v * w -> ratios (b :: l) zrs -> ratios (a :: b :: l) (zr :: zrs).

Definition finite (P : apoint) : Prop := P <> None.

(** [r] is the point [Q] on the isomorphic curve for a common [z] of [g]. *)
Definition scaled_rep (g : Z) (r : secp256k1_ge) (Q : apoint) : Prop :=
  match Q with None => False | Some (x, y) => ge_rep r (Some (x * (g * g), y * (g * g * g))) end.

Lemma scaled_back_rep (a : secp256k1_gej) (l : list secp256k1_gej) (P : list apoint) (zr : list secp256k1_fe) (zs : secp256k1_fe) (u g : Z) :
  ratios (a :: l) zr -> Forall2 gej_rep l P -> Forall finite P -> feval 8 u zs -> u * fval (gej_z a) ==p g ->
  Forall2 (scaled_rep g) (table_back zs l zr) P.
Proof.
  intros H. remember (a :: l) as al eqn:E. revert a l E P zs u. induction H as [a zr|a b l zr v w zrs B W E' H IH]; intros a' l' E P zs u HP HF Hu Hi; injection E as <- <-.
  - inversion HP; subst. constructor.
  - inversion HP as [|? Pb ? P' Rb HP' ]; subst. apply list.Forall_cons in HF as [Hb HF]. cbn [table_back]. destruct Pb as [[x y]|]; [|done]. destruct (Rb) as (Eb & z & Hz & Z & X & Y).
    assert (feval 1 (u * w) (secp256k1_fe_mul zs zr)) as V by fe_chain. assert (z ==p v) as Ez by (by rewrite <- (proj1 Z), (proj1 B)). rewrite E' in Hi. constructor.
    + split; [exact Eb|]. cbn [ge_x ge_y secp256k1_ge_set_gej_zinv]. split; fe_have; rewrite <- Hi, Ez; ring.
    + apply (IH b l eq_refl P' _ (u * w)); try assumption; [by apply (fe_weaken 1)|]. rewrite (proj1 B), <- Hi. ring.
Qed.

Lemma table_back_rep (a : secp256k1_gej) (l : list secp256k1_gej) (P : list apoint) (zr : list secp256k1_fe) (zi : secp256k1_fe) (u : Z) :
  ratios (a :: l) zr -> Forall2 gej_rep l P -> Forall finite P -> feval 8 u zi -> u * fval (gej_z a) ==p 1 -> Forall2 ge_rep (table_back zi l zr) P.
Proof.
  intros Hr HP HF Hu Hi. pose proof (scaled_back_rep a l P zr zi u 1 Hr HP HF Hu Hi) as B. eapply list.Forall2_impl; [exact B|]. intros r [[x y]|] H; [|done]. cbn [scaled_rep] in H.
  assert (peq (Some (x * (1 * 1), y * (1 * 1 * 1))) (Some (x, y))) as E by (split; ring). by rewrite E in H.
Qed.

Lemma set_table_rep (a : list secp256k1_gej) (zr : list secp256k1_fe) (P : list apoint) : ratios (rev a) (rev zr) -> Forall2 gej_rep a P -> Forall finite P ->
  Forall2 ge_rep (secp256k1_ge_set_table_gej_var a zr) P.
Proof.
  intros Hr Ha HF. unfold secp256k1_ge_set_table_gej_var. assert (Forall2 gej_rep (rev a) (rev P)) as Ha' by (by apply Forall2_rev). apply Forall_rev in HF.
  rewrite <- (rev_involutive P). destruct (rev a) as [|al l]; [inversion Hr|]. inversion Ha' as [|? Pl ? P' Hl Hr' E1 E2]; subst. apply Forall2_rev. rewrite <- E2 in HF. apply list.Forall_cons in HF as [Hf HF].
  destruct Pl as [[x y]|]; [|done]. destruct Hl as (Ei & z & Hz & Z & X & Y). assert (feval 1 (finv z) (secp256k1_fe_inv (gej_z al))) as V by fe_chain. constructor.
  - apply (set_gej_zinv_rep al _ 1 (finv z) x y z); try assumption; [lia|by apply finv_l].
  - apply (table_back_rep al l P' _ _ (finv z)); try assumption; [by apply (fe_weaken 1)|]. rewrite (proj1 Z). by apply finv_l.
Qed.

(** The table over a common [z]. *)
Lemma globalz_rep (a : list secp256k1_gej) (zr : list secp256k1_fe) (P : list apoint) : length zr = length a -> ratios (rev a) (rev zr) -> Forall2 gej_rep a P -> Forall finite P ->
  exists z g, (secp256k1_ge_globalz_set_table_gej a zr).2 = Some z /\ feval 8 g z /\ ~ g ==p 0 /\ Forall2 (scaled_rep g) (secp256k1_ge_globalz_set_table_gej a zr).1 P.
Proof.
  intros Hlen Hr Ha HF. unfold secp256k1_ge_globalz_set_table_gej. assert (Forall2 gej_rep (rev a) (rev P)) as Ha' by (by apply Forall2_rev). apply Forall_rev in HF.
  rewrite <- (rev_involutive P). rewrite <- (length_rev zr), <- (length_rev a) in Hlen. destruct (rev a) as [|al l]; [inversion Hr|]. destruct (rev zr) as [|zs zr']; [done|].
  inversion Ha' as [|? Pl ? P' Hl Hr' E1 E2]; subst. rewrite <- E2 in HF. apply list.Forall_cons in HF as [Hf HF]. destruct Pl as [[x y]|]; [|done]. destruct Hl as (Ei & z & Hz & Z & X & Y).
  exists (gej_z al), z. cbn [fst snd]. split; [done|]. split; [exact Z|]. split; [exact Hz|]. apply Forall2_rev. constructor; [done|].
  inversion Hr as [|? b l' ? v w zrs B W E H E3]; subst; [by inversion Hr'|]. inversion Hr' as [|? Pb ? P'' Rb HP'']; subst. apply list.Forall_cons in HF as [Hb HF].
  destruct Pb as [[bx by_]|]; [|done]. destruct (Rb) as (Eb & zb & Hzb & Zb & Xb & Yb). assert (w * v ==p z) as Eg by (rewrite <- (proj1 Z), E; ring). assert (zb ==p v) as Ev by (by rewrite <- (proj1 Zb), (proj1 B)).
  constructor.
  - split; [exact Eb|]. cbn [ge_x ge_y secp256k1_ge_set_gej_zinv]. split; fe_have; rewrite <- Eg, Ev; ring.
  - apply (scaled_back_rep b l' P'' _ zs w); try assumption. by rewrite (proj1 B).
Qed.

(** ** Points with a given x *)

Lemma set_xquad_spec (x : secp256k1_fe) (v : Z) : feval 8 v x -> let '(r, ok) := secp256k1_ge_set_xquad x in
  (ok = true <-> exists y, on_curve (Some (v, y))) /\ (ok = true -> exists y s, y ==p s * s /\ feval 1 y (ge_y r) /\ on_curve (Some (v, y)) /\ ge_x r = x /\ ge_infinity r = false).
Proof.
  intros X. unfold secp256k1_ge_set_xquad. cbv zeta. assert (feval 8 (v * v * v + 7) (secp256k1_fe_add (secp256k1_fe_set_int 7) (secp256k1_fe_mul x (secp256k1_fe_sqr x)))) as [V M] by (fe_have; ring).
  pose proof (fe_sqrt_spec _ M) as S. destruct (secp256k1_fe_sqrt _) as [r ok]. destruct S as (Mr & [s Es] & E1 & E2). rewrite V in E1. split.
  - rewrite E2. by setoid_rewrite V.
  - intros Hok%E1. exists (fval r), s. cbn [ge_x ge_y ge_infinity on_curve]. split; [exact Es|]. split; [by apply fe_value|]. by split.
Qed.

Lemma feval_normalize_var (m v : Z) (x : secp256k1_fe) : feval m v x -> 0 <= m <= 2000 -> normalized (secp256k1_fe_normalize_var x) /\ fval (secp256k1_fe_normalize_var x) = v mod field_p.
Proof. intros [E M] Hm. destruct (fe_normalize_var_spec x m M Hm) as [N V]. split; [exact N|]. rewrite <- (normalized_range _ N). by rewrite <- E. Qed.

Lemma normalized_value (x : secp256k1_fe) : normalized x -> 0 <= fval x < field_p.
Proof. intros []. split; [unfold fval; lia|assumption]. Qed.

(** The other root has the other parity. *)
Lemma opposite_odd (y : Z) : ~ y ==p 0 -> (- y) mod field_p mod 2 = 1 - y mod field_p mod 2.
Proof.
  intros Hy. assert (y mod field_p <> 0) as Hn by (intros E; apply Hy; unfold eqp; by rewrite E, Z.mod_0_l by done). rewrite (Z_mod_nz_opp_full y field_p Hn).
  pose proof (Z.mod_pos_bound y field_p ltac:(done)). assert (field_p mod 2 = 1) as Hp by done. rewrite Zminus_mod, Hp. pose proof (Z.mod_pos_bound (y mod field_p) 2 ltac:(lia)).
  assert ((y mod field_p) mod 2 = 0 \/ (y mod field_p) mod 2 = 1) as [->| ->] by lia; done.
Qed.

Lemma set_xo_spec (x : secp256k1_fe) (v odd : Z) : feval 8 v x -> odd = 0 \/ odd = 1 -> let '(r, ok) := secp256k1_ge_set_xo_var x odd in
  (ok = true <-> exists y, on_curve (Some (v, y))) /\
  (ok = true -> exists y, 0 <= y < field_p /\ y mod 2 = odd /\ on_curve (Some (v, y)) /\ ge_rep r (Some (v, y)) /\ ge_x r = x).
Proof.
  intros X Ho. unfold secp256k1_ge_set_xo_var. pose proof (set_xquad_spec x v X) as S. destruct (secp256k1_ge_set_xquad x) as [r [|]]; cbn [negb].
  - destruct S as [S1 S2]. split; [exact S1|]. intros _. destruct (S2 eq_refl) as (y & s & _ & Y & Hc & Ex & Ei). destruct (feval_normalize_var 1 y _ Y ltac:(lia)) as [N V].
    pose proof (curve_y v y Hc) as Hy. pose proof (Z.mod_pos_bound y field_p ltac:(done)). assert (on_curve (Some (v, y mod field_p))) as Hc' by (cbn [on_curve]; by rewrite (eqp_mod y)).
    cbv zeta. rewrite (fe_is_odd_spec _ N), V. destruct (Z.eqb_spec ((y mod field_p) mod 2) odd) as [E|E]; cbn [negb].
    + exists (y mod field_p). split; [lia|]. split; [exact E|]. split; [exact Hc'|]. split; [|exact Ex]. split; [exact Ei|]. cbn [ge_x ge_y]. rewrite Ex. split; [exact X|].
      split; [by rewrite V|]. apply (magnitude_weaken 1); [by apply normalized_magnitude|lia].
    + exists ((- y) mod field_p). split; [apply Z.mod_pos_bound; done|]. split; [rewrite (opposite_odd y Hy); pose proof (Z.mod_pos_bound (y mod field_p) 2); lia|].
      split; [cbn [on_curve] in *; rewrite (eqp_mod (- y)), <- Hc; ring|]. split; [|exact Ex]. split; [exact Ei|]. cbn [ge_x ge_y]. rewrite Ex. split; [exact X|].
      assert (feval 1 y (secp256k1_fe_normalize_var (ge_y r))) as Yn by (split; [rewrite V; apply eqp_mod|by apply normalized_magnitude]). fe_have. by rewrite (eqp_mod (- y)).
  - destruct S as [S1 _]. by split.
Qed.

(** ** Tests *)

Lemma ge_is_valid_spec (a : secp256k1_ge) (x y : Z) : feval 8 x (ge_x a) -> feval 8 y (ge_y a) -> secp256k1_ge_is_valid_var a = true <-> ge_infinity a = false /\ on_curve (Some (x, y)).
Proof.
  intros X Y. unfold secp256k1_ge_is_valid_var. destruct (ge_infinity a); [by split; [|intros []]|]. cbv zeta.
  rewrite (feval_equal_var 1 1 (y * y) (x * x * x + 7)); [tauto|fe_chain|fe_have; ring|lia|lia].
Qed.

Lemma gej_is_valid_spec (a : secp256k1_gej) (x y z : Z) : feval 8 z (gej_z a) -> feval 8 (x * (z * z)) (gej_x a) -> feval 8 (y * (z * z * z)) (gej_y a) -> ~ z ==p 0 ->
  secp256k1_gej_is_valid_var a = true <-> gej_infinity a = false /\ on_curve (Some (x, y)).
Proof.
  intros Z X Y Hz. unfold secp256k1_gej_is_valid_var. destruct (gej_infinity a); [by split; [|intros []]|]. cbv zeta.
  rewrite (feval_equal_var 1 1 (y * y * (z * z * z * (z * z * z))) ((x * x * x + 7) * (z * z * z * (z * z * z)))); [|fe_have; ring|fe_have; ring|lia|lia].
  rewrite <- sub_zero. cbn [on_curve]. rewrite <- (sub_zero (y * y)), <- (scaled_zero (y * y - (x * x * x + 7)) (z * z * z * (z * z * z))) by (repeat apply mul_nonzero; assumption).
  split; [intros H; split; [done|]|intros [_ H]]; rewrite <- H; ring.
Qed.

Lemma eq_x_spec (a : secp256k1_gej) (fx : secp256k1_fe) (u x y : Z) : gej_rep a (Some (x, y)) -> feval 8 u fx -> secp256k1_gej_eq_x_var fx a = true <-> x ==p u.
Proof.
  intros (_ & z & Hz & Z & X & _) U. unfold secp256k1_gej_eq_x_var. cbv zeta. rewrite (feval_equal_var 1 1 (u * (z * z)) (x * (z * z))); [|fe_have; ring|fe_have; ring|lia|lia].
  rewrite <- sub_zero, <- (sub_zero x u), <- (scaled_zero (x - u) (z * z)) by (by apply mul_nonzero). split; intros H.
  - transitivity (- (u * (z * z) - x * (z * z))); [ring|]. rewrite H. ring.
  - transitivity (- ((x - u) * (z * z))); [ring|]. rewrite H. ring.
Qed.

(** [y / z^3] is a square exactly if [y z] is. *)
Lemma has_quad_y_spec (a : secp256k1_gej) (x y : Z) : gej_rep a (Some (x, y)) -> secp256k1_gej_has_quad_y_var a = true <-> exists s, s * s ==p y.
Proof.
  intros (E & z & Hz & Z & _ & Y). unfold secp256k1_gej_has_quad_y_var, secp256k1_fe_is_quad_var. rewrite E. assert (feval 8 (y * (z * z * z) * z) (secp256k1_fe_mul (gej_y a) (gej_z a))) as [V M] by (fe_have; ring).
  pose proof (fe_sqrt_spec _ M) as S. destruct (secp256k1_fe_sqrt _) as [r ok]. destruct S as (_ & _ & _ & ->). pose proof (finv_l z Hz) as Ei. split; intros [s Hs].
  - exists (s * finv z * finv z). rewrite V in Hs. transitivity ((s * s) * (finv z * finv z * finv z * finv z)); [ring|]. rewrite Hs.
    transitivity (y * (finv z * z) * (finv z * z) * (finv z * z) * (finv z * z)); [ring|]. rewrite Ei. ring.
  - exists (s * (z * z)). rewrite V, <- Hs. ring.
Qed.

(** ** The ratio of the [z] coordinates *)

Lemma double_ratio (r a : secp256k1_gej) (z x y : Z) : gej_infinity a = false -> feval 8 z (gej_z a) -> feval 8 x (gej_x a) -> feval 8 y (gej_y a) -> 
  exists rzr, (secp256k1_gej_double_var r a).2 = Some rzr /\ magnitude 2 rzr /\ fval (gej_z (secp256k1_gej_double_var r a).1) ==p z * fval rzr.
Proof.
  intros E Z X Y. unfold secp256k1_gej_double_var. rewrite E. cbv zeta. cbn [fst snd gej_z]. eexists. split; [done|].
  assert (feval 2 (2 * y) (secp256k1_fe_mul_int (secp256k1_fe_normalize_weak (gej_y a)) 2)) as [V M] by (fe_have; ring). split; [exact M|].
  assert (feval 2 (2 * (z * y)) (secp256k1_fe_mul_int (secp256k1_fe_mul (gej_z a) (gej_y a)) 2)) as [V' _] by (fe_have; ring). rewrite V, V'. ring.
Qed.

(** Where the sum is finite it has the [z] of the first point times the ratio. *)
Lemma add_ge_var_ratio (r a : secp256k1_gej) (b : secp256k1_ge) (P Q : apoint) : on_curve P -> on_curve Q -> gej_rep a P -> ge_rep b Q -> gej_infinity a = false ->
  gej_infinity (secp256k1_gej_add_ge_var r a b).1 = false ->
  exists rzr, (secp256k1_gej_add_ge_var r a b).2 = Some rzr /\ magnitude 8 rzr /\ fval (gej_z (secp256k1_gej_add_ge_var r a b).1) ==p fval (gej_z a) * fval rzr.
Proof.
  intros HP HQ Ra Rb Ea Er. unfold secp256k1_gej_add_ge_var in *. rewrite Ea in *. destruct P as [[x1 y1]|]; [|cbn in Ra; congruence]. destruct Ra as (_ & z1 & Hz1 & Z1 & X1 & Y1).
  destruct Q as [[x2 y2]|].
  - destruct Rb as (Eb & X2 & Y2). rewrite Eb in *. cbv zeta in *. destruct (secp256k1_fe_normalizes_to_zero_var _).
    + destruct (secp256k1_fe_normalizes_to_zero_var _); [|done]. destruct (double_ratio (mk_gej (gej_x r) (gej_y r) (gej_z r) false) a _ _ _ Ea Z1 X1 Y1) as (rzr & E & M & V). exists rzr. split; [exact E|].
      split; [by apply (magnitude_weaken 2)|]. by rewrite V, (proj1 Z1).
    + cbn [fst snd gej_z]. eexists. split; [done|]. set (h := secp256k1_fe_add _ _). assert (feval 8 ((x2 - x1) * (z1 * z1)) h) as H by (unfold h; fe_have; ring). split; [apply H|].
      assert (feval 1 (z1 * ((x2 - x1) * (z1 * z1))) (secp256k1_fe_mul (gej_z a) h)) as [V _] by (fe_have; ring). by rewrite V, (proj1 Z1), (proj1 H).
  - cbn in Rb. rewrite Rb. eexists. split; [done|]. destruct (feval_int 1 ltac:(lia)) as [V M]. split; [by apply (magnitude_weaken 1)|]. cbn [fst]. rewrite V. ring.
Qed.

(** ** The packed form *)

Lemma ge_storage_roundtrip (a : secp256k1_ge) (x y : Z) : ge_rep a (Some (x, y)) ->
  let r := secp256k1_ge_from_storage (secp256k1_ge_to_storage a) in ge_rep r (Some (x, y)) /\ fval (ge_x r) = x mod field_p /\ fval (ge_y r) = y mod field_p.
Proof.
  intros (E & [Vx Mx] & [Vy My]). cbv zeta. unfold secp256k1_ge_from_storage, secp256k1_ge_to_storage. cbn [ges_x ges_y ge_x ge_y ge_rep ge_infinity].
  destruct (fe_normalize_spec _ 8 Mx ltac:(lia)) as [Nx Fx]. destruct (fe_normalize_spec _ 8 My ltac:(lia)) as [Ny Fy]. rewrite !storage_roundtrip by assumption.
  assert (forall n, normalized n -> magnitude 8 n) as W by (intros n Hn; apply (magnitude_weaken 1); [by apply normalized_magnitude|lia]).
  split; [split; [done|]; split; (split; [|by apply W]); [by rewrite Fx|by rewrite Fy]|]. rewrite <- (normalized_range _ Nx), <- (normalized_range _ Ny). split; [by rewrite <- Vx|by rewrite <- Vy].
Qed.

(** ** Public keys *)

(** The bytes [pub] stand for the point [(x, y)]. *)
Definition pubkey_of (pub : list Z) (x y : Z) : Prop :=
  0 <= x < field_p /\ 0 <= y < field_p /\ on_curve (Some (x, y)) /\
  (pub = 2 + y mod 2 :: be_bytes 32 x \/ pub = 4 :: be_bytes 32 x ++ be_bytes 32 y \/ pub = 6 + y mod 2 :: be_bytes 32 x ++ be_bytes 32 y).

Lemma field_p_bound : 0 < field_p < 256 ^ Z.of_nat 32.
Proof. split; reflexivity. Qed.

Lemma b32_of_bytes (b : list Z) : is_bytes b -> length b = 32%nat -> b = be_bytes 32 (be_val b).
Proof. intros Hb Hl. by rewrite <- Hl, be_bytes_val. Qed.

Lemma b32_value (x : Z) : 0 <= x < field_p -> be_val (be_bytes 32 x) = x.
Proof. intros Hx. rewrite be_val_bytes. pose proof field_p_bound. apply Z.mod_small. lia. Qed.

(** What reading a coordinate gives. *)
Lemma read_coordinate (b : list Z) : is_bytes b -> length b = 32%nat -> let '(x, ok) := secp256k1_fe_set_b32 b in
  ok = (be_val b <? field_p) /\ (ok = true -> 0 <= be_val b < field_p /\ normalized x /\ fval x = be_val b /\ feval 8 (be_val b) x).
Proof.
  intros Hb Hl. pose proof (fe_set_b32_spec b Hb Hl) as S. pose proof (be_val_32 b Hb Hl). destruct (secp256k1_fe_set_b32 b) as [x ok]. destruct S as (V & E & N). split; [exact E|].
  intros Hok. specialize (N Hok). subst ok. apply Z.ltb_lt in Hok. split; [lia|]. split; [exact N|]. split; [exact V|]. split; [by rewrite V|]. apply (magnitude_weaken 1); [by apply normalized_magnitude|lia].
Qed.

#[local] Opaque secp256k1_fe_set_b32 secp256k1_ge_set_xo_var secp256k1_ge_is_valid_var secp256k1_fe_is_odd be_bytes.

Lemma parse_compressed (b0 : Z) (xb : list Z) : is_bytes xb -> length xb = 32%nat -> b0 = 2 \/ b0 = 3 ->
  match secp256k1_eckey_pubkey_parse (b0 :: xb) with
  | Some e => exists x y, pubkey_of (b0 :: xb) x y /\ ge_rep e (Some (x, y))
  | None => forall x y, ~ pubkey_of (b0 :: xb) x y
  end.
Proof.
  intros Hb Hl H0. unfold secp256k1_eckey_pubkey_parse. unfold zlen. cbn [length nth drop]. rewrite drop_0, Hl, take_ge by lia. change (Z.of_nat 33 =? 33) with true. cbv zeta.
  assert ((b0 =? 2) || (b0 =? 3) = true) as -> by (destruct H0 as [-> | ->]; done). cbn [andb]. pose proof (read_coordinate xb Hb Hl) as R. destruct (secp256k1_fe_set_b32 xb) as [fx okx]. destruct R as [Eok R].
  assert (forall x y, pubkey_of (b0 :: xb) x y -> xb = be_bytes 32 x /\ b0 = 2 + y mod 2) as Inv.
  { intros x y (_ & _ & _ & [E|[E|E]]); [by injection E as -> ->|exfalso|exfalso]; apply (f_equal length) in E; cbn [length] in E; rewrite length_app, !be_bytes_length in E; lia. }
  destruct okx; cbn [negb].
  - destruct (R eq_refl) as (Hx & N & V & X). assert (Z.b2z (b0 =? 3) = 0 \/ Z.b2z (b0 =? 3) = 1) as Ho by (destruct (b0 =? 3); [by right|by left]).
    pose proof (set_xo_spec fx (be_val xb) _ X Ho) as S. destruct (secp256k1_ge_set_xo_var fx _) as [e ok]. destruct S as [S1 S2]. destruct ok.
    + destruct (S2 eq_refl) as (y & Hy & Hp & Hc & Re & _). exists (be_val xb), y. split; [|exact Re]. repeat (split; [assumption|]). left. rewrite <- b32_of_bytes by assumption. f_equal. rewrite Hp. destruct H0 as [-> | ->]; done.
    + intros x y Hp. destruct (Inv x y Hp) as [E _]. destruct Hp as (Hx' & _ & Hc & _). assert (false = true); [|done]. apply S1. exists y. by rewrite E, b32_value.
  - intros x y Hp. destruct (Inv x y Hp) as [E _]. destruct Hp as (Hx' & _). rewrite E, b32_value in Eok by exact Hx'. symmetry in Eok. apply Z.ltb_ge in Eok. lia.
Qed.

Lemma parse_full (b0 : Z) (xb yb : list Z) : is_bytes xb -> length xb = 32%nat -> is_bytes yb -> length yb = 32%nat -> b0 = 4 \/ b0 = 6 \/ b0 = 7 ->
  match secp256k1_eckey_pubkey_parse (b0 :: xb ++ yb) with
  | Some e => exists x y, pubkey_of (b0 :: xb ++ yb) x y /\ ge_rep e (Some (x, y))
  | None => forall x y, ~ pubkey_of (b0 :: xb ++ yb) x y
  end.
Proof.
  intros Hbx Hlx Hby Hly H0. unfold secp256k1_eckey_pubkey_parse. unfold zlen. cbn [length nth drop]. rewrite drop_0, length_app, Hlx, Hly. change (Z.of_nat (S (32 + 32)) =? 33) with false. change (Z.of_nat (S (32 + 32)) =? 65) with true.
  rewrite take_app_length', (drop_app_length' _ _ 32 (eq_sym Hlx) : drop 32 (xb ++ yb) = yb), (take_ge yb) by lia. cbv zeta.
  assert ((b0 =? 4) || (b0 =? 6) || (b0 =? 7) = true) as -> by (destruct H0 as [-> |[-> | ->]]; done). cbn [andb].
  pose proof (read_coordinate xb Hbx Hlx) as Rx. destruct (secp256k1_fe_set_b32 xb) as [fx okx]. destruct Rx as [Ex Rx]. pose proof (read_coordinate yb Hby Hly) as Ry. destruct (secp256k1_fe_set_b32 yb) as [fy oky]. destruct Ry as [Ey Ry].
  assert (forall x y, pubkey_of (b0 :: xb ++ yb) x y -> be_val xb = x /\ be_val yb = y /\ (b0 = 4 \/ b0 = 6 + y mod 2)) as Inv.
  { intros x y (Hx & Hy & _ & [E|E]).
    - exfalso. apply (f_equal length) in E. cbn [length] in E. rewrite length_app, be_bytes_length in E. lia.
    - assert (xb ++ yb = be_bytes 32 x ++ be_bytes 32 y /\ (b0 = 4 \/ b0 = 6 + y mod 2)) as [E' Hb0] by (destruct E as [E|E]; injection E as -> ->; tauto).
      apply app_inj_1 in E' as [-> ->]; [|by rewrite be_bytes_length]. by rewrite !b32_value. }
  destruct okx, oky; cbn [negb orb].
  - destruct (Rx eq_refl) as (Hx & Nx & Vx & X). destruct (Ry eq_refl) as (Hy & Ny & Vy & Y). rewrite (fe_is_odd_spec fy Ny), Vy.
    destruct (((b0 =? 6) || (b0 =? 7)) && negb (be_val yb mod 2 =? Z.b2z (b0 =? 7))) eqn:Eh.
    + intros x y Hp. destruct (Inv x y Hp) as (_ & E2 & Hb0). rewrite E2 in Eh. pose proof (Z.mod_pos_bound y 2 ltac:(lia)). destruct Hb0 as [-> | Hb0]; [done|]. assert (y mod 2 = 0 \/ y mod 2 = 1) as [Hm|Hm] by lia; rewrite Hb0, Hm in Eh; done.
    + pose proof (ge_is_valid_spec (secp256k1_ge_set_xy fx fy) _ _ X Y) as V. destruct (secp256k1_ge_is_valid_var _).
      * destruct (proj1 V eq_refl) as [_ Hc]. exists (be_val xb), (be_val yb). split; [|by split]. repeat (split; [assumption|]). right. rewrite <- !b32_of_bytes by assumption.
        destruct H0 as [-> |[-> | ->]]; [by left|right..]; f_equal; cbn [Z.eqb orb andb Z.b2z] in Eh; apply negb_false_iff, Z.eqb_eq in Eh; rewrite Eh; done.
      * intros x y Hp. destruct (Inv x y Hp) as (E1 & E2 & _). destruct Hp as (_ & _ & Hc & _). assert (false = true); [|done]. apply V. split; [done|]. by rewrite E1, E2.
  - intros x y Hp. destruct (Inv x y Hp) as (_ & E2 & _). destruct Hp as (_ & Hy & _). rewrite E2 in Ey. symmetry in Ey. apply Z.ltb_ge in Ey. lia.
  - intros x y Hp. destruct (Inv x y Hp) as (E1 & _). destruct Hp as (Hx & _). rewrite E1 in Ex. symmetry in Ex. apply Z.ltb_ge in Ex. lia.
  - intros x y Hp. destruct (Inv x y Hp) as (E1 & _). destruct Hp as (Hx & _). rewrite E1 in Ex. symmetry in Ex. apply Z.ltb_ge in Ex. lia.
Qed.

Lemma pubkey_of_shape (pub : list Z) (x y : Z) : pubkey_of pub x y ->
  (zlen pub = 33 /\ (nth 0 pub 0 = 2 \/ nth 0 pub 0 = 3)) \/ (zlen pub = 65 /\ (nth 0 pub 0 = 4 \/ nth 0 pub 0 = 6 \/ nth 0 pub 0 = 7)).
Proof.
  intros (_ & _ & _ & H). pose proof (Z.mod_pos_bound y 2 ltac:(lia)). unfold zlen.
  destruct H as [-> |[-> | ->]]; cbn [nth length]; rewrite ?length_app, !be_bytes_length; [left; split; [done|lia]|right; split; [done|lia]..].
Qed.

Lemma pubkey_parse_exact (pub : list Z) : is_bytes pub ->
  match secp256k1_eckey_pubkey_parse pub with
  | Some e => exists x y, pubkey_of pub x y /\ ge_rep e (Some (x, y))
  | None => forall x y, ~ pubkey_of pub x y
  end.
Proof.
  intros Hb. destruct (decide ((zlen pub = 33 /\ (nth 0 pub 0 = 2 \/ nth 0 pub 0 = 3)) \/ (zlen pub = 65 /\ (nth 0 pub 0 = 4 \/ nth 0 pub 0 = 6 \/ nth 0 pub 0 = 7)))) as [H|H].
  - destruct pub as [|b0 l]; [cbn in H; unfold zlen in H; cbn in H; lia|]. cbn [nth] in H. apply list.Forall_cons in Hb as [_ Hb]. unfold zlen in H. cbn [length] in H. destruct H as [[Hl H0]|[Hl H0]].
    + apply parse_compressed; [exact Hb|lia|exact H0].
    + rewrite <- (take_drop 32 l) in Hb |- *. apply is_bytes_app in Hb as [Hx Hy]. apply parse_full; [exact Hx|rewrite length_take; lia|exact Hy|rewrite length_drop; lia|exact H0].
  - unfold secp256k1_eckey_pubkey_parse. cbv zeta. destruct ((zlen pub =? 33) && _) eqn:E1; [exfalso; apply H; lia|]. destruct ((zlen pub =? 65) && _) eqn:E2; [exfalso; apply H; lia|].
    intros x y Hp. by apply H, (pubkey_of_shape pub x y).
Qed.

(** Writing a point, and the element that is left. *)
Lemma pubkey_serialize_spec (e : secp256k1_ge) (c : bool) (x y : Z) : ge_rep e (Some (x, y)) -> 0 <= x < field_p -> 0 <= y < field_p ->
  exists e', secp256k1_eckey_pubkey_serialize e c = Some (if c then 2 + y mod 2 :: be_bytes 32 x else 4 :: be_bytes 32 x ++ be_bytes 32 y, e') /\
    ge_rep e' (Some (x, y)) /\ normalized (ge_x e') /\ normalized (ge_y e').
Proof.
  intros (Ei & X & Y) Hx Hy. unfold secp256k1_eckey_pubkey_serialize, secp256k1_ge_is_infinity. rewrite Ei. cbv zeta.
  destruct (feval_normalize_var 8 x _ X ltac:(lia)) as [Nx Vx]. destruct (feval_normalize_var 8 y _ Y ltac:(lia)) as [Ny Vy]. rewrite Z.mod_small in Vx, Vy by assumption.
  rewrite (fe_is_odd_spec _ Ny), !fe_get_b32_spec, Vx, Vy by assumption. eexists. split; [do 2 f_equal; destruct c; [f_equal|done]|].
  - pose proof (Z.mod_pos_bound y 2 ltac:(lia)). assert (y mod 2 = 0 \/ y mod 2 = 1) as [-> | ->] by lia; done.
  - cbn [ge_x ge_y]. split; [|by split]. split; [done|]. cbn [ge_x ge_y]. split; (split; [by rewrite ?Vx, ?Vy|]); (apply (magnitude_weaken 1); [by apply normalized_magnitude|lia]).
Qed.

Lemma cons_eq {A} (a b : A) (l k : list A) : a :: l = b :: k -> a = b /\ l = k.
Proof. intros E. by injection E. Qed.

Lemma pubkey_unique (pub : list Z) (x y x' y' : Z) : pubkey_of pub x y -> pubkey_of pub x' y' -> x = x' /\ y = y'.
Proof.
  intros (Hx & Hy & Hc & H) (Hx' & Hy' & Hc' & H'). assert (forall u v, 0 <= u < field_p -> 0 <= v < field_p -> be_bytes 32 u = be_bytes 32 v -> u = v) as Inj by (intros u v Hu Hv E; by rewrite <- (b32_value u), E, b32_value).
  assert (forall a b c d : Z, 0 <= a < field_p -> 0 <= b < field_p -> be_bytes 32 a ++ be_bytes 32 c = be_bytes 32 b ++ be_bytes 32 d -> 0 <= c < field_p -> 0 <= d < field_p -> a = b /\ c = d) as Inj2.
  { intros a b c d Ha Hb E Hc1 Hd. apply app_inj_1 in E as [E1 E2]; [|by rewrite !be_bytes_length]. split; [by apply Inj|by apply Inj]. }
  assert (forall (a b : Z) (k l m n : Z), a :: be_bytes 32 k = b :: be_bytes 32 m ++ be_bytes 32 n -> False) as Len by (intros a b k _ m n E; apply (f_equal length) in E; cbn [length] in E; rewrite length_app, !be_bytes_length in E; lia).
  pose proof (Z.mod_pos_bound y 2 ltac:(lia)). pose proof (Z.mod_pos_bound y' 2 ltac:(lia)).
  destruct H as [-> |H]; destruct H' as [E|H'].
  - apply cons_eq in E as [Ep Eb]. apply (Inj x x' Hx Hx') in Eb. subst x'. split; [done|]. destruct (same_x x y x y' Hc Hc' ltac:(done)) as [E|E].
    + unfold eqp in E. by rewrite !Z.mod_small in E by assumption.
    + exfalso. pose proof (opposite_odd y (curve_y x y Hc)) as O. assert ((- y) mod field_p = y') as Ey by (rewrite <- (Z.mod_small y' field_p Hy'); rewrite opp_of_sum in E; symmetry; transitivity ((- - y') mod field_p); [by rewrite Z.opp_involutive|]; assert (- y ==p - - y') as -> by (by rewrite E); done).
      rewrite Ey, (Z.mod_small y field_p Hy) in O. lia.
  - exfalso. destruct H' as [E|E]; by apply (Len _ _ x 0 x' y') in E.
  - exfalso. rewrite E in H. destruct H as [H|H]; by apply (Len _ _ x' 0 x y) in H.
  - destruct H as [-> | ->], H' as [E|E]; apply cons_eq in E as [_ E]; by apply Inj2.
Qed.

(** C21: [secp256k1_eckey_pubkey_parse] accepts exactly the encodings of points of the
    curve, compressed, full, or full with the parity of [y] (hybrid), and returns the
    point that they stand for; writing a point gives such an encoding, and
    reading it back gives the point. *)
Theorem pubkey_exact (pub : list Z) (e : secp256k1_ge) (c : bool) (x y : Z) : is_bytes pub -> on_curve (Some (x, y)) -> ge_rep e (Some (x, y)) -> 0 <= x < field_p -> 0 <= y < field_p ->
  match secp256k1_eckey_pubkey_parse pub with
  | Some e => exists x y, pubkey_of pub x y /\ ge_rep e (Some (x, y))
  | None => forall x y, ~ pubkey_of pub x y
  end /\
  exists b e' e'', secp256k1_eckey_pubkey_serialize e c = Some (b, e') /\ pubkey_of b x y /\ secp256k1_eckey_pubkey_parse b = Some e'' /\ ge_rep e'' (Some (x, y)).
Proof.
  intros Hb Hc Re Hx Hy. split; [by apply pubkey_parse_exact|]. destruct (pubkey_serialize_spec e c x y Re Hx Hy) as (e' & S & _). set (b := if c then _ else _) in S.
  assert (pubkey_of b x y) as Hp by (repeat (split; [assumption|]); unfold b; destruct c; tauto). assert (is_bytes b) as Hbb.
  { pose proof (Z.mod_pos_bound y 2 ltac:(lia)). unfold b. destruct c; (apply is_bytes_cons; [unfold is_byte; lia|]); [|apply is_bytes_app; split]; apply be_bytes_is_bytes. }
  pose proof (pubkey_parse_exact b Hbb) as P. destruct (secp256k1_eckey_pubkey_parse b) as [e''|] eqn:E; [|by apply P in Hp]. destruct P as (x' & y' & Hp' & Re'').
  destruct (pubkey_unique b x y x' y' Hp Hp') as [<- <-]. by exists b, e', e''.
Qed.

Lemma pubkey_exact_witness : exists b e' e'', secp256k1_eckey_pubkey_serialize secp256k1_ge_const_g true = Some (b, e') /\ secp256k1_eckey_pubkey_parse b = Some e''.
Proof.
  destruct (pubkey_exact [] secp256k1_ge_const_g true _ _ ltac:(constructor) generator_on_curve generator_rep) as [_ (b & e' & e'' & S & _ & P & _)]; [by vm_compute..|]. by exists b, e', e''.
Defined.
