(* ===== verification/Address.v ===== *)
(** * Outputs from addresses: [btc_tx_add_address_out] of tx.c

    The composition of Base58Check, segwit addresses, scripts and transactions:
    the address text is decoded and an output with the script it names is
    appended. *)

From S2P Require Import Prelude.
From S2P Require Import Cstr.
From S2P Require Import Sha2.
From S2P Require Import Script.
From S2P Require Import Tx.
From S2P Require Import SegwitAddr.
From S2P Require Import Base58.

(** ** The code *)

(** The 20 bytes at [&buf[1]]. *)
Definition hash_at_1 (buf : list Z) : option (list Z) :=
  if 21 <=? zlen buf then Some (ztake 20 (zdrop 1 buf)) else None.

(** The result and the transaction. *)
Definition btc_tx_add_address_out (tx : btc_tx) (chain : btc_chainparams) (amount : Z) (address : list Z) :
    option (bool * btc_tx) :=
  '(r, buf) ← btc_base58_decode_check address (replicate (Z.to_nat (zlen address * 2)) 0);
  b ← (if 0 <? r then zget buf 0 else Some 0);
  if (0 <? r) && (b =? b58prefix_pubkey_address chain) then
    h ← hash_at_1 buf;
    tx ← btc_tx_add_p2pkh_hash160_out tx amount h;
    Some (true, tx)
  else if (0 <? r) && (b =? b58prefix_script_address chain) then
    h ← hash_at_1 buf;
    tx ← btc_tx_add_p2sh_hash160_out tx amount h;
    Some (true, tx)
  else
    match segwit_addr_decode (bech32_hrp chain) address with
    | Some (version, programm) =>
        if zlen programm =? 20 then
          tx ← add_out tx amount (fun s => btc_script_build_p2wpkh s programm);
          Some (false, tx)
        else Some (false, tx)
    | None => Some (false, tx)
    end.

(** ** Paying to an address *)

#[local] Opaque sha256_Raw.

(** The chains the library knows. *)
Definition known_chain (chain : btc_chainparams) : Prop :=
  In chain [btc_chainparams_main; btc_chainparams_test; btc_chainparams_regtest].

Lemma known_chain_prefix (chain : btc_chainparams) : known_chain chain ->
  is_byte (b58prefix_pubkey_address chain) /\ is_byte (b58prefix_script_address chain) /\
  0 < b58prefix_script_address chain /\ b58prefix_pubkey_address chain <> b58prefix_script_address chain.
Proof. unfold is_byte. intros [<-|[<-|[<-|[]]]]; cbn; lia. Qed.

Lemma known_chain_hrp (chain : btc_chainparams) : known_chain chain ->
  is_bytes (bech32_hrp chain) /\ (0 ∉ bech32_hrp chain) /\ bech32_hrp chain <> [].
Proof.
  intros [<-|[<-|[<-|[]]]]; (split; [by apply is_bytes_of|]); (split; [|done]); intros H; apply list_elem_of_In in H; cbn in H; lia.
Qed.

Lemma hash_at_1_spec (p : Z) (h t : list Z) : zlen h = 20 -> hash_at_1 ((p :: h) ++ t) = Some h.
Proof.
  intros Hl. unfold hash_at_1. rewrite zlen_app, zlen_cons. pose proof (zlen_nonneg t).
  replace (21 <=? _) with true by (symmetry; apply Z.leb_le; lia). change (zdrop 1 ((p :: h) ++ t)) with (drop 0 (h ++ t)).
  rewrite drop_0, ztake_app_len by done. done.
Qed.

(** The text of a Base58Check address: a prefix and a hash. *)
Lemma address_decodes (p : Z) (h addr : list Z) (strsize : Z) :
  is_byte p -> is_bytes h -> zlen h = 20 -> 0 <= strsize < 2 ^ 31 -> Exists (fun b => b <> 0) ((p :: h) ++ tag58 (p :: h)) ->
  btc_base58_encode_check (p :: h) strsize = Some (zlen addr + 1, addr) ->
  exists t, btc_base58_decode_check addr (replicate (Z.to_nat (zlen addr * 2)) 0) = Some (25, (p :: h) ++ t).
Proof.
  intros Hp Hh Hl Hs He Ee. pose proof (zlen_nonneg addr).
  rewrite (decode_check_encoded (p :: h) addr _ strsize); [|by constructor|rewrite zlen_cons; lia|done|done|done|rewrite zlen_replicate; lia].
  rewrite zlen_cons, Hl. eexists. done.
Qed.

Lemma add_address_p2pkh (x : btc_tx) (chain : btc_chainparams) (amount : Z) (h addr t : list Z) :
  zlen h = 20 ->
  btc_base58_decode_check addr (replicate (Z.to_nat (zlen addr * 2)) 0) = Some (25, (b58prefix_pubkey_address chain :: h) ++ t) ->
  btc_tx_add_address_out x chain amount addr = (y ← btc_tx_add_p2pkh_hash160_out x amount h; Some (true, y)).
Proof.
  intros Hl E. unfold btc_tx_add_address_out. rewrite E. cbn [mbind option_bind Z.ltb Z.compare].
  change (zget ((b58prefix_pubkey_address chain :: h) ++ t) 0) with (Some (b58prefix_pubkey_address chain)).
  cbn [mbind option_bind]. rewrite Z.eqb_refl. cbn [andb]. by rewrite hash_at_1_spec.
Qed.

Lemma add_address_p2sh (x : btc_tx) (chain : btc_chainparams) (amount : Z) (h addr t : list Z) :
  zlen h = 20 -> b58prefix_pubkey_address chain <> b58prefix_script_address chain ->
  btc_base58_decode_check addr (replicate (Z.to_nat (zlen addr * 2)) 0) = Some (25, (b58prefix_script_address chain :: h) ++ t) ->
  btc_tx_add_address_out x chain amount addr = (y ← btc_tx_add_p2sh_hash160_out x amount h; Some (true, y)).
Proof.
  intros Hl Hne E. unfold btc_tx_add_address_out. rewrite E. cbn [mbind option_bind Z.ltb Z.compare].
  change (zget ((b58prefix_script_address chain :: h) ++ t) 0) with (Some (b58prefix_script_address chain)).
  cbn [mbind option_bind]. replace (_ =? b58prefix_pubkey_address chain) with false by (symmetry; apply Z.eqb_neq; lia).
  rewrite Z.eqb_refl. cbn [andb]. by rewrite hash_at_1_spec.
Qed.

(** The zero hash on the main chain is the only address whose payload is zero;
    its checksum is not. *)
Lemma zero_hash_tag : Exists (fun b => b <> 0) (tag58 (replicate 21 0)).
Proof.
  assert (take 4 (sha256_Raw (sha256_Raw (replicate 21 0))) = [148; 160; 9; 17]) as E by (vm_compute; reflexivity).
  rewrite tag58_eq in E. rewrite E. by left.
Qed.

Lemma payload_nonzero (p : Z) (h : list Z) : zlen h = 20 -> Exists (fun b => b <> 0) ((p :: h) ++ tag58 (p :: h)).
Proof.
  intros Hl. destruct (decide (Exists (fun b => b <> 0) (p :: h))) as [He|He]; [apply Exists_app; by left|].
  apply Exists_app. right. assert (p :: h = replicate 21 0) as ->; [|apply zero_hash_tag].
  assert (forall l, ~ Exists (fun b => b <> 0) l -> l = replicate (length l) 0) as Z0.
  { induction l as [|b l IH]; intros H; [done|]. cbn [length replicate]. f_equal.
    - destruct (decide (b = 0)); [done|]. exfalso. apply H. by left.
    - apply IH. intros H'. apply H. by right. }
  rewrite (Z0 (p :: h) He). f_equal. unfold zlen in Hl. cbn. lia.
Qed.

Lemma encoded_length (p str : list Z) (strsize r : Z) :
  is_bytes p -> zlen p <= 128 -> 0 <= strsize < 2 ^ 31 -> btc_base58_encode_check p strsize = Some (r, str) -> 0 < r ->
  r = zlen str + 1.
Proof.
  intros Hp Hl Hs E Hr. destruct (encode_check_spec58 p strsize Hp Hl Hs) as (str' & _ & E'). rewrite E' in E.
  case_bool; injection E as <- <-; [done|lia].
Qed.

(** C32: an address pays to what it was made from.  On each chain, adding the
    output of a pay-to-pubkey-hash address made by [btc_p2pkh_addr_from_hash160],
    or of a Base58Check text of the script prefix and a hash, appends one output
    with the given amount whose script is classified as the right type with that
    very hash, and returns true; an address made by
    [btc_p2wpkh_addr_from_hash160], when its text is not also valid
    Base58Check, appends the pay-to-witness-pubkey-hash output, but returns
    false. *)
Theorem address_pays (x : btc_tx) (a : atx) (chain : btc_chainparams) (amount : Z) (h addr : list Z) (strsize : Z) :
  rep_tx x a -> known_chain chain -> is_bytes h -> zlen h = 20 -> 0 <= strsize < 2 ^ 31 ->
  let plus bs := mk_atx (a_version a) (a_ins a) (a_outs a ++ [mk_tout amount bs]) (a_lock a) in
  let pays r type := exists y bs, btc_tx_add_address_out x chain amount addr = Some (r, y) /\ rep_tx y (plus bs) /\
    btc_script_classify bs (Some []) = Ret (type, Some [h]) in
  (btc_p2pkh_addr_from_hash160 h chain strsize = Some (true, addr) -> pays true BTC_TX_PUBKEYHASH) /\
  (btc_base58_encode_check (b58prefix_script_address chain :: h) strsize = Some (zlen addr + 1, addr) ->
   pays true BTC_TX_SCRIPTHASH) /\
  (btc_p2wpkh_addr_from_hash160 h chain = Some addr ->
   (exists buf, btc_base58_decode_check addr (replicate (Z.to_nat (zlen addr * 2)) 0) = Some (0, buf)) ->
   pays false BTC_TX_WITNESS_V0_PUBKEYHASH).
Proof.
  intros R Hk Hh Hl Hs. cbv zeta. destruct (known_chain_prefix chain Hk) as (Hp & Hq & _ & Hne). split_and!.
  - unfold btc_p2pkh_addr_from_hash160.
    destruct (btc_base58_encode_check (b58prefix_pubkey_address chain :: h) strsize) as [[r str]|] eqn:Ee; [|done].
    cbn [mbind option_bind]. intros [= Hr ->]. apply Z.ltb_lt in Hr.
    rewrite (encoded_length _ _ _ _ (is_bytes_cons _ _ Hp Hh) ltac:(rewrite zlen_cons; lia) Hs Ee Hr) in Ee.
    destruct (address_decodes _ h addr strsize Hp Hh Hl Hs (payload_nonzero _ h Hl) Ee) as (t & E).
    rewrite (add_address_p2pkh x chain amount h addr t Hl E).
    destruct (add_out_spec x a amount (fun s => btc_script_build_p2pkh s h) (flat_map op_bytes (p2pkh_ops h)) R)
      as (y & Ey & Hy).
    { intros s Hs' _. destruct (build_p2pkh_spec s h) as (s' & ? & ? & ?); [done..|]. by exists s'. }
    exists y, (flat_map op_bytes (p2pkh_ops h)). unfold btc_tx_add_p2pkh_hash160_out. rewrite Ey.
    split_and!; [done|done|by apply classify_p2pkh].
  - intros Ee. destruct (address_decodes _ h addr strsize Hq Hh Hl Hs (payload_nonzero _ h Hl) Ee) as (t & E).
    rewrite (add_address_p2sh x chain amount h addr t Hl Hne E).
    destruct (add_out_spec x a amount (fun s => btc_script_build_p2sh s h) (flat_map op_bytes (p2sh_ops h)) R)
      as (y & Ey & Hy).
    { intros s Hs' _. destruct (build_p2sh_spec s h) as (s' & ? & ? & ?); [done..|]. by exists s'. }
    exists y, (flat_map op_bytes (p2sh_ops h)). unfold btc_tx_add_p2sh_hash160_out. rewrite Ey.
    split_and!; [done|done|by apply classify_p2sh].
  - unfold btc_p2wpkh_addr_from_hash160. intros Ee (buf & E).
    destruct (known_chain_hrp chain Hk) as (Hb & H0 & Hn).
    apply segwit_encoded in Ee; [|done|done|done|lia|done].
    unfold btc_tx_add_address_out. rewrite E. cbn [mbind option_bind Z.ltb Z.compare andb]. rewrite Ee, Hl. cbn [Z.eqb Pos.eqb].
    destruct (add_out_spec x a amount (fun s => btc_script_build_p2wpkh s h) (flat_map op_bytes (p2wpkh_ops h)) R)
      as (y & Ey & Hy).
    { intros s Hs' _. destruct (build_p2wpkh_spec s h) as (s' & ? & ? & ?); [done..|]. by exists s'. }
    exists y, (flat_map op_bytes (p2wpkh_ops h)). rewrite Ey. split_and!; [done|done|by apply classify_p2wpkh].
Qed.

(** The address of the first block, and the example address of BIP 173. *)
Lemma address_pays_witness :
  (exists y, btc_tx_add_address_out example_tx btc_chainparams_main 5 genesis_address = Some (true, y)) /\
  (exists addr y, btc_p2wpkh_addr_from_hash160 bip173_program btc_chainparams_main = Some addr /\
    btc_tx_add_address_out example_tx btc_chainparams_main 5 addr = Some (false, y)).
Proof.
  split.
  - destruct (proj1 (address_pays example_tx example_atx btc_chainparams_main 5
      (be_bytes 20 0x62e907b15cbf27d5425399ebf6f0fb50ebb88f18) genesis_address 128
      example_rep (or_introl eq_refl) (be_bytes_is_bytes _ _) eq_refl ltac:(lia))) as (y & bs & E & _).
    + vm_compute. reflexivity.
    + by exists y.
  - eexists. destruct (proj2 (proj2 (address_pays example_tx example_atx btc_chainparams_main 5 bip173_program
      (default [] (btc_p2wpkh_addr_from_hash160 bip173_program btc_chainparams_main)) 128
      example_rep (or_introl eq_refl) (be_bytes_is_bytes _ _) eq_refl ltac:(lia)))) as (y & bs & E & _).
    + vm_compute. reflexivity.
    + eexists. vm_compute. reflexivity.
    + exists y. split; [|exact E]. vm_compute. reflexivity.
Defined.

(** A short payload with a valid checksum is taken for a hash: the 20 bytes
    after the prefix are read behind the end of the buffer. *)
Example short_address_overread :
  exists addr, btc_base58_encode_check [0] 128 = Some (zlen addr + 1, addr) /\
    btc_tx_add_address_out example_tx btc_chainparams_main 5 addr = None.
Proof. exists [49; 87; 104; 52; 98; 104]. vm_compute. done. Qed.

(** The version of a witness program is ignored: a version 1 program of 20
    bytes is paid as version 0. *)
Example witness_version_ignored :
  let addr := default [] (segwit_addr_encode [98; 99] 1 bip173_program) in
  segwit_addr_decode [98; 99] addr = Some (1, bip173_program) /\
  exists y, btc_tx_add_address_out example_tx btc_chainparams_main 5 addr = Some (false, y) /\
    (o ← list.last (vout y); s ← script_pubkey o; zget (cstr_cells s) 0) = Some (Some OP_0).
Proof. cbv zeta. split; [vm_compute; reflexivity|]. eexists. vm_compute. done. Qed.
