(* ===== verification/Ecc.v ===== *)
(** * Keys: the key functions of secp256k1, ecc_libsecp256k1.c and ecc_key.c

    The curve is an interface, [Curve]: points with a multiple of the generator,
    a double multiplication, affine coordinates and a serialisation,
    and [CurveLaws], the laws of a cyclic group
    of prime order [order] whose points other than infinity can be written and
    read.  The functions of secp256k1.c that libbtc calls are translated on top
    of it, with the scalars of Scalar.v, then the wrappers of
    ecc_libsecp256k1.c and the keys of ecc_key.c.  A key is the list of its 32
    bytes. *)

From S2P Require Import Prelude.
From S2P Require Import Cstr.
From S2P Require Import Sha2.
From S2P Require Import Sha2Spec.
From S2P Require Import Ripemd160.
From S2P Require Import Script.
From S2P Require Import Tx.
From S2P Require Import SegwitAddr.
From S2P Require Import Base58.
From S2P Require Import Utils.
From S2P Require Import Scalar.
From S2P Require Import Prime.

(** ** The curve *)

(** The order of the field, and the operations on points that the code uses:
    [ecmult_gen a] is [a] times the generator, [ecmult P a b] is [a] times [P]
    plus [b] times the generator, [point_x] and [point_y_odd] give the affine
    coordinates and [lift_x] the point with an x coordinate and a parity of y. *)
Definition field_order : Z := 0xFFFFFFFFFFFFFFFFFFFFFFFFFFFFFFFFFFFFFFFFFFFFFFFFFFFFFFFEFFFFFC2F.

Class Curve := {
  point : Type;
  ecmult_gen : Z -> point;
  ecmult : point -> Z -> Z -> point;
  is_infinity : point -> bool;
  point_x : point -> Z;
  point_y_odd : point -> bool;
  lift_x : Z -> bool -> option point;
  eckey_serialize : bool -> point -> list Z;
  eckey_parse : list Z -> option point
}.

Class CurveLaws (C : Curve) : Prop := {
  gen_ecmult : forall d a b, ecmult (ecmult_gen d) a b = ecmult_gen ((a * d + b) mod order);
  gen_infinity : forall a, 0 <= a < order -> is_infinity (ecmult_gen a) = (a =? 0);
  gen_x_range : forall a, 0 <= point_x (ecmult_gen a) < field_order;
  gen_x_neg : forall a, 0 < a < order -> point_x (ecmult_gen (order - a)) = point_x (ecmult_gen a);
  gen_y_neg : forall a, 0 < a < order -> point_y_odd (ecmult_gen (order - a)) = negb (point_y_odd (ecmult_gen a));
  gen_lift : forall a, 0 < a < order -> lift_x (point_x (ecmult_gen a)) (point_y_odd (ecmult_gen a)) = Some (ecmult_gen a);
  serialize_length : forall (c : bool) P, length (eckey_serialize c P) = if c then 33%nat else 65%nat;
  serialize_bytes : forall c P, is_bytes (eckey_serialize c P);
  parse_serialize : forall c a, 0 < a < order -> eckey_parse (eckey_serialize c (ecmult_gen a)) = Some (ecmult_gen a)
}.

(** An instance: the integers modulo the order, written as 32 bytes. *)
Definition toy_curve : Curve := {|
  point := Z;
  ecmult_gen a := a mod order;
  ecmult P a b := (a * P + b) mod order;
  is_infinity P := P =? 0;
  point_x P := 2 ^ 255 - Z.min P (order - P);
  point_y_odd P := Z.odd P;
  lift_x x odd := let P := 2 ^ 255 - x in Some (if Bool.eqb (Z.odd P) odd then P else order - P);
  eckey_serialize c P := (if c then 2 else 4) :: be_bytes 32 P ++ (if c then [] else replicate 32 0);
  eckey_parse l := Some (be_val (take 32 (drop 1 l)))
|}.

Lemma toy_curve_laws : CurveLaws toy_curve.
Proof.
  assert (0 < order < 2 ^ 256 /\ 2 ^ 255 < field_order) as Ho by (by vm_compute).
  constructor.
  - intros d a b. cbn -[order]. rewrite Zmod_mod, Zplus_mod, Zmult_mod_idemp_r, <- Zplus_mod. done.
  - intros a Ha. cbn -[order]. by rewrite Z.mod_small.
  - intros a. cbn [point_x ecmult_gen toy_curve]. pose proof (Z.mod_pos_bound a order). lia.
  - intros a Ha. cbn [point_x ecmult_gen toy_curve]. rewrite !Z.mod_small by lia. lia.
  - intros a Ha. cbn [point_y_odd ecmult_gen toy_curve]. rewrite !Z.mod_small by lia. rewrite Z.odd_sub. by replace (Z.odd order) with true by (by vm_compute).
  - intros a Ha. cbn [lift_x point_x point_y_odd ecmult_gen toy_curve]. rewrite !Z.mod_small by lia. f_equal.
    replace (2 ^ 255 - (2 ^ 255 - Z.min a (order - a))) with (Z.min a (order - a)) by lia.
    destruct (Z.min_spec a (order - a)) as [[_ ->]|[_ ->]]; [by rewrite Bool.eqb_reflx|].
    rewrite Z.odd_sub. replace (Z.odd order) with true by (by vm_compute). destruct (Z.odd a); cbn [xorb Bool.eqb]; lia.
  - intros c P. cbn [eckey_serialize toy_curve length]. rewrite length_app, be_bytes_length. destruct c; done.
  - intros c P. cbn [eckey_serialize toy_curve]. apply is_bytes_cons; [destruct c; unfold is_byte; lia|]. apply is_bytes_app.
    split; [apply be_bytes_is_bytes|]. destruct c; [constructor|]. apply is_bytes_replicate. unfold is_byte. lia.
  - intros c a Ha. cbn [eckey_serialize eckey_parse ecmult_gen toy_curve drop]. rewrite drop_0, (Z.mod_small a) by lia. f_equal.
    rewrite take_app_length' by (by rewrite be_bytes_length). rewrite be_val_bytes. apply Z.mod_small.
    split; [lia|]. transitivity order; [lia|]. by vm_compute.
Qed.

(** ** secp256k1.c and eckey_impl.h *)

Section Ecc.

Context {C : Curve}.

Definition secp256k1_ec_seckey_verify (seckey : list Z) : bool :=
  let '(sec, overflow) := secp256k1_scalar_set_b32 seckey in
  (overflow =? 0) && negb (secp256k1_scalar_is_zero sec).

Definition secp256k1_ec_pubkey_create (seckey : list Z) : option point :=
  let '(sec, overflow) := secp256k1_scalar_set_b32 seckey in
  if (overflow =? 0) && negb (secp256k1_scalar_is_zero sec) then Some (ecmult_gen (val sec)) else None.

(** The result and the key. *)
Definition secp256k1_eckey_privkey_tweak_add (key tweak : secp256k1_scalar) : bool * secp256k1_scalar :=
  let '(key, _) := secp256k1_scalar_add key tweak in
  (negb (secp256k1_scalar_is_zero key), key).

Definition secp256k1_ec_privkey_tweak_add (seckey tweak : list Z) : bool * list Z :=
  let '(term, overflow) := secp256k1_scalar_set_b32 tweak in
  let '(sec, _) := secp256k1_scalar_set_b32 seckey in
  let '(ok, sec) := secp256k1_eckey_privkey_tweak_add sec term in
  if (overflow =? 0) && ok then (true, secp256k1_scalar_get_b32 sec) else (false, replicate 32 0).

Definition secp256k1_eckey_pubkey_tweak_add (key : point) (tweak : secp256k1_scalar) : option point :=
  let one := secp256k1_scalar_set_int 1 in
  let pt := ecmult key (val one) (val tweak) in
  if is_infinity pt then None else Some pt.

Definition secp256k1_ec_pubkey_tweak_add (pubkey : point) (tweak : list Z) : option point :=
  let '(term, overflow) := secp256k1_scalar_set_b32 tweak in
  if negb (overflow =? 0) then None else secp256k1_eckey_pubkey_tweak_add pubkey term.

(** Multiplication by a tweak: the result and the key. *)
Definition secp256k1_eckey_privkey_tweak_mul (key tweak : secp256k1_scalar) : bool * secp256k1_scalar :=
  if secp256k1_scalar_is_zero tweak then (false, key) else (true, secp256k1_scalar_mul key tweak).

Definition secp256k1_ec_privkey_tweak_mul (seckey tweak : list Z) : bool * list Z :=
  let '(factor, overflow) := secp256k1_scalar_set_b32 tweak in
  let '(sec, _) := secp256k1_scalar_set_b32 seckey in
  let '(ok, sec) := secp256k1_eckey_privkey_tweak_mul sec factor in
  if (overflow =? 0) && ok then (true, secp256k1_scalar_get_b32 sec) else (false, replicate 32 0).

Definition secp256k1_eckey_pubkey_tweak_mul (key : point) (tweak : secp256k1_scalar) : option point :=
  if secp256k1_scalar_is_zero tweak then None else Some (ecmult key (val tweak) (val (secp256k1_scalar_set_int 0))).

Definition secp256k1_ec_pubkey_tweak_mul (pubkey : point) (tweak : list Z) : option point :=
  let '(factor, overflow) := secp256k1_scalar_set_b32 tweak in
  if overflow =? 0 then secp256k1_eckey_pubkey_tweak_mul pubkey factor else None.

(** ** ecc_libsecp256k1.c *)

(** What is written to [public_key]. *)
Definition btc_ecc_get_pubkey (private_key : list Z) (compressed : bool) : list Z :=
  match secp256k1_ec_pubkey_create private_key with
  | Some pubkey => eckey_serialize compressed pubkey
  | None => replicate (if compressed then 33 else 65) 0
  end.

Definition btc_ecc_private_key_tweak_add (private_key tweak : list Z) : bool * list Z :=
  secp256k1_ec_privkey_tweak_add private_key tweak.

(** The result and the contents of [public_key_inout]. *)
Definition btc_ecc_public_key_tweak_add (public_key_inout tweak : list Z) : bool * list Z :=
  match eckey_parse (ztake 33 public_key_inout) with
  | Some pubkey =>
      match secp256k1_ec_pubkey_tweak_add pubkey tweak with
      | Some pubkey => (true, eckey_serialize true pubkey)
      | None => (false, public_key_inout)
      end
  | None => (false, public_key_inout)
  end.

Definition btc_ecc_private_key_tweak_mul (private_key tweak : list Z) : bool * list Z :=
  secp256k1_ec_privkey_tweak_mul private_key tweak.

(** An uncompressed key. *)
Definition btc_ecc_public_key_tweak_mul (public_key_inout tweak : list Z) : bool * list Z :=
  match eckey_parse (ztake 65 public_key_inout) with
  | Some pubkey =>
      match secp256k1_ec_pubkey_tweak_mul pubkey tweak with
      | Some pubkey => (true, eckey_serialize false pubkey)
      | None => (false, public_key_inout)
      end
  | None => (false, public_key_inout)
  end.

Definition btc_ecc_public_key_compress (public_key_in : list Z) : option (list Z) :=
  pubkey ← eckey_parse (ztake 65 public_key_in);
  Some (eckey_serialize true pubkey).

Definition btc_ecc_public_key_uncompress (public_key_in : list Z) : option (list Z) :=
  pubkey ← eckey_parse (ztake 33 public_key_in);
  Some (eckey_serialize false pubkey).

Definition btc_ecc_verify_privatekey (private_key : list Z) : bool := secp256k1_ec_seckey_verify private_key.

Definition btc_ecc_verify_pubkey (public_key : list Z) (compressed : bool) : bool :=
  match eckey_parse (ztake (if compressed then 33 else 65) public_key) with Some _ => true | None => false end.

(** ** ecc_key.c *)

Definition btc_privkey_is_valid (privkey : list Z) : bool := btc_ecc_verify_privatekey privkey.

(** The string; the assertion that the text fits is part of the function. *)
Definition btc_privkey_encode_wif (privkey : list Z) (chain : btc_chainparams) (strsize : Z) : option (list Z) :=
  let pkeybase58c := b58prefix_secret_address chain :: ztake 32 privkey ++ [1] in
  '(r, str) ← btc_base58_encode_check pkeybase58c (s32 strsize);
  if r =? 0 then None else Some str.

(** [None] is undefined, [Some None] the result false. *)
Definition btc_privkey_decode_wif (privkey_wif : list Z) (chain : btc_chainparams) : option (option (list Z)) :=
  let privkey_size := zlen privkey_wif in
  if privkey_size <? 50 then Some None else
  '(outlen, privkey_data) ← btc_base58_decode_check privkey_wif (replicate (Z.to_nat privkey_size) 0);
  if outlen =? 0 then Some None else
  b ← zget privkey_data 0;
  if negb (b =? b58prefix_secret_address chain) then Some None else
  if zlen privkey_data <? 33 then None else
  Some (Some (ztake 32 (zdrop 1 privkey_data))).

Definition btc_pubkey_init (k : btc_pubkey) : btc_pubkey := mk_pubkey false (replicate 65 0).

(** The result, the array [str] and [*strsize]. *)
Definition btc_pubkey_get_hex (k : btc_pubkey) (str : list Z) (strsize : Z) : option (bool * list Z * Z) :=
  if strsize <? BTC_ECKEY_COMPRESSED_LENGTH * 2 then Some (false, str, strsize) else
  str ← utils_bin_to_hex (pubkey k) BTC_ECKEY_COMPRESSED_LENGTH str;
  Some (true, str, BTC_ECKEY_COMPRESSED_LENGTH * 2).

(** The compressed key leaves the rest of the array as it was. *)
Definition btc_pubkey_from_key (privkey : list Z) (pubkey_inout : btc_pubkey) : btc_pubkey :=
  mk_pubkey true (btc_ecc_get_pubkey privkey true ++ zdrop 33 (pubkey pubkey_inout)).

Definition btc_pubkey_from_key_uncompressed (privkey : list Z) (pubkey_inout : btc_pubkey) : btc_pubkey :=
  mk_pubkey false (btc_ecc_get_pubkey privkey false).

Definition btc_pubkey_is_valid (k : btc_pubkey) : bool := btc_ecc_verify_pubkey (pubkey k) (compressed k).

(** The texts of the three kinds of address of a key. *)
Definition btc_pubkey_getaddr_p2pkh (k : btc_pubkey) (chain : btc_chainparams) : option (list Z) :=
  snd <$> btc_base58_encode_check (b58prefix_pubkey_address chain :: btc_pubkey_get_hash160 k) 100.

Definition btc_pubkey_getaddr_p2wpkh (k : btc_pubkey) (chain : btc_chainparams) : option (list Z) :=
  segwit_addr_encode (bech32_hrp chain) 0 (btc_pubkey_get_hash160 k).

Definition btc_pubkey_getaddr_p2sh_p2wpkh (k : btc_pubkey) (chain : btc_chainparams) : option (list Z) :=
  p2wphk_script ← new_sz 22;
  p2wphk_script ← btc_script_build_p2wpkh p2wphk_script (btc_pubkey_get_hash160 k);
  d ← cstr_bytes p2wphk_script;
  snd <$> btc_base58_encode_check (b58prefix_script_address chain :: btc_script_get_scripthash d) 100.

End Ecc.

(** ** Keys *)

#[local] Opaque order.

Lemma be_val_range (l : list Z) : is_bytes l -> 0 <= be_val l < 256 ^ zlen l.
Proof.
  intros Hl. unfold be_val. pose proof (le_val_bound (rev l) (Forall_rev Hl)) as R. unfold zlen in *. by rewrite length_rev in R.
Qed.

Section Laws.

Context {C : Curve} {L : CurveLaws C}.

(** A key is accepted when its number is between zero and the order. *)
Lemma key_scalar (k : list Z) : is_bytes k -> zlen k = 32 ->
  let '(sec, overflow) := secp256k1_scalar_set_b32 k in
  ((overflow =? 0) && negb (secp256k1_scalar_is_zero sec) = true <-> 0 < be_val k < order) /\
  scalar_ok sec /\ (be_val k < order -> val sec = be_val k /\ overflow = 0) /\ (order <= be_val k -> overflow = 1).
Proof.
  intros Hk Hl. pose proof (be_val_range k Hk). pose proof (set_b32_spec k Hk ltac:(unfold zlen in Hl; lia)) as S.
  destruct (secp256k1_scalar_set_b32 k) as [sec o]. destruct S as (Hs & Ev & Eo). pose proof order_bounds.
  rewrite is_zero_spec by apply Hs. rewrite Ev, Eo. destruct (Z.leb_spec order (be_val k)) as [Hge|Hlt].
  - split; [cbn; split; [done|lia]|]. split; [done|]. split; [lia|done].
  - rewrite Z.mod_small by lia. split; [|split; [done|split; [done|lia]]]. cbn [Z.eqb andb]. rewrite negb_true_iff, Z.eqb_neq. lia.
Qed.

Lemma seckey_verify_spec (k : list Z) : is_bytes k -> zlen k = 32 ->
  secp256k1_ec_seckey_verify k = true <-> 0 < be_val k < order.
Proof.
  intros Hk Hl. pose proof (key_scalar k Hk Hl) as S. unfold secp256k1_ec_seckey_verify.
  destruct (secp256k1_scalar_set_b32 k) as [sec o]. apply S.
Qed.

Lemma get_pubkey_spec (k : list Z) (c : bool) : is_bytes k -> zlen k = 32 -> 0 < be_val k < order ->
  btc_ecc_get_pubkey k c = eckey_serialize c (ecmult_gen (be_val k)).
Proof.
  intros Hk Hl Hv. unfold btc_ecc_get_pubkey, secp256k1_ec_pubkey_create. pose proof (key_scalar k Hk Hl) as S.
  destruct (secp256k1_scalar_set_b32 k) as [sec o]. destruct S as (Hiff & _ & He & _). rewrite (proj2 Hiff Hv).
  by destruct (He ltac:(lia)) as [-> _].
Qed.

(** Tweaking the private key and tweaking the public key agree. *)
Lemma tweak_agree (k t : list Z) : is_bytes k -> zlen k = 32 -> 0 < be_val k < order -> is_bytes t -> zlen t = 32 ->
  let '(ok, k') := btc_ecc_private_key_tweak_add k t in
  is_bytes k' /\ zlen k' = 32 /\
  (if ok then 0 < be_val k' < order /\ btc_ecc_public_key_tweak_add (btc_ecc_get_pubkey k true) t = (true, btc_ecc_get_pubkey k' true)
   else k' = replicate 32 0 /\
        btc_ecc_public_key_tweak_add (btc_ecc_get_pubkey k true) t = (false, btc_ecc_get_pubkey k true)).
Proof.
  intros Hk Hl Hv Ht Htl. pose proof order_bounds as Ro. rewrite (get_pubkey_spec k) by done.
  unfold btc_ecc_public_key_tweak_add. rewrite ztake_all by (unfold zlen; rewrite serialize_length; done).
  rewrite parse_serialize by done.
  unfold btc_ecc_private_key_tweak_add, secp256k1_ec_privkey_tweak_add, secp256k1_ec_pubkey_tweak_add,
    secp256k1_eckey_privkey_tweak_add, secp256k1_eckey_pubkey_tweak_add.
  pose proof (key_scalar k Hk Hl) as Sk. destruct (secp256k1_scalar_set_b32 k) as [sk ok]. destruct Sk as (_ & Hsk & Ek & _).
  destruct (Ek ltac:(lia)) as [Vk _]. pose proof (key_scalar t Ht Htl) as St. destruct (secp256k1_scalar_set_b32 t) as [st ot].
  destruct St as (_ & Hst & Et & Eo). pose proof (scalar_add_spec sk st Hsk Hst) as Sa. destruct (secp256k1_scalar_add sk st) as [s os].
  destruct Sa as (Hs & Vs & _). rewrite is_zero_spec by apply Hs. rewrite gen_ecmult. change (val (secp256k1_scalar_set_int 1)) with 1. rewrite Z.mul_1_l, <- Vk, <- Vs.
  assert (0 <= val s < order) as Rs by (rewrite Vs; apply Z.mod_pos_bound; lia). rewrite gen_infinity by done.
  assert (is_bytes (replicate 32 0)) as Hz by (apply is_bytes_replicate; unfold is_byte; lia).
  destruct (decide (order <= be_val t)) as [Hge|Hlt].
  - rewrite (Eo Hge). cbn [Z.eqb Pos.eqb negb andb]. split_and!; done.
  - destruct (Et ltac:(lia)) as [_ ->]. cbn [Z.eqb negb andb]. destruct (Z.eqb_spec (val s) 0) as [E|E]; cbn [negb].
    + split_and!; done.
    + rewrite get_b32_spec by apply Hs.
      assert (be_val (be_bytes 32 (val s)) = val s) as Ev by (rewrite be_val_bytes; apply Z.mod_small; change (256 ^ Z.of_nat 32) with (2 ^ 256); lia).
      split_and!; [apply be_bytes_is_bytes|unfold zlen; by rewrite be_bytes_length|lia|lia|].
      rewrite (get_pubkey_spec (be_bytes 32 (val s))); [by rewrite Ev|apply be_bytes_is_bytes|unfold zlen; by rewrite be_bytes_length|lia].
Qed.

(** The product of a valid key and a valid tweak is a valid key. *)
Lemma key_product (k t : Z) : 0 < k < order -> 0 < t < order -> 0 < (k * t) mod order < order.
Proof.
  intros Hk Ht. pose proof (Z.mod_pos_bound (k * t) order ltac:(lia)). assert ((k * t) mod order <> 0) as Hne; [|lia].
  rewrite Z.mod_divide by lia. intros Hd. apply Z.divide_prime_mul in Hd; [|exact prime_order]. destruct Hd as [Hd|Hd]; apply Z.divide_pos_le in Hd; lia.
Qed.

(** Multiplying the private key and multiplying the public key agree. *)
Lemma tweak_mul_agree (k t : list Z) : is_bytes k -> zlen k = 32 -> 0 < be_val k < order -> is_bytes t -> zlen t = 32 ->
  let '(ok, k') := btc_ecc_private_key_tweak_mul k t in
  ok = btc_ecc_verify_privatekey t /\
  (if ok then 0 < be_val k' < order /\
     btc_ecc_public_key_tweak_mul (btc_ecc_get_pubkey k false) t = (true, btc_ecc_get_pubkey k' false)
   else k' = replicate 32 0 /\ btc_ecc_public_key_tweak_mul (btc_ecc_get_pubkey k false) t = (false, btc_ecc_get_pubkey k false)).
Proof.
  intros Hk Hl Hv Ht Htl. rewrite (get_pubkey_spec k) by done. unfold btc_ecc_public_key_tweak_mul.
  rewrite ztake_all by (unfold zlen; rewrite serialize_length; done). rewrite parse_serialize by done.
  unfold btc_ecc_private_key_tweak_mul, secp256k1_ec_privkey_tweak_mul, secp256k1_ec_pubkey_tweak_mul, btc_ecc_verify_privatekey,
    secp256k1_ec_seckey_verify, secp256k1_eckey_privkey_tweak_mul, secp256k1_eckey_pubkey_tweak_mul.
  pose proof (key_scalar k Hk Hl) as Sk. destruct (secp256k1_scalar_set_b32 k) as [sk ok]. destruct Sk as (_ & Hsk & Ek & _).
  destruct (Ek ltac:(lia)) as [Vk _]. pose proof (key_scalar t Ht Htl) as St. destruct (secp256k1_scalar_set_b32 t) as [st ot].
  destruct St as (Hiff & Hst & Et & _). destruct (secp256k1_scalar_is_zero st) eqn:Ez; cbn [negb andb] in *.
  - rewrite !andb_false_r. destruct (ot =? 0); done.
  - rewrite andb_true_r in *. destruct (ot =? 0); cbn [andb]; [|done]. split; [done|]. pose proof (proj1 Hiff eq_refl) as Hvt.
    destruct (Et ltac:(lia)) as [Vt _]. destruct (scalar_mul_spec sk st (proj1 Hsk) (proj1 Hst)) as [Hm Em]. set (m := secp256k1_scalar_mul sk st) in *.
    clearbody m. pose proof (key_product (val sk) (val st) ltac:(lia) ltac:(lia)) as Hp. rewrite <- Em in Hp. rewrite get_b32_spec by apply Hm.
    assert (be_val (be_bytes 32 (val m)) = val m) as Ev.
    { rewrite be_val_bytes. apply Z.mod_small. pose proof order_bounds. change (256 ^ Z.of_nat 32) with (2 ^ 256). lia. }
    rewrite Ev. split; [exact Hp|]. rewrite get_pubkey_spec by (first [apply be_bytes_is_bytes|unfold zlen; by rewrite be_bytes_length|lia]).
    rewrite Ev, gen_ecmult, Em, <- Vk, Vt. change (val (secp256k1_scalar_set_int 0)) with 0. do 4 f_equal. lia.
Qed.

Lemma pubkey33 (k : list Z) : zlen (btc_ecc_get_pubkey k true) = 33 /\ is_bytes (btc_ecc_get_pubkey k true).
Proof.
  unfold btc_ecc_get_pubkey, zlen. destruct (secp256k1_ec_pubkey_create k) as [P|].
  - rewrite serialize_length. split; [done|apply serialize_bytes].
  - split; [done|]. by apply is_bytes_of.
Qed.

End Laws.

(** ** Texts of private keys *)

(** A text has as many digits as its number needs. *)
Lemma represents_long (b : Z) (r str : list Z) (m : Z) :
  is_bytes (b :: r) -> b <> 0 -> represents (b :: r) str -> 0 <= m -> 58 ^ m <= 256 ^ zlen r * b -> m < zlen str.
Proof.
  intros Hb Hb0 (n & rest & ds & Er & _ & -> & _ & Hd & Ev) Hm Hle. destruct n as [|n]; [|by injection Er as -> _].
  cbn [replicate app] in *. subst rest. apply list.Forall_cons in Hb as [Hbb Hr]. rewrite nval_cons in Ev.
  pose proof (nval_range 256 r ltac:(lia) Hr). pose proof (nval_range 58 ds ltac:(lia) Hd) as Rd.
  assert (zlen (map letter58 ds) = Z.of_nat (length ds)) as -> by (unfold zlen; by rewrite length_map).
  fold (zlen r) in Ev. change (Z.of_nat (length r)) with (zlen r) in *.
  apply (Z.pow_lt_mono_r_iff 58); lia.
Qed.

Definition wif_chain (chain : btc_chainparams) : Prop := 128 <= b58prefix_secret_address chain < 256.

(** The text of a private key is read back.  For a chain whose prefix is that
    of the main, test or regression chain, the Base58Check text
    [btc_privkey_encode_wif] makes of 32 bytes is decoded by
    [btc_privkey_decode_wif] to the same bytes; the text always fits 100
    characters and has at least the 50 the decoder asks for. *)
Theorem wif_roundtrip (k : list Z) (chain : btc_chainparams) :
  is_bytes k -> zlen k = 32 -> In chain [btc_chainparams_main; btc_chainparams_test; btc_chainparams_regtest] ->
  exists str, btc_privkey_encode_wif k chain 100 = Some str /\ 50 <= zlen str < 100 /\
    btc_privkey_decode_wif str chain = Some (Some k).
Proof.
  intros Hk Hl Hc. assert (wif_chain chain) as Hp by (destruct Hc as [<-|[<-|[<-|[]]]]; unfold wif_chain; cbn; lia).
  unfold wif_chain in Hp. unfold btc_privkey_encode_wif. rewrite ztake_all by lia.
  set (p := b58prefix_secret_address chain) in *. set (payload := p :: k ++ [1]).
  assert (is_bytes payload) as Hb.
  { apply is_bytes_cons; [unfold is_byte; lia|]. apply is_bytes_app. split; [done|]. apply is_bytes_of. done. }
  assert (zlen payload = 34) as Hpl by (unfold payload; rewrite zlen_cons, zlen_app, Hl; done).
  change (s32 100) with 100. destruct (encode_check_spec58 payload 100 Hb ltac:(lia) ltac:(lia)) as (str & R & Ee).
  destruct (tag58_ok payload Hb ltac:(lia)) as [Ht Hbt].
  assert (is_bytes (payload ++ tag58 payload)) as Hbb by (apply is_bytes_app; exact (conj Hb Hbt)).
  assert (50 <= zlen str <= 53) as Hs.
  { split.
    - assert (49 < zlen str); [|lia]. eapply (represents_long p (k ++ [1] ++ tag58 payload)).
      + unfold payload in Hbb at 1. cbn [app] in Hbb. by rewrite <- app_assoc in Hbb.
      + lia.
      + unfold payload in R at 1. cbn [app] in R. by rewrite <- app_assoc in R.
      + lia.
      + rewrite !zlen_app, Hl, Ht. change (zlen [1]) with 1. transitivity (256 ^ (32 + (1 + 4)) * 128); [by vm_compute|lia].
    - destruct (base58_encode_spec 100 (payload ++ tag58 payload) Hbb) as (s' & R' & _ & Hlen & _); [rewrite zlen_app; lia|].
      rewrite (represents_str _ _ _ R R') in *. rewrite zlen_app, Hpl, Ht in Hlen. by change ((34 + 4) * 138 / 100 + 1) with 53 in Hlen. }
  replace (zlen str <? 100) with true in Ee by (symmetry; apply Z.ltb_lt; lia). rewrite Ee. cbn [mbind option_bind].
  replace (zlen str + 1 =? 0) with false by (symmetry; apply Z.eqb_neq; lia). exists str. split; [done|]. split; [lia|].
  unfold btc_privkey_decode_wif. replace (zlen str <? 50) with false by (symmetry; apply Z.ltb_ge; lia).
  rewrite (decode_check_encoded payload str _ 100 Hb ltac:(lia) ltac:(lia)).
  - cbn [mbind option_bind]. rewrite Hpl. cbn [Z.eqb Z.add Pos.add]. rewrite zlen_replicate.
    change (zget (payload ++ _) 0) with (Some p). cbn [mbind option_bind]. rewrite Z.eqb_refl. cbn [negb].
    rewrite !zlen_app, zlen_replicate, Hpl, Ht.
    match goal with |- context [?a <? 33] => replace (a <? 33) with false by (symmetry; apply Z.ltb_ge; lia) end.
    do 2 f_equal. unfold payload. change (zdrop 1 ((p :: k ++ [1]) ++ ?x)) with (drop 0 ((k ++ [1]) ++ x)).
    cbn [app]. unfold zdrop. change (Z.to_nat 1) with 1%nat. cbn [drop]. rewrite drop_0, <- app_assoc. by apply ztake_app_len.
  - apply Exists_app. left. left. lia.
  - done.
  - rewrite zlen_replicate. lia.
Qed.

Lemma wif_roundtrip_witness : exists str, btc_privkey_encode_wif (replicate 32 1) btc_chainparams_main 100 = Some str /\
  btc_privkey_decode_wif str btc_chainparams_main = Some (Some (replicate 32 1)).
Proof.
  destruct (wif_roundtrip (replicate 32 1) btc_chainparams_main) as (str & E & _ & D);
    [by apply is_bytes_of|done|by left|exists str; exact (conj E D)].
Defined.

(** The check of [btc_pubkey_get_hex] leaves no room for the terminator. *)
Example pubkey_get_hex_overflow : btc_pubkey_get_hex (mk_pubkey true (replicate 65 2)) (replicate 66 0) 66 = None.
Proof. reflexivity. Qed.
