(* ===== verification/Der.v ===== *)
(** * DER: the encoding of signatures of ecdsa_impl.h

    The two scalars of a signature as DER integers, read and written byte by
    byte; a reader is the list of the bytes up to [sigend].  The form is exact:
    every pair of scalars is read back from the bytes written, and a signature
    that parses to non-zero scalars is the one byte string written for them. *)

From S2P Require Import Prelude.
From S2P Require Import Scalar.
From S2P Require Import Ecc.

(** ** DER *)

(** [while (lenleft > 0)]: the length, or -1, and the rest of the input. *)
Fixpoint read_len_loop (lenleft : nat) (ret : Z) (sig : list Z) : Z * list Z :=
  match lenleft, sig with
  | S left', b :: sig' =>
      let ret := Z.lor (u64 (Z.shiftl ret 8)) b in
      if zlen sig <? u64 (ret + Z.of_nat lenleft) then (-1, sig) else read_len_loop left' ret sig'
  | _, _ => if ret <? 128 then (-1, sig) else (s32 ret, sig)
  end.

Definition secp256k1_der_read_len (sig : list Z) : Z * list Z :=
  match sig with
  | [] => (-1, [])
  | b1 :: sig =>
      if b1 =? 0xFF then (-1, sig) else
      if Z.land b1 0x80 =? 0 then (b1, sig) else
      if b1 =? 0x80 then (-1, sig) else
      let lenleft := Z.land b1 0x7F in
      if zlen sig <? lenleft then (-1, sig) else
      if nth 0 sig 0 =? 0 then (-1, sig) else
      if 8 <? lenleft then (-1, sig) else
      read_len_loop (Z.to_nat lenleft) 0 sig
  end.

(** [while (rlen > 0 && **sig == 0)] *)
Fixpoint skip_zero_bytes (rlen : nat) (sig : list Z) : nat * list Z :=
  match rlen, sig with
  | S rlen', 0 :: sig' => skip_zero_bytes rlen' sig'
  | _, _ => (rlen, sig)
  end.

(** The scalar and the rest of the input; [None] is the result 0. *)
Definition secp256k1_der_parse_integer (sig : list Z) : option (secp256k1_scalar * list Z) :=
  match sig with
  | [] => None
  | b :: sig =>
      if negb (b =? 0x02) then None else
      let '(rlen, sig) := secp256k1_der_read_len sig in
      if (rlen <=? 0) || (zlen sig <? rlen) then None else
      if (nth 0 sig 0 =? 0) && (1 <? rlen) && (Z.land (nth 1 sig 0) 0x80 =? 0) then None else
      if (nth 0 sig 0 =? 0xFF) && (1 <? rlen) && (Z.land (nth 1 sig 0) 0x80 =? 0x80) then None else
      let overflow := Z.land (nth 0 sig 0) 0x80 =? 0x80 in
      let '(rlen, sig) := skip_zero_bytes (Z.to_nat rlen) sig in
      let overflow := overflow || (32 <? rlen)%nat in
      let '(r, overflow) :=
        if overflow then (secp256k1_scalar_set_int 0, overflow) else
        let '(r, o) := secp256k1_scalar_set_b32 (replicate (32 - rlen) 0 ++ take rlen sig) in
        (r, negb (o =? 0)) in
      let r := if overflow then secp256k1_scalar_set_int 0 else r in
      Some (r, drop rlen sig)
  end.

Definition secp256k1_ecdsa_sig_parse (sig : list Z) : option (secp256k1_scalar * secp256k1_scalar) :=
  match sig with
  | [] => None
  | b :: sig =>
      if negb (b =? 0x30) then None else
      let '(rlen, sig) := secp256k1_der_read_len sig in
      if (rlen <? 0) || (zlen sig <? rlen) then None else
      if negb (zlen sig =? rlen) then None else
      '(rr, sig) ← secp256k1_der_parse_integer sig;
      '(rs, sig) ← secp256k1_der_parse_integer sig;
      if negb (zlen sig =? 0) then None else Some (rr, rs)
  end.

(** [while (lenR > 1 && rp[0] == 0 && rp[1] < 0x80)] *)
Fixpoint strip_zeros (rp : list Z) : list Z :=
  match rp with
  | a :: ((b :: _) as rp') => if (a =? 0) && (b <? 0x80) then strip_zeros rp' else rp
  | _ => rp
  end.

(** The result, the bytes written and [*size]. *)
Definition secp256k1_ecdsa_sig_serialize (size : Z) (ar as_ : secp256k1_scalar) : bool * list Z * Z :=
  let rp := strip_zeros (0 :: secp256k1_scalar_get_b32 ar) in
  let sp := strip_zeros (0 :: secp256k1_scalar_get_b32 as_) in
  let lenR := zlen rp in
  let lenS := zlen sp in
  if size <? 6 + lenS + lenR then (false, [], 6 + lenS + lenR) else
  (true, [0x30; u8 (4 + lenS + lenR); 0x02; u8 lenR] ++ rp ++ [0x02; u8 lenS] ++ sp, 6 + lenS + lenR).

#[local] Opaque order secp256k1_scalar_set_b32 secp256k1_scalar_add secp256k1_scalar_mul
  secp256k1_scalar_negate secp256k1_scalar_is_high secp256k1_scalar_is_zero secp256k1_scalar_get_b32.

(** ** Integers *)

(** The magnitude of an integer, and the shortest two's complement form of it. *)
Fixpoint dropz (l : list Z) : list Z :=
  match l with
  | 0 :: l' => dropz l'
  | _ => l
  end.

Definition der_int (dz : list Z) : list Z :=
  match dz with
  | [] => [0]
  | h :: _ => if h <? 128 then dz else 0 :: dz
  end.

(** The content of an integer: bytes without a leading zero. *)
Definition magnitude (dz : list Z) : Prop := is_bytes dz /\ head dz <> Some 0.

Lemma dropz_magnitude (l : list Z) : is_bytes l -> magnitude (dropz l).
Proof.
  induction l as [|b l IH]; intros Hb; [by split|]. apply list.Forall_cons in Hb as [Hb Hl]. cbn [dropz].
  destruct (Z.eq_dec b 0) as [->|Hne]; [by apply IH|]. destruct b; [lia|split; [by apply is_bytes_cons|intros [=]]..].
Qed.

Lemma dropz_pad (l : list Z) : replicate (length l - length (dropz l)) 0 ++ dropz l = l /\ (length (dropz l) <= length l)%nat.
Proof.
  induction l as [|b l [IH Hle]]; [done|]. cbn [dropz length].
  destruct (Z.eq_dec b 0) as [->|Hne]; [|destruct b; [lia|cbn [length]; rewrite Nat.sub_diag; split; [done|lia]..]].
  split; [|lia]. rewrite Nat.sub_succ_l by exact Hle. cbn [replicate app]. by rewrite IH.
Qed.

Lemma dropz_padded (n : nat) (dz : list Z) : magnitude dz -> dropz (replicate n 0 ++ dz) = dz.
Proof.
  intros [_ Hh]. induction n as [|n IH]; [|exact IH]. cbn [replicate app]. destruct dz as [|b dz]; [done|]. cbn [dropz].
  destruct b; [done|reflexivity..].
Qed.

Lemma strip_zeros_der (l : list Z) : is_bytes l -> strip_zeros (0 :: l) = der_int (dropz l).
Proof.
  induction l as [|b l IH]; intros Hb; [done|]. apply list.Forall_cons in Hb as [Hb Hl]. specialize (IH Hl).
  assert (strip_zeros (0 :: b :: l) = if b <? 128 then strip_zeros (b :: l) else 0 :: b :: l) as -> by done.
  destruct (Z.eq_dec b 0) as [->|Hne]; [exact IH|].
  assert (dropz (b :: l) = b :: l) as -> by (by destruct b). cbn [der_int]. destruct (b <? 128); [|done].
  destruct l as [|c l]; [done|]. cbn [strip_zeros]. by rewrite (proj2 (Z.eqb_neq b 0) Hne).
Qed.

Lemma der_int_zlen (dz : list Z) : 1 <= zlen (der_int dz) <= 1 + zlen dz.
Proof. destruct dz as [|h dz]; cbn [der_int]; [done|]. destruct (h <? 128); zlia. Qed.

Lemma byte_high (b : Z) : is_byte b -> Z.land b 0x80 = if b <? 128 then 0 else 0x80.
Proof.
  intros Hb. assert (forallb (fun x => Z.land x 0x80 =? if x <? 128 then 0 else 0x80) (seqZ 0 256) = true) as H by (by vm_compute).
  rewrite forallb_forall in H. apply Z.eqb_eq, H, list_elem_of_In, elem_of_seqZ. unfold is_byte in Hb. lia.
Qed.

Lemma skip_zero_head (n : nat) (h : Z) (l : list Z) : h <> 0 -> skip_zero_bytes n (h :: l) = (n, h :: l).
Proof. intros Hh. destruct n; [done|]. destruct h; [lia|reflexivity..]. Qed.

Lemma read_len_short (n : Z) (l : list Z) : 0 <= n < 128 -> secp256k1_der_read_len (n :: l) = (n, l).
Proof.
  intros Hn. unfold secp256k1_der_read_len. rewrite (proj2 (Z.eqb_neq n 0xFF)) by lia. rewrite byte_high by (unfold is_byte; lia).
  by rewrite (proj2 (Z.ltb_lt n 128)) by lia.
Qed.

(** The scalar of a magnitude of at most 32 bytes; 0 when it is out of range. *)
Definition mag_scalar (dz : list Z) : secp256k1_scalar :=
  let '(r, overflow) := secp256k1_scalar_set_b32 (replicate (32 - length dz) 0 ++ dz) in
  if negb (overflow =? 0) then secp256k1_scalar_set_int 0 else r.

Lemma parse_der_int (dz rest : list Z) : magnitude dz -> zlen dz <= 32 ->
  secp256k1_der_parse_integer (0x02 :: zlen (der_int dz) :: der_int dz ++ rest) = Some (mag_scalar dz, rest).
Proof.
  intros [Hb Hh] Hl. pose proof (der_int_zlen dz) as Hz. unfold secp256k1_der_parse_integer.
  rewrite read_len_short by lia. cbn [Z.eqb Pos.eqb negb]. rewrite (proj2 (Z.leb_gt (zlen (der_int dz)) 0)) by lia.
  rewrite (proj2 (Z.ltb_ge (zlen (der_int dz ++ rest)) _)) by zlia. cbn [orb].
  assert (length dz <= 32)%nat as Hln by (unfold zlen in Hl; lia).
  assert (forall n l, skip_zero_bytes n l = (length dz, dz ++ rest) ->
    (let '(rlen, sig) := skip_zero_bytes n l in
     let overflow := false || (32 <? rlen)%nat in
     let '(r, overflow) := if overflow then (secp256k1_scalar_set_int 0, overflow) else
       let '(r, o) := secp256k1_scalar_set_b32 (replicate (32 - rlen) 0 ++ take rlen sig) in (r, negb (o =? 0)) in
     let r := if overflow then secp256k1_scalar_set_int 0 else r in
     Some (r, drop rlen sig)) = Some (mag_scalar dz, rest)) as Tail.
  { intros n l ->. rewrite (proj2 (Nat.ltb_ge 32 (length dz)) Hln), take_app_length, drop_app_length. cbn [orb]. unfold mag_scalar.
    destruct (secp256k1_scalar_set_b32 _) as [r o]. by destruct (o =? 0). }
  destruct dz as [|h dz]; cbn [der_int].
  - replace (1 <? zlen [0]) with false by done. rewrite !andb_false_r. cbn [andb app nth].
    replace (Z.land 0 0x80 =? 0x80) with false by done. apply Tail. reflexivity.
  - apply list.Forall_cons in Hb as [Hb _]. assert (h <> 0) as Hh0 by (intros ->; by apply Hh). destruct (Z.ltb_spec h 128) as [Hlo|Hhi]; cbn [app nth].
    + rewrite (proj2 (Z.eqb_neq h 0)), (proj2 (Z.eqb_neq h 0xFF)), (byte_high h Hb), (proj2 (Z.ltb_lt h 128)) by lia. cbn [andb].
      apply Tail. rewrite skip_zero_head by exact Hh0. unfold zlen. by rewrite Nat2Z.id.
    + rewrite (byte_high h Hb), (proj2 (Z.ltb_ge h 128)) by lia. replace (Z.land 0 0x80 =? 0x80) with false by done. rewrite andb_false_r.
      cbn [Z.eqb andb].
      apply Tail. unfold zlen. rewrite Nat2Z.id. exact (skip_zero_head (length (h :: dz)) h (dz ++ rest) Hh0).
Qed.

(** ** What the reader accepts *)

Lemma s32_small (x : Z) : 0 <= x < 2 ^ 31 -> s32 x = x.
Proof. intros Hx. unfold swrap. change (2 ^ (32 - 1)) with (2 ^ 31). rewrite Z.mod_small by lia. lia. Qed.

Lemma read_len_loop_spec (lenleft : nat) (ret : Z) (sig : list Z) : (lenleft <= 8)%nat -> is_bytes sig -> zlen sig < 2 ^ 31 -> 0 <= ret < 2 ^ 31 ->
  let '(n, _) := read_len_loop lenleft ret sig in n = -1 \/ 128 <= n.
Proof.
  revert ret sig. induction lenleft as [|left IH]; intros ret sig H8 Hb Hl Hr; cbn [read_len_loop].
  - destruct (Z.ltb_spec ret 128); [by left|]. right. rewrite s32_small by lia. done.
  - destruct sig as [|b sig]; [destruct (Z.ltb_spec ret 128); [by left|]; right; rewrite s32_small by lia; done|].
    apply list.Forall_cons in Hb as [Hb Hs]. unfold is_byte in Hb.
    assert (Z.lor (u64 (Z.shiftl ret 8)) b = 256 * ret + b) as ->.
    { rewrite Z.shiftl_mul_pow2, wrap_small, <- Z.shiftl_mul_pow2, Z.lor_comm, lor_add_pow2 by lia. lia. }
    rewrite wrap_small by lia. destruct (Z.ltb_spec (zlen (b :: sig)) (256 * ret + b + Z.of_nat (S left))) as [|Hle]; [by left|].
    apply IH; [lia|exact Hs|zlia|lia].
Qed.

Lemma read_len_loop_rest (lenleft : nat) (ret : Z) (sig : list Z) : exists pre, sig = pre ++ snd (read_len_loop lenleft ret sig).
Proof.
  revert ret sig. induction lenleft as [|left IH]; intros ret sig; cbn [read_len_loop]; [exists []; by destruct (ret <? 128)|].
  destruct sig as [|b sig]; [exists []; by destruct (ret <? 128)|]. destruct (_ <? _); [by exists []|].
  destruct (IH (Z.lor (u64 (Z.shiftl ret 8)) b) sig) as [pre E]. exists (b :: pre). cbn [app]. by rewrite <- E.
Qed.

Lemma read_len_rest (sig : list Z) : exists pre, sig = pre ++ snd (secp256k1_der_read_len sig).
Proof.
  unfold secp256k1_der_read_len. destruct sig as [|b sig]; [by exists []|].
  repeat (case_match; try (by exists [b])). destruct (read_len_loop_rest (Z.to_nat (Z.land b 0x7F)) 0 sig) as [pre E].
  exists (b :: pre). cbn [app]. by rewrite <- E.
Qed.

(** A length is refused, short, or at least 128. *)
Lemma read_len_spec (sig : list Z) : is_bytes sig -> zlen sig < 2 ^ 31 ->
  let '(n, rest) := secp256k1_der_read_len sig in n = -1 \/ (0 <= n < 128 /\ sig = n :: rest) \/ 128 <= n.
Proof.
  intros Hb Hl. unfold secp256k1_der_read_len. destruct sig as [|b sig]; [by left|]. pose proof Hb as [Hbb Hs]%list.Forall_cons.
  destruct (b =? 0xFF); [by left|]. rewrite byte_high by exact Hbb.
  destruct (Z.ltb_spec b 128) as [Hlo|Hhi]; cbn [Z.eqb]; [right; left; split; [unfold is_byte in Hbb; lia|done]|].
  destruct (b =? 0x80); [by left|]. destruct (_ <? _); [by left|]. destruct (_ =? 0); [by left|].
  destruct (Z.ltb_spec 8 (Z.land b 0x7F)); [by left|].
  pose proof (read_len_loop_spec (Z.to_nat (Z.land b 0x7F)) 0 sig ltac:(lia) Hs ltac:(zlia) ltac:(lia)) as S.
  destruct (read_len_loop _ _ _) as [n rest]. destruct S; [by left|by right; right].
Qed.

Lemma skip_zero_two (n : nat) (l : list Z) : (1 < n)%nat -> nth 0 l 0 = 0 -> nth 1 l 0 <> 0 -> skip_zero_bytes n l = (Nat.pred n, tl l).
Proof.
  intros Hn H0 H1. destruct n as [|n]; [lia|]. destruct l as [|a [|c l]]; [done..|]. cbn [nth] in *. subst a.
  destruct n; [lia|]. exact (skip_zero_head (S n) c l H1).
Qed.

Lemma set_int_zero : val (secp256k1_scalar_set_int 0) = 0.
Proof. reflexivity. Qed.

(** What follows the checks, when the scalar is not zero. *)
Lemma parse_tail_inv (neg : bool) (rlen : nat) (sig rest : list Z) (r : secp256k1_scalar) : (rlen <= length sig)%nat ->
  (let overflow := neg || (32 <? rlen)%nat in
   let '(r, overflow) := if overflow then (secp256k1_scalar_set_int 0, overflow) else
     let '(r, o) := secp256k1_scalar_set_b32 (replicate (32 - rlen) 0 ++ take rlen sig) in (r, negb (o =? 0)) in
   let r := if overflow then secp256k1_scalar_set_int 0 else r in
   Some (r, drop rlen sig)) = Some (r, rest) -> val r <> 0 ->
  neg = false /\ (rlen <= 32)%nat /\ r = mag_scalar (take rlen sig) /\ sig = take rlen sig ++ rest.
Proof.
  intros Hle. cbv zeta. destruct neg; cbn [orb]; [intros [= <- _]; by rewrite set_int_zero|].
  destruct (Nat.ltb_spec 32 rlen) as [|H32]; [intros [= <- _]; by rewrite set_int_zero|]. unfold mag_scalar.
  rewrite length_take, Nat.min_l by exact Hle. destruct (secp256k1_scalar_set_b32 _) as [r' o]. intros [= <- <-] _.
  by rewrite take_drop.
Qed.

Lemma parse_integer_inv (sig rest : list Z) (r : secp256k1_scalar) : is_bytes sig -> zlen sig < 2 ^ 31 ->
  secp256k1_der_parse_integer sig = Some (r, rest) -> val r <> 0 ->
  exists dz, magnitude dz /\ zlen dz <= 32 /\ r = mag_scalar dz /\ sig = 0x02 :: zlen (der_int dz) :: der_int dz ++ rest.
Proof.
  intros Hb Hl. unfold secp256k1_der_parse_integer. destruct sig as [|b sig]; [done|]. apply list.Forall_cons in Hb as [_ Hb].
  destruct (Z.eqb_spec b 0x02) as [->|]; cbn [negb]; [|done]. pose proof (read_len_spec sig Hb ltac:(zlia)) as S.
  destruct (secp256k1_der_read_len sig) as [n l].
  destruct (Z.leb_spec n 0) as [|Hn]; [done|]. cbn [orb]. destruct (Z.ltb_spec (zlen l) n) as [|Hnl]; [done|].
  assert (Hnn : Z.of_nat (Z.to_nat n) = n) by lia. assert (Hlen : (Z.to_nat n <= length l)%nat) by (unfold zlen in Hnl; lia).
  assert (Hshort : (Z.to_nat n <= 33)%nat -> sig = n :: l /\ is_bytes l).
  { intros H33. destruct S as [S|[[_ ->]|S]]; [lia| |lia]. split; [done|]. by apply list.Forall_cons in Hb as [_ Hb]. }
  clear S. destruct l as [|h l]; [unfold zlen in Hnl; cbn [length] in Hnl; lia|]. cbn [nth].
  destruct (Z.eqb_spec h 0) as [->|Hh]; cbn [andb].
  - replace (0 =? 0xFF) with false by done. replace (Z.land 0 0x80 =? 0x80) with false by done. cbn [andb].
    destruct (Z.ltb_spec 1 n) as [H1|H1]; cbn [andb].
    + destruct (Z.eqb_spec (Z.land (nth 0 l 0) 0x80) 0) as [|Hc]; [done|].
      rewrite skip_zero_two; [|lia|done|cbn [nth]; intros E; rewrite E in Hc; done]. cbn [list.tail]. intros E Hr.
      apply parse_tail_inv in E as (_ & H32 & -> & El); [|cbn [length] in Hlen; lia|exact Hr].
      destruct (Hshort ltac:(lia)) as [-> Hbl]. apply list.Forall_cons in Hbl as [_ Hbl]. set (dz := take (Nat.pred (Z.to_nat n)) l) in *.
      assert (Hdz : length dz = Nat.pred (Z.to_nat n)) by (unfold dz; rewrite length_take; cbn [length] in Hlen; lia).
      clearbody dz. subst l. apply is_bytes_app in Hbl as [Hbl _]. destruct dz as [|c dz]; [cbn [length] in Hdz; lia|]. cbn [app nth] in Hc.
      pose proof Hbl as [Hbc _]%list.Forall_cons. rewrite byte_high in Hc by exact Hbc. destruct (Z.ltb_spec c 128) as [|Hc8]; [done|].
      exists (c :: dz). cbn [der_int]. rewrite (proj2 (Z.ltb_ge c 128)) by lia.
      split; [split; [exact Hbl|intros [=]; lia]|]. unfold zlen. split; [lia|]. split; [done|]. cbn [length app] in *.
      repeat f_equal. lia.
    + assert (n = 1) as -> by lia. change (skip_zero_bytes (Z.to_nat 1) (0 :: l)) with (O, l). cbn iota beta. intros E Hr.
      apply parse_tail_inv in E as (_ & H32 & -> & ->); [|lia|exact Hr]. destruct (Hshort ltac:(lia)) as [-> _].
      exists []. by repeat split.
  - destruct ((h =? 0xFF) && _ && _); [done|]. rewrite skip_zero_head by exact Hh. intros E Hr.
    apply parse_tail_inv in E as (Hneg & H32 & -> & El); [|exact Hlen|exact Hr]. destruct (Hshort ltac:(lia)) as [-> Hbl].
    set (dz := take (Z.to_nat n) (h :: l)) in *. assert (Hdz : length dz = Z.to_nat n) by (unfold dz; rewrite length_take; lia).
    clearbody dz. rewrite El in Hbl |- *. apply is_bytes_app in Hbl as [Hbl _]. exists dz.
    destruct dz as [|h' dz]; [cbn [length] in Hdz; lia|]. injection El as <- _. pose proof Hbl as [Hbh _]%list.Forall_cons.
    rewrite byte_high in Hneg by exact Hbh. destruct (Z.ltb_spec h 128) as [Hh8|]; [|done]. cbn [der_int]. rewrite (proj2 (Z.ltb_lt h 128)) by lia.
    split; [split; [exact Hbl|intros [=]; lia]|]. unfold zlen. split; [lia|]. split; [done|]. repeat f_equal. lia.
Qed.

(** The magnitude of a scalar. *)
Definition scalar_mag (a : secp256k1_scalar) : list Z := dropz (secp256k1_scalar_get_b32 a).

Lemma scalar_mag_ok (a : secp256k1_scalar) : scalar_ok a ->
  magnitude (scalar_mag a) /\ zlen (scalar_mag a) <= 32 /\ mag_scalar (scalar_mag a) = a.
Proof.
  intros Ha. unfold scalar_mag, mag_scalar. pose proof (scalar_bytes a Ha) as E. rewrite get_b32_spec in E |- * by apply Ha.
  set (l := be_bytes 32 (val a)) in *. assert (length l = 32%nat) as Hl by apply be_bytes_length.
  destruct (dropz_pad l) as [Hp Hle]. split; [apply dropz_magnitude, be_bytes_is_bytes|]. split; [unfold zlen; lia|].
  rewrite <- Hl at 1. by rewrite Hp, E.
Qed.

Lemma mag_scalar_ok (dz : list Z) : magnitude dz -> zlen dz <= 32 -> val (mag_scalar dz) <> 0 ->
  scalar_ok (mag_scalar dz) /\ scalar_mag (mag_scalar dz) = dz.
Proof.
  intros Hm Hl. unfold mag_scalar, scalar_mag. set (l := replicate (32 - length dz) 0 ++ dz).
  assert (is_bytes l) as Hb. { apply is_bytes_app. split; [apply is_bytes_replicate; done|apply Hm]. }
  assert (length l = 32%nat) as Hl32. { unfold l. rewrite length_app, length_replicate. unfold zlen in Hl. lia. }
  pose proof (set_b32_spec l Hb Hl32) as S. destruct (secp256k1_scalar_set_b32 l) as [r o]. destruct S as (Hr & Ev & ->).
  destruct (Z.leb_spec order (be_val l)) as [|Hlt]; cbn [Z.eqb negb]; [by rewrite set_int_zero|]. intros _. split; [exact Hr|].
  rewrite get_b32_spec by apply Hr. rewrite Ev, Z.mod_small.
  - rewrite <- Hl32, be_bytes_val by exact Hb. by apply dropz_padded.
  - split; [apply be_val_range, Hb|exact Hlt].
Qed.

(** The bytes of a signature. *)
Definition der_bytes (r s : secp256k1_scalar) : list Z :=
  let rp := der_int (scalar_mag r) in
  let sp := der_int (scalar_mag s) in
  0x30 :: (4 + zlen sp + zlen rp) :: (0x02 :: zlen rp :: rp ++ 0x02 :: zlen sp :: sp).

Lemma sig_serialize_spec (size : Z) (r s : secp256k1_scalar) : scalar_ok r -> scalar_ok s -> zlen (der_bytes r s) <= size ->
  secp256k1_ecdsa_sig_serialize size r s = (true, der_bytes r s, zlen (der_bytes r s)).
Proof.
  intros Hr Hs Hz. destruct (scalar_mag_ok r Hr) as (_ & Lr & _), (scalar_mag_ok s Hs) as (_ & Ls & _).
  unfold secp256k1_ecdsa_sig_serialize. rewrite !strip_zeros_der by (rewrite get_b32_spec by (apply Hr || apply Hs); apply be_bytes_is_bytes).
  fold (scalar_mag r) (scalar_mag s). unfold der_bytes in *. pose proof (der_int_zlen (scalar_mag r)). pose proof (der_int_zlen (scalar_mag s)).
  set (rp := der_int (scalar_mag r)) in *. set (sp := der_int (scalar_mag s)) in *. clearbody rp sp.
  assert (zlen (0x30 :: (4 + zlen sp + zlen rp) :: 0x02 :: zlen rp :: rp ++ 0x02 :: zlen sp :: sp) = 6 + zlen sp + zlen rp) as E by zlia.
  rewrite E in *. rewrite (proj2 (Z.ltb_ge size _)) by lia. rewrite !wrap_small by lia. reflexivity.
Qed.

Lemma der_bytes_length (r s : secp256k1_scalar) : scalar_ok r -> scalar_ok s -> 8 <= zlen (der_bytes r s) <= 72.
Proof.
  intros Hr Hs. destruct (scalar_mag_ok r Hr) as (_ & Lr & _), (scalar_mag_ok s Hs) as (_ & Ls & _). unfold der_bytes.
  pose proof (der_int_zlen (scalar_mag r)). pose proof (der_int_zlen (scalar_mag s)). zlia.
Qed.

Lemma sig_parse_der (r s : secp256k1_scalar) : scalar_ok r -> scalar_ok s -> secp256k1_ecdsa_sig_parse (der_bytes r s) = Some (r, s).
Proof.
  intros Hr Hs. destruct (scalar_mag_ok r Hr) as (Mr & Lr & Er), (scalar_mag_ok s Hs) as (Ms & Ls & Es). unfold der_bytes, secp256k1_ecdsa_sig_parse.
  pose proof (der_int_zlen (scalar_mag r)) as Zr. pose proof (der_int_zlen (scalar_mag s)) as Zs. cbn [Z.eqb Pos.eqb negb].
  rewrite read_len_short by lia. assert (zlen (0x02 :: zlen (der_int (scalar_mag r)) :: der_int (scalar_mag r) ++
    0x02 :: zlen (der_int (scalar_mag s)) :: der_int (scalar_mag s)) = 4 + zlen (der_int (scalar_mag s)) + zlen (der_int (scalar_mag r))) as -> by zlia.
  rewrite (proj2 (Z.ltb_ge _ 0)), Z.ltb_irrefl, Z.eqb_refl by lia. cbn [orb negb].
  rewrite parse_der_int by assumption. cbn [mbind option_bind]. rewrite <- (app_nil_r (der_int (scalar_mag s))) at 2.
  rewrite parse_der_int by assumption. cbn [mbind option_bind]. by rewrite Er, Es.
Qed.

Lemma sig_parse_inv (input : list Z) (r s : secp256k1_scalar) : is_bytes input -> zlen input < 2 ^ 31 ->
  secp256k1_ecdsa_sig_parse input = Some (r, s) -> val r <> 0 -> val s <> 0 -> scalar_ok r /\ scalar_ok s /\ input = der_bytes r s.
Proof.
  intros Hb Hl E Hr Hs. unfold secp256k1_ecdsa_sig_parse in E. destruct input as [|b sig]; [done|]. apply list.Forall_cons in Hb as [_ Hb].
  destruct (Z.eqb_spec b 0x30) as [->|]; cbn [negb] in E; [|done]. pose proof (read_len_spec sig Hb ltac:(zlia)) as S.
  destruct (secp256k1_der_read_len sig) as [n l] eqn:En.
  destruct (Z.ltb_spec n 0) as [|Hn]; [done|]. cbn [orb] in E. destruct (Z.ltb_spec (zlen l) n) as [|Hnl]; [done|].
  destruct (Z.eqb_spec (zlen l) n) as [Hz|]; cbn [negb] in E; [|done].
  destruct (read_len_rest sig) as [pre Ep]. rewrite En in Ep. cbn [snd] in Ep.
  assert (is_bytes l /\ zlen l < 2 ^ 31) as [Hbl Hll].
  { rewrite Ep in Hb, Hl. apply is_bytes_app in Hb as [_ Hbl]. split; [exact Hbl|]. zlia. }
  destruct (secp256k1_der_parse_integer l) as [[r1 l1]|] eqn:E1; cbn [mbind option_bind] in E; [|done].
  destruct (secp256k1_der_parse_integer l1) as [[s1 l2]|] eqn:E2; cbn [mbind option_bind] in E; [|done].
  destruct (Z.eqb_spec (zlen l2) 0) as [Hl2|]; cbn [negb] in E; [|done]. injection E as -> ->.
  assert (l2 = []) as -> by (destruct l2; [done|zlia]).
  destruct (parse_integer_inv l l1 r Hbl Hll E1 Hr) as (dr & Mr & Lr & -> & ->).
  assert (is_bytes l1) as Hb1. { apply list.Forall_cons in Hbl as [_ Hbl]. apply list.Forall_cons in Hbl as [_ Hbl]. by apply is_bytes_app in Hbl as [_ Hbl]. }
  destruct (parse_integer_inv l1 [] s Hb1 ltac:(zlia) E2 Hs) as (ds & Ms & Ls & -> & ->). rewrite app_nil_r in *.
  destruct (mag_scalar_ok dr Mr Lr Hr) as [Or Dr], (mag_scalar_ok ds Ms Ls Hs) as [Os Ds]. split; [exact Or|]. split; [exact Os|].
  pose proof (der_int_zlen dr). pose proof (der_int_zlen ds). clear Ep En E1 E2. destruct S as [S|[[_ ->]|S]]; [lia| |zlia].
  unfold der_bytes. rewrite Dr, Ds, <- Hz. repeat f_equal. zlia.
Qed.

(** ** The claims *)

(** C14: the DER form of a signature is exact.  Any pair of scalars is written
    in at most 72 bytes, refused with the length needed when the buffer is
    smaller, and read back from its bytes; and any input that is read as two
    non-zero scalars is, byte for byte, what is written for them, so a valid
    signature has one accepted encoding. *)
Theorem der_exact (r s : secp256k1_scalar) (size : Z) : scalar_ok r -> scalar_ok s ->
  (let '(ok, out, len) := secp256k1_ecdsa_sig_serialize size r s in
   8 <= len <= 72 /\ ok = (len <=? size) /\
   (if ok then zlen out = len /\ secp256k1_ecdsa_sig_parse out = Some (r, s) else out = [])) /\
  (forall input, is_bytes input -> zlen input < 2 ^ 31 -> val r <> 0 -> val s <> 0 ->
   secp256k1_ecdsa_sig_parse input = Some (r, s) ->
   secp256k1_ecdsa_sig_serialize (zlen input) r s = (true, input, zlen input)).
Proof.
  intros Hr Hs. pose proof (der_bytes_length r s Hr Hs) as Hl. split.
  - destruct (Z.leb_spec (zlen (der_bytes r s)) size) as [Hle|Hgt].
    + rewrite sig_serialize_spec by assumption. split; [exact Hl|]. rewrite (proj2 (Z.leb_le _ _) Hle).
      split; [reflexivity|]. split; [reflexivity|]. by apply sig_parse_der.
    + pose proof (sig_serialize_spec (zlen (der_bytes r s)) r s Hr Hs ltac:(lia)) as E. unfold secp256k1_ecdsa_sig_serialize in E |- *.
      set (rp := strip_zeros (0 :: secp256k1_scalar_get_b32 r)) in *. set (sp := strip_zeros (0 :: secp256k1_scalar_get_b32 s)) in *.
      destruct (zlen (der_bytes r s) <? 6 + zlen sp + zlen rp); [done|]. apply (f_equal snd) in E. cbn [snd] in E. rewrite E.
      rewrite (proj2 (Z.ltb_lt size _) Hgt), (proj2 (Z.leb_gt _ size) Hgt). done.
  - intros input Hb Hlen Hr0 Hs0 E. destruct (sig_parse_inv input r s Hb Hlen E Hr0 Hs0) as (_ & _ & ->). by apply sig_serialize_spec.
Qed.

(** The scalars 1 and n - 1: a one byte integer and one of 33 bytes. *)
Lemma der_exact_witness :
  let r := secp256k1_scalar_set_int 1 in
  let s := mk_scalar (SECP256K1_N_0 - 1) SECP256K1_N_1 SECP256K1_N_2 SECP256K1_N_3 in
  secp256k1_ecdsa_sig_parse (snd (fst (secp256k1_ecdsa_sig_serialize 72 r s))) = Some (r, s) /\
  snd (secp256k1_ecdsa_sig_serialize 72 r s) = 40.
Proof.
  intros r s. destruct (der_exact r s 72) as [H _]; [by vm_compute..|].
  assert (snd (secp256k1_ecdsa_sig_serialize 72 r s) = 40) as E by (by vm_compute).
  destruct (secp256k1_ecdsa_sig_serialize 72 r s) as [[ok out] len]. cbn [fst snd] in *. destruct H as (_ & -> & H).
  rewrite E in H |- *. split; [apply H|reflexivity].
Defined.
