(* ===== verification/Ecdsa.v ===== *)
(** * ECDSA: ecdsa_impl.h and the signature functions of secp256k1.c

    Signatures are pairs of scalars, in the DER form of Der.v or as 64 bytes;
    signing and verifying run on the interface to the curve of Ecc.v and the
    scalars of Scalar.v.  The wrappers of ecc_libsecp256k1.c follow: what
    [btc_ecc_sign] writes is accepted by [btc_ecc_verify_sig]. *)

From S2P Require Import Prelude.
From S2P Require Import Scalar.
From S2P Require Import Prime.
From S2P Require Import ScalarInv.
From S2P Require Import Ecc.
From S2P Require Import Der.

(** ** Signatures *)

(** The 64 bytes of a signature hold the two scalars as they are. *)
Record secp256k1_ecdsa_signature := mk_signature { sig_r : secp256k1_scalar; sig_s : secp256k1_scalar }.

Definition zero_signature : secp256k1_ecdsa_signature := mk_signature (mk_scalar 0 0 0 0) (mk_scalar 0 0 0 0).

Definition secp256k1_ecdsa_signature_parse_der (input : list Z) : bool * secp256k1_ecdsa_signature :=
  match secp256k1_ecdsa_sig_parse input with
  | Some (r, s) => (true, mk_signature r s)
  | None => (false, zero_signature)
  end.

Definition secp256k1_ecdsa_signature_parse_compact (input64 : list Z) : bool * secp256k1_ecdsa_signature :=
  let '(r, o1) := secp256k1_scalar_set_b32 (ztake 32 input64) in
  let '(s, o2) := secp256k1_scalar_set_b32 (ztake 32 (zdrop 32 input64)) in
  if (o1 =? 0) && (o2 =? 0) then (true, mk_signature r s) else (false, zero_signature).

Definition secp256k1_ecdsa_signature_serialize_der (outputlen : Z) (sig : secp256k1_ecdsa_signature) : bool * list Z * Z :=
  secp256k1_ecdsa_sig_serialize outputlen (sig_r sig) (sig_s sig).

Definition secp256k1_ecdsa_signature_serialize_compact (sig : secp256k1_ecdsa_signature) : list Z :=
  secp256k1_scalar_get_b32 (sig_r sig) ++ secp256k1_scalar_get_b32 (sig_s sig).

(** The result and [*sigout]. *)
Definition secp256k1_ecdsa_signature_normalize (sigin : secp256k1_ecdsa_signature) : Z * secp256k1_ecdsa_signature :=
  let ret := secp256k1_scalar_is_high (sig_s sigin) in
  (ret, mk_signature (sig_r sigin) (if negb (ret =? 0) then secp256k1_scalar_negate (sig_s sigin) else sig_s sigin)).

Definition secp256k1_ecdsa_const_p_minus_order : Z := 0x14551231950B75FC4402DA1722FC9BAEE.

Section Ecdsa.

Context {C : Curve}.

Definition secp256k1_ecdsa_sig_verify (sigr sigs : secp256k1_scalar) (pubkey : point) (message : secp256k1_scalar) : bool :=
  if secp256k1_scalar_is_zero sigr || secp256k1_scalar_is_zero sigs then false else
  let sn := secp256k1_scalar_inverse_var sigs in
  let u1 := secp256k1_scalar_mul sn message in
  let u2 := secp256k1_scalar_mul sn sigr in
  let pr := ecmult pubkey (val u2) (val u1) in
  if is_infinity pr then false else
  let xr := be_val (secp256k1_scalar_get_b32 sigr) in
  if xr =? point_x pr then true else
  if secp256k1_ecdsa_const_p_minus_order <=? xr then false else
  let xr := xr + order in
  xr =? point_x pr.

(** The result, the two scalars and [*recid]. *)
Definition secp256k1_ecdsa_sig_sign (seckey message nonce : secp256k1_scalar) :
    option (secp256k1_scalar * secp256k1_scalar * Z) :=
  let r := ecmult_gen (val nonce) in
  let b := be_bytes 32 (point_x r) in
  let '(sigr, overflow) := secp256k1_scalar_set_b32 b in
  if secp256k1_scalar_is_zero sigr then None else
  let recid := Z.lor (if negb (overflow =? 0) then 2 else 0) (if point_y_odd r then 1 else 0) in
  let n := secp256k1_scalar_mul sigr seckey in
  let '(n, _) := secp256k1_scalar_add n message in
  let sigs := secp256k1_scalar_inverse nonce in
  let sigs := secp256k1_scalar_mul sigs n in
  if secp256k1_scalar_is_zero sigs then None else
  if negb (secp256k1_scalar_is_high sigs =? 0) then Some (sigr, secp256k1_scalar_negate sigs, Z.lxor recid 1)
  else Some (sigr, sigs, recid).

Definition secp256k1_ecdsa_verify (sig : secp256k1_ecdsa_signature) (msg32 : list Z) (pubkey : point) : bool :=
  let '(m, _) := secp256k1_scalar_set_b32 msg32 in
  (secp256k1_scalar_is_high (sig_s sig) =? 0) && secp256k1_ecdsa_sig_verify (sig_r sig) (sig_s sig) pubkey m.

(** The nonce function gets the message, the key and a counter. *)
Context (noncefp : list Z -> list Z -> Z -> option (list Z)).

(** [while (1)]: [None] when [fuel] turns were not enough, [Some None] when the
    nonce function failed. *)
Fixpoint sign_loop (fuel : nat) (sec msg : secp256k1_scalar) (msg32 seckey : list Z) (count : Z) :
    option (option (secp256k1_scalar * secp256k1_scalar * Z)) :=
  match fuel with
  | O => None
  | S fuel' =>
      match noncefp msg32 seckey count with
      | None => Some None
      | Some nonce32 =>
          let '(non, overflow) := secp256k1_scalar_set_b32 nonce32 in
          let signed :=
            if (overflow =? 0) && negb (secp256k1_scalar_is_zero non) then secp256k1_ecdsa_sig_sign sec msg non else None in
          match signed with
          | Some (r, s, recid) => Some (Some (r, s, recid))
          | None => sign_loop fuel' sec msg msg32 seckey (u32 (count + 1))
          end
      end
  end.

(** The result and the signature. *)
Definition secp256k1_ecdsa_sign (fuel : nat) (msg32 seckey : list Z) : option (bool * secp256k1_ecdsa_signature) :=
  let '(sec, overflow) := secp256k1_scalar_set_b32 seckey in
  if (overflow =? 0) && negb (secp256k1_scalar_is_zero sec) then
    let '(msg, _) := secp256k1_scalar_set_b32 msg32 in
    res ← sign_loop fuel sec msg msg32 seckey 0;
    match res with
    | Some (r, s, _) => Some (true, mk_signature r s)
    | None => Some (false, zero_signature)
    end
  else Some (false, zero_signature).

(** ** ecc_libsecp256k1.c *)

(** The result, the bytes written and [*outlen]. *)
Definition btc_ecc_sign (fuel : nat) (private_key hash : list Z) (outlen : Z) : option (bool * list Z * Z) :=
  '(ok, sig) ← secp256k1_ecdsa_sign fuel hash private_key;
  if negb ok then Some (false, [], outlen) else Some (secp256k1_ecdsa_signature_serialize_der outlen sig).

Definition btc_ecc_sign_compact (fuel : nat) (private_key hash : list Z) (outlen : Z) : option (bool * list Z * Z) :=
  '(ok, sig) ← secp256k1_ecdsa_sign fuel hash private_key;
  if negb ok then Some (false, [], outlen) else Some (true, secp256k1_ecdsa_signature_serialize_compact sig, 64).

Definition btc_ecc_verify_sig (public_key : list Z) (compressed : bool) (hash sigder : list Z) : bool :=
  match eckey_parse (ztake (if compressed then 33 else 65) public_key) with
  | None => false
  | Some pubkey =>
      let '(ok, sig) := secp256k1_ecdsa_signature_parse_der sigder in
      if negb ok then false else secp256k1_ecdsa_verify sig hash pubkey
  end.

End Ecdsa.

(** The result, the bytes written and [*sigder_len_out]. *)
Definition btc_ecc_compact_to_der_normalized (sigcomp_in : list Z) (sigder_len : Z) : bool * list Z * Z :=
  let '(ok, sig) := secp256k1_ecdsa_signature_parse_compact sigcomp_in in
  if negb ok then (false, [], sigder_len) else
  let '(_, sigNorm) := secp256k1_ecdsa_signature_normalize sig in
  secp256k1_ecdsa_signature_serialize_der sigder_len sigNorm.

Definition btc_ecc_der_to_compact (sigder_in : list Z) : option (list Z) :=
  let '(ok, sig) := secp256k1_ecdsa_signature_parse_der sigder_in in
  if negb ok then None else Some (secp256k1_ecdsa_signature_serialize_compact sig).

(** ** A signature verifies *)

#[local] Opaque order field_order secp256k1_scalar_set_b32 secp256k1_scalar_add secp256k1_scalar_mul secp256k1_scalar_inverse
  secp256k1_scalar_negate secp256k1_scalar_is_high secp256k1_scalar_is_zero secp256k1_scalar_get_b32.

Lemma field_order_bounds : order < field_order < 2 * order /\ field_order < 2 ^ 256 /\
  secp256k1_ecdsa_const_p_minus_order = field_order - order.
Proof. by vm_compute. Qed.

Lemma scalar_range (a : secp256k1_scalar) : scalar_ok a -> 0 <= val a < order.
Proof. intros [Ha Hlt]. pose proof (val_range a Ha). lia. Qed.

(** The recovery id of a point: whether x exceeds the order, and the parity of y. *)
Definition point_recid {C : Curve} (P : point) : Z :=
  Z.lor (if order <=? point_x P then 2 else 0) (if point_y_odd P then 1 else 0).

(** What signing achieves, for the public nonce [k] or its opposite. *)
Definition signed {C : Curve} (d m r s recid : Z) : Prop :=
  exists k, 0 < k < order /\ r = point_x (ecmult_gen k) mod order /\ r <> 0 /\ 0 < s < order /\
    (s * k) mod order = (m + r * d) mod order /\ recid = point_recid (ecmult_gen k).

Section Proofs.

Context {C : Curve} {L : CurveLaws C}.

Lemma sig_sign_spec (sec msg non r s : secp256k1_scalar) (recid : Z) : scalar_ok sec -> scalar_ok msg -> scalar_ok non -> val non <> 0 ->
  secp256k1_ecdsa_sig_sign sec msg non = Some (r, s, recid) ->
  scalar_ok r /\ scalar_ok s /\ signed (val sec) (val msg) (val r) (val s) recid /\ secp256k1_scalar_is_high s = 0.
Proof.
  intros Hsec Hmsg Hnon Hn0. unfold secp256k1_ecdsa_sig_sign. pose proof (scalar_range non Hnon) as Rn. pose proof order_bounds as Ho.
  pose proof (gen_x_range (val non)) as Rx. set (x := point_x (ecmult_gen (val non))) in *.
  pose proof (set_b32_spec (be_bytes 32 x) (be_bytes_is_bytes _ _) (be_bytes_length _ _)) as S.
  destruct (secp256k1_scalar_set_b32 _) as [r' o]. destruct S as (Hr & Er & Eo). rewrite is_zero_spec by apply Hr.
  assert (be_val (be_bytes 32 x) = x) as Ex.
  { rewrite be_val_bytes. apply Z.mod_small. destruct field_order_bounds as (_ & Hf & _). change (256 ^ Z.of_nat 32) with (2 ^ 256). lia. }
  rewrite Ex in Er, Eo.
  assert ((if negb (o =? 0) then 2 else 0) = if order <=? x then 2 else 0) as -> by (rewrite Eo; by destruct (order <=? x)). clear Eo.
  destruct (Z.eqb_spec (val r') 0) as [|Hr0]; [done|].
  destruct (scalar_mul_spec r' sec) as [Hrd Erd]; [apply Hr|apply Hsec|].
  pose proof (scalar_add_spec (secp256k1_scalar_mul r' sec) msg Hrd Hmsg) as Sa. destruct (secp256k1_scalar_add _ _) as [n o'].
  destruct Sa as (Hn & En & _). destruct (inverse_spec non Hnon Hn0) as [Hi Ei]. set (i := secp256k1_scalar_inverse non) in *.
  destruct (scalar_mul_spec i n) as [Hs Es]; [apply Hi|apply Hn|]. set (s' := secp256k1_scalar_mul i n) in *. clearbody s' i.
  rewrite is_zero_spec by apply Hs. destruct (Z.eqb_spec (val s') 0) as [|Hs0]; [done|].
  pose proof (scalar_range s' Hs) as Rs.
  assert ((val s' * val non) mod order = (val msg + val r' * val sec) mod order) as Eq.
  { rewrite Es, Zmult_mod_idemp_l. transitivity (((val non * val i) * val n) mod order); [f_equal; lia|].
    rewrite <- Zmult_mod_idemp_l, Ei, Z.mul_1_l, En, Zmod_mod, Erd, Zplus_mod_idemp_l. f_equal. lia. }
  rewrite is_high_spec by apply Hs. destruct (Z.ltb_spec (order / 2) (val s')) as [Hhi|Hlo]; cbn [Z.eqb Pos.eqb negb]; intros [= <- <- <-].
  - destruct (negate_spec s' Hs) as [Hg Eg]. assert (val (secp256k1_scalar_negate s') = order - val s') as Eg'.
    { rewrite Eg. symmetry. apply (Zmod_unique _ _ (-1)); lia. }
    split; [exact Hr|]. split; [exact Hg|]. split.
    + exists (order - val non). split; [lia|]. split; [rewrite gen_x_neg by lia; exact Er|]. split; [exact Hr0|]. split; [lia|]. split; [rewrite <- Eq, Eg'|].
      { replace ((order - val s') * (order - val non)) with (val s' * val non + (order - val s' - val non) * order) by lia.
        by rewrite Z_mod_plus_full. }
      { unfold point_recid. rewrite gen_x_neg, gen_y_neg by lia. fold x. by destruct (order <=? x), (point_y_odd _). }
    + rewrite is_high_spec by apply Hg. rewrite Eg'. rewrite (proj2 (Z.ltb_ge _ _)); [reflexivity|]. clear -Hhi Rs Ho. zdm.
  - split; [exact Hr|]. split; [exact Hs|]. split; [|rewrite is_high_spec by apply Hs; rewrite (proj2 (Z.ltb_ge _ _) Hlo); reflexivity].
    exists (val non). split; [lia|]. split; [exact Er|]. split; [exact Hr0|]. split; [lia|]. split; [exact Eq|reflexivity].
Qed.

Lemma sig_verify_signed (d recid : Z) (r s msg : secp256k1_scalar) : scalar_ok r -> scalar_ok s -> scalar_ok msg ->
  signed d (val msg) (val r) (val s) recid -> secp256k1_ecdsa_sig_verify r s (ecmult_gen d) msg = true.
Proof.
  intros Hr Hs Hm (k & Hk & Er & Hr0 & Hs0 & Eq & _). unfold secp256k1_ecdsa_sig_verify, secp256k1_scalar_inverse_var. pose proof order_bounds as Ho.
  rewrite !is_zero_spec by (apply Hr || apply Hs). rewrite (proj2 (Z.eqb_neq _ 0)), (proj2 (Z.eqb_neq (val s) 0)) by lia. cbn [orb].
  destruct (inverse_spec s Hs ltac:(lia)) as [Hi Ei]. set (i := secp256k1_scalar_inverse s) in *.
  destruct (scalar_mul_spec i msg) as [_ E1]; [apply Hi|apply Hm|]. destruct (scalar_mul_spec i r) as [_ E2]; [apply Hi|apply Hr|].
  rewrite E1, E2, gen_ecmult.
  assert ((((val i * val r) mod order * d + (val i * val msg) mod order) mod order) = k) as ->.
  { rewrite <- Zplus_mod_idemp_l, Zmult_mod_idemp_l, <- Zplus_mod. transitivity ((val i * (val msg + val r * d)) mod order); [f_equal; lia|].
    rewrite <- Zmult_mod_idemp_r, <- Eq, Zmult_mod_idemp_r. transitivity (((val s * val i) * k) mod order); [f_equal; lia|].
    rewrite <- Zmult_mod_idemp_l, Ei, Z.mul_1_l. apply Z.mod_small. lia. }
  rewrite gen_infinity by lia. rewrite (proj2 (Z.eqb_neq k 0)) by lia. rewrite get_b32_spec by apply Hr.
  pose proof (scalar_range r Hr) as Rr. assert (be_val (be_bytes 32 (val r)) = val r) as ->.
  { rewrite be_val_bytes. apply Z.mod_small. change (256 ^ Z.of_nat 32) with (2 ^ 256). lia. }
  pose proof (gen_x_range k) as Rx. set (x := point_x (ecmult_gen k)) in *. destruct field_order_bounds as (Hf & _ & ->).
  destruct (Z.eqb_spec (val r) x) as [|Hne]; [done|]. assert (x = val r + order) as ->.
  { rewrite Er. pose proof (Z_div_mod_eq_full x order). destruct (decide (x < order)); [rewrite Er, Z.mod_small in Hne; lia|].
    assert (x / order = 1) by (symmetry; apply (Z.div_unique x order 1 (x - order)); lia). lia. }
  rewrite (proj2 (Z.leb_gt _ _)) by lia. apply Z.eqb_refl.
Qed.

(** ** Signing *)

Context (noncefp : list Z -> list Z -> Z -> option (list Z)).

(** A nonce is an array of 32 bytes. *)
Definition nonce_bytes : Prop := forall m k c n, noncefp m k c = Some n -> is_bytes n /\ length n = 32%nat.

Lemma sign_loop_spec (Hnb : nonce_bytes) (fuel : nat) (sec msg r s : secp256k1_scalar) (msg32 seckey : list Z) (count recid : Z) :
  scalar_ok sec -> scalar_ok msg -> sign_loop noncefp fuel sec msg msg32 seckey count = Some (Some (r, s, recid)) ->
  scalar_ok r /\ scalar_ok s /\ signed (val sec) (val msg) (val r) (val s) recid /\ secp256k1_scalar_is_high s = 0.
Proof.
  intros Hsec Hmsg. revert count. induction fuel as [|fuel IH]; intros count; cbn [sign_loop]; [discriminate|].
  destruct (noncefp msg32 seckey count) as [nonce|] eqn:En; [|discriminate]. destruct (Hnb _ _ _ _ En) as [Hb Hl].
  pose proof (set_b32_spec nonce Hb Hl) as S. destruct (secp256k1_scalar_set_b32 nonce) as [non o]. destruct S as (Hn & _ & _).
  rewrite is_zero_spec by apply Hn. destruct ((o =? 0) && negb (val non =? 0)) eqn:Eg; [|apply IH].
  apply andb_true_iff in Eg as [_ Eg]. apply negb_true_iff, Z.eqb_neq in Eg.
  destruct (secp256k1_ecdsa_sig_sign sec msg non) as [[[r' s'] id]|] eqn:Es; [|apply IH]. intros [= -> -> ->].
  exact (sig_sign_spec sec msg non r s recid Hsec Hmsg Hn Eg Es).
Qed.

(** The scalars of a valid key and of a message. *)
Lemma sign_scalars (msg32 seckey : list Z) : is_bytes msg32 -> zlen msg32 = 32 -> is_bytes seckey -> zlen seckey = 32 -> 0 < be_val seckey < order ->
  exists sec msg o, secp256k1_scalar_set_b32 seckey = (sec, 0) /\ secp256k1_scalar_set_b32 msg32 = (msg, o) /\
    scalar_ok sec /\ scalar_ok msg /\ val sec = be_val seckey.
Proof.
  intros Hm Hml Hk Hkl Hv. pose proof (set_b32_spec seckey Hk ltac:(unfold zlen in Hkl; lia)) as Sk.
  pose proof (set_b32_spec msg32 Hm ltac:(unfold zlen in Hml; lia)) as Sm.
  destruct (secp256k1_scalar_set_b32 seckey) as [sec o1], (secp256k1_scalar_set_b32 msg32) as [msg o2].
  destruct Sk as (Hsec & Esec & Eo). destruct Sm as (Hmsg & _ & _). rewrite (proj2 (Z.leb_gt _ _)) in Eo by lia. rewrite Z.mod_small in Esec by lia.
  subst o1. exists sec, msg, o2. split; [reflexivity|]. split; [reflexivity|]. exact (conj Hsec (conj Hmsg Esec)).
Qed.

Lemma ecdsa_sign_spec (Hnb : nonce_bytes) (fuel : nat) (msg32 seckey : list Z) (sig : secp256k1_ecdsa_signature) :
  is_bytes msg32 -> zlen msg32 = 32 -> is_bytes seckey -> zlen seckey = 32 -> 0 < be_val seckey < order ->
  secp256k1_ecdsa_sign noncefp fuel msg32 seckey = Some (true, sig) ->
  scalar_ok (sig_r sig) /\ scalar_ok (sig_s sig) /\ val (sig_r sig) <> 0 /\ val (sig_s sig) <> 0 /\
  secp256k1_scalar_is_high (sig_s sig) = 0 /\ secp256k1_ecdsa_verify sig msg32 (ecmult_gen (be_val seckey)) = true.
Proof.
  intros Hm Hml Hk Hkl Hv. destruct (sign_scalars msg32 seckey Hm Hml Hk Hkl Hv) as (sec & msg & o & E1 & E2 & Hsec & Hmsg & Esec).
  unfold secp256k1_ecdsa_sign, secp256k1_ecdsa_verify. rewrite E1, E2. rewrite is_zero_spec by apply Hsec.
  rewrite (proj2 (Z.eqb_neq (val sec) 0)) by lia. cbn [Z.eqb andb negb].
  destruct (sign_loop _ _ _ _ _ _ _) as [[[[r s] id]|]|] eqn:El; cbn [mbind option_bind]; [|discriminate|discriminate]. intros [= <-].
  destruct (sign_loop_spec Hnb fuel sec msg r s msg32 seckey 0 id Hsec Hmsg El) as (Hr & Hs & Hsg & Hlow). cbn [sig_r sig_s].
  pose proof Hsg as (k & _ & _ & Hr0 & Hs0 & _ & _). rewrite Hlow, <- Esec. cbn [Z.eqb andb].
  split; [exact Hr|]. split; [exact Hs|]. split; [exact Hr0|]. split; [lia|]. split; [reflexivity|]. by apply (sig_verify_signed _ id).
Qed.

(** A nonce with which the loop of [secp256k1_ecdsa_sign] ends. *)
Definition usable (sec msg : secp256k1_scalar) (nonce32 : list Z) : bool :=
  let '(non, overflow) := secp256k1_scalar_set_b32 nonce32 in
  (overflow =? 0) && negb (secp256k1_scalar_is_zero non) &&
  match secp256k1_ecdsa_sig_sign sec msg non with Some _ => true | None => false end.

End Proofs.

(** ** Signing and verifying *)

Section Sign.

Context {C : Curve} {L : CurveLaws C} (noncefp : list Z -> list Z -> Z -> option (list Z)).

(** The bytes of a signature that was made, in both forms. *)
Lemma sign_forms (Hnb : nonce_bytes noncefp) (fuel : nat) (key hash : list Z) (sig : secp256k1_ecdsa_signature) (size : Z) (c : bool) :
  is_bytes hash -> zlen hash = 32 -> is_bytes key -> zlen key = 32 -> btc_ecc_verify_privatekey key = true -> 72 <= size ->
  secp256k1_ecdsa_sign noncefp fuel hash key = Some (true, sig) ->
  let der := der_bytes (sig_r sig) (sig_s sig) in
  let sigc := secp256k1_ecdsa_signature_serialize_compact sig in
  secp256k1_ecdsa_signature_serialize_der size sig = (true, der, zlen der) /\ zlen der <= 72 /\ zlen sigc = 64 /\
  btc_ecc_verify_sig (btc_ecc_get_pubkey key c) c hash der = true /\
  btc_ecc_compact_to_der_normalized sigc size = (true, der, zlen der) /\ btc_ecc_der_to_compact der = Some sigc.
Proof.
  intros Hh Hhl Hk Hkl Hv Hz Es. apply seckey_verify_spec in Hv; [|exact Hk|exact Hkl].
  destruct (ecdsa_sign_spec noncefp Hnb fuel hash key sig Hh Hhl Hk Hkl Hv Es) as (Hr & Hs & _ & _ & Hlow & Hver).
  destruct sig as [r s]. cbn [sig_r sig_s] in *. pose proof (der_bytes_length r s Hr Hs) as Hl. cbv zeta.
  pose proof (sig_serialize_spec size r s Hr Hs ltac:(lia)) as Eser. pose proof (sig_parse_der r s Hr Hs) as Epar.
  assert (zlen (secp256k1_scalar_get_b32 r) = 32 /\ zlen (secp256k1_scalar_get_b32 s) = 32) as [Zr Zs].
  { rewrite !get_b32_spec by (apply Hr || apply Hs). unfold zlen. by rewrite !be_bytes_length. }
  unfold secp256k1_ecdsa_signature_serialize_der, secp256k1_ecdsa_signature_serialize_compact. cbn [sig_r sig_s].
  split; [exact Eser|]. split; [lia|]. split; [zlia|]. split; [|split].
  - unfold btc_ecc_verify_sig. rewrite get_pubkey_spec by assumption. rewrite ztake_all.
    + rewrite parse_serialize by exact Hv. unfold secp256k1_ecdsa_signature_parse_der. rewrite Epar. exact Hver.
    + unfold zlen. rewrite serialize_length. by destruct c.
  - unfold btc_ecc_compact_to_der_normalized, secp256k1_ecdsa_signature_parse_compact.
    rewrite ztake_app_len, zdrop_app_len, ztake_all, !scalar_bytes by (lia || assumption). cbn [Z.eqb andb negb].
    unfold secp256k1_ecdsa_signature_normalize. cbn [sig_r sig_s]. rewrite Hlow. exact Eser.
  - unfold btc_ecc_der_to_compact, secp256k1_ecdsa_signature_parse_der. rewrite Epar. reflexivity.
Qed.

Lemma sign_loop_succeeds (j fuel : nat) (sec msg : secp256k1_scalar) (msg32 seckey : list Z) (count : Z) :
  (j < fuel)%nat -> 0 <= count -> count + Z.of_nat j < 2 ^ 32 ->
  (forall i, 0 <= i <= Z.of_nat j -> noncefp msg32 seckey (count + i) <> None) ->
  (exists n, noncefp msg32 seckey (count + Z.of_nat j) = Some n /\ usable sec msg n = true) ->
  exists r s recid, sign_loop noncefp fuel sec msg msg32 seckey count = Some (Some (r, s, recid)).
Proof.
  revert fuel count. induction j as [|j IH]; intros fuel count Hj Hc Hlt Hsome (n & En & Hu); (destruct fuel as [|fuel]; [lia|]); cbn [sign_loop].
  - rewrite Z.add_0_r in En. rewrite En. unfold usable in Hu.
    destruct (secp256k1_scalar_set_b32 n) as [non o]. apply andb_true_iff in Hu as [Hu1 Hu2]. rewrite Hu1.
    destruct (secp256k1_ecdsa_sig_sign sec msg non) as [[[r s] id]|]; [by exists r, s, id|done].
  - specialize (Hsome 0 ltac:(lia)) as H0. rewrite Z.add_0_r in H0. destruct (noncefp msg32 seckey count) as [n0|]; [|done].
    destruct (secp256k1_scalar_set_b32 n0) as [non o].
    destruct (if _ && _ then _ else _) as [[[r s] id]|]; [by exists r, s, id|]. rewrite wrap_small by lia. apply IH; [lia..| |].
    + intros i Hi. replace (count + 1 + i) with (count + (i + 1)) by lia. apply Hsome. lia.
    + exists n. split; [|exact Hu]. by replace (count + 1 + Z.of_nat j) with (count + Z.of_nat (S j)) by lia.
Qed.

(** C6: a signature verifies.  Whatever the nonce function, when
    [btc_ecc_sign] succeeds for a valid private key its DER bytes are accepted by
    [btc_ecc_verify_sig] for the same hash and the public key of the private
    key, in either serialization; the compact signature of
    [btc_ecc_sign_compact] converts to the same DER bytes, and back. *)
Theorem ecdsa_sign_verifies (fuel : nat) (key hash der : list Z) (len size : Z) (c : bool) : nonce_bytes noncefp ->
  is_bytes hash -> zlen hash = 32 -> is_bytes key -> zlen key = 32 -> btc_ecc_verify_privatekey key = true -> 72 <= size ->
  btc_ecc_sign noncefp fuel key hash size = Some (true, der, len) ->
  len = zlen der /\ zlen der <= 72 /\ btc_ecc_verify_sig (btc_ecc_get_pubkey key c) c hash der = true /\
  exists sigc, btc_ecc_sign_compact noncefp fuel key hash 64 = Some (true, sigc, 64) /\ zlen sigc = 64 /\
    btc_ecc_compact_to_der_normalized sigc size = (true, der, zlen der) /\ btc_ecc_der_to_compact der = Some sigc.
Proof.
  intros Hnb Hh Hhl Hk Hkl Hv Hz. unfold btc_ecc_sign, btc_ecc_sign_compact.
  destruct (secp256k1_ecdsa_sign noncefp fuel hash key) as [[[] sig]|] eqn:Es; cbn [mbind option_bind negb]; [|done..].
  destruct (sign_forms Hnb fuel key hash sig size c Hh Hhl Hk Hkl Hv Hz Es) as (E1 & Hl & Hc & Hver & E2 & E3).
  rewrite E1. intros E. apply (f_equal (option_map (fun x => (snd (fst x), snd x)))) in E. cbn [option_map fst snd] in E. injection E as <- <-.
  split; [reflexivity|]. split; [exact Hl|]. split; [exact Hver|]. eexists. split; [reflexivity|]. by split.
Qed.

(** C16: signing succeeds.  When the nonce function does not fail before it gives
    a nonce that can be used (in range, with a non-zero [r] and [s]), at its
    [j]-th call, the loop of [secp256k1_ecdsa_sign] ends within [j + 1] turns and
    [btc_ecc_sign] returns a signature. *)
Theorem ecdsa_sign_live (j fuel : nat) (key hash : list Z) (size : Z) : nonce_bytes noncefp ->
  is_bytes hash -> zlen hash = 32 -> is_bytes key -> zlen key = 32 -> btc_ecc_verify_privatekey key = true -> 72 <= size ->
  (j < fuel)%nat -> Z.of_nat j < 2 ^ 32 -> (forall i, 0 <= i <= Z.of_nat j -> noncefp hash key i <> None) ->
  (exists n, noncefp hash key (Z.of_nat j) = Some n /\
     usable (fst (secp256k1_scalar_set_b32 key)) (fst (secp256k1_scalar_set_b32 hash)) n = true) ->
  exists der, btc_ecc_sign noncefp fuel key hash size = Some (true, der, zlen der).
Proof.
  intros Hnb Hh Hhl Hk Hkl Hv Hz Hj Hj32 Hsome Hu. pose proof Hv as Hv'. apply seckey_verify_spec in Hv'; [|exact Hk|exact Hkl].
  destruct (sign_scalars hash key Hh Hhl Hk Hkl Hv') as (sec & msg & o & E1 & E2 & Hsec & Hmsg & Esec). rewrite E1, E2 in Hu. cbn [fst] in Hu.
  destruct (sign_loop_succeeds j fuel sec msg hash key 0 Hj ltac:(lia) ltac:(lia) Hsome Hu) as (r & s & recid & El).
  assert (secp256k1_ecdsa_sign noncefp fuel hash key = Some (true, mk_signature r s)) as Es.
  { unfold secp256k1_ecdsa_sign. rewrite E1, E2. rewrite is_zero_spec by apply Hsec. rewrite (proj2 (Z.eqb_neq (val sec) 0)) by lia.
    cbn [Z.eqb andb negb]. by rewrite El. }
  exists (der_bytes r s). unfold btc_ecc_sign. rewrite Es. cbn [mbind option_bind negb]. f_equal.
  apply (sign_forms Hnb fuel key hash _ size true Hh Hhl Hk Hkl Hv Hz Es).
Qed.

End Sign.

(** A nonce function whose first nonce is zero. *)
Definition counter_nonce (msg32 key32 : list Z) (attempt : Z) : option (list Z) := Some (replicate 31 0 ++ [u8 attempt]).

Lemma counter_nonce_bytes : nonce_bytes counter_nonce.
Proof.
  intros m k c n E. assert (n = replicate 31 0 ++ [u8 c]) as -> by (unfold counter_nonce in E; congruence). split; [|done]. apply is_bytes_app. split; [by apply is_bytes_replicate|].
  apply is_bytes_cons; [|constructor]. apply wrap_range. lia.
Qed.

Lemma ecdsa_sign_verifies_witness :
  exists der, @btc_ecc_sign toy_curve counter_nonce 3 (replicate 32 1) (replicate 32 2) 72 = Some (true, der, zlen der) /\
    @btc_ecc_verify_sig toy_curve (@btc_ecc_get_pubkey toy_curve (replicate 32 1) true) true (replicate 32 2) der = true.
Proof.
  assert (exists der len, @btc_ecc_sign toy_curve counter_nonce 3 (replicate 32 1) (replicate 32 2) 72 = Some (true, der, len)) as (der & len & E)
    by (eexists _, _; vm_compute; reflexivity).
  exists der. destruct (@ecdsa_sign_verifies toy_curve toy_curve_laws counter_nonce 3 (replicate 32 1) (replicate 32 2) der len 72 true)
    as (-> & _ & Hv & _); [exact counter_nonce_bytes|by apply is_bytes_of|done|by apply is_bytes_of|done|by vm_compute|done|exact E|].
  exact (conj E Hv).
Defined.

Lemma ecdsa_sign_live_witness :
  exists der, @btc_ecc_sign toy_curve counter_nonce 2 (replicate 32 1) (replicate 32 2) 72 = Some (true, der, zlen der).
Proof.
  apply (@ecdsa_sign_live toy_curve toy_curve_laws counter_nonce 1 2 (replicate 32 1) (replicate 32 2) 72);
    [exact counter_nonce_bytes|by apply is_bytes_of|done|by apply is_bytes_of|done|by vm_compute|done|lia|done|discriminate|].
  eexists. split; [reflexivity|]. by vm_compute.
Defined.
