(* ===== verification/TxSign.v ===== *)
(** * Signing the inputs of a transaction: btc_tx_sign_input of tx.c

    Classification of the script, signature hash, compact signature, its DER
    form with the hash type, and the script or witness of the input; with the
    wrappers of ecc_key.c over the signature functions. *)

From S2P Require Import Prelude.
From S2P Require Import Cstr.
From S2P Require Import Serialize.
From S2P Require Import Sha2.
From S2P Require Import Sha2Spec.
From S2P Require Import Ripemd160.
From S2P Require Import Script.
From S2P Require Import Tx.
From S2P Require Import Scalar.
From S2P Require Import Ecc.
From S2P Require Import Der.
From S2P Require Import Ecdsa.

Inductive btc_tx_sign_result :=
  | BTC_SIGN_UNKNOWN
  | BTC_SIGN_INVALID_KEY
  | BTC_SIGN_NO_KEY_MATCH
  | BTC_SIGN_SIGHASH_FAILED
  | BTC_SIGN_UNKNOWN_SCRIPT_TYPE
  | BTC_SIGN_INVALID_TX_OR_SCRIPT
  | BTC_SIGN_INPUTINDEX_OUT_OF_RANGE
  | BTC_SIGN_OK.

#[export] Instance btc_tx_sign_result_eq_dec : EqDecision btc_tx_sign_result.
Proof. solve_decision. Defined.

(** What a call leaves behind: the result, the transaction and the contents of
    the three buffers of the caller ([None]: not written). *)
Record sign_output := mk_output {
  result : btc_tx_sign_result; tx_in_out : option btc_tx;
  sigcompact_out : option (list Z); sigder_out : option (list Z); sigder_len_out : option Z }.

Definition early (res : btc_tx_sign_result) (tx : option btc_tx) : outcome sign_output := Ret (mk_output res tx None None None).

(** ** ecc_key.c *)

Section Keys.

Context {C : Curve} (noncefp : list Z -> list Z -> Z -> option (list Z)) (fuel : nat).

Definition btc_key_sign_hash (privkey hash : list Z) (outlen : Z) : option (bool * list Z * Z) :=
  btc_ecc_sign noncefp fuel privkey hash outlen.

Definition btc_key_sign_hash_compact (privkey hash : list Z) (outlen : Z) : option (bool * list Z * Z) :=
  btc_ecc_sign_compact noncefp fuel privkey hash outlen.

Definition btc_pubkey_verify_sig (k : btc_pubkey) (hash sigder : list Z) : bool :=
  btc_ecc_verify_sig (pubkey k) (compressed k) hash sigder.

(** [rnddata] stands for the random bytes. *)
Definition btc_privkey_verify_pubkey (rnddata privkey : list Z) (k : btc_pubkey) : option bool :=
  let hash := btc_hash rnddata in
  '(ok, sig, siglen) ← btc_key_sign_hash privkey hash 74;
  if negb ok then Some false else Some (btc_pubkey_verify_sig k hash (ztake siglen sig)).

(** ** btc_tx_sign_input *)

(** The type of the script and what it pushes, a P2SH script taken for the
    P2SH-P2WPKH of the key, and the script of the input in that case. *)
Definition sign_type (k : btc_pubkey) (script : list Z) :
    outcome (btc_tx_out_type * list (list Z) * option cstring) :=
  '(type, pushes) ← btc_script_classify script (Some []);
  match type with
  | BTC_TX_SCRIPTHASH =>
      let hash160 := btc_pubkey_get_hash160 k in
      s ← total (new_sz 22);
      s ← total (s ← ser_varlen s 22; s ← ser_bytes s [0]; s ← ser_varlen s 20; ser_bytes s hash160);
      Ret (BTC_TX_WITNESS_V0_PUBKEYHASH, [hash160], Some s)
  | _ => Ret (type, default [] pushes, None)
  end.

(** The result so far, the signature version and the script to sign. *)
Definition sign_script (k : btc_pubkey) (type : btc_tx_out_type) (pushes : list (list Z)) (script_sign : cstring) :
    outcome (btc_tx_sign_result * btc_sig_version * cstring) :=
  let hash160 := btc_pubkey_get_hash160 k in
  match type, pushes with
  | BTC_TX_PUBKEYHASH, [hash160_in_script] =>
      let res := if bool_decide (ztake 20 hash160_in_script = hash160) then BTC_SIGN_OK else BTC_SIGN_NO_KEY_MATCH in
      Ret (res, SIGVERSION_BASE, script_sign)
  | BTC_TX_WITNESS_V0_PUBKEYHASH, [hash160_in_script] =>
      let res := if bool_decide (ztake 20 hash160_in_script = hash160) then BTC_SIGN_OK else BTC_SIGN_NO_KEY_MATCH in
      '(_, script_sign) ← total (cstr_resize script_sign 0);
      script_sign ← total (btc_script_build_p2pkh script_sign hash160_in_script);
      Ret (res, SIGVERSION_WITNESS_V0, script_sign)
  | _, _ => Ret (BTC_SIGN_UNKNOWN_SCRIPT_TYPE, SIGVERSION_BASE, script_sign)
  end.

(** The signature goes to the script or to the witness of the input. *)
Definition apply_signature (k : btc_pubkey) (type : btc_tx_out_type) (witness_set_scriptsig : option cstring)
    (sigder_plus_hashtype : list Z) (tx_in : btc_tx_in) : outcome (option btc_tx_in) :=
  match type with
  | BTC_TX_PUBKEYHASH =>
      s ← total (script_sig tx_in);
      s ← total (
        s ← ser_varlen s (zlen sigder_plus_hashtype);
        s ← ser_bytes s sigder_plus_hashtype;
        s ← ser_varlen s (zlen (pubkey_bytes k));
        ser_bytes s (pubkey_bytes k));
      Ret (Some (mk_tx_in (prevout tx_in) (Some s) (sequence tx_in) (witness_stack tx_in)))
  | BTC_TX_WITNESS_V0_PUBKEYHASH =>
      s ← total (script_sig tx_in);
      '(_, s) ← total (cstr_resize s 0);
      s ← (match witness_set_scriptsig with
           | Some w => '(_, s) ← total (cstr_append_cstr s w); Ret s
           | None => Ret s
           end);
      w1 ← total (o ← cstr_new_buf (Some <$> sigder_plus_hashtype); o);
      w2 ← total (o ← cstr_new_buf (Some <$> pubkey_bytes k); o);
      Ret (Some (mk_tx_in (prevout tx_in) (Some s) (sequence tx_in) (witness_stack tx_in ++ [w1; w2])))
  | _ => Ret None
  end.

(** [want_compact], [want_der] and [want_len] say which of the three buffers the
    caller passes. *)
Definition btc_tx_sign_input (tx : option btc_tx) (script : option cstring) (amount : Z) (privkey : list Z)
    (inputindex sighashtype : Z) (want_compact want_der want_len : bool) : outcome sign_output :=
  match tx, script with
  | Some tx, Some script =>
      if zlen (vin tx) <=? u64 inputindex then early BTC_SIGN_INPUTINDEX_OUT_OF_RANGE (Some tx) else
      if negb (btc_privkey_is_valid privkey) then early BTC_SIGN_INVALID_KEY (Some tx) else
      let k := btc_pubkey_from_key privkey (btc_pubkey_init (mk_pubkey false (replicate 65 0))) in
      if negb (btc_pubkey_is_valid k) then early BTC_SIGN_INVALID_KEY (Some tx) else
      script_sign ← total (o ← cstr_new_cstr script; o);
      let i := Z.to_nat (u64 inputindex) in
      tx_in ← total (vin tx !! i);
      script_bytes ← total (cstr_bytes script);
      '(type, pushes, witness_set_scriptsig) ← sign_type k script_bytes;
      '(res, sig_version, script_sign) ← sign_script k type pushes script_sign;
      match btc_tx_sighash tx script_sign i sighashtype amount sig_version with
      | Undef => Undef
      | Fail => early BTC_SIGN_SIGHASH_FAILED (Some tx)
      | Ret sighash =>
          '(_, sig, siglen) ← total (btc_key_sign_hash_compact privkey sighash 0);
          assert_ (siglen =? 64);;
          let '(_, sigder, sigderlen) := btc_ecc_compact_to_der_normalized sig 75 in
          assert_ ((sigderlen <=? 74) && (70 <=? sigderlen));;
          let sigder_plus_hashtype := ztake sigderlen sigder ++ [u8 sighashtype] in
          assert_ (implb want_compact want_der);;
          tx_in ← apply_signature k type witness_set_scriptsig sigder_plus_hashtype tx_in;
          let '(res, tx) := match tx_in with
            | Some tx_in => (res, with_vin tx (<[i := tx_in]> (vin tx)))
            | None => (BTC_SIGN_UNKNOWN_SCRIPT_TYPE, tx)
            end in
          Ret (mk_output res (Some tx) (if want_compact then Some sig else None)
            (if want_compact then Some sigder_plus_hashtype else None)
            (if want_len then Some (sigderlen + 1) else None))
      end
  | tx, _ => early BTC_SIGN_INVALID_TX_OR_SCRIPT tx
  end.

End Keys.

(** ** The scripts that are signed *)

#[local] Opaque order field_order secp256k1_scalar_set_b32 secp256k1_scalar_is_zero btc_ripemd160 sha256_Raw btc_ecc_get_pubkey
  secp256k1_ec_seckey_verify.

(** Payments to the hash of a key, to its witness program, and to a script. *)
Inductive spend := Pkh (h : list Z) | Wpkh (h : list Z) | Sh (h : list Z).

Definition spend_payload (s : spend) : list Z := match s with Pkh h | Wpkh h | Sh h => h end.

Definition spend_script (s : spend) : list Z :=
  match s with
  | Pkh h => flat_map op_bytes (p2pkh_ops h)
  | Wpkh h => flat_map op_bytes (p2wpkh_ops h)
  | Sh h => flat_map op_bytes (p2sh_ops h)
  end.

(** The key hash that is signed for; a script hash stands for the key [kh]. *)
Definition spend_hash (kh : list Z) (s : spend) : list Z := match s with Pkh h | Wpkh h => h | Sh _ => kh end.

Definition spend_code (kh : list Z) (s : spend) : list Z := flat_map op_bytes (p2pkh_ops (spend_hash kh s)).

Definition spend_preimage (kh : list Z) (s : spend) (a : atx) (t : tin) (i : nat) (amount ht : Z) : option (list Z) :=
  match s with
  | Pkh _ => legacy_preimage a (spend_code kh s) i ht
  | _ => Some (segwit_preimage a t (spend_code kh s) amount ht)
  end.

(** What the network hashes for the payment: BIP 143 for the witness ones. *)
Definition spend_digest (kh : list Z) (s : spend) (a : atx) (t : tin) (i : nat) (amount ht : Z) : option (list Z) :=
  match s with
  | Pkh _ => legacy_preimage a (spend_code kh s) i ht
  | _ => Some (bip143_preimage a t (spend_code kh s) i amount ht)
  end.

(** The payments the signature is for: a witness key hash with a type that signs
    all outputs, and the script hash of the witness program of the key. *)
Definition spend_domain (kh : list Z) (s : spend) (ht : Z) : Prop :=
  match s with
  | Pkh _ => True
  | Wpkh _ => is_single ht = false /\ is_none ht = false
  | Sh h => is_single ht = false /\ is_none ht = false /\ h = btc_script_get_scripthash (0 :: varstr_bytes kh)
  end.

Lemma spend_digest_eq (kh : list Z) (s : spend) (a : atx) (t : tin) (i : nat) (amount ht : Z) :
  spend_domain kh s ht -> spend_preimage kh s a t i amount ht = spend_digest kh s a t i amount ht.
Proof.
  destruct s as [h|h|h]; cbn [spend_domain spend_preimage spend_digest]; [done|intros [? ?]|intros (? & ? & _)];
    by rewrite (segwit_preimage_all _ _ _ i).
Qed.

(** The signed input. *)
Definition spend_in (kh pk sig : list Z) (s : spend) (t : tin) : tin :=
  match s with
  | Pkh _ => mk_tin (t_hash t) (t_n t) (t_sig t ++ varstr_bytes sig ++ varstr_bytes pk) (t_seq t) (t_wit t)
  | Wpkh _ => mk_tin (t_hash t) (t_n t) [] (t_seq t) (t_wit t ++ [sig; pk])
  | Sh _ => mk_tin (t_hash t) (t_n t) (varstr_bytes (0 :: varstr_bytes kh)) (t_seq t) (t_wit t ++ [sig; pk])
  end.

Definition spend_type (s : spend) : btc_tx_out_type := match s with Pkh _ => BTC_TX_PUBKEYHASH | _ => BTC_TX_WITNESS_V0_PUBKEYHASH end.
Definition spend_version (s : spend) : btc_sig_version := match s with Pkh _ => SIGVERSION_BASE | _ => SIGVERSION_WITNESS_V0 end.
Definition spend_result (kh : list Z) (s : spend) : btc_tx_sign_result :=
  if bool_decide (spend_hash kh s = kh) then BTC_SIGN_OK else BTC_SIGN_NO_KEY_MATCH.

(** The script string of a P2SH-P2WPKH input, and of no other. *)
Definition redeem_str (kh : list Z) (s : spend) (w : option cstring) : Prop :=
  match s with
  | Sh _ => exists c, w = Some c /\ rep_str c (varstr_bytes (0 :: varstr_bytes kh))
  | _ => w = None
  end.

Lemma appends_redeem (h : list Z) :
  Appends (fun s => s ← ser_varlen s 22; s ← ser_bytes s [0]; s ← ser_varlen s 20; ser_bytes s h)
    (varlen_bytes 22 ++ [0] ++ varlen_bytes 20 ++ h).
Proof.
  apply appends_bind; [apply appends_varlen; lia|]. apply appends_bind; [apply _|]. apply appends_bind; [apply appends_varlen; lia|apply _].
Qed.

Lemma p2pkh_copyable (h : list Z) : zlen h = 20 -> Forall copyable (p2pkh_ops h).
Proof.
  intros Hl. unfold p2pkh_ops. rewrite push_hash by exact Hl.
  repeat (apply List.Forall_cons; [split; [|intros [?|?]]; discriminate|]). apply List.Forall_nil.
Qed.

Section Spend.

Context (k : btc_pubkey).
Let kh := btc_pubkey_get_hash160 k.

Lemma kh_ok : zlen kh = 20 /\ is_bytes kh.
Proof. apply ripemd160_bytes. Qed.

Lemma sign_type_spec (s : spend) : is_bytes (spend_payload s) -> zlen (spend_payload s) = 20 ->
  exists w, sign_type k (spend_script s) = Ret (spend_type s, [spend_hash kh s], w) /\ redeem_str kh s w.
Proof.
  intros Hb Hl. destruct kh_ok as [Hkl _]. unfold sign_type. destruct s as [h|h|h]; cbn [spend_script spend_payload] in *.
  - rewrite classify_p2pkh by assumption. exists None. split; reflexivity.
  - rewrite classify_p2wpkh by assumption. exists None. split; reflexivity.
  - rewrite classify_p2sh by assumption. cbn [mbind outcome_bind]. destruct (new_sz_ok 22) as (c & -> & Hwf & Hc & Hl0); [lia|].
    cbn [total mbind outcome_bind]. fold kh.
    destruct (appends_redeem kh c Hwf) as (c' & -> & Hwf' & Hc'); [rewrite Hl0, !zlen_app, Hkl; reflexivity|]. cbn [total mbind outcome_bind].
    exists (Some c'). split; [reflexivity|]. exists c'. split; [reflexivity|]. split; [exact Hwf'|].
    unfold cstr_holds. rewrite Hc', Hc. unfold varstr_bytes. rewrite zlen_cons, zlen_app, Hkl. reflexivity.
Qed.

Lemma sign_script_spec (s : spend) (c : cstring) : is_bytes (spend_payload s) -> zlen (spend_payload s) = 20 -> rep_str c (spend_script s) ->
  exists c', sign_script k (spend_type s) [spend_hash kh s] c = Ret (spend_result kh s, spend_version s, c') /\ rep_str c' (spend_code kh s).
Proof.
  intros Hb Hl [Hwf Hc]. destruct kh_ok as [Hkl Hkb].
  assert (is_bytes (spend_hash kh s) /\ zlen (spend_hash kh s) = 20) as [Hsb Hsl] by (destruct s; split; assumption).
  unfold sign_script, spend_result. rewrite (ztake_all 20) by lia. fold kh. pose proof (cstr_wf_len c Hwf).
  destruct (cstr_resize_shrink c 0 Hwf ltac:(lia)) as (c0 & E0 & Hwf0 & _).
  destruct (build_p2pkh_spec c0 (spend_hash kh s) Hwf0 Hsl) as (c1 & E1 & Hwf1 & Hc1).
  destruct s; cbn [spend_type spend_version]; [exists c; split; [reflexivity|exact (conj Hwf Hc)]| |];
    (rewrite E0; cbn [total mbind outcome_bind]; rewrite E1; exists c1; split; [reflexivity|exact (conj Hwf1 Hc1)]).
Qed.

Lemma spend_sighash (s : spend) (c : cstring) (x : btc_tx) (a : atx) (t : tin) (i : nat) (amount ht : Z) :
  is_bytes (spend_payload s) -> zlen (spend_payload s) = 20 -> rep_str c (spend_code kh s) ->
  rep_tx x a -> Forall (fun i => is_Some (script_sig i)) (vin x) -> atx_ok a -> a_ins a !! i = Some t ->
  zlen (enc_tx false a) < 2 ^ 30 -> zlen (default [] (spend_preimage kh s a t i amount ht)) + 32 < 2 ^ 30 ->
  btc_tx_sighash x c i ht amount (spend_version s) =
    match spend_preimage kh s a t i amount ht with Some bs => Ret (dsha bs) | None => Fail end.
Proof.
  intros Hb Hl Hc R Hsig Hok Ht Hlen Hp. destruct kh_ok as [Hkl Hkb].
  assert (is_bytes (spend_hash kh s) /\ zlen (spend_hash kh s) = 20) as [Hsb Hsl] by (destruct s; split; assumption).
  assert (zlen (spend_code kh s) = 25) as Hcl.
  { unfold spend_code, p2pkh_ops. cbn [flat_map]. rewrite push_hash, !zlen_app, push_hash_zlen by assumption. reflexivity. }
  pose proof (proj1 (hash_ops_wf (spend_hash kh s) Hsb Hsl)) as Hwf.
  assert (is_bytes (spend_code kh s)) as Hcb by (by apply flat_map_op_bytes).
  assert (zlen (segwit_preimage a t (spend_code kh s) amount ht) < 2 ^ 30 ->
    btc_tx_sighash x c i ht amount SIGVERSION_WITNESS_V0 = Ret (dsha (segwit_preimage a t (spend_code kh s) amount ht))) as Hw.
  { intros Hpl. exact (sighash_segwit_eq x a c (spend_code kh s) i t ht amount R Hok Hc Hcb Ht Hlen Hpl). }
  destruct s as [h|h|h]; cbn [spend_version spend_preimage default] in *; [|unfold id in Hp; apply Hw; lia..]. clear Hw.
  assert (List.filter kept (p2pkh_ops h) = p2pkh_ops h) as Ek by (unfold p2pkh_ops; rewrite push_hash by assumption; reflexivity).
  cbn [spend_hash] in *. unfold spend_code in *. cbn [spend_hash] in *.
  rewrite (sighash_legacy_eq x a c (p2pkh_ops h) i ht amount R Hsig Hok Hc Hwf).
  - rewrite Ek. apply lookup_lt_Some in Ht. rewrite (proj2 (Nat.leb_gt _ _)) by exact Ht. reflexivity.
  - by apply p2pkh_copyable.
  - rewrite Ek. lia.
Qed.

Lemma new_buf_ok (bs : list Z) : zlen bs < 2 ^ 30 -> exists c, (o ← cstr_new_buf (Some <$> bs); o) = Some c /\ rep_str c bs.
Proof.
  intros Hl. destruct (cstr_new_buf_wf (Some <$> bs)) as [(c & -> & Hwf & Hc)|(_ & m & ?)]; [rewrite zlen_fmap; exact Hl| |done].
  exists c. split; [reflexivity|]. split; [exact Hwf|exact Hc].
Qed.

Lemma appends_two_strs (a b : list Z) : zlen a < 2 ^ 32 -> zlen b < 2 ^ 32 ->
  Appends (fun s => s ← ser_varlen s (zlen a); s ← ser_bytes s a; s ← ser_varlen s (zlen b); ser_bytes s b) (varstr_bytes a ++ varstr_bytes b).
Proof.
  intros Ha Hb. pose proof (zlen_nonneg a). pose proof (zlen_nonneg b). unfold varstr_bytes. rewrite <- app_assoc.
  apply appends_bind; [apply appends_varlen; lia|]. apply appends_bind; [apply _|]. apply appends_bind; [apply appends_varlen; lia|apply _].
Qed.

Lemma varstr_small (bs : list Z) : zlen bs < 253 -> zlen (varstr_bytes bs) = 1 + zlen bs.
Proof. intros Hl. pose proof (zlen_nonneg bs). unfold varstr_bytes, varlen_bytes. rewrite (proj2 (Z.ltb_lt _ 253)) by lia. zlia. Qed.

Lemma apply_signature_spec (s : spend) (w : option cstring) (sig : list Z) (i : btc_tx_in) (t : tin) :
  redeem_str kh s w -> rep_in i t -> is_Some (script_sig i) -> zlen sig <= 75 -> zlen (t_sig t) < 2 ^ 29 -> zlen (pubkey_bytes k) <= 65 ->
  exists i', apply_signature k (spend_type s) w sig i = Ret (Some i') /\ rep_in i' (spend_in kh (pubkey_bytes k) sig s t) /\ is_Some (script_sig i').
Proof.
  intros Hw [R1 R2 R3 R4 R5] [c Hc] Hsl Htl Hpl. rewrite Hc in R3. destruct R3 as [Hwf Hcc]. unfold apply_signature. rewrite Hc. cbn [total mbind outcome_bind].
  pose proof (cstr_wf_len c Hwf) as Hcl. assert (len c = zlen (t_sig t)) as Elen by (rewrite <- (cstr_cells_zlen c Hwf), Hcc; apply zlen_fmap).
  destruct (cstr_resize_shrink c 0 Hwf ltac:(lia)) as (c0 & E0 & Hwf0 & Hc0 & _).
  assert (len c0 = 0) as Hl0 by (rewrite <- (cstr_cells_zlen c0 Hwf0), Hc0; reflexivity).
  destruct (new_buf_ok sig ltac:(lia)) as (w1 & E1 & W1). destruct (new_buf_ok (pubkey_bytes k) ltac:(lia)) as (w2 & E2 & W2).
  assert (Forall2 rep_str (witness_stack i ++ [w1; w2]) (t_wit t ++ [sig; pubkey_bytes k])) as W
    by (apply Forall2_app; [exact R5|]; repeat (apply List.Forall2_cons; [assumption|]); apply List.Forall2_nil).
  destruct s as [h|h|h]; cbn [spend_type redeem_str] in *.
  - destruct (appends_two_strs sig (pubkey_bytes k) ltac:(lia) ltac:(lia) c Hwf) as (c' & -> & Hwf' & Hc').
    { rewrite zlen_app, !varstr_small by lia. lia. }
    cbn [total mbind outcome_bind]. eexists. split; [reflexivity|]. split; [|by eexists]. constructor; cbn; try assumption.
    split; [exact Hwf'|]. unfold cstr_holds. rewrite Hc', Hcc. symmetry. apply fmap_app.
  - subst w. rewrite E0. cbn [total mbind outcome_bind]. rewrite E1, E2. cbn [total mbind outcome_bind].
    eexists. split; [reflexivity|]. split; [|by eexists]. constructor; cbn; try assumption. split; [exact Hwf0|exact Hc0].
  - destruct Hw as (r & -> & [Hwr Hcr]). rewrite E0. cbn [total mbind outcome_bind]. unfold cstr_append_cstr.
    destruct (cstr_append_buf_correct c0 (cstr_cells r)) as [c1 [(-> & Hwf1 & Hc1 & _)|(_ & m & ?)]]; [exact Hwf0| | |done].
    { rewrite Hcr, Hl0, zlen_fmap. destruct kh_ok as [Hkl _]. rewrite varstr_small; rewrite zlen_cons, varstr_small; lia. }
    cbn [total mbind outcome_bind]. rewrite E1, E2. cbn [total mbind outcome_bind].
    eexists. split; [reflexivity|]. split; [|by eexists]. constructor; cbn; try assumption. split; [exact Hwf1|].
    unfold cstr_holds. rewrite Hc1, Hc0, Hcr. reflexivity.
Qed.

End Spend.

(** ** Signed inputs verify *)

Definition signed_tx (a : atx) (i : nat) (t : tin) : atx := mk_atx (a_version a) (<[i := t]> (a_ins a)) (a_outs a) (a_lock a).

Lemma rep_signed (x : btc_tx) (a : atx) (i : nat) (j : btc_tx_in) (t : tin) :
  rep_tx x a -> rep_in j t -> rep_tx (with_vin x (<[i := j]> (vin x))) (signed_tx a i t).
Proof. intros [R1 R2 R3 R4] Hj. constructor; cbn; try assumption. by apply Forall2_insert. Qed.

Section Sign.

Context {C : Curve} {L : CurveLaws C} (noncefp : list Z -> list Z -> Z -> option (list Z)) (fuel : nat).

(** The public key of a private key. *)
Definition key_pub (key : list Z) : btc_pubkey := btc_pubkey_from_key key (btc_pubkey_init (mk_pubkey false (replicate 65 0))).

Lemma key_pub_bytes (key : list Z) : pubkey_bytes (key_pub key) = btc_ecc_get_pubkey key true.
Proof.
  unfold pubkey_bytes, key_pub, btc_pubkey_from_key. cbn [compressed pubkey]. apply ztake_app_len. symmetry. apply pubkey33.
Qed.

Lemma key_pub_valid (key : list Z) : is_bytes key -> zlen key = 32 -> btc_privkey_is_valid key = true -> btc_pubkey_is_valid (key_pub key) = true.
Proof.
  intros Hb Hl Hv. apply seckey_verify_spec in Hv; [|exact Hb|exact Hl]. unfold btc_pubkey_is_valid, btc_ecc_verify_pubkey.
  change (ztake (if compressed (key_pub key) then 33 else 65) (pubkey (key_pub key))) with (pubkey_bytes (key_pub key)).
  rewrite key_pub_bytes, get_pubkey_spec by assumption. by rewrite parse_serialize.
Qed.

Lemma key_verify_sig (key hash sig : list Z) : btc_pubkey_verify_sig (key_pub key) hash sig = btc_ecc_verify_sig (btc_ecc_get_pubkey key true) true hash sig.
Proof.
  unfold btc_pubkey_verify_sig, btc_ecc_verify_sig.
  change (ztake (if compressed (key_pub key) then 33 else 65) (pubkey (key_pub key))) with (pubkey_bytes (key_pub key)).
  rewrite key_pub_bytes. cbn [compressed key_pub btc_pubkey_from_key]. rewrite ztake_all by (rewrite (proj1 (pubkey33 key)); lia). reflexivity.
Qed.

Lemma spend_script_short (s : spend) : zlen (spend_payload s) = 20 -> zlen (spend_script s) <= 25.
Proof.
  intros Hl. destruct s as [h|h|h]; cbn [spend_script spend_payload] in *; unfold p2pkh_ops, p2wpkh_ops, p2sh_ops; cbn [flat_map];
    rewrite push_hash, !zlen_app, push_hash_zlen by exact Hl; discriminate.
Qed.

(** The hypotheses of a call. *)
Record sign_ready (s : spend) (x : btc_tx) (a : atx) (t : tin) (i : nat) (amount ht : Z) (key : list Z) (script : cstring) : Prop := mk_ready {
  sr_nonce : nonce_bytes noncefp;
  sr_key : is_bytes key /\ zlen key = 32 /\ btc_privkey_is_valid key = true;
  sr_payload : is_bytes (spend_payload s) /\ zlen (spend_payload s) = 20;
  sr_script : rep_str script (spend_script s);
  sr_tx : rep_tx x a /\ Forall (fun i => is_Some (script_sig i)) (vin x) /\ atx_ok a;
  sr_in : a_ins a !! i = Some t /\ Z.of_nat i < 2 ^ 31;
  sr_size : zlen (enc_tx false a) < 2 ^ 30 /\ zlen (t_sig t) < 2 ^ 29 /\
    zlen (default [] (spend_preimage (btc_pubkey_get_hash160 (key_pub key)) s a t i amount ht)) + 32 < 2 ^ 30 }.

Section Ready.

Context (s : spend) (x : btc_tx) (a : atx) (t : tin) (i : nat) (amount ht : Z) (key : list Z) (script : cstring).
Context (H : sign_ready s x a t i amount ht key script).
Let k := key_pub key.
Let kh := btc_pubkey_get_hash160 k.

Definition sign_call : outcome sign_output :=
  btc_tx_sign_input noncefp fuel (Some x) (Some script) amount key (Z.of_nat i) ht true true true.

(** Up to the signature hash. *)
Lemma sign_call_hash : exists j w, vin x !! i = Some j /\ rep_in j t /\ is_Some (script_sig j) /\ redeem_str kh s w /\
  sign_call =
  match spend_preimage kh s a t i amount ht with
  | None => early BTC_SIGN_SIGHASH_FAILED (Some x)
  | Some bs =>
      '(_, sig, siglen) ← total (btc_key_sign_hash_compact noncefp fuel key (dsha bs) 0);
      assert_ (siglen =? 64);;
      let '(_, sigder, sigderlen) := btc_ecc_compact_to_der_normalized sig 75 in
      assert_ ((sigderlen <=? 74) && (70 <=? sigderlen));;
      let sigder_plus_hashtype := ztake sigderlen sigder ++ [u8 ht] in
      tx_in ← apply_signature k (spend_type s) w sigder_plus_hashtype j;
      let '(res, tx) := match tx_in with
        | Some tx_in => (spend_result kh s, with_vin x (<[i := tx_in]> (vin x)))
        | None => (BTC_SIGN_UNKNOWN_SCRIPT_TYPE, x)
        end in
      Ret (mk_output res (Some tx) (Some sig) (Some sigder_plus_hashtype) (Some (sigderlen + 1)))
  end.
Proof.
  destruct H as [Hnb (Hkb & Hkl & Hkv) [Hpb Hpl] Hscr (R & Hsig & Hok) [Ht Hi] (Hlen & Hsl & Hpre)].
  unfold sign_call, btc_tx_sign_input.
  apply lookup_lt_Some in Ht as Hlt. rewrite <- (Forall2_length (rt_ins _ _ R)) in Hlt.
  destruct (Forall2_lookup_r _ _ _ _ _ (rt_ins _ _ R) Ht) as (j & Hj & Hrj).
  rewrite wrap_small by lia. rewrite (proj2 (Z.leb_gt _ _)) by (unfold zlen; lia). rewrite Hkv. cbn [negb].
  change (btc_pubkey_from_key key _) with k. unfold k at 1. rewrite key_pub_valid by assumption. cbn [negb].
  destruct (new_buf_ok (spend_script s)) as (c & Ec & Hc); [pose proof (spend_script_short s Hpl); lia|].
  unfold cstr_new_cstr. destruct Hscr as [Hsw Hsc]. rewrite Hsc, Ec. cbn [total mbind outcome_bind]. rewrite Nat2Z.id, Hj. cbn [total mbind outcome_bind].
  unfold cstr_bytes. rewrite Hsc, cells_val_fmap. cbn [total mbind outcome_bind].
  destruct (sign_type_spec k s Hpb Hpl) as (w & -> & Hw). cbn [mbind outcome_bind].
  destruct (sign_script_spec k s c Hpb Hpl Hc) as (c' & -> & Hc'). cbn [mbind outcome_bind].
  rewrite (spend_sighash k s c' x a t i amount ht Hpb Hpl Hc' R Hsig Hok Ht Hlen Hpre). fold kh.
  exists j, w. split; [reflexivity|]. split; [exact Hrj|]. split; [exact (Forall_lookup_1 _ _ _ _ Hsig Hj)|]. split; [exact Hw|].
  destruct (spend_preimage kh s a t i amount ht) as [bs|]; reflexivity.
Qed.

(** With a signature of the hash. *)
Lemma sign_call_signed (bs der : list Z) (len : Z) : spend_preimage kh s a t i amount ht = Some bs ->
  btc_ecc_sign noncefp fuel key (dsha bs) 75 = Some (true, der, len) ->
  len = zlen der /\ btc_pubkey_verify_sig k (dsha bs) der = true /\
  (len < 70 -> sign_call = Undef) /\
  (70 <= len -> exists x' sigc, sign_call = Ret (mk_output (spend_result kh s) (Some x') (Some sigc) (Some (der ++ [u8 ht])) (Some (len + 1))) /\
     btc_ecc_der_to_compact der = Some sigc /\
     rep_tx x' (signed_tx a i (spend_in kh (pubkey_bytes k) (der ++ [u8 ht]) s t))).
Proof.
  destruct sign_call_hash as (j & w & Hj & Hrj & Hsj & Hw & ->). intros Epre Esign. rewrite Epre.
  pose proof (sr_nonce _ _ _ _ _ _ _ _ _ H) as Hnb. destruct (sr_key _ _ _ _ _ _ _ _ _ H) as (Hkb & Hkl & Hkv).
  destruct (sr_size _ _ _ _ _ _ _ _ _ H) as (_ & Hts & _). destruct (sr_tx _ _ _ _ _ _ _ _ _ H) as (R & _ & _).
  unfold btc_ecc_sign in Esign. unfold btc_key_sign_hash_compact, btc_ecc_sign_compact.
  destruct (secp256k1_ecdsa_sign noncefp fuel (dsha bs) key) as [[[] sig]|] eqn:Es; cbn [mbind option_bind negb] in Esign |- *; [|discriminate..].
  destruct (dsha_ok bs) as [Hdl Hdb].
  destruct (sign_forms noncefp Hnb fuel key (dsha bs) sig 75 true Hdb Hdl Hkb Hkl Hkv ltac:(lia) Es) as (E1 & Hl & Hc & Hver & E2 & E3).
  set (d := der_bytes (sig_r sig) (sig_s sig)) in *. set (sigc := secp256k1_ecdsa_signature_serialize_compact sig) in *. clearbody d sigc.
  rewrite E1 in Esign. injection Esign as <- <-. cbn [total mbind outcome_bind assert_]. rewrite E2.
  change (64 =? 64) with true. cbn [assert_ mbind outcome_bind].
  split; [reflexivity|]. split; [unfold k; rewrite key_verify_sig; exact Hver|].
  rewrite (proj2 (Z.leb_le (zlen d) 74)) by lia. cbn [andb]. split.
  - intros Hlt. rewrite (proj2 (Z.leb_gt _ _)) by exact Hlt. reflexivity.
  - intros Hge. rewrite (proj2 (Z.leb_le _ _)) by exact Hge. cbn [assert_ mbind outcome_bind]. rewrite ztake_all by lia.
    destruct (apply_signature_spec k s w (d ++ [u8 ht]) j t Hw Hrj Hsj) as (j' & -> & Hrj' & _).
    + zlia.
    + exact Hts.
    + unfold k. rewrite key_pub_bytes, (proj1 (pubkey33 key)). lia.
    + cbn [mbind outcome_bind]. eexists _, _. split; [reflexivity|]. split; [exact E3|]. by apply rep_signed.
Qed.

End Ready.

(** C5: [btc_tx_sign_input] signs what the network checks.  For a valid key, all
    three output buffers, and a payment to a key hash, to a witness key hash, or
    to the script hash of the witness program of that key (the last two with a
    type that signs all outputs, for which the hash is that of BIP 143): when the
    signature hash fails (no output for [SIGHASH_SINGLE]) the result is
    [BTC_SIGN_SIGHASH_FAILED] and the transaction is unchanged; otherwise, with a
    DER signature of at least 70 bytes, the signature placed in the input
    verifies for the public key of the private key and the hash of the
    transaction, only that input changes, to the script or the witness the
    payment requires, and the result is [BTC_SIGN_OK] when the payment is to the
    key and [BTC_SIGN_NO_KEY_MATCH] otherwise.  A shorter DER signature ends in
    the failed assertion. *)
Theorem tx_sign_input_correct (s : spend) (x : btc_tx) (a : atx) (t : tin) (i : nat) (amount ht : Z) (key : list Z) (script : cstring) :
  sign_ready s x a t i amount ht key script ->
  let k := key_pub key in
  let kh := btc_pubkey_get_hash160 k in
  let call := btc_tx_sign_input noncefp fuel (Some x) (Some script) amount key (Z.of_nat i) ht true true true in
  spend_domain kh s ht ->
  match spend_digest kh s a t i amount ht with
  | None => call = Ret (mk_output BTC_SIGN_SIGHASH_FAILED (Some x) None None None)
  | Some bs =>
      forall der len, btc_ecc_sign noncefp fuel key (dsha bs) 75 = Some (true, der, len) ->
      len = zlen der /\ btc_pubkey_verify_sig k (dsha bs) der = true /\ (len < 70 -> call = Undef) /\
      (70 <= len -> exists x' sigc,
        call = Ret (mk_output (spend_result kh s) (Some x') (Some sigc) (Some (der ++ [u8 ht])) (Some (len + 1))) /\
        btc_ecc_der_to_compact der = Some sigc /\
        rep_tx x' (signed_tx a i (spend_in kh (pubkey_bytes k) (der ++ [u8 ht]) s t)))
  end.
Proof.
  intros H k kh call Hd. rewrite <- spend_digest_eq by exact Hd. destruct (spend_preimage kh s a t i amount ht) as [bs|] eqn:E.
  - intros der len. exact (sign_call_signed s x a t i amount ht key script H bs der len E).
  - destruct (sign_call_hash s x a t i amount ht key script H) as (j & w & _ & _ & _ & _ & Ec). fold k kh in Ec. rewrite E in Ec. exact Ec.
Qed.

End Sign.

(** ** A signed input *)

(** [SIGHASH_ALL | SIGHASH_ANYONECANPAY] *)
Definition example_type : Z := 0x81.
Definition example_key : list Z := replicate 32 1.
Definition example_hash : list Z := btc_pubkey_get_hash160 (@key_pub toy_curve example_key).

Lemma example_ready : exists script, @sign_ready toy_curve counter_nonce (Wpkh example_hash) example_tx example_atx
  (mk_tin (replicate 32 7) 1 [] 5 [[]]) 0 7 example_type example_key script.
Proof.
  destruct (kh_ok (@key_pub toy_curve example_key)) as [Hl Hb].
  destruct (new_buf_ok (spend_script (Wpkh example_hash))) as (c & _ & Hc); [pose proof (spend_script_short (Wpkh example_hash) Hl); lia|].
  exists c. constructor.
  - exact counter_nonce_bytes.
  - split; [by apply is_bytes_of|]. split; [reflexivity|by vm_compute].
  - exact (conj Hb Hl).
  - exact Hc.
  - split; [apply example_rep|]. split; [|apply example_ok]. repeat constructor. by eexists.
  - by split.
  - split; [by vm_compute|]. split; [done|]. by vm_compute.
Qed.

Lemma tx_sign_input_correct_witness :
  exists script x' sigc der,
    @btc_tx_sign_input toy_curve counter_nonce 2 (Some example_tx) (Some script) 7 example_key 0 example_type true true true =
      Ret (mk_output BTC_SIGN_OK (Some x') (Some sigc) (Some (der ++ [0x81])) (Some (zlen der + 1))).
Proof.
  destruct example_ready as [script H]. exists script.
  pose proof (@tx_sign_input_correct toy_curve toy_curve_laws counter_nonce 2 _ _ _ _ _ _ _ _ _ H) as T. cbv zeta in T. specialize (T (conj eq_refl eq_refl)). cbn [spend_digest] in T.
  assert (exists der len, @btc_ecc_sign toy_curve counter_nonce 2 example_key
    (dsha (bip143_preimage example_atx (mk_tin (replicate 32 7) 1 [] 5 [[]]) (spend_code example_hash (Wpkh example_hash)) 0 7 example_type)) 75 =
    Some (true, der, len) /\ 70 <= len) as (der & len & E & Hge) by (eexists _, _; split; [vm_compute; reflexivity|lia]).
  destruct (T der len E) as (-> & _ & _ & T'). destruct (T' Hge) as (x' & sigc & Ec & _ & _). exists x', sigc, der.
  change (Z.of_nat 0) with 0 in Ec. rewrite Ec. unfold spend_result. rewrite bool_decide_true by reflexivity. reflexivity.
Defined.
