(* ===== verification/Recovery.v ===== *)
(** * Recoverable signatures: the recovery module of secp256k1

    A recoverable signature carries two more bits, with which the public key of
    the signer is computed from the signature and the message.  [None] stands for
    the callback of an illegal argument, which ends the program.  The wrappers of
    ecc_libsecp256k1.c and ecc_key.c follow. *)

From S2P Require Import Prelude.
From S2P Require Import Script.
From S2P Require Import Scalar.
From S2P Require Import Prime.
From S2P Require Import ScalarInv.
From S2P Require Import Ecc.
From S2P Require Import Der.
From S2P Require Import Ecdsa.

Record secp256k1_ecdsa_recoverable_signature := mk_recoverable { rec_r : secp256k1_scalar; rec_s : secp256k1_scalar; rec_id : Z }.

Definition zero_recoverable : secp256k1_ecdsa_recoverable_signature := mk_recoverable (mk_scalar 0 0 0 0) (mk_scalar 0 0 0 0) 0.

Definition secp256k1_ecdsa_recoverable_signature_parse_compact (input64 : list Z) (recid : Z) :
    option (bool * secp256k1_ecdsa_recoverable_signature) :=
  if negb ((0 <=? recid) && (recid <=? 3)) then None else
  let '(r, o1) := secp256k1_scalar_set_b32 (ztake 32 input64) in
  let '(s, o2) := secp256k1_scalar_set_b32 (ztake 32 (zdrop 32 input64)) in
  if (o1 =? 0) && (o2 =? 0) then Some (true, mk_recoverable r s recid) else Some (false, zero_recoverable).

(** The 64 bytes and [*recid]. *)
Definition secp256k1_ecdsa_recoverable_signature_serialize_compact (sig : secp256k1_ecdsa_recoverable_signature) : list Z * Z :=
  (secp256k1_scalar_get_b32 (rec_r sig) ++ secp256k1_scalar_get_b32 (rec_s sig), rec_id sig).

Definition secp256k1_ecdsa_recoverable_signature_convert (sigin : secp256k1_ecdsa_recoverable_signature) : secp256k1_ecdsa_signature :=
  mk_signature (rec_r sigin) (rec_s sigin).

Section Recovery.

Context {C : Curve} (noncefp : list Z -> list Z -> Z -> option (list Z)) (fuel : nat).

Definition secp256k1_ecdsa_sig_recover (sigr sigs message : secp256k1_scalar) (recid : Z) : option point :=
  if secp256k1_scalar_is_zero sigr || secp256k1_scalar_is_zero sigs then None else
  let fx := be_val (secp256k1_scalar_get_b32 sigr) in
  fx ← (if negb (Z.land recid 2 =? 0) then
          if secp256k1_ecdsa_const_p_minus_order <=? fx then None else Some (fx + order)
        else Some fx);
  x ← lift_x fx (negb (Z.land recid 1 =? 0));
  let rn := secp256k1_scalar_inverse_var sigr in
  let u1 := secp256k1_scalar_mul rn message in
  let u1 := secp256k1_scalar_negate u1 in
  let u2 := secp256k1_scalar_mul rn sigs in
  let qj := ecmult x (val u2) (val u1) in
  if is_infinity qj then None else Some qj.

(** The result and the signature; the outer [None] is fuel. *)
Definition secp256k1_ecdsa_sign_recoverable (msg32 seckey : list Z) : option (bool * secp256k1_ecdsa_recoverable_signature) :=
  let '(sec, overflow) := secp256k1_scalar_set_b32 seckey in
  if (overflow =? 0) && negb (secp256k1_scalar_is_zero sec) then
    let '(msg, _) := secp256k1_scalar_set_b32 msg32 in
    res ← sign_loop noncefp fuel sec msg msg32 seckey 0;
    match res with
    | Some (r, s, recid) => Some (true, mk_recoverable r s recid)
    | None => Some (false, zero_recoverable)
    end
  else Some (false, zero_recoverable).

(** The key, if any. *)
Definition secp256k1_ecdsa_recover (signature : secp256k1_ecdsa_recoverable_signature) (msg32 : list Z) : option (option point) :=
  if negb ((0 <=? rec_id signature) && (rec_id signature <? 4)) then None else
  let '(m, _) := secp256k1_scalar_set_b32 msg32 in
  Some (secp256k1_ecdsa_sig_recover (rec_r signature) (rec_s signature) m (rec_id signature)).

(** [ARG_CHECK ( *outputlen >= ...)]: the bytes, whose number is [*outputlen]. *)
Definition secp256k1_ec_pubkey_serialize (outputlen : Z) (pubkey : point) (compressed : bool) : option (list Z) :=
  if outputlen <? (if compressed then 33 else 65) then None else Some (eckey_serialize compressed pubkey).

(** ** ecc_libsecp256k1.c and ecc_key.c *)

(** The result, the bytes, [*outlen] and [*recid]. *)
Definition btc_ecc_sign_compact_recoverable (private_key hash : list Z) (outlen recid : Z) : option (bool * list Z * Z * Z) :=
  '(ok, sig) ← secp256k1_ecdsa_sign_recoverable hash private_key;
  if negb ok then Some (false, [], outlen, recid) else
  let '(sigrec, recid) := secp256k1_ecdsa_recoverable_signature_serialize_compact sig in
  Some (true, sigrec, 65, recid).

(** The bytes of the key; [Some None] is the result 0. *)
Definition btc_ecc_recover_pubkey (sigrec hash : list Z) (recid outlen : Z) : option (option (list Z)) :=
  '(ok, sig) ← secp256k1_ecdsa_recoverable_signature_parse_compact sigrec recid;
  if negb ok then Some None else
  pubkey ← secp256k1_ecdsa_recover sig hash;
  match pubkey with
  | None => Some None
  | Some pubkey => out ← secp256k1_ec_pubkey_serialize outlen pubkey (outlen =? 33); Some (Some out)
  end.

Definition btc_key_sign_hash_compact_recoverable (privkey hash : list Z) (outlen recid : Z) : option (bool * list Z * Z * Z) :=
  btc_ecc_sign_compact_recoverable privkey hash outlen recid.

(** The flag is set for a compressed key and left as it is otherwise. *)
Definition btc_key_sign_recover_pubkey (sig hash : list Z) (recid : Z) (k : btc_pubkey) : option (bool * btc_pubkey) :=
  out ← btc_ecc_recover_pubkey sig hash recid 128;
  match out with
  | None => Some (false, k)
  | Some buf =>
      if BTC_ECKEY_UNCOMPRESSED_LENGTH <? zlen buf then Some (false, k) else
      Some (true, mk_pubkey (if zlen buf =? BTC_ECKEY_COMPRESSED_LENGTH then true else compressed k) (buf ++ replicate (Z.to_nat (65 - zlen buf)) 0))
  end.

End Recovery.

#[local] Opaque order field_order secp256k1_scalar_set_b32 secp256k1_scalar_add secp256k1_scalar_mul secp256k1_scalar_inverse
  secp256k1_scalar_negate secp256k1_scalar_is_high secp256k1_scalar_is_zero secp256k1_scalar_get_b32.

Lemma mod_lin (a b k n : Z) : (a mod n * k + - (b mod n) mod n) mod n = (a * k - b) mod n.
Proof. rewrite Zplus_mod_idemp_r, Z.add_opp_r, Zminus_mod_idemp_r, <- Zminus_mod_idemp_l, Zmult_mod_idemp_l, Zminus_mod_idemp_l. reflexivity. Qed.

Section Proofs.

Context {C : Curve} {L : CurveLaws C}.

Lemma point_recid_bits (P : point) : 0 <= point_recid P <= 3 /\
  negb (Z.land (point_recid P) 2 =? 0) = (order <=? point_x P) /\ negb (Z.land (point_recid P) 1 =? 0) = point_y_odd P.
Proof. unfold point_recid. destruct (order <=? point_x P), (point_y_odd P); (split; [split; vm_compute; discriminate|split; reflexivity]). Qed.

(** The key of the signer is recovered. *)
Lemma sig_recover_signed (d recid : Z) (r s msg : secp256k1_scalar) : 0 < d < order -> scalar_ok r -> scalar_ok s -> scalar_ok msg ->
  signed d (val msg) (val r) (val s) recid -> secp256k1_ecdsa_sig_recover r s msg recid = Some (ecmult_gen d).
Proof.
  intros Hd Hr Hs Hm (k & Hk & Er & Hr0 & Hs0 & Eq & ->). unfold secp256k1_ecdsa_sig_recover, secp256k1_scalar_inverse_var.
  rewrite !is_zero_spec by (apply Hr || apply Hs). rewrite (proj2 (Z.eqb_neq _ 0)), (proj2 (Z.eqb_neq (val s) 0)) by lia. cbn [orb].
  destruct (point_recid_bits (ecmult_gen k)) as (_ & -> & ->). rewrite get_b32_spec by apply Hr. pose proof (scalar_range r Hr) as Rr.
  pose proof order_bounds as Ho. assert (be_val (be_bytes 32 (val r)) = val r) as ->.
  { rewrite be_val_bytes. apply Z.mod_small. change (256 ^ Z.of_nat 32) with (2 ^ 256). lia. }
  pose proof (gen_x_range k) as Rx. pose proof (gen_lift k Hk) as Hlift. destruct field_order_bounds as (Hf & _ & ->).
  assert ((if order <=? point_x (ecmult_gen k) then if field_order - order <=? val r then None else Some (val r + order) else Some (val r)) =
    Some (point_x (ecmult_gen k))) as ->.
  { set (x := point_x (ecmult_gen k)) in *. rewrite Er. destruct (Z.leb_spec order x) as [Hge|Hlt]; [|by rewrite Z.mod_small by lia].
    assert (x mod order = x - order) as -> by (symmetry; apply (Zmod_unique x order 1); lia). rewrite (proj2 (Z.leb_gt _ _)) by lia. f_equal. lia. }
  cbn [mbind option_bind]. rewrite Hlift. cbn [mbind option_bind].
  destruct (inverse_spec r Hr Hr0) as [Hi Ei]. set (i := secp256k1_scalar_inverse r) in *.
  destruct (scalar_mul_spec i msg) as [H1 E1]; [apply Hi|apply Hm|]. destruct (scalar_mul_spec i s) as [_ E2]; [apply Hi|apply Hs|].
  destruct (negate_spec (secp256k1_scalar_mul i msg) H1) as [_ E3]. rewrite E3, E1, E2, gen_ecmult.
  assert (((val i * val s) mod order * k + - ((val i * val msg) mod order) mod order) mod order = d) as ->.
  { rewrite mod_lin. replace (val i * val s * k - val i * val msg) with (val i * (val s * k - val msg)) by lia.
    rewrite <- Zmult_mod_idemp_r, <- Zminus_mod_idemp_l, Eq, Zminus_mod_idemp_l, Zmult_mod_idemp_r.
    replace (val i * (val msg + val r * d - val msg)) with ((val r * val i) * d) by lia.
    rewrite <- Zmult_mod_idemp_l, Ei, Z.mul_1_l. apply Z.mod_small. lia. }
  rewrite gen_infinity by lia. by rewrite (proj2 (Z.eqb_neq d 0)) by lia.
Qed.

Context (noncefp : list Z -> list Z -> Z -> option (list Z)).

(** What a recoverable signature gives back, for every size of the buffer. *)
Lemma recover_pubkeys (fuel : nat) (key hash sig : list Z) (outlen id0 len recid : Z) : nonce_bytes noncefp ->
  is_bytes hash -> zlen hash = 32 -> is_bytes key -> zlen key = 32 -> btc_ecc_verify_privatekey key = true ->
  btc_ecc_sign_compact_recoverable noncefp fuel key hash outlen id0 = Some (true, sig, len, recid) ->
  0 <= recid <= 3 /\ btc_ecc_recover_pubkey sig hash recid 33 = Some (Some (btc_ecc_get_pubkey key true)) /\
  (forall size, 65 <= size -> btc_ecc_recover_pubkey sig hash recid size = Some (Some (btc_ecc_get_pubkey key false))) /\
  btc_ecc_sign_compact noncefp fuel key hash 64 = Some (true, sig, 64).
Proof.
  intros Hnb Hh Hhl Hk Hkl Hv. apply seckey_verify_spec in Hv; [|exact Hk|exact Hkl].
  destruct (sign_scalars hash key Hh Hhl Hk Hkl Hv) as (sec & msg & o & E1 & E2 & Hsec & Hmsg & Esec).
  unfold btc_ecc_sign_compact_recoverable, secp256k1_ecdsa_sign_recoverable, btc_ecc_sign_compact, secp256k1_ecdsa_sign. rewrite E1, E2.
  destruct ((0 =? 0) && _); cbn [mbind option_bind negb]; [|discriminate].
  destruct (sign_loop noncefp fuel sec msg hash key 0) as [[[[r s] id]|]|] eqn:El; cbn [mbind option_bind negb]; [|discriminate..].
  destruct (sign_loop_spec noncefp Hnb fuel sec msg r s hash key 0 id Hsec Hmsg El) as (Hr & Hs & Hsg & _).
  cbn [secp256k1_ecdsa_recoverable_signature_serialize_compact rec_r rec_s rec_id]. intros E.
  assert (sig = secp256k1_scalar_get_b32 r ++ secp256k1_scalar_get_b32 s) as Esig by congruence. assert (id = recid) as -> by congruence. clear E.
  assert (0 <= recid <= 3) as Hid by (destruct Hsg as (k & _ & _ & _ & _ & _ & ->); apply point_recid_bits).
  assert (zlen (secp256k1_scalar_get_b32 r) = 32) as Zr by (rewrite get_b32_spec by apply Hr; unfold zlen; by rewrite be_bytes_length).
  assert (zlen (secp256k1_scalar_get_b32 s) = 32) as Zs by (rewrite get_b32_spec by apply Hs; unfold zlen; by rewrite be_bytes_length).
  assert (forall n, btc_ecc_recover_pubkey sig hash recid n =
    out ← secp256k1_ec_pubkey_serialize n (ecmult_gen (be_val key)) (n =? 33); Some (Some out)) as Hrec.
  { intros n. unfold btc_ecc_recover_pubkey, secp256k1_ecdsa_recoverable_signature_parse_compact, secp256k1_ecdsa_recover.
    rewrite (proj2 (Z.leb_le 0 recid)), (proj2 (Z.leb_le recid 3)) by lia. cbn [andb negb].
    rewrite Esig, ztake_app_len, zdrop_app_len, ztake_all, !scalar_bytes by (lia || assumption). cbn [Z.eqb andb negb mbind option_bind rec_r rec_s rec_id].
    rewrite (proj2 (Z.leb_le 0 recid)), (proj2 (Z.ltb_lt recid 4)) by lia. cbn [andb negb]. rewrite E2. cbn [mbind option_bind].
    rewrite (sig_recover_signed (val sec) recid r s msg) by (assumption || lia). rewrite Esec. reflexivity. }
  assert (forall n, 65 <= n -> btc_ecc_recover_pubkey sig hash recid n = Some (Some (btc_ecc_get_pubkey key false))) as Hunc.
  { intros n Hn. rewrite Hrec. unfold secp256k1_ec_pubkey_serialize. rewrite (proj2 (Z.eqb_neq n 33)), (proj2 (Z.ltb_ge n 65)) by lia.
    by rewrite get_pubkey_spec. }
  split; [exact Hid|]. split; [rewrite Hrec; cbn; by rewrite get_pubkey_spec|]. split; [exact Hunc|].
  rewrite Esig; reflexivity.
Qed.

(** C15: the signer is recovered.  When [btc_ecc_sign_compact_recoverable]
    succeeds for a valid key, with any nonce function, the recovery id is
    between 0 and 3 and [btc_ecc_recover_pubkey] computes the public key of the
    private key from the signature, the id and the hash alone, compressed when
    33 bytes are asked for and uncompressed for 65 or more; the 64 bytes are the
    signature of [btc_ecc_sign_compact]. *)
Theorem recover_signer (fuel : nat) (key hash sig : list Z) (outlen id0 len recid size : Z) : nonce_bytes noncefp ->
  is_bytes hash -> zlen hash = 32 -> is_bytes key -> zlen key = 32 -> btc_ecc_verify_privatekey key = true -> 65 <= size ->
  btc_ecc_sign_compact_recoverable noncefp fuel key hash outlen id0 = Some (true, sig, len, recid) ->
  0 <= recid <= 3 /\ btc_ecc_recover_pubkey sig hash recid 33 = Some (Some (btc_ecc_get_pubkey key true)) /\
  btc_ecc_recover_pubkey sig hash recid size = Some (Some (btc_ecc_get_pubkey key false)) /\
  btc_ecc_sign_compact noncefp fuel key hash 64 = Some (true, sig, 64).
Proof.
  intros Hnb Hh Hhl Hk Hkl Hv Hz E.
  destruct (recover_pubkeys fuel key hash sig outlen id0 len recid Hnb Hh Hhl Hk Hkl Hv E) as (H1 & H2 & H3 & H4).
  split_and!; try assumption; [lia|lia|]. by apply H3.
Qed.

(** [btc_key_sign_recover_pubkey] asks for 128 bytes, so it stores the
    uncompressed key and keeps the flag it finds, whatever the signer's key is
    stored as. *)
Lemma key_recover_uncompressed (fuel : nat) (key hash sig : list Z) (outlen id0 len recid : Z) (k0 : btc_pubkey) : nonce_bytes noncefp ->
  is_bytes hash -> zlen hash = 32 -> is_bytes key -> zlen key = 32 -> btc_ecc_verify_privatekey key = true ->
  btc_ecc_sign_compact_recoverable noncefp fuel key hash outlen id0 = Some (true, sig, len, recid) ->
  btc_key_sign_recover_pubkey sig hash recid k0 = Some (true, mk_pubkey (compressed k0) (btc_ecc_get_pubkey key false)).
Proof.
  intros Hnb Hh Hhl Hk Hkl Hv E.
  destruct (recover_pubkeys fuel key hash sig outlen id0 len recid Hnb Hh Hhl Hk Hkl Hv E) as (_ & _ & H3 & _).
  apply seckey_verify_spec in Hv; [|exact Hk|exact Hkl].
  unfold btc_key_sign_recover_pubkey. rewrite H3 by lia. cbn [mbind option_bind].
  assert (zlen (btc_ecc_get_pubkey key false) = 65) as -> by (rewrite get_pubkey_spec by assumption; unfold zlen; by rewrite serialize_length).
  cbn. by rewrite app_nil_r.
Qed.

End Proofs.

Lemma recover_signer_witness :
  exists sig recid, @btc_ecc_sign_compact_recoverable toy_curve counter_nonce 2 (replicate 32 1) (replicate 32 2) 65 0 = Some (true, sig, 65, recid) /\
    @btc_ecc_recover_pubkey toy_curve sig (replicate 32 2) recid 33 = Some (Some (@btc_ecc_get_pubkey toy_curve (replicate 32 1) true)).
Proof.
  assert (exists sig recid, @btc_ecc_sign_compact_recoverable toy_curve counter_nonce 2 (replicate 32 1) (replicate 32 2) 65 0 =
    Some (true, sig, 65, recid)) as (sig & recid & E) by (eexists _, _; vm_compute; reflexivity).
  exists sig, recid. destruct (@recover_signer toy_curve toy_curve_laws counter_nonce 2 (replicate 32 1) (replicate 32 2) sig 65 0 65 recid 65)
    as (_ & Hr & _); [exact counter_nonce_bytes|by apply is_bytes_of|done|by apply is_bytes_of|done|by vm_compute|done|exact E|].
  exact (conj E Hr).
Defined.
