(* ===== verification/Bip32.v ===== *)
(** * bip32.c: hierarchical deterministic keys

    Nodes, their derivation by index and by path, and their Base58Check text,
    over the key functions of Ecc.v.  The functions that fill a node return it
    with their result. *)

From Stdlib Require Import Btauto.
From S2P Require Import Prelude.
From S2P Require Import Sha2.
From S2P Require Import Sha2Spec.
From S2P Require Import Ripemd160.
From S2P Require Import Base58.
From S2P Require Import Script.
From S2P Require Import Scalar.
From S2P Require Import Ecc.

(** ** The code *)

Record btc_hdnode := mk_hdnode {
  depth : Z; fingerprint : Z; child_num : Z; chain_code : list Z; private_key : list Z; public_key : list Z }.

Definition write_be (x : Z) : list Z := [u8 (Z.shiftr x 24); u8 (Z.shiftr x 16); u8 (Z.shiftr x 8); u8 x].

Definition read_be (data : list Z) : Z :=
  Z.lor (Z.lor (Z.lor (Z.shiftl (nth 0 data 0) 24) (Z.shiftl (nth 1 data 0) 16)) (Z.shiftl (nth 2 data 0) 8)) (nth 3 data 0).

Definition btc_hdnode_new : btc_hdnode := mk_hdnode 0 0 0 (replicate 32 0) (replicate 32 0) (replicate 33 0).

Definition btc_hdnode_copy (n : btc_hdnode) : btc_hdnode :=
  mk_hdnode (depth n) (fingerprint n) (child_num n) (chain_code n) (private_key n) (public_key n).

(** The first four bytes of the hash of the public key, as a number. *)
Definition key_fingerprint (pk : list Z) : Z :=
  let h := btc_ripemd160 (sha256_Raw (ztake 33 pk)) in
  u32 (Z.shiftl (nth 0 h 0) 24 + Z.shiftl (nth 1 h 0) 16 + Z.shiftl (nth 2 h 0) 8 + nth 3 h 0).

(** "Bitcoin seed" *)
Definition seed_key : list Z := [66; 105; 116; 99; 111; 105; 110; 32; 115; 101; 101; 100].

Section Nodes.

Context {C : Curve}.

Definition btc_hdnode_fill_public_key (n : btc_hdnode) : btc_hdnode :=
  mk_hdnode (depth n) (fingerprint n) (child_num n) (chain_code n) (private_key n) (btc_ecc_get_pubkey (private_key n) true).

Definition btc_hdnode_from_seed (seed : list Z) : bool * btc_hdnode :=
  let I := hmac_sha512 seed_key seed in
  let out := btc_hdnode_new in
  let out := mk_hdnode (depth out) (fingerprint out) (child_num out) (chain_code out) (ztake 32 I) (public_key out) in
  if negb (btc_ecc_verify_privatekey (private_key out)) then (false, out) else
  let out := mk_hdnode (depth out) (fingerprint out) (child_num out) (ztake 32 (zdrop 32 I)) (private_key out) (public_key out) in
  (true, btc_hdnode_fill_public_key out).

Definition btc_hdnode_public_ckd (n : btc_hdnode) (i : Z) : bool * btc_hdnode :=
  if negb (Z.land i 0x80000000 =? 0) then (false, n) else
  let data := ztake 33 (public_key n) ++ write_be i in
  let fp := key_fingerprint (public_key n) in
  let I := hmac_sha512 (chain_code n) data in
  let '(_, pk) := btc_ecc_public_key_tweak_add (public_key n) (ztake 32 I) in
  (true, mk_hdnode (u32 (depth n + 1)) fp i (ztake 32 (zdrop 32 I)) (replicate 32 0) pk).

Definition btc_hdnode_private_ckd (n : btc_hdnode) (i : Z) : bool * btc_hdnode :=
  let data := (if negb (Z.land i 0x80000000 =? 0) then 0 :: ztake 32 (private_key n) else ztake 33 (public_key n)) ++ write_be i in
  let fp := key_fingerprint (public_key n) in
  let p := private_key n in
  let I := hmac_sha512 (chain_code n) data in
  let cc := ztake 32 (zdrop 32 I) in
  let z := ztake 32 I in
  if negb (btc_ecc_verify_privatekey z) then (false, mk_hdnode (depth n) fp (child_num n) cc z (public_key n)) else
  let '(ok, sk) := btc_ecc_private_key_tweak_add p z in
  let n := mk_hdnode (depth n) fp (child_num n) cc sk (public_key n) in
  (true, if ok then
           btc_hdnode_fill_public_key (mk_hdnode (u32 (depth n + 1)) fp i cc sk (public_key n))
         else n).

Definition btc_hdnode_private_ckd_prime (n : btc_hdnode) (i : Z) : bool * btc_hdnode :=
  btc_hdnode_private_ckd n (u32 (Z.lor i 0x80000000)).

(** The 78 bytes of a node. *)
Definition node_data (n : btc_hdnode) (version : Z) (use_public : bool) : list Z :=
  write_be version ++ [u8 (depth n)] ++ write_be (fingerprint n) ++ write_be (child_num n) ++ chain_code n ++
  (if use_public then ztake 33 (public_key n) else 0 :: private_key n).

(** The string, empty when it does not fit. *)
Definition btc_hdnode_serialize (n : btc_hdnode) (version : Z) (use_public : bool) (strsize : Z) : option (list Z) :=
  snd <$> btc_base58_encode_check (node_data n version use_public) strsize.

Definition btc_hdnode_serialize_public (n : btc_hdnode) (chain : btc_chainparams) (strsize : Z) : option (list Z) :=
  btc_hdnode_serialize n (b58prefix_bip32_pubkey chain) true strsize.

Definition btc_hdnode_serialize_private (n : btc_hdnode) (chain : btc_chainparams) (strsize : Z) : option (list Z) :=
  btc_hdnode_serialize n (b58prefix_bip32_privkey chain) false strsize.

Definition btc_hdnode_get_hash160 (n : btc_hdnode) : list Z := btc_ripemd160 (sha256_Raw (ztake 33 (public_key n))).

Definition btc_hdnode_get_p2pkh_address (n : btc_hdnode) (chain : btc_chainparams) (strsize : Z) : option (list Z) :=
  snd <$> btc_base58_encode_check (b58prefix_pubkey_address chain :: btc_hdnode_get_hash160 n) strsize.

Definition btc_hdnode_get_pub_hex (n : btc_hdnode) (str : list Z) (strsize : Z) : option (bool * list Z * Z) :=
  btc_pubkey_get_hex (mk_pubkey true (ztake 33 (public_key n) ++ replicate 32 0)) str strsize.

(** [memcpy (dst, data + from, k)] *)
Definition slice (data : list Z) (from k : Z) : option (list Z) :=
  if from + k <=? zlen data then Some (ztake k (zdrop from data)) else None.

(** The new buffer holds the bytes [junk]. *)
Definition btc_hdnode_deserialize (str : list Z) (chain : btc_chainparams) (junk : list Z) : option (bool * btc_hdnode) :=
  let node := btc_hdnode_new in
  '(outlen, data) ← btc_base58_decode_check str junk;
  if outlen =? 0 then Some (false, node) else
  v ← slice data 0 4;
  let version := read_be v in
  let finish node :=
    d ← zget data 4;
    f ← slice data 5 4;
    c ← slice data 9 4;
    cc ← slice data 13 32;
    Some (true, mk_hdnode d (read_be f) (read_be c) cc (private_key node) (public_key node)) in
  if version =? b58prefix_bip32_pubkey chain then
    pk ← slice data 45 33;
    finish (mk_hdnode 0 0 0 (chain_code node) (private_key node) pk)
  else if version =? b58prefix_bip32_privkey chain then
    b ← zget data 45;
    if negb (b =? 0) then Some (false, node) else
    sk ← slice data 46 32;
    finish (btc_hdnode_fill_public_key (mk_hdnode 0 0 0 (chain_code node) sk (public_key node)))
  else Some (false, node).

(** [strtok] with "/": the parts that are not empty. *)
Fixpoint strtok (s : list Z) (cur : list Z) : list (list Z) :=
  match s with
  | [] => if (length cur =? 0)%nat then [] else [cur]
  | c :: s' => if c =? 47 then (if (length cur =? 0)%nat then strtok s' [] else cur :: strtok s' []) else strtok s' (cur ++ [c])
  end.

(** [strchr (prime, c)] and [strchr (digits, c)] *)
Definition is_prime_char (c : Z) : bool := (c =? 112) || (c =? 104) || (c =? 72) || (c =? 39).
Definition is_digit_char (c : Z) : bool := (48 <=? c) && (c <=? 57).

(** [for (; i < strlens (pch); i++)]: [prm], or [goto err]. *)
Fixpoint check_token (pch : list Z) (usepubckd : bool) : option bool :=
  match pch with
  | [] => Some false
  | c :: pch' =>
      if is_prime_char c then
        if negb (length pch' =? 0)%nat || usepubckd then None else Some true
      else if negb (is_digit_char c) then None
      else check_token pch' usepubckd
  end.

(** [strtoull (pch, NULL, 10)] on a string that starts with digits. *)
Fixpoint strtoull (pch : list Z) (acc : Z) : Z :=
  match pch with
  | c :: pch' => if is_digit_char c then strtoull pch' (Z.min (10 * acc + (c - 48)) (2 ^ 64 - 1)) else acc
  | [] => acc
  end.

(** [while (pch != NULL)]: the result and the node. *)
Fixpoint derive_tokens (toks : list (list Z)) (n : btc_hdnode) (usepubckd : bool) : bool * btc_hdnode :=
  match toks with
  | [] => (true, n)
  | pch :: toks' =>
      match check_token pch usepubckd with
      | None => (false, n)
      | Some prm =>
          let idx := strtoull pch 0 in
          if 2 ^ 32 - 1 <? idx then (false, n) else
          let '(ok, n) :=
            if prm then btc_hdnode_private_ckd_prime n idx
            else if usepubckd then btc_hdnode_public_ckd n idx else btc_hdnode_private_ckd n idx in
          if ok then derive_tokens toks' n usepubckd else (false, n)
      end
  end.

Definition btc_hd_generate_key (n : btc_hdnode) (keypath keymaster chaincode : list Z) (usepubckd : bool) :
    option (bool * btc_hdnode) :=
  if negb (zlen keypath <? 1024) then None else
  if zlen keypath <? 2 then Some (false, n) else
  if negb (nth 0 keypath 0 =? 109) || negb (nth 1 keypath 0 =? 47) then Some (false, n) else
  let n :=
    if usepubckd then mk_hdnode 0 0 0 (ztake 32 chaincode) (private_key n) (ztake 33 keymaster)
    else btc_hdnode_fill_public_key (mk_hdnode 0 0 0 (ztake 32 chaincode) (ztake 32 keymaster) (public_key n)) in
  Some (derive_tokens (strtok (zdrop 2 keypath) []) n usepubckd).

Definition btc_hdnode_has_privkey (n : btc_hdnode) : bool := existsb (fun b => negb (b =? 0)) (private_key n).

End Nodes.

(** ** Numbers and hashes *)

Lemma write_be_ok (x : Z) : zlen (write_be x) = 4 /\ is_bytes (write_be x).
Proof. split; [done|]. unfold write_be. repeat (constructor; [apply is_byte_mod|]). constructor. Qed.

Lemma read_write_be (x : Z) : 0 <= x < 2 ^ 32 -> read_be (write_be x) = x.
Proof.
  intros Hx. assert (is_bytes (rev (write_be x))) as Hb by apply Forall_rev, write_be_ok.
  pose proof (load32_val _ Hb) as Lv. unfold write_be, read_be in *. cbn [rev app nth take] in *. revert Lv.
  unfold u8, wrap. rewrite store32_val, le_val_bytes_small by lia. intros Lv. etransitivity; [|exact Lv]. apply Z.bits_inj'. intros j _. rewrite !Z.lor_spec. btauto.
Qed.

(** The bit of hardened derivation. *)
Lemma hardened_bit (i : Z) : 0 <= i < 2 ^ 32 -> (Z.land i 0x80000000 =? 0) = (i <? 2 ^ 31).
Proof.
  intros Hi. assert (Z.testbit i 31 = negb (i <? 2 ^ 31)) as Hb.
  { rewrite Z.testbit_odd, Z.shiftr_div_pow2 by lia. destruct (Z.ltb_spec i (2 ^ 31)).
    - by rewrite Z.div_small by lia.
    - by replace (i / 2 ^ 31) with 1 by zdm. }
  change 0x80000000 with (2 ^ 31). destruct (Z.ltb_spec i (2 ^ 31)) as [Hlt|Hge]; cbn [negb] in Hb.
  - apply Z.eqb_eq, Z.bits_inj'. intros j Hj. rewrite Z.land_spec, Z.bits_0, Z.pow2_bits_eqb by lia.
    destruct (Z.eqb_spec 31 j) as [<-|_]; [by rewrite Hb|apply andb_false_r].
  - apply Z.eqb_neq. intros E. assert (Z.testbit (Z.land i (2 ^ 31)) 31 = false) as H0 by (by rewrite E).
    by rewrite Z.land_spec, Hb in H0.
Qed.

(** The hash that derives a child has 64 bytes. *)
Lemma hmac512_ok (key msg : list Z) : is_bytes key -> is_bytes msg -> zlen key <= 64 -> zlen msg <= 64 ->
  is_bytes (hmac_sha512 key msg) /\ zlen (hmac_sha512 key msg) = 64.
Proof.
  intros Hk Hm Hkl Hml. unfold zlen in *. unfold hmac_sha512.
  rewrite (@hmac_correct sha512 sha512_laws) by (try done; change (@block_length sha512) with 128%nat; lia).
  unfold hmac_spec. split; [apply sha_spec_bytes|]. by rewrite sha_spec_length.
Qed.

(** ** Derivation *)

#[local] Opaque hmac_sha512 key_fingerprint order sha256_Raw btc_ripemd160 secp256k1_ec_seckey_verify btc_ecc_get_pubkey
  btc_ecc_private_key_tweak_add btc_ecc_public_key_tweak_add.

(** The public part of a node. *)
Definition neuter (n : btc_hdnode) : btc_hdnode :=
  mk_hdnode (depth n) (fingerprint n) (child_num n) (chain_code n) (replicate 32 0) (public_key n).

(** A part of a path that public derivation accepts. *)
Definition plain_index (pch : list Z) : bool := forallb is_digit_char pch && (strtoull pch 0 <? 2 ^ 31).

Section Derive.

Context {C : Curve} {L : CurveLaws C}.

(** A node with a valid private key, its public key and a chain code. *)
Definition node_ok (n : btc_hdnode) : Prop :=
  (is_bytes (private_key n) /\ zlen (private_key n) = 32 /\ btc_ecc_verify_privatekey (private_key n) = true) /\
  public_key n = btc_ecc_get_pubkey (private_key n) true /\ is_bytes (chain_code n) /\ zlen (chain_code n) = 32.

(** Halves of the hash of a node and an index. *)
Lemma child_hash (n : btc_hdnode) (i : Z) : node_ok n ->
  let I := hmac_sha512 (chain_code n) (ztake 33 (public_key n) ++ write_be i) in
  is_bytes (ztake 32 I) /\ zlen (ztake 32 I) = 32 /\ is_bytes (ztake 32 (zdrop 32 I)) /\ zlen (ztake 32 (zdrop 32 I)) = 32.
Proof.
  intros (_ & Hp & Hc & Hcl). destruct (pubkey33 (private_key n)) as [Hl Hb]. destruct (write_be_ok i) as [Hwl Hw].
  rewrite Hp, ztake_all by lia.
  destruct (hmac512_ok (chain_code n) (btc_ecc_get_pubkey (private_key n) true ++ write_be i)) as [HI HIl]; [done| |lia|rewrite zlen_app; lia|].
  { apply is_bytes_app. exact (conj Hb Hw). }
  cbv zeta. rewrite !zlen_ztake, zlen_zdrop, HIl. unfold ztake, zdrop.
  split_and!; [by apply is_bytes_take|done|by apply is_bytes_take, is_bytes_drop|done].
Qed.

(** The depth tells whether the key was added. *)
Lemma private_ckd_depth (n n' : btc_hdnode) (i : Z) (ok : bool) : 0 <= depth n < 2 ^ 32 - 1 ->
  btc_hdnode_private_ckd n i = (ok, n') -> depth n <= depth n' <= depth n + 1.
Proof.
  intros Hd. unfold btc_hdnode_private_ckd. case_bool; [intros [= _ <-]; cbn [depth]; lia|].
  destruct (btc_ecc_private_key_tweak_add _ _) as [ok' sk]. intros [= _ <-].
  destruct ok'; cbn [depth btc_hdnode_fill_public_key]; unfold u32; rewrite ?Z.mod_small by lia; lia.
Qed.

(** A child of the private node has the key of the public node's child. *)
Lemma private_public_ckd (n n' : btc_hdnode) (i : Z) : node_ok n -> 0 <= i < 2 ^ 31 -> 0 <= depth n < 2 ^ 32 - 1 ->
  btc_hdnode_private_ckd n i = (true, n') -> depth n' = depth n + 1 ->
  node_ok n' /\ btc_hdnode_public_ckd (neuter n) i = (true, neuter n').
Proof.
  intros Hn Hi Hd. destruct (child_hash n i Hn) as (Hz & Hzl & Hcc & Hccl). destruct Hn as ((Hk & Hkl & Hv) & Hp & _ & _).
  unfold btc_hdnode_private_ckd, btc_hdnode_public_ckd. rewrite hardened_bit by lia.
  replace (i <? 2 ^ 31) with true by (symmetry; apply Z.ltb_lt; lia). cbn [negb neuter public_key chain_code depth].
  set (I := hmac_sha512 _ _) in *. set (fp := key_fingerprint _). clearbody I fp. case_bool; [done|].
  unfold btc_ecc_verify_privatekey in Hv. apply (seckey_verify_spec _ Hk Hkl) in Hv. pose proof (tweak_agree (private_key n) (ztake 32 I) Hk Hkl Hv Hz Hzl) as T.
  destruct (btc_ecc_private_key_tweak_add _ _) as [ok sk]. destruct T as (Hsk & Hskl & T).
  intros [= <-] Hdep. destruct ok; [|cbn [depth] in Hdep; lia]. destruct T as [Hskv T]. rewrite Hp, T. split; [|done].
  unfold node_ok, btc_hdnode_fill_public_key. cbn [private_key public_key chain_code].
  split_and!; try done. by apply seckey_verify_spec.
Qed.

(** ** Paths *)

Lemma check_token_digits (pch : list Z) (pub : bool) : forallb is_digit_char pch = true -> check_token pch pub = Some false.
Proof.
  induction pch as [|c pch IH]; [done|]. cbn [forallb check_token]. rewrite andb_true_iff. intros [Hc H].
  replace (is_prime_char c) with false; [by rewrite Hc, IH|].
  unfold is_digit_char, is_prime_char in *. symmetry. rewrite !orb_false_iff. lia.
Qed.

Lemma check_token_public (pch : list Z) : check_token pch true = if forallb is_digit_char pch then Some false else None.
Proof.
  destruct (forallb is_digit_char pch) eqn:E; [by apply check_token_digits|].
  revert E. induction pch as [|c pch IH]; [done|]. cbn [forallb check_token]. rewrite orb_true_r.
  case_bool; [done|]. destruct (is_digit_char c); [exact IH|done].
Qed.

Lemma strtoull_range (pch : list Z) (acc : Z) : 0 <= acc < 2 ^ 64 -> 0 <= strtoull pch acc < 2 ^ 64.
Proof.
  revert acc. induction pch as [|c pch IH]; intros acc Ha; cbn [strtoull]; [done|].
  unfold is_digit_char. case_bool; [|done]. apply andb_true_iff in Heqb as [?%Z.leb_le ?%Z.leb_le]. apply IH. lia.
Qed.

(** Public derivation succeeds exactly on plain indices. *)
Lemma derive_public (toks : list (list Z)) (n : btc_hdnode) :
  fst (derive_tokens toks n true) = forallb plain_index toks.
Proof.
  revert n. induction toks as [|pch toks IH]; intros n; [done|]. cbn [derive_tokens forallb]. rewrite check_token_public.
  unfold plain_index at 1. case_bool; [|done]. pose proof (strtoull_range pch 0 ltac:(lia)) as R.
  set (idx := strtoull pch 0) in *. cbn [andb]. destruct (Z.ltb_spec (2 ^ 32 - 1) idx).
  { by replace (idx <? 2 ^ 31) with false by (symmetry; apply Z.ltb_ge; lia). }
  unfold btc_hdnode_public_ckd. rewrite hardened_bit by lia. destruct (idx <? 2 ^ 31); cbn [negb andb]; [|done].
  destruct (btc_ecc_public_key_tweak_add _ _) as [o pk]. apply IH.
Qed.

(** The depth counts the keys added along a path. *)
Lemma derive_private_depth (toks : list (list Z)) (n n' : btc_hdnode) (ok : bool) :
  0 <= depth n -> depth n + zlen toks < 2 ^ 32 ->
  derive_tokens toks n false = (ok, n') -> depth n <= depth n' <= depth n + zlen toks.
Proof.
  revert n. induction toks as [|pch toks IH]; intros n Hn Hs; cbn [derive_tokens].
  { intros [= _ <-]. rewrite zlen_nil. lia. }
  rewrite zlen_cons in *. pose proof (zlen_nonneg toks).
  destruct (check_token pch false) as [prm|]; [|intros [= _ <-]; lia]. case_bool; [intros [= _ <-]; lia|].
  set (r := if prm then _ else _). assert (depth n <= depth (snd r) <= depth n + 1) as Hr.
  { unfold r, btc_hdnode_private_ckd_prime.
    destruct prm; destruct (btc_hdnode_private_ckd _ _) as [o m] eqn:E; cbn [snd]; (eapply private_ckd_depth; [|exact E]; lia). }
  destruct r as [o m]. cbn [snd] in Hr. destruct o; [|intros [= _ <-]; lia]. intros D. apply IH in D; lia.
Qed.

Lemma derive_agree (toks : list (list Z)) (n n' : btc_hdnode) :
  node_ok n -> forallb plain_index toks = true -> 0 <= depth n -> depth n + zlen toks < 2 ^ 32 ->
  derive_tokens toks n false = (true, n') -> depth n' = depth n + zlen toks ->
  derive_tokens toks (neuter n) true = (true, neuter n').
Proof.
  revert n. induction toks as [|pch toks IH]; intros n Hn Hp Hd Hs; cbn [derive_tokens]; [by intros [= <-]|].
  rewrite zlen_cons in *. pose proof (zlen_nonneg toks). cbn [forallb] in Hp. apply andb_true_iff in Hp as [Hpl Hp].
  unfold plain_index in Hpl. apply andb_true_iff in Hpl as [Hdig Hidx%Z.ltb_lt]. rewrite !check_token_digits by done.
  pose proof (strtoull_range pch 0 ltac:(lia)) as R. set (idx := strtoull pch 0) in *. case_bool; [done|].
  destruct (btc_hdnode_private_ckd n idx) as [o m] eqn:E. destruct o; [|done]. intros D Hdep.
  pose proof (private_ckd_depth n m idx true ltac:(lia) E) as Hm.
  pose proof (derive_private_depth toks m n' true ltac:(lia) ltac:(lia) D).
  destruct (private_public_ckd n m idx Hn ltac:(lia) ltac:(lia) E ltac:(lia)) as [Hok ->].
  apply (IH m Hok Hp ltac:(lia) ltac:(lia) D). lia.
Qed.

Lemma strtok_length (s cur : list Z) : zlen (strtok s cur) <= zlen s + 1.
Proof.
  revert cur. induction s as [|c s IH]; intros cur; cbn [strtok]; [by destruct (_ =? _)%nat|]. rewrite zlen_cons.
  repeat case_bool; rewrite ?zlen_cons; match goal with |- context [strtok s ?x] => pose proof (IH x) end; lia.
Qed.

(** C12: deriving keys from the public key agrees with deriving them from the
    private key.  For any path "m/...", the public derivation of
    [btc_hd_generate_key] from the master public key succeeds exactly when every
    part of the path is a decimal index below 2^31; and when it does and the
    private derivation from the master private key returns true and reaches the
    full depth of the path, the two nodes are the same but for the private key:
    same public key, chain code, fingerprint, index and depth.  (When the sum
    of a key and its tweak vanishes on the way, the code neither counts the step
    nor reports it: the depth then stays below that of the path.) *)
Theorem hd_public_private (n0 n1 : btc_hdnode) (keypath k cc : list Z) :
  is_bytes k -> zlen k = 32 -> btc_ecc_verify_privatekey k = true -> is_bytes cc -> zlen cc = 32 ->
  private_key n1 = replicate 32 0 -> 2 <= zlen keypath < 1024 -> ztake 2 keypath = [109; 47] ->
  let parts := strtok (zdrop 2 keypath) [] in
  exists rpriv npriv rpub npub,
    btc_hd_generate_key n0 keypath k cc false = Some (rpriv, npriv) /\
    btc_hd_generate_key n1 keypath (btc_ecc_get_pubkey k true) cc true = Some (rpub, npub) /\
    rpub = forallb plain_index parts /\
    (rpub = true -> rpriv = true -> depth npriv = zlen parts -> npub = neuter npriv).
Proof.
  intros Hk Hkl Hv Hc Hcl Hz Hlen Hm parts. destruct (pubkey33 k) as [Hpl _].
  destruct keypath as [|c0 [|c1 path]]; [done..|]. injection Hm as -> ->.
  unfold btc_hd_generate_key. rewrite !zlen_cons in *. zif. cbn [nth Z.eqb Pos.eqb negb orb].
  rewrite Hz, !ztake_all by lia. set (np := btc_hdnode_fill_public_key _).
  assert (node_ok np) as Hn by (split_and!; done).
  change (mk_hdnode 0 0 0 cc (replicate 32 0) (btc_ecc_get_pubkey k true)) with (neuter np).
  destruct (derive_tokens _ np false) as [rp m] eqn:E1. destruct (derive_tokens _ (neuter np) true) as [rq m'] eqn:E2.
  exists rp, m, rq, m'. pose proof (derive_public parts (neuter np)) as Hpub. unfold parts in Hpub at 1. rewrite E2 in Hpub. cbn [fst] in Hpub.
  split; [reflexivity|]. split; [reflexivity|]. split; [exact Hpub|]. intros -> -> Hdep. pose proof (strtok_length (zdrop 2 (109 :: 47 :: path)) []) as Hsl.
  rewrite zlen_zdrop, !zlen_cons in Hsl.
  assert (derive_tokens parts (neuter np) true = (true, neuter m)) as E3.
  { apply (derive_agree parts np m Hn (eq_sym Hpub)); change (depth np) with 0; [lia|unfold parts; lia|exact E1|exact Hdep]. }
  unfold parts in E3. rewrite E2 in E3. by injection E3.
Qed.

End Derive.

(** The node m/1 of the private key and chain code of 32 ones. *)
Lemma hd_public_private_witness :
  let gen := @btc_hd_generate_key toy_curve in
  exists npriv npub,
    gen btc_hdnode_new [109; 47; 49] (replicate 32 1) (replicate 32 1) false = Some (true, npriv) /\
    gen btc_hdnode_new [109; 47; 49] (@btc_ecc_get_pubkey toy_curve (replicate 32 1) true) (replicate 32 1) true = Some (true, npub) /\
    depth npriv = 1 /\ npub = neuter npriv.
Proof.
  destruct (@hd_public_private toy_curve toy_curve_laws btc_hdnode_new btc_hdnode_new [109; 47; 49] (replicate 32 1) (replicate 32 1))
    as (rpriv & npriv & rpub & npub & E1 & E2 & Hp & Hn);
    [by apply is_bytes_of|reflexivity|by vm_compute|by apply is_bytes_of|reflexivity|reflexivity|by vm_compute|reflexivity|].
  cbv zeta in Hp, Hn. change (forallb _ _) with true in Hp. subst rpub.
  assert (exists n, @btc_hd_generate_key toy_curve btc_hdnode_new [109; 47; 49] (replicate 32 1) (replicate 32 1) false = Some (true, n) /\
    depth n = 1) as (n & E & Hd) by (eexists; split; [vm_compute; reflexivity|reflexivity]).
  rewrite E in E1. injection E1 as <- <-.
  exists n, npub. exact (conj E (conj E2 (conj Hd (Hn eq_refl eq_refl Hd)))).
Defined.

(** ** Texts of nodes *)

Lemma slice_here (a b : list Z) (k : Z) : zlen a = k -> slice (a ++ b) 0 k = Some a.
Proof.
  intros Hk. unfold slice. rewrite zlen_app. pose proof (zlen_nonneg b). zif. f_equal. change (zdrop 0 (a ++ b)) with (drop 0 (a ++ b)).
  rewrite drop_0. by apply ztake_app_len.
Qed.

Lemma slice_skip (a b : list Z) (from k : Z) : zlen a <= from -> slice (a ++ b) from k = slice b (from - zlen a) k.
Proof.
  intros Hk. unfold slice. rewrite zlen_app.
  replace (from + k <=? zlen a + zlen b) with (from - zlen a + k <=? zlen b)
    by (apply eq_bool_prop_intro; rewrite !Is_true_true, !Z.leb_le; lia).
  case_bool; [|done]. do 2 f_equal. unfold zdrop, zlen in *. rewrite drop_app_ge by lia. f_equal. lia.
Qed.

(** The fields of the 78 bytes, whatever follows them. *)
Lemma node_fields (v fp cn cc key rest : list Z) (d : Z) :
  zlen v = 4 -> zlen fp = 4 -> zlen cn = 4 -> zlen cc = 32 -> zlen key = 33 ->
  let data := (v ++ [d] ++ fp ++ cn ++ cc ++ key) ++ rest in
  slice data 0 4 = Some v /\ zget data 4 = Some d /\ slice data 5 4 = Some fp /\ slice data 9 4 = Some cn /\
  slice data 13 32 = Some cc /\ slice data 45 33 = Some key /\ zget data 45 = zget key 0 /\
  slice data 46 32 = slice (key ++ rest) 1 32.
Proof.
  intros Hv Hf Hc Hcc Hk data. unfold data. rewrite <- !app_assoc.
  assert (zlen [d] = 1) as Hd by done.
  split_and!; rewrite ?slice_skip, ?zget_app_r by (rewrite ?Hv, ?Hd, ?Hf, ?Hc, ?Hcc; lia);
    rewrite ?Hv, ?Hd, ?Hf, ?Hc, ?Hcc; cbn [Z.sub Z.opp Z.add Z.pos_sub Pos.pred_double Z.succ_double Z.pred_double Z.double];
    [by apply slice_here|done|by apply slice_here|by apply slice_here|by apply slice_here|by apply slice_here| |done].
  rewrite zget_app_l by (rewrite Hk; lia). done.
Qed.

Section Texts.

Context {C : Curve} {L : CurveLaws C}.

(** Fields that fit their widths in the text. *)
Definition node_fits (n : btc_hdnode) : Prop :=
  0 <= depth n < 256 /\ 0 <= fingerprint n < 2 ^ 32 /\ 0 <= child_num n < 2 ^ 32.

Definition shown_key (n : btc_hdnode) (use_public : bool) : list Z :=
  if use_public then ztake 33 (public_key n) else 0 :: private_key n.

Lemma node_text (n : btc_hdnode) (version strsize : Z) (use_public : bool) :
  is_bytes (chain_code n) -> zlen (chain_code n) = 32 ->
  is_bytes (shown_key n use_public) -> zlen (shown_key n use_public) = 33 ->
  u8 (Z.shiftr version 24) <> 0 -> 115 <= strsize < 2 ^ 31 ->
  exists str, btc_hdnode_serialize n version use_public strsize = Some str /\ zlen str < strsize /\
    forall junk, zlen junk = zlen str ->
      exists rest, btc_base58_decode_check str junk = Some (82, node_data n version use_public ++ rest).
Proof.
  intros Hc Hcl Hk Hkl Hv Hs. unfold btc_hdnode_serialize.
  assert (is_bytes (node_data n version use_public) /\ zlen (node_data n version use_public) = 78) as [Hb Hl].
  { unfold node_data. fold (shown_key n use_public). rewrite !zlen_app, Hcl, Hkl. split; [|done].
    rewrite !is_bytes_app. split_and!; try apply write_be_ok; try done. apply is_bytes_cons; [apply is_byte_mod|apply is_bytes_nil]. }
  assert (Exists (fun b => b <> 0) (node_data n version use_public)) as He by (by left).
  set (p := node_data n version use_public) in *. clearbody p.
  destruct (tag58_ok p Hb ltac:(lia)) as [Ht Hbt].
  destruct (encode_check_spec58 p strsize Hb ltac:(lia) ltac:(lia)) as (str & R & Ee).
  assert (zlen str < strsize) as Hlt.
  { destruct (base58_encode_spec strsize (p ++ tag58 p)) as (s' & R' & _ & Hlen & _).
    - apply is_bytes_app. exact (conj Hb Hbt).
    - rewrite zlen_app. lia.
    - rewrite (represents_str _ _ _ R R'). rewrite zlen_app, Hl, Ht in Hlen. change ((78 + 4) * 138 / 100 + 1) with 114 in Hlen. lia. }
  rewrite (proj2 (Z.ltb_lt _ _) Hlt) in Ee. exists str. rewrite Ee. split; [reflexivity|]. split; [exact Hlt|]. intros junk Hj.
  eexists. rewrite (decode_check_encoded p str junk strsize Hb ltac:(lia) ltac:(lia)); [by rewrite Hl| |exact Ee|lia].
  apply Exists_app. by left.
Qed.

(** Reading the 78 bytes of a node. *)
Lemma deserialize_data (n : btc_hdnode) (chain : btc_chainparams) (str junk rest : list Z) (use_public : bool) :
  let v := if use_public then b58prefix_bip32_pubkey chain else b58prefix_bip32_privkey chain in
  btc_base58_decode_check str junk = Some (82, node_data n v use_public ++ rest) ->
  0 <= v < 2 ^ 32 -> b58prefix_bip32_privkey chain <> b58prefix_bip32_pubkey chain ->
  node_fits n -> zlen (chain_code n) = 32 -> zlen (shown_key n use_public) = 33 ->
  btc_hdnode_deserialize str chain junk =
  Some (true, if use_public then mk_hdnode (depth n) (fingerprint n) (child_num n) (chain_code n) (replicate 32 0) (ztake 33 (public_key n))
              else btc_hdnode_fill_public_key n).
Proof.
  intros v E Hv Hne (Hd & Hf & Hn) Hcl Hkl. unfold btc_hdnode_deserialize. rewrite E. cbn [mbind option_bind Z.eqb].
  unfold node_data. fold (shown_key n use_public).
  destruct (node_fields (write_be v) (write_be (fingerprint n)) (write_be (child_num n)) (chain_code n) (shown_key n use_public) rest
    (u8 (depth n)) eq_refl eq_refl eq_refl Hcl Hkl) as (-> & -> & -> & -> & -> & -> & -> & ->).
  cbn [mbind option_bind]. rewrite !read_write_be by done.
  assert (u8 (depth n) = depth n) as -> by (by apply wrap_small). subst v. destruct use_public.
  - by rewrite Z.eqb_refl.
  - rewrite (proj2 (Z.eqb_neq _ _) Hne), Z.eqb_refl. cbn [shown_key] in *. change (zget (0 :: private_key n) 0) with (Some 0).
    cbn [mbind option_bind Z.eqb negb]. change (0 :: private_key n) with ([0] ++ private_key n). rewrite <- app_assoc.
    rewrite slice_skip by done. rewrite zlen_cons in Hkl. rewrite slice_here by (change (zlen [0]) with 1; lia). done.
Qed.

(** C13: the text of a node is read back.  For the main, test and regression
    chains, the text that [btc_hdnode_serialize_private] writes for a node with
    a valid private key is decoded by [btc_hdnode_deserialize] to the same node,
    whatever the fresh buffer held, and the text of
    [btc_hdnode_serialize_public] is decoded to its public part; 115 bytes are
    enough for either.  The depth must fit in the byte the text has for it. *)
Theorem hdnode_roundtrip (n : btc_hdnode) (chain : btc_chainparams) (strsize : Z) :
  node_ok n -> node_fits n -> In chain [btc_chainparams_main; btc_chainparams_test; btc_chainparams_regtest] ->
  115 <= strsize < 2 ^ 31 ->
  exists prv pub,
    btc_hdnode_serialize_private n chain strsize = Some prv /\ btc_hdnode_serialize_public n chain strsize = Some pub /\
    zlen prv < strsize /\ zlen pub < strsize /\
    (forall junk, zlen junk = zlen prv -> btc_hdnode_deserialize prv chain junk = Some (true, n)) /\
    (forall junk, zlen junk = zlen pub -> btc_hdnode_deserialize pub chain junk = Some (true, neuter n)).
Proof.
  intros ((Hk & Hkl & _) & Hp & Hc & Hcl) (Hd & Hf & Hn) Hchain Hs.
  destruct (pubkey33 (private_key n)) as [Hpl Hpb]. rewrite <- Hp in Hpl, Hpb.
  assert (forall v, In v [b58prefix_bip32_privkey chain; b58prefix_bip32_pubkey chain] -> u8 (Z.shiftr v 24) <> 0 /\ 0 <= v < 2 ^ 32) as Hv.
  { intros v Hv. destruct Hchain as [<-|[<-|[<-|[]]]]; destruct Hv as [<-|[<-|[]]]; by vm_compute. }
  assert (b58prefix_bip32_privkey chain <> b58prefix_bip32_pubkey chain) as Hne by (by destruct Hchain as [<-|[<-|[<-|[]]]]).
  destruct (Hv _ ltac:(by left)) as [Hv1 Hr1]. destruct (Hv _ ltac:(by right; left)) as [Hv2 Hr2].
  destruct (node_text n (b58prefix_bip32_privkey chain) strsize false) as (prv & E1 & L1 & D1); try done.
  { cbn [shown_key]. apply is_bytes_cons; [unfold is_byte; lia|done]. }
  { cbn [shown_key]. rewrite zlen_cons. lia. }
  destruct (node_text n (b58prefix_bip32_pubkey chain) strsize true) as (pub & E2 & L2 & D2); try done.
  { cbn [shown_key]. by rewrite ztake_all by lia. } { cbn [shown_key]. by rewrite ztake_all by lia. }
  exists prv, pub. split; [exact E1|]. split; [exact E2|]. split; [exact L1|]. split; [exact L2|].
  assert (node_fits n) as Hfit by exact (conj Hd (conj Hf Hn)). split; intros junk Hj.
  - destruct (D1 junk Hj) as [rest E]. rewrite (deserialize_data n chain prv junk rest false E); try done.
    + unfold btc_hdnode_fill_public_key. rewrite <- Hp. by destruct n.
    + cbn [shown_key]. rewrite zlen_cons. lia.
  - destruct (D2 junk Hj) as [rest E]. rewrite (deserialize_data n chain pub junk rest true E); try done.
    + by rewrite ztake_all by lia.
    + cbn [shown_key]. rewrite ztake_all; lia.
Qed.

End Texts.

Lemma hdnode_roundtrip_witness :
  let n := mk_hdnode 1 2 3 (replicate 32 1) (replicate 32 1) (@btc_ecc_get_pubkey toy_curve (replicate 32 1) true) in
  exists prv, btc_hdnode_serialize_private n btc_chainparams_main 200 = Some prv /\
    @btc_hdnode_deserialize toy_curve prv btc_chainparams_main (replicate (length prv) 7) = Some (true, n).
Proof.
  intros n. destruct (@hdnode_roundtrip toy_curve toy_curve_laws n btc_chainparams_main 200) as (prv & pub & E & _ & _ & _ & D & _).
  - split_and!; [by apply is_bytes_of|reflexivity|by vm_compute|reflexivity|by apply is_bytes_of|reflexivity].
  - by vm_compute.
  - by left.
  - by vm_compute.
  - exists prv. split; [exact E|]. apply D. apply zlen_replicate.
Defined.

(** The text of the four bytes of a version alone is accepted by the checksum,
    and the fields are read behind the end of the buffer. *)
Example hdnode_short_overread :
  match btc_base58_encode_check (write_be (b58prefix_bip32_pubkey btc_chainparams_main)) 100 with
  | Some (_, str) => @btc_hdnode_deserialize toy_curve str btc_chainparams_main (replicate (length str) 0) = None
  | None => False
  end.
Proof. vm_compute. reflexivity. Qed.
