(* ===== verification/HeadersDb.v ===== *)
(** * headersdb_file.c: the chain of block headers

    Headers are nodes on a heap, linked by [prev]; the address 0 is the genesis
    node inside of the database object, [None] is NULL.  Freed addresses are not
    given out again, so that a use after free is an access outside of the heap
    and makes the function undefined ([None]).  The binary search tree of the C
    library ([tsearch], [tfind], [tdelete]) is a map from the hash, by which
    [btc_header_compare] orders, to the address of the key that is stored; its
    operations compare with any key of the tree, so they are undefined when a
    key was freed.  A file is the list of its bytes. *)

From S2P Require Import Prelude.
From S2P Require Import Cstr.
From S2P Require Import Serialize.
From S2P Require Import Sha2.
From S2P Require Import Sha2Spec.
From S2P Require Import Tx.
From S2P Require Import Block.
From stdpp Require Import gmap.

Import Block.
Open Scope Z_scope.

(** ** The code *)

Record btc_blockindex := mk_blockindex {
  height : Z; hash : list Z; header : btc_block_header; prev : option nat }.

Record btc_headers_db := mk_headers_db {
  heap : gmap nat btc_blockindex;
  fresh : nat;
  headers_tree_file : option (list Z);
  read_write_file : bool;
  tree_root : gmap (list Z) nat;
  use_binary_tree : bool;
  max_hdr_in_mem : Z;
  chaintip : nat;
  chainbottom : nat }.

Definition genesis : nat := 0.

Definition with_heap (db : btc_headers_db) (h : gmap nat btc_blockindex) : btc_headers_db :=
  mk_headers_db h (fresh db) (headers_tree_file db) (read_write_file db) (tree_root db) (use_binary_tree db)
    (max_hdr_in_mem db) (chaintip db) (chainbottom db).
Definition with_file (db : btc_headers_db) (f : option (list Z)) : btc_headers_db :=
  mk_headers_db (heap db) (fresh db) f (read_write_file db) (tree_root db) (use_binary_tree db)
    (max_hdr_in_mem db) (chaintip db) (chainbottom db).
Definition with_tree (db : btc_headers_db) (t : gmap (list Z) nat) : btc_headers_db :=
  mk_headers_db (heap db) (fresh db) (headers_tree_file db) (read_write_file db) t (use_binary_tree db)
    (max_hdr_in_mem db) (chaintip db) (chainbottom db).
Definition with_tip (db : btc_headers_db) (p : nat) : btc_headers_db :=
  mk_headers_db (heap db) (fresh db) (headers_tree_file db) (read_write_file db) (tree_root db) (use_binary_tree db)
    (max_hdr_in_mem db) p (chainbottom db).
Definition with_bottom (db : btc_headers_db) (p : nat) : btc_headers_db :=
  mk_headers_db (heap db) (fresh db) (headers_tree_file db) (read_write_file db) (tree_root db) (use_binary_tree db)
    (max_hdr_in_mem db) (chaintip db) p.

(** [calloc] and the assignments to the new object. *)
Definition alloc_index (db : btc_headers_db) (b : btc_blockindex) : nat * btc_headers_db :=
  (fresh db, mk_headers_db (<[fresh db := b]> (heap db)) (S (fresh db)) (headers_tree_file db) (read_write_file db)
    (tree_root db) (use_binary_tree db) (max_hdr_in_mem db) (chaintip db) (chainbottom db)).

(** [btc_free (p)] *)
Definition free_index (db : btc_headers_db) (p : nat) : option btc_headers_db :=
  _ ← heap db !! p;
  Some (with_heap db (delete p (heap db))).

(** [for (i = 0; i < sizeof (uint256); i++)]: -1, 0 or 1. *)
Fixpoint compare_hash (hashA hashB : list Z) : Z :=
  match hashA, hashB with
  | iA :: hashA', iB :: hashB' =>
      if iB <? iA then -1 else if iA <? iB then 1 else compare_hash hashA' hashB'
  | _, _ => 0
  end.

Definition btc_header_compare (l r : btc_blockindex) : Z := compare_hash (hash l) (hash r).

(** Every key of the tree is allocated and has the hash it is stored under. *)
Definition tree_live (db : btc_headers_db) : bool :=
  bool_decide (map_Forall (fun k p => hash <$> heap db !! p = Some k) (tree_root db)).

(** [tfind], [tsearch] and [tdelete] with the key at an address. *)
Definition tfind (db : btc_headers_db) (key : list Z) : option (option nat) :=
  if tree_live db then Some (tree_root db !! key) else None.

Definition tsearch (db : btc_headers_db) (p : nat) : option btc_headers_db :=
  if tree_live db then
    b ← heap db !! p;
    match tree_root db !! hash b with
    | Some _ => Some db
    | None => Some (with_tree db (<[hash b := p]> (tree_root db)))
    end
  else None.

Definition tdelete (db : btc_headers_db) (p : nat) : option btc_headers_db :=
  if tree_live db then
    b ← heap db !! p;
    Some (with_tree db (delete (hash b) (tree_root db)))
  else None.

Definition btc_headers_db_new (genesisblockhash : list Z) (inmem_only : bool) : btc_headers_db :=
  mk_headers_db {[ genesis := mk_blockindex 0 genesisblockhash btc_block_header_new None ]} 1 None (negb inmem_only) ∅ true 144
    genesis genesis.

(** The bytes of a record: the hash, the height and the header. *)
Definition index_record (b : btc_blockindex) : option (list Z) :=
  s ← new_sz 100;
  s ← ser_u256 s (hash b);
  s ← ser_u32 s (height b);
  s ← btc_block_header_serialize s (header b);
  cstr_bytes s.

Definition btc_headers_db_write (db : btc_headers_db) (blockindex : nat) : option btc_headers_db :=
  b ← heap db !! blockindex;
  rec ← index_record b;
  f ← headers_tree_file db;
  Some (with_file db (Some (f ++ rec))).

Definition btc_headersdb_find (db : btc_headers_db) (h : list Z) : option (option nat) :=
  if use_binary_tree db then tfind db h else Some None.

(** [scan_tip->prev = NULL; db->chainbottom = scan_tip;] after the node before
    it was removed from the tree and freed. *)
Definition cut_before (db : btc_headers_db) (scan_tip q : nat) : option btc_headers_db :=
  db ← tdelete db q;
  db ← free_index db q;
  n ← heap db !! scan_tip;
  Some (with_bottom (with_heap db (<[scan_tip := mk_blockindex (height n) (hash n) (header n) None]> (heap db))) scan_tip).

(** [for (i = 0; i < max_hdr_in_mem + 1; i++)]; [k] turns are left, the last one
    is [i == max_hdr_in_mem]. *)
Fixpoint scan_headers (k : nat) (db : btc_headers_db) (scan_tip : nat) : option btc_headers_db :=
  match k with
  | O => Some db
  | S k' =>
      n ← heap db !! scan_tip;
      match prev n with
      | None => Some db
      | Some scan_tip =>
          db ←
            (if (k' =? 0)%nat && negb (scan_tip =? genesis)%nat then
               n ← heap db !! scan_tip;
               match prev n with
               | Some q => if (q =? genesis)%nat then Some db else cut_before db scan_tip q
               | None => Some db
               end
             else Some db);
          scan_headers k' db scan_tip
      end
  end.

(** The database, the node that is returned, [*connected] and the rest of the
    buffer. *)
Definition btc_headers_db_connect_hdr (db : btc_headers_db) (buf : const_buffer) (load_process : bool) :
    option (btc_headers_db * option nat * bool * const_buffer) :=
  match btc_block_header_deserialize (mk_header 0 (replicate 32 0) (replicate 32 0) 0 0 0) buf with
  | (false, _, buf) => Some (db, None, false, buf)
  | (true, hdr, buf) =>
      h ← btc_block_header_hash hdr;
      tip ← heap db !! chaintip db;
      '(connect_at, fork_from_block) ←
        (if bool_decide (prev_block hdr = hash tip) then Some (Some (chaintip db), None)
         else f ← btc_headersdb_find db (prev_block hdr); Some (f, f));
      match connect_at with
      | Some c =>
          cn ← heap db !! c;
          let '(blockindex, db) := alloc_index db (mk_blockindex (u32 (height cn + 1)) h hdr (Some c)) in
          let db := if height tip <? u32 (height cn + 1) then with_tip db blockindex else db in
          db ← (if negb load_process && read_write_file db then btc_headers_db_write db blockindex else Some db);
          db ← (if use_binary_tree db then tsearch db blockindex else Some db);
          db ← (if 0 <? max_hdr_in_mem db
                then scan_headers (Z.to_nat (u32 (max_hdr_in_mem db + 1))) db (chaintip db) else Some db);
          Some (db, Some blockindex, true, buf)
      | None =>
          let '(blockindex, db) := alloc_index db (mk_blockindex 0 h hdr None) in
          Some (db, Some blockindex, false, buf)
      end
  end.

(** [for (i = 0; i < 10; i++)] *)
Fixpoint locator_loop (k : nat) (db : btc_headers_db) (scan_tip : nat) : option (list (list Z)) :=
  match k with
  | O => Some []
  | S k' =>
      n ← heap db !! scan_tip;
      rest ← match prev n with Some p => locator_loop k' db p | None => Some [] end;
      Some (hash n :: rest)
  end.

(** The hashes that are added to [blocklocators]. *)
Definition btc_headers_db_fill_block_locator (db : btc_headers_db) : option (list (list Z)) :=
  n ← heap db !! chaintip db;
  if 0 <? height n then locator_loop 10 db (chaintip db) else Some [].

Definition btc_headersdb_getchaintip (db : btc_headers_db) : nat := chaintip db.

Definition btc_headersdb_disconnect_tip (db : btc_headers_db) : option (bool * btc_headers_db) :=
  n ← heap db !! chaintip db;
  match prev n with
  | Some p =>
      let oldtip := chaintip db in
      db ← tdelete (with_tip db p) oldtip;
      db ← free_index db oldtip;
      Some (true, db)
  | None => Some (false, db)
  end.

Definition btc_headersdb_has_checkpoint_start (db : btc_headers_db) : option bool :=
  n ← heap db !! chainbottom db;
  Some (negb (height n =? 0)).

Definition btc_headersdb_set_checkpoint_start (db : btc_headers_db) (h : list Z) (ht : Z) : btc_headers_db :=
  let '(p, db) := alloc_index db (mk_blockindex ht h btc_block_header_new None) in
  with_tip (with_bottom db p) p.

Definition file_hdr_magic : list Z := [0xA8; 0xF0; 0x11; 0xC5].
Definition current_version : Z := 1.

(** One record of the file; the last flag is cleared by [return -1]. *)
Definition load_record (db : btc_headers_db) (firstblock : bool) (rec : list Z) : option (btc_headers_db * bool * bool) :=
  match deser_u256 rec with
  | Ret (_, buf) =>
      match deser_u32 buf with
      | Ret (ht, buf) =>
          if 1120874 <=? ht then Some (db, firstblock, true) else
          if firstblock then
            match btc_block_header_deserialize (mk_header 0 (replicate 32 0) (replicate 32 0) 0 0 0) buf with
            | (true, hdr, _) =>
                h ← btc_block_header_hash hdr;
                let '(p, db) := alloc_index db (mk_blockindex ht h hdr None) in
                Some (with_tip db p, false, true)
            | _ => Some (db, firstblock, false)
            end
          else
            '(db, _, _, _) ← btc_headers_db_connect_hdr db buf true;
            Some (db, false, true)
      | _ => None
      end
  | _ => None
  end.

(** [while (!feof (file))] with records of 116 bytes; an incomplete one at the
    end is skipped.  [return -1] is the value true of the result type. *)
Fixpoint load_loop (fuel : nat) (db : btc_headers_db) (firstblock : bool) (bytes : list Z) : option btc_headers_db :=
  match fuel with
  | O => Some db
  | S fuel' =>
      if zlen bytes <? 116 then Some db else
      '(db, firstblock, continue) ← load_record db firstblock (ztake 116 bytes);
      if (continue : bool) then load_loop fuel' db firstblock (zdrop 116 bytes) else Some db
  end.

(** [content] is what the file holds, [None] when it does not exist. *)
Definition btc_headers_db_load (db : btc_headers_db) (content : option (list Z)) : option (bool * btc_headers_db) :=
  if negb (read_write_file db) then Some (true, db) else
  match content with
  | None => Some (true, with_file db (Some (file_hdr_magic ++ le_bytes 4 current_version)))
  | Some bytes =>
      let db := with_file db (Some bytes) in
      if (u32 (zlen bytes) <? 8) || (zlen bytes <? 8) || negb (bool_decide (ztake 4 bytes = file_hdr_magic)) then Some (false, db) else
      version ← zget bytes 4;
      if current_version <? version then Some (false, db) else
      db ← load_loop (S (length bytes)) db true (zdrop 8 bytes);
      Some (true, db)
  end.

(** ** The order of the tree *)

(** [btc_header_compare] is a strict order on hashes of one length, as the
    search tree needs. *)
Lemma compare_hash_eq (a b : list Z) : length a = length b -> compare_hash a b = 0 <-> a = b.
Proof.
  revert b. induction a as [|x a IH]; intros [|y b] Hl; try done. cbn [compare_hash].
  destruct (Z.ltb_spec y x); [split; [lia|intros [= -> _]; lia]|].
  destruct (Z.ltb_spec x y); [split; [lia|intros [= -> _]; lia]|].
  assert (x = y) as -> by lia. rewrite IH by (cbn in Hl; lia). split; [by intros ->|by intros [= ->]].
Qed.

(** ** Paths in the heap *)

Abbreviation index_heap := (gmap nat btc_blockindex).

(** From [p], [k] times along [prev] or to the first NULL, every node is
    allocated; the node after [k] steps has a [prev] that satisfies [last]. *)
Fixpoint path_ok (h : index_heap) (last : option nat -> Prop) (k : nat) (p : nat) : Prop :=
  exists b, h !! p = Some b /\
    match k with
    | O => last (prev b)
    | S k' => match prev b with None => True | Some q => path_ok h last k' q end
    end.

(** The node can be cut off, or there is nothing to cut off. *)
Definition cuttable (h : index_heap) (o : option nat) : Prop := forall q, o = Some q -> is_Some (h !! q).
Definition clean (o : option nat) : Prop := o = None \/ o = Some genesis.

Lemma path_ok_mono (h h' : index_heap) (last last' : option nat -> Prop) (k p : nat) :
  (forall q b, (q <= p)%nat -> h !! q = Some b -> h' !! q = Some b) ->
  (forall q b r, h !! q = Some b -> prev b = Some r -> (r < q)%nat) ->
  (forall o, last o -> last' o) -> path_ok h last k p -> path_ok h' last' k p.
Proof.
  intros Hsub Hlt Himp. revert p Hsub. induction k as [|k IH]; intros p Hsub (b & Hb & Hk); exists b;
    (split; [by apply Hsub|]); [by apply Himp|]. destruct (prev b) as [q|] eqn:Eq; [|done].
  apply IH; [|done]. intros r c Hr. apply Hsub. pose proof (Hlt p b q Hb Eq). lia.
Qed.

(** ** The invariant *)

(** [floor] is an upper bound of the heights of the nodes that were freed. *)
Record wf (db : btc_headers_db) (floor : Z) : Prop := {
  wf_fresh : forall p b, heap db !! p = Some b -> (p < fresh db)%nat;
  wf_genesis : exists g, heap db !! genesis = Some g /\ prev g = None;
  wf_link : forall p b q, heap db !! p = Some b -> prev b = Some q -> (q < p)%nat /\
    match heap db !! q with
    | Some c => height b = height c + 1 /\ prev_block (header b) = hash c
    | None => height b <= floor + 1
    end;
  wf_tip : exists t, heap db !! chaintip db = Some t /\ floor + max_hdr_in_mem db + 2 <= height t /\
    forall p b, heap db !! p = Some b -> 0 <= height b <= height t;
  wf_tree : map_Forall (fun k p => hash <$> heap db !! p = Some k) (tree_root db);
  wf_bottom : is_Some (heap db !! chainbottom db);
  wf_max : 0 < max_hdr_in_mem db < 2 ^ 32 - 1;
  wf_hash : forall p b, heap db !! p = Some b -> prev b <> None -> btc_block_header_hash (header b) = Some (hash b) }.

Definition inv (db : btc_headers_db) (floor : Z) : Prop :=
  wf db floor /\ path_ok (heap db) clean (S (Z.to_nat (max_hdr_in_mem db))) (chaintip db).

Lemma tree_live_true (db : btc_headers_db) (floor : Z) : wf db floor -> tree_live db = true.
Proof. intros W. apply bool_decide_eq_true, W. Qed.

(** Far enough above everything that was freed, no pointer dangles. *)
Lemma cuttable_path (db : btc_headers_db) (floor : Z) (k p : nat) (b : btc_blockindex) :
  wf db floor -> heap db !! p = Some b -> floor + Z.of_nat k + 2 <= height b ->
  path_ok (heap db) (cuttable (heap db)) k p.
Proof.
  intros W. revert p b. induction k as [|k IH]; intros p b Hb Hh; exists b; (split; [done|]).
  - intros q Eq. destruct (wf_link _ _ W p b q Hb Eq) as [_ Hq]. destruct (heap db !! q); [done|lia].
  - destruct (prev b) as [q|] eqn:Eq; [|done]. destruct (wf_link _ _ W p b q Hb Eq) as [_ Hq].
    destruct (heap db !! q) as [c|] eqn:Ec; [|lia]. apply (IH q c); [done|lia].
Qed.

Lemma clean_cuttable (db : btc_headers_db) (floor : Z) (k p : nat) :
  wf db floor -> path_ok (heap db) clean k p -> path_ok (heap db) (cuttable (heap db)) k p.
Proof.
  intros W. apply path_ok_mono; [done|apply (wf_link _ _ W)|].
  intros o [->| ->] q; [done|]. intros [= <-]. destruct (wf_genesis _ _ W) as (g & -> & _). done.
Qed.

(** The database after a node was cut off. *)
Definition cut_db (db : btc_headers_db) (d q : nat) (n c : btc_blockindex) : btc_headers_db :=
  mk_headers_db (<[d := mk_blockindex (height n) (hash n) (header n) None]> (delete q (heap db))) (fresh db)
    (headers_tree_file db) (read_write_file db) (delete (hash c) (tree_root db)) (use_binary_tree db)
    (max_hdr_in_mem db) (chaintip db) d.

(** [d] is [k] steps below [p], its [prev] is [q]. *)
Inductive below (h : index_heap) : nat -> nat -> nat -> Prop :=
  | below_refl p : below h 0 p p
  | below_step k p b q d : h !! p = Some b -> prev b = Some q -> below h k q d -> below h (S k) p d.

Lemma scan_spec (db : btc_headers_db) (floor : Z) (k p : nat) :
  wf db floor -> path_ok (heap db) (cuttable (heap db)) (S k) p ->
  (scan_headers (S k) db p = Some db /\ path_ok (heap db) clean (S k) p) \/
  (exists d q n c, scan_headers (S k) db p = Some (cut_db db d q n c) /\ below (heap db) (S k) p d /\
     heap db !! d = Some n /\ prev n = Some q /\ heap db !! q = Some c /\ q <> genesis).
Proof.
  intros W. revert p. induction k as [|k IH]; intros p (b & Hb & Hp); cbn [scan_headers]; rewrite Hb; cbn [mbind option_bind].
  - destruct (prev b) as [d|] eqn:Ed; [|by left; split; [done|]; exists b; rewrite Ed].
    destruct Hp as (n & Hn & Hc). cbn [Nat.eqb andb]. destruct (Nat.eqb_spec d genesis) as [->|Hd]; cbn [negb].
    { left. split; [done|]. exists b. split; [done|]. rewrite Ed. exists n. split; [done|].
      destruct (wf_genesis _ _ W) as (g & Hg & Eg). rewrite Hn in Hg. injection Hg as ->. by left. }
    rewrite Hn. cbn [mbind option_bind]. destruct (prev n) as [q|] eqn:Eq.
    2:{ left. split; [done|]. exists b. split; [done|]. rewrite Ed. exists n. split; [done|]. by left. }
    destruct (Nat.eqb_spec q genesis) as [->|Hq].
    { left. split; [done|]. exists b. split; [done|]. rewrite Ed. exists n. split; [done|]. by right. }
    right. destruct (Hc q eq_refl) as [c Hcq]. exists d, q, n, c.
    pose proof (proj1 (wf_link _ _ W d n q Hn Eq)) as Hlt.
    unfold cut_before, tdelete. rewrite (tree_live_true db floor W), Hcq. cbn [mbind option_bind].
    unfold free_index. cbn [heap with_tree]. rewrite Hcq. cbn [mbind option_bind heap with_heap with_tree].
    rewrite lookup_delete_ne, Hn by lia. cbn [mbind option_bind].
    split_and!; try done. eapply below_step; [done|done|constructor].
  - destruct (prev b) as [d|] eqn:Ed; [|by left; split; [done|]; exists b; rewrite Ed].
    cbn [Nat.eqb andb mbind option_bind]. destruct (IH d Hp) as [[E C]|(d' & q & n & c & E & B & R)].
    + left. split; [done|]. exists b. split; [done|]. by rewrite Ed.
    + right. exists d', q, n, c. split; [done|]. split; [|done]. by eapply below_step.
Qed.

Lemma below_facts (db : btc_headers_db) (floor : Z) (k p d : nat) (b n : btc_blockindex) :
  wf db floor -> below (heap db) k p d -> heap db !! p = Some b -> heap db !! d = Some n ->
  (d + k <= p)%nat /\ height n = height b - Z.of_nat k.
Proof.
  intros W B. revert b. induction B as [p|k p b0 q d Hp Hq B IH]; intros b Hb Hn.
  - rewrite Hb in Hn. injection Hn as ->. lia.
  - rewrite Hp in Hb. injection Hb as ->. destruct (wf_link _ _ W p b q Hp Hq) as [Hlt Hl].
    assert (is_Some (heap db !! q)) as [c Hc] by (inversion B; subst; eauto). rewrite Hc in Hl.
    destruct (IH c Hc Hn). lia.
Qed.

(** Cutting keeps the well-formedness and leaves a clean path. *)
Lemma cut_wf (db : btc_headers_db) (floor : Z) (d q : nat) (n c : btc_blockindex) :
  let k := S (Z.to_nat (max_hdr_in_mem db)) in
  wf db floor -> below (heap db) k (chaintip db) d -> heap db !! d = Some n -> prev n = Some q ->
  heap db !! q = Some c -> q <> genesis -> wf (cut_db db d q n c) (Z.max floor (height c)).
Proof.
  intros k W B Hd Hq Hc Hg. destruct (wf_tip _ _ W) as (t & Ht & Hfl & Hmax). pose proof (wf_max _ _ W) as HM.
  destruct (below_facts _ _ _ _ _ _ _ W B Ht Hd) as [Hdt Hdh]. unfold k in *.
  destruct (wf_link _ _ W d n q Hd Hq) as [Hqd Hl]. rewrite Hc in Hl. destruct Hl as [Hch _].
  set (n' := mk_blockindex (height n) (hash n) (header n) None).
  assert (forall p, p <> q -> p <> d -> heap (cut_db db d q n c) !! p = heap db !! p) as Hsame.
  { intros p H1 H2. cbn. by rewrite lookup_insert_ne, lookup_delete_ne by done. }
  assert (heap (cut_db db d q n c) !! d = Some n') as Hd' by (cbn; by rewrite lookup_insert_eq).
  assert (heap (cut_db db d q n c) !! q = None) as Hq' by (cbn; rewrite lookup_insert_ne by lia; apply lookup_delete_eq).
  assert (forall p b, heap (cut_db db d q n c) !! p = Some b -> p <> q /\
    (p = d /\ b = n' \/ p <> d /\ heap db !! p = Some b)) as Hcase.
  { intros p b Hp. destruct (decide (p = q)) as [->|Hpq]; [congruence|]. split; [done|].
    destruct (decide (p = d)) as [->|Hpd]; [left; split; congruence|right]. by rewrite Hsame in Hp. }
  constructor.
  - intros p b Hp. apply Hcase in Hp as [_ [[-> _]|[_ Hp]]]; cbn; [by apply (wf_fresh _ _ W d n)|by apply (wf_fresh _ _ W p b)].
  - destruct (wf_genesis _ _ W) as (g & Hgg & Hgp). destruct (decide (genesis = d)) as [<-|Hne].
    + rewrite Hgg in Hd. injection Hd as ->. congruence.
    + exists g. rewrite Hsame by done. done.
  - intros p b r Hp Hr. apply Hcase in Hp as [Hpq [[-> ->]|[Hpd Hp]]]; [done|].
    destruct (wf_link _ _ W p b r Hp Hr) as [Hlt Hl]. split; [done|].
    destruct (decide (r = q)) as [->|Hrq]; [rewrite Hq'; rewrite Hc in Hl; lia|].
    destruct (decide (r = d)) as [->|Hrd]; [rewrite Hd'; rewrite Hd in Hl; done|].
    rewrite Hsame by done. destruct (heap db !! r); [done|lia].
  - exists t. cbn [chaintip cut_db max_hdr_in_mem]. split; [rewrite Hsame by lia; done|]. split; [lia|].
    intros p b Hp. apply Hcase in Hp as [_ [[-> ->]|[_ Hp]]]; [by apply (Hmax d n)|by apply (Hmax p b)].
  - intros kk p Hk. cbn [tree_root cut_db] in Hk. apply lookup_delete_Some in Hk as [Hkc Hk].
    pose proof (wf_tree _ _ W kk p Hk) as Hkp. destruct (decide (p = q)) as [->|Hpq].
    { rewrite Hc in Hkp. cbn in Hkp. congruence. }
    destruct (decide (p = d)) as [->|Hpd]; [rewrite Hd'; rewrite Hd in Hkp; done|]. by rewrite Hsame.
  - cbn [chainbottom cut_db]. rewrite Hd'. done.
  - done.
  - intros p b Hp Hpr. apply Hcase in Hp as [_ [[-> ->]|[_ Hp]]]; [done|]. by apply (wf_hash _ _ W p b).
Qed.

Lemma cut_clean (db : btc_headers_db) (floor : Z) (k p d q : nat) (n c : btc_blockindex) :
  wf db floor -> below (heap db) k p d -> heap db !! d = Some n -> prev n = Some q ->
  path_ok (heap (cut_db db d q n c)) clean k p.
Proof.
  intros W B Hd Hq. pose proof (proj1 (wf_link _ _ W d n q Hd Hq)) as Hqd. revert Hd.
  induction B as [p|k p b q' d Hp Hq' B IH]; intros Hd.
  - eexists. cbn. rewrite lookup_insert_eq. split; [done|]. by left.
  - assert (is_Some (heap db !! q')) as [b' Hb'] by (inversion B; subst; eauto).
    pose proof (proj1 (below_facts _ _ _ _ _ _ _ W B Hb' Hd)).
    pose proof (proj1 (wf_link _ _ W p b q' Hp Hq')).
    exists b. split; [cbn; rewrite lookup_insert_ne, lookup_delete_ne by lia; done|]. rewrite Hq'. by apply IH.
Qed.

(** The clean up after a header was added. *)
Lemma scan_inv (db : btc_headers_db) (floor : Z) :
  wf db floor -> path_ok (heap db) (cuttable (heap db)) (S (Z.to_nat (max_hdr_in_mem db))) (chaintip db) ->
  exists db' floor', scan_headers (Z.to_nat (u32 (max_hdr_in_mem db + 1))) db (chaintip db) = Some db' /\ inv db' floor' /\
    chaintip db' = chaintip db /\ heap db' !! chaintip db = heap db !! chaintip db /\
    headers_tree_file db' = headers_tree_file db /\ read_write_file db' = read_write_file db /\
    use_binary_tree db' = use_binary_tree db /\ fresh db' = fresh db /\ max_hdr_in_mem db' = max_hdr_in_mem db /\
    (forall k p, tree_root db' !! k = Some p -> tree_root db !! k = Some p).
Proof.
  intros W P. pose proof (wf_max _ _ W) as HM. rewrite wrap_small by lia.
  replace (Z.to_nat (max_hdr_in_mem db + 1)) with (S (Z.to_nat (max_hdr_in_mem db))) by lia.
  destruct (scan_spec db floor _ _ W P) as [[-> C]|(d & q & n & c & -> & B & Hd & Hq & Hc & Hg)].
  - exists db, floor. split_and!; try done.
  - exists (cut_db db d q n c), (Z.max floor (height c)). destruct (wf_tip _ _ W) as (t & Ht & _).
    destruct (below_facts _ _ _ _ _ _ _ W B Ht Hd) as [Hdt _]. pose proof (proj1 (wf_link _ _ W d n q Hd Hq)) as Hqd.
    split_and!; try done.
    + split; [by apply cut_wf|]. by eapply cut_clean.
    + cbn. by rewrite lookup_insert_ne, lookup_delete_ne by lia.
    + intros k p. cbn. intros Hk. by apply lookup_delete_Some in Hk as [_ ?].
Qed.

(** ** Adding a header *)

Definition record_bytes (b : btc_blockindex) : list Z := hash b ++ le_bytes 4 (height b) ++ header_bytes (header b).

Lemma index_record_spec (b : btc_blockindex) : header_ok (header b) -> zlen (hash b) = 32 ->
  index_record b = Some (record_bytes b).
Proof.
  intros Hh Hl. unfold index_record.
  assert (Appends (fun s => s ← ser_u256 s (hash b); s ← ser_u32 s (height b); btc_block_header_serialize s (header b))
    (record_bytes b)) as A.
  { apply appends_bind; [by apply appends_u256|]. apply appends_bind; [apply appends_u32|by apply appends_header]. }
  destruct (fresh_writes 100 _ _ ltac:(lia) A) as (s0 & s' & -> & E & _ & _ & Hb).
  { unfold record_bytes. rewrite !zlen_app, zlen_le_bytes, header_bytes_zlen by done. lia. }
  cbn [mbind option_bind] in *.
  destruct (ser_u256 s0 (hash b)) as [s1|]; [|done]. cbn [mbind option_bind] in *.
  destruct (ser_u32 s1 (height b)) as [s2|]; [|done]. cbn [mbind option_bind] in *. rewrite E. cbn [mbind option_bind]. done.
Qed.

(** A node on top of the heap; the tip and the tree may change to it. *)
Definition add_db (db : btc_headers_db) (n : btc_blockindex) (f : option (list Z)) (in_tree new_tip : bool) : btc_headers_db :=
  mk_headers_db (<[fresh db := n]> (heap db)) (S (fresh db)) f (read_write_file db)
    (if in_tree then <[hash n := fresh db]> (tree_root db) else tree_root db) (use_binary_tree db) (max_hdr_in_mem db)
    (if new_tip then fresh db else chaintip db) (chainbottom db).

Lemma add_lookup (db : btc_headers_db) (floor : Z) (n : btc_blockindex) (p : nat) (b : btc_blockindex) :
  wf db floor -> <[fresh db := n]> (heap db) !! p = Some b -> p = fresh db /\ b = n \/ p <> fresh db /\ heap db !! p = Some b.
Proof. intros W. rewrite lookup_insert_Some. intros [[<- <-]|[? ?]]; [by left|right; by split]. Qed.

Lemma add_wf (db : btc_headers_db) (floor : Z) (n t : btc_blockindex) (f : option (list Z)) (in_tree new_tip : bool) :
  wf db floor -> heap db !! chaintip db = Some t -> 0 <= height n ->
  (if new_tip then height t <= height n else height n <= height t) ->
  match prev n with
  | Some c => exists cn, heap db !! c = Some cn /\ height n = height cn + 1 /\ prev_block (header n) = hash cn /\
      btc_block_header_hash (header n) = Some (hash n)
  | None => True
  end ->
  wf (add_db db n f in_tree new_tip) floor.
Proof.
  intros W Ht Hn0 Htip Hprev. destruct (wf_tip _ _ W) as (t' & Ht' & Hfl & Hmax). rewrite Ht in Ht'. injection Ht' as <-.
  assert (forall p, (p < fresh db)%nat -> <[fresh db := n]> (heap db) !! p = heap db !! p) as Hold.
  { intros p Hp. apply lookup_insert_ne. lia. }
  assert (heap db !! fresh db = None) as Hfr.
  { destruct (heap db !! fresh db) eqn:E; [|done]. apply (wf_fresh _ _ W) in E. lia. }
  constructor; cbn [heap fresh chaintip chainbottom tree_root max_hdr_in_mem add_db].
  - intros p b Hp. apply (add_lookup db floor _ _ _ W) in Hp as [[-> _]|[_ Hp]]; [lia|]. apply (wf_fresh _ _ W) in Hp. lia.
  - destruct (wf_genesis _ _ W) as (g & Hg & Hgp). exists g. rewrite Hold; [done|]. by apply (wf_fresh _ _ W) in Hg.
  - intros p b q Hp Hq. apply (add_lookup db floor _ _ _ W) in Hp as [[-> ->]|[Hne Hp]].
    + rewrite Hq in Hprev. destruct Hprev as (cn & Hc & Hh & Hpb & _). pose proof (wf_fresh _ _ W _ _ Hc).
      split; [done|]. rewrite Hold, Hc by done. done.
    + destruct (wf_link _ _ W p b q Hp Hq) as [Hlt Hl]. split; [done|]. pose proof (wf_fresh _ _ W _ _ Hp).
      by rewrite Hold by lia.
  - exists (if new_tip then n else t). pose proof (wf_fresh _ _ W _ _ Ht). split; [|split].
    + destruct new_tip; [apply lookup_insert_eq|by rewrite Hold].
    + destruct new_tip; lia.
    + intros p b Hp. apply (add_lookup db floor _ _ _ W) in Hp as [[-> ->]|[_ Hp]].
      * destruct new_tip; lia.
      * specialize (Hmax p b Hp). destruct new_tip; lia.
  - intros k p Hk. assert (forall k' p', tree_root db !! k' = Some p' ->
      hash <$> <[fresh db:=n]> (heap db) !! p' = Some k') as Hkeep.
    { intros k' p' Hk'. pose proof (wf_tree _ _ W k' p' Hk') as Hkp. cbv beta in Hkp. destruct (heap db !! p') as [b|] eqn:Eb; [|done].
      rewrite Hold, Eb; [done|]. by apply (wf_fresh _ _ W) in Eb. }
    destruct in_tree; [|by apply Hkeep]. apply lookup_insert_Some in Hk as [[<- <-]|[_ Hk]]; [|by apply Hkeep].
    by rewrite lookup_insert_eq.
  - destruct (wf_bottom _ _ W) as [bb Hbb]. rewrite Hold; [by exists bb|]. by apply (wf_fresh _ _ W) in Hbb.
  - apply (wf_max _ _ W).
  - intros p b Hp Hpr. apply (add_lookup db floor _ _ _ W) in Hp as [[-> ->]|[_ Hp]].
    + destruct (prev n); [|done]. by destruct Hprev as (cn & _ & _ & _ & ?).
    + by apply (wf_hash _ _ W p b).
Qed.

Lemma add_clean (db : btc_headers_db) (floor : Z) (n : btc_blockindex) (f : option (list Z)) (in_tree : bool) (last : option nat -> Prop) (k : nat) :
  wf db floor -> path_ok (heap db) last k (chaintip db) ->
  path_ok (heap (add_db db n f in_tree false)) last k (chaintip (add_db db n f in_tree false)).
Proof.
  intros W. apply path_ok_mono; [|apply (wf_link _ _ W)|done]. intros q b _ Hq. cbn [heap add_db].
  rewrite lookup_insert_ne; [done|]. apply (wf_fresh _ _ W) in Hq. lia.
Qed.

(** The height of the block a header builds on, if it is known. *)
Definition parent_height (db : btc_headers_db) (t : btc_blockindex) (hdr : btc_block_header) : option Z :=
  if bool_decide (prev_block hdr = hash t) then Some (height t)
  else if use_binary_tree db then p ← tree_root db !! prev_block hdr; height <$> heap db !! p else None.

(** The fields a header does not change. *)
Definition same_settings (db db' : btc_headers_db) : Prop :=
  read_write_file db' = read_write_file db /\ use_binary_tree db' = use_binary_tree db /\ max_hdr_in_mem db' = max_hdr_in_mem db.

(** Allocation, file and tree for a node that builds on [c]. *)
Lemma insert_spec (db : btc_headers_db) (floor : Z) (n : btc_blockindex) (load new_tip : bool) (f : list Z) :
  wf db floor -> header_ok (header n) -> zlen (hash n) = 32 ->
  (negb load && read_write_file db = true -> headers_tree_file db = Some f) ->
  let rec := if negb load && read_write_file db then Some (f ++ record_bytes n) else headers_tree_file db in
  (let '(blockindex, db) := alloc_index db n in
   let db := if new_tip then with_tip db blockindex else db in
   db ← (if negb load && read_write_file db then btc_headers_db_write db blockindex else Some db);
   if use_binary_tree db then tsearch db blockindex else Some db) =
  Some (add_db db n rec (use_binary_tree db && bool_decide (tree_root db !! hash n = None)) new_tip).
Proof.
  intros W Hh Hl Hf. cbv zeta. unfold alloc_index.
  assert (forall f' (nt : bool), map_Forall (fun k p => hash <$> heap (add_db db n f' false nt) !! p = Some k) (tree_root db)) as L.
  { intros f' nt k p Hk. pose proof (wf_tree _ _ W k p Hk) as Hp. cbv beta in Hp. cbn [heap add_db].
    destruct (heap db !! p) as [b|] eqn:Eb; [|done]. rewrite lookup_insert_ne, Eb; [done|]. apply (wf_fresh _ _ W) in Eb. lia. }
  assert (forall f' (nt : bool), (if use_binary_tree db then tsearch (add_db db n f' false nt) (fresh db) else Some (add_db db n f' false nt)) =
    Some (add_db db n f' (use_binary_tree db && bool_decide (tree_root db !! hash n = None)) nt)) as T.
  { intros f' nt. destruct (use_binary_tree db) eqn:Eu; [|done]. unfold tsearch, tree_live.
    rewrite bool_decide_true by apply L. cbn [heap add_db]. rewrite lookup_insert_eq. cbn [mbind option_bind tree_root andb].
    change (tree_root (add_db db n f' false nt)) with (tree_root db). destruct (tree_root db !! hash n); [by rewrite bool_decide_false|rewrite bool_decide_true by done]. unfold with_tree, add_db. cbn. by rewrite Eu. }
  assert (forall (nt : bool), (if nt then with_tip (snd (alloc_index db n)) (fresh db) else snd (alloc_index db n)) =
    add_db db n (headers_tree_file db) false nt) as A by by intros [].
  unfold alloc_index in A. cbn [snd] in A. rewrite A. cbn [read_write_file add_db].
  destruct (negb load && read_write_file db) eqn:Ew.
  - unfold btc_headers_db_write. cbn [heap add_db]. rewrite lookup_insert_eq. cbn [mbind option_bind].
    rewrite index_record_spec by done. cbn [mbind option_bind headers_tree_file]. rewrite (Hf eq_refl). cbn [mbind option_bind].
    apply (T (Some (f ++ record_bytes n)) new_tip).
  - cbn [mbind option_bind]. apply (T (headers_tree_file db) new_tip).
Qed.

(** What one header does to the tip and to the file. *)
Definition connect_effect (db db' : btc_headers_db) (t : btc_blockindex) (hdr : btc_block_header) (load : bool) (f : list Z)
    (connected : bool) : Prop :=
  match parent_height db t hdr with
  | Some hp =>
      let n := mk_blockindex (hp + 1) (dsha (header_bytes hdr)) hdr None in
      connected = true /\
      (exists t', heap db' !! chaintip db' = Some t' /\
         if height t <? hp + 1 then height t' = hp + 1 /\ hash t' = dsha (header_bytes hdr) /\ header t' = hdr
         else chaintip db' = chaintip db /\ t' = t) /\
      headers_tree_file db' = if negb load && read_write_file db then Some (f ++ record_bytes n) else headers_tree_file db
  | None =>
      connected = false /\ chaintip db' = chaintip db /\ heap db' !! chaintip db' = Some t /\
      headers_tree_file db' = headers_tree_file db
  end.

(** The node a header builds on. *)
Lemma parent_spec (db : btc_headers_db) (floor : Z) (t : btc_blockindex) (hdr : btc_block_header) :
  wf db floor -> heap db !! chaintip db = Some t ->
  exists o fork, (if bool_decide (prev_block hdr = hash t) then Some (Some (chaintip db), None)
    else f ← btc_headersdb_find db (prev_block hdr); Some (f, f)) = Some (o, fork) /\
  match o with
  | Some c => exists cn, heap db !! c = Some cn /\ hash cn = prev_block hdr /\ parent_height db t hdr = Some (height cn)
  | None => parent_height db t hdr = None
  end.
Proof.
  intros W Ht. unfold parent_height. destruct (bool_decide_reflect (prev_block hdr = hash t)) as [E|E].
  { exists (Some (chaintip db)), (@None nat). split; [done|]. by exists t. }
  unfold btc_headersdb_find. destruct (use_binary_tree db); [|by exists None, None].
  unfold tfind. rewrite (tree_live_true db floor W). cbn [mbind option_bind].
  destruct (tree_root db !! prev_block hdr) as [c|] eqn:Ec; [|by exists None, None].
  eexists _, _. split; [done|]. pose proof (wf_tree _ _ W _ _ Ec) as Hc. cbv beta in Hc. cbn [mbind option_bind].
  destruct (heap db !! c) as [cn|]; [|done]. exists cn. cbn in Hc |- *. split_and!; [done|congruence|done].
Qed.

Lemma connect_spec (db : btc_headers_db) (floor : Z) (t : btc_blockindex) (buf : const_buffer) (load : bool) (f : list Z) :
  inv db floor -> heap db !! chaintip db = Some t -> height t + 1 < 2 ^ 32 -> is_bytes buf ->
  (negb load && read_write_file db = true -> headers_tree_file db = Some f) ->
  exists db' floor' r connected rest, btc_headers_db_connect_hdr db buf load = Some (db', r, connected, rest) /\
    inv db' floor' /\ same_settings db db' /\
    match btc_block_header_deserialize (mk_header 0 (replicate 32 0) (replicate 32 0) 0 0 0) buf with
    | (true, hdr, _) => connect_effect db db' t hdr load f connected
    | (false, _, _) => db' = db /\ connected = false
    end.
Proof.
  intros [W P] Ht Hb Hbuf Hf. unfold btc_headers_db_connect_hdr.
  destruct (btc_block_header_deserialize _ buf) as [[[] hdr] rest] eqn:Ed.
  2:{ exists db, floor. do 3 eexists. split; [done|]. split; [by split|]. done. }
  destruct (deser_header_ok _ _ _ _ Hbuf Ed) as [Hok _]. rewrite (header_hash_spec hdr Hok). cbn [mbind option_bind].
  set (hh := dsha (header_bytes hdr)).
  assert (zlen hh = 32) as Hhl by apply dsha_ok.
  rewrite Ht. cbn [mbind option_bind]. destruct (parent_spec db floor t hdr W Ht) as (o & fork & -> & Ho).
  cbn [mbind option_bind]. unfold connect_effect. destruct (wf_tip _ _ W) as (t' & Ht' & Hfl & Hmax).
  rewrite Ht in Ht'. injection Ht' as <-. pose proof (wf_max _ _ W) as HM. pose proof (Hmax _ _ Ht) as Hmt.
  destruct o as [c|].
  - destruct Ho as (cn & Hc & Ehc & ->). rewrite Hc. cbn [mbind option_bind].
    pose proof (Hmax c cn Hc) as Hmc. rewrite wrap_small by lia.
    set (n := mk_blockindex (height cn + 1) hh hdr (Some c)).
    pose proof (insert_spec db floor n load (height t <? height cn + 1) f W Hok Hhl Hf) as Ins. cbv zeta in Ins.
    unfold alloc_index in Ins |- *. cbn [mbind option_bind] in Ins |- *.
    set (db1 := if height t <? height cn + 1 then _ else _) in *.
    destruct (if negb load && read_write_file db1 then btc_headers_db_write db1 (fresh db) else Some db1) as [db2|]; [|done].
    cbn [mbind option_bind] in Ins |- *.
    rewrite Ins. cbn [mbind option_bind]. clear Ins. subst db1. clear db2.
    set (f' := if negb load && read_write_file db then _ else _).
    set (it := use_binary_tree db && _). set (nt := height t <? height cn + 1).
    assert (wf (add_db db n f' it nt) floor) as W1.
    { apply (add_wf db floor n t); [done|done|cbn; lia| |exists cn; split_and!; [done|done|done|by apply header_hash_spec]].
      unfold nt. cbn [height n]. destruct (Z.ltb_spec (height t) (height cn + 1)); lia. }
    assert (path_ok (heap (add_db db n f' it nt)) (cuttable (heap (add_db db n f' it nt)))
      (S (Z.to_nat (max_hdr_in_mem (add_db db n f' it nt)))) (chaintip (add_db db n f' it nt))) as P1.
    { unfold nt in *. destruct (Z.ltb_spec (height t) (height cn + 1)) as [Hlt|Hge].
      - apply (cuttable_path _ floor _ _ n W1); [apply lookup_insert_eq|]. cbn [height n max_hdr_in_mem add_db]. lia.
      - apply (clean_cuttable _ floor _ _ W1). by apply (add_clean db floor). }
    destruct (scan_inv _ floor W1 P1) as (db' & floor' & E & I & E1 & E2 & E3 & E4 & E5 & E6 & E7 & E8).
    replace (0 <? max_hdr_in_mem (add_db db n f' it nt)) with true by (symmetry; apply Z.ltb_lt; cbn; lia).
    rewrite E. cbn [mbind option_bind]. exists db', floor'. do 3 eexists. split; [done|]. split; [done|].
    split; [done|]. split; [done|]. split; [|by rewrite E3].
    rewrite E1, E2. unfold nt. destruct (Z.ltb_spec (height t) (height cn + 1)) as [Hlt|Hge].
    + exists n. split; [apply lookup_insert_eq|done].
    + exists t. split; [|done]. cbn [heap chaintip add_db]. rewrite lookup_insert_ne; [done|].
      apply (wf_fresh _ _ W) in Ht. lia.
  - rewrite Ho. unfold alloc_index. set (n := mk_blockindex 0 hh hdr None).
    change (mk_headers_db _ _ _ _ _ _ _ _ _) with (add_db db n (headers_tree_file db) false false).
    exists (add_db db n (headers_tree_file db) false false), floor. do 3 eexists. split; [done|]. split.
    + split; [apply (add_wf db floor n t); (done || cbn; lia)|]. by apply (add_clean db floor).
    + split; [done|]. split_and!; try done. cbn [heap chaintip add_db]. rewrite lookup_insert_ne; [done|].
      apply (wf_fresh _ _ W) in Ht. lia.
Qed.

(** ** Starting points *)

Lemma new_inv (g : list Z) (inmem : bool) : inv (btc_headers_db_new g inmem) (-146).
Proof.
  set (b0 := mk_blockindex 0 g btc_block_header_new None).
  assert (heap (btc_headers_db_new g inmem) = {[ genesis := b0 ]}) as E by done.
  assert (forall p b, heap (btc_headers_db_new g inmem) !! p = Some b -> p = genesis /\ b = b0) as L.
  { intros p b. rewrite E. by intros [<- <-]%lookup_singleton_Some. }
  assert (heap (btc_headers_db_new g inmem) !! genesis = Some b0) as G by (rewrite E; apply lookup_singleton_eq).
  split; [constructor|].
  - intros p b [-> _]%L. unfold genesis. cbn. lia.
  - by exists b0.
  - intros p b q [_ ->]%L. done.
  - exists b0. split; [done|]. split; [cbn; lia|]. intros p b [_ ->]%L. cbn. lia.
  - intros k p Hk. change (tree_root (btc_headers_db_new g inmem)) with (∅ : gmap (list Z) nat) in Hk. by rewrite lookup_empty in Hk.
  - by exists b0.
  - cbn. lia.
  - intros p b [_ ->]%L. done.
  - by exists b0.
Qed.

Lemma file_inv (db : btc_headers_db) (floor : Z) (f : option (list Z)) : inv db floor -> inv (with_file db f) floor.
Proof. intros [[] P]. split; [by constructor|done]. Qed.

(** A first node without a predecessor. *)
Lemma root_inv (db : btc_headers_db) (floor : Z) (n t : btc_blockindex) (bottom : bool) :
  inv db floor -> heap db !! chaintip db = Some t -> height t <= height n -> prev n = None ->
  let db1 := add_db db n (headers_tree_file db) false true in
  inv (if bottom then with_bottom db1 (fresh db) else db1) floor.
Proof.
  intros [W P] Ht Hle Hp db1. destruct (wf_tip _ _ W) as (t' & Ht' & _ & Hmax). pose proof (Hmax _ _ Ht).
  assert (wf db1 floor) as W1 by (apply (add_wf db floor n t); [done|done|lia|done|by rewrite Hp]).
  assert (path_ok (heap db1) clean (S (Z.to_nat (max_hdr_in_mem db1))) (chaintip db1)) as P1.
  { exists n. cbn [heap chaintip add_db db1]. rewrite lookup_insert_eq, Hp. done. }
  destruct bottom; [|done]. split; [|done]. destruct W1. constructor; try done. exists n. apply lookup_insert_eq.
Qed.

(** ** Sequences of headers *)

Fixpoint connect_all (db : btc_headers_db) (bufs : list (list Z)) (load : bool) : option btc_headers_db :=
  match bufs with
  | [] => Some db
  | buf :: bufs' => '(db, _, _, _) ← btc_headers_db_connect_hdr db buf load; connect_all db bufs' load
  end.

Lemma connect_effect_height (db db' : btc_headers_db) (floor : Z) (t : btc_blockindex) (hdr : btc_block_header) (load c : bool) (f : list Z) :
  wf db floor -> heap db !! chaintip db = Some t -> connect_effect db db' t hdr load f c ->
  exists t', heap db' !! chaintip db' = Some t' /\ height t <= height t' <= height t + 1.
Proof.
  intros W Ht. unfold connect_effect. destruct (parent_height db t hdr) as [hp|] eqn:Ep.
  - intros (_ & (t' & Ht' & Hc) & _). exists t'. split; [done|].
    assert (hp <= height t) as Hle.
    { destruct (wf_tip _ _ W) as (t0 & Ht0 & _ & Hmax). rewrite Ht in Ht0. injection Ht0 as <-.
      unfold parent_height in Ep. destruct (bool_decide _); [injection Ep; lia|]. destruct (use_binary_tree db); [|done].
      destruct (tree_root db !! prev_block hdr) as [q|]; [|done]. cbn [mbind option_bind] in Ep.
      destruct (heap db !! q) as [b|] eqn:Eb; [|done]. cbn in Ep. injection Ep as <-. by apply Hmax in Eb as [_ ?]. }
    destruct (Z.ltb_spec (height t) (hp + 1)); [lia|]. destruct Hc as [_ ->]. lia.
  - intros (_ & _ & Ht' & _). exists t. split; [done|lia].
Qed.

Lemma connect_all_inv (bufs : list (list Z)) (db : btc_headers_db) (floor : Z) (t : btc_blockindex) :
  inv db floor -> heap db !! chaintip db = Some t -> height t + zlen bufs < 2 ^ 32 -> Forall is_bytes bufs ->
  read_write_file db = false ->
  exists db' floor', connect_all db bufs false = Some db' /\ inv db' floor' /\ same_settings db db'.
Proof.
  revert db floor t. induction bufs as [|buf bufs IH]; intros db floor t I Ht Hh Hb Hrw.
  { exists db, floor. by split_and!. }
  apply list.Forall_cons in Hb as [Hb Hbs]. rewrite zlen_cons in Hh. pose proof (zlen_nonneg bufs). cbn [connect_all].
  destruct (connect_spec db floor t buf false [] I Ht ltac:(lia) Hb) as (db1 & fl1 & r & c & rest & -> & I1 & (S1 & S2 & S3) & He).
  { by rewrite Hrw. }
  cbn [mbind option_bind].
  assert (exists t1, heap db1 !! chaintip db1 = Some t1 /\ height t1 <= height t + 1) as (t1 & Ht1 & Hh1).
  { destruct (btc_block_header_deserialize _ buf) as [[[] hdr] rest'].
    - destruct (connect_effect_height _ _ _ _ _ _ _ _ (proj1 I) Ht He) as (t1 & ? & ?). exists t1. split; [done|lia].
    - destruct He as [-> _]. exists t. split; [done|lia]. }
  destruct (IH db1 fl1 t1 I1 Ht1 ltac:(lia) Hbs) as (db' & fl' & -> & I' & (T1 & T2 & T3)); [congruence|].
  exists db', fl'. split_and!; [done|done|]. repeat split; congruence.
Qed.

(** The locator walks over allocated nodes only. *)
Lemma locator_spec (k : nat) (db : btc_headers_db) (last : option nat -> Prop) (j p : nat) :
  path_ok (heap db) last j p -> (k <= S j)%nat -> exists l, locator_loop k db p = Some l /\ (length l <= k)%nat.
Proof.
  revert j p. induction k as [|k IH]; intros j p Hp Hk; [by exists []|]. cbn [locator_loop].
  destruct j as [|j]; destruct Hp as (b & Hb & Hp); rewrite Hb; cbn [mbind option_bind].
  - assert (k = 0%nat) as -> by lia. cbn [locator_loop]. destruct (prev b); eexists; (split; [done|cbn; lia]).
  - destruct (prev b) as [q|]; [|eexists; split; [done|cbn; lia]].
    destruct (IH j q Hp ltac:(lia)) as (l & -> & Hl). eexists. split; [done|cbn; lia].
Qed.

(** ** The guarantees *)

(** Every node is linked to the one it builds on, and the tip is highest. *)
Definition chain_ok (db : btc_headers_db) : Prop :=
  (forall p b q c, heap db !! p = Some b -> prev b = Some q -> heap db !! q = Some c ->
     height b = height c + 1 /\ prev_block (header b) = hash c /\ btc_block_header_hash (header b) = Some (hash b)) /\
  (exists t, heap db !! chaintip db = Some t /\ forall p b, heap db !! p = Some b -> height b <= height t) /\
  map_Forall (fun k p => hash <$> heap db !! p = Some k) (tree_root db).

Lemma inv_chain_ok (db : btc_headers_db) (floor : Z) : inv db floor -> chain_ok db.
Proof.
  intros [W _]. split_and!.
  - intros p b q c Hp Hq Hc. destruct (wf_link _ _ W p b q Hp Hq) as [_ Hl]. rewrite Hc in Hl. destruct Hl as [-> ->].
    split_and!; [done|done|]. apply (wf_hash _ _ W p b Hp). by rewrite Hq.
  - destruct (wf_tip _ _ W) as (t & Ht & _ & Hmax). exists t. split; [done|]. intros p b Hp. by apply Hmax in Hp as [_ ?].
  - apply W.
Qed.

(** A fresh database in memory, from the genesis block or from a checkpoint. *)
Definition start_db (g : list Z) (checkpoint : option (list Z * Z)) : btc_headers_db :=
  match checkpoint with
  | None => btc_headers_db_new g true
  | Some (h, ht) => btc_headersdb_set_checkpoint_start (btc_headers_db_new g true) h ht
  end.

Lemma start_inv (g : list Z) (checkpoint : option (list Z * Z)) : 0 <= default 0 (snd <$> checkpoint) ->
  inv (start_db g checkpoint) (-146) /\ read_write_file (start_db g checkpoint) = false /\ max_hdr_in_mem (start_db g checkpoint) = 144 /\
  exists t, heap (start_db g checkpoint) !! chaintip (start_db g checkpoint) = Some t /\ height t = default 0 (snd <$> checkpoint).
Proof.
  intros H0. pose proof (new_inv g true) as I. destruct checkpoint as [[h ht]|]; cbn [start_db].
  - split_and!; [|done|done|eexists; split; [apply lookup_insert_eq|done]].
    apply (root_inv (btc_headers_db_new g true) (-146) (mk_blockindex ht h btc_block_header_new None)
      (mk_blockindex 0 g btc_block_header_new None) true); [done|apply lookup_singleton_eq|done|done].
  - split_and!; [done|done|done|]. eexists. split; [apply lookup_singleton_eq|done].
Qed.

(** C28: whatever headers arrive, the header database stays sound.  From the
    genesis block or a checkpoint, after any sequence of calls of
    [btc_headers_db_connect_hdr] with any bytes - forks, duplicates, orphans,
    truncated headers - no freed node is accessed although old headers are freed
    on the way; every node builds on the node its header names, one higher; the
    tip is a highest node; the tree holds allocated nodes only; and the block
    locator of up to ten hashes and the checkpoint test can be computed. *)
Theorem headers_db_sound (g : list Z) (checkpoint : option (list Z * Z)) (bufs : list (list Z)) :
  0 <= default 0 (snd <$> checkpoint) -> default 0 (snd <$> checkpoint) + zlen bufs < 2 ^ 32 -> Forall is_bytes bufs ->
  exists db, connect_all (start_db g checkpoint) bufs false = Some db /\ chain_ok db /\
    (exists l, btc_headers_db_fill_block_locator db = Some l /\ (length l <= 10)%nat) /\
    is_Some (btc_headersdb_has_checkpoint_start db).
Proof.
  intros H0 Hl Hb. destruct (start_inv g checkpoint H0) as (I & Hrw & HM & t & Ht & Hth).
  destruct (connect_all_inv bufs _ _ t I Ht ltac:(lia) Hb Hrw) as (db & fl & -> & I' & _ & _ & HM').
  exists db. split; [done|]. split; [by apply (inv_chain_ok db fl)|]. destruct I' as [W P]. split.
  - unfold btc_headers_db_fill_block_locator. destruct (wf_tip _ _ W) as (t' & -> & _). cbn [mbind option_bind].
    case_bool; [|exists []; split; [done|cbn; lia]]. eapply locator_spec; [exact P|]. rewrite HM', HM. cbn. lia.
  - unfold btc_headersdb_has_checkpoint_start. destruct (wf_bottom _ _ W) as [b ->]. done.
Qed.

Definition example_header (p : list Z) (k : Z) : btc_block_header := mk_header 1 p (replicate 32 0) k 0 0.

(** A header on the genesis block, a truncated one, an orphan and a checkpoint. *)
Lemma headers_db_sound_witness : exists db,
  connect_all (start_db (replicate 32 7) (Some (replicate 32 9, 500)))
    [header_bytes (example_header (replicate 32 9) 1); [1; 2; 3]; header_bytes (example_header (replicate 32 5) 2)] false = Some db /\
  chain_ok db.
Proof.
  destruct (headers_db_sound (replicate 32 7) (Some (replicate 32 9, 500))
    [header_bytes (example_header (replicate 32 9) 1); [1; 2; 3]; header_bytes (example_header (replicate 32 5) 2)])
    as (db & E & C & _); [by vm_compute|by vm_compute| |exists db; exact (conj E C)].
  repeat (constructor; [apply is_bytes_of; vm_compute; reflexivity|]). constructor.
Defined.

(** What one header does.  A header that cannot be read changes nothing.
    Otherwise it is connected exactly when its parent is the tip or is found in
    the tree; it becomes the tip, with the hash of its 80 bytes and a height one
    above its parent, exactly when that is higher than the tip, and the tip is
    unchanged otherwise; it is appended to the file, with its hash and height,
    exactly when it is connected, the database has a file and the headers are
    not being loaded from it. *)
Theorem headers_connect_effect (db : btc_headers_db) (floor : Z) (t : btc_blockindex) (buf : const_buffer) (load : bool) (f : list Z) :
  inv db floor -> heap db !! chaintip db = Some t -> height t + 1 < 2 ^ 32 -> is_bytes buf ->
  (negb load && read_write_file db = true -> headers_tree_file db = Some f) ->
  exists db' floor' r connected rest, btc_headers_db_connect_hdr db buf load = Some (db', r, connected, rest) /\
    inv db' floor' /\ same_settings db db' /\
    match btc_block_header_deserialize (mk_header 0 (replicate 32 0) (replicate 32 0) 0 0 0) buf with
    | (true, hdr, _) => connect_effect db db' t hdr load f connected
    | (false, _, _) => db' = db /\ connected = false
    end.
Proof. apply connect_spec. Qed.

Lemma headers_connect_effect_witness : exists db' r rest,
  btc_headers_db_connect_hdr (btc_headers_db_new (replicate 32 7) true) (header_bytes (example_header (replicate 32 7) 1)) false =
    Some (db', r, true, rest) /\
  connect_effect (btc_headers_db_new (replicate 32 7) true) db' (mk_blockindex 0 (replicate 32 7) btc_block_header_new None)
    (example_header (replicate 32 7) 1) false [] true.
Proof.
  destruct (headers_connect_effect (btc_headers_db_new (replicate 32 7) true) (-146)
    (mk_blockindex 0 (replicate 32 7) btc_block_header_new None) (header_bytes (example_header (replicate 32 7) 1)) false [])
    as (db' & fl & r & c & rest & E & _ & _ & H); [apply new_inv|apply lookup_singleton_eq|cbn; lia| |done|].
  { apply is_bytes_of. vm_compute. reflexivity. }
  rewrite <- (app_nil_r (header_bytes _)), deser_header_app in H by (repeat split; cbn; try lia; by apply is_bytes_of).
  assert (c = true) as -> by (unfold connect_effect in H; cbn in H; by destruct H as [? _]). exists db', r, rest. exact (conj E H).
Defined.

(** ** Files *)

(** Headers that build on each other. *)
Fixpoint linked (h : list Z) (hs : list btc_block_header) : Prop :=
  match hs with
  | [] => True
  | x :: hs' => header_ok x /\ prev_block x = h /\ linked (dsha (header_bytes x)) hs'
  end.

Definition end_hash (h : list Z) (hs : list btc_block_header) : list Z := fold_left (fun _ x => dsha (header_bytes x)) hs h.

Fixpoint records (ht : Z) (hs : list btc_block_header) : list Z :=
  match hs with
  | [] => []
  | x :: hs' => record_bytes (mk_blockindex ht (dsha (header_bytes x)) x None) ++ records (ht + 1) hs'
  end.

Lemma connect_chain (hs : list btc_block_header) (db : btc_headers_db) (floor : Z) (t : btc_blockindex) (load : bool) (f : list Z) :
  inv db floor -> heap db !! chaintip db = Some t -> linked (hash t) hs -> height t + zlen hs < 2 ^ 32 ->
  (negb load && read_write_file db = true -> headers_tree_file db = Some f) ->
  exists db' floor' t', connect_all db (map header_bytes hs) load = Some db' /\ inv db' floor' /\
    heap db' !! chaintip db' = Some t' /\ height t' = height t + zlen hs /\ hash t' = end_hash (hash t) hs /\
    headers_tree_file db' =
      if negb load && read_write_file db then Some (f ++ records (height t + 1) hs) else headers_tree_file db.
Proof.
  revert db floor t f. induction hs as [|x hs IH]; intros db floor t f I Ht Hlk Hh Hf.
  { exists db, floor, t. split_and!; try done; [rewrite zlen_nil; lia|]. cbn [records]. rewrite app_nil_r.
    destruct (negb load && _) eqn:E; [by apply Hf|done]. }
  destruct Hlk as (Hok & Hp & Hlk). rewrite zlen_cons in Hh. pose proof (zlen_nonneg hs). cbn [connect_all map].
  destruct (connect_spec db floor t (header_bytes x) load f I Ht ltac:(lia) (header_bytes_ok x Hok) Hf)
    as (db1 & fl1 & r & c & rest & -> & I1 & (S1 & S2 & S3) & He).
  cbn [mbind option_bind]. rewrite <- (app_nil_r (header_bytes x)), deser_header_app in He by done.
  unfold connect_effect, parent_height in He. rewrite bool_decide_true in He by done.
  replace (height t <? height t + 1) with true in He by (symmetry; apply Z.ltb_lt; lia).
  destruct He as (_ & (t1 & Ht1 & Hh1 & Hs1 & _) & Hfile). rewrite <- Hs1 in Hlk.
  destruct (IH db1 fl1 t1 (f ++ record_bytes (mk_blockindex (height t + 1) (dsha (header_bytes x)) x None)) I1 Ht1 Hlk ltac:(lia))
    as (db' & fl' & t' & -> & I' & Ht' & Hh' & Hs' & Hf').
  { rewrite S1. intros Hw. rewrite Hw in Hfile. done. }
  exists db', fl', t'. split_and!; try done; [rewrite zlen_cons; lia|by rewrite Hs', Hs1|].
  rewrite Hf', S1. destruct (negb load && _); [|done]. cbn [records]. by rewrite Hh1, <- app_assoc.
Qed.

Lemma record_parts (ht : Z) (x : btc_block_header) : header_ok x ->
  let b := mk_blockindex ht (dsha (header_bytes x)) x None in
  zlen (record_bytes b) = 116 /\ zlen (hash b) = 32.
Proof.
  intros Hok b. destruct (dsha_ok (header_bytes x)) as [Hl _].
  unfold record_bytes, b. cbn [hash height header]. rewrite !zlen_app, zlen_le_bytes, header_bytes_zlen, Hl by done. done.
Qed.

(** Reading one record of the file. *)
Lemma load_record_spec (db : btc_headers_db) (first : bool) (ht : Z) (x : btc_block_header) :
  header_ok x -> 0 <= ht < 1120874 ->
  load_record db first (record_bytes (mk_blockindex ht (dsha (header_bytes x)) x None)) =
  if first then
    let '(p, db) := alloc_index db (mk_blockindex ht (dsha (header_bytes x)) x None) in Some (with_tip db p, false, true)
  else '(db, _, _, _) ← btc_headers_db_connect_hdr db (header_bytes x) true; Some (db, false, true).
Proof.
  intros Hok Hht. destruct (record_parts ht x Hok) as [_ Hl]. unfold load_record, record_bytes. cbn [hash height header] in *.
  rewrite deser_u256_app by done. rewrite deser_u32_app by lia.
  replace (1120874 <=? ht) with false by (symmetry; apply Z.leb_gt; lia). destruct first; [|done].
  rewrite <- (app_nil_r (header_bytes x)) at 1. rewrite deser_header_app by done. rewrite header_hash_spec by done. done.
Qed.

(** Records from the height 1120874 on are skipped. *)
Lemma load_record_high (db : btc_headers_db) (first : bool) (ht : Z) (x : btc_block_header) :
  header_ok x -> 1120874 <= ht < 2 ^ 32 ->
  load_record db first (record_bytes (mk_blockindex ht (dsha (header_bytes x)) x None)) = Some (db, first, true).
Proof.
  intros Hok Hht. destruct (record_parts ht x Hok) as [_ Hl]. unfold load_record, record_bytes. cbn [hash height header] in *.
  rewrite deser_u256_app by done. rewrite deser_u32_app by lia. by rewrite (proj2 (Z.leb_le _ _)) by lia.
Qed.

Lemma ztake_nonpos {A} (n : Z) (l : list A) : n <= 0 -> ztake n l = [].
Proof. intros Hn. unfold ztake. by replace (Z.to_nat n) with 0%nat by lia. Qed.

Lemma ztake_pos_cons {A} (n : Z) (x : A) (l : list A) : 0 < n -> ztake n (x :: l) = x :: ztake (n - 1) l.
Proof. intros Hn. unfold ztake. by replace (Z.to_nat n) with (S (Z.to_nat (n - 1))) by lia. Qed.

(** The headers of the records behind the first one are connected, up to the
    height 1120873. *)
Lemma load_records (hs : list btc_block_header) (db : btc_headers_db) (ht : Z) (fuel : nat) :
  Forall header_ok hs -> 0 <= ht -> ht + zlen hs < 2 ^ 32 -> (length hs < fuel)%nat ->
  load_loop fuel db false (records ht hs) = connect_all db (map header_bytes (ztake (1120874 - ht) hs)) true.
Proof.
  intros Hok. revert db ht fuel. induction Hok as [|x hs Hx Hok IH]; intros db ht [|fuel] Hht Hlim Hfuel; try (cbn in Hfuel; lia).
  { unfold ztake. by rewrite take_nil. }
  rewrite zlen_cons in Hlim. pose proof (zlen_nonneg hs). cbn [records load_loop].
  destruct (record_parts ht x Hx) as [Hl _]. set (r := record_bytes _) in *.
  replace (zlen (r ++ records (ht + 1) hs) <? 116) with false
    by (symmetry; apply Z.ltb_ge; rewrite zlen_app; pose proof (zlen_nonneg (records (ht + 1) hs)); lia).
  rewrite ztake_app_len, zdrop_app_len by lia. unfold r. destruct (decide (ht < 1120874)) as [Hlo|Hhi].
  - rewrite load_record_spec, ztake_pos_cons by (done || lia). cbn [connect_all map].
    destruct (btc_headers_db_connect_hdr db (header_bytes x) true) as [[[[db1 ?] ?] ?]|]; [|done]. cbn [mbind option_bind].
    rewrite IH by (lia || (cbn in Hfuel; lia)). do 3 f_equal. lia.
  - rewrite load_record_high by (done || lia). cbn [mbind option_bind]. rewrite IH by (lia || (cbn in Hfuel; lia)).
    by rewrite !ztake_nonpos by lia.
Qed.

Lemma linked_take (n : Z) (h : list Z) (hs : list btc_block_header) : linked h hs -> linked h (ztake n hs).
Proof.
  unfold ztake. generalize (Z.to_nat n) as k. intros k. revert h hs. induction k as [|k IH]; intros h [|x hs]; try done.
  intros (? & ? & ?). split_and!; [done|done|by apply IH].
Qed.

Lemma linked_ok (h : list Z) (hs : list btc_block_header) : linked h hs -> Forall header_ok hs.
Proof. revert h. induction hs as [|x hs IH]; intros h; [constructor|]. intros (? & _ & ?). constructor; [done|by eapply IH]. Qed.

Lemma records_zlen (hs : list btc_block_header) (ht : Z) : Forall header_ok hs -> zlen (records ht hs) = 116 * zlen hs.
Proof.
  intros Hok. revert ht. induction Hok as [|x hs Hx Hok IH]; intros ht; [done|]. cbn [records].
  destruct (record_parts ht x Hx) as [Hl _]. rewrite zlen_app, zlen_cons, Hl, IH. lia.
Qed.

(** C29: a chain of headers survives a restart.  If fewer than 1120874 headers
    that build on each other from the genesis block on are connected to a
    database with a new file, then loading that file into a new database gives
    the same height and the same hash of the tip, which are the length of the
    chain and the hash of its last header.  Of a longer chain (of fewer than 2^25
    headers, so that the size of the file fits 32 bits) only the first 1120873
    headers are reloaded: the code skips the records of greater heights. *)
Theorem headers_reload (g : list Z) (x : btc_block_header) (hs : list btc_block_header) :
  linked g (x :: hs) -> zlen (x :: hs) < 2 ^ 25 ->
  exists db0 db1 content db2 t1 t2,
    btc_headers_db_load (btc_headers_db_new g false) None = Some (true, db0) /\
    connect_all db0 (map header_bytes (x :: hs)) false = Some db1 /\ headers_tree_file db1 = Some content /\
    heap db1 !! chaintip db1 = Some t1 /\
    btc_headers_db_load (btc_headers_db_new g false) (Some content) = Some (true, db2) /\
    heap db2 !! chaintip db2 = Some t2 /\
    height t1 = zlen (x :: hs) /\ hash t1 = end_hash g (x :: hs) /\
    (zlen (x :: hs) < 1120874 -> height t2 = height t1 /\ hash t2 = hash t1) /\
    height t2 = Z.min (zlen (x :: hs)) 1120873 /\ hash t2 = end_hash g (ztake 1120873 (x :: hs)).
Proof.
  intros Hlk Hn. set (b0 := mk_blockindex 0 g btc_block_header_new None).
  set (db0 := with_file (btc_headers_db_new g false) (Some (file_hdr_magic ++ le_bytes 4 current_version))).
  pose proof (file_inv _ _ (headers_tree_file db0) (new_inv g false)) as I0. change (with_file _ _) with db0 in I0.
  destruct (connect_chain (x :: hs) db0 (-146) b0 false (file_hdr_magic ++ le_bytes 4 current_version) I0
    ltac:(apply lookup_singleton_eq) Hlk ltac:(cbn [height b0]; lia) ltac:(done)) as (db1 & fl1 & t1 & E1 & _ & Ht1 & Hh1 & Hs1 & Hf1).
  cbn [negb andb read_write_file db0 with_file btc_headers_db_new height b0] in *.
  set (content := (file_hdr_magic ++ le_bytes 4 current_version) ++ records (0 + 1) (x :: hs)) in *.
  pose proof (linked_ok _ _ Hlk) as Hoks. destruct Hlk as (Hx & Hp & Hlk). apply list.Forall_cons in Hoks as [_ Hoks].
  rewrite zlen_cons in *. pose proof (zlen_nonneg hs).
  set (n := mk_blockindex 1 (dsha (header_bytes x)) x None).
  set (db2 := with_file (btc_headers_db_new g false) (Some content)).
  pose proof (file_inv _ _ (Some content) (new_inv g false)) as I2. fold db2 in I2.
  pose proof (root_inv db2 (-146) n b0 false I2 ltac:(apply lookup_singleton_eq) ltac:(cbn; lia) eq_refl) as I3. cbv zeta in I3.
  set (db3 := add_db db2 n (headers_tree_file db2) false true) in *.
  set (kept := ztake (1120874 - 2) hs). assert (zlen kept = Z.min 1120872 (zlen hs)) as Hkept by (unfold kept; rewrite zlen_ztake; lia).
  destruct (connect_chain kept db3 (-146) n true [] I3 ltac:(apply lookup_insert_eq) (linked_take _ _ _ Hlk) ltac:(cbn [height n]; lia) ltac:(done))
    as (db4 & fl4 & t4 & E4 & _ & Ht4 & Hh4 & Hs4 & _).
  exists db0, db1, content, db4, t1, t4. rewrite ztake_pos_cons by lia. fold kept. split_and!; try done; [| |cbn [height n] in *; lia].
  2: { intros Hs. split; [cbn [height n] in *; lia|]. rewrite Hs1, Hs4. unfold kept. by rewrite ztake_all by lia. }
  unfold btc_headers_db_load. cbn [negb read_write_file btc_headers_db_new]. fold db2.
  assert (zlen content = 8 + 116 * (1 + zlen hs)) as Hcl.
  { unfold content. rewrite zlen_app, records_zlen by by constructor. rewrite zlen_cons. done. }
  assert (ztake 4 content = file_hdr_magic /\ zget content 4 = Some 1 /\ zdrop 8 content = records 1 (x :: hs)) as (-> & -> & ->) by done.
  rewrite wrap_small by lia. rewrite bool_decide_true by done.
  replace (zlen content <? 8) with false by (symmetry; apply Z.ltb_ge; lia). cbn [orb negb mbind option_bind].
  change (current_version <? 1) with false. cbv iota.
  assert (load_loop (S (length content)) db2 true (records 1 (x :: hs)) = Some db4) as ->; [|done].
  cbn [load_loop records]. destruct (record_parts 1 x Hx) as [Hl _]. fold n in Hl. fold n.
  replace (zlen (record_bytes n ++ records (1 + 1) hs) <? 116) with false
    by (symmetry; apply Z.ltb_ge; rewrite zlen_app; pose proof (zlen_nonneg (records (1 + 1) hs)); lia).
  rewrite ztake_app_len, zdrop_app_len by lia. unfold n at 1. rewrite load_record_spec by (done || lia). fold n. unfold alloc_index.
  cbn [mbind option_bind]. rewrite load_records; [exact E4|done|lia|lia|unfold zlen in *; lia].
Qed.

Lemma headers_reload_witness :
  let x := example_header (replicate 32 7) 1 in
  let y := example_header (dsha (header_bytes x)) 2 in
  exists db0 db1 content db2 t1 t2,
    btc_headers_db_load (btc_headers_db_new (replicate 32 7) false) None = Some (true, db0) /\
    connect_all db0 (map header_bytes [x; y]) false = Some db1 /\ headers_tree_file db1 = Some content /\
    heap db1 !! chaintip db1 = Some t1 /\
    btc_headers_db_load (btc_headers_db_new (replicate 32 7) false) (Some content) = Some (true, db2) /\
    heap db2 !! chaintip db2 = Some t2 /\
    height t1 = 2 /\ hash t1 = end_hash (replicate 32 7) [x; y] /\
    (zlen [x; y] < 1120874 -> height t2 = height t1 /\ hash t2 = hash t1) /\
    height t2 = Z.min (zlen [x; y]) 1120873 /\ hash t2 = end_hash (replicate 32 7) (ztake 1120873 [x; y]).
Proof.
  intros x y. apply (headers_reload (replicate 32 7) x [y]); [|done].
  assert (forall p k, zlen p = 32 -> is_bytes p -> 0 <= k < 100 -> header_ok (example_header p k)) as Hok.
  { intros p k Hl Hb Hk. repeat split; try done; cbn; try lia. by apply is_bytes_of. }
  assert (header_ok x) as Hx by (apply Hok; [done|by apply is_bytes_of|lia]).
  destruct (dsha_ok (header_bytes x)) as [Hl Hb].
  split_and!; [done|done|]. split_and!; [by apply Hok|done|done].
Defined.

(** Disconnecting the tip is not covered by these guarantees: with two headers
    kept in memory, a fork that starts at a header that was freed is followed to
    that header. *)
Definition small_db : btc_headers_db :=
  let db := btc_headers_db_new (replicate 32 7) true in
  mk_headers_db (heap db) (fresh db) (headers_tree_file db) (read_write_file db) (tree_root db) (use_binary_tree db) 1
    (chaintip db) (chainbottom db).

Definition block_hash (h : btc_block_header) : list Z := sha256_Raw (sha256_Raw (header_bytes h)).

Example disconnect_use_after_free :
  let a1 := example_header (replicate 32 7) 1 in
  let a2 := example_header (block_hash a1) 2 in
  let a3 := example_header (block_hash a2) 3 in
  let a4 := example_header (block_hash a3) 4 in
  let f2 := example_header (block_hash a1) 5 in
  let f3 := example_header (block_hash f2) 6 in
  (db ← connect_all small_db (map header_bytes [a1; a2; f2; a3; a4]) false;
   '(_, db) ← btc_headersdb_disconnect_tip db;
   '(_, db) ← btc_headersdb_disconnect_tip db;
   Some (btc_headers_db_connect_hdr db (header_bytes f3) false)) = Some None.
Proof. vm_compute. reflexivity. Qed.

(** Only the lowest byte of the file version is compared. *)
Example load_version_byte :
  fst <$> btc_headers_db_load (btc_headers_db_new [] false) (Some (file_hdr_magic ++ le_bytes 4 0x101)) = Some true.
Proof. vm_compute. reflexivity. Qed.
