(* ===== verification/LogRec.v ===== *)
(** * logdb_rec.c, logdb_memdb_llist.c: records and the linked list database

    Records are nodes of doubly linked lists on a heap, [None] is NULL.  Freed
    addresses are not given out again, so a use after free is an access outside
    of the heap and makes the function undefined ([None]).  Every list has a heap
    of its own: a record is linked into one list from its allocation to its
    release.  Keys and values are the contents of their byte strings. *)

From S2P Require Import Prelude.
From S2P Require Import Cstr.
From S2P Require Import Serialize.
From stdpp Require Import gmap.

Open Scope Z_scope.

(** ** Records *)

Definition RECORD_TYPE_WRITE : Z := 0.
Definition RECORD_TYPE_ERASE : Z := 1.

Record logdb_record := mk_record {
  key : list Z; value : option (list Z); next : option nat; prev : option nat; written : bool; mode : Z }.

Definition set_next (n : option nat) (r : logdb_record) : logdb_record := mk_record (key r) (value r) n (prev r) (written r) (mode r).
Definition set_prev (p : option nat) (r : logdb_record) : logdb_record := mk_record (key r) (value r) (next r) p (written r) (mode r).
Definition set_written (r : logdb_record) : logdb_record := mk_record (key r) (value r) (next r) (prev r) true (mode r).

Record heap := mk_heap { cells : gmap nat logdb_record; fresh : nat }.

Definition empty_heap : heap := mk_heap ∅ 0.
Definition alloc (h : heap) (r : logdb_record) : nat * heap := (fresh h, mk_heap (<[fresh h := r]> (cells h)) (S (fresh h))).
Definition modify (h : heap) (p : nat) (f : logdb_record -> logdb_record) : option heap :=
  r ← cells h !! p; Some (mk_heap (<[p := f r]> (cells h)) (fresh h)).

Definition logdb_record_new : logdb_record := mk_record [] (Some []) None None false RECORD_TYPE_WRITE.

Definition logdb_record_free (h : heap) (p : nat) : option heap :=
  _ ← cells h !! p; Some (mk_heap (delete p (cells h)) (fresh h)).

Definition logdb_record_set (r : logdb_record) (k : list Z) (val : option (list Z)) : logdb_record :=
  mk_record k val (next r) (prev r) (written r) (match val with Some _ => RECORD_TYPE_WRITE | None => RECORD_TYPE_ERASE end).

(** A record without value cannot be copied. *)
Definition logdb_record_copy (b : logdb_record) : option logdb_record :=
  v ← value b; Some (mk_record (key b) (Some v) None None (written b) (mode b)).

Definition logdb_record_ser (rec : logdb_record) (buf : cstring) : option cstring :=
  buf ← ser_bytes buf [mode rec];
  buf ← ser_varlen buf (u32 (zlen (key rec)));
  buf ← ser_bytes buf (key rec);
  if mode rec =? RECORD_TYPE_WRITE then
    v ← value rec;
    buf ← ser_varlen buf (u32 (zlen v));
    ser_bytes buf v
  else Some buf.

(** The loops follow [prev] and end at NULL; a list has at most [fresh] nodes. *)
Fixpoint height_loop (fuel : nat) (h : heap) (rec_loop : option nat) (cnt : Z) : option Z :=
  match rec_loop, fuel with
  | None, _ => Some cnt
  | Some p, S fuel => r ← cells h !! p; height_loop fuel h (prev r) (if mode r =? RECORD_TYPE_WRITE then cnt + 1 else cnt)
  | Some _, O => None
  end.

Definition logdb_record_height (h : heap) (head : option nat) : option Z := height_loop (fresh h) h head 0.

Fixpoint find_loop (fuel : nat) (h : heap) (rec : option nat) (k : list Z) : option (option (list Z)) :=
  match rec, fuel with
  | None, _ => Some None
  | Some p, S fuel =>
      r ← cells h !! p;
      if bool_decide (key r = k) then Some (if mode r =? RECORD_TYPE_ERASE then None else value r)
      else find_loop fuel h (prev r) k
  | Some _, O => None
  end.

Definition logdb_record_find_desc (h : heap) (head : option nat) (k : list Z) : option (option (list Z)) := find_loop (fresh h) h head k.

(** The body for a record with the key: it is unlinked and freed. *)
Definition unlink (h : heap) (p : nat) (r : logdb_record) : option heap :=
  h ← (match prev r with Some q => modify h q (set_next (next r)) | None => Some h end);
  h ← (match next r with
       | Some q => rq ← cells h !! q; match prev rq with Some _ => modify h q (set_prev (prev r)) | None => Some h end
       | None => Some h
       end);
  logdb_record_free h p.

Fixpoint rm_loop (fuel : nat) (h : heap) (usehead rec_loop rec_head : option nat) (k : list Z) : option (heap * option nat) :=
  match rec_loop, fuel with
  | None, _ => Some (h, rec_head)
  | Some p, S fuel =>
      r ← cells h !! p;
      let prev_rec := prev r in
      if bool_decide (key r = k) then
        let rec_head := if bool_decide (usehead = Some p) then prev r else rec_head in
        h ← unlink h p r;
        rm_loop fuel h usehead prev_rec rec_head k
      else rm_loop fuel h usehead prev_rec rec_head k
  | Some _, O => None
  end.

Definition logdb_record_rm_desc (h : heap) (usehead : option nat) (k : list Z) : option (heap * option nat) :=
  rm_loop (fresh h) h usehead usehead usehead k.

(** ** The linked list database *)

Record logdb_llist_db := mk_llist { lheap : heap; head : option nat }.

Definition logdb_llist_db_new : logdb_llist_db := mk_llist empty_heap None.

(** A new record is put in front of a list. *)
Definition push (l : logdb_llist_db) (r : logdb_record) : option (logdb_llist_db) :=
  let '(p, h) := alloc (lheap l) r in
  h ← (match head l with Some q => modify h q (set_next (Some p)) | None => Some h end);
  h ← modify h p (set_prev (head l));
  Some (mk_llist h (Some p)).

Definition logdb_llistdb_append (handle : logdb_llist_db) (load_phase : bool) (rec : logdb_record) : option logdb_llist_db :=
  if (mode rec =? RECORD_TYPE_ERASE) && bool_decide (is_Some (head handle)) then
    '(h, hd) ← logdb_record_rm_desc (lheap handle) (head handle) (key rec);
    Some (mk_llist h hd)
  else
    rec_dup ← logdb_record_copy rec;
    let current_db_head := head handle in
    handle ← push handle rec_dup;
    '(h, _) ← logdb_record_rm_desc (lheap handle) current_db_head (key rec_dup);
    Some (mk_llist h (head handle)).

Definition logdb_llistdb_find (handle : logdb_llist_db) (k : list Z) : option (option (list Z)) :=
  logdb_record_find_desc (lheap handle) (head handle) k.

Definition logdb_llistdb_size (handle : logdb_llist_db) : option Z := logdb_record_height (lheap handle) (head handle).

(** ** Linked lists

    [seg c nx p l q nx']: the records [l] are linked from [p], the first has the
    successor [nx]; the last has the predecessor [q], whose successor is [nx']. *)

Definition entry := (list Z * option (list Z) * bool * Z)%type.
Definition content (r : logdb_record) : entry := (key r, value r, written r, mode r).
Abbreviation ekey e := (e.1.1.1).
Abbreviation evalue e := (e.1.1.2).
Abbreviation emode e := (e.2).

Fixpoint seg (c : gmap nat logdb_record) (nx p : option nat) (l : list (nat * entry)) (q nx' : option nat) : Prop :=
  match l with
  | [] => p = q /\ nx = nx'
  | (x, e) :: l => p = Some x /\ exists r, c !! x = Some r /\ content r = e /\ next r = nx /\ seg c (Some x) (prev r) l q nx'
  end.

Record linked (h : heap) (p : option nat) (l : list (nat * entry)) : Prop := mk_linked {
  linked_seg : exists nx', seg (cells h) None p l None nx';
  linked_nodup : NoDup l.*1;
  linked_fresh : Forall (fun x => x < fresh h)%nat l.*1 }.

Lemma seg_app c nx p l1 l2 q nx' :
  seg c nx p (l1 ++ l2) q nx' <-> exists m nm, seg c nx p l1 m nm /\ seg c nm m l2 q nx'.
Proof.
  revert nx p. induction l1 as [|[x e] l1 IH]; intros nx p; cbn [seg app].
  - split; [intros H; by exists p, nx|]. by intros (m & nm & [-> ->] & H).
  - split.
    + intros (Hp & r & Hr & He & Hn & Hs). apply IH in Hs as (m & nm & H1 & H2). exists m, nm. split; [|exact H2]. split; [exact Hp|]. by exists r.
    + intros (m & nm & (Hp & r & Hr & He & Hn & H1) & H2). split; [exact Hp|]. exists r. split; [exact Hr|]. split; [exact He|]. split; [exact Hn|].
      apply IH. by exists m, nm.
Qed.

Lemma seg_det c nx p l q nq q' nq' : seg c nx p l q nq -> seg c nx p l q' nq' -> q = q' /\ nq = nq'.
Proof.
  revert nx p. induction l as [|[x e] l IH]; intros nx p; cbn [seg].
  - by intros [-> ->] [-> ->].
  - intros (_ & r & Hr & _ & _ & H1) (_ & r' & Hr' & _ & _ & H2). rewrite Hr in Hr'. injection Hr' as <-. by apply (IH (Some x) (prev r)).
Qed.

(** Cells outside of the list do not matter. *)
Lemma seg_ext c c' nx p l q nx' : (forall x, x ∈ l.*1 -> c' !! x = c !! x) -> seg c nx p l q nx' -> seg c' nx p l q nx'.
Proof.
  revert nx p. induction l as [|[x e] l IH]; intros nx p Hc; cbn [seg]; [done|]. intros (Hp & r & Hr & He & Hn & Hs).
  split; [exact Hp|]. exists r. rewrite Hc by (cbn; left). split; [exact Hr|]. split; [exact He|]. split; [exact Hn|].
  apply IH; [|exact Hs]. intros y Hy. apply Hc. cbn. by right.
Qed.

Lemma modify_ok (h : heap) (p : nat) (r : logdb_record) (f : logdb_record -> logdb_record) :
  cells h !! p = Some r -> modify h p f = Some (mk_heap (<[p := f r]> (cells h)) (fresh h)).
Proof. intros H. unfold modify. by rewrite H. Qed.

(** What an update of a heap leaves alone. *)
Definition same_but (l : list nat) (h h' : heap) : Prop := fresh h' = fresh h /\ forall x, x ∉ l -> cells h' !! x = cells h !! x.

(** The successor of the first record of a list. *)
Lemma relink_next (h : heap) (nx nx2 p : option nat) (l : list (nat * entry)) : forall nx', seg (cells h) nx p l None nx' -> NoDup l.*1 ->
  exists h' n2, match p with Some q => modify h q (set_next nx2) | None => Some h end = Some h' /\
    seg (cells h') nx2 p l None n2 /\ same_but l.*1 h h'.
Proof.
  intros nx' Hs Hd. destruct l as [|[x e] l].
  - cbn in Hs. destruct Hs as [-> _]. by exists h, nx2.
  - destruct Hs as (-> & r & Hr & He & Hn & Hs). apply NoDup_cons in Hd as [Hx Hd]. cbn in Hx. rewrite (modify_ok h x r) by exact Hr.
    eexists _, nx'. split; [reflexivity|]. split; [|split; [done|]; intros y Hy; cbn; apply lookup_insert_ne; intros ->; apply Hy; left].
    split; [done|]. exists (set_next nx2 r). cbn [cells]. rewrite lookup_insert_eq. split; [done|]. split; [exact He|]. split; [done|].
    apply (seg_ext (cells h)); [|exact Hs]. intros y Hy. apply lookup_insert_ne. by intros ->.
Qed.

(** The predecessor of the last record of a segment. *)
Lemma relink_prev (h : heap) (p : option nat) (l : list (nat * entry)) (x : nat) (nm m2 : option nat) :
  seg (cells h) None p l (Some x) nm -> NoDup l.*1 ->
  exists h', match nm with
    | Some q => rq ← cells h !! q; match prev rq with Some _ => modify h q (set_prev m2) | None => Some h end
    | None => Some h end = Some h' /\
    seg (cells h') None (match l with [] => m2 | _ => p end) l m2 nm /\ same_but l.*1 h h'.
Proof.
  intros Hs Hd. destruct l as [|[y e] l _] using rev_ind.
  - destruct Hs as [_ <-]. by exists h.
  - apply seg_app in Hs as (m & n1 & H1 & -> & r & Hr & He & Hn & [Hp <-]). rewrite Hr. cbn [mbind option_bind]. rewrite Hp.
    rewrite (modify_ok h y r) by exact Hr. eexists. split; [reflexivity|]. rewrite fmap_app in *. apply NoDup_app in Hd as (Hd & Hy & _). split.
    + replace (match l ++ [(y, e)] with [] => m2 | _ => p end) with p by by destruct l. apply seg_app. exists (Some y), n1. split.
      * apply (seg_ext (cells h)); [|exact H1]. intros z Hz. apply lookup_insert_ne. intros <-. apply (Hy y Hz). cbn. left.
      * split; [done|]. exists (set_prev m2 r). cbn [cells]. by rewrite lookup_insert_eq.
    + split; [done|]. intros z Hz. apply lookup_insert_ne. intros <-. apply Hz, elem_of_app. right. cbn. left.
Qed.

Lemma unlink_spec (h : heap) (p : option nat) (l1 l2 : list (nat * entry)) (x : nat) (e : entry) :
  linked h p (l1 ++ (x, e) :: l2) ->
  exists r h', cells h !! x = Some r /\ content r = e /\ (exists nm, seg (cells h) None p l1 (Some x) nm) /\
    (exists nx', seg (cells h) (Some x) (prev r) l2 None nx') /\ unlink h x r = Some h' /\
    linked h' (match l1 with [] => prev r | _ => p end) (l1 ++ l2) /\ fresh h' = fresh h /\
    (exists nx' nm, seg (cells h') nm (prev r) l2 None nx').
Proof.
  intros [[nx' Hs] Hd Hf]. apply seg_app in Hs as (m & nm & H1 & -> & r & Hr & He & Hn & H2).
  rewrite fmap_app in *. cbn [fmap list_fmap fst] in *. apply NoDup_app in Hd as (D1 & D12 & D2). apply NoDup_cons in D2 as [Hx D2].
  assert (x ∉ l1.*1) as Hx1 by (intros Hx1; apply (D12 x Hx1); left).
  destruct (relink_next h (Some x) (next r) (prev r) l2 nx' H2 D2) as (h1 & n2 & E1 & S2 & F1 & O1).
  assert (seg (cells h1) None p l1 (Some x) nm) as H1'.
  { apply (seg_ext (cells h)); [|exact H1]. intros y Hy. apply O1. intros Hy2. apply (D12 y Hy). by right. }
  destruct (relink_prev h1 p l1 x nm (prev r) H1' D1) as (h2 & E2 & S1 & F2 & O2).
  assert (cells h2 !! x = Some r) as Hr2 by by rewrite O2, O1.
  assert (seg (delete x (cells h2)) nm (prev r) l2 None n2) as S2'.
  { apply (seg_ext (cells h1)); [|by rewrite <- Hn]. intros y Hy. rewrite lookup_delete_ne by (intros ->; done). apply O2. intros Hy1. apply (D12 y Hy1). by right. }
  exists r, (mk_heap (delete x (cells h2)) (fresh h2)). split; [exact Hr|]. split; [exact He|]. split; [by exists nm|]. split; [by exists nx'|].
  split; [unfold unlink; rewrite E1; cbn [mbind option_bind]; rewrite Hn, E2; cbn [mbind option_bind]; unfold logdb_record_free; by rewrite Hr2|].
  split; [|split; [cbn; by rewrite F2|by exists n2, nm]]. apply Forall_app in Hf as [Hf1 Hf2]. apply list.Forall_cons in Hf2 as [_ Hf2].
  split; [exists n2; apply seg_app; exists (prev r), nm; split; [|exact S2']| |].
  - apply (seg_ext (cells h2)); [|exact S1]. intros y Hy. apply lookup_delete_ne. by intros ->.
  - rewrite fmap_app. apply NoDup_app. split; [exact D1|]. split; [|exact D2]. intros y Hy Hy2. apply (D12 y Hy). by right.
  - rewrite fmap_app. cbn [fresh]. rewrite F2, F1. by apply Forall_app.
Qed.

(** ** What the loops compute *)

(** No record from [p] on has the key. *)
Lemma rm_loop_skip (h : heap) (use rh : option nat) (k : list Z) (l : list (nat * entry)) : forall fuel nx p nx', seg (cells h) nx p l None nx' ->
  Forall (fun xe => ekey xe.2 <> k) l -> (length l <= fuel)%nat -> rm_loop fuel h use p rh k = Some (h, rh).
Proof.
  induction l as [|[x e] l IH]; intros fuel nx p nx' Hs Hk Hf.
  - destruct Hs as [-> _]. by destruct fuel.
  - destruct Hs as (-> & r & Hr & <- & Hn & Hs). apply list.Forall_cons in Hk as [Hk1 Hk]. destruct fuel as [|fuel]; [cbn in Hf; lia|]. cbn [rm_loop].
    rewrite Hr. cbn [mbind option_bind]. rewrite bool_decide_false by exact Hk1. apply (IH fuel _ _ nx' Hs Hk). cbn in Hf. lia.
Qed.

Lemma rm_loop_spec (h : heap) (p use rh : option nat) (k : list Z) (l1 la lb : list (nat * entry)) (x : nat) (e : entry) (fuel : nat) (m nm : option nat) :
  linked h p (l1 ++ la ++ (x, e) :: lb) -> seg (cells h) None p l1 m nm -> ekey e = k ->
  Forall (fun xe => ekey xe.2 <> k) la -> Forall (fun xe => ekey xe.2 <> k) lb -> (length (la ++ (x, e) :: lb) <= fuel)%nat ->
  exists h' r, rm_loop fuel h use m rh k = Some (h', if bool_decide (use = Some x) then prev r else rh) /\
    linked h' (match l1 ++ la with [] => prev r | _ => p end) (l1 ++ la ++ lb) /\ fresh h' = fresh h.
Proof.
  intros Hl Hm He Ha Hb. revert l1 m nm fuel Hl Hm. induction la as [|[y ey] la IH]; intros l1 m nm fuel Hl Hm Hf.
  - cbn [app] in *. destruct (unlink_spec h p l1 lb x e Hl) as (r & h' & Hr & Hc & (nm' & Hs1) & _ & Hu & Hl' & Hfr & (n2 & nm2 & Hs2)).
    destruct fuel as [|fuel]; [cbn in Hf; lia|].
    destruct (seg_det _ _ _ _ _ _ _ _ Hm Hs1) as [-> _].
    cbn [rm_loop]. rewrite Hr. cbn [mbind option_bind]. rewrite bool_decide_true by (by rewrite <- He, <- Hc). rewrite Hu. cbn [mbind option_bind].
    exists h', r. rewrite app_nil_r. split; [|by split]. apply (rm_loop_skip h' use _ k lb fuel nm2 (prev r) n2 Hs2 Hb). cbn in Hf. lia.
  - apply list.Forall_cons in Ha as [Hy Ha]. destruct fuel as [|fuel]; [cbn in Hf; lia|].
    assert (exists r, m = Some y /\ cells h !! y = Some r /\ content r = ey /\ seg (cells h) None p (l1 ++ [(y, ey)]) (prev r) (Some y)) as (r & -> & Hr & Hc & Hs).
    { destruct Hl as [[nx' Hs] _ _]. apply seg_app in Hs as (m' & nm' & H1 & -> & r & Hr & Hc & Hn & _). exists r.
      destruct (seg_det _ _ _ _ _ _ _ _ Hm H1) as [-> ->].
      split; [done|]. split; [exact Hr|]. split; [exact Hc|]. apply seg_app. exists (Some y), nm'. split; [exact Hm|]. split; [done|]. by exists r. }
    cbn [rm_loop]. rewrite Hr. cbn [mbind option_bind]. rewrite bool_decide_false by (intros E; apply Hy; by rewrite <- Hc).
    destruct (IH Ha (l1 ++ [(y, ey)]) (prev r) (Some y) fuel) as (h' & r' & E & Hl' & Hfr); [by rewrite <- app_assoc|exact Hs|cbn in Hf |- *; lia|].
    exists h', r'. split; [exact E|]. rewrite <- !app_assoc in Hl'. cbn [app] in Hl'. split; [|exact Hfr].
    replace (match l1 ++ (y, ey) :: la with [] => prev r' | _ => p end) with p by by destruct l1.
    by replace (match l1 ++ (y, ey) :: la with [] => prev r' | _ => p end) with p in Hl' by by destruct l1.
Qed.

(** The map a list stands for: an erased key may be marked by a record. *)
Fixpoint lmap (l : list (nat * entry)) : gmap (list Z) (list Z) :=
  match l with
  | [] => ∅
  | (_, e) :: l => if emode e =? RECORD_TYPE_ERASE then lmap l else match evalue e with Some v => <[ekey e := v]> (lmap l) | None => lmap l end
  end.

Definition keys (l : list (nat * entry)) : list (list Z) := (fun xe => ekey xe.2) <$> l.

(** A written record has a value. *)
Definition entry_ok (e : entry) : Prop := emode e = RECORD_TYPE_ERASE \/ (emode e = RECORD_TYPE_WRITE /\ is_Some (evalue e)).

Lemma lmap_none (l : list (nat * entry)) (k : list Z) : k ∉ keys l -> lmap l !! k = None.
Proof.
  induction l as [|[x e] l IH]; cbn [lmap keys fmap list_fmap]; [by rewrite lookup_empty|]. intros H. apply not_elem_of_cons in H as [Hk H].
  destruct (_ =? _); [by apply IH|]. destruct (evalue e); [|by apply IH]. rewrite lookup_insert_ne by (by intros <-). by apply IH.
Qed.

Lemma lmap_app (l1 l2 : list (nat * entry)) : lmap (l1 ++ l2) = lmap l1 ∪ lmap l2.
Proof.
  induction l1 as [|[x e] l1 IH]; cbn [lmap app]; [by rewrite (left_id_L ∅ _)|]. destruct (_ =? _); [exact IH|].
  destruct (evalue e); [|exact IH]. by rewrite IH, insert_union_l.
Qed.

Lemma record_find_spec (h : heap) (k : list Z) (l : list (nat * entry)) : forall fuel nx p nx', seg (cells h) nx p l None nx' -> NoDup (keys l) ->
  Forall (fun xe => entry_ok xe.2) l -> (length l <= fuel)%nat -> find_loop fuel h p k = Some (lmap l !! k).
Proof.
  induction l as [|[x e] l IH]; intros fuel nx p nx' Hs Hd Ho Hf.
  - destruct Hs as [-> _]. by destruct fuel.
  - destruct Hs as (-> & r & Hr & <- & Hn & Hs). apply NoDup_cons in Hd as [Hk Hd]. apply list.Forall_cons in Ho as [Ho1 Ho].
    destruct fuel as [|fuel]; [cbn in Hf; lia|]. cbn [find_loop lmap]. rewrite Hr. cbn [mbind option_bind]. cbn [content snd fst] in *.
    specialize (IH fuel _ _ _ Hs Hd Ho ltac:(cbn in Hf; lia)). unfold entry_ok in Ho1. cbn [content snd fst] in Ho1. case_bool_decide as Ek.
    + subst k. destruct (Z.eqb_spec (mode r) RECORD_TYPE_ERASE); [by rewrite (lmap_none l _ Hk)|].
      destruct Ho1 as [?|[_ [v ->]]]; [done|]. by rewrite lookup_insert_eq.
    + rewrite IH. destruct (Z.eqb_spec (mode r) RECORD_TYPE_ERASE); [done|]. destruct (value r); [|done]. by rewrite lookup_insert_ne.
Qed.

Lemma height_loop_spec (h : heap) (l : list (nat * entry)) : forall fuel nx p nx' cnt, seg (cells h) nx p l None nx' -> NoDup (keys l) ->
  Forall (fun xe => entry_ok xe.2) l -> (length l <= fuel)%nat -> height_loop fuel h p cnt = Some (cnt + Z.of_nat (size (lmap l))).
Proof.
  induction l as [|[x e] l IH]; intros fuel nx p nx' cnt Hs Hd Ho Hf.
  - destruct Hs as [-> _]. cbn [lmap]. rewrite map_size_empty, Z.add_0_r. by destruct fuel.
  - destruct Hs as (-> & r & Hr & <- & Hn & Hs). apply NoDup_cons in Hd as [Hk Hd]. apply list.Forall_cons in Ho as [Ho1 Ho].
    destruct fuel as [|fuel]; [cbn in Hf; lia|]. cbn [height_loop lmap]. rewrite Hr. cbn [mbind option_bind]. cbn [content snd fst] in *.
    erewrite IH by (done || (cbn in Hf; lia)). f_equal. destruct Ho1 as [E|[E [v Ev]]]; cbn [content snd fst] in E.
    + by rewrite E.
    + cbn [content snd fst] in Ev. rewrite E, Ev. cbn. rewrite map_size_insert_None by apply lmap_none, Hk. lia.
Qed.

Lemma linked_length (h : heap) (p : option nat) (l : list (nat * entry)) : linked h p l -> (length l <= fresh h)%nat.
Proof.
  intros [_ Hd Hf]. rewrite <- (length_fmap fst l). transitivity (length (seq 0 (fresh h))); [|by rewrite length_seq].
  apply NoDup_incl_length; [by apply NoDup_ListNoDup|]. intros x Hx. apply in_seq. rewrite list.Forall_forall in Hf.
  specialize (Hf x ltac:(by apply list_elem_of_In)). lia.
Qed.

(** A record in front of a list. *)
Lemma push_spec (d : logdb_llist_db) (l : list (nat * entry)) (r : logdb_record) : linked (lheap d) (head d) l -> next r = None ->
  exists d' x, push d r = Some d' /\ linked (lheap d') (head d') ((x, content r) :: l) /\ head d' = Some x /\
    (exists nm, seg (cells (lheap d')) None (head d') [(x, content r)] (head d) nm) /\ fresh (lheap d') = S (fresh (lheap d)).
Proof.
  intros [[nx' Hs] Hd Hf] Hn. unfold push, alloc. set (x := fresh (lheap d)). set (h := mk_heap (<[x := r]> (cells (lheap d))) (S x)).
  assert (x ∉ l.*1) as Hx. { intros Hx. rewrite list.Forall_forall in Hf. specialize (Hf x Hx). unfold x in Hf. lia. }
  assert (seg (cells h) None (head d) l None nx') as Hs'. { apply (seg_ext (cells (lheap d))); [|exact Hs]. intros y Hy. apply lookup_insert_ne. by intros ->. }
  destruct (relink_next h None (Some x) (head d) l nx' Hs' Hd) as (h1 & n2 & -> & S2 & F1 & O1). cbn [mbind option_bind].
  assert (cells h1 !! x = Some r) as Hr by (rewrite O1 by exact Hx; apply lookup_insert_eq).
  rewrite (modify_ok h1 x r) by exact Hr. cbn [mbind option_bind]. eexists _, x. split; [reflexivity|]. cbn [lheap head cells fresh].
  assert (seg (<[x := set_prev (head d) r]> (cells h1)) (Some x) (head d) l None n2) as S3.
  { apply (seg_ext (cells h1)); [|exact S2]. intros y Hy. apply lookup_insert_ne. by intros ->. }
  assert (forall q nq, seg (<[x := set_prev (head d) r]> (cells h1)) (Some x) (head d) [] q nq -> seg (<[x := set_prev (head d) r]> (cells h1)) None (Some x) [(x, content r)] q nq) as Hone.
  { intros q nq Hq. split; [done|]. exists (set_prev (head d) r). rewrite lookup_insert_eq. split; [done|]. split; [done|]. split; [exact Hn|exact Hq]. }
  split; [split|split; [done|split; [|by rewrite F1]]].
  - exists n2. apply (seg_app _ _ _ [(x, content r)]). exists (head d), (Some x). split; [by apply Hone|exact S3].
  - apply NoDup_cons. by split.
  - cbn [fmap list_fmap fst lheap fresh]. rewrite F1. apply list.Forall_cons. split; [unfold x, h; cbn; lia|]. apply (list.Forall_impl _ _ _ Hf). intros y Hy. cbn. unfold x. lia.
  - exists (Some x). by apply Hone.
Qed.

(** ** The interface of the memory mappers

    [struct logdb_memmapper]: the core calls the database in memory through four
    functions.  What it relies on is that they implement a map. *)

Class memmapper (S : Type) := {
  init_cb : S;
  append_cb : S -> bool -> logdb_record -> option S;
  find_cb : S -> list Z -> option (option (list Z));
  size_cb : S -> option Z }.

(** A key may be erased from an empty map only by a record with a value. *)
Class memmapper_laws (S : Type) {M : memmapper S} := {
  map_rep : S -> gmap (list Z) (list Z) -> Prop;
  init_law : map_rep init_cb ∅;
  write_law s m b r v : map_rep s m -> mode r = RECORD_TYPE_WRITE -> value r = Some v ->
    exists s', append_cb s b r = Some s' /\ map_rep s' (<[key r := v]> m);
  erase_law s m b r : map_rep s m -> mode r = RECORD_TYPE_ERASE -> m <> ∅ \/ is_Some (value r) ->
    exists s', append_cb s b r = Some s' /\ map_rep s' (delete (key r) m);
  find_law s m k : map_rep s m -> find_cb s k = Some (m !! k);
  size_law s m : map_rep s m -> size_cb s = Some (Z.of_nat (size m)) }.

#[export] Instance logdb_llistdb_mapper : memmapper logdb_llist_db := {|
  init_cb := logdb_llist_db_new; append_cb := logdb_llistdb_append; find_cb := logdb_llistdb_find; size_cb := logdb_llistdb_size |}.

(** The list holds every key once. *)
Record llist_holds (d : logdb_llist_db) (l : list (nat * entry)) : Prop := mk_holds {
  holds_linked : linked (lheap d) (head d) l;
  holds_keys : NoDup (keys l);
  holds_entries : Forall (fun xe => entry_ok xe.2) l }.

Lemma keys_app (l1 l2 : list (nat * entry)) : keys (l1 ++ l2) = keys l1 ++ keys l2.
Proof. apply fmap_app. Qed.

Lemma keys_other (l : list (nat * entry)) (k : list Z) : k ∉ keys l -> Forall (fun xe => ekey xe.2 <> k) l.
Proof. intros H. apply list.Forall_forall. intros xe Hxe <-. apply H. unfold keys. by apply (list_elem_of_fmap_2 (fun xe => ekey xe.2)). Qed.

(** A list with distinct keys at the record of a key. *)
Lemma split_key (l : list (nat * entry)) (k : list Z) : NoDup (keys l) -> k ∈ keys l ->
  exists la x e lb, l = la ++ (x, e) :: lb /\ ekey e = k /\ (k ∉ keys (la ++ lb)) /\ NoDup (keys (la ++ lb)).
Proof.
  intros Hd Hk. unfold keys in Hk. apply list_elem_of_fmap in Hk as ([x e] & -> & He). apply list_elem_of_split in He as (la & lb & ->).
  exists la, x, e, lb. split; [done|]. split; [done|]. rewrite keys_app in *. cbn [keys fmap list_fmap] in Hd. fold (keys lb) in Hd.
  apply NoDup_app in Hd as (Ha & Hab & Hb). apply NoDup_cons in Hb as [Hx Hb]. cbn [fst snd] in *. split.
  - intros H. apply elem_of_app in H as [H|H]; [|done]. apply (Hab _ H). left.
  - apply NoDup_app. split; [exact Ha|]. split; [|exact Hb]. intros y Hy Hy2. apply (Hab y Hy). by right.
Qed.

Lemma lmap_delete (la lb : list (nat * entry)) (x : nat) (e : entry) : ekey e ∉ keys (la ++ lb) -> lmap (la ++ lb) = delete (ekey e) (lmap (la ++ (x, e) :: lb)).
Proof.
  intros H. apply map_eq. intros k. destruct (decide (k = ekey e)) as [->|Hk]; [by rewrite lookup_delete_eq, lmap_none|].
  rewrite lookup_delete_ne, !lmap_app, !lookup_union by done. f_equal. cbn [lmap]. destruct (_ =? _); [done|]. destruct (evalue e); [|done].
  by rewrite lookup_insert_ne.
Qed.

(** Erasing from a list, under a record that stays on top of it or not. *)
Lemma rm_desc_spec (h : heap) (p use : option nat) (top l : list (nat * entry)) (k : list Z) (nm : option nat) : linked h p (top ++ l) ->
  seg (cells h) None p top use nm -> NoDup (keys l) -> Forall (fun xe => entry_ok xe.2) l ->
  exists h' hd l', logdb_record_rm_desc h use k = Some (h', hd) /\ linked h' (match top with [] => hd | _ => p end) (top ++ l') /\
    NoDup (keys l') /\ Forall (fun xe => entry_ok xe.2) l' /\ (k ∉ keys l') /\ lmap l' = delete k (lmap l).
Proof.
  intros Hl Hs Hd Ho. pose proof (linked_length h p _ Hl) as Hlen. rewrite length_app in Hlen. unfold logdb_record_rm_desc.
  destruct (decide (k ∈ keys l)) as [Hk|Hk].
  - destruct (split_key l k Hd Hk) as (la & x & e & lb & -> & He & Hn & Hd'). rewrite keys_app in Hn. apply not_elem_of_app in Hn as [Ha Hb].
    destruct (rm_loop_spec h p use use k top la lb x e (fresh h) use nm Hl Hs He) as (h' & r & E & Hl' & Hf);
      [by apply keys_other|by apply keys_other|lia|].
    eexists h', _, (la ++ lb). split; [exact E|]. split; [|split; [exact Hd'|split; [|split; [by rewrite keys_app; apply not_elem_of_app|]]]].
    + destruct top as [|t top]; [|exact Hl']. destruct Hs as [<- _]. cbn [app] in *. destruct Hl as [[nx' Hs] Hnd _].
      replace (if bool_decide (p = Some x) then prev r else p) with (match la with [] => prev r | _ => p end); [exact Hl'|].
      destruct la as [|[y ey] la]; cbn [app] in Hs; destruct Hs as (-> & _); [by rewrite bool_decide_true|].
      rewrite bool_decide_false; [done|]. intros [= ->]. cbn in Hnd. apply NoDup_cons in Hnd as [Hnd _]. apply Hnd. rewrite fmap_app. apply elem_of_app. right. cbn. left.
    + apply Forall_app in Ho as [Ho1 Ho2]. apply list.Forall_cons in Ho2 as [_ Ho2]. by apply Forall_app.
    + rewrite <- He. apply lmap_delete. rewrite keys_app, He. by apply not_elem_of_app.
  - destruct Hl as [[nx' Hss] H2 H3]. pose proof Hss as Hss'. apply seg_app in Hss as (m & nm' & H1 & Hl2). destruct (seg_det _ _ _ _ _ _ _ _ Hs H1) as [-> ->].
    exists h, m, l. rewrite (rm_loop_skip h m m k l (fresh h) nm' m nx' Hl2 (keys_other l k Hk)) by lia. split; [done|].
    split; [|split; [exact Hd|split; [exact Ho|split; [exact Hk|]]]].
    + destruct top; [destruct H1 as [-> _]|]; by split; [exists nx'| |].
    + symmetry. apply delete_id, lmap_none, Hk.
Qed.

Lemma llist_insert (d : logdb_llist_db) (l : list (nat * entry)) (b : bool) (r : logdb_record) (v : list Z) : llist_holds d l -> value r = Some v ->
  (mode r = RECORD_TYPE_WRITE \/ (mode r = RECORD_TYPE_ERASE /\ head d = None)) ->
  exists d' l', logdb_llistdb_append d b r = Some d' /\ llist_holds d' l' /\
    lmap l' = (if mode r =? RECORD_TYPE_ERASE then delete (key r) (lmap l) else <[key r := v]> (lmap l)).
Proof.
  intros [Hl Hd Ho] Hv Hm. unfold logdb_llistdb_append. replace ((mode r =? RECORD_TYPE_ERASE) && bool_decide (is_Some (head d))) with false.
  2: { symmetry. destruct Hm as [->|[-> ->]]; [done|]. by rewrite bool_decide_false by (by intros [? ?]). }
  unfold logdb_record_copy. rewrite Hv. cbn [mbind option_bind].
  destruct (push_spec d l (mk_record (key r) (Some v) None None (written r) (mode r)) Hl eq_refl) as (d1 & x & -> & Hl1 & Hh & (nm & Hs1) & _). cbn [mbind option_bind].
  destruct (rm_desc_spec (lheap d1) (head d1) (head d) [(x, content (mk_record (key r) (Some v) None None (written r) (mode r)))] l (key r) nm Hl1 Hs1 Hd Ho)
    as (h' & hd & l' & E & Hl2 & Hd' & Ho' & Hk' & Em).
  cbn [key]. rewrite E. cbn [mbind option_bind]. eexists _, ((x, _) :: l'). split; [reflexivity|]. split.
  - split; [exact Hl2| |].
    + cbn [keys fmap list_fmap]. apply NoDup_cons. by split.
    + apply list.Forall_cons. split; [|exact Ho']. cbn. destruct Hm as [Hm|[Hm _]]; [right; cbn; eauto|by left].
  - cbn [lmap content fst snd mode key value]. rewrite Em. destruct (_ =? _); [done|]. by rewrite insert_delete_eq.
Qed.

(** The linked list implements a map. *)
#[export] Program Instance llist_laws : memmapper_laws logdb_llist_db := {|
  map_rep d m := (exists l, llist_holds d l /\ m = lmap l) |}.
Next Obligation. exists []. split; [|done]. split; [|apply NoDup_nil_2|constructor]. split; [by exists None|apply NoDup_nil_2|constructor]. Qed.
Next Obligation.
  intros d m b r v (l & Hl & ->) Hm Hv. destruct (llist_insert d l b r v Hl Hv (or_introl Hm)) as (d' & l' & E & H & Em).
  exists d'. split; [exact E|]. exists l'. split; [exact H|]. by rewrite Em, Hm.
Qed.
Next Obligation.
  intros d m b r (l & Hl & ->) Hm Hne. destruct (head d) as [q|] eqn:Eh.
  - destruct Hl as [Hl Hd Ho]. destruct (rm_desc_spec (lheap d) (head d) (head d) [] l (key r) None Hl ltac:(done) Hd Ho) as (h' & hd & l' & E & Hl' & Hd' & Ho' & _ & Em).
    exists (mk_llist h' hd). cbn [append_cb logdb_llistdb_mapper]. unfold logdb_llistdb_append. rewrite Hm, Eh. cbn [Z.eqb RECORD_TYPE_ERASE Pos.eqb].
    rewrite bool_decide_true by eauto. cbn [andb]. rewrite <- Eh, E. split; [done|]. exists l'. split; [by split|done].
  - destruct Hne as [Hne|[v Hv]].
    + exfalso. apply Hne. destruct Hl as [[[nx' Hs] _ _] _ _]. destruct l as [|[x e] l]; [done|]. destruct Hs as [Hs _]. congruence.
    + destruct (llist_insert d l b r v Hl Hv (or_intror (conj Hm Eh))) as (d' & l' & E & H & Em).
      exists d'. split; [exact E|]. exists l'. split; [exact H|]. by rewrite Em, Hm.
Qed.
Next Obligation.
  intros d m k (l & [Hl Hd Ho] & ->). pose proof (linked_length _ _ _ Hl) as Hlen. destruct Hl as [[nx' Hs] _ _].
  by apply (record_find_spec (lheap d) k l _ None (head d) nx').
Qed.
Next Obligation.
  intros d m (l & [Hl Hd Ho] & ->). pose proof (linked_length _ _ _ Hl) as Hlen. destruct Hl as [[nx' Hs] _ _].
  by apply (height_loop_spec (lheap d) l _ None (head d) nx' 0).
Qed.

(** Erasing from an empty list copies the record, which has no value. *)
Example delete_from_empty (k : list Z) : logdb_llistdb_append logdb_llist_db_new false (logdb_record_set logdb_record_new k None) = None.
Proof. reflexivity. Qed.
