(* ===== verification/LogDb.v ===== *)
(** * logdb_core.c: the log file database

    A database is a file of records, a cache of records that are not written
    yet, and a map in memory that is reached through the interface [memmapper].
    Every record in the file carries a checksum of all records up to it.  A
    stream is the bytes before and after its position; [fwrite] does not fail
    and its calls inside of [assert] are made.  [None] is undefined behaviour. *)

From stdpp Require Import gmap.
From S2P Require Import Prelude.
From S2P Require Import Cstr.
From S2P Require Import Serialize.
From S2P Require Import Sha2.
From S2P Require Import Sha2Spec.
From S2P Require Import Tx.
From S2P Require Import LogRec.

Open Scope Z_scope.

(** ** Streams *)

Record FILE := mk_FILE { before : list Z; rest : list Z; append_only : bool }.

Definition contents (f : FILE) : list Z := before f ++ rest f.

Definition fwrite (data : list Z) (f : FILE) : FILE :=
  if append_only f then mk_FILE (before f ++ rest f ++ data) [] true
  else mk_FILE (before f ++ data) (zdrop (zlen data) (rest f)) false.

(** The position in front of the last bytes [r] of what was left; the end of the
    file after a short read. *)
Definition advance (f : FILE) (r : list Z) : FILE := mk_FILE (before f ++ ztake (zlen (rest f) - zlen r) (rest f)) r (append_only f).

(** ** The database *)

Definition kLOGDB_DEFAULT_HASH_LEN : Z := 16.
Definition kLOGDB_DEFAULT_VERSION : Z := 1.
Definition file_hdr_magic : list Z := [0xF9; 0xAA; 0x03; 0xBA].
Definition record_magic : list Z := [0x88; 0x61; 0xAD; 0xFC; 0x5A; 0x11; 0x22; 0xF8].

Inductive logdb_error :=
  | LOGDB_SUCCESS | LOGDB_ERROR_UNKNOWN | LOGDB_ERROR_FOPEN_FAILED | LOGDB_ERROR_WRONG_FILE_FORMAT
  | LOGDB_ERROR_DATASTREAM_ERROR | LOGDB_ERROR_CHECKSUM | LOGDB_ERROR_FILE_ALREADY_OPEN.

Abbreviation SHA256_CTX := (@CTX sha256).

Section Core.

Context {S : Type} {M : memmapper S}.

(** [cb_ctx] is [None] when there is no memory mapper. *)
Record logdb_log_db := mk_db {
  file : option FILE; cb_ctx : option S; cache : logdb_llist_db; hashctx : SHA256_CTX; hashlen : Z; version : Z; support_flags : Z }.

Definition set_file (f : option FILE) (db : logdb_log_db) : logdb_log_db :=
  mk_db f (cb_ctx db) (cache db) (hashctx db) (hashlen db) (version db) (support_flags db).
Definition set_ctx (s : option S) (db : logdb_log_db) : logdb_log_db :=
  mk_db (file db) s (cache db) (hashctx db) (hashlen db) (version db) (support_flags db).
Definition set_cache (c : logdb_llist_db) (db : logdb_log_db) : logdb_log_db :=
  mk_db (file db) (cb_ctx db) c (hashctx db) (hashlen db) (version db) (support_flags db).
Definition set_hashctx (c : SHA256_CTX) (db : logdb_log_db) : logdb_log_db :=
  mk_db (file db) (cb_ctx db) (cache db) c (hashlen db) (version db) (support_flags db).
Definition set_version (v : Z) (db : logdb_log_db) : logdb_log_db :=
  mk_db (file db) (cb_ctx db) (cache db) (hashctx db) (hashlen db) v (support_flags db).
Definition set_support_flags (v : Z) (db : logdb_log_db) : logdb_log_db :=
  mk_db (file db) (cb_ctx db) (cache db) (hashctx db) (hashlen db) (version db) v.

Definition logdb_new_internal : logdb_log_db :=
  mk_db None None logdb_llist_db_new sha256_Init kLOGDB_DEFAULT_HASH_LEN kLOGDB_DEFAULT_VERSION 0.
Definition logdb_set_memmapper (db : logdb_log_db) : logdb_log_db := set_ctx (Some init_cb) db.
Definition logdb_new : logdb_log_db := logdb_set_memmapper logdb_new_internal.

(** A transaction is a list of records. *)
Definition logdb_txn_new : logdb_llist_db := logdb_llist_db_new.

Definition mem_append (db : logdb_log_db) (load_phase : bool) (rec : logdb_record) : option logdb_log_db :=
  match cb_ctx db with Some s => s ← append_cb s load_phase rec; Some (set_ctx (Some s) db) | None => Some db end.

(** *** Writing *)

Definition logdb_write_record (db : logdb_log_db) (rec : logdb_record) : option logdb_log_db :=
  let ctx := hashctx db in
  serbuf ← new_sz 1024;
  serbuf ← logdb_record_ser rec serbuf;
  body ← cstr_bytes serbuf;
  let hash := sha256_Raw body in
  f ← file db;
  let f := fwrite record_magic f in
  let ctx := sha256_Update ctx record_magic in
  let f := fwrite (ztake (hashlen db) hash) f in
  let ctx := sha256_Update ctx (ztake (hashlen db) hash) in
  let f := fwrite body f in
  let ctx := sha256_Update ctx body in
  let f := fwrite (ztake (hashlen db) hash) f in
  let ctx := sha256_Update ctx (ztake (hashlen db) hash) in
  let '(hash, _) := sha256_Final ctx in
  let f := fwrite (ztake (hashlen db) hash) f in
  Some (set_hashctx ctx (set_file (Some f) db)).

(** The deepest record that is not written. *)
Fixpoint deepest_loop (fuel : nat) (h : heap) (flush_rec : option nat) : option (option nat) :=
  match flush_rec, fuel with
  | None, _ => Some None
  | Some p, Datatypes.S fuel =>
      r ← cells h !! p;
      if written r then Some (next r) else
      match prev r with Some q => deepest_loop fuel h (Some q) | None => Some (Some p) end
  | Some _, O => None
  end.

Fixpoint write_loop (fuel : nat) (db : logdb_log_db) (flush_rec : option nat) : option logdb_log_db :=
  match flush_rec, fuel with
  | None, _ => Some db
  | Some p, Datatypes.S fuel =>
      r ← cells (lheap (cache db)) !! p;
      db ← logdb_write_record db r;
      h ← modify (lheap (cache db)) p set_written;
      write_loop fuel (set_cache (mk_llist h (head (cache db))) db) (next r)
  | Some _, O => None
  end.

Fixpoint free_loop (fuel : nat) (h : heap) (rec : option nat) : option heap :=
  match rec, fuel with
  | None, _ => Some h
  | Some p, Datatypes.S fuel => r ← cells h !! p; h ← logdb_record_free h p; free_loop fuel h (prev r)
  | Some _, O => None
  end.

Definition logdb_free_cachelist (db : logdb_log_db) : option logdb_log_db :=
  h ← free_loop (fresh (lheap (cache db))) (lheap (cache db)) (head (cache db));
  Some (set_cache (mk_llist h None) db).

Definition logdb_flush (db : logdb_log_db) : option (bool * logdb_log_db) :=
  match file db with
  | None => Some (false, db)
  | Some _ =>
      let n := fresh (lheap (cache db)) in
      flush_rec ← deepest_loop n (lheap (cache db)) (head (cache db));
      db ← write_loop n db flush_rec;
      db ← logdb_free_cachelist db;
      Some (true, db)
  end.

Definition logdb_append (db : logdb_log_db) (txn : option logdb_llist_db) (k : list Z) (val : option (list Z)) :
    option (logdb_log_db * option logdb_llist_db) :=
  let rec := logdb_record_set logdb_record_new k val in
  match txn with
  | Some txn => txn ← push txn rec; Some (db, Some txn)
  | None =>
      c ← push (cache db) rec;
      p ← head c; rec ← cells (lheap c) !! p;
      db ← mem_append (set_cache c db) false rec;
      Some (db, None)
  end.

Definition logdb_delete (db : logdb_log_db) (txn : option logdb_llist_db) (k : list Z) : option (logdb_log_db * option logdb_llist_db) :=
  logdb_append db txn k None.

(** The first record of a transaction. *)
Fixpoint first_loop (fuel : nat) (h : heap) (work_head : option nat) : option (option nat) :=
  match work_head, fuel with
  | None, _ => Some None
  | Some p, Datatypes.S fuel =>
      r ← cells h !! p;
      match prev r with Some q => first_loop fuel h (Some q) | None => Some (Some p) end
  | Some _, O => None
  end.

Fixpoint commit_loop (fuel : nat) (db : logdb_log_db) (h : heap) (work_head : option nat) : option logdb_log_db :=
  match work_head, fuel with
  | None, _ => Some db
  | Some p, Datatypes.S fuel =>
      r ← cells h !! p;
      '(db, _) ← logdb_append db None (key r) (value r);
      commit_loop fuel db h (next r)
  | Some _, O => None
  end.

Definition logdb_txn_commit (db : logdb_log_db) (txn : logdb_llist_db) : option logdb_log_db :=
  let n := fresh (lheap txn) in
  work_head ← first_loop n (lheap txn) (head txn);
  commit_loop n db (lheap txn) work_head.

(** *** Finding *)

Definition logdb_find_cache (db : logdb_log_db) (k : list Z) : option (option (list Z)) :=
  logdb_record_find_desc (lheap (cache db)) (head (cache db)) k.
Definition logdb_find (db : logdb_log_db) (k : list Z) : option (option (list Z)) :=
  match cb_ctx db with Some s => find_cb s k | None => Some None end.
Definition logdb_count_keys (db : logdb_log_db) : option Z :=
  match cb_ctx db with Some s => size_cb s | None => Some 0 end.
Definition logdb_cache_size (db : logdb_log_db) : option Z := logdb_record_height (lheap (cache db)) (head (cache db)).

(** *** Reading *)

(** A length and the bytes that encode it, read into a buffer of four. *)
Definition read_varlen (file : list Z) : outcome (Z * list Z * list Z) :=
  '(len, file, raw, buflen) ← deser_varlen_file file (replicate 4 None) 4;
  raw ← total (cells_val (ztake buflen raw));
  Ret (len, raw, file).

(** From the checksum in front of the body to the one behind it. *)
Definition read_fields (hashlen : Z) (ctx : SHA256_CTX) (file : list Z) (rec : logdb_record) : outcome (logdb_record * SHA256_CTX * list Z) :=
  '(hashcheck, file) ← fread file hashlen;
  let ctx := sha256_Update ctx hashcheck in
  '(m, file) ← fread file 1;
  let ctx := sha256_Update ctx m in
  let mode := le_val m in
  '(len, readbuf, file) ← read_varlen file;
  let ctx := sha256_Update ctx readbuf in
  '(k, file) ← fread file len;
  let ctx := sha256_Update ctx k in
  '(v, ctx, file) ← (if mode =? RECORD_TYPE_WRITE then
      _ ← total (value rec);
      '(len, readbuf, file) ← read_varlen file;
      let ctx := sha256_Update ctx readbuf in
      '(v, file) ← fread file len;
      Ret (Some v, sha256_Update ctx v, file)
    else Ret (value rec, ctx, file));
  '(hashcheck, file) ← fread file hashlen;
  let ctx := sha256_Update ctx hashcheck in
  Ret (mk_record k v (next rec) (prev rec) (written rec) mode, ctx, file).

(** The result, the error, the record and the database.  The caller releases a
    record that was read in part. *)
Definition logdb_record_deser_from_file (rec : logdb_record) (db : logdb_log_db) : option (bool * logdb_error * logdb_record * logdb_log_db) :=
  f ← file db;
  let at_ r := set_file (Some (advance f r)) db in
  match fread (rest f) 8 with
  | Ret (magic_buf, r) =>
      let ctx := sha256_Update (hashctx db) magic_buf in
      match read_fields (hashlen db) ctx r rec with
      | Undef => None
      | Fail => Some (false, LOGDB_ERROR_DATASTREAM_ERROR, rec, at_ [])
      | Ret (rec, ctx, r) =>
          let '(hashcheck, _) := sha256_Final ctx in
          match fread r (hashlen db) with
          | Ret (check, r) =>
              if bool_decide (ztake (hashlen db) hashcheck = check) then Some (true, LOGDB_SUCCESS, set_written rec, set_hashctx ctx (at_ r))
              else Some (false, LOGDB_ERROR_CHECKSUM, rec, at_ r)
          | _ => Some (false, LOGDB_ERROR_DATASTREAM_ERROR, rec, at_ [])
          end
      end
  | _ => Some (false, LOGDB_SUCCESS, rec, at_ [])
  end.

(** Every turn reads at least the eight bytes of the magic. *)
Fixpoint load_loop (fuel : nat) (rec : logdb_record) (handle : logdb_log_db) : option (logdb_error * logdb_log_db) :=
  match fuel with
  | O => None
  | Datatypes.S fuel =>
      '(more, record_error, rec, handle) ← logdb_record_deser_from_file rec handle;
      if (more : bool) then
        handle ← mem_append handle true rec;
        load_loop fuel rec handle
      else Some (record_error, handle)
  end.

(** [opened]: what [fopen] finds in the file, if it can open it. *)
Definition logdb_load (handle : logdb_log_db) (opened : option (list Z)) (create : bool) : option (bool * logdb_error * logdb_log_db) :=
  match opened with
  | None => Some (false, LOGDB_ERROR_FOPEN_FAILED, set_file None handle)
  | Some data =>
      if create then
        let f := fwrite file_hdr_magic (mk_FILE data [] true) in
        let f := fwrite (le_bytes 4 (version handle)) f in
        let f := fwrite (le_bytes 4 (support_flags handle)) f in
        Some (true, LOGDB_SUCCESS, set_file (Some f) handle)
      else
        let f := mk_FILE [] data false in
        let wrong handle := Some (false, LOGDB_ERROR_WRONG_FILE_FORMAT, handle) in
        match fread (rest f) 4 with
        | Ret (buf, r) =>
            if negb (bool_decide (buf = file_hdr_magic)) then wrong (set_file (Some (advance f r)) handle) else
            match fread r 4 with
            | Ret (v, r) =>
                let handle := set_version (le_val v) handle in
                match fread r 4 with
                | Ret (v, r) =>
                    let handle := set_support_flags (le_val v) (set_file (Some (advance f r)) handle) in
                    '(record_error, handle) ← load_loop (Datatypes.S (length data)) logdb_record_new handle;
                    match record_error with
                    | LOGDB_SUCCESS => Some (true, LOGDB_SUCCESS, handle)
                    | e => Some (false, e, handle)
                    end
                | _ => wrong (set_file (Some (advance f [])) handle)
                end
            | _ => wrong (set_file (Some (advance f [])) handle)
            end
        | _ => wrong (set_file (Some (advance f [])) handle)
        end
  end.

End Core.

Arguments logdb_log_db : clear implicits.
