(* ===== verification/LogDbSpec.v ===== *)
(** * logdb: durability of the log file database

    The layout of the file, that what is written is read back, that the database
    is a map over any number of sessions, and what a torn file loads as. *)

From stdpp Require Import gmap.
From S2P Require Import Prelude.
From S2P Require Import Cstr.
From S2P Require Import Serialize.
From S2P Require Import Sha2.
From S2P Require Import Sha2Spec.
From S2P Require Import Tx.
From S2P Require Import LogRec.
From S2P Require Import LogDb.

Open Scope Z_scope.

#[local] Opaque sha256_Update sha256_Final sha256_Raw sha_spec.

(** ** The layout of the file *)

(** A key with its new value, or without one when it is erased. *)
Abbreviation change := (list Z * option (list Z))%type.

Definition bytes_ok (b : list Z) : Prop := is_bytes b /\ zlen b < 2 ^ 16.
Definition change_ok (x : change) : Prop := bytes_ok (fst x) /\ match snd x with Some v => bytes_ok v | None => True end.

Definition body (x : change) : list Z :=
  match snd x with
  | Some v => [RECORD_TYPE_WRITE] ++ varstr_bytes (fst x) ++ varstr_bytes v
  | None => [RECORD_TYPE_ERASE] ++ varstr_bytes (fst x)
  end.

Definition hash16 (b : list Z) : list Z := ztake 16 (sha256_spec b).
Definition rec_bytes (x : change) : list Z := record_magic ++ hash16 (body x) ++ body x ++ hash16 (body x).

(** The records behind those whose bytes are [m]. *)
Fixpoint log_bytes (m : list Z) (xs : list change) : list Z :=
  match xs with
  | [] => []
  | x :: xs => rec_bytes x ++ hash16 (m ++ rec_bytes x) ++ log_bytes (m ++ rec_bytes x) xs
  end.

Definition file_header : list Z := file_hdr_magic ++ le_bytes 4 kLOGDB_DEFAULT_VERSION ++ le_bytes 4 0.

(** *** Sizes *)

Lemma hash16_ok (b : list Z) : is_bytes (hash16 b) /\ zlen (hash16 b) = 16.
Proof. split; [apply is_bytes_take, (@sha_spec_bytes sha256)|]. unfold hash16. rewrite zlen_ztake. pose proof (sha256_spec_zlen b) as H. unfold sha256_spec. rewrite H. done. Qed.

Lemma varstr_ok (b : list Z) : bytes_ok b -> is_bytes (varstr_bytes b) /\ zlen (varstr_bytes b) < 2 ^ 16 + 8.
Proof.
  intros [Hb Hl]. unfold varstr_bytes, varlen_bytes. pose proof (zlen_nonneg b). destruct (Z.ltb_spec (zlen b) 253); [|rewrite (proj2 (Z.ltb_lt _ 0x10000)) by lia].
  - split; [apply is_bytes_cons; [unfold is_byte; lia|exact Hb]|cbn [app]; rewrite zlen_cons; lia].
  - split; [|rewrite zlen_app, zlen_cons, zlen_le_bytes; lia]. apply is_bytes_app. split; [|exact Hb]. apply is_bytes_cons; [by vm_compute|apply le_bytes_is_bytes].
Qed.

Lemma body_ok (x : change) : change_ok x -> is_bytes (body x) /\ zlen (body x) < 2 ^ 18.
Proof.
  intros [Hk Hv]. destruct (varstr_ok _ Hk) as [Hk1 Hk2]. unfold body. destruct (snd x) as [v|].
  - destruct (varstr_ok _ Hv) as [Hv1 Hv2]. split; [|rewrite !zlen_app; change (zlen [_]) with 1; lia].
    apply is_bytes_app. split; [by apply is_bytes_of|]. by apply is_bytes_app.
  - split; [|rewrite !zlen_app; change (zlen [_]) with 1; lia]. apply is_bytes_app. split; [by apply is_bytes_of|exact Hk1].
Qed.

Lemma rec_bytes_ok (x : change) : change_ok x -> is_bytes (rec_bytes x) /\ zlen (rec_bytes x) < 2 ^ 19.
Proof.
  intros Hx. destruct (body_ok x Hx) as [Hb Hl]. destruct (hash16_ok (body x)) as [Hh Hn]. unfold rec_bytes. split.
  - apply is_bytes_app. split; [by apply is_bytes_of|]. apply is_bytes_app. split; [exact Hh|]. by apply is_bytes_app.
  - rewrite !zlen_app, Hn. change (zlen record_magic) with 8. lia.
Qed.

(** The bytes that are hashed. *)
Definition hashed (xs : list change) : list Z := flat_map rec_bytes xs.

Lemma hashed_ok (xs : list change) : Forall change_ok xs -> is_bytes (hashed xs) /\ zlen (hashed xs) <= 2 ^ 19 * zlen xs.
Proof.
  induction 1 as [|x xs Hx Hxs [IH1 IH2]]; [split; [constructor|done]|]. destruct (rec_bytes_ok x Hx) as [Hb Hl]. cbn [hashed flat_map].
  split; [by apply is_bytes_app|]. rewrite zlen_app, zlen_cons. unfold hashed in IH2. lia.
Qed.

Lemma log_bytes_app (m : list Z) (xs ys : list change) : log_bytes m (xs ++ ys) = log_bytes m xs ++ log_bytes (m ++ hashed xs) ys.
Proof.
  revert m. induction xs as [|x xs IH]; intros m; cbn [log_bytes app hashed flat_map]; [by rewrite app_nil_r|].
  rewrite IH, <- !app_assoc. done.
Qed.

(** ** The hash of the log *)

(** A context that has hashed [m]. *)
Definition hashes (c : SHA256_CTX) (m : list Z) : Prop := @rep sha256 sha256_laws c m.

Lemma hashes_init : hashes sha256_Init [].
Proof. by apply (@Init_rep sha256 sha256_laws). Qed.

Lemma hashes_update (c : SHA256_CTX) (m d : list Z) : hashes c m -> is_bytes d -> zlen (m ++ d) < 2 ^ 61 -> hashes (sha256_Update c d) (m ++ d).
Proof.
  intros Hc Hd Hl. apply (@Update_rep sha256 sha256_laws); [exact Hc|exact Hd|exact Hl|]. rewrite zlen_app in Hl. pose proof (zlen_nonneg m). unfold zlen in *. lia.
Qed.

Lemma hashes_final (c : SHA256_CTX) (m : list Z) : hashes c m -> ztake 16 (fst (sha256_Final c)) = hash16 m.
Proof. intros Hc. unfold hash16. f_equal. by apply (@Final_spec sha256 sha256_laws). Qed.

(** ** Writing a record *)

(** The record of a change, as [logdb_append] makes it. *)
Definition change_mode (x : change) : Z := match snd x with Some _ => RECORD_TYPE_WRITE | None => RECORD_TYPE_ERASE end.
Definition is_record (r : logdb_record) (x : change) : Prop := key r = fst x /\ value r = snd x /\ mode r = change_mode x.

Lemma appends_record (r : logdb_record) (x : change) : is_record r x -> change_ok x -> Appends (logdb_record_ser r) (body x).
Proof.
  intros (Hk & Hv & Hm) [[_ Hkl] Hvl]. unfold logdb_record_ser, body. rewrite Hk, Hv, Hm. unfold change_mode. pose proof (zlen_nonneg (fst x)).
  destruct (snd x) as [v|]; cbn [Z.eqb RECORD_TYPE_WRITE RECORD_TYPE_ERASE].
  - destruct Hvl as [_ Hvl]. pose proof (zlen_nonneg v). apply (appends_bind (fun s => ser_bytes s [0])); [apply appends_bytes|]. unfold varstr_bytes. rewrite <- app_assoc.
    apply (appends_bind (fun s => ser_varlen s (u32 (zlen (fst x))))); [apply appends_count; lia|].
    apply (appends_bind (fun s => ser_bytes s (fst x))); [apply appends_bytes|]. cbn [mbind option_bind].
    apply (appends_bind (fun s => ser_varlen s (u32 (zlen v)))); [apply appends_count; lia|apply appends_bytes].
  - apply (appends_bind (fun s => ser_bytes s [1])); [apply appends_bytes|]. unfold varstr_bytes.
    apply (appends_bind (fun s => ser_varlen s (u32 (zlen (fst x))))); [apply appends_count; lia|].
    pose proof (appends_bind (fun s => ser_bytes s (fst x)) Some (fst x) [] (appends_bytes _) appends_skip) as Hs. by rewrite app_nil_r in Hs.
Qed.

(** A stream at the end of its file. *)
Definition at_end (f : option FILE) (data : list Z) : Prop := exists f', f = Some f' /\ before f' = data /\ rest f' = [].

Lemma fwrite_end (f : FILE) (d : list Z) : rest f = [] -> before (fwrite d f) = before f ++ d /\ rest (fwrite d f) = [].
Proof. intros Hr. unfold fwrite. rewrite Hr. destruct (append_only f); cbn [before rest app]; [done|]. split; [done|]. unfold zdrop. by rewrite drop_nil. Qed.

(** ** Reading a record *)

Lemma fread_app (a b : list Z) (n : Z) : zlen a = n -> fread (a ++ b) n = Ret (a, b).
Proof. intros. by apply deser_bytes_app. Qed.

#[export] Instance local_fread (n : Z) : Local (fun b => fread b n).
Proof. apply (local_bytes n). Qed.

Lemma read_varlen_app (n : Z) (b : list Z) : 0 <= n < 2 ^ 16 -> read_varlen (varlen_bytes n ++ b) = Ret (n, varlen_bytes n, b).
Proof.
  intros Hn. unfold read_varlen, deser_varlen_file, varlen_bytes. cbn [Z.ltb Z.compare Pos.compare Pos.compare_cont].
  destruct (Z.ltb_spec n 253) as [Hlt|Hge]; [|rewrite (proj2 (Z.ltb_lt n 0x10000)) by lia].
  - rewrite (fread_app [n] b 1) by done. cbn [mbind outcome_bind le_val]. rewrite Z.mul_0_r, Z.add_0_r.
    change (total (zwrite (replicate 4 None) 0 (Some <$> [n]))) with (Ret [Some n; None; None; None]). cbn [mbind outcome_bind].
    rewrite !(proj2 (Z.eqb_neq n _)) by lia. cbn [mbind outcome_bind]. reflexivity.
  - change ((253 :: le_bytes 2 n) ++ b) with ([253] ++ le_bytes 2 n ++ b). rewrite (fread_app [253]) by done. cbn [mbind outcome_bind].
    change (total (zwrite (replicate 4 None) 0 (Some <$> [253]))) with (Ret [Some 253; None; None; None]). cbn [mbind outcome_bind].
    change (le_val [253] =? 253) with true. rewrite fread_app by apply zlen_le_bytes. cbn [mbind outcome_bind].
    destruct (le_bytes 2 n) as [|x [|y [|? ?]]] eqn:E; try (pose proof (le_bytes_length 2 n) as Hl; rewrite E in Hl; done).
    change (total (zwrite [Some 253; None; None; None] 1 (Some <$> [x; y]))) with (Ret [Some 253; Some x; Some y; None]). cbn [mbind outcome_bind].
    rewrite <- E, <- (app_nil_r (le_bytes 2 n)), deser_u16_app by lia. cbn [mbind outcome_bind]. rewrite app_nil_r, E. reflexivity.
Qed.

Lemma local_bind2 {A B C} (rd : const_buffer -> outcome (A * B * const_buffer)) (f : A -> B -> const_buffer -> outcome (C * const_buffer)) :
  Local rd -> (forall v w, Local (f v w)) -> Local (fun b => '(v, w, b) ← rd b; f v w b).
Proof.
  intros Hr Hf b rest. cbn [mbind outcome_bind]. specialize (Hr b rest). destruct (rd b) as [[[v w] b1]| |]; [|done|by rewrite Hr]. rewrite Hr. apply Hf.
Qed.

(** One of the cases of [read_varlen]: [m] bytes that [dec] reads. *)
Definition varlen_case (raw1 : list (option Z)) (m k : Z) (g : list Z -> list Z) (dec : list Z -> outcome (Z * list Z)) (u : Z -> Z) (f : list Z) :
    outcome (Z * list Z * list Z) :=
  '(l, f1, raw, bl) ← ('(p, f1) ← fread f m; raw2 ← total (zwrite raw1 1 (Some <$> g p)); '(v, _) ← dec p; Ret (u v, f1, raw2, k));
  raw ← total (cells_val (ztake bl raw)); Ret (l, raw, f1).

Lemma local_case (raw1 : list (option Z)) (m k : Z) (g : list Z -> list Z) (dec : list Z -> outcome (Z * list Z)) (u : Z -> Z) : Local (varlen_case raw1 m k g dec u).
Proof.
  intros f rest. unfold varlen_case. pose proof (local_fread m f rest) as Hm. cbn beta in Hm. destruct (fread f m) as [[p f1]| |]; [|done|]; rewrite Hm; [|done].
  cbn [mbind outcome_bind]. destruct (total (zwrite raw1 1 (Some <$> g p))) as [raw2| |]; [|done|done]. cbn [mbind outcome_bind].
  destruct (dec p) as [[v ?]| |]; [|done|done]. cbn [mbind outcome_bind]. by destruct (total (cells_val (ztake k raw2))).
Qed.

#[export] Instance local_read_varlen : Local read_varlen.
Proof.
  intros b rest. unfold read_varlen, deser_varlen_file. cbn [Z.ltb Z.compare Pos.compare Pos.compare_cont].
  pose proof (local_fread 1 b rest) as H1. cbn beta in H1. destruct (fread b 1) as [[c f]| |]; [|done|]; rewrite H1; [|done]. cbn [mbind outcome_bind].
  destruct (total (zwrite (replicate 4 None) 0 (Some <$> c))) as [raw1| |]; [|done|done]. cbn [mbind outcome_bind].
  destruct (le_val c =? 253); [apply (local_case raw1 2 (1 + 2) (fun p => p) deser_u16 (fun v => v))|].
  destruct (le_val c =? 254); [apply (local_case raw1 4 (1 + 4) (fun p => p) deser_u32 (fun v => v))|].
  destruct (le_val c =? 255); [apply (local_case raw1 8 (1 + 4) (ztake 4) deser_u64 u32)|].
  cbn [mbind outcome_bind]. by destruct (total (cells_val (ztake 1 raw1))).
Qed.

#[export] Instance local_read_fields (hl : Z) (ctx : SHA256_CTX) (rec : logdb_record) : Local (fun f => read_fields hl ctx f rec).
Proof.
  unfold read_fields. apply (local_bind (fun f => fread f hl)); [apply _|]. intros h. cbv zeta. apply (local_bind (fun f => fread f 1)); [apply _|]. intros m.
  apply (local_bind2 read_varlen); [apply _|]. intros len readbuf. apply (local_bind (fun f => fread f len)); [apply _|]. intros k.
  apply (local_bind2 (fun f => if le_val m =? RECORD_TYPE_WRITE then _ else _)).
  - apply local_if; [|apply local_ret]. apply local_total. intros _. apply (local_bind2 read_varlen); [apply _|]. intros len2 readbuf2.
    apply (local_bind (fun f => fread f len2)); [apply _|]. intros v. apply local_ret.
  - intros v ctx'. apply (local_bind (fun f => fread f hl)); [apply _|]. intros h2. apply local_ret.
Qed.

(** The record that is read: an erased key leaves the value of the record as it
    was. *)
Definition loaded (rec : logdb_record) (x : change) : logdb_record :=
  mk_record (fst x) (match snd x with Some v => Some v | None => value rec end) (next rec) (prev rec) (written rec) (change_mode x).

Lemma read_fields_app (ctx : SHA256_CTX) (m tail h1 h2 : list Z) (x : change) (rec : logdb_record) : hashes ctx m -> change_ok x -> is_Some (value rec) ->
  is_bytes h1 -> zlen h1 = 16 -> is_bytes h2 -> zlen h2 = 16 -> zlen (m ++ h1 ++ body x ++ h2) < 2 ^ 61 ->
  exists ctx', read_fields 16 ctx (h1 ++ body x ++ h2 ++ tail) rec = Ret (loaded rec x, ctx', tail) /\ hashes ctx' (m ++ h1 ++ body x ++ h2).
Proof.
  intros Hc [Hk Hv] [v0 Hv0] Hb1 Hl1 Hb2 Hl2 Hl. unfold read_fields. rewrite fread_app by exact Hl1. cbn [mbind outcome_bind].
  destruct (varstr_ok _ Hk) as [Hkb _]. unfold body, loaded, change_mode in *. pose proof (zlen_nonneg (fst x)). destruct Hk as [Hk1 Hk2].
  pose proof Hkb as Hkb'. unfold varstr_bytes in Hkb'. apply is_bytes_app in Hkb' as [Hkb1 _].
  destruct (snd x) as [v|]; rewrite <- !app_assoc; rewrite (fread_app [_]) by done; cbn [mbind outcome_bind].
  - destruct (varstr_ok _ Hv) as [Hvb _]. pose proof Hvb as Hvb'. unfold varstr_bytes in Hvb'. apply is_bytes_app in Hvb' as [Hvb1 _].
    pose proof (zlen_nonneg v). destruct Hv as [Hv1 Hv2]. unfold varstr_bytes at 1. rewrite <- app_assoc, read_varlen_app by lia. cbn [mbind outcome_bind].
    rewrite fread_app by done. cbn [mbind outcome_bind]. change (le_val [RECORD_TYPE_WRITE] =? RECORD_TYPE_WRITE) with true. rewrite Hv0. cbn [total mbind outcome_bind].
    unfold varstr_bytes at 1. rewrite <- app_assoc, read_varlen_app by lia. cbn [mbind outcome_bind]. rewrite fread_app by done. cbn [mbind outcome_bind].
    rewrite fread_app by exact Hl2. cbn [mbind outcome_bind]. eexists. split; [reflexivity|].
    unfold varstr_bytes in *. rewrite !zlen_app in Hl. rewrite !app_assoc. pose proof (zlen_nonneg m).
    repeat (apply hashes_update; [|done || by apply is_bytes_of|rewrite !zlen_app; zlia]). exact Hc.
  - unfold varstr_bytes at 1. rewrite <- app_assoc, read_varlen_app by lia. cbn [mbind outcome_bind].
    rewrite fread_app by done. cbn [mbind outcome_bind]. change (le_val [RECORD_TYPE_ERASE] =? RECORD_TYPE_WRITE) with false. cbn [mbind outcome_bind].
    rewrite fread_app by exact Hl2. cbn [mbind outcome_bind]. eexists. split; [reflexivity|].
    unfold varstr_bytes in *. rewrite !zlen_app in Hl. rewrite !app_assoc. pose proof (zlen_nonneg m).
    repeat (apply hashes_update; [|done || by apply is_bytes_of|rewrite !zlen_app; zlia]). exact Hc.
Qed.

Section Mapper.

Context {S : Type} {M : memmapper S} {L : memmapper_laws S}.

#[local] Abbreviation db_t := (logdb_log_db S).

Lemma write_record_spec (db : db_t) (r : logdb_record) (x : change) (data m : list Z) : is_record r x -> change_ok x -> at_end (file db) data ->
  hashes (hashctx db) m -> hashlen db = 16 -> zlen (m ++ rec_bytes x) < 2 ^ 61 ->
  exists db', logdb_write_record db r = Some db' /\ at_end (file db') (data ++ rec_bytes x ++ hash16 (m ++ rec_bytes x)) /\
    hashes (hashctx db') (m ++ rec_bytes x) /\ db' = set_hashctx (hashctx db') (set_file (file db') db).
Proof.
  intros Hr Hx (f & Ef & Eb & Er) Hc Hh Hl. destruct (body_ok x Hx) as [Hb Hn]. destruct (hash16_ok (body x)) as [H16 H16l].
  unfold logdb_write_record. destruct (fresh_writes 1024 _ _ ltac:(lia) (appends_record r x Hr Hx) ltac:(lia)) as (s & s' & -> & E1 & _ & _ & E2).
  cbn [mbind option_bind]. rewrite E1. cbn [mbind option_bind]. rewrite E2. cbn [mbind option_bind]. rewrite Ef. cbn [mbind option_bind]. rewrite Hh.
  assert (ztake 16 (sha256_Raw (body x)) = hash16 (body x)) as -> by (unfold hash16; by rewrite sha256_Raw_spec by (done || lia)).
  pose proof Hl as Hl'. unfold rec_bytes in Hl. rewrite !zlen_app in Hl. pose proof (zlen_nonneg m). pose proof (zlen_nonneg (body x)).
  assert (hashes (sha256_Update (sha256_Update (sha256_Update (sha256_Update (hashctx db) record_magic) (hash16 (body x))) (body x)) (hash16 (body x))) (m ++ rec_bytes x)) as Hc'.
  { unfold rec_bytes. rewrite !app_assoc. repeat (apply hashes_update; [|done || by apply is_bytes_of|rewrite !zlen_app; lia]). exact Hc. }
  set (ctx := sha256_Update _ (hash16 (body x))) in *. pose proof (hashes_final ctx _ Hc') as Hfin.
  destruct (sha256_Final ctx) as [h c'] eqn:Efin. cbn [fst] in Hfin. rewrite Hfin.
  eexists. split; [reflexivity|]. split; [|split; [exact Hc'|reflexivity]]. cbn [file set_hashctx set_file].
  destruct (fwrite_end f record_magic Er) as [B1 R1]. destruct (fwrite_end _ (hash16 (body x)) R1) as [B2 R2]. destruct (fwrite_end _ (body x) R2) as [B3 R3].
  destruct (fwrite_end _ (hash16 (body x)) R3) as [B4 R4]. destruct (fwrite_end _ (hash16 (m ++ rec_bytes x)) R4) as [B5 R5].
  eexists. split; [reflexivity|]. split; [|exact R5]. rewrite B5, B4, B3, B2, B1, Eb. unfold rec_bytes. by rewrite <- !app_assoc.
Qed.

(** ** Loading *)

Definition changed (m : gmap (list Z) (list Z)) (x : change) : gmap (list Z) (list Z) :=
  match snd x with Some v => <[fst x := v]> m | None => delete (fst x) m end.

(** The loop of [logdb_load] between two records. *)
Record loading (db : db_t) (tail data hashed_so_far : list Z) (mp : gmap (list Z) (list Z)) : Prop := mk_loading {
  loading_file : exists f, file db = Some f /\ rest f = tail /\ contents f = data;
  loading_hash : hashes (hashctx db) hashed_so_far;
  loading_hashlen : hashlen db = 16;
  loading_map : exists s, cb_ctx db = Some s /\ map_rep s mp;
  loading_cache : cache db = logdb_llist_db_new }.

Lemma advance_app (f : FILE) (a b : list Z) : rest f = a ++ b -> rest (advance f b) = b /\ contents (advance f b) = contents f.
Proof.
  intros E. split; [done|]. unfold advance, contents. cbn [before rest]. rewrite E. replace (zlen (a ++ b) - zlen b) with (zlen a) by (rewrite zlen_app; lia).
  rewrite ztake_app_len by done. by rewrite <- app_assoc.
Qed.

Lemma load_record (db : db_t) (rec : logdb_record) (x : change) (tail data m : list Z) mp : loading db (rec_bytes x ++ hash16 (m ++ rec_bytes x) ++ tail) data m mp ->
  change_ok x -> is_Some (value rec) -> zlen (m ++ rec_bytes x) < 2 ^ 61 ->
  exists db' db'', logdb_record_deser_from_file rec db = Some (true, LOGDB_SUCCESS, set_written (loaded rec x), db') /\
    mem_append db' true (set_written (loaded rec x)) = Some db'' /\ loading db'' tail data (m ++ rec_bytes x) (changed mp x).
Proof.
  intros [(f & Ef & Er & Ed) Hc Hh (s & Es & Hs) Hcache] Hx Hv Hl. unfold logdb_record_deser_from_file. rewrite Ef. cbn [mbind option_bind]. rewrite Er, Hh.
  unfold rec_bytes at 1. rewrite <- !app_assoc, (fread_app record_magic) by done.
  destruct (hash16_ok (body x)) as [H16 H16l]. assert (zlen ((m ++ record_magic) ++ hash16 (body x) ++ body x ++ hash16 (body x)) < 2 ^ 61) as Hl'.
  { unfold rec_bytes in Hl. by rewrite <- app_assoc. }
  destruct (read_fields_app (sha256_Update (hashctx db) record_magic) (m ++ record_magic) (hash16 (m ++ rec_bytes x) ++ tail) (hash16 (body x)) (hash16 (body x)) x rec)
    as (ctx & -> & Hctx); [apply hashes_update; [exact Hc|by apply is_bytes_of|]|exact Hx|exact Hv|exact H16|exact H16l|exact H16|exact H16l|exact Hl'|].
  { rewrite (zlen_app (m ++ _)) in Hl'. pose proof (zlen_nonneg (hash16 (body x) ++ body x ++ hash16 (body x))). lia. }
  rewrite <- app_assoc in Hctx. fold (rec_bytes x) in Hctx. pose proof (hashes_final _ _ Hctx) as Hfin. destruct (sha256_Final ctx) as [hc c'] eqn:Efin. cbn [fst] in Hfin.
  rewrite fread_app by apply hash16_ok. rewrite Hfin, bool_decide_true by reflexivity.
  destruct (advance_app f (rec_bytes x ++ hash16 (m ++ rec_bytes x)) tail) as [Ea1 Ea2]; [by rewrite Er, <- app_assoc|].
  assert (exists s', append_cb s true (set_written (loaded rec x)) = Some s' /\ map_rep s' (changed mp x)) as (s' & Es' & Hs').
  { unfold changed, loaded, change_mode. destruct (snd x) as [v|]; [by apply write_law|apply erase_law; [exact Hs|reflexivity|by right]]. }
  eexists _, _. split; [reflexivity|]. unfold mem_append. cbn [cb_ctx set_hashctx set_file]. rewrite Es. cbn [mbind option_bind]. rewrite Es'. split; [reflexivity|].
  split; cbn [file cb_ctx cache hashctx hashlen set_ctx set_hashctx set_file]; [|exact Hctx|exact Hh|exists s'; by split|exact Hcache].
  exists (advance f tail). split; [reflexivity|]. split; [exact Ea1|]. by rewrite Ea2.
Qed.

(** The size of a log stays below the limit of the hash. *)
Lemma hashed_bound (m : list Z) (xs : list change) (x : change) : Forall change_ok (x :: xs) -> zlen m + 2 ^ 19 * zlen (x :: xs) < 2 ^ 61 ->
  zlen (m ++ rec_bytes x) < 2 ^ 61 /\ zlen (m ++ rec_bytes x) + 2 ^ 19 * zlen xs < 2 ^ 61.
Proof.
  intros Hf Hl. apply list.Forall_cons in Hf as [Hx _]. destruct (rec_bytes_ok x Hx) as [_ Hn]. rewrite zlen_cons in Hl. rewrite zlen_app. pose proof (zlen_nonneg xs). lia.
Qed.

Lemma load_log_records (xs : list change) : forall fuel (db : db_t) rec tail data m mp, loading db (log_bytes m xs ++ tail) data m mp -> Forall change_ok xs ->
  is_Some (value rec) -> zlen m + 2 ^ 19 * zlen xs < 2 ^ 61 ->
  exists db' rec', load_loop (length xs + fuel) rec db = load_loop fuel rec' db' /\ loading db' tail data (m ++ hashed xs) (fold_left changed xs mp) /\ is_Some (value rec').
Proof.
  induction xs as [|x xs IH]; intros fuel db rec tail data m mp Hld Hf Hv Hl; cbn [log_bytes hashed flat_map fold_left length] in *.
  - exists db, rec. by rewrite app_nil_r.
  - destruct (hashed_bound m xs x Hf Hl) as [Hl1 Hl2]. apply list.Forall_cons in Hf as [Hx Hf]. rewrite <- !app_assoc in Hld.
    destruct (load_record db rec x _ data m mp Hld Hx Hv Hl1) as (db1 & db2 & E1 & E2 & Hld2). cbn [Nat.add load_loop]. rewrite E1. cbn [mbind option_bind]. rewrite E2.
    cbn [mbind option_bind]. destruct (IH fuel db2 (set_written (loaded rec x)) tail data (m ++ rec_bytes x) _ Hld2 Hf) as (db' & rec' & E & Hld' & Hv').
    + cbn. unfold loaded. destruct (snd x); [by eexists|exact Hv].
    + exact Hl2.
    + exists db', rec'. split; [exact E|]. split; [|exact Hv']. by rewrite app_assoc.
Qed.

(** ** The cache *)

Definition cache_entry (x : change) : entry := (fst x, snd x, false, change_mode x).

(** The records of a list, oldest first, are the changes. *)
Definition lists (d : logdb_llist_db) (l : list (nat * entry)) (xs : list change) : Prop :=
  linked (lheap d) (LogRec.head d) l /\ l.*2 = cache_entry <$> rev xs.

(** A walk towards older records ends at the oldest. *)
Lemma first_loop_spec (h : heap) (l : list (nat * entry)) (x : nat) (e : entry) : forall fuel nx p nx', seg (cells h) nx p (l ++ [(x, e)]) None nx' ->
  (length l < fuel)%nat -> first_loop fuel h p = Some (Some x).
Proof.
  induction l as [|[y ey] l IH]; intros fuel nx p nx' Hs Hf; (destruct fuel as [|fuel]; [lia|]); destruct Hs as (-> & r & Hr & _ & _ & Hs); cbn [first_loop]; rewrite Hr; cbn [mbind option_bind].
  - destruct Hs as [-> _]. done.
  - destruct (prev r) as [q|] eqn:Eq; [|destruct l as [|[? ?] ?]; cbn in Hs; by destruct Hs as [? _]]. apply (IH fuel _ _ _ Hs). cbn in Hf. lia.
Qed.

Lemma deepest_loop_spec (h : heap) (l : list (nat * entry)) (x : nat) (e : entry) : forall fuel nx p nx', seg (cells h) nx p (l ++ [(x, e)]) None nx' ->
  Forall (fun xe => xe.2.1.2 = false) (l ++ [(x, e)]) -> (length l < fuel)%nat -> deepest_loop fuel h p = Some (Some x).
Proof.
  induction l as [|[y ey] l IH]; intros fuel nx p nx' Hs Hw Hf; (destruct fuel as [|fuel]; [lia|]); destruct Hs as (-> & r & Hr & Hc & _ & Hs);
    apply list.Forall_cons in Hw as [Hw1 Hw]; rewrite <- Hc in Hw1; cbn in Hw1; cbn [deepest_loop]; rewrite Hr; cbn [mbind option_bind]; rewrite Hw1.
  - destruct Hs as [-> _]. done.
  - destruct (prev r) as [q|] eqn:Eq; [|destruct l as [|[? ?] ?]; cbn in Hs; by destruct Hs as [? _]]. apply (IH fuel _ _ _ Hs Hw). cbn in Hf. lia.
Qed.

(** The record behind a segment, and what follows it. *)
Lemma seg_last (c : gmap nat logdb_record) (nx p : option nat) (l : list (nat * entry)) (y : nat) (e : entry) (q nm : option nat) : seg c nx p (l ++ [(y, e)]) q nm ->
  nm = Some y /\ exists r, c !! y = Some r /\ content r = e /\ prev r = q /\ seg c nx p l (Some y) (next r).
Proof. intros Hs. apply seg_app in Hs as (m & n1 & H1 & -> & r & Hr & He & Hn & [Hp <-]). split; [done|]. exists r. by rewrite Hn. Qed.

Lemma free_loop_spec (l : list (nat * entry)) : forall fuel h nx p nx', seg (cells h) nx p l None nx' -> NoDup l.*1 -> (length l <= fuel)%nat ->
  exists h', free_loop fuel h p = Some h' /\ fresh h' = fresh h.
Proof.
  induction l as [|[x e] l IH]; intros fuel h nx p nx' Hs Hd Hf.
  - destruct Hs as [-> _]. exists h. by destruct fuel.
  - destruct Hs as (-> & r & Hr & _ & _ & Hs). cbn in Hd. apply list.NoDup_cons in Hd as [Hx Hd]. destruct fuel as [|fuel]; [cbn in Hf; lia|]. cbn [free_loop]. rewrite Hr.
    cbn [mbind option_bind]. unfold logdb_record_free. rewrite Hr. cbn [mbind option_bind].
    destruct (IH fuel (mk_heap (delete x (cells h)) (fresh h)) (Some x) (prev r) nx') as (h' & E & Hh); [|exact Hd|cbn in Hf; lia|by exists h'].
    apply (seg_ext (cells h)); [|exact Hs]. intros y Hy. apply lookup_delete_ne. by intros ->.
Qed.

(** Writing the newer part [l1] of the cache, oldest first. *)
Lemma write_loop_spec (l1 : list (nat * entry)) : forall (xs : list change) l2 fuel (db : db_t) q nm data m,
  linked (lheap (cache db)) (LogRec.head (cache db)) (l1 ++ l2) -> seg (cells (lheap (cache db))) None (LogRec.head (cache db)) l1 q nm -> l1.*2 = cache_entry <$> rev xs ->
  at_end (file db) data -> hashes (hashctx db) m -> hashlen db = 16 -> Forall change_ok xs -> zlen m + 2 ^ 19 * zlen xs < 2 ^ 61 -> (length l1 <= fuel)%nat ->
  exists db' l, write_loop fuel db nm = Some db' /\ linked (lheap (cache db')) (LogRec.head (cache db')) l /\ fresh (lheap (cache db')) = fresh (lheap (cache db)) /\
    at_end (file db') (data ++ log_bytes m xs) /\ hashes (hashctx db') (m ++ hashed xs) /\ hashlen db' = 16 /\ cb_ctx db' = cb_ctx db.
Proof.
  induction l1 as [|[y e] l1 IH] using rev_ind; intros xs l2 fuel db q nm data m Hl Hs Ex Hf Hc Hh Hok Hb Hfu.
  - assert (xs = []) as ->. { destruct xs as [|x xs]; [done|]. cbn in Ex. rewrite fmap_app in Ex. by destruct (cache_entry <$> rev xs). }
    destruct Hs as [_ <-]. exists db, l2. rewrite !app_nil_r. split; [by destruct fuel|]. by split.
  - apply seg_last in Hs as (-> & r & Hr & He & Hp & Hs). destruct xs as [|x xs]; [cbn in Ex; by rewrite fmap_app in Ex; destruct (l1.*2)|].
    rewrite fmap_app in Ex. cbn [rev fmap list_fmap] in Ex. rewrite fmap_app in Ex. cbn [fmap list_fmap] in Ex. apply app_inj_tail in Ex as [Ex Ee]. cbn [snd] in Ee.
    rewrite length_app in Hfu. cbn in Hfu. destruct fuel as [|fuel]; [lia|]. cbn [write_loop]. rewrite Hr. cbn [mbind option_bind].
    destruct (hashed_bound m xs x Hok Hb) as [Hb1 Hb2]. apply list.Forall_cons in Hok as [Hx Hok].
    assert (is_record r x) as Hrec. { rewrite <- He in Ee. injection Ee as ? ? _ ?. by split. }
    destruct (write_record_spec db r x data m Hrec Hx Hf Hc Hh Hb1) as (db1 & -> & Hf1 & Hc1 & E1). cbn [mbind option_bind].
    assert (cache db1 = cache db) as Ec by by rewrite E1. assert (cb_ctx db1 = cb_ctx db) as Ecb by by rewrite E1. assert (hashlen db1 = 16) as Eh by by rewrite E1.
    rewrite Ec. rewrite (modify_ok _ y r) by exact Hr. cbn [mbind option_bind]. rewrite <- app_assoc in Hl. cbn [app] in Hl.
    assert (y ∉ l1.*1) as Hy. { pose proof (linked_nodup _ _ _ Hl) as Hd. rewrite fmap_app in Hd. apply list.NoDup_app in Hd as (_ & D12 & _). intros Hy. apply (D12 y Hy). left. }
    destruct (IH xs ((y, content (set_written r)) :: l2) fuel
      (set_cache (mk_llist (mk_heap (<[y := set_written r]> (cells (lheap (cache db)))) (fresh (lheap (cache db)))) (LogRec.head (cache db))) db1) (Some y) (next r)
      (data ++ rec_bytes x ++ hash16 (m ++ rec_bytes x)) (m ++ rec_bytes x)) as (db' & l & E & R1 & R2 & R3 & R4 & R5 & R6);
      cbn [cache set_cache lheap LogRec.head cells fresh file hashctx hashlen cb_ctx]; [|clear Hl|exact Ex|exact Hf1|exact Hc1|exact Eh|exact Hok|exact Hb2|lia|].
    + destruct Hl as [[nx' Hl] Hd Hfr]. rewrite fmap_app in Hd, Hfr. cbn [fmap list_fmap fst] in Hd, Hfr. split; [|by rewrite fmap_app|by rewrite fmap_app].
      exists nx'. apply seg_app in Hl as (m1 & n1 & H1 & -> & r' & Hr' & He' & Hn' & H2). rewrite Hr in Hr'. injection Hr' as <-. apply list.NoDup_app in Hd as (D1 & D12 & D2).
      apply list.NoDup_cons in D2 as [D2 _]. apply seg_app. exists (Some y), n1. split; [|split; [done|]; exists (set_written r); split; [apply lookup_insert_eq|]; split; [done|]; split; [exact Hn'|]].
      * apply (seg_ext (cells (lheap (cache db)))); [|exact H1]. intros z Hz. apply lookup_insert_ne. by intros <-.
      * apply (seg_ext (cells (lheap (cache db)))); [|exact H2]. intros z Hz. apply lookup_insert_ne. by intros <-.
    + apply (seg_ext (cells (lheap (cache db)))); [|exact Hs]. intros z Hz. apply lookup_insert_ne. by intros <-.
    + exists db', l. split; [exact E|]. split; [exact R1|]. split; [exact R2|]. cbn [log_bytes hashed flat_map]. rewrite !app_assoc in *. split; [exact R3|]. split; [exact R4|].
      split; [exact R5|]. by rewrite R6.
Qed.

(** ** The database *)

(** The changes [xs] are in the file, [pend] in the cache. *)
Record db_rep (db : db_t) (xs pend : list change) : Prop := mk_db_rep {
  db_file : at_end (file db) (file_header ++ log_bytes [] xs);
  db_hash : hashes (hashctx db) (hashed xs);
  db_hashlen : hashlen db = 16;
  db_map : exists s, cb_ctx db = Some s /\ map_rep s (fold_left changed (xs ++ pend) ∅);
  db_cache : exists l, lists (cache db) l pend;
  db_ok : Forall change_ok (xs ++ pend) }.

(** A key can be erased when the map is not empty. *)
Definition allowed (mp : gmap (list Z) (list Z)) (x : change) : Prop := change_ok x /\ (snd x = None -> mp <> ∅).

Lemma pushed_record (d' : logdb_llist_db) (l : list (nat * entry)) (y : nat) (e : entry) : linked (lheap d') (LogRec.head d') ((y, e) :: l) ->
  exists r, LogRec.head d' = Some y /\ cells (lheap d') !! y = Some r /\ content r = e.
Proof. intros [[nx' Hs] _ _]. destruct Hs as (Hy & r & Hr & He & _). by exists r. Qed.

Lemma push_lists (d : logdb_llist_db) (l : list (nat * entry)) (xs : list change) (x : change) : lists d l xs ->
  exists d' y, push d (logdb_record_set logdb_record_new (fst x) (snd x)) = Some d' /\ lists d' ((y, cache_entry x) :: l) (xs ++ [x]).
Proof.
  intros [Hl El]. destruct (push_spec d l (logdb_record_set logdb_record_new (fst x) (snd x)) Hl eq_refl) as (d' & y & E & Hl' & _). exists d', y.
  split; [exact E|]. split; [exact Hl'|]. rewrite rev_app_distr. cbn [rev app fmap list_fmap snd]. f_equal. exact El.
Qed.

Lemma append_rep (db : db_t) (xs pend : list change) (x : change) : db_rep db xs pend -> allowed (fold_left changed (xs ++ pend) ∅) x ->
  exists db', logdb_append db None (fst x) (snd x) = Some (db', None) /\ db_rep db' xs (pend ++ [x]).
Proof.
  intros [Hf Hh Hn (s & Es & Hs) (l & Hl) Ho] [Hx Hd]. unfold logdb_append. destruct (push_lists (cache db) l pend x Hl) as (c & y & -> & Hl'). cbn [mbind option_bind].
  destruct (pushed_record c l y _ (proj1 Hl')) as (r & Eh & Er & Ec). rewrite Eh. cbn [mbind option_bind]. rewrite Er. cbn [mbind option_bind].
  injection Ec as Ek Ev _ Em. unfold mem_append. cbn [cb_ctx set_cache]. rewrite Es. cbn [mbind option_bind].
  assert (exists s', append_cb s false r = Some s' /\ map_rep s' (changed (fold_left changed (xs ++ pend) ∅) x)) as (s' & -> & Hs').
  { unfold changed, change_mode in *. rewrite <- Ek. destruct (snd x) as [v|]; [by apply write_law|]. apply erase_law; [exact Hs|exact Em|left; by apply Hd]. }
  cbn [mbind option_bind]. eexists. split; [reflexivity|].
  split; cbn [file hashctx hashlen cb_ctx cache set_ctx set_cache]; [exact Hf|exact Hh|exact Hn| |by eexists|rewrite app_assoc; apply Forall_app; split; [exact Ho|by constructor]].
  exists s'. split; [reflexivity|]. by rewrite app_assoc, fold_left_app.
Qed.

Lemma entries_unwritten (l : list (nat * entry)) (xs : list change) : l.*2 = cache_entry <$> xs -> Forall (fun xe => xe.2.1.2 = false) l.
Proof.
  revert xs. induction l as [|[y e] l IH]; intros [|x xs] E; [constructor|done|done|]. injection E as -> E. apply list.Forall_cons. split; [done|by apply (IH xs)].
Qed.

Lemma flush_rep (db : db_t) (xs pend : list change) : db_rep db xs pend -> 2 ^ 19 * zlen (xs ++ pend) < 2 ^ 61 ->
  exists db', logdb_flush db = Some (true, db') /\ db_rep db' (xs ++ pend) [].
Proof.
  intros [Hf Hh Hn (s & Es & Hs) (l & Hl & El) Ho] Hb. unfold logdb_flush. pose proof Hf as (f & -> & _). pose proof (linked_length _ _ _ Hl) as Hlen.
  assert (zlen (hashed xs) + 2 ^ 19 * zlen pend < 2 ^ 61) as Hb'.
  { pose proof (hashed_ok xs (proj1 (proj1 (Forall_app _ _ _) Ho))) as [_ Hx]. rewrite zlen_app in Hb. lia. }
  assert (exists nm, deepest_loop (fresh (lheap (cache db))) (lheap (cache db)) (LogRec.head (cache db)) = Some nm /\
    seg (cells (lheap (cache db))) None (LogRec.head (cache db)) l None nm) as (nm & -> & Hs1).
  { destruct (linked_seg _ _ _ Hl) as [nx' Hs1]. exists nx'. split; [|exact Hs1]. destruct l as [|[y e] l _] using rev_ind.
    - destruct Hs1 as [-> <-]. by destruct (fresh (lheap (cache db))).
    - pose proof (entries_unwritten _ _ El) as Hw. rewrite length_app in Hlen. cbn in Hlen. rewrite (deepest_loop_spec _ l y e _ None _ nx' Hs1 Hw) by lia.
      apply seg_last in Hs1 as [-> _]. done. }
  cbn [mbind option_bind]. rewrite <- (app_nil_r l) in Hl.
  destruct (write_loop_spec l pend [] (fresh (lheap (cache db))) db None nm _ (hashed xs) Hl Hs1 El Hf Hh Hn (proj2 (proj1 (Forall_app _ _ _) Ho)) Hb' Hlen)
    as (db1 & l1 & -> & Hl1 & Efr & Hf1 & Hh1 & Hn1 & Ecb). cbn [mbind option_bind]. unfold logdb_free_cachelist. pose proof (linked_length _ _ _ Hl1) as Hlen1.
  destruct (linked_seg _ _ _ Hl1) as [nx1 Hs2].
  destruct (free_loop_spec l1 (fresh (lheap (cache db1))) (lheap (cache db1)) None _ nx1 Hs2 (linked_nodup _ _ _ Hl1) Hlen1) as (h' & -> & _). cbn [mbind option_bind].
  eexists. split; [reflexivity|]. split; cbn [file hashctx hashlen cb_ctx cache set_cache].
  - by rewrite log_bytes_app, app_assoc.
  - unfold hashed in *. by rewrite flat_map_app.
  - exact Hn1.
  - exists s. rewrite app_nil_r, Ecb. by split.
  - exists []. split; [|done]. split; [by exists None|apply NoDup_nil_2|constructor].
  - by rewrite app_nil_r.
Qed.

Lemma create_rep : exists db : db_t, logdb_load logdb_new (Some []) true = Some (true, LOGDB_SUCCESS, db) /\ db_rep db [] [].
Proof.
  eexists. split; [reflexivity|]. split; cbn [file hashctx hashlen cb_ctx cache set_file set_ctx logdb_new logdb_set_memmapper logdb_new_internal].
  - eexists. by split.
  - apply hashes_init.
  - reflexivity.
  - exists init_cb. split; [done|]. apply init_law.
  - exists []. split; [|done]. split; [by exists None|apply NoDup_nil_2|constructor].
  - constructor.
Qed.

(** *** Reopening *)

Lemma log_bytes_length (m : list Z) (xs : list change) : (length xs <= length (log_bytes m xs))%nat.
Proof.
  revert m. induction xs as [|x xs IH]; intros m; cbn [log_bytes length]; [lia|]. specialize (IH (m ++ rec_bytes x)). rewrite !length_app.
  assert (0 < length (rec_bytes x))%nat by (unfold rec_bytes; rewrite length_app; cbn; lia). lia.
Qed.

(** The header of the file is accepted and the records are read. *)
Lemma load_starts (T : list Z) (xs : list change) (t : list Z) : T = log_bytes [] xs ++ t -> Forall change_ok xs -> 2 ^ 19 * zlen xs < 2 ^ 61 ->
  exists (db : db_t) rec fuel, logdb_load logdb_new (Some (file_header ++ T)) false =
      ('(record_error, handle) ← load_loop (Datatypes.S fuel) rec db;
       match record_error with LOGDB_SUCCESS => Some (true, LOGDB_SUCCESS, handle) | e => Some (false, e, handle) end) /\
    loading db t (file_header ++ T) (hashed xs) (fold_left changed xs ∅) /\ is_Some (value rec).
Proof.
  intros -> Hok Hb. set (data := file_header ++ log_bytes [] xs ++ t). unfold logdb_load. cbn [rest].
  assert (fread data 4 = Ret (file_hdr_magic, le_bytes 4 kLOGDB_DEFAULT_VERSION ++ le_bytes 4 0 ++ log_bytes [] xs ++ t)) as ->.
  { unfold data, file_header. rewrite <- !app_assoc. by apply fread_app. }
  rewrite bool_decide_true by done. cbn [negb]. rewrite fread_app by apply zlen_le_bytes. rewrite fread_app by apply zlen_le_bytes.
  set (f := advance _ (log_bytes [] xs ++ t)). set (db0 := set_support_flags _ _).
  assert (exists k, Datatypes.S (length data) = (length xs + Datatypes.S k)%nat) as [k ->].
  { exists (length data - length xs)%nat. enough (length xs <= length data)%nat by lia. unfold data. rewrite !length_app. pose proof (log_bytes_length [] xs). lia. }
  assert (loading db0 (log_bytes [] xs ++ t) data [] ∅) as Hld.
  { split; cbn [file hashctx hashlen cb_ctx cache set_version set_support_flags set_file logdb_new logdb_set_memmapper logdb_new_internal set_ctx db0].
    - exists f. split; [done|]. split; [done|]. by apply (advance_app (mk_FILE [] data false) file_header).
    - apply hashes_init.
    - reflexivity.
    - exists init_cb. split; [done|]. apply init_law.
    - reflexivity. }
  destruct (load_log_records xs (Datatypes.S k) db0 logdb_record_new t data [] ∅ Hld Hok ltac:(by eexists) Hb) as (db' & rec' & E & Hld' & Hv'). rewrite E.
  exists db', rec', k. split; [reflexivity|]. split; [exact Hld'|exact Hv'].
Qed.

(** What is left of the file is too short for another record. *)
Lemma load_ends (db : db_t) rec (t data m : list Z) mp fuel : loading db t data m mp -> zlen t < 8 ->
  exists db', load_loop (Datatypes.S fuel) rec db = Some (LOGDB_SUCCESS, db') /\ loading db' [] data m mp.
Proof.
  intros [(f & Ef & Er & Ed) Hc Hh Hm Hcache] Ht. cbn [load_loop]. unfold logdb_record_deser_from_file. rewrite Ef. cbn [mbind option_bind]. rewrite Er.
  unfold fread at 1. rewrite (proj2 (Z.ltb_lt _ 8)) by exact Ht. cbn [mbind option_bind]. eexists. split; [reflexivity|].
  split; cbn [file hashctx hashlen cb_ctx cache set_file]; [|exact Hc|exact Hh|exact Hm|exact Hcache]. exists (advance f []). split; [done|].
  destruct (advance_app f t []) as [E1 E2]; [by rewrite app_nil_r|]. split; [exact E1|]. by rewrite E2.
Qed.

Lemma reopen_rep (xs : list change) : Forall change_ok xs -> 2 ^ 19 * zlen xs < 2 ^ 61 ->
  exists db : db_t, logdb_load logdb_new (Some (file_header ++ log_bytes [] xs)) false = Some (true, LOGDB_SUCCESS, db) /\ db_rep db xs [].
Proof.
  intros Hok Hb. destruct (load_starts (log_bytes [] xs) xs [] ltac:(by rewrite app_nil_r) Hok Hb) as (db & rec & fuel & -> & Hld & Hv).
  destruct (load_ends db rec [] _ _ _ fuel Hld ltac:(by vm_compute)) as (db' & -> & [(f & Ef & Er & Ed) Hc Hh Hm Hcache]). cbn [mbind option_bind]. exists db'.
  split; [reflexivity|]. split; [|exact Hc|exact Hh|by rewrite app_nil_r| |by rewrite app_nil_r].
  - exists f. split; [exact Ef|]. split; [|exact Er]. unfold contents in Ed. by rewrite Er, app_nil_r in Ed.
  - exists []. rewrite Hcache. split; [|done]. split; [by exists None|apply NoDup_nil_2|constructor].
Qed.

(** ** Sessions *)

Inductive op := OAppend (k v : list Z) | ODelete (k : list Z) | OCommit (cs : list change) | OFlush.

(** The records of a transaction. *)
Fixpoint txn_append (db : db_t) (txn : logdb_llist_db) (cs : list change) : option logdb_llist_db :=
  match cs with
  | [] => Some txn
  | x :: cs => '(_, t) ← logdb_append db (Some txn) (fst x) (snd x); t ← t; txn_append db t cs
  end.

Definition run_op (db : db_t) (o : op) : option db_t :=
  match o with
  | OAppend k v => '(db, _) ← logdb_append db None k (Some v); Some db
  | ODelete k => '(db, _) ← logdb_delete db None k; Some db
  | OCommit cs => txn ← txn_append db logdb_txn_new cs; logdb_txn_commit db txn
  | OFlush => '(_, db) ← logdb_flush db; Some db
  end.

Fixpoint run_ops (db : db_t) (os : list op) : option db_t :=
  match os with [] => Some db | o :: os => db ← run_op db o; run_ops db os end.

(** The database is flushed, closed, and loaded again. *)
Definition reopen (db : db_t) : option db_t :=
  '(_, db) ← logdb_flush db; f ← file db;
  '(ok, _, db) ← logdb_load logdb_new (Some (contents f)) false;
  if (ok : bool) then Some db else None.

Fixpoint run_sessions (db : db_t) (ss : list (list op)) : option db_t :=
  match ss with [] => Some db | os :: ss => db ← run_ops db os; db ← reopen db; run_sessions db ss end.

Definition op_changes (o : op) : list change :=
  match o with OAppend k v => [(k, Some v)] | ODelete k => [(k, None)] | OCommit cs => cs | OFlush => [] end.
Definition changes (os : list op) : list change := flat_map op_changes os.

(** Every change is allowed in the map it is made in. *)
Fixpoint all_allowed (mp : gmap (list Z) (list Z)) (cs : list change) : Prop :=
  match cs with [] => True | x :: cs => allowed mp x /\ all_allowed (changed mp x) cs end.

Lemma all_allowed_app (mp : gmap (list Z) (list Z)) (cs ds : list change) : all_allowed mp (cs ++ ds) <-> all_allowed mp cs /\ all_allowed (fold_left changed cs mp) ds.
Proof. revert mp. induction cs as [|x cs IH]; intros mp; cbn [all_allowed app fold_left]; [tauto|]. rewrite IH. tauto. Qed.

Lemma txn_append_spec (db : db_t) (cs : list change) : forall txn l ds, lists txn l ds -> exists txn' l', txn_append db txn cs = Some txn' /\ lists txn' l' (ds ++ cs).
Proof.
  induction cs as [|x cs IH]; intros txn l ds Hl; cbn [txn_append]; [exists txn, l; by rewrite app_nil_r|]. destruct (push_lists txn l ds x Hl) as (t & y & E & Hl').
  unfold logdb_append. rewrite E. cbn [mbind option_bind]. destruct (IH t _ _ Hl') as (t' & l' & E' & Hl''). exists t', l'. by rewrite <- app_assoc in Hl''.
Qed.

Lemma commit_loop_spec (h : heap) (p : option nat) (xs : list change) (l1 : list (nat * entry)) : forall cs pend fuel db q nm, seg (cells h) None p l1 q nm -> l1.*2 = cache_entry <$> rev cs ->
  db_rep db xs pend -> all_allowed (fold_left changed (xs ++ pend) ∅) cs -> (length l1 <= fuel)%nat ->
  exists db', commit_loop fuel db h nm = Some db' /\ db_rep db' xs (pend ++ cs).
Proof.
  induction l1 as [|[y e] l1 IH] using rev_ind; intros cs pend fuel db q nm Hs El Hdb Ha Hf.
  - assert (cs = []) as ->. { destruct cs as [|x cs]; [done|]. cbn in El. rewrite fmap_app in El. by destruct (cache_entry <$> rev cs). }
    destruct Hs as [_ <-]. exists db. rewrite app_nil_r. split; [by destruct fuel|exact Hdb].
  - apply seg_last in Hs as (-> & r & Hr & He & _ & Hs). destruct cs as [|x cs]; [cbn in El; by rewrite fmap_app in El; destruct (l1.*2)|].
    rewrite fmap_app in El. cbn [rev fmap list_fmap] in El. rewrite fmap_app in El. cbn [fmap list_fmap] in El. apply app_inj_tail in El as [El Ee]. cbn [snd] in Ee.
    rewrite length_app in Hf. cbn in Hf. destruct fuel as [|fuel]; [lia|]. cbn [commit_loop]. rewrite Hr. cbn [mbind option_bind].
    rewrite <- He in Ee. injection Ee as Ek Ev _ _. rewrite Ek, Ev. destruct Ha as [Hx Ha].
    destruct (append_rep db xs pend x Hdb Hx) as (db1 & -> & Hdb1). cbn [mbind option_bind].
    destruct (IH cs (pend ++ [x]) fuel db1 (Some y) (next r) Hs El Hdb1) as (db' & E & Hdb'); [|lia|].
    + by rewrite app_assoc, fold_left_app.
    + exists db'. by rewrite <- app_assoc in Hdb'.
Qed.

Lemma commit_rep (db : db_t) (xs pend cs : list change) : db_rep db xs pend -> all_allowed (fold_left changed (xs ++ pend) ∅) cs ->
  exists db', run_op db (OCommit cs) = Some db' /\ db_rep db' xs (pend ++ cs).
Proof.
  intros Hdb Ha. cbn [run_op]. destruct (txn_append_spec db cs logdb_txn_new [] []) as (txn & l & -> & Hl & El).
  { split; [|done]. split; [by exists None|apply NoDup_nil_2|constructor]. }
  cbn [mbind option_bind app] in *. unfold logdb_txn_commit. pose proof (linked_length _ _ _ Hl) as Hlen. destruct (linked_seg _ _ _ Hl) as [nx' Hs].
  assert (first_loop (fresh (lheap txn)) (lheap txn) (LogRec.head txn) = Some nx') as ->.
  { destruct l as [|[y e] l _] using rev_ind.
    - destruct Hs as [-> <-]. by destruct (fresh (lheap txn)).
    - rewrite length_app in Hlen. cbn in Hlen. rewrite (first_loop_spec _ l y e _ None _ nx' Hs) by lia. apply seg_last in Hs as [-> _]. done. }
  cbn [mbind option_bind]. by apply (commit_loop_spec (lheap txn) (LogRec.head txn) xs l cs pend _ db None nx').
Qed.

Lemma run_op_rep (db : db_t) (xs pend : list change) (o : op) : db_rep db xs pend -> all_allowed (fold_left changed (xs ++ pend) ∅) (op_changes o) ->
  2 ^ 19 * zlen (xs ++ pend) < 2 ^ 61 ->
  exists db' xs' pend', run_op db o = Some db' /\ db_rep db' xs' pend' /\ xs' ++ pend' = (xs ++ pend) ++ op_changes o.
Proof.
  intros Hdb Ha Hb. destruct o as [k v|k|cs|]; cbn [op_changes] in *.
  - destruct (append_rep db xs pend (k, Some v) Hdb (proj1 Ha)) as (db' & E & Hdb'). cbn [run_op fst snd] in *. rewrite E. exists db', xs, (pend ++ [(k, Some v)]). by rewrite app_assoc.
  - destruct (append_rep db xs pend (k, None) Hdb (proj1 Ha)) as (db' & E & Hdb'). cbn [run_op fst snd] in *. unfold logdb_delete. rewrite E.
    exists db', xs, (pend ++ [(k, None)]). by rewrite app_assoc.
  - destruct (commit_rep db xs pend cs Hdb Ha) as (db' & E & Hdb'). exists db', xs, (pend ++ cs). by rewrite app_assoc.
  - destruct (flush_rep db xs pend Hdb Hb) as (db' & E & Hdb'). cbn [run_op]. rewrite E. exists db', (xs ++ pend), []. by rewrite !app_nil_r.
Qed.

Lemma run_ops_rep (os : list op) : forall (db : db_t) xs pend, db_rep db xs pend -> all_allowed (fold_left changed (xs ++ pend) ∅) (changes os) ->
  2 ^ 19 * zlen ((xs ++ pend) ++ changes os) < 2 ^ 61 ->
  exists db' xs' pend', run_ops db os = Some db' /\ db_rep db' xs' pend' /\ xs' ++ pend' = (xs ++ pend) ++ changes os.
Proof.
  induction os as [|o os IH]; intros db xs pend Hdb Ha Hb; cbn [run_ops changes flat_map] in *; [exists db, xs, pend; by rewrite app_nil_r|].
  apply all_allowed_app in Ha as [Ha1 Ha2]. rewrite app_assoc, zlen_app in Hb. pose proof (zlen_nonneg (flat_map op_changes os)). pose proof (zlen_nonneg (op_changes o)).
  destruct (run_op_rep db xs pend o Hdb Ha1) as (db1 & xs1 & pend1 & -> & Hdb1 & E1); [rewrite zlen_app in Hb; lia|]. cbn [mbind option_bind].
  destruct (IH db1 xs1 pend1 Hdb1) as (db' & xs' & pend' & E & Hdb' & E').
  - by rewrite E1, fold_left_app.
  - rewrite E1, zlen_app. unfold changes. lia.
  - exists db', xs', pend'. split; [exact E|]. split; [exact Hdb'|]. by rewrite E', E1, <- app_assoc.
Qed.

Lemma reopens (db : db_t) (xs pend : list change) : db_rep db xs pend -> 2 ^ 19 * zlen (xs ++ pend) < 2 ^ 61 ->
  exists db', reopen db = Some db' /\ db_rep db' (xs ++ pend) [].
Proof.
  intros Hdb Hb. unfold reopen. destruct (flush_rep db xs pend Hdb Hb) as (db1 & -> & Hdb1). cbn [mbind option_bind]. destruct (db_file _ _ _ Hdb1) as (f & -> & Eb & Er).
  cbn [mbind option_bind]. unfold contents. rewrite Eb, Er, app_nil_r. pose proof (db_ok _ _ _ Hdb1) as Ho. rewrite app_nil_r in Ho.
  destruct (reopen_rep (xs ++ pend) Ho Hb) as (db' & -> & Hdb'). by exists db'.
Qed.

Lemma run_sessions_rep (ss : list (list op)) : forall (db : db_t) xs, db_rep db xs [] -> all_allowed (fold_left changed xs ∅) (changes (concat ss)) ->
  2 ^ 19 * zlen (xs ++ changes (concat ss)) < 2 ^ 61 -> exists db', run_sessions db ss = Some db' /\ db_rep db' (xs ++ changes (concat ss)) [].
Proof.
  induction ss as [|os ss IH]; intros db xs Hdb Ha Hb; cbn [run_sessions concat changes flat_map] in *; [exists db; by rewrite app_nil_r|].
  unfold changes in *. rewrite flat_map_app in *. apply all_allowed_app in Ha as [Ha1 Ha2]. rewrite app_assoc, zlen_app in Hb.
  pose proof (zlen_nonneg (flat_map op_changes (concat ss))).
  destruct (run_ops_rep os db xs [] Hdb) as (db1 & xs1 & pend1 & -> & Hdb1 & E1); [by rewrite app_nil_r|rewrite app_nil_r; unfold changes; lia|]. cbn [mbind option_bind].
  rewrite app_nil_r in E1. destruct (reopens db1 xs1 pend1 Hdb1) as (db2 & -> & Hdb2); [rewrite E1; unfold changes; lia|]. cbn [mbind option_bind]. rewrite E1 in Hdb2.
  destruct (IH db2 _ Hdb2) as (db' & E & Hdb'); [by rewrite fold_left_app|rewrite zlen_app; unfold changes; lia|]. exists db'. by rewrite app_assoc.
Qed.

(** ** Torn files *)

Lemma log_prefix (xs : list change) : forall m T Q, log_bytes m xs = T ++ Q ->
  exists xs1 xs2 t, xs = xs1 ++ xs2 /\ T = log_bytes m xs1 ++ t /\
    match xs2 with [] => t = [] | x :: _ => exists q, q <> [] /\ rec_bytes x ++ hash16 ((m ++ hashed xs1) ++ rec_bytes x) = t ++ q end.
Proof.
  induction xs as [|x xs IH]; intros m T Q E; cbn [log_bytes] in E.
  - symmetry in E. apply app_eq_nil in E as [-> ->]. by exists [], [], [].
  - rewrite app_assoc in E. destruct (app_eq_inv _ _ _ _ E) as [([|c k] & E1 & E2)|(k & E1 & E2)].
    + exists [x], xs, []. cbn [log_bytes app]. rewrite !app_nil_r in *. split; [done|]. split; [by rewrite E1|]. destruct xs as [|y xs]; [done|].
      eexists. split; [|reflexivity]. unfold rec_bytes. by cbn.
    + exists [], (x :: xs), T. cbn [log_bytes app]. split; [done|]. split; [done|]. exists (c :: k). split; [done|]. by rewrite app_nil_r.
    + destruct (IH _ _ _ E2) as (xs1 & xs2 & t & -> & -> & H). exists (x :: xs1), xs2, t. cbn [log_bytes app hashed flat_map]. split; [done|].
      split; [by rewrite E1, <- !app_assoc|]. destruct xs2 as [|y xs2]; [exact H|]. by rewrite app_assoc.
Qed.

Lemma load_torn (db : db_t) rec (x : change) (t q data m : list Z) mp fuel : loading db t data m mp -> change_ok x -> is_Some (value rec) -> zlen (m ++ rec_bytes x) < 2 ^ 61 ->
  rec_bytes x ++ hash16 (m ++ rec_bytes x) = t ++ q -> q <> [] -> 8 <= zlen t ->
  exists db', load_loop (Datatypes.S fuel) rec db = Some (LOGDB_ERROR_DATASTREAM_ERROR, db') /\ cb_ctx db' = cb_ctx db.
Proof.
  intros [(f & Ef & Er & Ed) Hc Hh _ _] Hx Hv Hl Et Hq H8. cbn [load_loop]. unfold logdb_record_deser_from_file. rewrite Ef. cbn [mbind option_bind]. rewrite Er, Hh.
  unfold rec_bytes at 1 in Et. rewrite <- !app_assoc in Et.
  assert (exists t', t = record_magic ++ t' /\ hash16 (body x) ++ body x ++ hash16 (body x) ++ hash16 (m ++ rec_bytes x) = t' ++ q) as (t' & -> & Et').
  { destruct (app_eq_inv _ _ _ _ Et) as [(k & E1 & E2)|(k & E1 & E2)]; [|by exists k]. destruct k as [|c k].
    - exists []. rewrite app_nil_r in *. split; [by rewrite E1|]. cbn [app] in *. by rewrite E2.
    - rewrite E1 in *. exfalso. apply (f_equal zlen) in E1. rewrite zlen_app, zlen_cons in E1. change (zlen record_magic) with 8 in E1. pose proof (zlen_nonneg k). lia. }
  rewrite fread_app by done. destruct (hash16_ok (body x)) as [H16 H16l]. destruct (hash16_ok (m ++ rec_bytes x)) as [_ Hckl].
  assert (forall tail, exists ctx', read_fields 16 (sha256_Update (hashctx db) record_magic) ((hash16 (body x) ++ body x ++ hash16 (body x)) ++ tail) rec = Ret (loaded rec x, ctx', tail)) as Hread.
  { intros tail. rewrite <- !app_assoc. destruct (read_fields_app (sha256_Update (hashctx db) record_magic) (m ++ record_magic) tail (hash16 (body x)) (hash16 (body x)) x rec) as (ctx & E & _);
      [apply hashes_update; [exact Hc|by apply is_bytes_of|]|exact Hx|exact Hv|exact H16|exact H16l|exact H16|exact H16l| |by exists ctx].
    - unfold rec_bytes in Hl. rewrite app_assoc, zlen_app in Hl. pose proof (zlen_nonneg (hash16 (body x) ++ body x ++ hash16 (body x))). lia.
    - unfold rec_bytes in Hl. by rewrite app_assoc in Hl. }
  set (whole := hash16 (body x) ++ body x ++ hash16 (body x)) in *.
  assert (whole ++ hash16 (m ++ rec_bytes x) = t' ++ q) as Et2 by by unfold whole; rewrite <- !app_assoc.
  destruct (app_eq_inv _ _ _ _ Et2) as [([|c k] & E1 & E2)|(k & E1 & E2)].
  - rewrite app_nil_r in E1. subst t'. destruct (Hread []) as (ctx & Ec). rewrite app_nil_r in Ec. rewrite Ec. destruct (sha256_Final ctx). cbn [mbind option_bind]. by eexists.
  - destruct (Hread []) as (ctx & Ec). rewrite app_nil_r in Ec. rewrite E1 in Ec.
    rewrite (local_prefix (fun f => read_fields 16 _ f rec) t' (c :: k) _ Ec) by done. cbn [mbind option_bind]. by eexists.
  - rewrite E1. destruct (Hread k) as (ctx & ->). destruct (sha256_Final ctx). unfold fread. rewrite (proj2 (Z.ltb_lt (zlen k) 16)).
    + cbn [mbind option_bind]. by eexists.
    + apply (f_equal zlen) in E2. rewrite zlen_app, Hckl in E2. destruct q as [|d q]; [done|]. rewrite zlen_cons in E2. pose proof (zlen_nonneg q). lia.
Qed.

Lemma run_all (ss : list (list op)) : all_allowed ∅ (changes (concat ss)) -> zlen (changes (concat ss)) < 2 ^ 40 ->
  exists db0 db : db_t, logdb_load logdb_new (Some []) true = Some (true, LOGDB_SUCCESS, db0) /\ run_sessions db0 ss = Some db /\ db_rep db (changes (concat ss)) [].
Proof.
  intros Ha Hb. destruct create_rep as (db0 & E0 & H0). destruct (run_sessions_rep ss db0 [] H0 Ha) as (db & E & Hdb); [cbn [app]; lia|]. by exists db0, db.
Qed.

(** C24: the database is a map that survives any number of sessions.  A database
    is created and goes through sessions, each of which appends, deletes, commits
    transactions and flushes, in any order, and ends with a flush, after which
    the file is loaded into a new database; a last session may leave changes that
    are not flushed.  Then every step succeeds, a key is found with the value of
    its last change, and the number of keys is that of the map.  This holds for
    every memory mapper that implements a map; keys and values have fewer than
    2^16 bytes, and a key is only deleted while the map is not empty. *)
Theorem logdb_sessions (ss : list (list op)) (os : list op) :
  let cs := changes (concat ss ++ os) in
  all_allowed ∅ cs -> zlen cs < 2 ^ 40 ->
  exists db0 db1 db : db_t, logdb_load logdb_new (Some []) true = Some (true, LOGDB_SUCCESS, db0) /\
    run_sessions db0 ss = Some db1 /\ run_ops db1 os = Some db /\
    (forall k, logdb_find db k = Some (fold_left changed cs ∅ !! k)) /\
    logdb_count_keys db = Some (Z.of_nat (size (fold_left changed cs ∅))).
Proof.
  intros cs Ha Hb. unfold cs, changes in *. rewrite flat_map_app in *. apply all_allowed_app in Ha as [Ha1 Ha2]. rewrite zlen_app in Hb.
  pose proof (zlen_nonneg (flat_map op_changes os)). destruct (run_all ss Ha1) as (db0 & db1 & E0 & E1 & H1); [unfold changes; lia|].
  destruct (run_ops_rep os db1 (changes (concat ss)) [] H1) as (db & xs & pend & E & [_ _ _ (s & Es & Hs) _ _] & Ex);
    [by rewrite app_nil_r|rewrite app_nil_r, zlen_app; unfold changes; lia|].
  rewrite app_nil_r in Ex. rewrite Ex in Hs. exists db0, db1, db. split; [exact E0|]. split; [exact E1|]. split; [exact E|].
  unfold logdb_find, logdb_count_keys. rewrite Es. split; [intros k; by apply find_law|by apply size_law].
Qed.

(** C26: a torn file loads as the changes that are completely in it.  When the
    file of any sessions is cut at any point behind its header, loading it finds
    every key as after exactly those changes whose records are complete.  It
    reports an error of the data stream, unless fewer than the eight bytes of the
    magic are left of the next record, which are taken for the end of the file. *)
Theorem logdb_torn (ss : list (list op)) (n : Z) :
  let cs := changes (concat ss) in
  all_allowed ∅ cs -> zlen cs < 2 ^ 40 -> 12 <= n ->
  exists (db0 db1 : db_t) f, logdb_load logdb_new (Some []) true = Some (true, LOGDB_SUCCESS, db0) /\ run_sessions db0 ss = Some db1 /\ file db1 = Some f /\
  let data := ztake n (contents f) in
  exists cs1 cs2 t (db : db_t), cs = cs1 ++ cs2 /\ data = file_header ++ log_bytes [] cs1 ++ t /\
    (match cs2 with [] => t = [] | x :: _ => zlen data < zlen (file_header ++ log_bytes [] (cs1 ++ [x])) end) /\
    logdb_load logdb_new (Some data) false = Some (if zlen t <? 8 then (true, LOGDB_SUCCESS, db) else (false, LOGDB_ERROR_DATASTREAM_ERROR, db)) /\
    forall k, logdb_find db k = Some (fold_left changed cs1 ∅ !! k).
Proof.
  intros cs Ha Hb Hn. destruct (run_all ss Ha Hb) as (db0 & db1 & E0 & E1 & H1). fold cs in H1. destruct (db_file _ _ _ H1) as (f & Ef & Eb & Er).
  exists db0, db1, f. split; [exact E0|]. split; [exact E1|]. split; [exact Ef|]. cbv zeta. unfold contents. rewrite Eb, Er, app_nil_r.
  assert (ztake n (file_header ++ log_bytes [] cs) = file_header ++ ztake (n - 12) (log_bytes [] cs)) as ->.
  { unfold ztake. rewrite take_app_ge by (cbn; lia). do 2 f_equal. cbn. lia. }
  destruct (log_prefix cs [] (ztake (n - 12) (log_bytes [] cs)) (zdrop (n - 12) (log_bytes [] cs))) as (cs1 & cs2 & t & Ecs & Et & Hcs2); [unfold ztake, zdrop; by rewrite take_drop|].
  assert (Forall change_ok cs) as Hok. { pose proof (db_ok _ _ _ H1) as Ho. by rewrite app_nil_r in Ho. }
  rewrite Ecs in Hok, Hb. apply Forall_app in Hok as [Hok1 Hok2]. rewrite zlen_app in Hb. pose proof (zlen_nonneg cs1). pose proof (zlen_nonneg cs2).
  destruct (load_starts _ cs1 t Et Hok1 ltac:(lia)) as (db & rec & fuel & El & Hld & Hv). rewrite El, Et. clear El.
  assert (exists db' : db_t, load_loop (Datatypes.S fuel) rec db = Some (if zlen t <? 8 then LOGDB_SUCCESS else LOGDB_ERROR_DATASTREAM_ERROR, db') /\
    exists s, cb_ctx db' = Some s /\ map_rep s (fold_left changed cs1 ∅)) as (db' & El & s & Es & Hs).
  { destruct (Z.ltb_spec (zlen t) 8) as [Ht|Ht].
    - destruct (load_ends db rec t _ _ _ fuel Hld Ht) as (db' & E & Hld'). exists db'. split; [exact E|]. apply (loading_map _ _ _ _ _ Hld').
    - destruct cs2 as [|x cs2]; [rewrite Hcs2 in Ht; by cbn in Ht|]. destruct Hcs2 as (q & Hq & Eq). cbn [app] in Eq. apply list.Forall_cons in Hok2 as [Hx _].
      destruct (load_torn db rec x t q _ _ _ fuel Hld Hx Hv) as (db' & E & Ecb); [|exact Eq|exact Hq|exact Ht|].
      + destruct (hashed_ok cs1 Hok1) as [_ H2]. destruct (rec_bytes_ok x Hx) as [_ H3]. rewrite zlen_app. lia.
      + exists db'. split; [exact E|]. rewrite Ecb. apply (loading_map _ _ _ _ _ Hld). }
  exists cs1, cs2, t, db'. split; [exact Ecs|]. split; [done|]. split; [|split].
  - destruct cs2 as [|x cs2]; [exact Hcs2|]. destruct Hcs2 as (q & Hq & Eq). rewrite log_bytes_app. cbn [log_bytes]. rewrite app_nil_r, Eq, !zlen_app.
    destruct q as [|c q]; [done|]. rewrite zlen_cons. pose proof (zlen_nonneg q). lia.
  - rewrite El. cbn [mbind option_bind]. by destruct (zlen t <? 8).
  - intros k. unfold logdb_find. rewrite Es. by apply find_law.
Qed.

End Mapper.

(** ** Examples *)

Abbreviation llist_db := (logdb_log_db logdb_llist_db).

(** Two sessions: a key is written and changed, another is committed and deleted. *)
Definition example_sessions : list (list op) := [[OAppend [1] [10]; OFlush; OAppend [1] [11; 12]]; [OCommit [([2], Some [20]); ([3], Some [])]; ODelete [2]]].

Lemma example_allowed : all_allowed ∅ (changes (concat example_sessions)).
Proof. repeat split; try (by apply is_bytes_of); try (intros _; by vm_compute); intros ?; by vm_compute. Qed.

Lemma logdb_sessions_witness : exists db0 db1 db : llist_db, run_sessions db0 example_sessions = Some db1 /\ run_ops db1 [] = Some db /\
  logdb_find db [1] = Some (Some [11; 12]) /\ logdb_find db [2] = Some None /\ logdb_count_keys db = Some 2.
Proof.
  destruct (logdb_sessions (S := logdb_llist_db) example_sessions []) as (db0 & db1 & db & _ & E1 & E2 & Hf & Hc); [rewrite app_nil_r; exact example_allowed|by vm_compute|].
  exists db0, db1, db. split; [exact E1|]. split; [exact E2|]. split; [rewrite Hf; by vm_compute|]. split; [rewrite Hf; by vm_compute|]. rewrite Hc. by vm_compute.
Defined.

Lemma logdb_torn_witness : exists (db0 db1 : llist_db) f, logdb_load logdb_new (Some []) true = Some (true, LOGDB_SUCCESS, db0) /\
  run_sessions db0 example_sessions = Some db1 /\ file db1 = Some f.
Proof.
  destruct (logdb_torn (S := logdb_llist_db) example_sessions 40) as (db0 & db1 & f & E0 & E1 & E2 & _); [exact example_allowed|by vm_compute|lia|].
  exists db0, db1, f. split; [exact E0|]. by split.
Defined.

(** The length of a longer value is five bytes, which are read into four. *)
Example long_value_overrun : read_varlen (varlen_bytes 65536) = Undef.
Proof. reflexivity. Qed.

(** The start of a record that was cut off is taken for the end of the file,
    but stays in it: what is written behind it cannot be loaded. *)
Example torn_then_flushed :
  ('(_, _, db) ← logdb_load (S := logdb_llist_db) logdb_new (Some (file_header ++ [0x88; 0x61])) false;
   db ← run_ops db [OAppend [1] [10]; OFlush]; f ← file db;
   '(ok, e, _) ← logdb_load (S := logdb_llist_db) logdb_new (Some (contents f)) false; Some (ok, e)) = Some (false, LOGDB_ERROR_DATASTREAM_ERROR).
Proof. vm_compute. reflexivity. Qed.
