(* ===== verification/Protocol.v ===== *)
(** * protocol.c: messages of the peer to peer network

    A message is a header of 24 bytes (network, command, length, checksum) and
    a payload.  Socket addresses are the bytes of the structs of the C library
    on Linux; the clock and the random nonce are arguments. *)

From S2P Require Import Prelude.
From S2P Require Import Cstr.
From S2P Require Import Serialize.
From S2P Require Import Sha2.
From S2P Require Import Sha2Spec.
From S2P Require Import Ripemd160.
From S2P Require Import Script.
From S2P Require Import Tx.

(** ** Data *)

Definition BTC_ADDR_TIME_VERSION : Z := 31402.
Definition BTC_P2P_HDRSZ : Z := 24.
Definition BTC_MAX_P2P_MSG_SIZE : Z := 0x02000000.
Definition BTC_PROTOCOL_VERSION : Z := 70014.
Definition BTC_NODE_NETWORK : Z := 1.
Definition NULLHASH : list Z := replicate 32 0.

(** The names of commands as the bytes of their text. *)
Definition BTC_MSG_VERSION : list Z := [118; 101; 114; 115; 105; 111; 110].
Definition BTC_MSG_VERACK : list Z := [118; 101; 114; 97; 99; 107].
Definition BTC_MSG_PING : list Z := [112; 105; 110; 103].
Definition BTC_MSG_PONG : list Z := [112; 111; 110; 103].

Record btc_p2p_msg_hdr := mk_hdr { netmagic : list Z; command : list Z; data_len : Z; hdr_hash : list Z }.
Record btc_p2p_inv_msg := mk_inv { inv_type : Z; inv_hash : list Z }.
Record btc_p2p_address := mk_address { addr_time : Z; addr_services : Z; ip : list Z; port : Z }.
Record btc_p2p_version_msg := mk_version {
  v_version : Z; v_services : Z; v_timestamp : Z; v_addr_recv : btc_p2p_address; v_addr_from : btc_p2p_address;
  v_nonce : Z; v_useragent : list Z; v_start_height : Z; v_relay : Z }.

(** ** Addresses *)

Definition BTC_IPV4_PREFIX : list Z := replicate 10 0 ++ [0xff; 0xff].
Definition is_ipv4_mapped (ipaddr : list Z) : bool := bool_decide (ztake 12 ipaddr = BTC_IPV4_PREFIX).

Definition btc_p2p_address_init : btc_p2p_address := mk_address 0 0 (replicate 16 0) 0.

Definition btc_p2p_deser_addr (protocol_version : Z) (buf : const_buffer) : outcome (btc_p2p_address * const_buffer) :=
  '(t, buf) ← (if BTC_ADDR_TIME_VERSION <=? protocol_version then deser_u32 buf else Ret (0, buf));
  '(services, buf) ← deser_u64 buf;
  '(a, buf) ← deser_bytes buf 16;
  '(p, buf) ← deser_u16 buf;
  Ret (mk_address t services a p, buf).

Definition btc_p2p_ser_addr (protover : Z) (addr : btc_p2p_address) (s : cstring) : option cstring :=
  s ← (if BTC_ADDR_TIME_VERSION <=? protover then ser_u32 s (addr_time addr) else Some s);
  s ← ser_u64 s (addr_services addr);
  s ← ser_bytes s (ztake 16 (ip addr));
  ser_u16 s (port addr).

(** The fields of [struct sockaddr_in] and [struct sockaddr_in6]: the family and
    the port are the first four bytes, the address follows at 4 or at 8. *)
Definition AF_INET : Z := 2.
Definition AF_INET6 : Z := 10.

Definition mem_at (a : list Z) (off n : Z) : option (list Z) :=
  if zlen a <? off + n then None else Some (ztake n (zdrop off a)).

Definition btc_addr_to_p2paddr (addr : list Z) (addr_out : btc_p2p_address) : option btc_p2p_address :=
  family ← mem_at addr 0 2;
  if le_val family =? AF_INET6 then
    p ← mem_at addr 2 2;
    a ← mem_at addr 8 16;
    Some (mk_address (addr_time addr_out) (addr_services addr_out) a (be_val p))
  else if le_val family =? AF_INET then
    p ← mem_at addr 2 2;
    a ← mem_at addr 4 4;
    Some (mk_address (addr_time addr_out) (addr_services addr_out) (replicate 10 0 ++ [0xff; 0xff] ++ a) (be_val p))
  else Some addr_out.

(** The family is left as it is. *)
Definition btc_p2paddr_to_addr (p2p_addr : btc_p2p_address) (addr_out : list Z) : option (list Z) :=
  let p := be_bytes 2 (port p2p_addr) in
  if negb (is_ipv4_mapped (ip p2p_addr)) then
    if zlen addr_out <? 24 then None else
    Some (ztake 2 addr_out ++ p ++ ztake 4 (zdrop 4 addr_out) ++ ztake 16 (ip p2p_addr) ++ zdrop 24 addr_out)
  else
    if zlen addr_out <? 8 then None else
    Some (ztake 2 addr_out ++ p ++ ztake 4 (zdrop 12 (ip p2p_addr)) ++ zdrop 8 addr_out).

(** ** Frames *)

(** [memcpy (command_null, command, strlen (command))] into 12 bytes. *)
Definition command_null (command : list Z) : option (list Z) :=
  if 12 <? zlen command then None else Some (command ++ replicate (Z.to_nat (12 - zlen command)) 0).

Definition btc_p2p_message_new (netmagic command data : list Z) : option cstring :=
  s ← new_sz (u32 (BTC_P2P_HDRSZ + zlen data));
  s ← ser_bytes s (ztake 4 netmagic);
  c ← command_null command;
  s ← ser_bytes s c;
  s ← ser_bytes s (le_bytes 4 (zlen data));
  s ← ser_bytes s (ztake 4 (btc_hash data));
  if 0 <? zlen data then ser_bytes s data else Some s.

(** A field keeps its value when the buffer is too short. *)
Definition or_keep {A} (old : A) (buf : const_buffer) (r : outcome (A * const_buffer)) : A * const_buffer :=
  match r with Ret (v, b) => (v, b) | _ => (old, buf) end.

Definition btc_p2p_deser_msghdr (hdr : btc_p2p_msg_hdr) (buf : const_buffer) : btc_p2p_msg_hdr * const_buffer :=
  let '(m, buf) := or_keep (netmagic hdr) buf (deser_bytes buf 4) in
  let '(c, buf) := or_keep (command hdr) buf (deser_bytes buf 12) in
  let '(n, buf) := or_keep (data_len hdr) buf (deser_u32 buf) in
  let '(h, buf) := or_keep (hdr_hash hdr) buf (deser_bytes buf 4) in
  (mk_hdr m c n h, buf).

(** ** The version message *)

(** [now] and [nonce] stand for the clock and the random bytes. *)
Definition btc_p2p_msg_version_init (msg : btc_p2p_version_msg) (addrFrom addrTo : option btc_p2p_address)
    (strSubVer : option (list Z)) (relay now nonce : Z) : btc_p2p_version_msg :=
  let ua := match strSubVer with
    | Some s => if zlen s <? 128 then s ++ zdrop (zlen s) (v_useragent msg) else v_useragent msg
    | None => v_useragent msg
    end in
  mk_version BTC_PROTOCOL_VERSION 0 now (default btc_p2p_address_init addrTo) (default btc_p2p_address_init addrFrom) nonce ua 0 (u8 relay).

Definition btc_p2p_msg_version_ser (msg : btc_p2p_version_msg) (buf : cstring) : option cstring :=
  buf ← ser_s32 buf (v_version msg);
  buf ← ser_u64 buf (v_services msg);
  buf ← ser_s64 buf (v_timestamp msg);
  buf ← btc_p2p_ser_addr 0 (v_addr_recv msg) buf;
  buf ← btc_p2p_ser_addr 0 (v_addr_from msg) buf;
  buf ← ser_u64 buf (v_nonce msg);
  buf ← ser_str buf (v_useragent msg) 1024;
  buf ← ser_s32 buf (v_start_height msg);
  '(_, buf) ← cstr_append_c buf (v_relay msg);
  Some buf.

Definition btc_p2p_msg_version_deser (buf : const_buffer) : outcome (btc_p2p_version_msg * const_buffer) :=
  '(version, buf) ← deser_s32 buf;
  '(services, buf) ← deser_u64 buf;
  '(timestamp, buf) ← deser_s64 buf;
  '(addr_recv, buf) ← btc_p2p_deser_addr 0 buf;
  '(addr_from, buf) ← btc_p2p_deser_addr 0 buf;
  '(nonce, buf) ← deser_u64 buf;
  '(ua_len, buf) ← deser_varlen buf;
  let cpy_len := if 128 <? ua_len then 128 else ua_len in
  if 1024 <? ua_len then Fail else
  '(ua_str, buf) ← deser_bytes buf ua_len;
  let ua := ztake cpy_len ua_str ++ replicate (Z.to_nat (128 - cpy_len)) 0 in
  '(start_height, buf) ← deser_s32 buf;
  '(relay, buf) ← (if 70001 <? version then '(b, buf) ← deser_bytes buf 1; Ret (le_val b, buf) else Ret (0, buf));
  Ret (mk_version version services timestamp addr_recv addr_from nonce ua start_height relay, buf).

(** ** Inventories and block locators *)

Definition btc_p2p_msg_inv_init (type : Z) (hash : list Z) : btc_p2p_inv_msg := mk_inv type (ztake 32 hash).

Definition btc_p2p_msg_inv_ser (msg : btc_p2p_inv_msg) (buf : cstring) : option cstring :=
  buf ← ser_u32 buf (inv_type msg);
  ser_bytes buf (ztake 32 (inv_hash msg)).

Definition btc_p2p_msg_inv_deser (buf : const_buffer) : outcome (btc_p2p_inv_msg * const_buffer) :=
  '(t, buf) ← deser_u32 buf;
  '(h, buf) ← deser_u256 buf;
  Ret (mk_inv t h, buf).

(** A null [hashstop] is written as the hash of zeros. *)
Definition btc_p2p_msg_getheaders (blocklocators : list (list Z)) (hashstop : option (list Z)) (s : cstring) : option cstring :=
  s ← ser_u32 s (u32 BTC_PROTOCOL_VERSION);
  s ← ser_varlen s (u32 (zlen blocklocators));
  s ← for_each (fun hash s => ser_bytes s (ztake 32 hash)) blocklocators s;
  ser_bytes s (ztake 32 (default NULLHASH hashstop)).

(** [vector_resize]: a longer vector is cut, a shorter one keeps its length. *)
Definition resize_locators (l : list (list Z)) (newsz : Z) : list (list Z) := if newsz <? zlen l then ztake newsz l else l.

Definition btc_p2p_deser_msg_getheaders (blocklocators : list (list Z)) (buf : const_buffer) :
    outcome (list (list Z) * list Z * const_buffer) :=
  '(_, buf) ← deser_s32 buf;
  '(vsize, buf) ← deser_varlen buf;
  let l := resize_locators blocklocators vsize in
  '(ok, l, buf) ← deser_loop deser_u256 (Z.to_nat vsize) buf l;
  if negb (ok : bool) then Fail else
  '(hashstop, buf) ← deser_u256 buf;
  Ret (l, hashstop, buf).

(** ** Reference encodings *)

Definition addr_bytes (protover : Z) (a : btc_p2p_address) : list Z :=
  (if BTC_ADDR_TIME_VERSION <=? protover then le_bytes 4 (addr_time a) else []) ++
  le_bytes 8 (addr_services a) ++ ip a ++ le_bytes 2 (port a).

(** An address in range; without its time when that is not sent. *)
Definition addr_ok (a : btc_p2p_address) : Prop :=
  0 <= addr_time a < 2 ^ 32 /\ 0 <= addr_services a < 2 ^ 64 /\ zlen (ip a) = 16 /\ 0 <= port a < 2 ^ 16.
Definition addr_sent (protover : Z) (a : btc_p2p_address) : btc_p2p_address :=
  mk_address (if BTC_ADDR_TIME_VERSION <=? protover then addr_time a else 0) (addr_services a) (ip a) (port a).

(** The text of a user agent, in its array of 128 characters. *)
Definition agent_array (text : list Z) : list Z := text ++ replicate (Z.to_nat (128 - zlen text)) 0.
Definition agent_ok (text : list Z) : Prop := Forall (fun c => c <> 0) text /\ zlen text < 128.

Definition version_bytes (m : btc_p2p_version_msg) (text : list Z) : list Z :=
  le_bytes 4 (u32 (v_version m)) ++ le_bytes 8 (v_services m) ++ le_bytes 8 (u64 (v_timestamp m)) ++
  addr_bytes 0 (v_addr_recv m) ++ addr_bytes 0 (v_addr_from m) ++ le_bytes 8 (v_nonce m) ++ varstr_bytes text ++
  le_bytes 4 (u32 (v_start_height m)) ++ [v_relay m].

Definition version_ok (m : btc_p2p_version_msg) : Prop :=
  - 2 ^ 31 <= v_version m < 2 ^ 31 /\ 0 <= v_services m < 2 ^ 64 /\ - 2 ^ 63 <= v_timestamp m < 2 ^ 63 /\
  addr_ok (v_addr_recv m) /\ addr_ok (v_addr_from m) /\ 0 <= v_nonce m < 2 ^ 64 /\
  - 2 ^ 31 <= v_start_height m < 2 ^ 31 /\ is_byte (v_relay m).

Definition frame_bytes (magic cmd data : list Z) : list Z :=
  magic ++ cmd ++ replicate (Z.to_nat (12 - zlen cmd)) 0 ++ le_bytes 4 (zlen data) ++ ztake 4 (dsha data) ++ data.

(** ** Writers *)

Lemma appends_addr (protover : Z) (a : btc_p2p_address) : addr_ok a ->
  Appends (btc_p2p_ser_addr protover a) (addr_bytes protover a).
Proof.
  intros (_ & _ & Hl & _). unfold btc_p2p_ser_addr, addr_bytes. rewrite ztake_all by lia.
  apply (appends_bind (fun s => if BTC_ADDR_TIME_VERSION <=? protover then ser_u32 s (addr_time a) else Some s));
    [destruct (_ <=? _); [apply appends_u32|apply appends_skip]|].
  apply (appends_bind (fun s => ser_u64 s (addr_services a))); [apply appends_u64|].
  apply (appends_bind (fun s => ser_bytes s (ip a))); [apply appends_bytes|apply appends_u16].
Qed.

Lemma strnlen_array (text : list Z) (m : nat) : Forall (fun c => c <> 0) text -> (length text < m)%nat -> forall z,
  strnlen (text ++ 0 :: z) m = Some (zlen text).
Proof.
  intros Ht. revert m. induction Ht as [|c text Hc Ht IH]; intros m Hm z; (destruct m as [|m]; [cbn [length] in Hm; lia|]); cbn [app strnlen]; [done|].
  rewrite (proj2 (Z.eqb_neq c 0) Hc), IH by (cbn [length] in Hm; lia). cbn [mbind option_bind]. by rewrite zlen_cons.
Qed.

Lemma agent_split (text : list Z) : zlen text < 128 -> agent_array text = text ++ 0 :: replicate (Z.to_nat (127 - zlen text)) 0.
Proof. intros Hl. unfold agent_array. replace (Z.to_nat (128 - zlen text)) with (S (Z.to_nat (127 - zlen text))) by lia. done. Qed.

Lemma appends_agent (text : list Z) : agent_ok text -> Appends (fun s => ser_str s (agent_array text) 1024) (varstr_bytes text).
Proof.
  intros [Ht Hl]. unfold ser_str. rewrite agent_split, strnlen_array by (assumption || (unfold zlen in Hl; lia)). cbn [mbind option_bind].
  pose proof (zlen_nonneg text). rewrite wrap_small, ztake_app_len by lia. unfold varstr_bytes.
  apply appends_bind; [apply appends_varlen; lia|apply _].
Qed.

Lemma appends_relay (c : Z) : Appends (fun s => '(_, s) ← cstr_append_c s c; Some s) [c].
Proof. apply (appends_bytes [c]). Qed.

Lemma appends_version (m : btc_p2p_version_msg) (text : list Z) : version_ok m -> agent_ok text -> v_useragent m = agent_array text ->
  Appends (btc_p2p_msg_version_ser m) (version_bytes m text).
Proof.
  intros (_ & _ & _ & Hr & Hf & _) Ha Eu. unfold btc_p2p_msg_version_ser, version_bytes. rewrite Eu.
  apply (appends_bind (fun s => ser_s32 s (v_version m))); [apply appends_s32|].
  apply (appends_bind (fun s => ser_u64 s (v_services m))); [apply appends_u64|].
  apply (appends_bind (fun s => ser_s64 s (v_timestamp m))); [apply appends_s64|].
  apply (appends_bind (btc_p2p_ser_addr 0 (v_addr_recv m))); [by apply appends_addr|].
  apply (appends_bind (btc_p2p_ser_addr 0 (v_addr_from m))); [by apply appends_addr|].
  apply (appends_bind (fun s => ser_u64 s (v_nonce m))); [apply appends_u64|].
  apply (appends_bind (fun s => ser_str s (agent_array text) 1024)); [by apply appends_agent|].
  apply (appends_bind (fun s => ser_s32 s (v_start_height m))); [apply appends_s32|]. apply appends_relay.
Qed.

(** ** Readers *)

Lemma deser_addr_app (protover : Z) (a : btc_p2p_address) (b : list Z) : addr_ok a ->
  btc_p2p_deser_addr protover (addr_bytes protover a ++ b) = Ret (addr_sent protover a, b).
Proof.
  intros (Ht & Hs & Hl & Hp). unfold btc_p2p_deser_addr, addr_bytes, addr_sent. destruct (_ <=? _); rewrite <- ?app_assoc; cbn [app].
  - rewrite deser_u32_app by exact Ht. cbn [mbind outcome_bind]. rewrite deser_u64_app by exact Hs. cbn [mbind outcome_bind].
    rewrite deser_bytes_app by lia. cbn [mbind outcome_bind]. by rewrite deser_u16_app by exact Hp.
  - cbn [mbind outcome_bind]. rewrite deser_u64_app by exact Hs. cbn [mbind outcome_bind].
    rewrite deser_bytes_app by lia. cbn [mbind outcome_bind]. by rewrite deser_u16_app by exact Hp.
Qed.

Lemma deser_version_app (m : btc_p2p_version_msg) (text b : list Z) : version_ok m -> agent_ok text -> v_useragent m = agent_array text ->
  btc_p2p_msg_version_deser (version_bytes m text ++ b) =
  Ret (mk_version (v_version m) (v_services m) (v_timestamp m) (addr_sent 0 (v_addr_recv m)) (addr_sent 0 (v_addr_from m)) (v_nonce m)
         (v_useragent m) (v_start_height m) (if 70001 <? v_version m then v_relay m else 0),
       (if 70001 <? v_version m then [] else [v_relay m]) ++ b).
Proof.
  intros (Hv & Hs & Ht & Hr & Hf & Hn & Hh & Hy) [_ Hl] Eu. unfold btc_p2p_msg_version_deser, version_bytes. rewrite <- !app_assoc.
  pose proof (zlen_nonneg text).
  rewrite deser_s32_app by exact Hv. cbn [mbind outcome_bind]. rewrite deser_u64_app by exact Hs. cbn [mbind outcome_bind].
  rewrite deser_s64_app by exact Ht. cbn [mbind outcome_bind]. rewrite deser_addr_app by exact Hr. cbn [mbind outcome_bind].
  rewrite deser_addr_app by exact Hf. cbn [mbind outcome_bind]. rewrite deser_u64_app by exact Hn. cbn [mbind outcome_bind].
  unfold varstr_bytes. rewrite <- app_assoc, deser_varlen_app by lia. cbn [mbind outcome_bind].
  rewrite (proj2 (Z.ltb_ge 128 _)), (proj2 (Z.ltb_ge 1024 _)) by lia. rewrite deser_bytes_app by reflexivity. cbn [mbind outcome_bind].
  rewrite deser_s32_app by exact Hh. cbn [mbind outcome_bind]. rewrite ztake_all, Eu by lia.
  destruct (70001 <? v_version m); [|reflexivity]. rewrite (deser_bytes_app [_]) by reflexivity. cbn [mbind outcome_bind le_val].
  by rewrite Z.mul_0_r, Z.add_0_r.
Qed.

(** ** Frames *)

Definition padded (cmd : list Z) : list Z := cmd ++ replicate (Z.to_nat (12 - zlen cmd)) 0.

Lemma zlen_padded (cmd : list Z) : zlen cmd <= 12 -> zlen (padded cmd) = 12.
Proof. intros Hl. pose proof (zlen_nonneg cmd). unfold padded. rewrite zlen_app, zlen_replicate. lia. Qed.

Definition frame_hdr (magic cmd data : list Z) : btc_p2p_msg_hdr := mk_hdr magic (padded cmd) (zlen data) (ztake 4 (dsha data)).

Lemma frame_split (magic cmd data : list Z) :
  frame_bytes magic cmd data = magic ++ padded cmd ++ le_bytes 4 (zlen data) ++ ztake 4 (dsha data) ++ data.
Proof. unfold frame_bytes, padded. by rewrite <- app_assoc. Qed.

Lemma appends_frame (magic cmd data : list Z) : is_bytes data -> zlen data < 2 ^ 29 ->
  Appends (fun s => s ← ser_bytes s magic; s ← ser_bytes s (padded cmd); s ← ser_bytes s (le_bytes 4 (zlen data));
    s ← ser_bytes s (ztake 4 (btc_hash data)); if 0 <? zlen data then ser_bytes s data else Some s) (frame_bytes magic cmd data).
Proof.
  intros Hb Hl. rewrite frame_split. unfold btc_hash. rewrite double_sha by (assumption || lia).
  apply (appends_bind (fun s => ser_bytes s magic)); [apply appends_bytes|].
  apply (appends_bind (fun s => ser_bytes s (padded cmd))); [apply appends_bytes|].
  apply (appends_bind (fun s => ser_bytes s (le_bytes 4 (zlen data)))); [apply appends_bytes|].
  apply (appends_bind (fun s => ser_bytes s (ztake 4 (dsha data)))); [apply appends_bytes|].
  destruct (Z.ltb_spec 0 (zlen data)); [apply appends_bytes|]. destruct data; [apply appends_skip|zlia].
Qed.

Lemma message_new_spec (magic cmd data : list Z) : zlen magic = 4 -> zlen cmd <= 12 -> is_bytes data -> zlen data < 2 ^ 29 ->
  exists s, btc_p2p_message_new magic cmd data = Some s /\ rep_str s (frame_bytes magic cmd data).
Proof.
  intros Hm Hc Hb Hl. unfold btc_p2p_message_new, command_null, BTC_P2P_HDRSZ. rewrite (proj2 (Z.ltb_ge 12 _)) by lia.
  rewrite (ztake_all 4 magic) by lia. fold (padded cmd). pose proof (zlen_nonneg data). rewrite wrap_small by lia.
  destruct (new_sz_ok (24 + zlen data)) as (s & -> & Hwf & Hs & Hl0); [lia|]. cbn [mbind option_bind].
  destruct (appends_frame magic cmd data Hb Hl s Hwf) as (s' & E & Hwf' & Hs').
  { rewrite frame_split, Hl0, !zlen_app, zlen_padded by lia. rewrite zlen_le_bytes, zlen_ztake, Hm. lia. }
  exists s'. split; [exact E|]. split; [exact Hwf'|]. unfold cstr_holds. by rewrite Hs', Hs.
Qed.

Lemma deser_msghdr_app (h : btc_p2p_msg_hdr) (magic cmd data rest : list Z) : zlen magic = 4 -> zlen cmd <= 12 -> zlen data < 2 ^ 32 ->
  btc_p2p_deser_msghdr h (frame_bytes magic cmd data ++ rest) = (frame_hdr magic cmd data, data ++ rest).
Proof.
  intros Hm Hc Hl. unfold btc_p2p_deser_msghdr. rewrite frame_split, <- !app_assoc. pose proof (zlen_nonneg data).
  rewrite (deser_bytes_app magic) by lia. cbn [or_keep]. rewrite (deser_bytes_app (padded cmd)) by (rewrite zlen_padded; lia). cbn [or_keep].
  rewrite deser_u32_app by lia. cbn [or_keep]. rewrite (deser_bytes_app (ztake 4 (dsha data))); [reflexivity|].
  rewrite zlen_ztake, (proj1 (dsha_ok data)). reflexivity.
Qed.

(** ** Inventories and locators *)

Definition inv_bytes (m : btc_p2p_inv_msg) : list Z := le_bytes 4 (inv_type m) ++ inv_hash m.

Definition getheaders_bytes (locators : list (list Z)) (hashstop : list Z) : list Z :=
  le_bytes 4 BTC_PROTOCOL_VERSION ++ varlen_bytes (zlen locators) ++ flat_map id locators ++ hashstop.

(** Inventory entries and requests for headers are read back; the locators are
    appended to what [vector_resize] leaves of the caller's vector. *)
Lemma inv_roundtrip (m : btc_p2p_inv_msg) (b : list Z) : 0 <= inv_type m < 2 ^ 32 -> zlen (inv_hash m) = 32 ->
  Appends (btc_p2p_msg_inv_ser m) (inv_bytes m) /\ btc_p2p_msg_inv_deser (inv_bytes m ++ b) = Ret (m, b).
Proof.
  intros Ht Hl. unfold btc_p2p_msg_inv_ser, btc_p2p_msg_inv_deser, inv_bytes. rewrite ztake_all by lia. split.
  - apply (appends_bind (fun s => ser_u32 s (inv_type m))); [apply appends_u32|apply appends_bytes].
  - rewrite <- app_assoc, deser_u32_app by exact Ht. cbn [mbind outcome_bind]. rewrite deser_u256_app by exact Hl. by destruct m.
Qed.

Lemma getheaders_roundtrip (locators old : list (list Z)) (hashstop : option (list Z)) (b : list Z) :
  Forall (fun h => zlen h = 32) locators -> zlen (default NULLHASH hashstop) = 32 -> zlen locators < 2 ^ 25 ->
  let bs := getheaders_bytes locators (default NULLHASH hashstop) in
  Appends (btc_p2p_msg_getheaders locators hashstop) bs /\
  btc_p2p_deser_msg_getheaders old (bs ++ b) = Ret (resize_locators old (zlen locators) ++ locators, default NULLHASH hashstop, b).
Proof.
  intros Hf Hs Hl bs. pose proof (zlen_nonneg locators). unfold bs, getheaders_bytes. split.
  - unfold btc_p2p_msg_getheaders. rewrite (ztake_all 32 (default _ _)) by lia.
    apply (appends_bind (fun s => ser_u32 s (u32 BTC_PROTOCOL_VERSION))); [apply appends_u32|].
    apply (appends_bind (fun s => ser_varlen s (u32 (zlen locators)))); [apply appends_count; lia|].
    apply (appends_bind (for_each (fun hash s => ser_bytes s (ztake 32 hash)) locators)); [|apply appends_bytes].
    apply appends_for_each. apply (list.Forall_impl _ _ _ Hf). intros h Hh. rewrite ztake_all by lia. apply appends_bytes.
  - unfold btc_p2p_deser_msg_getheaders. rewrite <- !app_assoc. rewrite (deser_s32_app BTC_PROTOCOL_VERSION) by (by vm_compute).
    cbn [mbind outcome_bind]. rewrite deser_varlen_app by lia. cbn [mbind outcome_bind]. replace (Z.to_nat (zlen locators)) with (length locators) by (unfold zlen; lia).
    destruct (deser_loop_app eq deser_u256 id locators (default NULLHASH hashstop ++ b) (resize_locators old (zlen locators)))
      as (xs & -> & Hxs).
    { intros h c Hh. exists h. split; [|reflexivity]. apply deser_u256_app. by rewrite list.Forall_forall in Hf; apply Hf. }
    cbn [mbind outcome_bind negb]. rewrite deser_u256_app by exact Hs. cbn [mbind outcome_bind].
    apply list_eq_Forall2 in Hxs. by rewrite Hxs.
Qed.

(** ** The claim *)

(** C33: the version message is exchanged faithfully.  A message in range,
    whose user agent is a text of fewer than 128 characters, is written and
    framed; whatever follows it in the stream, the header read back gives the
    network, the command padded to 12 bytes, the length and the checksum of the
    payload, and the payload is read back to the same message, except that the
    two addresses lose their time stamps and the relay flag is only read for
    versions above 70001. *)
Theorem p2p_version_exchange (magic text rest : list Z) (m : btc_p2p_version_msg) (h : btc_p2p_msg_hdr) :
  zlen magic = 4 -> version_ok m -> agent_ok text -> is_bytes (version_bytes m text) -> v_useragent m = agent_array text ->
  exists s payload f stream,
    new_sz 256 = Some s /\ btc_p2p_msg_version_ser m s = Some payload /\ cstr_bytes payload = Some (version_bytes m text) /\
    btc_p2p_message_new magic BTC_MSG_VERSION (version_bytes m text) = Some f /\ cstr_bytes f = Some stream /\
    zlen stream = BTC_P2P_HDRSZ + zlen (version_bytes m text) /\
    let '(hdr, buf) := btc_p2p_deser_msghdr h (stream ++ rest) in
    hdr = mk_hdr magic (BTC_MSG_VERSION ++ replicate 5 0) (zlen (version_bytes m text)) (ztake 4 (dsha (version_bytes m text))) /\
    btc_p2p_msg_version_deser buf =
      Ret (mk_version (v_version m) (v_services m) (v_timestamp m) (addr_sent 0 (v_addr_recv m)) (addr_sent 0 (v_addr_from m)) (v_nonce m)
             (v_useragent m) (v_start_height m) (if 70001 <? v_version m then v_relay m else 0),
           (if 70001 <? v_version m then [] else [v_relay m]) ++ rest).
Proof.
  intros Hm Hv Ha Hb Eu. assert (zlen (version_bytes m text) < 2 ^ 10) as Hl.
  { destruct Hv as (_ & _ & _ & (_ & _ & Hr & _) & (_ & _ & Hf & _) & _). destruct Ha as [_ Ha]. unfold version_bytes, addr_bytes, varstr_bytes, varlen_bytes.
    pose proof (zlen_nonneg text). rewrite (proj2 (Z.ltb_lt (zlen text) 253)) by lia. change (BTC_ADDR_TIME_VERSION <=? 0) with false. cbn [app]. zlia. }
  destruct (fresh_writes 256 _ _ ltac:(lia) (appends_version m text Hv Ha Eu) ltac:(lia)) as (s & payload & E1 & E2 & _ & _ & E3).
  destruct (message_new_spec magic BTC_MSG_VERSION (version_bytes m text) Hm ltac:(by vm_compute) Hb ltac:(lia)) as (f & E4 & _ & E5).
  exists s, payload, f, (frame_bytes magic BTC_MSG_VERSION (version_bytes m text)). split; [exact E1|]. split; [exact E2|]. split; [exact E3|].
  split; [exact E4|]. split; [by apply holds_bytes|]. split.
  { rewrite frame_split, !zlen_app, zlen_padded, zlen_le_bytes, zlen_ztake, (proj1 (dsha_ok _)), Hm by (by vm_compute). unfold BTC_P2P_HDRSZ. lia. }
  rewrite deser_msghdr_app; [|exact Hm|by vm_compute|lia]. split; [reflexivity|]. by apply deser_version_app.
Qed.

Definition example_version : btc_p2p_version_msg :=
  mk_version 70014 1 1500000000 btc_p2p_address_init btc_p2p_address_init 7 (agent_array [47; 97; 47]) (-1) 1.

Lemma p2p_version_exchange_witness : exists f stream,
  btc_p2p_message_new [1; 2; 3; 4] BTC_MSG_VERSION (version_bytes example_version [47; 97; 47]) = Some f /\ cstr_bytes f = Some stream /\ zlen stream = 113.
Proof.
  destruct (p2p_version_exchange [1; 2; 3; 4] [47; 97; 47] [] example_version (mk_hdr [] [] 0 [])) as (s & p & f & st & _ & _ & _ & Ef & Es & El & _);
    [reflexivity|by vm_compute|split; [repeat constructor; discriminate|reflexivity]|by apply is_bytes_of|reflexivity|].
  exists f, st. split; [exact Ef|]. split; [exact Es|exact El].
Defined.

(** A user agent of 128 characters or more fills the array and has no
    terminator: it cannot be written again. *)
Example agent_not_terminated (m : btc_p2p_version_msg) (s : cstring) :
  v_useragent m = replicate 128 97 -> ser_str s (v_useragent m) 1024 = None.
Proof. intros ->. reflexivity. Qed.

(** A command of more than 12 characters overruns its array. *)
Example command_overrun : btc_p2p_message_new [1; 2; 3; 4] (replicate 13 97) [] = None.
Proof. vm_compute. reflexivity. Qed.

(** The family of the socket address is not written. *)
Example addr_family_kept : btc_p2paddr_to_addr (mk_address 0 0 (replicate 10 0 ++ [255; 255; 127; 0; 0; 1]) 8333) (replicate 16 0) =
  Some ([0; 0; 32; 141; 127; 0; 0; 1] ++ replicate 8 0).
Proof. vm_compute. reflexivity. Qed.
