(* ===== verification/Net.v ===== *)
(** * net.c: peers and their messages

    A group owns its nodes; a node is addressed by its index in the group.  The
    events of libevent (data, connection events, timer) are functions on the
    group.  What libevent owns is a field: whether a node has a bufferevent (or a
    dangling pointer to one), whether it has a timer, and the messages written.
    The clock, the random nonce and the outcome of [bufferevent_socket_connect]
    are arguments.  The callbacks of the client are functions on the group.
    [None] is a use of a missing or freed bufferevent, or a read behind a socket
    address. *)

From S2P Require Import Prelude.
From S2P Require Import Cstr.
From S2P Require Import Serialize.
From S2P Require Import Sha2.
From S2P Require Import Sha2Spec.
From S2P Require Import Ripemd160.
From S2P Require Import Script.
From S2P Require Import Tx.
From S2P Require Import Protocol.

(** ** Nodes and groups *)

Definition NODE_CONNECTING : Z := 1.
Definition NODE_CONNECTED : Z := 2.
Definition NODE_ERRORED : Z := 4.
Definition NODE_TIMEOUT : Z := 8.
Definition NODE_MISSBEHAVED : Z := 64.
Definition NODE_DISCONNECTED : Z := 128.
Definition NODE_DISCONNECTED_FROM_REMOTE_PEER : Z := 256.

Definition BTC_PING_INTERVAL_S : Z := 180.
Definition BTC_CONNECT_TIMEOUT_S : Z := 10.

Inductive bufferevent := NoBev | LiveBev | FreedBev.

#[export] Instance bufferevent_eq_dec : EqDecision bufferevent.
Proof. solve_decision. Defined.

Record btc_node := mk_node {
  addr : list Z; event_bev : bufferevent; timer_event : bool; nodeid : Z; lastping : Z; time_started_con : Z;
  recvBuffer : list Z; state : Z; version_handshake : bool; bestknownheight : Z; sent : list (list Z) }.

Record btc_node_group := mk_group { nodes : list btc_node; clientstr : list Z; desired_amount_connected_nodes : Z; group_magic : list Z }.

(** Updates of single fields. *)
Definition set_event_bev (b : bufferevent) (n : btc_node) : btc_node :=
  mk_node (addr n) b (timer_event n) (nodeid n) (lastping n) (time_started_con n) (recvBuffer n) (state n) (version_handshake n) (bestknownheight n) (sent n).
Definition set_timer_event (b : bool) (n : btc_node) : btc_node :=
  mk_node (addr n) (event_bev n) b (nodeid n) (lastping n) (time_started_con n) (recvBuffer n) (state n) (version_handshake n) (bestknownheight n) (sent n).
Definition set_lastping (t : Z) (n : btc_node) : btc_node :=
  mk_node (addr n) (event_bev n) (timer_event n) (nodeid n) t (time_started_con n) (recvBuffer n) (state n) (version_handshake n) (bestknownheight n) (sent n).
Definition set_time_started_con (t : Z) (n : btc_node) : btc_node :=
  mk_node (addr n) (event_bev n) (timer_event n) (nodeid n) (lastping n) t (recvBuffer n) (state n) (version_handshake n) (bestknownheight n) (sent n).
Definition set_recvBuffer (b : list Z) (n : btc_node) : btc_node :=
  mk_node (addr n) (event_bev n) (timer_event n) (nodeid n) (lastping n) (time_started_con n) b (state n) (version_handshake n) (bestknownheight n) (sent n).
Definition set_state (s : Z) (n : btc_node) : btc_node :=
  mk_node (addr n) (event_bev n) (timer_event n) (nodeid n) (lastping n) (time_started_con n) (recvBuffer n) s (version_handshake n) (bestknownheight n) (sent n).
Definition set_handshake (n : btc_node) : btc_node :=
  mk_node (addr n) (event_bev n) (timer_event n) (nodeid n) (lastping n) (time_started_con n) (recvBuffer n) (state n) true (bestknownheight n) (sent n).
Definition set_bestknownheight (h : Z) (n : btc_node) : btc_node :=
  mk_node (addr n) (event_bev n) (timer_event n) (nodeid n) (lastping n) (time_started_con n) (recvBuffer n) (state n) (version_handshake n) h (sent n).
Definition log_sent (m : list Z) (n : btc_node) : btc_node :=
  mk_node (addr n) (event_bev n) (timer_event n) (nodeid n) (lastping n) (time_started_con n) (recvBuffer n) (state n) (version_handshake n) (bestknownheight n)
    (sent n ++ [m]).

(** [(node->state & flag) == flag] *)
Definition has (n : btc_node) (flag : Z) : bool := Z.land (state n) flag =? flag.

Definition with_nodes (g : btc_node_group) (l : list btc_node) : btc_node_group :=
  mk_group l (clientstr g) (desired_amount_connected_nodes g) (group_magic g).

(** An update of one node, possibly undefined. *)
Definition on_node (g : btc_node_group) (i : nat) (f : btc_node -> btc_node) : btc_node_group := with_nodes g (alter f i (nodes g)).
Definition try_node (g : btc_node_group) (i : nat) (f : btc_node -> option btc_node) : option btc_node_group :=
  n ← nodes g !! i; n ← f n; Some (with_nodes g (<[i := n]> (nodes g))).

Definition btc_node_new (a : list Z) : btc_node := mk_node a NoBev false 0 0 0 [] 0 false 0 [].

Definition btc_node_group_new (magic : list Z) : btc_node_group := mk_group [] [108; 105; 98; 98; 116; 99; 32; 48; 46; 49] 3 magic.

Definition btc_node_group_add_node (g : btc_node_group) (n : btc_node) : btc_node_group :=
  let id := zlen (nodes g) + 1 in
  with_nodes g (nodes g ++ [mk_node (addr n) (event_bev n) (timer_event n) id (lastping n) (time_started_con n) (recvBuffer n) (state n)
    (version_handshake n) (bestknownheight n) (sent n)]).

Definition btc_node_group_amount_of_connected_nodes (g : btc_node_group) (flag : Z) : Z :=
  zlen (List.filter (fun n => has n flag) (nodes g)).

(** Freeing a dangling pointer is undefined. *)
Definition btc_node_release_events (n : btc_node) : option btc_node :=
  match event_bev n with
  | FreedBev => None
  | _ => Some (set_timer_event false (set_event_bev NoBev n))
  end.

Definition btc_node_disconnect (n : btc_node) : option btc_node :=
  n ← btc_node_release_events n;
  let s := Z.ldiff (state n) NODE_CONNECTING in
  let s := Z.ldiff s NODE_CONNECTED in
  let s := Z.lor s NODE_DISCONNECTED in
  Some (set_time_started_con 0 (set_state s n)).

(** [None]: the bufferevent is missing or freed. *)
Definition btc_node_send (data : list Z) (n : btc_node) : option btc_node :=
  if negb (has n NODE_CONNECTED) then Some n else
  match event_bev n with LiveBev => Some (log_sent data n) | _ => None end.

Definition btc_node_group_shutdown (g : btc_node_group) : option btc_node_group :=
  l ← mapM btc_node_disconnect (nodes g); Some (with_nodes g l).

Record env := mk_env { now : Z; rand : Z; socket_connect : btc_node -> bool }.

(** The node is looked at by [btc_node_group_connect_next_nodes]. *)
Definition connectable (n : btc_node) : bool :=
  negb (has n NODE_CONNECTED) && negb (has n NODE_CONNECTING) && negb (has n NODE_DISCONNECTED) && negb (has n NODE_ERRORED).

(** The nodes and the result; a node whose connection cannot be started keeps
    the pointer to the freed bufferevent. *)
Fixpoint connect_loop (e : env) (l : list btc_node) (connect_amount : Z) (connected_at_least_to_one_node : bool) : list btc_node * bool :=
  match l with
  | [] => ([], connected_at_least_to_one_node)
  | n :: l' =>
      if connectable n then
        if negb (socket_connect e n) then (set_event_bev FreedBev n :: l', false) else
        let n := set_time_started_con (now e) (set_event_bev LiveBev n) in
        let n := set_timer_event true n in
        let n := set_state (Z.lor (state n) NODE_CONNECTING) n in
        if connect_amount - 1 <=? 0 then (n :: l', true) else
        let '(l', res) := connect_loop e l' (connect_amount - 1) true in (n :: l', res)
      else
        let '(l', res) := connect_loop e l' connect_amount connected_at_least_to_one_node in (n :: l', res)
  end.

Definition btc_node_group_connect_next_nodes (e : env) (g : btc_node_group) : btc_node_group * bool :=
  let connect_amount := desired_amount_connected_nodes g - btc_node_group_amount_of_connected_nodes g NODE_CONNECTED in
  if connect_amount <=? 0 then (g, true) else
  let '(l, res) := connect_loop e (nodes g) (connect_amount * 3) false in (with_nodes g l, res).

(** The bytes of a frame. *)
Definition frame_of (magic cmd data : list Z) : option (list Z) :=
  s ← btc_p2p_message_new magic cmd data; cstr_bytes s.

Definition zero_version : btc_p2p_version_msg :=
  mk_version 0 0 0 btc_p2p_address_init btc_p2p_address_init 0 (replicate 128 0) 0 0.

Definition btc_node_send_version (e : env) (g : btc_node_group) (i : nat) : option btc_node_group :=
  n ← nodes g !! i;
  s ← new_sz 256;
  toAddr ← btc_addr_to_p2paddr (addr n) btc_p2p_address_init;
  let version_msg := btc_p2p_msg_version_init zero_version (Some btc_p2p_address_init) (Some toAddr) (Some (clientstr g)) 1 (now e) (rand e) in
  s ← btc_p2p_msg_version_ser version_msg s;
  payload ← cstr_bytes s;
  m ← frame_of (group_magic g) BTC_MSG_VERSION payload;
  try_node g i (btc_node_send m).

(** ** Callbacks of the client *)

Record callbacks := mk_callbacks {
  parse_cmd_cb : option (btc_node_group -> nat -> btc_p2p_msg_hdr -> const_buffer -> bool * btc_node_group * const_buffer);
  postcmd_cb : option (btc_node_group -> nat -> btc_p2p_msg_hdr -> const_buffer -> btc_node_group);
  node_connection_state_changed_cb : option (btc_node_group -> nat -> btc_node_group);
  should_connect_to_more_nodes_cb : option (btc_node_group -> nat -> bool);
  handshake_done_cb : option (btc_node_group -> nat -> btc_node_group);
  periodic_timer_cb : option (btc_node_group -> nat -> Z -> bool * btc_node_group) }.

Definition no_callbacks : callbacks := mk_callbacks None None None None None None.

Section Events.

Context (cb : callbacks) (e : env).

Definition call_cb (f : option (btc_node_group -> nat -> btc_node_group)) (g : btc_node_group) (i : nat) : btc_node_group :=
  match f with Some f => f g i | None => g end.

Definition btc_node_connection_state_changed (g : btc_node_group) (i : nat) : option btc_node_group :=
  let g := call_cb (node_connection_state_changed_cb cb) g i in
  n ← nodes g !! i;
  g ← (if has n NODE_ERRORED then
         g ← try_node g i btc_node_release_events;
         let should_connect_to_more_nodes := match should_connect_to_more_nodes_cb cb with Some f => f g i | None => true end in
         if should_connect_to_more_nodes &&
            (btc_node_group_amount_of_connected_nodes g NODE_CONNECTED + btc_node_group_amount_of_connected_nodes g NODE_CONNECTING <?
             desired_amount_connected_nodes g)
         then Some (fst (btc_node_group_connect_next_nodes e g)) else Some g
       else Some g);
  n ← nodes g !! i;
  if has n NODE_MISSBEHAVED then
    if has n NODE_CONNECTED || has n NODE_CONNECTING then try_node g i btc_node_disconnect else Some g
  else btc_node_send_version e g i.

Definition btc_node_missbehave (g : btc_node_group) (i : nat) : option btc_node_group :=
  btc_node_connection_state_changed (on_node g i (fun n => set_state (Z.lor (state n) NODE_MISSBEHAVED) n)) i.

(** [strcmp (hdr->command, name) == 0] *)
Definition is_command (hdr : btc_p2p_msg_hdr) (name : list Z) : bool := bool_decide (ztake (zlen name + 1) (command hdr) = name ++ [0]).

(** The base message logic: the group, and the buffer unless the function
    returns before the last callback. *)
Definition base_message (g : btc_node_group) (i : nat) (hdr : btc_p2p_msg_hdr) (buf : const_buffer) :
    option (btc_node_group * option const_buffer) :=
  if is_command hdr BTC_MSG_VERSION then
    match btc_p2p_msg_version_deser buf with
    | Ret (v, buf) =>
        g ← (if negb (Z.land (v_services v) BTC_NODE_NETWORK =? BTC_NODE_NETWORK) then try_node g i btc_node_disconnect else Some g);
        let g := on_node g i (set_bestknownheight (u32 (v_start_height v))) in
        verack ← frame_of (group_magic g) BTC_MSG_VERACK [];
        g ← try_node g i (btc_node_send verack);
        Some (g, Some buf)
    | _ => g ← btc_node_missbehave g i; Some (g, None)
    end
  else if is_command hdr BTC_MSG_VERACK then
    let g := on_node g i set_handshake in
    Some (call_cb (handshake_done_cb cb) g i, Some buf)
  else if is_command hdr BTC_MSG_PING then
    match deser_u64 buf with
    | Ret (nonce, buf) =>
        pongmsg ← frame_of (group_magic g) BTC_MSG_PONG (le_bytes 8 nonce);
        g ← try_node g i (btc_node_send pongmsg);
        Some (g, Some buf)
    | _ => g ← btc_node_missbehave g i; Some (g, None)
    end
  else Some (g, Some buf).

Definition btc_node_parse_message (g : btc_node_group) (i : nat) (hdr : btc_p2p_msg_hdr) (buf : const_buffer) : option btc_node_group :=
  if negb (bool_decide (netmagic hdr = group_magic g)) then btc_node_missbehave g i else
  let '(run, g, buf) := match parse_cmd_cb cb with Some f => f g i hdr buf | None => (true, g, buf) end in
  '(g, buf) ← (if (run : bool) then base_message g i hdr buf else Some (g, Some buf));
  match buf, postcmd_cb cb with
  | Some buf, Some f => Some (f g i hdr buf)
  | _, _ => Some g
  end.

(** An uninitialised header. *)
Definition no_hdr : btc_p2p_msg_hdr := mk_hdr (replicate 4 0) (replicate 12 0) 0 (replicate 4 0).

(** The loop of [read_cb]: the group and what the receive buffer becomes, [None]
    when it stays.  Every turn consumes a header, so the length of the buffer is
    fuel enough. *)
Fixpoint read_loop (fuel : nat) (g : btc_node_group) (i : nat) (buf : const_buffer) (read_upto : option const_buffer) :
    option (btc_node_group * option const_buffer) :=
  match fuel with
  | O => Some (g, read_upto)
  | S fuel' =>
      if zlen buf <? BTC_P2P_HDRSZ then Some (g, read_upto) else
      let '(hdr, buf) := btc_p2p_deser_msghdr no_hdr buf in
      if BTC_MAX_P2P_MSG_SIZE <? data_len hdr then g ← btc_node_missbehave g i; Some (g, None) else
      if zlen buf <? data_len hdr then Some (g, read_upto) else
      n ← nodes g !! i;
      if negb (has n NODE_CONNECTED) then Some (g, None) else
      g ← btc_node_parse_message g i hdr buf;
      let buf := zdrop (data_len hdr) buf in
      if zlen buf =? 0 then Some (g, Some []) else read_loop fuel' g i buf (Some buf)
  end.

Definition read_cb (g : btc_node_group) (i : nat) (input : list Z) : option btc_node_group :=
  n ← nodes g !! i;
  if negb (has n NODE_CONNECTED) then Some g else
  let buf := recvBuffer n ++ input in
  let g := on_node g i (set_recvBuffer buf) in
  '(g, rest) ← read_loop (S (length buf)) g i buf None;
  match rest with
  | Some rest => Some (on_node g i (set_recvBuffer rest))
  | None => Some g
  end.

Definition node_periodical_timer (g : btc_node_group) (i : nat) : option btc_node_group :=
  let '(run, g) := match periodic_timer_cb cb with Some f => f g i (now e) | None => (true, g) end in
  if negb (run : bool) then Some g else
  n ← nodes g !! i;
  g ← (if (u64 (time_started_con n + BTC_CONNECT_TIMEOUT_S) <? now e) && has n NODE_CONNECTING then
         btc_node_connection_state_changed (on_node g i (fun n => set_state (Z.lor NODE_ERRORED NODE_TIMEOUT) (set_time_started_con 0 n))) i
       else Some g);
  n ← nodes g !! i;
  if has n NODE_CONNECTED && (u64 (lastping n + BTC_PING_INTERVAL_S) <? now e) then
    pingmsg ← frame_of (group_magic g) BTC_MSG_PING (le_bytes 8 (rand e));
    g ← try_node g i (btc_node_send pingmsg);
    Some (on_node g i (set_lastping (now e)))
  else Some g.

(** The four bits of the event type. *)
Definition event_cb (timeout eof error connected : bool) (g : btc_node_group) (i : nat) : option btc_node_group :=
  n ← nodes g !! i;
  if timeout && has n NODE_CONNECTING then
    btc_node_connection_state_changed (on_node g i (set_state (Z.lor NODE_ERRORED NODE_TIMEOUT))) i
  else if eof || error then
    let s := Z.lor NODE_ERRORED NODE_DISCONNECTED in
    let s := if eof then Z.lor s NODE_DISCONNECTED_FROM_REMOTE_PEER else s in
    btc_node_connection_state_changed (on_node g i (set_state s)) i
  else if connected then
    let s := Z.ldiff (Z.ldiff (Z.lor (state n) NODE_CONNECTED) NODE_CONNECTING) NODE_ERRORED in
    btc_node_connection_state_changed (on_node g i (set_state s)) i
  else Some g.

End Events.

(** ** Readers are local *)

Ltac local_step rd := apply (local_bind rd); [apply _|]; intros ?.

#[export] Instance local_addr (v : Z) : Local (btc_p2p_deser_addr v).
Proof.
  unfold btc_p2p_deser_addr. apply (local_bind (fun b => if BTC_ADDR_TIME_VERSION <=? v then deser_u32 b else Ret (0, b))); [apply local_if; apply _|].
  intros t. local_step deser_u64. local_step (fun b => deser_bytes b 16). local_step deser_u16. apply _.
Qed.

#[export] Instance local_version : Local btc_p2p_msg_version_deser.
Proof.
  unfold btc_p2p_msg_version_deser. local_step deser_s32. local_step deser_u64. local_step deser_s64.
  local_step (btc_p2p_deser_addr 0). local_step (btc_p2p_deser_addr 0). local_step deser_u64. local_step deser_varlen. cbv zeta.
  apply local_if; [apply local_fail|]. match goal with |- Local (fun b => mbind _ (deser_bytes b ?n)) => local_step (fun b => deser_bytes b n) end.
  local_step deser_s32.
  match goal with |- Local (fun b => mbind _ (if ?c then _ else _)) =>
    apply (local_bind (fun b => if c then '(x, b) ← deser_bytes b 1; Ret (le_val x, b) else Ret (0, b))) end; [|intros r; apply local_ret].
  apply local_if; [|apply local_ret]. apply (local_bind (fun b => deser_bytes b 1) (fun x b => Ret (le_val x, b))); intros; apply _.
Qed.

(** ** Messages of a well-behaved peer *)

Definition message := (list Z * list Z)%type.
Definition msg_hdr (magic : list Z) (m : message) : btc_p2p_msg_hdr := frame_hdr magic (fst m) (snd m).
Definition msg_bytes (magic : list Z) (m : message) : list Z := frame_bytes magic (fst m) (snd m).

(** The payload is complete for the commands that are read here, and the peer
    serves the network. *)
Definition contained (m : message) : bool :=
  let hdr := msg_hdr [] m in
  if is_command hdr BTC_MSG_VERSION then
    match btc_p2p_msg_version_deser (snd m) with Ret (v, _) => Z.land (v_services v) BTC_NODE_NETWORK =? BTC_NODE_NETWORK | _ => false end
  else if is_command hdr BTC_MSG_VERACK then true
  else if is_command hdr BTC_MSG_PING then 8 <=? zlen (snd m)
  else true.

Definition good_message (m : message) : Prop := zlen (fst m) <= 12 /\ zlen (snd m) <= BTC_MAX_P2P_MSG_SIZE /\ contained m = true.

(** What a node does with it. *)
Definition handle_msg (magic : list Z) (n : btc_node) (m : message) : btc_node :=
  let hdr := msg_hdr [] m in
  if is_command hdr BTC_MSG_VERSION then
    match btc_p2p_msg_version_deser (snd m) with
    | Ret (v, _) => log_sent (frame_bytes magic BTC_MSG_VERACK []) (set_bestknownheight (u32 (v_start_height v)) n)
    | _ => n
    end
  else if is_command hdr BTC_MSG_VERACK then set_handshake n
  else if is_command hdr BTC_MSG_PING then log_sent (frame_bytes magic BTC_MSG_PONG (le_bytes 8 (le_val (ztake 8 (snd m))))) n
  else n.

Lemma frame_of_spec (magic cmd data : list Z) : zlen magic = 4 -> zlen cmd <= 12 -> is_bytes data -> zlen data < 2 ^ 29 ->
  frame_of magic cmd data = Some (frame_bytes magic cmd data).
Proof.
  intros Hm Hc Hb Hl. unfold frame_of. destruct (message_new_spec magic cmd data Hm Hc Hb Hl) as (s & -> & _ & Hs). cbn [mbind option_bind].
  by apply holds_bytes.
Qed.

(** A node that is connected, with its bufferevent. *)
Definition online (n : btc_node) : Prop := has n NODE_CONNECTED = true /\ event_bev n = LiveBev.

Lemma handle_online (magic : list Z) (n : btc_node) (m : message) : online n -> online (handle_msg magic n m).
Proof. unfold handle_msg. intros H. repeat case_match; exact H. Qed.

Lemma fold_online (magic : list Z) (ms : list message) (n : btc_node) : online n -> online (fold_left (handle_msg magic) ms n).
Proof. revert n. induction ms as [|m ms IH]; intros n H; [exact H|]. by apply IH, handle_online. Qed.

Lemma alter_insert {A} (f : A -> A) (l : list A) (i : nat) (x : A) : l !! i = Some x -> alter f i l = <[i := f x]> l.
Proof. revert i. induction l as [|y l IH]; intros [|i] Hi; [done..|by injection Hi as ->|]. cbn. f_equal. by apply IH. Qed.

Lemma try_send (g : btc_node_group) (i : nat) (n : btc_node) (data : list Z) : nodes g !! i = Some n -> online n ->
  try_node g i (btc_node_send data) = Some (on_node g i (log_sent data)).
Proof.
  intros Hi [Hc Hb]. unfold try_node, btc_node_send, on_node. rewrite Hi. cbn [mbind option_bind]. rewrite Hc, Hb. cbn [negb mbind option_bind].
  by rewrite (alter_insert _ _ _ n Hi).
Qed.

Lemma on_node_lookup (g : btc_node_group) (i : nat) (f : btc_node -> btc_node) (n : btc_node) : nodes g !! i = Some n ->
  nodes (on_node g i f) !! i = Some (f n).
Proof. intros Hi. cbn. by rewrite list_lookup_alter_eq, Hi. Qed.

Lemma on_node_compose (g : btc_node_group) (i : nat) (f h : btc_node -> btc_node) : on_node (on_node g i f) i h = on_node g i (h ∘ f).
Proof. unfold on_node, with_nodes. cbn. by rewrite list_alter_alter_eq. Qed.

Lemma on_node_ext (g : btc_node_group) (i : nat) (f h : btc_node -> btc_node) (n : btc_node) : nodes g !! i = Some n -> f n = h n ->
  on_node g i f = on_node g i h.
Proof. intros Hi E. unfold on_node. f_equal. rewrite !(alter_insert _ _ _ n Hi). by rewrite E. Qed.

Lemma parse_good (e : env) (g : btc_node_group) (i : nat) (n : btc_node) (m : message) (rest : list Z) :
  nodes g !! i = Some n -> online n -> zlen (group_magic g) = 4 -> good_message m ->
  btc_node_parse_message no_callbacks e g i (msg_hdr (group_magic g) m) (snd m ++ rest) = Some (on_node g i (fun n => handle_msg (group_magic g) n m)).
Proof.
  intros Hi Hon Hmg (Hcl & Hdl & Hc). unfold btc_node_parse_message, no_callbacks. cbn [parse_cmd_cb postcmd_cb netmagic msg_hdr frame_hdr].
  rewrite bool_decide_true by reflexivity. cbn [negb]. unfold base_message, handle_msg, contained in *.
  change (is_command (msg_hdr (group_magic g) m)) with (is_command (msg_hdr [] m)).
  destruct (is_command (msg_hdr [] m) BTC_MSG_VERSION).
  - destruct (btc_p2p_msg_version_deser (snd m)) as [[v b]| |] eqn:Ev; [|done..]. rewrite (local_rd _ _ _ _ rest Ev), Hc. cbn [negb mbind option_bind].
    rewrite frame_of_spec; [|exact Hmg|by vm_compute|constructor|by vm_compute]. cbn [mbind option_bind].
    rewrite (try_send _ _ _ _ (on_node_lookup g i (set_bestknownheight (u32 (v_start_height v))) n Hi) Hon). cbn [mbind option_bind]. by rewrite on_node_compose.
  - destruct (is_command (msg_hdr [] m) BTC_MSG_VERACK); [reflexivity|].
    destruct (is_command (msg_hdr [] m) BTC_MSG_PING).
    + apply Z.leb_le in Hc. unfold deser_u64, deser_bytes. pose proof (zlen_nonneg rest). rewrite (proj2 (Z.ltb_ge _ 8)) by (rewrite zlen_app; lia).
      cbn [mbind outcome_bind]. rewrite frame_of_spec; [|exact Hmg|by vm_compute|apply le_bytes_is_bytes|by vm_compute]. cbn [mbind option_bind].
      rewrite (try_send _ _ _ _ Hi Hon). cbn [mbind option_bind]. do 2 f_equal.
      assert (ztake 8 (snd m ++ rest) = ztake 8 (snd m)) as -> by (unfold ztake; rewrite take_app_le by (unfold zlen in Hc; lia); reflexivity). reflexivity.
    + cbn [mbind option_bind]. unfold on_node, with_nodes. rewrite list_alter_id by done. by destruct g.
Qed.

(** ** Reassembly of the stream *)

(** The start of a message that has not arrived completely. *)
Definition incomplete (p : list Z) : Prop :=
  zlen p < BTC_P2P_HDRSZ \/
  let '(hdr, buf) := btc_p2p_deser_msghdr no_hdr p in data_len hdr <= BTC_MAX_P2P_MSG_SIZE /\ zlen buf < data_len hdr.

Lemma msghdr_local (a : list Z) : BTC_P2P_HDRSZ <= zlen a ->
  exists hdr buf, zlen buf = zlen a - BTC_P2P_HDRSZ /\ forall b, btc_p2p_deser_msghdr no_hdr (a ++ b) = (hdr, buf ++ b).
Proof.
  unfold BTC_P2P_HDRSZ. intros Hl. eexists _, (zdrop 4 (zdrop 4 (zdrop 12 (zdrop 4 a)))). split; [rewrite !zlen_zdrop; lia|]. intros b.
  unfold btc_p2p_deser_msghdr.
  assert (forall n l, 0 <= n <= zlen l -> deser_bytes l n = Ret (ztake n l, zdrop n l)) as Hd.
  { intros n l Hn. unfold deser_bytes. by rewrite (proj2 (Z.ltb_ge _ _)) by lia. }
  rewrite (local_rd (fun b => deser_bytes b 4) _ _ _ b (Hd 4 a ltac:(lia))). cbn [or_keep].
  rewrite (local_rd (fun b => deser_bytes b 12) _ _ _ b (Hd 12 (zdrop 4 a) ltac:(rewrite zlen_zdrop; lia))). cbn [or_keep]. unfold deser_u32.
  rewrite (local_rd (fun b => deser_bytes b 4) _ _ _ b (Hd 4 (zdrop 12 (zdrop 4 a)) ltac:(rewrite !zlen_zdrop; lia))). cbn [mbind outcome_bind or_keep].
  rewrite (local_rd (fun b => deser_bytes b 4) _ _ _ b (Hd 4 (zdrop 4 (zdrop 12 (zdrop 4 a))) ltac:(rewrite !zlen_zdrop; lia))). reflexivity.
Qed.

Lemma incomplete_prefix (a b : list Z) : incomplete (a ++ b) -> incomplete a.
Proof.
  unfold incomplete. pose proof (zlen_nonneg b). destruct (Z.ltb_spec (zlen a) BTC_P2P_HDRSZ) as [Hlt|Hge]; [by left|].
  destruct (msghdr_local a Hge) as (hdr & buf & Hl & E). intros [Hlt|H']; [rewrite zlen_app in Hlt; lia|]. right.
  specialize (E []) as E0. rewrite !app_nil_r in E0. rewrite E0. rewrite E in H'. rewrite zlen_app in H'. lia.
Qed.

Section Stream.

Context (magic : list Z) (Hmagic : zlen magic = 4).

Lemma msg_bytes_zlen (m : message) : zlen (fst m) <= 12 -> zlen (msg_bytes magic m) = BTC_P2P_HDRSZ + zlen (snd m).
Proof.
  intros Hc. unfold msg_bytes, BTC_P2P_HDRSZ. rewrite frame_split, !zlen_app, zlen_padded, zlen_le_bytes, zlen_ztake, (proj1 (dsha_ok _)) by exact Hc. lia.
Qed.

Lemma msg_prefix_incomplete (m : message) (a b : list Z) : good_message m -> msg_bytes magic m = a ++ b -> b <> [] -> incomplete a.
Proof.
  intros (Hc & Hd & _) E Hb. unfold incomplete. destruct (Z.ltb_spec (zlen a) BTC_P2P_HDRSZ) as [Hlt|Hge]; [by left|]. right.
  destruct (msghdr_local a Hge) as (hdr & buf & Hl & Eh). specialize (Eh []) as E0. rewrite !app_nil_r in E0. rewrite E0. clear E0.
  specialize (Eh b). rewrite <- E in Eh. pose proof (deser_msghdr_app no_hdr magic (fst m) (snd m) [] Hmagic Hc) as Em.
  rewrite !app_nil_r in Em. unfold msg_bytes in Eh. rewrite Em in Eh by (unfold BTC_MAX_P2P_MSG_SIZE in Hd; lia). injection Eh as <- Es.
  cbn [data_len frame_hdr]. rewrite Es, zlen_app in *. destruct b as [|x b]; [done|]. zlia.
Qed.

Lemma stream_prefix (ms : list message) (p P Q : list Z) : Forall good_message ms -> incomplete p ->
  flat_map (msg_bytes magic) ms ++ p = P ++ Q ->
  exists ms1 ms2 p1, ms = ms1 ++ ms2 /\ P = flat_map (msg_bytes magic) ms1 ++ p1 /\ p1 ++ Q = flat_map (msg_bytes magic) ms2 ++ p /\ incomplete p1.
Proof.
  intros Hg Hp. revert P. induction Hg as [|m ms Hm Hg IH]; intros P E; cbn [flat_map] in E.
  - exists [], [], P. cbn [flat_map app] in *. subst p. split; [done|]. split; [done|]. split; [done|]. by apply (incomplete_prefix P Q).
  - rewrite <- app_assoc in E. destruct (app_eq_inv _ _ _ _ E) as [(k & E1 & E2)|(k & E1 & E2)].
    + destruct k as [|x k].
      * rewrite app_nil_r in E1. exists [m], ms, []. cbn [flat_map app]. rewrite !app_nil_r. split; [done|]. split; [done|].
        split; [by cbn in E2|]. by left.
      * exists [], (m :: ms), P. cbn [flat_map app]. split; [done|]. split; [done|]. split; [by rewrite E1, <- !app_assoc, E2|].
        by apply (msg_prefix_incomplete m P (x :: k)).
    + destruct (IH k E2) as (ms1 & ms2 & p1 & -> & -> & E3 & Hi). exists (m :: ms1), ms2, p1. cbn [flat_map app]. rewrite E1, <- app_assoc. done.
Qed.

Lemma message_complete (m : message) (rest : list Z) : good_message m ->
  BTC_P2P_HDRSZ <= zlen (msg_bytes magic m ++ rest) /\
  btc_p2p_deser_msghdr no_hdr (msg_bytes magic m ++ rest) = (msg_hdr magic m, snd m ++ rest).
Proof.
  intros (Hc & Hd & _). pose proof (zlen_nonneg (snd m)). pose proof (zlen_nonneg rest). split.
  - rewrite zlen_app, msg_bytes_zlen by exact Hc. lia.
  - apply deser_msghdr_app; [exact Hmagic|exact Hc|]. unfold BTC_MAX_P2P_MSG_SIZE in Hd. lia.
Qed.

Lemma complete_not_incomplete (m : message) (rest : list Z) : good_message m -> ~ incomplete (msg_bytes magic m ++ rest).
Proof.
  intros Hm. destruct (message_complete m rest Hm) as [Hl E]. unfold incomplete. rewrite E. cbn [data_len msg_hdr frame_hdr].
  pose proof (zlen_nonneg rest). rewrite (zlen_app (snd m)). lia.
Qed.

Lemma read_loop_good (e : env) (i : nat) (ms : list message) (p : list Z) : Forall good_message ms -> incomplete p ->
  forall fuel g n upto, nodes g !! i = Some n -> online n -> group_magic g = magic -> (length (flat_map (msg_bytes magic) ms ++ p) < fuel)%nat ->
  read_loop no_callbacks e fuel g i (flat_map (msg_bytes magic) ms ++ p) upto =
    Some (on_node g i (fun n => fold_left (handle_msg magic) ms n), match ms with [] => upto | _ => Some p end).
Proof.
  intros Hg Hp. induction Hg as [|m ms Hm Hg IH]; intros fuel g n upto Hi Hon Eg Hf; (destruct fuel as [|fuel]; [lia|]); cbn [read_loop flat_map app fold_left].
  - assert (on_node g i (fun n => n) = g) as ->. { unfold on_node, with_nodes. rewrite list_alter_id by done. by destruct g. }
    unfold incomplete in Hp. destruct (Z.ltb_spec (zlen p) BTC_P2P_HDRSZ) as [|Hge]; [done|]. destruct Hp as [Hp|Hp]; [lia|].
    destruct (btc_p2p_deser_msghdr no_hdr p) as [hdr buf]. rewrite (proj2 (Z.ltb_ge _ _)), (proj2 (Z.ltb_lt _ _)) by lia. done.
  - cbn [flat_map] in Hf. rewrite <- app_assoc in *. destruct (message_complete m (flat_map (msg_bytes magic) ms ++ p) Hm) as [Hl E].
    rewrite (proj2 (Z.ltb_ge _ BTC_P2P_HDRSZ)) by exact Hl. rewrite E. cbn [data_len msg_hdr frame_hdr].
    rewrite (proj2 (Z.ltb_ge _ _)) by apply Hm. pose proof (zlen_nonneg (flat_map (msg_bytes magic) ms ++ p)).
    rewrite (proj2 (Z.ltb_ge _ (zlen (snd m)))) by (rewrite zlen_app; lia).
    rewrite Hi. cbn [mbind option_bind]. rewrite (proj1 Hon). cbn [negb]. rewrite <- Eg at 1.
    rewrite (parse_good e g i n m) by (congruence || assumption). cbn [mbind option_bind]. rewrite zdrop_app_len, Eg by reflexivity.
    destruct (Z.eqb_spec (zlen (flat_map (msg_bytes magic) ms ++ p)) 0) as [E0|E0].
    + destruct ms as [|m' ms]; [|exfalso].
      * cbn [flat_map app] in *. destruct p; [done|zlia].
      * cbn [flat_map] in E0. rewrite <- app_assoc in E0. apply list.Forall_cons in Hg as [Hm' _].
        destruct (message_complete m' (flat_map (msg_bytes magic) ms ++ p) Hm') as [Hl' _]. unfold BTC_P2P_HDRSZ in Hl'. lia.
    + rewrite (IH fuel _ _ _ (on_node_lookup g i _ n Hi)); [|by apply handle_online|exact Eg|rewrite length_app in Hf; pose proof (msg_bytes_zlen m (proj1 Hm)) as Hz; unfold zlen, BTC_P2P_HDRSZ in Hz; lia].
      rewrite on_node_compose. by destruct ms.
Qed.

Lemma handle_recvBuffer (ms : list message) (b : list Z) (n : btc_node) :
  fold_left (handle_msg magic) ms (set_recvBuffer b n) = set_recvBuffer b (fold_left (handle_msg magic) ms n).
Proof.
  revert n. induction ms as [|m ms IH]; intros n; [done|]. cbn [fold_left]. rewrite <- IH. f_equal. unfold handle_msg. by repeat case_match.
Qed.

Lemma read_cb_good (e : env) (i : nat) (ms : list message) (p c : list Z) (g : btc_node_group) (n : btc_node) :
  Forall good_message ms -> incomplete p -> nodes g !! i = Some n -> online n -> group_magic g = magic ->
  recvBuffer n ++ c = flat_map (msg_bytes magic) ms ++ p ->
  read_cb no_callbacks e g i c = Some (on_node g i (fun n => set_recvBuffer p (fold_left (handle_msg magic) ms n))).
Proof.
  intros Hg Hp Hi Hon Eg E. unfold read_cb. rewrite Hi. cbn [mbind option_bind]. rewrite (proj1 Hon). cbn [negb]. rewrite E.
  rewrite (read_loop_good e i ms p Hg Hp _ _ _ _ (on_node_lookup g i _ n Hi)) by (exact Hon || exact Eg || lia). cbn [mbind option_bind].
  destruct ms as [|m ms]; f_equal; rewrite ?on_node_compose; apply (on_node_ext _ _ _ _ n Hi); unfold compose; [done|].
  by rewrite handle_recvBuffer.
Qed.

End Stream.

(** The chunks of a stream, as they arrive. *)
Fixpoint receive (cb : callbacks) (chunks : list (env * list Z)) (g : btc_node_group) (i : nat) : option btc_node_group :=
  match chunks with
  | [] => Some g
  | (e, c) :: chunks => g ← read_cb cb e g i c; receive cb chunks g i
  end.

Lemma receive_good (i : nat) (p : list Z) (chunks : list (env * list Z)) : incomplete p -> forall g n ms,
  nodes g !! i = Some n -> online n -> zlen (group_magic g) = 4 -> Forall good_message ms -> incomplete (recvBuffer n) ->
  recvBuffer n ++ concat (map snd chunks) = flat_map (msg_bytes (group_magic g)) ms ++ p ->
  receive no_callbacks chunks g i = Some (on_node g i (fun n => set_recvBuffer p (fold_left (handle_msg (group_magic g)) ms n))).
Proof.
  intros Hp. induction chunks as [|[e c] chunks IH]; intros g n ms Hi Hon Hm Hg Hr E; cbn [receive map concat snd] in *.
  - rewrite app_nil_r in E. destruct Hg as [|m ms Hm1 Hg].
    + f_equal. cbn in E. subst p. unfold on_node. rewrite (alter_insert _ _ _ n Hi). cbn [fold_left].
      assert (set_recvBuffer (recvBuffer n) n = n) as -> by by destruct n. rewrite list_insert_id by done. by destruct g.
    + rewrite E in Hr. cbn [flat_map] in Hr. rewrite <- app_assoc in Hr. by apply complete_not_incomplete in Hr.
  - rewrite app_assoc in E. destruct (stream_prefix _ Hm ms p _ _ Hg Hp (eq_sym E)) as (ms1 & ms2 & p1 & -> & E1 & E2 & Hp1).
    apply Forall_app in Hg as [Hg1 Hg2].
    rewrite (read_cb_good _ Hm e i ms1 p1 c g n Hg1 Hp1 Hi Hon eq_refl E1). cbn [mbind option_bind].
    erewrite (IH _ _ ms2 (on_node_lookup g i _ n Hi)); [|apply fold_online, Hon|exact Hm|exact Hg2|exact Hp1|exact E2].
    rewrite on_node_compose. f_equal. apply (on_node_ext _ _ _ _ n Hi). cbn [compose on_node with_nodes group_magic].
    by rewrite handle_recvBuffer, fold_left_app.
Qed.

(** C31: however the stream of a peer is cut into chunks, and at whatever times
    they arrive, the node of a client without callbacks of its own reassembles
    it, as long as the messages are well-formed.  When the bytes received are the
    frames of [good_message]s (within the size limits, a version that is complete
    and serves the network, a ping with its nonce) followed by the start of a
    frame that has not arrived completely, every message is handled once and in
    order (a version is acknowledged and its height kept, a verack completes the
    handshake, a ping is answered with its nonce, other commands change nothing),
    no other node is touched, and exactly the incomplete rest stays in the
    receive buffer.  (What a ping without its nonce does depends on the chunks:
    see [ping_reads_next_message].) *)
Theorem net_reassembly (g : btc_node_group) (i : nat) (n : btc_node) (ms : list message) (p : list Z) (chunks : list (env * list Z)) :
  nodes g !! i = Some n -> online n -> recvBuffer n = [] -> zlen (group_magic g) = 4 -> Forall good_message ms -> incomplete p ->
  concat (map snd chunks) = flat_map (msg_bytes (group_magic g)) ms ++ p ->
  receive no_callbacks chunks g i = Some (on_node g i (fun n => set_recvBuffer p (fold_left (handle_msg (group_magic g)) ms n))).
Proof.
  intros Hi Hon Hr Hm Hg Hp E. apply (receive_good i p chunks Hp g n ms); [exact Hi|exact Hon|exact Hm|exact Hg|rewrite Hr; left; by vm_compute|].
  by rewrite Hr.
Qed.

(** ** Examples *)

Definition example_node : btc_node := mk_node (replicate 16 0) LiveBev true 1 0 0 [] NODE_CONNECTED false 0 [].
Definition example_group : btc_node_group := mk_group [example_node] [] 3 [1; 2; 3; 4].
Definition example_env : env := mk_env 1000 7 (fun _ => true).
Definition example_ping : message := (BTC_MSG_PING, [1; 2; 3; 4; 5; 6; 7; 8]).
Definition example_verack : message := (BTC_MSG_VERACK, []).
Definition example_stream : list Z := msg_bytes [1; 2; 3; 4] example_ping ++ msg_bytes [1; 2; 3; 4] example_verack ++ [1; 2; 3].

Lemma net_reassembly_witness : exists g, receive no_callbacks
    [(example_env, take 30 example_stream); (example_env, drop 30 example_stream)] example_group 0 = Some g /\
  nodes g = [mk_node (replicate 16 0) LiveBev true 1 0 0 [1; 2; 3] NODE_CONNECTED true 0
    [frame_bytes [1; 2; 3; 4] BTC_MSG_PONG [1; 2; 3; 4; 5; 6; 7; 8]]].
Proof.
  eexists. split; [|shelve]. apply (net_reassembly example_group 0 example_node [example_ping; example_verack] [1; 2; 3]);
    [reflexivity|split; reflexivity|reflexivity|reflexivity|repeat constructor; (reflexivity || by vm_compute)|by left|].
  cbn [map snd concat]. rewrite app_nil_r, take_drop. reflexivity.
  Unshelve. reflexivity.
Defined.

(** The buffer given to the message logic is not cut at the length of the
    message.  A ping without its nonce is misbehaviour when it arrives alone, and
    is answered with the first bytes of the next message when that follows in
    the same chunk. *)
Example ping_reads_next_message :
  let ping := msg_bytes [1; 2; 3; 4] (BTC_MSG_PING, []) in
  let verack := msg_bytes [1; 2; 3; 4] example_verack in
  (g ← read_cb no_callbacks example_env example_group 0 ping; n ← nodes g !! 0%nat; Some (state n, sent n)) =
    Some (NODE_MISSBEHAVED + NODE_DISCONNECTED, []) /\
  (g ← read_cb no_callbacks example_env example_group 0 (ping ++ verack); n ← nodes g !! 0%nat; Some (state n, sent n)) =
    Some (NODE_CONNECTED, [frame_bytes [1; 2; 3; 4] BTC_MSG_PONG (take 8 verack)]).
Proof. by vm_compute. Qed.
