(* ===== verification/NetSafe.v ===== *)
(** * net.c: what is safe

    The events a group of nodes goes through (the calls of the client and the
    callbacks of libevent), the invariant of the nodes, and its preservation.  No
    event uses a missing or freed bufferevent, but for one case that is described
    exactly: when [bufferevent_socket_connect] has failed for a node, the node
    keeps the pointer to the bufferevent that was freed, and disconnecting it or
    shutting down frees it again.  The client has no callbacks, and the socket
    addresses are those that fit [struct sockaddr]. *)

From S2P Require Import Prelude.
From S2P Require Import Cstr.
From S2P Require Import Serialize.
From S2P Require Import Sha2.
From S2P Require Import Sha2Spec.
From S2P Require Import Ripemd160.
From S2P Require Import Script.
From S2P Require Import Tx.
From S2P Require Import Protocol.
From S2P Require Import Net.

(** ** Events *)

Inductive event :=
  | EvAdd (a : list Z)
  | EvConnect
  | EvRead (i : nat) (chunk : list Z)
  | EvBev (i : nat) (timeout eof error connected : bool)
  | EvTimer (i : nat)
  | EvSend (i : nat) (data : list Z)
  | EvDisconnect (i : nat)
  | EvShutdown.

Definition step (e : env) (ev : event) (g : btc_node_group) : option btc_node_group :=
  match ev with
  | EvAdd a => Some (btc_node_group_add_node g (btc_node_new a))
  | EvConnect => Some (fst (btc_node_group_connect_next_nodes e g))
  | EvRead i chunk => read_cb no_callbacks e g i chunk
  | EvBev i timeout eof error connected => event_cb no_callbacks e timeout eof error connected g i
  | EvTimer i => node_periodical_timer no_callbacks e g i
  | EvSend i data => try_node g i (btc_node_send data)
  | EvDisconnect i => try_node g i btc_node_disconnect
  | EvShutdown => btc_node_group_shutdown g
  end.

(** A socket address of the size of [struct sockaddr], which cannot be one of
    IPv6. *)
Definition addr_sane (a : list Z) : Prop := is_bytes a /\ zlen a = 16 /\ le_val (ztake 2 a) <> AF_INET6.

(** Only a bufferevent that exists has events. *)
Definition enabled (ev : event) (g : btc_node_group) : Prop :=
  match ev with
  | EvAdd a => addr_sane a
  | EvConnect | EvShutdown => True
  | EvBev i _ _ _ _ => exists n, nodes g !! i = Some n /\ event_bev n = LiveBev
  | EvRead i _ | EvTimer i | EvSend i _ | EvDisconnect i => (i < length (nodes g))%nat
  end.

(** A node whose pointer is to a freed bufferevent, and the two calls that free
    it again. *)
Definition dangling (n : btc_node) : bool := bool_decide (event_bev n = FreedBev).

Definition dangling_call (ev : event) (g : btc_node_group) : bool :=
  match ev with
  | EvDisconnect i => match nodes g !! i with Some n => dangling n | None => false end
  | EvShutdown => existsb dangling (nodes g)
  | _ => false
  end.

Section Safe.

(** Whether [bufferevent_socket_connect] may fail. *)
Context (fails : bool).

Definition env_ok (e : env) : Prop :=
  0 <= now e < 2 ^ 63 /\ 0 <= rand e < 2 ^ 64 /\ forall n, socket_connect e n = false -> fails = true.

Inductive reachable (magic : list Z) : btc_node_group -> Prop :=
  | reach_new : reachable magic (btc_node_group_new magic)
  | reach_step e ev g g' : reachable magic g -> env_ok e -> enabled ev g -> step e ev g = Some g' -> reachable magic g'.

(** ** The invariant *)

Definition active (n : btc_node) : bool := has n NODE_CONNECTED || has n NODE_CONNECTING.

(** A node has a live bufferevent and a timer exactly while it is connecting or
    connected, never both of these, and none of them after an error; a pointer to
    a freed one is left by a connection that could not be started, in a node that
    can still be connected. *)
Record node_ok (n : btc_node) : Prop := mk_node_ok {
  ok_bev : event_bev n = LiveBev <-> active n = true;
  ok_freed : event_bev n = FreedBev -> fails = true /\ connectable n = true;
  ok_timer : timer_event n = active n;
  ok_error : has n NODE_ERRORED = true -> active n = false;
  ok_phase : has n NODE_CONNECTED && has n NODE_CONNECTING = false;
  ok_addr : addr_sane (addr n) }.

Record group_ok (g : btc_node_group) : Prop := mk_group_ok {
  ok_nodes : Forall node_ok (nodes g);
  ok_magic : zlen (group_magic g) = 4;
  ok_client : agent_ok (clientstr g) /\ is_bytes (clientstr g) }.

(** ** Flags are bits *)

Lemma land_bit (s k : Z) : 0 <= k -> (Z.land s (2 ^ k) =? 2 ^ k) = Z.testbit s k.
Proof.
  intros Hk. assert (Z.land s (2 ^ k) = if Z.testbit s k then 2 ^ k else 0) as ->.
  { apply Z.bits_inj'. intros j Hj. rewrite Z.land_spec, Z.pow2_bits_eqb by lia. destruct (Z.eqb_spec k j) as [->|Hn].
    - rewrite andb_true_r. destruct (Z.testbit s j); [by rewrite Z.pow2_bits_true by lia|by rewrite Z.bits_0].
    - rewrite andb_false_r. destruct (Z.testbit s k); [by rewrite Z.pow2_bits_false by lia|by rewrite Z.bits_0]. }
  pose proof (Z.pow_pos_nonneg 2 k). destruct (Z.testbit s k); [apply Z.eqb_refl|]. apply Z.eqb_neq. lia.
Qed.

Lemma has_connecting (n : btc_node) : has n NODE_CONNECTING = Z.testbit (state n) 0.
Proof. by apply (land_bit _ 0). Qed.
Lemma has_connected (n : btc_node) : has n NODE_CONNECTED = Z.testbit (state n) 1.
Proof. by apply (land_bit _ 1). Qed.
Lemma has_errored (n : btc_node) : has n NODE_ERRORED = Z.testbit (state n) 2.
Proof. by apply (land_bit _ 2). Qed.
Lemma has_disconnected (n : btc_node) : has n NODE_DISCONNECTED = Z.testbit (state n) 7.
Proof. by apply (land_bit _ 7). Qed.

(** Evaluates the flags of a state that is computed from another. *)
Ltac const_bits := repeat match goal with
  | |- context [Z.testbit ?f ?k] => first [is_const f | lazymatch f with Z.lor ?a ?b => is_const a; is_const b end];
      let v := eval vm_compute in (Z.testbit f k) in change (Z.testbit f k) with v end.
Ltac flags := unfold active, connectable in *; rewrite ?has_connecting, ?has_connected, ?has_errored, ?has_disconnected in *;
  cbn [state set_state set_event_bev set_timer_event set_time_started_con log_sent set_lastping set_recvBuffer set_handshake set_bestknownheight] in *;
  rewrite ?Z.lor_spec, ?Z.ldiff_spec, ?Z.lor_spec in *; const_bits.

(** ** Nodes *)

(** Updates that keep the invariant. *)
Definition harmless (f : btc_node -> btc_node) : Prop := forall n, node_ok n -> node_ok (f n).

Lemma harmless_log (m : list Z) : harmless (log_sent m).
Proof. by intros n [? ? ? ? ? ?]. Qed.
Lemma harmless_recv (b : list Z) : harmless (set_recvBuffer b).
Proof. by intros n [? ? ? ? ? ?]. Qed.
Lemma harmless_ping (t : Z) : harmless (set_lastping t).
Proof. by intros n [? ? ? ? ? ?]. Qed.
Lemma harmless_handshake : harmless set_handshake.
Proof. by intros n [? ? ? ? ? ?]. Qed.
Lemma harmless_height (h : Z) : harmless (set_bestknownheight h).
Proof. by intros n [? ? ? ? ? ?]. Qed.

Lemma connected_live (n : btc_node) : node_ok n -> has n NODE_CONNECTED = true -> event_bev n = LiveBev.
Proof. intros Hn E. apply (ok_bev n Hn). unfold active. by rewrite E. Qed.

Lemma connecting_live (n : btc_node) : node_ok n -> has n NODE_CONNECTING = true -> event_bev n = LiveBev.
Proof. intros Hn E. apply (ok_bev n Hn). unfold active. rewrite E. apply orb_true_r. Qed.

Lemma live_not_freed (n : btc_node) : event_bev n = LiveBev -> event_bev n <> FreedBev.
Proof. by intros ->. Qed.

(** No bufferevent, and no phase. *)
Lemma idle_ok (n : btc_node) : event_bev n = NoBev -> timer_event n = false -> active n = false -> addr_sane (addr n) -> node_ok n.
Proof.
  intros Hb Ht Ha Hs. unfold active in Ha. destruct (orb_false_elim _ _ Ha) as [H1 H2].
  split; [by rewrite Hb; unfold active; rewrite Ha|by rewrite Hb|by unfold active; rewrite Ha|done|by rewrite H1|exact Hs].
Qed.

Lemma send_safe (data : list Z) (n : btc_node) : node_ok n -> exists n', btc_node_send data n = Some n' /\ node_ok n'.
Proof.
  intros Hn. unfold btc_node_send. destruct (has n NODE_CONNECTED) eqn:E; cbn [negb]; [|by exists n].
  rewrite (connected_live n Hn E). eexists. split; [reflexivity|by apply harmless_log].
Qed.

Lemma disconnect_safe (n : btc_node) : node_ok n -> event_bev n <> FreedBev -> exists n', btc_node_disconnect n = Some n' /\ node_ok n' /\ active n' = false.
Proof.
  intros Hn Hf. unfold btc_node_disconnect, btc_node_release_events.
  eexists. split; [by destruct (event_bev n)|].
  match goal with |- node_ok ?m /\ _ => assert (active m = false) as Hm end.
  { flags. by rewrite !andb_false_r. }
  split; [|exact Hm]. by apply idle_ok; [..|apply Hn].
Qed.

(** A node about to release its events is fine afterwards. *)
Definition node_mid (n : btc_node) : Prop :=
  node_ok n \/ (has n NODE_ERRORED = true /\ active n = false /\ event_bev n <> FreedBev /\ addr_sane (addr n)).

Lemma release_safe (n : btc_node) : node_mid n -> has n NODE_ERRORED = true -> exists n', btc_node_release_events n = Some n' /\ node_ok n'.
Proof.
  intros Hm He. assert (active n = false /\ event_bev n <> FreedBev /\ addr_sane (addr n)) as (Ha & Hb & Hs).
  { destruct Hm as [Hn|Hm]; [|tauto]. split; [by apply Hn|]. split; [|apply Hn]. intros Hb. destruct (ok_freed n Hn Hb) as [_ Hc].
    unfold connectable in Hc. rewrite He in Hc. by rewrite andb_false_r in Hc. }
  unfold btc_node_release_events. eexists. split; [by destruct (event_bev n)|]. by apply idle_ok.
Qed.

(** ** Groups *)

(** The handler returns, with the invariant and the same nodes. *)
Definition safe (k : nat) (r : option btc_node_group) : Prop := exists g, r = Some g /\ group_ok g /\ length (nodes g) = k.

Lemma safe_ret (k : nat) (g : btc_node_group) : group_ok g -> length (nodes g) = k -> safe k (Some g).
Proof. by exists g. Qed.

Lemma safe_bind (k : nat) (r : option btc_node_group) (f : btc_node_group -> option btc_node_group) :
  safe k r -> (forall g, group_ok g -> length (nodes g) = k -> safe k (f g)) -> safe k (g ← r; f g).
Proof. intros (g & -> & Hg & Hk) Hf. by apply Hf. Qed.

Lemma node_at (g : btc_node_group) (k i : nat) : group_ok g -> length (nodes g) = k -> (i < k)%nat -> exists n, nodes g !! i = Some n /\ node_ok n.
Proof.
  intros Hg Hk Hi. destruct (lookup_lt_is_Some_2 (nodes g) i) as [n Hn]; [lia|]. exists n. split; [exact Hn|].
  by apply (Forall_lookup_1 _ _ _ _ (ok_nodes g Hg) Hn).
Qed.

Lemma with_nodes_ok (g : btc_node_group) (l : list btc_node) : group_ok g -> Forall node_ok l -> group_ok (with_nodes g l).
Proof. by intros [? ? ?] Hl. Qed.

Lemma on_node_safe (g : btc_node_group) (k i : nat) (f : btc_node -> btc_node) : group_ok g -> length (nodes g) = k -> harmless f ->
  group_ok (on_node g i f) /\ length (nodes (on_node g i f)) = k.
Proof.
  intros Hg Hk Hf. split; [|cbn; by rewrite length_alter]. apply with_nodes_ok; [exact Hg|]. apply Forall_alter; [apply Hg|]. intros n _. apply Hf.
Qed.

Lemma try_node_safe (g : btc_node_group) (k i : nat) (f : btc_node -> option btc_node) : group_ok g -> length (nodes g) = k -> (i < k)%nat ->
  (forall n, node_ok n -> exists n', f n = Some n' /\ node_ok n') -> safe k (try_node g i f).
Proof.
  intros Hg Hk Hi Hf. destruct (node_at g k i Hg Hk Hi) as (n & Hn & Ho). destruct (Hf n Ho) as (n' & E & Ho').
  unfold try_node. rewrite Hn. cbn [mbind option_bind]. rewrite E. apply safe_ret; [|cbn; by rewrite length_insert].
  apply with_nodes_ok; [exact Hg|]. apply Forall_insert; [apply Hg|exact Ho'].
Qed.

Lemma send_node_safe (g : btc_node_group) (k i : nat) (data : list Z) : group_ok g -> length (nodes g) = k -> (i < k)%nat ->
  safe k (try_node g i (btc_node_send data)).
Proof. intros Hg Hk Hi. apply try_node_safe; [done..|]. apply send_safe. Qed.

Lemma disconnect_node_safe (g : btc_node_group) (k i : nat) (n : btc_node) : group_ok g -> length (nodes g) = k ->
  nodes g !! i = Some n -> event_bev n <> FreedBev -> safe k (try_node g i btc_node_disconnect).
Proof.
  intros Hg Hk Hn Hf. destruct (disconnect_safe n (Forall_lookup_1 _ _ _ _ (ok_nodes g Hg) Hn) Hf) as (n' & E & Ho & _).
  unfold try_node. rewrite Hn. cbn [mbind option_bind]. rewrite E. apply safe_ret; [|cbn; by rewrite length_insert].
  apply with_nodes_ok; [exact Hg|]. apply Forall_insert; [apply Hg|exact Ho].
Qed.

(** *** Connecting *)

Lemma connect_node_ok (n : btc_node) (t : Z) : node_ok n -> connectable n = true ->
  node_ok (set_state (Z.lor (state n) NODE_CONNECTING) (set_timer_event true (set_time_started_con t (set_event_bev LiveBev n)))).
Proof.
  intros [Hb Hf Ht He Hp Ha] Hc. split; [..|exact Ha]; cbn [event_bev timer_event set_state set_timer_event set_time_started_con set_event_bev]; flags.
  - by rewrite orb_true_r, orb_true_r.
  - done.
  - by rewrite orb_true_r, orb_true_r.
  - intros E. rewrite orb_false_r in E. rewrite E in Hc. by rewrite !andb_false_r in Hc.
  - destruct (Z.testbit (state n) 1); [done|reflexivity].
Qed.

(** A connection that is not started leaves the dangling pointer. *)
Lemma failed_node_ok (n : btc_node) : node_ok n -> connectable n = true -> fails = true -> node_ok (set_event_bev FreedBev n).
Proof.
  intros [Hb Hf Ht He Hp Ha] Hc Hfl. assert (active n = false) as Hi.
  { unfold connectable in Hc. unfold active. by destruct (has n NODE_CONNECTED), (has n NODE_CONNECTING). }
  split; [|done|exact Ht|exact He|exact Hp|exact Ha]. change (active (set_event_bev FreedBev n)) with (active n). by rewrite Hi.
Qed.

Lemma connect_loop_ok (e : env) (l : list btc_node) : env_ok e -> Forall node_ok l -> forall amount c,
  Forall node_ok (fst (connect_loop e l amount c)) /\ length (fst (connect_loop e l amount c)) = length l.
Proof.
  intros (_ & _ & Hs) Hl. induction Hl as [|n l Hn Hl IH]; intros amount c; cbn [connect_loop]; [done|]. destruct (connectable n) eqn:Ec.
  - destruct (socket_connect e n) eqn:Es; cbn [negb].
    2: { split; [|done]. apply list.Forall_cons. split; [|exact Hl]. apply (failed_node_ok n Hn Ec), (Hs n Es). }
    destruct (_ <=? 0).
    + split; [|done]. apply list.Forall_cons. split; [exact (connect_node_ok n (now e) Hn Ec)|exact Hl].
    + specialize (IH (amount - 1) true). destruct (connect_loop e l (amount - 1) true) as [l' r]. cbn [fst length] in *. split; [|lia].
      apply list.Forall_cons. split; [exact (connect_node_ok n (now e) Hn Ec)|apply IH].
  - specialize (IH amount c). destruct (connect_loop e l amount c) as [l' r]. cbn [fst length] in *. split; [|lia].
    apply list.Forall_cons. split; [exact Hn|apply IH].
Qed.

Lemma connect_next_safe (e : env) (g : btc_node_group) (k : nat) : env_ok e -> group_ok g -> length (nodes g) = k ->
  safe k (Some (fst (btc_node_group_connect_next_nodes e g))).
Proof.
  intros He Hg Hk. unfold btc_node_group_connect_next_nodes. cbv zeta. destruct (_ <=? 0); [by apply safe_ret|].
  match goal with |- context [connect_loop e (nodes g) ?a false] => destruct (connect_loop_ok e (nodes g) He (ok_nodes g Hg) a false) as [Hl Hn];
    destruct (connect_loop e (nodes g) a false) as [l r] end.
  cbn [fst] in *. apply safe_ret; [by apply with_nodes_ok|cbn; lia].
Qed.

(** *** The version message *)

Lemma to_addr_ok (a : list Z) : addr_sane a -> exists r, btc_addr_to_p2paddr a btc_p2p_address_init = Some r /\ addr_ok r /\ is_bytes (ip r).
Proof.
  intros (Hb & Hl & Hf). assert (forall off n, off + n <= 16 -> mem_at a off n = Some (ztake n (zdrop off a))) as Hm.
  { intros off n Ho. unfold mem_at. by rewrite (proj2 (Z.ltb_ge _ _)) by lia. }
  unfold btc_addr_to_p2paddr. rewrite (Hm 0), (Hm 2), (Hm 4) by lia. cbn [mbind option_bind]. change (zdrop 0 a) with a.
  rewrite (proj2 (Z.eqb_neq _ _) Hf). destruct (_ =? AF_INET).
  - eexists. split; [reflexivity|]. assert (is_bytes (ztake 2 (zdrop 2 a))) as Hp by (apply is_bytes_take, is_bytes_drop, Hb).
    pose proof (le_val_bound (rev (ztake 2 (zdrop 2 a))) (Forall_rev Hp)) as R.
    assert (zlen (rev (ztake 2 (zdrop 2 a))) = 2) as E. { unfold zlen. rewrite length_rev. fold (zlen (ztake 2 (zdrop 2 a))). rewrite zlen_ztake, zlen_zdrop. lia. }
    rewrite E in R. split.
    + split; [cbn; lia|]. split; [cbn; lia|]. split; [|exact R]. cbn [ip].
      rewrite !zlen_app, zlen_ztake, zlen_zdrop, zlen_replicate. change (zlen [255; 255]) with 2. lia.
    + cbn [ip]. apply is_bytes_app. split; [by apply is_bytes_of|]. repeat (apply is_bytes_cons; [by vm_compute|]). apply is_bytes_take, is_bytes_drop, Hb.
  - exists btc_p2p_address_init. split; [reflexivity|]. split; [by vm_compute|by apply is_bytes_of].
Qed.

Lemma version_bytes_bytes (m : btc_p2p_version_msg) (text : list Z) : is_bytes (ip (v_addr_recv m)) -> is_bytes (ip (v_addr_from m)) ->
  is_bytes text -> is_byte (v_relay m) -> zlen text < 128 -> is_bytes (version_bytes m text) /\ (zlen (ip (v_addr_recv m)) = 16 ->
  zlen (ip (v_addr_from m)) = 16 -> zlen (version_bytes m text) < 2 ^ 10).
Proof.
  intros Hr Hf Ht Hy Hl. unfold version_bytes, addr_bytes, varstr_bytes, varlen_bytes. pose proof (zlen_nonneg text).
  rewrite (proj2 (Z.ltb_lt (zlen text) 253)) by lia. change (BTC_ADDR_TIME_VERSION <=? 0) with false. cbn [app]. split; [|intros; zlia].
  repeat (apply is_bytes_app; split); try apply le_bytes_is_bytes; try assumption. apply is_bytes_cons; [unfold is_byte; lia|].
  repeat (apply is_bytes_app; split); [exact Ht|apply le_bytes_is_bytes|]. apply is_bytes_cons; [exact Hy|constructor].
Qed.

Lemma send_version_safe (e : env) (g : btc_node_group) (k i : nat) : env_ok e -> group_ok g -> length (nodes g) = k -> (i < k)%nat ->
  safe k (btc_node_send_version e g i).
Proof.
  intros (Hnow & Hrand & _) Hg Hk Hi. destruct (node_at g k i Hg Hk Hi) as (n & Hn & Ho). unfold btc_node_send_version. rewrite Hn. cbn [mbind option_bind].
  destruct (to_addr_ok (addr n) (ok_addr n Ho)) as (r & Er & Hr & Hrb). destruct (ok_client g Hg) as [Ha Hcb].
  set (m := btc_p2p_msg_version_init zero_version (Some btc_p2p_address_init) (Some r) (Some (clientstr g)) 1 (now e) (rand e)).
  assert (v_useragent m = agent_array (clientstr g)) as Eu.
  { unfold m, btc_p2p_msg_version_init. cbn [v_useragent]. rewrite (proj2 (Z.ltb_lt _ 128)) by apply Ha. cbn [v_useragent zero_version].
    unfold agent_array, zdrop. rewrite drop_replicate. do 2 f_equal. unfold zlen. destruct Ha as [_ Ha]. unfold zlen in Ha. lia. }
  assert (version_ok m) as Hv.
  { unfold version_ok. cbn [m btc_p2p_msg_version_init v_version v_services v_timestamp v_addr_recv v_addr_from v_nonce v_start_height v_relay default].
    split; [by vm_compute|]. split; [lia|]. split; [lia|]. split; [exact Hr|]. split; [by vm_compute|]. split; [exact Hrand|]. split; [lia|]. by vm_compute. }
  destruct (version_bytes_bytes m (clientstr g)) as [Hb Hl]; [exact Hrb|by apply is_bytes_of|exact Hcb|by vm_compute|apply Ha|].
  specialize (Hl ltac:(apply Hr) eq_refl).
  destruct (fresh_writes 256 _ _ ltac:(lia) (appends_version m (clientstr g) Hv Ha Eu) ltac:(lia)) as (s & s' & -> & E2 & _ & _ & E3).
  cbn [mbind option_bind]. rewrite Er. cbn [mbind option_bind]. fold m. rewrite E2. cbn [mbind option_bind]. rewrite E3. cbn [mbind option_bind].
  rewrite frame_of_spec; [|apply Hg|by vm_compute|exact Hb|lia]. cbn [mbind option_bind]. by apply send_node_safe.
Qed.

(** *** Handlers *)

Lemma insert_node_ok (g : btc_node_group) (i : nat) (f : btc_node -> btc_node) (n' : btc_node) : group_ok g -> node_ok n' ->
  group_ok (with_nodes (on_node g i f) (<[i := n']> (nodes (on_node g i f)))).
Proof.
  intros Hg Hn. apply (with_nodes_ok g _ Hg). apply Forall_lookup_2. intros j m Hj. cbn [on_node with_nodes nodes] in Hj. destruct (decide (i = j)) as [->|Hne].
  - apply list_lookup_insert_Some in Hj as [(_ & <- & _)|(Hc & _)]; [exact Hn|done].
  - rewrite list_lookup_insert_ne, list_lookup_alter_ne in Hj by done. by apply (Forall_lookup_1 _ _ _ _ (ok_nodes g Hg) Hj).
Qed.

Lemma state_changed_safe (e : env) (g : btc_node_group) (k i : nat) (f : btc_node -> btc_node) : env_ok e -> group_ok g -> length (nodes g) = k -> (i < k)%nat ->
  (forall n, nodes g !! i = Some n -> node_ok n -> node_mid (f n)) -> safe k (btc_node_connection_state_changed no_callbacks e (on_node g i f) i).
Proof.
  intros He Hg Hk Hi Hf. destruct (node_at g k i Hg Hk Hi) as (n & Hn & Ho). specialize (Hf n Hn Ho). pose proof (on_node_lookup g i f n Hn) as Hl.
  assert (length (nodes (on_node g i f)) = k) as Hk' by (cbn; by rewrite length_alter).
  unfold btc_node_connection_state_changed. cbn [call_cb node_connection_state_changed_cb no_callbacks]. rewrite Hl. cbn [mbind option_bind].
  apply safe_bind.
  - destruct (has (f n) NODE_ERRORED) eqn:Ee.
    + destruct (release_safe _ Hf Ee) as (n' & Er & Hn'). unfold try_node. rewrite Hl. cbn [mbind option_bind]. rewrite Er. cbn [mbind option_bind].
      pose proof (insert_node_ok g i f n' Hg Hn') as Hg'. destruct (_ && _); [apply connect_next_safe|apply safe_ret]; try assumption; cbn; by rewrite length_insert, length_alter.
    + apply safe_ret; [|exact Hk']. destruct Hf as [Hf|[Hf _]]; [|congruence]. unfold on_node. rewrite (alter_insert _ _ _ _ Hn).
      apply with_nodes_ok; [exact Hg|]. apply Forall_insert; [apply Hg|exact Hf].
  - intros g1 Hg1 Hk1. destruct (node_at g1 k i Hg1 Hk1 Hi) as (n1 & Hn1 & Ho1). rewrite Hn1. cbn [mbind option_bind].
    destruct (has n1 NODE_MISSBEHAVED); [|by apply send_version_safe]. destruct (has n1 NODE_CONNECTED || has n1 NODE_CONNECTING) eqn:Ea; [|by apply safe_ret].
    apply (disconnect_node_safe _ _ _ n1); [done..|]. apply live_not_freed, (ok_bev n1 Ho1). exact Ea.
Qed.

(** Marking a node does not change the flags of the invariant. *)
Lemma missbehave_safe (e : env) (g : btc_node_group) (k i : nat) : env_ok e -> group_ok g -> length (nodes g) = k -> (i < k)%nat ->
  safe k (btc_node_missbehave no_callbacks e g i).
Proof.
  intros He Hg Hk Hi. apply state_changed_safe; [done..|]. intros n _ [Hb Hf Ht Hr Hp Ha]. left.
  split; [..|exact Ha]; cbn [event_bev timer_event set_state]; flags; by rewrite ?orb_false_r.
Qed.

Lemma base_message_safe (e : env) (g : btc_node_group) (k i : nat) (n : btc_node) (hdr : btc_p2p_msg_hdr) (buf : const_buffer) :
  env_ok e -> group_ok g -> length (nodes g) = k -> nodes g !! i = Some n -> has n NODE_CONNECTED = true ->
  exists g' b, base_message no_callbacks e g i hdr buf = Some (g', b) /\ group_ok g' /\ length (nodes g') = k.
Proof.
  intros He Hg Hk Hn Hc. assert (i < k)%nat as Hi by (rewrite <- Hk; by apply lookup_lt_is_Some_1). unfold base_message.
  destruct (missbehave_safe e g k i He Hg Hk Hi) as (gm & Em & Hgm & Hkm).
  destruct (is_command hdr BTC_MSG_VERSION).
  - destruct (btc_p2p_msg_version_deser buf) as [[v b]| |]; [|by rewrite Em; eexists _, _..].
    assert (safe k (if negb (Z.land (v_services v) BTC_NODE_NETWORK =? BTC_NODE_NETWORK) then try_node g i btc_node_disconnect else Some g)) as (g1 & -> & Hg1 & Hk1).
    { destruct (negb _); [|by apply safe_ret]. apply (disconnect_node_safe g k i n); [done..|].
      apply live_not_freed, connected_live; [exact (Forall_lookup_1 _ _ _ _ (ok_nodes g Hg) Hn)|exact Hc]. }
    cbn [mbind option_bind]. destruct (on_node_safe g1 k i _ Hg1 Hk1 (harmless_height (u32 (v_start_height v)))) as [Hg2 Hk2].
    rewrite frame_of_spec; [|apply Hg2|by vm_compute|constructor|by vm_compute]. cbn [mbind option_bind].
    destruct (send_node_safe _ k i (frame_bytes (group_magic (on_node g1 i (set_bestknownheight (u32 (v_start_height v))))) BTC_MSG_VERACK []) Hg2 Hk2 Hi) as (g3 & -> & Hg3 & Hk3).
    by eexists _, _.
  - destruct (is_command hdr BTC_MSG_VERACK).
    { eexists _, _. split; [reflexivity|]. by apply on_node_safe; [| |apply harmless_handshake]. }
    destruct (is_command hdr BTC_MSG_PING); [|by eexists _, _].
    destruct (deser_u64 buf) as [[nonce b]| |]; [|by rewrite Em; eexists _, _..].
    rewrite frame_of_spec; [|apply Hg|by vm_compute|apply le_bytes_is_bytes|by vm_compute]. cbn [mbind option_bind].
    destruct (send_node_safe g k i (frame_bytes (group_magic g) BTC_MSG_PONG (le_bytes 8 nonce)) Hg Hk Hi) as (g3 & -> & Hg3 & Hk3). by eexists _, _.
Qed.

Lemma parse_safe (e : env) (g : btc_node_group) (k i : nat) (n : btc_node) (hdr : btc_p2p_msg_hdr) (buf : const_buffer) :
  env_ok e -> group_ok g -> length (nodes g) = k -> nodes g !! i = Some n -> has n NODE_CONNECTED = true -> safe k (btc_node_parse_message no_callbacks e g i hdr buf).
Proof.
  intros He Hg Hk Hn Hc. assert (i < k)%nat as Hi by (rewrite <- Hk; by apply lookup_lt_is_Some_1). unfold btc_node_parse_message. destruct (negb _); [by apply missbehave_safe|]. cbn [parse_cmd_cb postcmd_cb no_callbacks].
  destruct (base_message_safe e g k i n hdr buf He Hg Hk Hn Hc) as (g' & b & -> & Hg' & Hk'). cbn [mbind option_bind]. destruct b; by apply safe_ret.
Qed.

Lemma read_loop_safe (e : env) (k i : nat) : env_ok e -> (i < k)%nat -> forall fuel g buf upto, group_ok g -> length (nodes g) = k ->
  exists g' b, read_loop no_callbacks e fuel g i buf upto = Some (g', b) /\ group_ok g' /\ length (nodes g') = k.
Proof.
  intros He Hi. induction fuel as [|fuel IH]; intros g buf upto Hg Hk; cbn [read_loop]; [by eexists _, _|].
  destruct (_ <? BTC_P2P_HDRSZ); [by eexists _, _|]. destruct (btc_p2p_deser_msghdr no_hdr buf) as [hdr b].
  destruct (BTC_MAX_P2P_MSG_SIZE <? data_len hdr).
  { destruct (missbehave_safe e g k i He Hg Hk Hi) as (gm & -> & Hgm & Hkm). by eexists _, _. }
  destruct (_ <? data_len hdr); [by eexists _, _|]. destruct (node_at g k i Hg Hk Hi) as (n & Hn & Ho). rewrite Hn. cbn [mbind option_bind].
  destruct (has n NODE_CONNECTED) eqn:Ec; cbn [negb]; [|by eexists _, _]. destruct (parse_safe e g k i n hdr b He Hg Hk Hn Ec) as (g1 & -> & Hg1 & Hk1). cbn [mbind option_bind].
  destruct (_ =? 0); [by eexists _, _|]. by apply IH.
Qed.

Lemma read_cb_safe (e : env) (g : btc_node_group) (k i : nat) (c : list Z) : env_ok e -> group_ok g -> length (nodes g) = k -> (i < k)%nat ->
  safe k (read_cb no_callbacks e g i c).
Proof.
  intros He Hg Hk Hi. unfold read_cb. destruct (node_at g k i Hg Hk Hi) as (n & -> & Ho). cbn [mbind option_bind].
  destruct (negb _); [by apply safe_ret|]. destruct (on_node_safe g k i _ Hg Hk (harmless_recv (recvBuffer n ++ c))) as [Hg1 Hk1].
  destruct (read_loop_safe e k i He Hi (S (length (recvBuffer n ++ c))) _ (recvBuffer n ++ c) None Hg1 Hk1) as (g2 & b & -> & Hg2 & Hk2). cbn [mbind option_bind].
  destruct b as [b|]; [|by apply safe_ret]. destruct (on_node_safe g2 k i _ Hg2 Hk2 (harmless_recv b)). by apply safe_ret.
Qed.

(** A state of nothing but errors is released by the change of state. *)
Lemma errored_mid (n : btc_node) (s : Z) (f : btc_node -> btc_node) : node_ok n -> event_bev n = LiveBev -> event_bev (f n) = event_bev n -> addr (f n) = addr n -> state (f n) = s ->
  Z.testbit s 2 = true -> Z.testbit s 1 = false -> Z.testbit s 0 = false -> node_mid (f n).
Proof.
  intros Hn Hl Hb Ha Hs H2 H1 H0. right. unfold active. rewrite has_errored, has_connected, has_connecting, Hs, H2, H1, H0, Hb, Ha.
  split; [done|]. split; [done|]. split; [by rewrite Hl|apply Hn].
Qed.

Lemma timer_safe (e : env) (g : btc_node_group) (k i : nat) : env_ok e -> group_ok g -> length (nodes g) = k -> (i < k)%nat ->
  safe k (node_periodical_timer no_callbacks e g i).
Proof.
  intros He Hg Hk Hi. unfold node_periodical_timer. cbn [periodic_timer_cb no_callbacks negb].
  destruct (node_at g k i Hg Hk Hi) as (n & Hn & Ho). rewrite Hn. cbn [mbind option_bind]. apply safe_bind.
  - destruct (_ && has n NODE_CONNECTING) eqn:Ec; [|by apply safe_ret]. apply andb_true_iff in Ec as [_ Ec].
    apply state_changed_safe; [done..|]. intros m Hm Hmo. rewrite Hn in Hm. injection Hm as <-. pose proof (connecting_live n Ho Ec).
    by apply (errored_mid n (Z.lor NODE_ERRORED NODE_TIMEOUT) (fun n => set_state (Z.lor NODE_ERRORED NODE_TIMEOUT) (set_time_started_con 0 n))).
  - intros g1 Hg1 Hk1. destruct (node_at g1 k i Hg1 Hk1 Hi) as (n1 & -> & _). cbn [mbind option_bind]. destruct (_ && _); [|by apply safe_ret].
    rewrite frame_of_spec; [|apply Hg1|by vm_compute|apply le_bytes_is_bytes|by vm_compute].
    apply (safe_bind k (try_node g1 i _)); [by apply send_node_safe|]. intros g2 Hg2 Hk2.
    destruct (on_node_safe g2 k i _ Hg2 Hk2 (harmless_ping (now e))). by apply safe_ret.
Qed.

Lemma event_safe (e : env) (g : btc_node_group) (k i : nat) (n : btc_node) (timeout eof error connected : bool) :
  env_ok e -> group_ok g -> length (nodes g) = k -> nodes g !! i = Some n -> event_bev n = LiveBev ->
  safe k (event_cb no_callbacks e timeout eof error connected g i).
Proof.
  intros He Hg Hk Hn Hb. assert (i < k)%nat as Hi by (rewrite <- Hk; by apply lookup_lt_is_Some_1). unfold event_cb. rewrite Hn. cbn [mbind option_bind].
  destruct (_ && _); [|destruct (_ || _); [|destruct connected; [|by apply safe_ret]]]; (apply state_changed_safe; [done..|]); intros m Hm Ho;
    rewrite Hn in Hm; injection Hm as <-.
  - by apply (errored_mid n (Z.lor NODE_ERRORED NODE_TIMEOUT) (set_state (Z.lor NODE_ERRORED NODE_TIMEOUT))).
  - match goal with |- node_mid (set_state ?s n) => apply (errored_mid n s (set_state s)) end; by destruct eof.
  - left. destruct Ho as [Hb' Hf Ht Hr Hp Ha]. pose proof (proj1 Hb' Hb) as Hact.
    split; [..|exact Ha]; cbn [event_bev timer_event set_state].
    + rewrite Hb. flags. by rewrite orb_true_r.
    + by rewrite Hb.
    + rewrite Ht, Hact. flags. by rewrite orb_true_r.
    + flags. by rewrite andb_false_r.
    + flags. by rewrite !andb_false_r.
Qed.

Lemma not_dangling (n : btc_node) : dangling n = false -> event_bev n <> FreedBev.
Proof. unfold dangling. by intros H%bool_decide_eq_false_1. Qed.

Lemma dangling_disconnect (n : btc_node) : dangling n = true -> btc_node_disconnect n = None.
Proof. unfold dangling. intros H%bool_decide_eq_true_1. unfold btc_node_disconnect, btc_node_release_events. by rewrite H. Qed.

Lemma shutdown_safe (g : btc_node_group) (k : nat) : group_ok g -> length (nodes g) = k -> existsb dangling (nodes g) = false ->
  exists l, btc_node_group_shutdown g = Some (with_nodes g l) /\ Forall node_ok l /\ length l = k /\ Forall (fun n => active n = false) l.
Proof.
  intros Hg <- Hd. unfold btc_node_group_shutdown.
  assert (exists l, mapM btc_node_disconnect (nodes g) = Some l /\ Forall node_ok l /\ length l = length (nodes g) /\ Forall (fun n => active n = false) l) as (l & -> & H).
  { revert Hd. induction (ok_nodes g Hg) as [|n l Hn Hl IH]; cbn [existsb]; [by exists []|]. intros [Hd1 Hd2]%orb_false_iff.
    destruct (IH Hd2) as (l' & E & H1 & H2 & H3). destruct (disconnect_safe n Hn (not_dangling n Hd1)) as (n' & E' & Ho & Ha).
    exists (n' :: l'). cbn [mapM]. rewrite E'. cbn [mbind option_bind]. rewrite E. split; [done|]. split; [by constructor|]. split; [cbn; lia|by constructor]. }
  by exists l.
Qed.

Lemma shutdown_dangles (g : btc_node_group) : existsb dangling (nodes g) = true -> btc_node_group_shutdown g = None.
Proof.
  intros Hd. unfold btc_node_group_shutdown. assert (mapM btc_node_disconnect (nodes g) = None) as ->; [|done].
  revert Hd. induction (nodes g) as [|n l IH]; cbn [existsb mapM]; [done|]. destruct (dangling n) eqn:E.
  - by rewrite dangling_disconnect.
  - intros H. destruct (btc_node_disconnect n); [|done]. cbn [mbind option_bind]. by rewrite IH.
Qed.

Lemma add_node_ok (g : btc_node_group) (a : list Z) : group_ok g -> addr_sane a -> group_ok (btc_node_group_add_node g (btc_node_new a)).
Proof. intros Hg Ha. apply with_nodes_ok; [exact Hg|]. apply Forall_app. split; [apply Hg|]. apply list.Forall_cons. split; [|constructor]. by split. Qed.

(** An event that does not free a dangling pointer. *)
Lemma step_safe (e : env) (ev : event) (g : btc_node_group) : env_ok e -> group_ok g -> enabled ev g -> dangling_call ev g = false ->
  exists g', step e ev g = Some g' /\ group_ok g'.
Proof.
  intros He Hg Hen Hd. assert (forall r, safe (length (nodes g)) r -> exists g', r = Some g' /\ group_ok g') as Hs by (intros r (g' & ? & ? & ?); by exists g').
  destruct ev as [a| |i c|i t eo er co|i|i d|i|]; cbn [step enabled dangling_call] in *.
  - eexists. split; [reflexivity|by apply add_node_ok].
  - by apply Hs, connect_next_safe.
  - by apply Hs, read_cb_safe.
  - destruct Hen as (n & Hn & Hb). by apply Hs, (event_safe e g _ i n).
  - by apply Hs, timer_safe.
  - by apply Hs, send_node_safe.
  - destruct (node_at g _ i Hg eq_refl Hen) as (n & Hn & _). rewrite Hn in Hd. by apply Hs, (disconnect_node_safe g _ i n); [..|apply not_dangling].
  - destruct (shutdown_safe g _ Hg eq_refl Hd) as (l & E & Hl & _). eexists. split; [exact E|by apply with_nodes_ok].
Qed.

(** An event that does. *)
Lemma step_dangles (e : env) (ev : event) (g : btc_node_group) : dangling_call ev g = true -> step e ev g = None.
Proof.
  destruct ev as [| | | | | |i|]; cbn [step dangling_call]; try done; [|by apply shutdown_dangles].
  unfold try_node. destruct (nodes g !! i) as [n|]; [|done]. intros Hd. cbn [mbind option_bind]. by rewrite dangling_disconnect.
Qed.

(** Without a failed connection there is no dangling pointer. *)
Lemma group_not_dangling (ev : event) (g : btc_node_group) : fails = false -> group_ok g -> dangling_call ev g = false.
Proof.
  intros Hf Hg. assert (forall n, node_ok n -> dangling n = false) as Hn.
  { intros n Hn. unfold dangling. apply bool_decide_eq_false_2. intros Hb. destruct (ok_freed n Hn Hb). congruence. }
  destruct ev as [| | | | | |i|]; cbn [dangling_call]; try done.
  - destruct (nodes g !! i) as [n|] eqn:E; [|done]. apply Hn, (Forall_lookup_1 _ _ _ _ (ok_nodes g Hg) E).
  - induction (ok_nodes g Hg) as [|n l Hno Hl IH]; [done|]. cbn [existsb]. by rewrite (Hn n Hno), IH.
Qed.

Lemma reachable_ok (magic : list Z) (g : btc_node_group) : zlen magic = 4 -> reachable magic g -> group_ok g.
Proof.
  intros Hm. induction 1 as [|e ev g g' _ IH He Hen E].
  - split; [constructor|exact Hm|]. split; [|by apply is_bytes_of]. split; [repeat constructor; discriminate|by vm_compute].
  - destruct (dangling_call ev g) eqn:Ed; [by rewrite step_dangles in E|]. destruct (step_safe e ev g He IH Hen Ed) as (g'' & E' & Hg). congruence.
Qed.

End Safe.

(** C30: what a group of nodes does with its bufferevents, whatever its peers
    send.  The client has no callbacks of its own and its socket addresses are
    those that fit [struct sockaddr] (not IPv6).  In every state reached by adding
    nodes, connecting, disconnecting, sending, shutting down, and by chunks of
    arbitrary bytes, connection events and timers in any order, a node has a live
    bufferevent and a timer exactly while it is connecting or connected, it is
    not both, and not after an error; a pointer to a freed bufferevent is only
    left in a node whose [bufferevent_socket_connect] failed and that can still be
    connected.  Every further event returns and keeps this without using a
    missing or freed bufferevent, except disconnecting such a node or shutting
    down while there is one, which frees it a second time.  If
    [bufferevent_socket_connect] does not fail ([fails = false]) there is none. *)
Theorem net_group_safe (fails : bool) (magic : list Z) (g : btc_node_group) (e : env) (ev : event) :
  zlen magic = 4 -> reachable fails magic g -> env_ok fails e -> enabled ev g ->
  Forall (node_ok fails) (nodes g) /\
  (if dangling_call ev g then step e ev g = None else exists g', step e ev g = Some g' /\ Forall (node_ok fails) (nodes g')) /\
  (fails = false -> dangling_call ev g = false).
Proof.
  intros Hm Hr He Hen. pose proof (reachable_ok fails magic g Hm Hr) as Hg. split; [apply Hg|]. split; [|intros Hf; by apply (group_not_dangling fails)].
  destruct (dangling_call ev g) eqn:Ed; [by apply step_dangles|].
  destruct (step_safe fails e ev g He Hg Hen Ed) as (g' & E & Hg'). exists g'. split; [exact E|apply Hg'].
Qed.

(** A peer is added, and connected. *)
Definition peer_addr : list Z := [2; 0; 32; 141; 127; 0; 0; 1; 0; 0; 0; 0; 0; 0; 0; 0].
Definition some_env : env := mk_env 1500000000 7 (fun _ => true).
Definition connecting_group : btc_node_group :=
  with_nodes (btc_node_group_new [1; 2; 3; 4]) [mk_node peer_addr LiveBev true 1 0 1500000000 [] NODE_CONNECTING false 0 []].

(** With a connection that is made, and with one that cannot be started: the
    latter can be connected again, and dangles when the group is shut down. *)
Definition failing_env : env := mk_env 1500000000 7 (fun _ => false).
Definition failed_group : btc_node_group :=
  with_nodes (btc_node_group_new [1; 2; 3; 4]) [mk_node peer_addr FreedBev false 1 0 0 [] 0 false 0 []].

Lemma net_group_safe_witness :
  (exists g', step some_env (EvBev 0 false false false true) connecting_group = Some g' /\ Forall (node_ok false) (nodes g')) /\
  (exists g', step some_env EvConnect failed_group = Some g' /\ Forall (node_ok true) (nodes g')) /\
  step some_env EvShutdown failed_group = None.
Proof.
  assert (forall f, env_ok f some_env) as He by (intros f; split; [by vm_compute|split; [by vm_compute|discriminate]]).
  assert (env_ok true failing_env) as Hf by (split; [by vm_compute|split; [by vm_compute|reflexivity]]).
  assert (forall f, reachable f [1; 2; 3; 4] (btc_node_group_add_node (btc_node_group_new [1; 2; 3; 4]) (btc_node_new peer_addr))) as Hr.
  { intros f. apply (reach_step _ _ some_env (EvAdd peer_addr) (btc_node_group_new [1; 2; 3; 4])); [apply reach_new|apply He| |reflexivity].
    split; [by apply is_bytes_of|]. split; [reflexivity|by vm_compute]. }
  assert (reachable true [1; 2; 3; 4] failed_group) as Hg by (eapply (reach_step _ _ failing_env EvConnect); [apply Hr|exact Hf|exact I|reflexivity]).
  split; [|split].
  - apply (net_group_safe false [1; 2; 3; 4] connecting_group some_env (EvBev 0 false false false true)); [reflexivity| |apply He|].
    + eapply (reach_step _ _ some_env EvConnect); [apply Hr|apply He|exact I|reflexivity].
    + eexists. split; reflexivity.
  - apply (net_group_safe true [1; 2; 3; 4] failed_group some_env EvConnect); [reflexivity|exact Hg|apply He|exact I].
  - apply (net_group_safe true [1; 2; 3; 4] failed_group some_env EvShutdown); [reflexivity|exact Hg|apply He|exact I].
Defined.
