(* ===== verification/Chacha.v ===== *)
(** * chacha.c: the ChaCha20 stream cipher

    The sixteen words of the context are a list; the local variables
    [x0 .. x15] of the block function are such a list too, addressed by index.
    A last block of less than 64 bytes goes through the array [tmp], whose tail
    is never copied out: it is taken as zero here.  The reference is a
    keystream indexed by a 64 bit block counter, xored onto the message. *)

From S2P Require Import Prelude.

(** ** Macros *)

Definition ROTL32 (v k : Z) : Z := Z.lor (u32 (Z.shiftl v k)) (Z.shiftr v (32 - k)).

Definition U8TO32_LITTLE (p : list Z) : Z :=
  Z.lor (Z.lor (Z.lor (nth 0 p 0) (Z.shiftl (nth 1 p 0) 8)) (Z.shiftl (nth 2 p 0) 16))
        (Z.shiftl (nth 3 p 0) 24).

Definition U32TO8_LITTLE (v : Z) : list Z :=
  [Z.land v 0xff; Z.land (Z.shiftr v 8) 0xff; Z.land (Z.shiftr v 16) 0xff; Z.land (Z.shiftr v 24) 0xff].

Definition PLUS (v w : Z) : Z := u32 (v + w).
Definition PLUSONE (v : Z) : Z := PLUS v 1.

Definition get (x : list Z) (i : nat) : Z := nth i x 0.

(** [a = PLUS (a, b)] and [d = ROTATE (XOR (d, a), k)] *)
Definition add_to (a b : nat) (x : list Z) : list Z := <[a := PLUS (get x a) (get x b)]> x.
Definition xor_rotate (d a : nat) (k : Z) (x : list Z) : list Z :=
  <[d := ROTL32 (Z.lxor (get x d) (get x a)) k]> x.

Definition QUARTERROUND (a b c d : nat) (x : list Z) : list Z :=
  let x := add_to a b x in
  let x := xor_rotate d a 16 x in
  let x := add_to c d x in
  let x := xor_rotate b c 12 x in
  let x := add_to a b x in
  let x := xor_rotate d a 8 x in
  let x := add_to c d x in
  xor_rotate b c 7 x.

(** "expand 32-byte k" and "expand 16-byte k" *)
Definition sigma : list Z := [101; 120; 112; 97; 110; 100; 32; 51; 50; 45; 98; 121; 116; 101; 32; 107].
Definition tau : list Z := [101; 120; 112; 97; 110; 100; 32; 49; 54; 45; 98; 121; 116; 101; 32; 107].

(** ** Context *)

Abbreviation chacha_ctx := (list Z) (only parsing).

(** Four consecutive words at a pointer. *)
Definition load4 (p : list Z) : list Z :=
  [U8TO32_LITTLE p; U8TO32_LITTLE (drop 4 p); U8TO32_LITTLE (drop 8 p); U8TO32_LITTLE (drop 12 p)].

(** Words 12 to 15 keep their value. *)
Definition chacha_keysetup (x : chacha_ctx) (k : list Z) (kbits : Z) : chacha_ctx :=
  let k1 := load4 k in
  let '(k, constants) := if kbits =? 256 then (drop 16 k, sigma) else (k, tau) in
  load4 constants ++ k1 ++ load4 k ++ drop 12 x.

Definition chacha_ivsetup (x : chacha_ctx) (iv : list Z) (counter : option (list Z)) : chacha_ctx :=
  let ctr := match counter with
             | None => [0; 0]
             | Some c => [U8TO32_LITTLE c; U8TO32_LITTLE (drop 4 c)]
             end in
  take 12 x ++ ctr ++ [U8TO32_LITTLE iv; U8TO32_LITTLE (drop 4 iv)].

(** ** Encryption *)

(** The body of [for (i = 20; i > 0; i -= 2)]. *)
Definition double_round (x : list Z) : list Z :=
  let x := QUARTERROUND 0 4 8 12 x in
  let x := QUARTERROUND 1 5 9 13 x in
  let x := QUARTERROUND 2 6 10 14 x in
  let x := QUARTERROUND 3 7 11 15 x in
  let x := QUARTERROUND 0 5 10 15 x in
  let x := QUARTERROUND 1 6 11 12 x in
  let x := QUARTERROUND 2 7 8 13 x in
  QUARTERROUND 3 4 9 14 x.

Definition rounds_loop (k : nat) (x : list Z) : list Z := Nat.iter k double_round x.

(** The words of a 64 byte block of the message. *)
Fixpoint load_words (k : nat) (m : list Z) : list Z :=
  match k with
  | O => []
  | S k' => U8TO32_LITTLE m :: load_words k' (drop 4 m)
  end.

(** One turn of the outer loop on 64 bytes [m]: the output block. *)
Definition crypt_block (j m : list Z) : list Z :=
  let x := rounds_loop 10 j in
  let x := zip_with PLUS x j in
  let x := zip_with Z.lxor x (load_words 16 m) in
  flat_map U32TO8_LITTLE x.

(** [j12 = PLUSONE (j12); if (!j12) j13 = PLUSONE (j13);] *)
Definition next_counter (j : list Z) : list Z :=
  let j := <[12%nat := PLUSONE (get j 12)]> j in
  if get j 12 =? 0 then <[13%nat := PLUSONE (get j 13)]> j else j.

Fixpoint encrypt_loop (fuel : nat) (j m : list Z) : list Z * list Z :=
  match fuel with
  | O => ([], j)
  | S fuel' =>
      let bytes := length m in
      let block := if (bytes <? 64)%nat then m ++ replicate (64 - bytes) 0 else m in
      let c := crypt_block j (take 64 block) in
      let j := next_counter j in
      if (bytes <=? 64)%nat then (take bytes c, j)
      else
        let '(c', j') := encrypt_loop fuel' j (drop 64 m) in (c ++ c', j')
  end.

(** The output and the context with the advanced counter. *)
Definition chacha_encrypt_bytes (x : chacha_ctx) (m : list Z) : list Z * chacha_ctx :=
  if (length m =? 0)%nat then ([], x) else
  let '(c, j) := encrypt_loop (S (length m)) x m in
  (c, <[13%nat := get j 13]> (<[12%nat := get j 12]> x)).

(** ** Reference *)

(** The state with block counter [ctr] in words 12 and 13. *)
Definition at_counter (x : chacha_ctx) (ctr : Z) : list Z :=
  <[13%nat := u32 (ctr / 2 ^ 32)]> (<[12%nat := u32 ctr]> x).

Definition counter_of (x : chacha_ctx) : Z := get x 12 + 2 ^ 32 * get x 13.

(** Block [ctr] of the keystream. *)
Definition key_block (x : chacha_ctx) (ctr : Z) : list Z :=
  let j := at_counter x ctr in
  flat_map (le_bytes 4) (zip_with PLUS (rounds_loop 10 j) j).

(** [k] blocks from counter [ctr] on. *)
Fixpoint keystream (x : chacha_ctx) (ctr : Z) (k : nat) : list Z :=
  match k with
  | O => []
  | S k' => key_block x ctr ++ keystream x (ctr + 1) k'
  end.

Definition nblocks (bytes : nat) : nat := ((bytes + 63) / 64)%nat.

(** ** Words and bytes *)

Lemma U8TO32_val (b : list Z) : is_bytes b -> U8TO32_LITTLE b = le_val (take 4 b).
Proof. apply load32_val. Qed.

Lemma U32TO8_val (v : Z) : U32TO8_LITTLE v = le_bytes 4 v.
Proof. unfold U32TO8_LITTLE. change 0xff with (Z.ones 8). rewrite !Z.land_ones by lia. apply store32_val. Qed.

Lemma zip_lxor_comm (a b : list Z) : zip_with Z.lxor a b = zip_with Z.lxor b a.
Proof. revert b. induction a as [|x a IH]; intros [|y b]; cbn; try done. by rewrite IH, Z.lxor_comm. Qed.

(** Xoring words is xoring their bytes. *)
Lemma xor_words (x : list Z) (m : list Z) :
  is_bytes m -> length m = (4 * length x)%nat ->
  flat_map U32TO8_LITTLE (zip_with Z.lxor x (load_words (length x) m)) =
  zip_with Z.lxor m (flat_map (le_bytes 4) x).
Proof.
  revert m. induction x as [|w x IH]; intros m Hb Hl.
  - destruct m; [done|simpl in Hl; lia].
  - cbn [length load_words zip_with flat_map]. simpl in Hl.
    rewrite IH by (auto with libbtc; rewrite length_drop; lia).
    rewrite U32TO8_val, U8TO32_val, le_bytes_lxor by done.
    assert (length (take 4 m) = 4%nat) as Ht by (rewrite length_take; lia).
    replace 4%nat with (length (take 4 m)) at 2 by done. rewrite le_bytes_val by auto with libbtc.
    rewrite (zip_lxor_comm (le_bytes 4 w)). rewrite <- (take_drop 4 m) at 3.
    by rewrite zip_with_app by by rewrite le_bytes_length.
Qed.

Lemma get_insert (x : list Z) (i k : nat) (v : Z) :
  (i < length x)%nat -> get (<[i:=v]> x) k = if decide (k = i) then v else get x k.
Proof.
  intros. unfold get. rewrite !nth_lookup. case_decide as E; [subst; by rewrite list_lookup_insert_eq|].
  by rewrite list_lookup_insert_ne by done.
Qed.

Lemma QUARTERROUND_length (a b c d : nat) (x : list Z) : length (QUARTERROUND a b c d x) = length x.
Proof.
  assert (forall a b x, length (add_to a b x) = length x) as Ha by (intros; apply length_insert).
  assert (forall a b k x, length (xor_rotate a b k x) = length x) as Hx by (intros; apply length_insert).
  unfold QUARTERROUND. by rewrite Hx, Ha, Hx, Ha, Hx, Ha, Hx, Ha.
Qed.

Lemma double_round_length (x : list Z) : length (double_round x) = length x.
Proof. unfold double_round. by rewrite !QUARTERROUND_length. Qed.

#[local] Opaque QUARTERROUND double_round.

Lemma rounds_loop_length (i : nat) (x : list Z) : length (rounds_loop i x) = length x.
Proof.
  unfold rounds_loop. apply (Nat.iter_invariant i _ double_round (fun y => length y = length x)); [|done].
  intros y Hy. by rewrite double_round_length.
Qed.

Lemma at_counter_length (x : list Z) (c : Z) : length (at_counter x c) = length x.
Proof. unfold at_counter. by rewrite !length_insert. Qed.

Lemma key_block_length (x : list Z) (c : Z) : length x = 16%nat -> length (key_block x c) = 64%nat.
Proof.
  intros Hx. unfold key_block. assert (forall l, length (flat_map (le_bytes 4) l) = (4 * length l)%nat) as ->.
  { induction l; [done|]. cbn [flat_map length]. rewrite length_app, le_bytes_length. lia. }
  rewrite length_zip_with, rounds_loop_length, at_counter_length. lia.
Qed.

Lemma keystream_length (x : list Z) (c : Z) (k : nat) :
  length x = 16%nat -> length (keystream x c k) = (64 * k)%nat.
Proof.
  intros Hx. revert c. induction k as [|k IH]; intros c; [done|].
  cbn [keystream]. rewrite length_app, key_block_length, IH by done. lia.
Qed.

(** One block of output. *)
Lemma crypt_block_spec (x m : list Z) (c : Z) :
  length x = 16%nat -> is_bytes m -> length m = 64%nat ->
  crypt_block (at_counter x c) m = zip_with Z.lxor m (key_block x c).
Proof.
  intros Hx Hb Hm. unfold crypt_block, key_block. set (j := at_counter x c).
  assert (length (zip_with PLUS (rounds_loop 10 j) j) = 16%nat) as Hl
    by (rewrite length_zip_with, rounds_loop_length; unfold j; rewrite at_counter_length; lia).
  rewrite <- Hl at 1. apply xor_words; [done|]. by rewrite Hl.
Qed.

(** The counter is a 64 bit integer. *)
Lemma next_counter_spec (x : list Z) (c : Z) :
  length x = 16%nat -> 0 <= c -> next_counter (at_counter x c) = at_counter x (c + 1).
Proof.
  intros Hx Hc. unfold next_counter, PLUSONE, PLUS.
  assert (get (at_counter x c) 12 = u32 c) as ->.
  { unfold at_counter. rewrite !get_insert by (rewrite ?length_insert; lia). by rewrite decide_False, decide_True. }
  rewrite wrap_add_l, get_insert by (rewrite at_counter_length; lia). rewrite decide_True by done.
  rewrite get_insert by (rewrite at_counter_length; lia). rewrite decide_False by done.
  assert (get (at_counter x c) 13 = u32 (c / 2 ^ 32)) as ->.
  { unfold at_counter. rewrite get_insert by (rewrite ?length_insert; lia). by rewrite decide_True. }
  rewrite wrap_add_l. unfold at_counter.
  rewrite (list_insert_insert_ne _ 12 13) by done. rewrite !list_insert_insert_eq.
  destruct (Z.eqb_spec (u32 (c + 1)) 0) as [E|E].
  - assert (c / 2 ^ 32 + 1 = (c + 1) / 2 ^ 32) as -> by (unfold wrap in E; zdm). done.
  - by assert (c / 2 ^ 32 = (c + 1) / 2 ^ 32) as -> by (unfold wrap in E; zdm).
Qed.

Lemma nblocks_one (k : nat) : (0 < k <= 64)%nat -> nblocks k = 1%nat.
Proof.
  intros. unfold nblocks. replace (k + 63)%nat with (k - 1 + 1 * 64)%nat by lia.
  by rewrite Nat.div_add, Nat.div_small by lia.
Qed.

Lemma nblocks_more (k : nat) : (64 <= k)%nat -> nblocks k = S (nblocks (k - 64)).
Proof.
  intros. unfold nblocks. replace (k + 63)%nat with (k - 64 + 63 + 1 * 64)%nat by lia.
  rewrite Nat.div_add by lia. lia.
Qed.

(** The bytes of the last block that are copied out. *)
Lemma last_block_spec (x m : list Z) (c : Z) :
  length x = 16%nat -> is_bytes m -> (length m <= 64)%nat ->
  take (length m) (crypt_block (at_counter x c)
    (take 64 (if (length m <? 64)%nat then m ++ replicate (64 - length m) 0 else m))) =
  zip_with Z.lxor m (key_block x c).
Proof.
  intros Hx Hb Hle.
  assert (take 64 (if (length m <? 64)%nat then m ++ replicate (64 - length m) 0 else m) =
          m ++ replicate (64 - length m) 0) as ->.
  { destruct (Nat.ltb_spec (length m) 64).
    - apply take_ge. rewrite length_app, length_replicate. lia.
    - replace (64 - length m)%nat with 0%nat by lia. rewrite app_nil_r. apply take_ge. lia. }
  rewrite crypt_block_spec; [|done| |rewrite length_app, length_replicate; lia].
  - rewrite <- (take_drop (length m) (key_block x c)) at 1.
    assert (length (take (length m) (key_block x c)) = length m) as Hk
      by (rewrite length_take, key_block_length by done; lia).
    rewrite zip_with_app by lia. rewrite take_app_length' by (rewrite length_zip_with; lia).
    apply zip_with_take_r.
  - apply is_bytes_app. split; [done|]. apply is_bytes_replicate. unfold is_byte. lia.
Qed.

Lemma encrypt_loop_spec (fuel : nat) (x m : list Z) (c : Z) :
  length x = 16%nat -> is_bytes m -> 0 <= c -> (0 < length m < fuel)%nat ->
  encrypt_loop fuel (at_counter x c) m =
    (zip_with Z.lxor m (keystream x c (nblocks (length m))), at_counter x (c + Z.of_nat (nblocks (length m)))).
Proof.
  intros Hx. revert m c. induction fuel as [|fuel IH]; intros m c Hb Hc Hf; [lia|].
  cbn [encrypt_loop]. rewrite next_counter_spec by done.
  destruct (Nat.leb_spec (length m) 64) as [Hle|Hgt].
  - rewrite nblocks_one by lia. cbn [keystream]. rewrite app_nil_r. by rewrite last_block_spec.
  - assert ((length m <? 64)%nat = false) as -> by (apply Nat.ltb_ge; lia).
    rewrite IH by (auto with libbtc; rewrite ?length_drop; lia). rewrite length_drop.
    rewrite (nblocks_more (length m)) by lia. cbn [keystream]. f_equal; [|f_equal; lia].
    assert (length (take 64 m) = 64%nat) as Ht by (rewrite length_take; lia).
    rewrite crypt_block_spec by auto with libbtc.
    rewrite <- zip_with_app by (rewrite key_block_length; lia). by rewrite take_drop.
Qed.

(** ** Claims *)

(** A context: sixteen 32 bit words. *)
Definition ctx_ok (x : chacha_ctx) : Prop := length x = 16%nat /\ Forall (fun w => 0 <= w < 2 ^ 32) x.

Lemma get_range (x : list Z) (i : nat) : ctx_ok x -> (i < 16)%nat -> 0 <= get x i < 2 ^ 32.
Proof.
  intros [Hl Hr] Hi. rewrite List.Forall_forall in Hr. apply Hr, nth_In. lia.
Qed.

Lemma insert_get (x : list Z) (i : nat) : (i < length x)%nat -> <[i := get x i]> x = x.
Proof.
  intros Hi. apply list_insert_id. unfold get. rewrite nth_lookup.
  by destruct (lookup_lt_is_Some_2 x i Hi) as [v ->].
Qed.

Lemma counter_split (x : list Z) : ctx_ok x ->
  u32 (counter_of x) = get x 12 /\ u32 (counter_of x / 2 ^ 32) = get x 13 /\ 0 <= counter_of x.
Proof.
  intros Hx. pose proof (get_range x 12 Hx ltac:(lia)). pose proof (get_range x 13 Hx ltac:(lia)).
  unfold counter_of, wrap. split_and!; [|rewrite Z.mod_small; zdm|lia].
  rewrite Z.mul_comm, Z_mod_plus_full. by apply Z.mod_small.
Qed.

Lemma at_counter_self (x : list Z) : ctx_ok x -> at_counter x (counter_of x) = x.
Proof.
  intros Hx. destruct (counter_split x Hx) as (E1 & E2 & _). unfold at_counter. rewrite E1, E2.
  destruct Hx as [Hl _]. rewrite (insert_get x 12) by lia. apply insert_get. lia.
Qed.

Lemma encrypt_bytes_spec (x m : list Z) :
  ctx_ok x -> is_bytes m ->
  chacha_encrypt_bytes x m =
    (zip_with Z.lxor m (keystream x (counter_of x) (nblocks (length m))),
     at_counter x (counter_of x + Z.of_nat (nblocks (length m)))).
Proof.
  intros Hx Hb. pose proof (counter_split x Hx) as (_ & _ & Hc). unfold chacha_encrypt_bytes.
  destruct (Nat.eqb_spec (length m) 0) as [E|E].
  - apply nil_length_inv in E as ->. change (nblocks (length [])) with 0%nat.
    by rewrite Z.add_0_r, at_counter_self.
  - rewrite <- (at_counter_self x Hx) at 1. destruct Hx as [Hl _].
    rewrite encrypt_loop_spec by (done || lia). f_equal. unfold at_counter.
    rewrite !get_insert by (rewrite ?length_insert; lia). by rewrite !decide_True, decide_False by done.
Qed.

Lemma xor_involutive (m k : list Z) :
  (length m <= length k)%nat -> zip_with Z.lxor (zip_with Z.lxor m k) k = m.
Proof.
  revert k. induction m as [|x m IH]; intros [|y k] Hl; cbn in *; try done; [lia|].
  rewrite IH by lia. by rewrite Z.lxor_assoc, Z.lxor_nilpotent, Z.lxor_0_r.
Qed.

Lemma nblocks_cover (k : nat) : (k <= 64 * nblocks k)%nat.
Proof.
  unfold nblocks. pose proof (Nat.div_mod_eq (k + 63) 64). pose proof (Nat.mod_upper_bound (k + 63) 64). lia.
Qed.

Lemma keystream_bytes (x : list Z) (c : Z) (k : nat) : is_bytes (keystream x c k).
Proof.
  revert c. induction k as [|k IH]; intros c; [apply is_bytes_nil|]. cbn [keystream].
  apply is_bytes_app. split; [|done]. unfold key_block.
  induction (zip_with PLUS _ _) as [|w l IHl]; [apply is_bytes_nil|]. cbn [flat_map].
  apply is_bytes_app. auto with libbtc.
Qed.

Lemma zip_lxor_bytes (a b : list Z) : is_bytes a -> is_bytes b -> is_bytes (zip_with Z.lxor a b).
Proof.
  intros Ha. revert b. induction Ha as [|x a Hx Ha IH]; intros b Hb; [apply is_bytes_nil|].
  destruct Hb as [|y b Hy Hb]; [apply is_bytes_nil|]. constructor; [|by apply IH]. by apply (lxor_range 8).
Qed.

(** [chacha_encrypt_bytes] xors the message with the ChaCha20 keystream that
    starts at the block counter of the context, leaves the counter advanced by
    the number of blocks (modulo [2^64]), and is its own inverse: a second run
    from the same context gives the message back. *)
Theorem chacha_stream (x m : list Z) (Hx : ctx_ok x) (Hm : is_bytes m) :
  chacha_encrypt_bytes x m =
    (zip_with Z.lxor m (keystream x (counter_of x) (nblocks (length m))),
     at_counter x (counter_of x + Z.of_nat (nblocks (length m)))) /\
  fst (chacha_encrypt_bytes x (fst (chacha_encrypt_bytes x m))) = m.
Proof.
  split; [by apply encrypt_bytes_spec|]. rewrite (encrypt_bytes_spec x m) by done. cbn [fst].
  destruct Hx as [Hl Hr]. set (k := keystream x _ _).
  assert (length m <= length k)%nat as Hk
    by (unfold k; rewrite keystream_length by done; apply nblocks_cover).
  rewrite encrypt_bytes_spec; [|done|apply zip_lxor_bytes; [done|apply keystream_bytes]].
  cbn [fst]. rewrite length_zip_with, Nat.min_l by done. by apply xor_involutive.
Qed.

Lemma chacha_stream_witness :
  fst (chacha_encrypt_bytes (replicate 16 5) (fst (chacha_encrypt_bytes (replicate 16 5) (replicate 70 9)))) =
  replicate 70 9.
Proof.
  refine (proj2 (chacha_stream (replicate 16 5) (replicate 70 9) _ _)).
  - split; [reflexivity|]. repeat constructor; vm_compute; congruence.
  - repeat constructor; vm_compute; congruence.
Defined.

(** ** Setting a context up *)

Lemma load4_bytes (p : list Z) :
  is_bytes p -> (16 <= length p)%nat -> flat_map (le_bytes 4) (load4 p) = take 16 p.
Proof.
  intros Hb Hl. unfold load4. rewrite !U8TO32_val by auto with libbtc. cbn [flat_map].
  assert (forall k, (k + 4 <= length p)%nat -> le_bytes 4 (le_val (take 4 (drop k p))) = take 4 (drop k p)) as E.
  { intros k Hk. replace 4%nat with (length (take 4 (drop k p))) at 1 by (rewrite length_take, length_drop; lia).
    apply le_bytes_val. auto with libbtc. }
  rewrite (E 4%nat), (E 8%nat), (E 12%nat) by lia. specialize (E 0%nat ltac:(lia)). rewrite drop_0 in E.
  rewrite E, app_nil_r. rewrite !(app_assoc (take 4 p)), take_take_drop, app_assoc, !take_take_drop. done.
Qed.

Lemma U8TO32_range (p : list Z) : is_bytes p -> 0 <= U8TO32_LITTLE p < 2 ^ 32.
Proof.
  intros Hb. rewrite U8TO32_val by done. pose proof (le_val_bound (take 4 p) ltac:(auto with libbtc)) as H.
  pose proof (length_take p 4). change (2 ^ 32) with (256 ^ 4).
  assert (256 ^ zlen (take 4 p) <= 256 ^ 4) by (apply Z.pow_le_mono_r; unfold zlen; lia). lia.
Qed.

Lemma load4_range (p : list Z) : is_bytes p -> Forall (fun w => 0 <= w < 2 ^ 32) (load4 p).
Proof. intros Hb. unfold load4. repeat constructor; apply U8TO32_range; auto with libbtc. Qed.

Lemma word_pair (p : list Z) : is_bytes p -> length p = 8%nat ->
  flat_map (le_bytes 4) [U8TO32_LITTLE p; U8TO32_LITTLE (drop 4 p)] = p.
Proof.
  intros Hb Hl. cbn [flat_map]. rewrite !U8TO32_val, app_nil_r by auto with libbtc.
  rewrite (take_ge (drop 4 p)) by (rewrite length_drop; lia).
  assert (forall q, is_bytes q -> length q = 4%nat -> le_bytes 4 (le_val q) = q) as E
    by (intros q Hq <-; by apply le_bytes_val).
  rewrite !E, take_drop by (auto with libbtc; rewrite ?length_take, ?length_drop; lia). done.
Qed.

(** The bytes of the counter argument; a null pointer stands for zero. *)
Definition counter_bytes (counter : option (list Z)) : list Z := default (replicate 8 0) counter.

Lemma ivsetup_bytes (x iv : list Z) (counter : option (list Z)) :
  is_bytes iv -> length iv = 8%nat -> is_bytes (counter_bytes counter) -> length (counter_bytes counter) = 8%nat ->
  flat_map (le_bytes 4) (chacha_ivsetup x iv counter) =
  flat_map (le_bytes 4) (take 12 x) ++ counter_bytes counter ++ iv.
Proof.
  intros Hi Li Hc Lc. unfold chacha_ivsetup. rewrite !flat_map_app, (word_pair iv) by done. do 2 f_equal.
  destruct counter as [c|]; [by apply word_pair|done].
Qed.

Lemma ivsetup_ok (x iv : list Z) (counter : option (list Z)) :
  (12 <= length x)%nat -> Forall (fun w => 0 <= w < 2 ^ 32) x ->
  is_bytes iv -> is_bytes (counter_bytes counter) -> ctx_ok (chacha_ivsetup x iv counter).
Proof.
  intros Hl Hx Hi Hc. unfold chacha_ivsetup. split.
  - rewrite !length_app, length_take. destruct counter; cbn [length]; lia.
  - rewrite !Forall_app. split_and!.
    + by apply Forall_take.
    + destruct counter; repeat constructor; try (apply U8TO32_range; cbn in Hc; auto with libbtc); lia.
    + repeat constructor; apply U8TO32_range; auto with libbtc.
Qed.

Lemma keysetup_bytes (x k : list Z) (kbits : Z) :
  is_bytes k -> (if (kbits =? 256)%Z then 32 <= length k else 16 <= length k)%nat ->
  flat_map (le_bytes 4) (take 12 (chacha_keysetup x k kbits)) =
  if kbits =? 256 then sigma ++ take 32 k else tau ++ take 16 k ++ take 16 k.
Proof.
  intros Hb Hl. unfold chacha_keysetup.
  assert (flat_map (le_bytes 4) (load4 sigma) = sigma /\ flat_map (le_bytes 4) (load4 tau) = tau) as [Es Et] by done.
  destruct (kbits =? 256).
  - rewrite !app_assoc, take_app_length', !flat_map_app by done.
    rewrite Es, !load4_bytes by (auto with libbtc; rewrite ?length_drop; lia).
    by rewrite <- app_assoc, take_take_drop.
  - rewrite !app_assoc, take_app_length', !flat_map_app by done.
    rewrite Et, !load4_bytes by (auto with libbtc; lia). by rewrite <- app_assoc.
Qed.

Lemma keysetup_ok (x k : list Z) (kbits : Z) :
  is_bytes k -> (if (kbits =? 256)%Z then 32 <= length k else 16 <= length k)%nat ->
  Forall (fun w => 0 <= w < 2 ^ 32) x ->
  (12 <= length (chacha_keysetup x k kbits))%nat /\
  Forall (fun w => 0 <= w < 2 ^ 32) (chacha_keysetup x k kbits).
Proof.
  intros Hb Hl Hx. unfold chacha_keysetup.
  assert (is_bytes sigma /\ is_bytes tau) as [Hs Ht] by (split; repeat constructor; unfold is_byte; lia).
  split.
  - destruct (kbits =? 256); cbn [load4 app length]; lia.
  - destruct (kbits =? 256); rewrite !Forall_app; split_and!; try (by apply Forall_drop);
      apply load4_range; auto with libbtc.
Qed.

(** After [chacha_keysetup] and [chacha_ivsetup], a valid context holds,
    read as little-endian bytes: the sixteen byte constant, the key (a 128 bit
    key twice), the eight byte counter and the eight byte nonce; whatever the
    memory held before.  For the zero key, nonce and counter the first
    keystream block is the published ChaCha20 test vector. *)
Theorem chacha_setup (x k iv : list Z) (kbits : Z) (counter : option (list Z))
  (Hx : Forall (fun w => 0 <= w < 2 ^ 32) x)
  (Hk : is_bytes k) (Hkl : (if (kbits =? 256)%Z then 32 <= length k else 16 <= length k)%nat)
  (Hi : is_bytes iv /\ length iv = 8%nat)
  (Hc : is_bytes (counter_bytes counter) /\ length (counter_bytes counter) = 8%nat) :
  let ctx := chacha_ivsetup (chacha_keysetup x k kbits) iv counter in
  ctx_ok ctx /\
  flat_map (le_bytes 4) ctx =
    (if kbits =? 256 then sigma ++ take 32 k else tau ++ take 16 k ++ take 16 k) ++ counter_bytes counter ++ iv /\
  fst (chacha_encrypt_bytes (chacha_ivsetup (chacha_keysetup [] (replicate 32 0) 256) (replicate 8 0) None)
    (replicate 64 0)) =
  be_bytes 64 0x76b8e0ada0f13d90405d6ae55386bd28bdd219b8a08ded1aa836efcc8b770dc7da41597c5157488d7724e03fb8d84a376a43b8f41518a11cc387b669b2ee6586.
Proof.
  intros ctx. destruct Hi as [Hi Hil], Hc as [Hc Hcl].
  destruct (keysetup_ok x k kbits Hk Hkl Hx). split_and!; [by apply ivsetup_ok| |by vm_compute].
  unfold ctx. rewrite ivsetup_bytes by done. by rewrite keysetup_bytes.
Qed.

Lemma chacha_setup_witness :
  ctx_ok (chacha_ivsetup (chacha_keysetup [] (replicate 32 7) 256) (replicate 8 2) (Some [1;0;0;0;0;0;0;0])).
Proof.
  refine (proj1 (chacha_setup [] (replicate 32 7) (replicate 8 2) 256 (Some [1;0;0;0;0;0;0;0]) _ _ _ _ _)).
  - constructor.
  - repeat constructor; vm_compute; congruence.
  - vm_compute. lia.
  - split; [|reflexivity]. repeat constructor; vm_compute; congruence.
  - split; [|reflexivity]. repeat constructor; vm_compute; congruence.
Defined.
