(* ===== verification/Poly1305.v ===== *)
(** * poly1305.c: the one-time authenticator

    The five 26 bit limbs of the accumulator and of the multiplier are a
    record; every [uint32_t] and [uint64_t] operation is truncated to its
    width.  The labels of the function are the definitions [poly1305_mul]
    (poly1305_donna_mul), [poly1305_blocks] (poly1305_donna_16bytes and
    poly1305_donna_atmost15bytes) and [poly1305_finish].  The reference is the
    polynomial evaluation modulo [2^130 - 5] of RFC 7539. *)

From S2P Require Import Prelude.

(** ** The code *)

Definition mul32x32_64 (a b : Z) : Z := u64 (a * b).

Definition U8TO32_LE (p : list Z) : Z :=
  Z.lor (Z.lor (Z.lor (nth 0 p 0) (Z.shiftl (nth 1 p 0) 8)) (Z.shiftl (nth 2 p 0) 16))
        (Z.shiftl (nth 3 p 0) 24).

Definition U32TO8_LE (v : Z) : list Z :=
  [u8 v; u8 (Z.shiftr v 8); u8 (Z.shiftr v 16); u8 (Z.shiftr v 24)].

Record limbs := Limbs { l0 : Z; l1 : Z; l2 : Z; l3 : Z; l4 : Z }.

(** "clamp key" and "precompute multipliers" *)
Definition poly1305_clamp (key : list Z) : limbs :=
  let t0 := U8TO32_LE key in
  let t1 := U8TO32_LE (drop 4 key) in
  let t2 := U8TO32_LE (drop 8 key) in
  let t3 := U8TO32_LE (drop 12 key) in
  let r0 := Z.land t0 0x3ffffff in
  let t0 := Z.shiftr t0 26 in
  let t0 := Z.lor t0 (u32 (Z.shiftl t1 6)) in
  let r1 := Z.land t0 0x3ffff03 in
  let t1 := Z.shiftr t1 20 in
  let t1 := Z.lor t1 (u32 (Z.shiftl t2 12)) in
  let r2 := Z.land t1 0x3ffc0ff in
  let t2 := Z.shiftr t2 14 in
  let t2 := Z.lor t2 (u32 (Z.shiftl t3 18)) in
  let r3 := Z.land t2 0x3f03fff in
  let t3 := Z.shiftr t3 8 in
  let r4 := Z.land t3 0x00fffff in
  Limbs r0 r1 r2 r3 r4.

(** Adds sixteen bytes to the accumulator; [hibit] is [1 << 24] for a full
    block and 0 for the last one. *)
Definition poly1305_add (h : limbs) (m : list Z) (hibit : Z) : limbs :=
  let t0 := U8TO32_LE m in
  let t1 := U8TO32_LE (drop 4 m) in
  let t2 := U8TO32_LE (drop 8 m) in
  let t3 := U8TO32_LE (drop 12 m) in
  Limbs (u32 (l0 h + Z.land t0 0x3ffffff))
        (u32 (l1 h + Z.land (Z.shiftr (Z.lor (u64 (Z.shiftl t1 32)) t0) 26) 0x3ffffff))
        (u32 (l2 h + Z.land (Z.shiftr (Z.lor (u64 (Z.shiftl t2 32)) t1) 20) 0x3ffffff))
        (u32 (l3 h + Z.land (Z.shiftr (Z.lor (u64 (Z.shiftl t3 32)) t2) 14) 0x3ffffff))
        (u32 (l4 h + Z.lor (Z.shiftr t3 8) hibit)).

Definition sum5 (a b c d e : Z) : Z := u64 (u64 (u64 (u64 (a + b) + c) + d) + e).

Definition poly1305_mul (h r : limbs) : limbs :=
  let '(Limbs h0 h1 h2 h3 h4) := h in
  let '(Limbs r0 r1 r2 r3 r4) := r in
  let s1 := u32 (r1 * 5) in
  let s2 := u32 (r2 * 5) in
  let s3 := u32 (r3 * 5) in
  let s4 := u32 (r4 * 5) in
  let t0 := sum5 (mul32x32_64 h0 r0) (mul32x32_64 h1 s4) (mul32x32_64 h2 s3) (mul32x32_64 h3 s2) (mul32x32_64 h4 s1) in
  let t1 := sum5 (mul32x32_64 h0 r1) (mul32x32_64 h1 r0) (mul32x32_64 h2 s4) (mul32x32_64 h3 s3) (mul32x32_64 h4 s2) in
  let t2 := sum5 (mul32x32_64 h0 r2) (mul32x32_64 h1 r1) (mul32x32_64 h2 r0) (mul32x32_64 h3 s4) (mul32x32_64 h4 s3) in
  let t3 := sum5 (mul32x32_64 h0 r3) (mul32x32_64 h1 r2) (mul32x32_64 h2 r1) (mul32x32_64 h3 r0) (mul32x32_64 h4 s4) in
  let t4 := sum5 (mul32x32_64 h0 r4) (mul32x32_64 h1 r3) (mul32x32_64 h2 r2) (mul32x32_64 h3 r1) (mul32x32_64 h4 r0) in
  let h0 := Z.land (u32 t0) 0x3ffffff in
  let c := Z.shiftr t0 26 in
  let t1 := u64 (t1 + c) in
  let h1 := Z.land (u32 t1) 0x3ffffff in
  let b := u32 (Z.shiftr t1 26) in
  let t2 := u64 (t2 + b) in
  let h2 := Z.land (u32 t2) 0x3ffffff in
  let b := u32 (Z.shiftr t2 26) in
  let t3 := u64 (t3 + b) in
  let h3 := Z.land (u32 t3) 0x3ffffff in
  let b := u32 (Z.shiftr t3 26) in
  let t4 := u64 (t4 + b) in
  let h4 := Z.land (u32 t4) 0x3ffffff in
  let b := u32 (Z.shiftr t4 26) in
  let h0 := u32 (h0 + u32 (b * 5)) in
  Limbs h0 h1 h2 h3 h4.

(** The full blocks, then the padded rest; one unit of fuel per block. *)
Fixpoint poly1305_blocks (fuel : nat) (h r : limbs) (m : list Z) : limbs :=
  match fuel with
  | O => h
  | S fuel' =>
      if (16 <=? length m)%nat then
        poly1305_blocks fuel' (poly1305_mul (poly1305_add h m (Z.shiftl 1 24)) r) r (drop 16 m)
      else if (length m =? 0)%nat then h
      else
        let mp := m ++ [1] ++ replicate (16 - length m - 1) 0 in
        poly1305_mul (poly1305_add h mp 0) r
  end.

(** [b = h0 >> 26; h0 &= 0x3ffffff; h1 += b; ...] up to the last carry. *)
Definition poly1305_carry (h : limbs) : limbs :=
  let '(Limbs h0 h1 h2 h3 h4) := h in
  let b := Z.shiftr h0 26 in
  let h0 := Z.land h0 0x3ffffff in
  let h1 := u32 (h1 + b) in
  let b := Z.shiftr h1 26 in
  let h1 := Z.land h1 0x3ffffff in
  let h2 := u32 (h2 + b) in
  let b := Z.shiftr h2 26 in
  let h2 := Z.land h2 0x3ffffff in
  let h3 := u32 (h3 + b) in
  let b := Z.shiftr h3 26 in
  let h3 := Z.land h3 0x3ffffff in
  let h4 := u32 (h4 + b) in
  let b := Z.shiftr h4 26 in
  let h4 := Z.land h4 0x3ffffff in
  let h0 := u32 (h0 + u32 (b * 5)) in
  let b := Z.shiftr h0 26 in
  let h0 := Z.land h0 0x3ffffff in
  let h1 := u32 (h1 + b) in
  Limbs h0 h1 h2 h3 h4.

(** The subtraction of [2^130 - 5] and the masked selection. *)
Definition poly1305_reduce (h : limbs) : limbs :=
  let '(Limbs h0 h1 h2 h3 h4) := h in
  let g0 := u32 (h0 + 5) in
  let b := Z.shiftr g0 26 in
  let g0 := Z.land g0 0x3ffffff in
  let g1 := u32 (h1 + b) in
  let b := Z.shiftr g1 26 in
  let g1 := Z.land g1 0x3ffffff in
  let g2 := u32 (h2 + b) in
  let b := Z.shiftr g2 26 in
  let g2 := Z.land g2 0x3ffffff in
  let g3 := u32 (h3 + b) in
  let b := Z.shiftr g3 26 in
  let g3 := Z.land g3 0x3ffffff in
  let g4 := u32 (u32 (h4 + b) - Z.shiftl 1 26) in
  let b := u32 (Z.shiftr g4 31 - 1) in
  let nb := u32 (Z.lnot b) in
  Limbs (Z.lor (Z.land h0 nb) (Z.land g0 b)) (Z.lor (Z.land h1 nb) (Z.land g1 b))
        (Z.lor (Z.land h2 nb) (Z.land g2 b)) (Z.lor (Z.land h3 nb) (Z.land g3 b))
        (Z.lor (Z.land h4 nb) (Z.land g4 b)).

(** The four output words and the addition of the second half of the key. *)
Definition poly1305_tag (h : limbs) (key : list Z) : list Z :=
  let '(Limbs h0 h1 h2 h3 h4) := h in
  let f0 := u64 (Z.lor h0 (u32 (Z.shiftl h1 26)) + U8TO32_LE (drop 16 key)) in
  let f1 := u64 (Z.lor (Z.shiftr h1 6) (u32 (Z.shiftl h2 20)) + U8TO32_LE (drop 20 key)) in
  let f2 := u64 (Z.lor (Z.shiftr h2 12) (u32 (Z.shiftl h3 14)) + U8TO32_LE (drop 24 key)) in
  let f3 := u64 (Z.lor (Z.shiftr h3 18) (u32 (Z.shiftl h4 8)) + U8TO32_LE (drop 28 key)) in
  let f1 := u64 (f1 + Z.shiftr f0 32) in
  let f2 := u64 (f2 + Z.shiftr f1 32) in
  let f3 := u64 (f3 + Z.shiftr f2 32) in
  U32TO8_LE f0 ++ U32TO8_LE f1 ++ U32TO8_LE f2 ++ U32TO8_LE f3.

Definition poly1305_finish (h : limbs) (key : list Z) : list Z :=
  poly1305_tag (poly1305_reduce (poly1305_carry h)) key.

Definition poly1305_auth (m key : list Z) : list Z :=
  let r := poly1305_clamp key in
  poly1305_finish (poly1305_blocks (S (length m)) (Limbs 0 0 0 0 0) r m) key.

(** ** Reference *)

Definition p1305 : Z := 2 ^ 130 - 5.

(** The message in blocks of sixteen bytes, each with a final 1 bit above it. *)
Fixpoint poly_eval (fuel : nat) (acc r : Z) (m : list Z) : Z :=
  match fuel with
  | O => acc
  | S fuel' =>
      match m with
      | [] => acc
      | _ => poly_eval fuel' (((acc + le_val (take 16 m ++ [1])) * r) mod p1305) r (drop 16 m)
      end
  end.

Definition poly_clamp (key : list Z) : Z :=
  Z.land (le_val (take 16 key)) 0x0ffffffc0ffffffc0ffffffc0fffffff.

Definition poly1305_spec (m key : list Z) : list Z :=
  le_bytes 16 (poly_eval (S (length m)) 0 (poly_clamp key) m + le_val (take 16 (drop 16 key))).

(** RFC 7539, section 2.5.2 *)
Example poly1305_rfc7539 :
  poly1305_auth
    [67; 114; 121; 112; 116; 111; 103; 114; 97; 112; 104; 105; 99; 32; 70; 111; 114; 117; 109; 32; 82; 101;
     115; 101; 97; 114; 99; 104; 32; 71; 114; 111; 117; 112]
    (be_bytes 32 0x85d6be7857556d337f4452fe42d506a80103808afb0db2fd4abff6af4149f51b) =
  be_bytes 16 0xa8061dc1305136c6c22b8baf0c0127a9.
Proof. vm_compute. reflexivity. Qed.

(** ** Limbs *)

Definition val (h : limbs) : Z := l0 h + 2 ^ 26 * l1 h + 2 ^ 52 * l2 h + 2 ^ 78 * l3 h + 2 ^ 104 * l4 h.

(** Limbs after a multiplication, and after the addition of a block to them;
    the bound on the first limb is what keeps every carry within 32 bits. *)
Definition reduced (h : limbs) : Prop :=
  0 <= l0 h <= 2800000000 /\ 0 <= l1 h < 2 ^ 26 /\ 0 <= l2 h < 2 ^ 26 /\ 0 <= l3 h < 2 ^ 26 /\ 0 <= l4 h < 2 ^ 26.

Definition loaded (h : limbs) : Prop :=
  0 <= l0 h <= 2870000000 /\ 0 <= l1 h < 2 ^ 27 /\ 0 <= l2 h < 2 ^ 27 /\ 0 <= l3 h < 2 ^ 27 /\
  0 <= l4 h < 2 ^ 26 + 2 ^ 25.

Definition clamped (r : limbs) : Prop :=
  0 <= l0 r <= 0x3ffffff /\ 0 <= l1 r <= 0x3ffff03 /\ 0 <= l2 r <= 0x3ffc0ff /\ 0 <= l3 r <= 0x3f03fff /\
  0 <= l4 r <= 0x00fffff.

Lemma mask26 (x : Z) : Z.land x 0x3ffffff = x mod 2 ^ 26.
Proof. change 0x3ffffff with (Z.ones 26). by rewrite Z.land_ones by lia. Qed.

Lemma mask26_u32 (x : Z) : Z.land (u32 x) 0x3ffffff = x mod 2 ^ 26.
Proof. rewrite mask26. unfold wrap. zdm. Qed.

Lemma prod_bound (a b A B : Z) : 0 <= a <= A -> 0 <= b <= B -> 0 <= a * b <= A * B.
Proof. intros. nia. Qed.

Lemma prod60 (a b : Z) : 0 <= a <= 2870000000 -> 0 <= b <= 5 * 2 ^ 26 -> 0 <= a * b <= 2 ^ 60.
Proof. intros Ha Hb. pose proof (prod_bound a b _ _ Ha Hb). lia. Qed.

Lemma sum5_small (a b c d e : Z) :
  0 <= a <= 2 ^ 60 -> 0 <= b <= 2 ^ 60 -> 0 <= c <= 2 ^ 60 -> 0 <= d <= 2 ^ 60 -> 0 <= e <= 2 ^ 60 ->
  sum5 a b c d e = a + b + c + d + e.
Proof.
  intros. unfold sum5. rewrite (wrap_small 64 (a + b)) by lia. rewrite (wrap_small 64 (a + b + c)) by lia.
  rewrite (wrap_small 64 (a + b + c + d)) by lia. apply wrap_small. lia.
Qed.

Lemma mul32_small (a b : Z) : 0 <= a < 2 ^ 32 -> 0 <= b < 2 ^ 32 ->
  mul32x32_64 a b = a * b.
Proof. intros. unfold mul32x32_64. apply wrap_small. nia. Qed.

(** The carries of the five column sums. *)
Definition carried (t0 t1 t2 t3 t4 : Z) : limbs :=
  let t1 := t1 + t0 / 2 ^ 26 in
  let t2 := t2 + t1 / 2 ^ 26 in
  let t3 := t3 + t2 / 2 ^ 26 in
  let t4 := t4 + t3 / 2 ^ 26 in
  Limbs (t0 mod 2 ^ 26 + 5 * (t4 / 2 ^ 26)) (t1 mod 2 ^ 26) (t2 mod 2 ^ 26) (t3 mod 2 ^ 26) (t4 mod 2 ^ 26).

Lemma carried_val (t0 t1 t2 t3 t4 : Z) :
  exists q, val (carried t0 t1 t2 t3 t4) =
            t0 + 2 ^ 26 * t1 + 2 ^ 52 * t2 + 2 ^ 78 * t3 + 2 ^ 104 * t4 - p1305 * q.
Proof.
  unfold carried, val, p1305. cbn [l0 l1 l2 l3 l4].
  set (u1 := t1 + t0 / 2 ^ 26). set (u2 := t2 + u1 / 2 ^ 26). set (u3 := t3 + u2 / 2 ^ 26).
  set (u4 := t4 + u3 / 2 ^ 26). exists (u4 / 2 ^ 26).
  assert (forall t, 2 ^ 26 * (t / 2 ^ 26) + t mod 2 ^ 26 = t) as D by (intros; symmetry; apply Z_div_mod_eq_full).
  pose proof (D t0). pose proof (D u1). pose proof (D u2). pose proof (D u3). pose proof (D u4). lia.
Qed.

Lemma mul_chain (c0 c1 c2 c3 c4 : Z) :
  0 <= c0 <= 2 ^ 60 -> 0 <= c1 <= 31 * 2 ^ 53 + 2 ^ 52 -> 0 <= c2 <= 31 * 2 ^ 53 -> 0 <= c3 <= 31 * 2 ^ 53 ->
  0 <= c4 <= 36665000000000000 ->
  let h0 := Z.land (u32 c0) 0x3ffffff in
  let c := Z.shiftr c0 26 in
  let t1 := u64 (c1 + c) in
  let h1 := Z.land (u32 t1) 0x3ffffff in
  let b := u32 (Z.shiftr t1 26) in
  let t2 := u64 (c2 + b) in
  let h2 := Z.land (u32 t2) 0x3ffffff in
  let b := u32 (Z.shiftr t2 26) in
  let t3 := u64 (c3 + b) in
  let h3 := Z.land (u32 t3) 0x3ffffff in
  let b := u32 (Z.shiftr t3 26) in
  let t4 := u64 (c4 + b) in
  let h4 := Z.land (u32 t4) 0x3ffffff in
  let b := u32 (Z.shiftr t4 26) in
  let h0 := u32 (h0 + u32 (b * 5)) in
  Limbs h0 h1 h2 h3 h4 = carried c0 c1 c2 c3 c4 /\ reduced (Limbs h0 h1 h2 h3 h4).
Proof.
  intros H0 H1 H2 H3 H4. cbv zeta. rewrite !mask26_u32, !Z.shiftr_div_pow2 by lia.
  unfold carried, reduced. cbn [l0 l1 l2 l3 l4].
  assert (forall t, 0 <= t -> 0 <= t / 2 ^ 26 /\ 2 ^ 26 * (t / 2 ^ 26) <= t) as D by (intros; zdm).
  assert (forall t, 0 <= t mod 2 ^ 26 < 2 ^ 26) as M by (intros; apply Z.mod_pos_bound; lia).
  pose proof (D c0 ltac:(lia)). rewrite (wrap_small 64 (c1 + c0 / 2 ^ 26)) by lia.
  set (u1 := c1 + c0 / 2 ^ 26). pose proof (D u1 ltac:(lia)). rewrite (wrap_small 32 (u1 / 2 ^ 26)) by lia.
  rewrite (wrap_small 64 (c2 + u1 / 2 ^ 26)) by lia.
  set (u2 := c2 + u1 / 2 ^ 26). pose proof (D u2 ltac:(lia)). rewrite (wrap_small 32 (u2 / 2 ^ 26)) by lia.
  rewrite (wrap_small 64 (c3 + u2 / 2 ^ 26)) by lia.
  set (u3 := c3 + u2 / 2 ^ 26). pose proof (D u3 ltac:(lia)). rewrite (wrap_small 32 (u3 / 2 ^ 26)) by lia.
  rewrite (wrap_small 64 (c4 + u3 / 2 ^ 26)) by lia.
  set (u4 := c4 + u3 / 2 ^ 26). pose proof (D u4 ltac:(lia)). rewrite (wrap_small 32 (u4 / 2 ^ 26)) by lia.
  pose proof (M c0). rewrite (wrap_small 32 (u4 / 2 ^ 26 * 5)), wrap_small by lia.
  split; [f_equal; lia|]. split_and!; try apply M; lia.
Qed.

Lemma mul_carried (h r : limbs) : loaded h -> clamped r ->
  let c0 := l0 h * l0 r + 5 * (l1 h * l4 r) + 5 * (l2 h * l3 r) + 5 * (l3 h * l2 r) + 5 * (l4 h * l1 r) in
  let c1 := l0 h * l1 r + l1 h * l0 r + 5 * (l2 h * l4 r) + 5 * (l3 h * l3 r) + 5 * (l4 h * l2 r) in
  let c2 := l0 h * l2 r + l1 h * l1 r + l2 h * l0 r + 5 * (l3 h * l4 r) + 5 * (l4 h * l3 r) in
  let c3 := l0 h * l3 r + l1 h * l2 r + l2 h * l1 r + l3 h * l0 r + 5 * (l4 h * l4 r) in
  let c4 := l0 h * l4 r + l1 h * l3 r + l2 h * l2 r + l3 h * l1 r + l4 h * l0 r in
  poly1305_mul h r = carried c0 c1 c2 c3 c4 /\ reduced (poly1305_mul h r).
Proof.
  destruct h as [h0 h1 h2 h3 h4], r as [r0 r1 r2 r3 r4]. unfold loaded, clamped. cbn [l0 l1 l2 l3 l4].
  intros (B0 & B1 & B2 & B3 & B4) (R0 & R1 & R2 & R3 & R4). unfold poly1305_mul.
  rewrite (wrap_small 32 (r1 * 5)), (wrap_small 32 (r2 * 5)), (wrap_small 32 (r3 * 5)), (wrap_small 32 (r4 * 5)) by lia.
  rewrite !mul32_small by lia. rewrite !sum5_small by (apply prod60; lia).
  assert (forall a b, a * (b * 5) = 5 * (a * b)) as M5 by (intros; ring). rewrite !M5. clear M5.
  pose proof (prod_bound h0 r0 _ _ B0 R0). pose proof (prod_bound h0 r1 _ _ B0 R1).
  pose proof (prod_bound h0 r2 _ _ B0 R2). pose proof (prod_bound h0 r3 _ _ B0 R3).
  pose proof (prod_bound h0 r4 _ _ B0 R4).
  assert (forall h r B, 0 <= h < 2 ^ 27 -> 0 <= r <= B -> 0 <= h * r <= 2 ^ 27 * B) as P
    by (intros; apply prod_bound; lia).
  assert (forall h r B, 0 <= h < 2 ^ 26 + 2 ^ 25 -> 0 <= r <= B -> 0 <= h * r <= (2 ^ 26 + 2 ^ 25) * B) as P4
    by (intros; apply prod_bound; lia).
  pose proof (P h1 r0 _ B1 R0). pose proof (P h1 r1 _ B1 R1). pose proof (P h1 r2 _ B1 R2).
  pose proof (P h1 r3 _ B1 R3). pose proof (P h1 r4 _ B1 R4).
  pose proof (P h2 r0 _ B2 R0). pose proof (P h2 r1 _ B2 R1). pose proof (P h2 r2 _ B2 R2).
  pose proof (P h2 r3 _ B2 R3). pose proof (P h2 r4 _ B2 R4).
  pose proof (P h3 r0 _ B3 R0). pose proof (P h3 r1 _ B3 R1). pose proof (P h3 r2 _ B3 R2).
  pose proof (P h3 r3 _ B3 R3). pose proof (P h3 r4 _ B3 R4).
  pose proof (P4 h4 r0 _ B4 R0). pose proof (P4 h4 r1 _ B4 R1). pose proof (P4 h4 r2 _ B4 R2).
  pose proof (P4 h4 r3 _ B4 R3). pose proof (P4 h4 r4 _ B4 R4).
  clear P P4 B0 B1 B2 B3 B4 R0 R1 R2 R3 R4.
  repeat match goal with
  | H : 0 <= ?a * ?b <= _ |- _ => revert H; generalize (a * b)
  end.
  intros. apply mul_chain; lia.
Qed.

Lemma mul_spec (h r : limbs) : loaded h -> clamped r ->
  reduced (poly1305_mul h r) /\ val (poly1305_mul h r) mod p1305 = (val h * val r) mod p1305.
Proof.
  intros Hh Hr. destruct (mul_carried h r Hh Hr) as [E R]. split; [done|]. rewrite E.
  match goal with |- val (carried ?a ?b ?c ?d ?e) mod _ = _ => destruct (carried_val a b c d e) as [q ->] end.
  set (w := l1 h * l4 r + l2 h * l3 r + l3 h * l2 r + l4 h * l1 r +
            2 ^ 26 * (l2 h * l4 r + l3 h * l3 r + l4 h * l2 r) +
            2 ^ 52 * (l3 h * l4 r + l4 h * l3 r) + 2 ^ 78 * (l4 h * l4 r)).
  match goal with |- ?a mod _ = _ => replace a with (val h * val r + (- w - q) * p1305) end.
  - apply Z_mod_plus_full.
  - unfold val, w, p1305. ring.
Qed.

(** ** Words *)

Lemma load_le_val (p : list Z) : is_bytes p -> U8TO32_LE p = le_val (take 4 p).
Proof. apply load32_val. Qed.

Lemma load_le_range (p : list Z) : is_bytes p -> 0 <= U8TO32_LE p < 2 ^ 32.
Proof.
  intros Hb. rewrite load_le_val by done. pose proof (le_val_bound (take 4 p) ltac:(auto with libbtc)) as H.
  pose proof (length_take p 4). change (2 ^ 32) with (256 ^ 4).
  assert (256 ^ zlen (take 4 p) <= 256 ^ 4) by (apply Z.pow_le_mono_r; unfold zlen; lia). lia.
Qed.

Lemma take_split (m : list Z) (a b k : nat) : k = (a + b)%nat -> take k m = take a m ++ take b (drop a m).
Proof. intros ->. symmetry. apply take_take_drop. Qed.

Lemma load16 (m : list Z) : is_bytes m -> (16 <= length m)%nat ->
  le_val (take 16 m) =
  U8TO32_LE m + 2 ^ 32 * U8TO32_LE (drop 4 m) + 2 ^ 64 * U8TO32_LE (drop 8 m) + 2 ^ 96 * U8TO32_LE (drop 12 m).
Proof.
  intros Hb Hl. rewrite !load_le_val by auto with libbtc.
  assert (forall k, (k + 4 <= length m)%nat -> zlen (take 4 (drop k m)) = 4) as L
    by (intros; unfold zlen; rewrite length_take, length_drop; lia).
  pose proof (L 0%nat ltac:(lia)) as L0. rewrite drop_0 in L0.
  rewrite (take_split m 4 12 16), le_val_app, L0 by lia. rewrite (take_split (drop 4 m) 4 8 12), le_val_app, L by lia.
  rewrite !drop_drop, (take_split (drop (4 + 4) m) 4 4 8), le_val_app, L, drop_drop by lia.
  cbn [Nat.add]. lia.
Qed.

Lemma lor_words (a b : Z) : 0 <= a < 2 ^ 32 -> 0 <= b < 2 ^ 32 ->
  Z.lor (u64 (Z.shiftl a 32)) b = b + 2 ^ 32 * a.
Proof.
  intros Ha Hb. rewrite wrap_small by (rewrite Z.shiftl_mul_pow2 by lia; lia).
  by rewrite Z.lor_comm, lor_add_pow2 by lia.
Qed.

Lemma add_spec (h : limbs) (m : list Z) (hibit : Z) :
  reduced h -> is_bytes m -> (16 <= length m)%nat -> hibit = 0 \/ hibit = Z.shiftl 1 24 ->
  loaded (poly1305_add h m hibit) /\
  val (poly1305_add h m hibit) = val h + le_val (take 16 m) + hibit * 2 ^ 104.
Proof.
  intros (B0 & B1 & B2 & B3 & B4) Hb Hl Hh. rewrite load16 by done. unfold poly1305_add, loaded, val.
  pose proof (load_le_range m Hb). pose proof (load_le_range (drop 4 m) ltac:(auto with libbtc)).
  pose proof (load_le_range (drop 8 m) ltac:(auto with libbtc)).
  pose proof (load_le_range (drop 12 m) ltac:(auto with libbtc)).
  generalize dependent (U8TO32_LE m). generalize dependent (U8TO32_LE (drop 4 m)).
  generalize dependent (U8TO32_LE (drop 8 m)). generalize dependent (U8TO32_LE (drop 12 m)).
  intros t3 H3 t2 H2 t1 H1 t0 H0. cbn [l0 l1 l2 l3 l4].
  rewrite !lor_words, !mask26, !Z.shiftr_div_pow2 by lia.
  assert (Z.lor (t3 / 2 ^ 8) hibit = t3 / 2 ^ 8 + hibit) as ->.
  { destruct Hh as [-> | ->]; [by rewrite Z.lor_0_r, Z.add_0_r|]. by rewrite lor_add_pow2 by zdm. }
  assert (0 <= hibit <= 2 ^ 24) as Hr by (destruct Hh as [-> | ->]; vm_compute; split; congruence). clear Hh.
  assert (forall t, 0 <= t mod 2 ^ 26 < 2 ^ 26) as M by (intros; apply Z.mod_pos_bound; lia).
  pose proof (M t0). pose proof (M ((t0 + 2 ^ 32 * t1) / 2 ^ 26)). pose proof (M ((t1 + 2 ^ 32 * t2) / 2 ^ 20)).
  pose proof (M ((t2 + 2 ^ 32 * t3) / 2 ^ 14)). assert (0 <= t3 / 2 ^ 8 < 2 ^ 24) by zdm.
  rewrite !(wrap_small 32) by lia. split; [lia|]. zdm.
Qed.

(** ** Blocks *)

Lemma step_spec (h r : limbs) (m b : list Z) (hibit : Z) :
  reduced h -> clamped r -> is_bytes b -> (16 <= length b)%nat -> hibit = 0 \/ hibit = Z.shiftl 1 24 ->
  le_val (take 16 b) + hibit * 2 ^ 104 = le_val (take 16 m ++ [1]) ->
  reduced (poly1305_mul (poly1305_add h b hibit) r) /\
  val (poly1305_mul (poly1305_add h b hibit) r) mod p1305 =
    ((val h mod p1305 + le_val (take 16 m ++ [1])) * val r) mod p1305.
Proof.
  intros Hh Hr Hb Hl Hi Hv. destruct (add_spec h b hibit Hh Hb Hl Hi) as [La Ea].
  destruct (mul_spec _ r La Hr) as [Rm Em]. split; [done|]. rewrite Em, Ea, <- Hv.
  rewrite <- (Zmult_mod_idemp_l (val h mod p1305 + _)), Zplus_mod_idemp_l, Zmult_mod_idemp_l. f_equal. ring.
Qed.

Lemma blocks_spec (fuel : nat) (h r : limbs) (m : list Z) :
  reduced h -> clamped r -> is_bytes m -> (length m < fuel)%nat ->
  reduced (poly1305_blocks fuel h r m) /\
  val (poly1305_blocks fuel h r m) mod p1305 = poly_eval fuel (val h mod p1305) (val r) m.
Proof.
  intros Hh Hr. revert h m Hh. induction fuel as [|fuel IH]; intros h m Hh Hb Hf; [lia|].
  cbn [poly1305_blocks poly_eval]. destruct (Nat.leb_spec 16 (length m)) as [Hl|Hl].
  - destruct (step_spec h r m m (Z.shiftl 1 24)) as [R E]; try done; [by right| |].
    { rewrite le_val_app. unfold zlen. rewrite length_take, Nat.min_l by done. by vm_compute (256 ^ _). }
    destruct m as [|x m']; [simpl in Hl; lia|]. rewrite <- E.
    apply IH; [done|auto with libbtc|rewrite length_drop; lia].
  - destruct (Nat.eqb_spec (length m) 0) as [E0|E0].
    + apply nil_length_inv in E0 as ->. done.
    + set (mp := m ++ [1] ++ replicate (16 - length m - 1) 0).
      assert (length mp = 16%nat) as Lp by (unfold mp; rewrite !length_app, length_replicate; cbn; lia).
      assert (is_bytes mp) as Bp.
      { unfold mp. rewrite !is_bytes_app. split_and!; [done|repeat constructor; lia|].
        apply is_bytes_replicate. unfold is_byte. lia. }
      destruct (step_spec h r m mp 0) as [R E]; try done; [lia|by left| |].
      { rewrite !take_ge by lia. unfold mp. rewrite app_assoc, (le_val_app (m ++ [1])), le_val_zeros. lia. }
      split; [done|]. destruct m as [|x m']; [done|]. rewrite <- E.
      rewrite (drop_ge (x :: m')) by lia. by destruct fuel.
Qed.

(** ** The key *)

(** A mask acts on each limb. *)
Lemma land_limb (x a b : Z) :
  0 <= x -> 0 <= a < 2 ^ 26 -> Z.land x (a + 2 ^ 26 * b) = Z.land x a + 2 ^ 26 * Z.land (x / 2 ^ 26) b.
Proof.
  intros Hx Ha. apply Z.bits_inj'. intros i Hi.
  assert (0 <= Z.land x a < 2 ^ 26) as Hr by (rewrite Z.land_comm; apply land_range; lia).
  rewrite (testbit_add_pow2 26 (Z.land x a)), !Z.land_spec, testbit_add_pow2 by lia.
  destruct (Z.ltb_spec i 26); [done|]. rewrite Z.div_pow2_bits by lia. do 2 f_equal. lia.
Qed.

Lemma land_low (x y m : Z) : 0 <= m < 2 ^ 26 -> x mod 2 ^ 26 = y mod 2 ^ 26 -> Z.land x m = Z.land y m.
Proof.
  intros Hm E. rewrite <- (Z.mod_small m (2 ^ 26)) by done. rewrite <- Z.land_ones by lia.
  rewrite (Z.land_comm m), !Z.land_assoc, !Z.land_ones by lia. by rewrite E.
Qed.

Lemma lor_shift (a b k : Z) : 0 <= k <= 32 -> 0 <= a < 2 ^ k ->
  Z.lor a (u32 (Z.shiftl b k)) = a + 2 ^ k * (b mod 2 ^ (32 - k)).
Proof.
  intros Hk Ha. rewrite <- (lor_add_pow2 k) by lia. f_equal. unfold wrap.
  rewrite !Z.shiftl_mul_pow2 by lia. replace 32 with (32 - k + k) at 1 by lia.
  by rewrite Z.pow_add_r, Zmult_mod_distr_r by lia.
Qed.

Lemma land_upper (x m : Z) : 0 <= m -> 0 <= Z.land x m <= m.
Proof.
  intros Hm. split; [apply Z.land_nonneg; by right|].
  assert (m - Z.land x m = Z.ldiff m (Z.land x m)) as E.
  { apply Z.sub_nocarry_ldiff, Z.bits_inj'. intros i Hi. rewrite Z.ldiff_spec, Z.land_spec, Z.testbit_0_l.
    by destruct (Z.testbit x i), (Z.testbit m i). }
  assert (0 <= Z.ldiff m (Z.land x m)) by (apply Z.ldiff_nonneg; by left). lia.
Qed.

Lemma clamp_spec (key : list Z) : is_bytes key -> (16 <= length key)%nat ->
  clamped (poly1305_clamp key) /\ val (poly1305_clamp key) = poly_clamp key.
Proof.
  intros Hb Hl. unfold poly1305_clamp, poly_clamp. rewrite load16 by done.
  pose proof (load_le_range key Hb). pose proof (load_le_range (drop 4 key) ltac:(auto with libbtc)).
  pose proof (load_le_range (drop 8 key) ltac:(auto with libbtc)).
  pose proof (load_le_range (drop 12 key) ltac:(auto with libbtc)).
  generalize dependent (U8TO32_LE key). generalize dependent (U8TO32_LE (drop 4 key)).
  generalize dependent (U8TO32_LE (drop 8 key)). generalize dependent (U8TO32_LE (drop 12 key)).
  intros t3 H3 t2 H2 t1 H1 t0 H0. cbv zeta. split.
  { unfold clamped. cbn [l0 l1 l2 l3 l4]. split_and!; apply land_upper; lia. }
  change 0x0ffffffc0ffffffc0ffffffc0fffffff with
    (0x3ffffff + 2 ^ 26 * (0x3ffff03 + 2 ^ 26 * (0x3ffc0ff + 2 ^ 26 * (0x3f03fff + 2 ^ 26 * 0x00fffff)))).
  set (K := t0 + 2 ^ 32 * t1 + 2 ^ 64 * t2 + 2 ^ 96 * t3).
  rewrite !Z.shiftr_div_pow2, !lor_shift by (lia || zdm).
  rewrite !land_limb by (repeat apply Z.div_pos; lia). rewrite !Z.div_div by lia. unfold val. cbn [l0 l1 l2 l3 l4].
  rewrite (land_low t0 K), (land_low (t0 / 2 ^ 26 + _) (K / 2 ^ 26)),
    (land_low (t1 / 2 ^ 20 + _) (K / (2 ^ 26 * 2 ^ 26))),
    (land_low (t2 / 2 ^ 14 + _) (K / (2 ^ 26 * 2 ^ 26 * 2 ^ 26))),
    (land_low (t3 / 2 ^ 8) (K / (2 ^ 26 * 2 ^ 26 * 2 ^ 26 * 2 ^ 26))) by (lia || (unfold K; zdm)).
  lia.
Qed.

(** ** The end of the function *)

Definition normal (h : limbs) : Prop :=
  0 <= l0 h < 2 ^ 26 /\ 0 <= l1 h < 2 ^ 26 /\ 0 <= l2 h < 2 ^ 26 /\ 0 <= l3 h < 2 ^ 26 /\ 0 <= l4 h < 2 ^ 26.

Lemma carry_spec (h : limbs) : reduced h ->
  normal (poly1305_carry h) /\ val (poly1305_carry h) mod p1305 = val h mod p1305.
Proof.
  destruct h as [h0 h1 h2 h3 h4]. unfold reduced, poly1305_carry. cbn [l0 l1 l2 l3 l4].
  intros (B0 & B1 & B2 & B3 & B4). rewrite !mask26, !Z.shiftr_div_pow2 by lia.
  assert (0 <= h0 / 2 ^ 26 <= 41) by zdm. rewrite (wrap_small 32 (h1 + _)) by lia.
  set (v1 := h1 + h0 / 2 ^ 26) in *. assert (0 <= v1 / 2 ^ 26 <= 1) by zdm. rewrite (wrap_small 32 (h2 + _)) by lia.
  set (v2 := h2 + v1 / 2 ^ 26) in *. assert (0 <= v2 / 2 ^ 26 <= 1) by zdm. rewrite (wrap_small 32 (h3 + _)) by lia.
  set (v3 := h3 + v2 / 2 ^ 26) in *. assert (0 <= v3 / 2 ^ 26 <= 1) by zdm. rewrite (wrap_small 32 (h4 + _)) by lia.
  set (v4 := h4 + v3 / 2 ^ 26) in *. assert (0 <= v4 / 2 ^ 26 <= 1) by zdm.
  rewrite (wrap_small 32 (v4 / 2 ^ 26 * 5)) by lia.
  pose proof (Z.mod_pos_bound h0 (2 ^ 26) ltac:(lia)). rewrite (wrap_small 32 (h0 mod _ + _)) by lia.
  set (v5 := h0 mod 2 ^ 26 + v4 / 2 ^ 26 * 5) in *. assert (0 <= v5 / 2 ^ 26 <= 1) by zdm.
  pose proof (Z.mod_pos_bound v1 (2 ^ 26) ltac:(lia)). rewrite (wrap_small 32 (v1 mod _ + _)) by lia.
  assert (forall t, 0 <= t mod 2 ^ 26 < 2 ^ 26) as M by (intros; apply Z.mod_pos_bound; lia).
  assert (forall t, 2 ^ 26 * (t / 2 ^ 26) + t mod 2 ^ 26 = t) as D by (intros; symmetry; apply Z_div_mod_eq_full).
  pose proof (D h0). pose proof (D v1). pose proof (D v2). pose proof (D v3). pose proof (D v4). pose proof (D v5).
  pose proof (M v2). pose proof (M v3). pose proof (M v4). pose proof (M v5).
  unfold normal, val. cbn [l0 l1 l2 l3 l4]. split; [lia|].
  match goal with |- ?a mod _ = ?b mod _ => replace b with (a + v4 / 2 ^ 26 * p1305) by (unfold p1305; lia) end.
  by rewrite Z_mod_plus_full.
Qed.

Lemma select (x y b : Z) : 0 <= x < 2 ^ 32 -> 0 <= y < 2 ^ 32 -> b = 0 \/ b = 2 ^ 32 - 1 ->
  Z.lor (Z.land x (u32 (Z.lnot b))) (Z.land y b) = if b =? 0 then x else y.
Proof.
  intros Hx Hy [-> | ->].
  - change (u32 (Z.lnot 0)) with (Z.ones 32). rewrite Z.land_0_r, Z.lor_0_r, Z.land_ones by lia.
    by apply Z.mod_small.
  - change (u32 (Z.lnot (2 ^ 32 - 1))) with 0. rewrite Z.land_0_r, Z.lor_0_l.
    change (2 ^ 32 - 1) with (Z.ones 32). rewrite Z.land_ones by lia. by apply Z.mod_small.
Qed.

Lemma reduce_spec (h : limbs) : normal h ->
  normal (poly1305_reduce h) /\ val (poly1305_reduce h) = val h mod p1305.
Proof.
  destruct h as [h0 h1 h2 h3 h4]. unfold normal, poly1305_reduce. cbn [l0 l1 l2 l3 l4].
  intros (B0 & B1 & B2 & B3 & B4). rewrite !mask26, !Z.shiftr_div_pow2 by lia. change (Z.shiftl 1 26) with (2 ^ 26).
  rewrite (wrap_small 32 (h0 + 5)) by lia. set (v0 := h0 + 5). assert (0 <= v0 / 2 ^ 26 <= 1) by zdm.
  rewrite (wrap_small 32 (h1 + _)) by lia. set (v1 := h1 + v0 / 2 ^ 26). assert (0 <= v1 / 2 ^ 26 <= 1) by zdm.
  rewrite (wrap_small 32 (h2 + _)) by lia. set (v2 := h2 + v1 / 2 ^ 26). assert (0 <= v2 / 2 ^ 26 <= 1) by zdm.
  rewrite (wrap_small 32 (h3 + _)) by lia. set (v3 := h3 + v2 / 2 ^ 26). assert (0 <= v3 / 2 ^ 26 <= 1) by zdm.
  rewrite (wrap_small 32 (h4 + _)) by lia. set (v4 := h4 + v3 / 2 ^ 26).
  assert (forall t, 0 <= t mod 2 ^ 26 < 2 ^ 26) as M by (intros; apply Z.mod_pos_bound; lia).
  assert (forall t, 2 ^ 26 * (t / 2 ^ 26) + t mod 2 ^ 26 = t) as D by (intros; symmetry; apply Z_div_mod_eq_full).
  pose proof (D v0). pose proof (D v1). pose proof (D v2). pose proof (D v3).
  pose proof (M v0). pose proof (M v1). pose proof (M v2). pose proof (M v3).
  assert (u32 (u32 (v4 - 2 ^ 26) / 2 ^ 31 - 1) = if v4 <? 2 ^ 26 then 0 else 2 ^ 32 - 1) as ->.
  { unfold wrap. destruct (Z.ltb_spec v4 (2 ^ 26)).
    - rewrite <- (Z_mod_plus_full (v4 - 2 ^ 26) 1), (Z.mod_small (v4 - 2 ^ 26 + _)) by lia. zdm.
    - rewrite (Z.mod_small (v4 - 2 ^ 26)) by lia. rewrite Z.div_small by lia. done. }
  pose proof (wrap_range 32 (v4 - 2 ^ 26) ltac:(lia)).
  rewrite !select by (lia || (destruct (v4 <? 2 ^ 26); auto)). unfold val.
  destruct (Z.ltb_spec v4 (2 ^ 26)); cbn [l0 l1 l2 l3 l4 Z.eqb]; (split; [|unfold p1305]).
  - lia.
  - rewrite Z.mod_small; lia.
  - change (2 ^ 32 - 1 =? 0) with false. cbv iota. rewrite wrap_small; lia.
  - change (2 ^ 32 - 1 =? 0) with false. cbv iota. rewrite wrap_small by lia.
    apply (Z.mod_unique_pos _ _ 1); lia.
Qed.

Lemma store_le_val (v : Z) : U32TO8_LE v = le_bytes 4 v.
Proof. unfold U32TO8_LE, wrap. apply store32_val. Qed.

(** Four words with their carries. *)
Lemma four_words (f0 f1 f2 f3 top : Z) :
  le_bytes 4 f0 ++ le_bytes 4 (f1 + f0 / 2 ^ 32) ++ le_bytes 4 (f2 + (f1 + f0 / 2 ^ 32) / 2 ^ 32) ++
    le_bytes 4 (f3 + (f2 + (f1 + f0 / 2 ^ 32) / 2 ^ 32) / 2 ^ 32) =
  le_bytes 16 (f0 + 2 ^ 32 * f1 + 2 ^ 64 * f2 + 2 ^ 96 * f3 + 2 ^ 128 * top).
Proof.
  assert (forall a b, le_bytes 4 (a + 2 ^ 32 * b) = le_bytes 4 a) as L.
  { intros. rewrite <- (le_bytes_mod 4 (a + _)), <- (le_bytes_mod 4 a). f_equal.
    change (256 ^ Z.of_nat 4) with (2 ^ 32). by rewrite Z.mul_comm, Z_mod_plus_full. }
  assert (forall a b, (a + 2 ^ 32 * b) / 2 ^ 32 = b + a / 2 ^ 32) as Q
    by (intros; rewrite Z.mul_comm, Z.div_add by lia; lia).
  replace (f0 + 2 ^ 32 * f1 + 2 ^ 64 * f2 + 2 ^ 96 * f3 + 2 ^ 128 * top)
    with (f0 + 2 ^ 32 * (f1 + 2 ^ 32 * (f2 + 2 ^ 32 * (f3 + 2 ^ 32 * top)))) by lia.
  rewrite (le_bytes_add 4 12), (le_bytes_add 4 8), (le_bytes_add 4 4). change (256 ^ Z.of_nat 4) with (2 ^ 32).
  rewrite L, Q.
  replace (f1 + 2 ^ 32 * (f2 + 2 ^ 32 * (f3 + 2 ^ 32 * top)) + f0 / 2 ^ 32)
    with (f1 + f0 / 2 ^ 32 + 2 ^ 32 * (f2 + 2 ^ 32 * (f3 + 2 ^ 32 * top))) by lia.
  rewrite L, Q. set (c1 := (f1 + f0 / 2 ^ 32) / 2 ^ 32).
  replace (f2 + 2 ^ 32 * (f3 + 2 ^ 32 * top) + c1) with (f2 + c1 + 2 ^ 32 * (f3 + 2 ^ 32 * top)) by lia.
  rewrite L, Q. set (c2 := (f2 + c1) / 2 ^ 32).
  replace (f3 + 2 ^ 32 * top + c2) with (f3 + c2 + 2 ^ 32 * top) by lia. by rewrite L.
Qed.

Lemma tag_spec (h : limbs) (key : list Z) : normal h -> is_bytes key -> length key = 32%nat ->
  poly1305_tag h key = le_bytes 16 (val h + le_val (take 16 (drop 16 key))).
Proof.
  intros Hh Hb Hl. rewrite load16 by (auto with libbtc; rewrite length_drop; lia). rewrite !drop_drop.
  cbn [Nat.add]. unfold poly1305_tag.
  pose proof (load_le_range (drop 16 key) ltac:(auto with libbtc)).
  pose proof (load_le_range (drop 20 key) ltac:(auto with libbtc)).
  pose proof (load_le_range (drop 24 key) ltac:(auto with libbtc)).
  pose proof (load_le_range (drop 28 key) ltac:(auto with libbtc)).
  generalize dependent (U8TO32_LE (drop 16 key)). generalize dependent (U8TO32_LE (drop 20 key)).
  generalize dependent (U8TO32_LE (drop 24 key)). generalize dependent (U8TO32_LE (drop 28 key)).
  intros t3 H3 t2 H2 t1 H1 t0 H0. destruct h as [h0 h1 h2 h3 h4]. unfold normal, val in *. cbn [l0 l1 l2 l3 l4] in *.
  destruct Hh as (B0 & B1 & B2 & B3 & B4).
  rewrite !Z.shiftr_div_pow2, !lor_shift by (lia || zdm). rewrite !store_le_val.
  set (w0 := h0 + 2 ^ 26 * (h1 mod 2 ^ (32 - 26))). set (w1 := h1 / 2 ^ 6 + 2 ^ 20 * (h2 mod 2 ^ (32 - 20))).
  set (w2 := h2 / 2 ^ 12 + 2 ^ 14 * (h3 mod 2 ^ (32 - 14))). set (w3 := h3 / 2 ^ 18 + 2 ^ 8 * (h4 mod 2 ^ (32 - 8))).
  assert (0 <= w0 < 2 ^ 32 /\ 0 <= w1 < 2 ^ 32 /\ 0 <= w2 < 2 ^ 32 /\ 0 <= w3 < 2 ^ 32) as (W0 & W1 & W2 & W3)
    by (unfold w0, w1, w2, w3; split_and!; zdm).
  assert (h0 + 2 ^ 26 * h1 + 2 ^ 52 * h2 + 2 ^ 78 * h3 + 2 ^ 104 * h4 =
          w0 + 2 ^ 32 * w1 + 2 ^ 64 * w2 + 2 ^ 96 * w3 + 2 ^ 128 * (h4 / 2 ^ 24)) as ->
    by (unfold w0, w1, w2, w3; zdm).
  clearbody w0 w1 w2 w3.
  rewrite (wrap_small 64 (w0 + t0)), (wrap_small 64 (w1 + t1)), (wrap_small 64 (w2 + t2)),
    (wrap_small 64 (w3 + t3)) by lia.
  assert (forall t, 0 <= t < 2 ^ 62 -> 0 <= t / 2 ^ 32 < 2 ^ 30) as D by (intros; zdm).
  pose proof (D (w0 + t0) ltac:(lia)). rewrite (wrap_small 64 (w1 + t1 + _)) by lia.
  pose proof (D (w1 + t1 + (w0 + t0) / 2 ^ 32) ltac:(lia)). rewrite (wrap_small 64 (w2 + t2 + _)) by lia.
  pose proof (D (w2 + t2 + (w1 + t1 + (w0 + t0) / 2 ^ 32) / 2 ^ 32) ltac:(lia)).
  rewrite (wrap_small 64 (w3 + t3 + _)) by lia.
  rewrite (four_words _ _ _ _ (h4 / 2 ^ 24)). f_equal. lia.
Qed.

Lemma finish_spec (h : limbs) (key : list Z) : reduced h -> is_bytes key -> length key = 32%nat ->
  poly1305_finish h key = le_bytes 16 (val h mod p1305 + le_val (take 16 (drop 16 key))).
Proof.
  intros Hh Hb Hl. unfold poly1305_finish. destruct (carry_spec h Hh) as [Nc Ec].
  destruct (reduce_spec _ Nc) as [Nr Er]. rewrite tag_spec by done. by rewrite Er, Ec.
Qed.

Lemma auth_spec (m key : list Z) : is_bytes m -> is_bytes key -> length key = 32%nat ->
  poly1305_auth m key = poly1305_spec m key.
Proof.
  intros Hm Hk Hl. unfold poly1305_auth, poly1305_spec. destruct (clamp_spec key Hk ltac:(lia)) as [Cr Er].
  destruct (blocks_spec (S (length m)) (Limbs 0 0 0 0 0) (poly1305_clamp key) m) as [R E];
    [unfold reduced; cbn; lia|done|done|lia|].
  rewrite finish_spec by done. by rewrite E, Er.
Qed.

(** ** Claims *)

(** C9: For every message and 32 byte key, [poly1305_auth] computes the
    authenticator of RFC 7539: the blocks of the message as the coefficients of
    a polynomial evaluated at the clamped first half of the key modulo
    [2^130 - 5], plus the second half of the key, in sixteen little-endian
    bytes.  No carry of the five limb arithmetic is lost at 32 or 64 bits. *)
Theorem poly1305_auth_correct (m key : list Z)
  (Hm : is_bytes m) (Hk : is_bytes key) (Hl : length key = 32%nat) :
  poly1305_auth m key = poly1305_spec m key /\ length (poly1305_auth m key) = 16%nat.
Proof. rewrite auth_spec by done. split; [done|]. apply le_bytes_length. Qed.

Lemma poly1305_auth_correct_witness :
  poly1305_auth (replicate 40 255) (replicate 32 255) = poly1305_spec (replicate 40 255) (replicate 32 255).
Proof.
  refine (proj1 (poly1305_auth_correct (replicate 40 255) (replicate 32 255) _ _ _)).
  - apply is_bytes_replicate. unfold is_byte. lia.
  - apply is_bytes_replicate. unfold is_byte. lia.
  - reflexivity.
Defined.
