(* ===== verification/Aead.v ===== *)
(** * chachapoly_aead.c: the packet cipher of BIP 151

    The operations thread the two ChaCha contexts.  [src] is the readable
    memory at the source pointer; a read past its end is [None].  The output is
    the list of the bytes written at [dest].  [memory_cleanse] acts on dead
    locals only.  Contexts are compared up to [same_keys]: every operation sets
    the nonce and the counter itself. *)

From S2P Require Import Prelude Chacha Poly1305.

(** ** The code *)

(** [ret |= *p1++ ^ *p2++] over [n] bytes. *)
Fixpoint bcmp_loop (n : nat) (ret : Z) (p1 p2 : list Z) : option Z :=
  match n with
  | O => Some ret
  | S n' =>
      match p1, p2 with
      | x :: p1', y :: p2' => bcmp_loop n' (Z.lor ret (Z.lxor x y)) p1' p2'
      | _, _ => None
      end
  end.

Definition timingsafe_bcmp (b1 b2 : list Z) (n : nat) : option Z :=
  ret ← bcmp_loop n 0 b1 b2; Some (if ret =? 0 then 0 else 1).

Record chachapolyaead_ctx := Ctx { main_ctx : list Z; header_ctx : list Z }.

Definition POLY1305_TAGLEN : Z := 16.
Definition POLY1305_KEYLEN : Z := 32.

Definition chacha20poly1305_init (ctx : chachapolyaead_ctx) (key : list Z) (keylen : Z) : Z * chachapolyaead_ctx :=
  if negb (keylen =? 32 + 32) then (-1, ctx) else
  (0, Ctx (chacha_keysetup (main_ctx ctx) key 256) (chacha_keysetup (header_ctx ctx) (drop 32 key) 256)).

(** [n] readable bytes at offset [i]. *)
Definition readable (src : list Z) (i n : Z) : option (list Z) :=
  if i + n <=? zlen src then Some (ztake n (zdrop i src)) else None.

(** The lengths are [uint32_t]: their sum as an argument wraps, as pointer
    offsets they do not. *)
Definition chacha20poly1305_crypt (ctx : chachapolyaead_ctx) (seqnr : Z) (src : list Z) (len aadlen : Z)
    (is_encrypt : bool) : option (Z * list Z * chachapolyaead_ctx) :=
  let one := [1; 0; 0; 0; 0; 0; 0; 0] in
  let chacha_iv := le_bytes 8 seqnr in
  let main := chacha_ivsetup (main_ctx ctx) chacha_iv None in
  let '(poly_key, main) := chacha_encrypt_bytes main (replicate (Z.to_nat POLY1305_KEYLEN) 0) in
  checked ← (if is_encrypt then Some true else
    tag ← readable src (aadlen + len) POLY1305_TAGLEN;
    signed ← readable src 0 (u32 (aadlen + len));
    differ ← timingsafe_bcmp (poly1305_auth signed poly_key) tag (Z.to_nat POLY1305_TAGLEN);
    Some (differ =? 0));
  if negb checked then Some (-1, [], Ctx main (header_ctx ctx)) else
  aad ← readable src 0 aadlen;
  let '(dest0, header) :=
    if negb (aadlen =? 0)
    then chacha_encrypt_bytes (chacha_ivsetup (header_ctx ctx) chacha_iv None) aad
    else ([], header_ctx ctx) in
  payload ← readable src aadlen len;
  let main := chacha_ivsetup main chacha_iv (Some one) in
  let '(dest1, main) := chacha_encrypt_bytes main payload in
  let dest := dest0 ++ dest1 in
  let dest := if is_encrypt
              then dest ++ poly1305_auth (ztake (u32 (aadlen + len)) dest) poly_key
              else dest in
  Some (0, dest, Ctx main header).

(** The return code, [*len_out] when it is written, and the context. *)
Definition chacha20poly1305_get_length (ctx : chachapolyaead_ctx) (seqnr : Z) (ciphertext : list Z) (len : Z) :
    option (Z * option Z * chachapolyaead_ctx) :=
  if len <? 4 then Some (-1, None, ctx) else
  let header := chacha_ivsetup (header_ctx ctx) (le_bytes 8 seqnr) None in
  c ← readable ciphertext 0 4;
  let '(buf, header) := chacha_encrypt_bytes header c in
  Some (0, Some (le_val buf), Ctx (main_ctx ctx) header).

(** ** Reference *)

(** [m] xored with the keystream of a keyed context for packet [seqnr], from
    block [ctr] on. *)
Definition xor_stream (x : list Z) (seqnr ctr : Z) (m : list Z) : list Z :=
  zip_with Z.lxor m (keystream (chacha_ivsetup x (le_bytes 8 seqnr) None) ctr (nblocks (length m))).

(** The authenticator key of a packet: the start of block 0. *)
Definition packet_key (ctx : chachapolyaead_ctx) (seqnr : Z) : list Z :=
  xor_stream (main_ctx ctx) seqnr 0 (replicate 32 0).

Definition packet_body (ctx : chachapolyaead_ctx) (seqnr aadlen : Z) (m : list Z) : list Z :=
  xor_stream (header_ctx ctx) seqnr 0 (ztake aadlen m) ++ xor_stream (main_ctx ctx) seqnr 1 (zdrop aadlen m).

Definition packet_tag (ctx : chachapolyaead_ctx) (seqnr : Z) (c : list Z) : list Z :=
  poly1305_spec c (packet_key ctx seqnr).

(** ** Contexts *)

(** The key half of a context: twelve words; the rest is set per packet. *)
Definition keyed (x : list Z) : Prop := (12 <= length x)%nat /\ Forall (fun w => 0 <= w < 2 ^ 32) x.

Definition aead_ok (ctx : chachapolyaead_ctx) : Prop := keyed (main_ctx ctx) /\ keyed (header_ctx ctx).

(** Contexts with the same keys; the counters and nonces may differ. *)
Definition same_keys (c c' : chachapolyaead_ctx) : Prop :=
  take 12 (main_ctx c) = take 12 (main_ctx c') /\ take 12 (header_ctx c) = take 12 (header_ctx c').

#[export] Instance same_keys_equiv : Equivalence same_keys.
Proof.
  unfold same_keys. split; [by split|by intros ?? []|]. intros a b c [] []. split; congruence.
Qed.

#[export] Instance packet_body_proper : Proper (same_keys ==> eq ==> eq ==> eq ==> eq) packet_body.
Proof.
  intros c c' [E1 E2] ? s -> ? a -> ? m ->. unfold packet_body, xor_stream, chacha_ivsetup. by rewrite E1, E2.
Qed.

#[export] Instance packet_tag_proper : Proper (same_keys ==> eq ==> eq ==> eq) packet_tag.
Proof.
  intros c c' [E1 E2] ? s -> ? m ->. unfold packet_tag, packet_key, xor_stream, chacha_ivsetup. by rewrite E1.
Qed.

Lemma at_counter_take (x : list Z) (c : Z) : take 12 (at_counter x c) = take 12 x.
Proof. unfold at_counter. by rewrite !take_insert_ge by lia. Qed.

Lemma ivsetup_take (x iv : list Z) (c : option (list Z)) :
  (12 <= length x)%nat -> take 12 (chacha_ivsetup x iv c) = take 12 x.
Proof. intros Hl. unfold chacha_ivsetup. apply take_app_length'. rewrite length_take. lia. Qed.

Lemma keyed_ivsetup (x iv : list Z) (c : option (list Z)) :
  keyed x -> is_bytes iv -> is_bytes (counter_bytes c) -> ctx_ok (chacha_ivsetup x iv c).
Proof. intros [Hl Hx] Hi Hc. by apply ivsetup_ok. Qed.

(** The counter words of the base context do not matter to the keystream. *)
Lemma at_counter_ivsetup (x iv : list Z) (c : option (list Z)) (ctr : Z) :
  (12 <= length x)%nat -> at_counter (chacha_ivsetup x iv c) ctr = at_counter (chacha_ivsetup x iv None) ctr.
Proof.
  intros Hl. assert (length (take 12 x) = 12%nat) as Ht by (rewrite length_take; lia).
  unfold at_counter, chacha_ivsetup.
  by destruct c; rewrite !(insert_app_r_alt (take 12 x)), Ht by (rewrite ?length_insert; lia).
Qed.

Lemma keystream_ivsetup (x iv : list Z) (c : option (list Z)) (ctr : Z) (k : nat) :
  (12 <= length x)%nat -> keystream (chacha_ivsetup x iv c) ctr k = keystream (chacha_ivsetup x iv None) ctr k.
Proof.
  intros Hl. revert ctr. induction k as [|k IH]; intros ctr; [done|]. cbn [keystream]. rewrite IH. f_equal.
  unfold key_block. by rewrite at_counter_ivsetup.
Qed.

Lemma counter_ivsetup (x iv : list Z) (c : option (list Z)) :
  (12 <= length x)%nat -> is_bytes (counter_bytes c) -> length (counter_bytes c) = 8%nat ->
  counter_of (chacha_ivsetup x iv c) = le_val (counter_bytes c).
Proof.
  intros Hl Hb H8. assert (length (take 12 x) = 12%nat) as Ht by (rewrite length_take; lia).
  unfold counter_of, get, chacha_ivsetup. rewrite !(app_nth2 (take 12 x)), Ht by lia. cbn [Nat.sub].
  destruct c as [c|]; [|done]. cbn [nth app counter_bytes default from_option] in *.
  rewrite !Chacha.U8TO32_val by auto with libbtc. transitivity (le_val (take 4 c ++ drop 4 c)); [|by rewrite take_drop].
  rewrite le_val_app.
  rewrite (take_ge (drop 4 c)) by (rewrite length_drop; cbn in H8; lia).
  unfold zlen. rewrite length_take, Nat.min_l by (cbn in H8; lia). done.
Qed.

(** One run of the stream cipher for a packet. *)
Lemma run_spec (x m : list Z) (seqnr : Z) (c : option (list Z)) :
  keyed x -> is_bytes m -> is_bytes (counter_bytes c) -> length (counter_bytes c) = 8%nat ->
  exists x', chacha_encrypt_bytes (chacha_ivsetup x (le_bytes 8 seqnr) c) m =
               (xor_stream x seqnr (le_val (counter_bytes c)) m, x') /\
             take 12 x' = take 12 x /\ keyed x'.
Proof.
  intros Hx Hm Hc H8. pose proof (keyed_ivsetup x (le_bytes 8 seqnr) c Hx ltac:(apply le_bytes_is_bytes) Hc) as Hok.
  rewrite (encrypt_bytes_spec _ m Hok Hm). destruct Hx as [Hl Hx]. eexists. split_and!; [|by rewrite at_counter_take, ivsetup_take|].
  - f_equal. unfold xor_stream. rewrite counter_ivsetup by done. by rewrite keystream_ivsetup.
  - destruct Hok as [H16 Hr]. split; [rewrite at_counter_length; lia|]. unfold at_counter.
    apply Forall_insert; [apply Forall_insert; [done|]|]; apply wrap_range; lia.
Qed.

Lemma xor_stream_length (x m : list Z) (s c : Z) : (12 <= length x)%nat -> length (xor_stream x s c m) = length m.
Proof.
  intros Hl. unfold xor_stream. rewrite length_zip_with, keystream_length.
  - pose proof (nblocks_cover (length m)). lia.
  - unfold chacha_ivsetup. rewrite !length_app, length_take. cbn [length]. lia.
Qed.

Lemma xor_stream_bytes (x m : list Z) (s c : Z) : is_bytes m -> is_bytes (xor_stream x s c m).
Proof. intros Hm. apply zip_lxor_bytes; [done|apply keystream_bytes]. Qed.

Lemma xor_stream_involutive (x m : list Z) (s c : Z) :
  (12 <= length x)%nat -> xor_stream x s c (xor_stream x s c m) = m.
Proof.
  intros Hl. unfold xor_stream at 1. rewrite xor_stream_length by done. unfold xor_stream.
  apply xor_involutive. rewrite keystream_length; [apply nblocks_cover|].
  unfold chacha_ivsetup. rewrite !length_app, length_take. cbn [length]. lia.
Qed.

Lemma xor_stream_nil (x : list Z) (s c : Z) : xor_stream x s c [] = [].
Proof. done. Qed.

Lemma keystream_app (x : list Z) (c : Z) (a b : nat) :
  keystream x c (a + b) = keystream x c a ++ keystream x (c + Z.of_nat a) b.
Proof.
  revert c. induction a as [|a IH]; intros c; cbn [keystream Nat.add app]; [by rewrite Z.add_0_r|].
  rewrite IH, <- app_assoc. do 3 f_equal. lia.
Qed.

(** A prefix of the message needs a prefix of the keystream. *)
Lemma xor_stream_take (x m : list Z) (s c : Z) (k : nat) :
  (12 <= length x)%nat -> take k (xor_stream x s c m) = xor_stream x s c (take k m).
Proof.
  intros Hl. unfold xor_stream. set (y := chacha_ivsetup _ _ _).
  assert (length y = 16%nat) as Hy
    by (unfold y, chacha_ivsetup; rewrite !length_app, length_take; cbn [length]; lia).
  assert (nblocks (length (take k m)) <= nblocks (length m))%nat as Hle
    by (apply Nat.Div0.div_le_mono; rewrite length_take; lia).
  replace (nblocks (length m)) with
    (nblocks (length (take k m)) + (nblocks (length m) - nblocks (length (take k m))))%nat by lia.
  pose proof (nblocks_cover (length (take k m))) as Hc. rewrite keystream_app, zip_with_take.
  set (a := keystream y c (nblocks (length (take k m)))). set (b := keystream _ _ (_ - _)).
  assert (length (take k m) <= length a)%nat as Ha by (unfold a; rewrite keystream_length by done; done).
  rewrite <- (zip_with_take_r _ _ (take k (a ++ b))), <- (zip_with_take_r _ _ a). f_equal.
  rewrite take_take, Nat.min_l by (rewrite length_take; lia). by rewrite take_app_le.
Qed.

(** ** Comparison *)

Lemma bcmp_loop_spec (n : nat) (ret : Z) (a b : list Z) :
  is_bytes a -> is_bytes b -> 0 <= ret -> length a = n -> length b = n ->
  exists r, bcmp_loop n ret a b = Some r /\ 0 <= r /\ (r = 0 <-> ret = 0 /\ a = b).
Proof.
  revert ret a b. induction n as [|n IH]; intros ret a b Ha Hb Hr La Lb.
  - apply nil_length_inv in La as ->. apply nil_length_inv in Lb as ->. exists ret. cbn. tauto.
  - destruct a as [|x a], b as [|y b]; try done. cbn [bcmp_loop].
    apply list.Forall_cons in Ha as [Hx Ha]. apply list.Forall_cons in Hb as [Hy Hb].
    assert (0 <= Z.lxor x y) by (apply (lxor_range 8); unfold is_byte in *; lia).
    destruct (IH (Z.lor ret (Z.lxor x y)) a b) as (r & E & Hr0 & Hi);
      [done|done|by apply Z.lor_nonneg|by injection La|by injection Lb|].
    exists r. split_and!; [done|done|]. rewrite Hi, Z.lor_eq_0_iff, Z.lxor_eq_0_iff.
    split; [by intros [[-> ->] ->]|]. intros [-> E']. by simplify_eq.
Qed.

Lemma bcmp_spec (a b : list Z) (n : nat) :
  is_bytes a -> is_bytes b -> length a = n -> length b = n ->
  timingsafe_bcmp a b n = Some (if bool_decide (a = b) then 0 else 1).
Proof.
  intros Ha Hb La Lb. destruct (bcmp_loop_spec n 0 a b Ha Hb ltac:(lia) La Lb) as (r & E & _ & Hi).
  unfold timingsafe_bcmp. rewrite E. cbn. destruct (Z.eqb_spec r 0) as [H0|H0].
  - rewrite bool_decide_true; [done|]. tauto.
  - rewrite bool_decide_false; [done|]. intros ->. tauto.
Qed.

(** ** The packet operations *)

Lemma readable_app (a b c : list Z) (i n : Z) :
  i = zlen a -> n = zlen b -> readable (a ++ b ++ c) i n = Some b.
Proof.
  intros -> ->. unfold readable. autorewrite with zlist. pose proof (zlen_nonneg c). zif.
  by rewrite zdrop_app_len, ztake_app_len.
Qed.

Lemma readable_head (b c : list Z) (n : Z) : n = zlen b -> readable (b ++ c) 0 n = Some b.
Proof. intros ->. by apply (readable_app [] b c). Qed.

Lemma packet_key_spec (ctx : chachapolyaead_ctx) (seqnr : Z) :
  aead_ok ctx -> is_bytes (packet_key ctx seqnr) /\ length (packet_key ctx seqnr) = 32%nat.
Proof.
  intros [[Hm _] _]. split; [|by apply (xor_stream_length _ (replicate 32 0))].
  apply xor_stream_bytes, is_bytes_replicate. unfold is_byte. lia.
Qed.

(** The authenticator key and the main context after it. *)
Lemma key_run (ctx : chachapolyaead_ctx) (seqnr : Z) : aead_ok ctx ->
  exists x, chacha_encrypt_bytes (chacha_ivsetup (main_ctx ctx) (le_bytes 8 seqnr) None) (replicate 32 0) =
              (packet_key ctx seqnr, x) /\ take 12 x = take 12 (main_ctx ctx) /\ keyed x.
Proof.
  intros [Hm _]. apply run_spec; [done|..]; try apply is_bytes_replicate; try done; unfold is_byte; lia.
Qed.

(** The header and the payload. *)
Lemma body_run (ctx : chachapolyaead_ctx) (x m : list Z) (seqnr len aadlen : Z) :
  aead_ok ctx -> take 12 x = take 12 (main_ctx ctx) -> keyed x -> is_bytes m ->
  0 <= aadlen -> zlen m = aadlen + len -> 0 <= len ->
  exists d0 d1 h x',
    (if negb (aadlen =? 0)
     then chacha_encrypt_bytes (chacha_ivsetup (header_ctx ctx) (le_bytes 8 seqnr) None) (ztake aadlen m)
     else ([], header_ctx ctx)) = (d0, h) /\
    chacha_encrypt_bytes (chacha_ivsetup x (le_bytes 8 seqnr) (Some [1; 0; 0; 0; 0; 0; 0; 0])) (zdrop aadlen m) =
      (d1, x') /\
    d0 ++ d1 = packet_body ctx seqnr aadlen m /\ same_keys (Ctx x' h) ctx /\ aead_ok (Ctx x' h).
Proof.
  intros [Hm Hh] Ex Hx Hb Ha Hl Hn.
  destruct (run_spec x (zdrop aadlen m) seqnr (Some [1; 0; 0; 0; 0; 0; 0; 0])) as (x' & E1 & T1 & K1);
    [done|unfold zdrop; auto with libbtc|repeat constructor; lia|done|].
  assert (xor_stream x seqnr 1 (zdrop aadlen m) = xor_stream (main_ctx ctx) seqnr 1 (zdrop aadlen m)) as Es
    by (unfold xor_stream, chacha_ivsetup; by rewrite Ex).
  change (le_val _) with 1 in E1. rewrite Es in E1. unfold packet_body, same_keys, aead_ok. cbn [main_ctx header_ctx].
  destruct (Z.eqb_spec aadlen 0) as [->|Hne]; cbn [negb].
  - exists [], (xor_stream (main_ctx ctx) seqnr 1 (zdrop 0 m)), (header_ctx ctx), x'. split_and!; try done. congruence.
  - destruct (run_spec (header_ctx ctx) (ztake aadlen m) seqnr None) as (h & E0 & T0 & K0);
      [done|unfold ztake; auto with libbtc| |done|].
    { apply is_bytes_replicate. unfold is_byte. lia. }
    rewrite E0. do 4 eexists. split_and!; try done. congruence.
Qed.

Lemma packet_body_length (ctx : chachapolyaead_ctx) (seqnr aadlen : Z) (m : list Z) :
  aead_ok ctx -> zlen (packet_body ctx seqnr aadlen m) = zlen m.
Proof.
  intros [[Hm _] [Hh _]]. unfold packet_body, zlen. rewrite length_app, !xor_stream_length by done.
  unfold ztake, zdrop. by rewrite <- length_app, take_drop.
Qed.

Lemma packet_body_bytes (ctx : chachapolyaead_ctx) (seqnr aadlen : Z) (m : list Z) :
  is_bytes m -> is_bytes (packet_body ctx seqnr aadlen m).
Proof.
  intros Hm. apply is_bytes_app. split; apply xor_stream_bytes; unfold ztake, zdrop; auto with libbtc.
Qed.

Lemma packet_body_involutive (ctx : chachapolyaead_ctx) (seqnr aadlen : Z) (m : list Z) :
  aead_ok ctx -> 0 <= aadlen <= zlen m ->
  packet_body ctx seqnr aadlen (packet_body ctx seqnr aadlen m) = m.
Proof.
  intros [[Hm _] [Hh _]] Ha. unfold packet_body at 1. unfold packet_body.
  assert (aadlen = zlen (xor_stream (header_ctx ctx) seqnr 0 (ztake aadlen m))) as El
    by (unfold zlen in *; rewrite xor_stream_length by done; unfold ztake; rewrite length_take; lia).
  rewrite ztake_app_len, zdrop_app_len by done. rewrite !xor_stream_involutive by done. apply ztake_zdrop.
Qed.

Lemma encrypt_spec (ctx : chachapolyaead_ctx) (seqnr len aadlen : Z) (m rest : list Z) :
  aead_ok ctx -> is_bytes m -> 0 <= aadlen -> 0 <= len -> zlen m = aadlen + len -> aadlen + len < 2 ^ 32 ->
  exists ctx',
    chacha20poly1305_crypt ctx seqnr (m ++ rest) len aadlen true =
      Some (0, packet_body ctx seqnr aadlen m ++ packet_tag ctx seqnr (packet_body ctx seqnr aadlen m), ctx') /\
    same_keys ctx' ctx /\ aead_ok ctx'.
Proof.
  intros Hok Hb Ha Hn Hl Hw. unfold chacha20poly1305_crypt. cbv zeta.
  change (Z.to_nat POLY1305_KEYLEN) with 32%nat.
  destruct (key_run ctx seqnr Hok) as (x & -> & Tx & Kx). cbn [mbind option_bind negb].
  destruct (body_run ctx x m seqnr len aadlen) as (d0 & d1 & h & x' & E0 & E1 & Ed & Hs & Hk); try done.
  assert (m ++ rest = ztake aadlen m ++ zdrop aadlen m ++ rest) as -> by by rewrite app_assoc, ztake_zdrop.
  assert (aadlen = zlen (ztake aadlen m)) as Et by (unfold ztake, zlen in *; rewrite length_take; lia).
  assert (len = zlen (zdrop aadlen m)) as Ep by (unfold zdrop, zlen in *; rewrite length_drop; lia).
  rewrite readable_head by done. cbn [mbind option_bind]. rewrite E0, readable_app by done.
  cbn [mbind option_bind]. rewrite E1, Ed. exists (Ctx x' h). split_and!; [|done|done]. do 3 f_equal. f_equal.
  rewrite wrap_small, ztake_all by (rewrite ?packet_body_length by done; lia).
  destruct (packet_key_spec ctx seqnr Hok). apply auth_spec; [by apply packet_body_bytes|done|done].
Qed.

Lemma decrypt_spec (ctx : chachapolyaead_ctx) (seqnr len aadlen : Z) (c tag rest : list Z) :
  aead_ok ctx -> is_bytes c -> is_bytes tag -> zlen tag = 16 ->
  0 <= aadlen -> 0 <= len -> zlen c = aadlen + len -> aadlen + len < 2 ^ 32 ->
  exists ctx',
    chacha20poly1305_crypt ctx seqnr (c ++ tag ++ rest) len aadlen false =
      (if bool_decide (packet_tag ctx seqnr c = tag)
       then Some (0, packet_body ctx seqnr aadlen c, ctx') else Some (-1, [], ctx')) /\
    same_keys ctx' ctx /\ aead_ok ctx'.
Proof.
  intros Hok Hb Ht Hlt Ha Hn Hl Hw. unfold chacha20poly1305_crypt. cbv zeta.
  change (Z.to_nat POLY1305_KEYLEN) with 32%nat. destruct (key_run ctx seqnr Hok) as (x & -> & Tx & Kx).
  rewrite (readable_app c tag rest (aadlen + len) POLY1305_TAGLEN) by (unfold POLY1305_TAGLEN; lia). rewrite wrap_small by lia. rewrite (readable_head c (tag ++ rest) (aadlen + len)) by done. cbn [mbind option_bind].
  destruct (packet_key_spec ctx seqnr Hok). rewrite auth_spec by done. fold (packet_tag ctx seqnr c).
  rewrite bcmp_spec; [|apply le_bytes_is_bytes|done|apply le_bytes_length|unfold zlen, POLY1305_TAGLEN in *; lia].
  cbn [mbind option_bind]. case_bool_decide as E; cbn [Z.eqb negb].
  - destruct (body_run ctx x c seqnr len aadlen) as (d0 & d1 & h & x' & E0 & E1 & Ed & Hs & Hk); try done.
    assert (c ++ tag ++ rest = ztake aadlen c ++ zdrop aadlen c ++ tag ++ rest) as ->
      by by rewrite (app_assoc (ztake _ _)), ztake_zdrop.
    assert (aadlen = zlen (ztake aadlen c)) as Et by (unfold ztake, zlen in *; rewrite length_take; lia).
    assert (len = zlen (zdrop aadlen c)) as Ep by (unfold zdrop, zlen in *; rewrite length_drop; lia).
    rewrite readable_head by done. cbn [mbind option_bind]. rewrite E0, readable_app by done.
    cbn [mbind option_bind]. rewrite E1, Ed. by exists (Ctx x' h).
  - exists (Ctx x (header_ctx ctx)). destruct Hok as [? ?]. done.
Qed.

Lemma init_spec (x : chachapolyaead_ctx) (key : list Z) :
  is_bytes key -> length key = 64%nat ->
  Forall (fun w => 0 <= w < 2 ^ 32) (main_ctx x) -> Forall (fun w => 0 <= w < 2 ^ 32) (header_ctx x) ->
  exists ctx, chacha20poly1305_init x key 64 = (0, ctx) /\ aead_ok ctx /\
    flat_map (le_bytes 4) (take 12 (main_ctx ctx)) = sigma ++ take 32 key /\
    flat_map (le_bytes 4) (take 12 (header_ctx ctx)) = sigma ++ drop 32 key.
Proof.
  intros Hk Hl Hm Hh. eexists. split; [done|]. cbn [main_ctx header_ctx].
  rewrite !keysetup_bytes by (auto with libbtc; rewrite ?length_drop; cbn; lia).
  cbn [Z.eqb]. rewrite (take_ge (drop 32 key)) by (rewrite length_drop; lia).
  split_and!; [|done|done].
  split; apply keysetup_ok; auto with libbtc; rewrite ?length_drop; cbn; lia.
Qed.

(** The keys of a context depend on the key bytes only. *)
Lemma init_same_keys (x y : chachapolyaead_ctx) (key : list Z) :
  same_keys (snd (chacha20poly1305_init x key 64)) (snd (chacha20poly1305_init y key 64)).
Proof. split; reflexivity. Qed.

Lemma get_length_spec (ctx : chachapolyaead_ctx) (seqnr n aadlen : Z) (m rest : list Z) :
  aead_ok ctx -> is_bytes m -> 4 <= n -> 4 <= aadlen <= zlen m ->
  exists ctx', chacha20poly1305_get_length ctx seqnr (packet_body ctx seqnr aadlen m ++ rest) n =
    Some (0, Some (le_val (take 4 m)), ctx') /\ same_keys ctx' ctx /\ aead_ok ctx'.
Proof.
  intros [Hm Hh] Hb Hn Ha. unfold chacha20poly1305_get_length. zif.
  set (s := xor_stream (header_ctx ctx) seqnr 0 (ztake aadlen m)).
  assert (take 4 s = xor_stream (header_ctx ctx) seqnr 0 (take 4 m)) as Et.
  { unfold s. rewrite xor_stream_take by apply Hh. unfold ztake. rewrite take_take, Nat.min_l by lia. done. }
  assert (length (take 4 m) = 4%nat) as L4 by (rewrite length_take; unfold zlen in *; lia).
  assert (packet_body ctx seqnr aadlen m = take 4 s ++ drop 4 s ++ xor_stream (main_ctx ctx) seqnr 1 (zdrop aadlen m))
    as -> by by rewrite app_assoc, take_drop.
  rewrite <- !app_assoc, Et.
  rewrite readable_head by (unfold zlen; rewrite xor_stream_length by apply Hh; lia). cbn [mbind option_bind].
  destruct (run_spec (header_ctx ctx) (xor_stream (header_ctx ctx) seqnr 0 (take 4 m)) seqnr None) as (h & E & T & K);
    [done|apply xor_stream_bytes; auto with libbtc|apply is_bytes_replicate; unfold is_byte; lia|done|].
  change (le_val (counter_bytes None)) with 0 in E. rewrite xor_stream_involutive in E by apply Hh.
  rewrite E. by exists (Ctx (main_ctx ctx) h).
Qed.

(** ** Claims *)

(** C8: Two ends that ran [chacha20poly1305_init] on the same 64 byte key, and
    then any number of packet operations (which keep the keys), understand each
    other: a packet of [aadlen + len] bytes encrypted by one at a sequence
    number grows by the 16 byte tag, is accepted by the other at that number and
    decrypts to the same bytes, and [get_length] reads the first four bytes of
    its header.  A key length other than 64 is refused. *)
Theorem aead_roundtrip (x y ctx ctx2 : chachapolyaead_ctx) (key m rest rest2 : list Z) (seqnr len aadlen n : Z)
  (Hs : same_keys ctx (snd (chacha20poly1305_init x key 64))) (Hok : aead_ok ctx)
  (Hs2 : same_keys ctx2 (snd (chacha20poly1305_init y key 64))) (Hok2 : aead_ok ctx2)
  (Hm : is_bytes m) (Ha : 4 <= aadlen) (Hn : 0 <= len) (Hl : zlen m = aadlen + len) (Hw : aadlen + len < 2 ^ 32)
  (H4 : 4 <= n) :
  exists c ctx' ctx2' ctx2'',
    chacha20poly1305_crypt ctx seqnr (m ++ rest) len aadlen true = Some (0, c, ctx') /\
    zlen c = zlen m + 16 /\
    chacha20poly1305_get_length ctx2 seqnr (c ++ rest2) n = Some (0, Some (le_val (take 4 m)), ctx2') /\
    chacha20poly1305_crypt ctx2' seqnr (c ++ rest2) len aadlen false = Some (0, m, ctx2'') /\
    same_keys ctx' ctx /\ same_keys ctx2'' ctx2 /\ aead_ok ctx' /\ aead_ok ctx2'' /\
    (forall keylen, keylen <> 64 -> chacha20poly1305_init x key keylen = (-1, x)).
Proof.
  assert (same_keys ctx ctx2) as E12 by (rewrite Hs, Hs2; apply init_same_keys). clear Hs Hs2.
  destruct (encrypt_spec ctx seqnr len aadlen m rest) as (ctx' & E1 & S1 & K1); try done; try lia.
  set (body := packet_body ctx seqnr aadlen m) in *. set (tag := packet_tag ctx seqnr body) in *.
  destruct (get_length_spec ctx2 seqnr n aadlen m (tag ++ rest2)) as (ctx2' & E2 & S2 & K2); try done; try lia.
  assert (zlen body = zlen m) as Lb by by apply packet_body_length.
  assert (zlen tag = 16) as Lt by (unfold tag, packet_tag, poly1305_spec; autorewrite with zlist; done).
  destruct (decrypt_spec ctx2' seqnr len aadlen body tag rest2) as (ctx2'' & E3 & S3 & K3); try done; try lia;
    [by apply packet_body_bytes|apply le_bytes_is_bytes|].
  assert (same_keys ctx2' ctx) as S2' by (by rewrite S2, E12).
  rewrite bool_decide_true in E3 by by (unfold tag; rewrite S2').
  assert (packet_body ctx2' seqnr aadlen body = m) as Em
    by (rewrite S2'; apply packet_body_involutive; [done|lia]).
  rewrite Em in E3. exists (body ++ tag), ctx', ctx2', ctx2''. rewrite <- !app_assoc.
  split_and!; try done; [autorewrite with zlist; lia| |by rewrite S3, S2|].
  - unfold body. by rewrite E12.
  - intros k Hk. unfold chacha20poly1305_init. by rewrite (proj2 (Z.eqb_neq k (32 + 32)) Hk).
Qed.

(** A keyed context for the witnesses. *)
Definition witness_key : list Z := replicate 64 3.
Definition witness_ctx : chachapolyaead_ctx := snd (chacha20poly1305_init (Ctx [] []) witness_key 64).

Lemma witness_ctx_ok : aead_ok witness_ctx.
Proof.
  destruct (init_spec (Ctx [] []) witness_key) as (c & E & H & _);
    [apply is_bytes_replicate; unfold is_byte; lia|done|constructor|constructor|].
  unfold witness_ctx. by rewrite E.
Qed.

Lemma aead_roundtrip_witness :
  exists c ctx' ctx2' ctx2'',
    chacha20poly1305_crypt witness_ctx 7 ([9; 0; 0; 0; 65; 66; 67] ++ []) 3 4 true = Some (0, c, ctx') /\
    zlen c = zlen [9; 0; 0; 0; 65; 66; 67] + 16 /\
    chacha20poly1305_get_length witness_ctx 7 (c ++ [1]) 23 =
      Some (0, Some (le_val (take 4 [9; 0; 0; 0; 65; 66; 67])), ctx2') /\
    chacha20poly1305_crypt ctx2' 7 (c ++ [1]) 3 4 false = Some (0, [9; 0; 0; 0; 65; 66; 67], ctx2'') /\
    same_keys ctx' witness_ctx /\ same_keys ctx2'' witness_ctx /\ aead_ok ctx' /\ aead_ok ctx2'' /\
    (forall keylen, keylen <> 64 ->
      chacha20poly1305_init (Ctx [] []) witness_key keylen = (-1, Ctx [] [])).
Proof.
  apply (aead_roundtrip (Ctx [] []) (Ctx [] []) witness_ctx witness_ctx witness_key [9; 0; 0; 0; 65; 66; 67] [] [1]
           7 3 4 23).
  - reflexivity.
  - apply witness_ctx_ok.
  - reflexivity.
  - apply witness_ctx_ok.
  - repeat constructor; lia.
  - lia.
  - lia.
  - reflexivity.
  - lia.
  - lia.
Defined.

(** C7: Decryption of [aadlen + len] bytes [c] followed by a 16 byte tag is
    decided by the tag alone: it is accepted exactly when the tag is the
    Poly1305 authenticator of [c] under the first 32 bytes of the packet's
    keystream, the result then being [c] xored with the header keystream from
    block 0 and the payload keystream from block 1; otherwise the call returns
    -1, writes nothing, and the keys still serve for later packets. *)
Theorem aead_authentic (ctx : chachapolyaead_ctx) (seqnr len aadlen : Z) (c tag rest : list Z)
  (Hok : aead_ok ctx) (Hc : is_bytes c) (Ht : is_bytes tag) (Hlt : zlen tag = 16)
  (Ha : 0 <= aadlen) (Hn : 0 <= len) (Hl : zlen c = aadlen + len) (Hw : aadlen + len < 2 ^ 32) :
  exists r dest ctx',
    chacha20poly1305_crypt ctx seqnr (c ++ tag ++ rest) len aadlen false = Some (r, dest, ctx') /\
    same_keys ctx' ctx /\ aead_ok ctx' /\
    (r = 0 /\ dest = packet_body ctx seqnr aadlen c /\ tag = poly1305_spec c (packet_key ctx seqnr) \/
     r = -1 /\ dest = [] /\ tag <> poly1305_spec c (packet_key ctx seqnr)).
Proof.
  destruct (decrypt_spec ctx seqnr len aadlen c tag rest) as (ctx' & E & S & K); try done.
  rewrite E. case_bool_decide as D; do 3 eexists; (split; [reflexivity|]); (split; [done|]); (split; [done|]).
  - by left.
  - right. split_and!; [done|done|]. intros ->. by apply D.
Qed.

Lemma aead_authentic_witness :
  exists r dest ctx',
    chacha20poly1305_crypt witness_ctx 7 ([1; 2; 3; 4; 5] ++ replicate 16 0 ++ []) 1 4 false = Some (r, dest, ctx') /\
    same_keys ctx' witness_ctx /\ aead_ok ctx' /\
    (r = 0 /\ dest = packet_body witness_ctx 7 4 [1; 2; 3; 4; 5] /\
       replicate 16 0 = poly1305_spec [1; 2; 3; 4; 5] (packet_key witness_ctx 7) \/
     r = -1 /\ dest = [] /\ replicate 16 0 <> poly1305_spec [1; 2; 3; 4; 5] (packet_key witness_ctx 7)).
Proof.
  apply (aead_authentic witness_ctx 7 1 4 [1; 2; 3; 4; 5] (replicate 16 0) []).
  - apply witness_ctx_ok.
  - repeat constructor; lia.
  - apply is_bytes_replicate. unfold is_byte. lia.
  - reflexivity.
  - lia.
  - lia.
  - reflexivity.
  - lia.
Defined.
