(* ===== verification/Aes.v ===== *)
(** * ctaes.c: AES on bit slices

    The state of sixteen bytes is kept in eight words of sixteen bits: bit
    [4 r + c] of slice [b] is bit [b] of the byte in row [r] and column [c].  The
    S-box is a circuit of gates; it is written over an interface to the gates, so
    that the same circuit runs on words and on single bits. *)

From S2P Require Import Prelude.

(** ** Slices and gates *)

Record slices (W : Type) := mk_slices {
  slice0 : W; slice1 : W; slice2 : W; slice3 : W; slice4 : W; slice5 : W; slice6 : W; slice7 : W }.
Arguments mk_slices {W}. Arguments slice0 {W}. Arguments slice1 {W}. Arguments slice2 {W}. Arguments slice3 {W}.
Arguments slice4 {W}. Arguments slice5 {W}. Arguments slice6 {W}. Arguments slice7 {W}.

Abbreviation AES_state := (slices Z).

Class gates (W : Type) := { bxor : W -> W -> W; band : W -> W -> W; bor : W -> W -> W; bnot : W -> W }.

Declare Scope gate_scope.
Delimit Scope gate_scope with gate.
Infix "⊙" := band (at level 31, left associativity) : gate_scope.
Infix "⊕" := bxor (at level 33, left associativity) : gate_scope.
Infix "⊞" := bor (at level 34, left associativity) : gate_scope.
Notation "~~ x" := (bnot x) (at level 25, right associativity) : gate_scope.

(** [uint16_t] words and bits. *)
#[export] Instance word_gates : gates Z := {| bxor := Z.lxor; band := Z.land; bor := Z.lor; bnot x := u16 (Z.lnot x) |}.
#[export] Instance bit_gates : gates bool := {| bxor := xorb; band := andb; bor := orb; bnot := negb |}.

(** ** The S-box *)

Section Circuit.

Context {W : Type} {G : gates W}.
Open Scope gate_scope.

(** The variables that reach the shared part, and that leave it. *)
Record T_vars := mk_T {
  vT1 : W; vT2 : W; vT3 : W; vT4 : W; vT6 : W; vT8 : W; vT9 : W; vT10 : W; vT13 : W; vT14 : W; vT15 : W; vT16 : W; vT17 : W; vT19 :
  W; vT20 : W; vT22 : W; vT23 : W; vT24 : W; vT25 : W; vT26 : W; vT27 : W; vD : W }.
Record M_vars := mk_M {
  vM46 : W; vM47 : W; vM48 : W; vM49 : W; vM50 : W; vM51 : W; vM52 : W; vM53 : W; vM54 : W; vM55 : W; vM56 : W; vM57 : W; vM58 : W;
  vM59 : W; vM60 : W; vM61 : W; vM62 : W; vM63 : W }.

(** Undo linear postprocessing. *)
Definition sub_undo (s : slices W) : T_vars :=
  let U0 := slice7 s in let U1 := slice6 s in let U2 := slice5 s in let U3 := slice4 s in
  let U4 := slice3 s in let U5 := slice2 s in let U6 := slice1 s in let U7 := slice0 s in
  let T23 := U0 ⊕ U3 in let T22 := ~~(U1 ⊕ U3) in let T2 := ~~(U0 ⊕ U1) in let T1 := U3 ⊕ U4 in let T24 := ~~(U4 ⊕ U7) in let R5 := U6 ⊕ U7 in
  let T8 := ~~(U1 ⊕ T23) in let T19 := T22 ⊕ R5 in let T9 := ~~(U7 ⊕ T1) in let T10 := T2 ⊕ T24 in let T13 := T2 ⊕ R5 in let T3 := T1 ⊕ R5 in
  let T25 := ~~(U2 ⊕ T1) in let R13 := U1 ⊕ U6 in let T17 := ~~(U2 ⊕ T19) in let T20 := T24 ⊕ R13 in let T4 := U4 ⊕ T8 in let R17 := ~~(U2 ⊕ U5) in
  let R18 := ~~(U5 ⊕ U6) in let R19 := ~~(U2 ⊕ U4) in let D := U0 ⊕ R17 in let T6 := T22 ⊕ R17 in let T16 := R13 ⊕ R19 in let T27 := T1 ⊕ R18 in
  let T15 := T10 ⊕ T27 in let T14 := T10 ⊕ R18 in let T26 := T3 ⊕ T16 in
  mk_T T1 T2 T3 T4 T6 T8 T9 T10 T13 T14 T15 T16 T17 T19 T20 T22 T23 T24 T25 T26 T27 D.

(** Linear preprocessing. *)
Definition sub_pre (s : slices W) : T_vars :=
  let U0 := slice7 s in let U1 := slice6 s in let U2 := slice5 s in let U3 := slice4 s in
  let U4 := slice3 s in let U5 := slice2 s in let U6 := slice1 s in let U7 := slice0 s in
  let T1 := U0 ⊕ U3 in let T2 := U0 ⊕ U5 in let T3 := U0 ⊕ U6 in let T4 := U3 ⊕ U5 in let T5 := U4 ⊕ U6 in let T6 := T1 ⊕ T5 in let T7 := U1 ⊕ U2 in
  let T8 := U7 ⊕ T6 in let T9 := U7 ⊕ T7 in let T10 := T6 ⊕ T7 in let T11 := U1 ⊕ U5 in let T12 := U2 ⊕ U5 in let T13 := T3 ⊕ T4 in
  let T14 := T6 ⊕ T11 in let T15 := T5 ⊕ T11 in let T16 := T5 ⊕ T12 in let T17 := T9 ⊕ T16 in let T18 := U3 ⊕ U7 in let T19 := T7 ⊕ T18 in
  let T20 := T1 ⊕ T19 in let T21 := U6 ⊕ U7 in let T22 := T7 ⊕ T21 in let T23 := T2 ⊕ T22 in let T24 := T2 ⊕ T10 in let T25 := T20 ⊕ T17 in
  let T26 := T3 ⊕ T16 in let T27 := T1 ⊕ T12 in let D := U7 in
  mk_T T1 T2 T3 T4 T6 T8 T9 T10 T13 T14 T15 T16 T17 T19 T20 T22 T23 T24 T25 T26 T27 D.

(** The non-linear transformation. *)
Definition sub_shared (t : T_vars) : M_vars :=
  let '(mk_T T1 T2 T3 T4 T6 T8 T9 T10 T13 T14 T15 T16 T17 T19 T20 T22 T23 T24 T25 T26 T27 D) := t in
  let M1 := T13 ⊙ T6 in let M6 := T3 ⊙ T16 in let M11 := T1 ⊙ T15 in let M13 := T4 ⊙ T27 ⊕ M11 in let M15 := T2 ⊙ T10 ⊕ M11 in
  let M20 := T14 ⊕ M1 ⊕ T23 ⊙ T8 ⊕ M13 in let M21 := T19 ⊙ D ⊕ M1 ⊕ T24 ⊕ M15 in let M22 := T26 ⊕ M6 ⊕ T22 ⊙ T9 ⊕ M13 in
  let M23 := T20 ⊙ T17 ⊕ M6 ⊕ M15 ⊕ T25 in let M25 := M22 ⊙ M20 in let M37 := M21 ⊕ (M20 ⊕ M21) ⊙ (M23 ⊕ M25) in
  let M38 := M20 ⊕ M25 ⊕ (M21 ⊞ M20 ⊙ M23) in let M39 := M23 ⊕ (M22 ⊕ M23) ⊙ (M21 ⊕ M25) in let M40 := M22 ⊕ M25 ⊕ (M23 ⊞ M21 ⊙ M22) in
  let M41 := M38 ⊕ M40 in let M42 := M37 ⊕ M39 in let M43 := M37 ⊕ M38 in let M44 := M39 ⊕ M40 in let M45 := M42 ⊕ M41 in let M46 := M44 ⊙ T6 in
  let M47 := M40 ⊙ T8 in let M48 := M39 ⊙ D in let M49 := M43 ⊙ T16 in let M50 := M38 ⊙ T9 in let M51 := M37 ⊙ T17 in let M52 := M42 ⊙ T15 in
  let M53 := M45 ⊙ T27 in let M54 := M41 ⊙ T10 in let M55 := M44 ⊙ T13 in let M56 := M40 ⊙ T23 in let M57 := M39 ⊙ T19 in let M58 := M43 ⊙ T3 in
  let M59 := M38 ⊙ T22 in let M60 := M37 ⊙ T20 in let M61 := M42 ⊙ T1 in let M62 := M45 ⊙ T4 in let M63 := M41 ⊙ T2 in
  mk_M M46 M47 M48 M49 M50 M51 M52 M53 M54 M55 M56 M57 M58 M59 M60 M61 M62 M63.

(** Undo linear preprocessing. *)
Definition sub_undo_pre (m : M_vars) : slices W :=
  let '(mk_M M46 M47 M48 M49 M50 M51 M52 M53 M54 M55 M56 M57 M58 M59 M60 M61 M62 M63) := m in
  let P0 := M52 ⊕ M61 in let P1 := M58 ⊕ M59 in let P2 := M54 ⊕ M62 in let P3 := M47 ⊕ M50 in let P4 := M48 ⊕ M56 in let P5 := M46 ⊕ M51 in
  let P6 := M49 ⊕ M60 in let P7 := P0 ⊕ P1 in let P8 := M50 ⊕ M53 in let P9 := M55 ⊕ M63 in let P10 := M57 ⊕ P4 in let P11 := P0 ⊕ P3 in
  let P12 := M46 ⊕ M48 in let P13 := M49 ⊕ M51 in let P14 := M49 ⊕ M62 in let P15 := M54 ⊕ M59 in let P16 := M57 ⊕ M61 in let P17 := M58 ⊕ P2 in
  let P18 := M63 ⊕ P5 in let P19 := P2 ⊕ P3 in let P20 := P4 ⊕ P6 in let P22 := P2 ⊕ P7 in let P23 := P7 ⊕ P8 in let P24 := P5 ⊕ P7 in
  let P25 := P6 ⊕ P10 in let P26 := P9 ⊕ P11 in let P27 := P10 ⊕ P18 in let P28 := P11 ⊕ P25 in let P29 := P15 ⊕ P20 in
  mk_slices (P9 ⊕ P16) (P14 ⊕ P23) (P19 ⊕ P24) (P23 ⊕ P27) (P12 ⊕ P22) (P17 ⊕ P28) (P26 ⊕ P29) (P13 ⊕ P22).

(** Linear postprocessing. *)
Definition sub_post (m : M_vars) : slices W :=
  let '(mk_M M46 M47 M48 M49 M50 M51 M52 M53 M54 M55 M56 M57 M58 M59 M60 M61 M62 M63) := m in
  let L0 := M61 ⊕ M62 in let L1 := M50 ⊕ M56 in let L2 := M46 ⊕ M48 in let L3 := M47 ⊕ M55 in let L4 := M54 ⊕ M58 in let L5 := M49 ⊕ M61 in
  let L6 := M62 ⊕ L5 in let L7 := M46 ⊕ L3 in let L8 := M51 ⊕ M59 in let L9 := M52 ⊕ M53 in let L10 := M53 ⊕ L4 in let L11 := M60 ⊕ L2 in
  let L12 := M48 ⊕ M51 in let L13 := M50 ⊕ L0 in let L14 := M52 ⊕ M61 in let L15 := M55 ⊕ L1 in let L16 := M56 ⊕ L0 in let L17 := M57 ⊕ L1 in
  let L18 := M58 ⊕ L8 in let L19 := M63 ⊕ L4 in let L20 := L0 ⊕ L1 in let L21 := L1 ⊕ L7 in let L22 := L3 ⊕ L12 in let L23 := L18 ⊕ L2 in
  let L24 := L15 ⊕ L9 in let L25 := L6 ⊕ L10 in let L26 := L7 ⊕ L9 in let L27 := L8 ⊕ L10 in let L28 := L11 ⊕ L14 in let L29 := L11 ⊕ L17 in
  mk_slices (~~(L6 ⊕ L23)) (~~(L13 ⊕ L27)) (L25 ⊕ L29) (L20 ⊕ L22) (L6 ⊕ L21) (~~(L19 ⊕ L28)) (~~(L16 ⊕ L26)) (L6 ⊕ L24).

Definition SubBytes (s : slices W) (inv : bool) : slices W :=
  let m := sub_shared (if inv then sub_undo s else sub_pre s) in
  if inv then sub_undo_pre m else sub_post m.

End Circuit.

(** ** The other steps *)

Definition smap (f : Z -> Z) (s : AES_state) : AES_state :=
  mk_slices (f (slice0 s)) (f (slice1 s)) (f (slice2 s)) (f (slice3 s)) (f (slice4 s)) (f (slice5 s)) (f (slice6 s)) (f (slice7 s)).
Definition smap2 (f : Z -> Z -> Z) (s t : AES_state) : AES_state :=
  mk_slices (f (slice0 s) (slice0 t)) (f (slice1 s) (slice1 t)) (f (slice2 s) (slice2 t)) (f (slice3 s) (slice3 t))
    (f (slice4 s) (slice4 t)) (f (slice5 s) (slice5 t)) (f (slice6 s) (slice6 t)) (f (slice7 s) (slice7 t)).
Definition zero_state : AES_state := mk_slices 0 0 0 0 0 0 0 0.

(** The loop over the bits of the byte. *)
Definition LoadByte (s : AES_state) (byte r c : Z) : AES_state :=
  let put v byte := u16 (Z.lor v (Z.shiftl (Z.land byte 1) (r * 4 + c))) in
  let byte1 := Z.shiftr byte 1 in let byte2 := Z.shiftr byte1 1 in let byte3 := Z.shiftr byte2 1 in let byte4 := Z.shiftr byte3 1 in
  let byte5 := Z.shiftr byte4 1 in let byte6 := Z.shiftr byte5 1 in let byte7 := Z.shiftr byte6 1 in
  mk_slices (put (slice0 s) byte) (put (slice1 s) byte1) (put (slice2 s) byte2) (put (slice3 s) byte3)
    (put (slice4 s) byte4) (put (slice5 s) byte5) (put (slice6 s) byte6) (put (slice7 s) byte7).

(** Rows and columns in the order of the loops. *)
Definition row (k : nat) : Z := Z.of_nat (k mod 4).
Definition col (k : nat) : Z := Z.of_nat (k / 4).

Definition LoadBytes (s : AES_state) (data16 : list Z) : AES_state :=
  fold_left (fun s k => LoadByte s (nth k data16 0) (row k) (col k)) (seq 0 16) s.

Definition save_byte (s : AES_state) (r c : Z) : Z :=
  let get slice b v := Z.lor v (Z.shiftl (Z.land (Z.shiftr slice (r * 4 + c)) 1) b) in
  u8 (get (slice7 s) 7 (get (slice6 s) 6 (get (slice5 s) 5 (get (slice4 s) 4
    (get (slice3 s) 3 (get (slice2 s) 2 (get (slice1 s) 1 (get (slice0 s) 0 0)))))))).

Definition SaveBytes (s : AES_state) : list Z := map (fun k => save_byte s (row k) (col k)) (seq 0 16).

Definition BIT_RANGE (from to : Z) : Z := Z.shiftl (Z.shiftl 1 (to - from) - 1) from.
Definition BIT_RANGE_LEFT (x from to shift : Z) : Z := Z.shiftl (Z.land x (BIT_RANGE from to)) shift.
Definition BIT_RANGE_RIGHT (x from to shift : Z) : Z := Z.shiftr (Z.land x (BIT_RANGE from to)) shift.

Definition shift_rows (v : Z) : Z :=
  u16 (Z.lor (Z.lor (Z.lor (Z.lor (Z.lor (Z.lor (Z.land v (BIT_RANGE 0 4))
    (BIT_RANGE_LEFT v 4 5 3)) (BIT_RANGE_RIGHT v 5 8 1))
    (BIT_RANGE_LEFT v 8 10 2)) (BIT_RANGE_RIGHT v 10 12 2))
    (BIT_RANGE_LEFT v 12 15 1)) (BIT_RANGE_RIGHT v 15 16 3)).
Definition ShiftRows (s : AES_state) : AES_state := smap shift_rows s.

Definition inv_shift_rows (v : Z) : Z :=
  u16 (Z.lor (Z.lor (Z.lor (Z.lor (Z.lor (Z.lor (Z.land v (BIT_RANGE 0 4))
    (BIT_RANGE_LEFT v 4 7 1)) (BIT_RANGE_RIGHT v 7 8 3))
    (BIT_RANGE_LEFT v 8 10 2)) (BIT_RANGE_RIGHT v 10 12 2))
    (BIT_RANGE_LEFT v 12 13 3)) (BIT_RANGE_RIGHT v 13 16 1)).
Definition InvShiftRows (s : AES_state) : AES_state := smap inv_shift_rows s.

Definition ROT (x b : Z) : Z := Z.lor (Z.shiftr x (b * 4)) (Z.shiftl x ((4 - b) * 4)).

Notation "a ^^ b" := (Z.lxor a b) (at level 33, left associativity) : Z_scope.

(** Multiplication by [a(x)]. *)
Definition mix_forward (s : AES_state) : AES_state :=
  let '(mk_slices s0 s1 s2 s3 s4 s5 s6 s7) := s in
  let s0_01 := u16 (s0 ^^ ROT s0 1) in let s0_123 := u16 (ROT s0_01 1 ^^ ROT s0 3) in
  let s1_01 := u16 (s1 ^^ ROT s1 1) in let s1_123 := u16 (ROT s1_01 1 ^^ ROT s1 3) in
  let s2_01 := u16 (s2 ^^ ROT s2 1) in let s2_123 := u16 (ROT s2_01 1 ^^ ROT s2 3) in
  let s3_01 := u16 (s3 ^^ ROT s3 1) in let s3_123 := u16 (ROT s3_01 1 ^^ ROT s3 3) in
  let s4_01 := u16 (s4 ^^ ROT s4 1) in let s4_123 := u16 (ROT s4_01 1 ^^ ROT s4 3) in
  let s5_01 := u16 (s5 ^^ ROT s5 1) in let s5_123 := u16 (ROT s5_01 1 ^^ ROT s5 3) in
  let s6_01 := u16 (s6 ^^ ROT s6 1) in let s6_123 := u16 (ROT s6_01 1 ^^ ROT s6 3) in
  let s7_01 := u16 (s7 ^^ ROT s7 1) in let s7_123 := u16 (ROT s7_01 1 ^^ ROT s7 3) in
  mk_slices (s7_01 ^^ s0_123) (s7_01 ^^ s0_01 ^^ s1_123) (s1_01 ^^ s2_123) (s7_01 ^^ s2_01 ^^ s3_123)
    (s7_01 ^^ s3_01 ^^ s4_123) (s4_01 ^^ s5_123) (s5_01 ^^ s6_123) (s6_01 ^^ s7_123).

(** Further multiplication by [{04} x^2 + {05}]. *)
Definition mix_further (s : AES_state) : AES_state :=
  let '(mk_slices s0 s1 s2 s3 s4 s5 s6 s7) := s in
  let t0_02 := u16 (s0 ^^ ROT s0 2) in let t1_02 := u16 (s1 ^^ ROT s1 2) in
  let t2_02 := u16 (s2 ^^ ROT s2 2) in let t3_02 := u16 (s3 ^^ ROT s3 2) in
  let t4_02 := u16 (s4 ^^ ROT s4 2) in let t5_02 := u16 (s5 ^^ ROT s5 2) in
  let t6_02 := u16 (s6 ^^ ROT s6 2) in let t7_02 := u16 (s7 ^^ ROT s7 2) in
  mk_slices (s0 ^^ t6_02) (s1 ^^ (t6_02 ^^ t7_02)) (s2 ^^ (t0_02 ^^ t7_02)) (s3 ^^ (t1_02 ^^ t6_02))
    (s4 ^^ (t2_02 ^^ t6_02 ^^ t7_02)) (s5 ^^ (t3_02 ^^ t7_02)) (s6 ^^ t4_02) (s7 ^^ t5_02).

Definition MixColumns (s : AES_state) (inv : bool) : AES_state := let s := mix_forward s in if inv then mix_further s else s.

Definition AddRoundKey (s round : AES_state) : AES_state := smap2 Z.lxor s round.

(** ** The key schedule *)

Definition GetOneColumn (a : AES_state) (c : Z) : AES_state := smap (fun x => Z.land (Z.shiftr x c) 0x1111) a.

(** The column and the state it is added to. *)
Definition KeySetupColumnMix (s r a : AES_state) (c1 c2 : Z) : AES_state * AES_state :=
  let s := smap2 (fun x y => Z.lxor x (Z.land (Z.shiftr y c2) 0x1111)) s a in
  (s, smap2 (fun x y => u16 (Z.lor y (Z.shiftl (Z.land x 0x1111) c1))) s r).

Definition KeySetupTransform (s r : AES_state) : AES_state :=
  smap2 (fun x y => u16 (Z.lxor (Z.lor (Z.shiftr x 4) (Z.shiftl x 12)) y)) s r.

Definition MultX (s : AES_state) : AES_state :=
  let top := slice7 s in
  mk_slices top (slice0 s ^^ top) (slice1 s) (slice2 s ^^ top) (slice3 s ^^ top) (slice4 s) (slice5 s) (slice6 s).

(** The key words, in the state they belong to. *)
Definition load_key (rounds : list AES_state) (key : list Z) (nkeywords : nat) : list AES_state :=
  fold_left (fun rounds k => alter (fun s => LoadByte s (nth k key 0) (row k) (Z.of_nat (k / 4 mod 4))) (k / 16)%nat rounds)
    (seq 0 (4 * nkeywords)) rounds.

(** [n] turns from turn [i] on. *)
Fixpoint setup_loop (n i pos nkeywords : nat) (rcon column : AES_state) (rounds : list AES_state) : list AES_state :=
  match n with
  | O => rounds
  | S n =>
      let '(column, rcon) :=
        if (pos =? 0)%nat then (KeySetupTransform (SubBytes column false) rcon, MultX rcon)
        else if (6 <? nkeywords)%nat && (pos =? 4)%nat then (SubBytes column false, rcon) else (column, rcon) in
      let pos := if (S pos =? nkeywords)%nat then 0%nat else S pos in
      let '(column, r) := KeySetupColumnMix column (nth (i / 4) rounds zero_state) (nth ((i - nkeywords) / 4) rounds zero_state)
        (Z.of_nat (i mod 4)) (Z.of_nat ((i - nkeywords) mod 4)) in
      setup_loop n (S i) pos nkeywords rcon column (<[(i / 4)%nat := r]> rounds)
  end.

Definition AES_setup (key : list Z) (nkeywords nrounds : nat) : list AES_state :=
  let rounds := replicate (nrounds + 1) zero_state in
  let rounds := load_key rounds key nkeywords in
  let column := GetOneColumn (nth ((nkeywords - 1) / 4) rounds zero_state) (Z.of_nat ((nkeywords - 1) mod 4)) in
  setup_loop (4 * (nrounds + 1) - nkeywords) nkeywords 0 nkeywords (mk_slices 1 0 0 0 0 0 0 0) column rounds.

(** ** Blocks *)

Definition AES_encrypt (rounds : list AES_state) (nrounds : nat) (plain16 : list Z) : list Z :=
  let rk i := nth i rounds zero_state in
  let s := AddRoundKey (LoadBytes zero_state plain16) (rk 0%nat) in
  let s := fold_left (fun s i => AddRoundKey (MixColumns (ShiftRows (SubBytes s false)) false) (rk i)) (seq 1 (nrounds - 1)) s in
  SaveBytes (AddRoundKey (ShiftRows (SubBytes s false)) (rk nrounds)).

Definition AES_decrypt (rounds : list AES_state) (nrounds : nat) (cipher16 : list Z) : list Z :=
  let rk i := nth i rounds zero_state in
  let s := AddRoundKey (LoadBytes zero_state cipher16) (rk nrounds) in
  let s := fold_left (fun s i => MixColumns (AddRoundKey (SubBytes (InvShiftRows s) true) (rk (nrounds - i)%nat)) true) (seq 1 (nrounds - 1)) s in
  SaveBytes (AddRoundKey (SubBytes (InvShiftRows s) true) (rk 0%nat)).

Definition AES128_init (key16 : list Z) : list AES_state := AES_setup key16 4 10.
Definition AES192_init (key24 : list Z) : list AES_state := AES_setup key24 6 12.
Definition AES256_init (key32 : list Z) : list AES_state := AES_setup key32 8 14.

(** The loop of the functions on several blocks. *)
Fixpoint on_blocks (f : list Z -> list Z) (blocks : nat) (data : list Z) : list Z :=
  match blocks with
  | O => []
  | S blocks => f (take 16 data) ++ on_blocks f blocks (drop 16 data)
  end.

Definition AES128_encrypt (rk : list AES_state) (blocks : nat) (plain16 : list Z) : list Z := on_blocks (AES_encrypt rk 10) blocks plain16.
Definition AES128_decrypt (rk : list AES_state) (blocks : nat) (cipher16 : list Z) : list Z := on_blocks (AES_decrypt rk 10) blocks cipher16.
Definition AES192_encrypt (rk : list AES_state) (blocks : nat) (plain16 : list Z) : list Z := on_blocks (AES_encrypt rk 12) blocks plain16.
Definition AES192_decrypt (rk : list AES_state) (blocks : nat) (cipher16 : list Z) : list Z := on_blocks (AES_decrypt rk 12) blocks cipher16.
Definition AES256_encrypt (rk : list AES_state) (blocks : nat) (plain16 : list Z) : list Z := on_blocks (AES_encrypt rk 14) blocks plain16.
Definition AES256_decrypt (rk : list AES_state) (blocks : nat) (cipher16 : list Z) : list Z := on_blocks (AES_decrypt rk 14) blocks cipher16.

(** The vectors of FIPS 197, appendix C. *)
Definition fips_plain : list Z := map (fun k => 17 * Z.of_nat k) (seq 0 16).
Definition fips_key (n : nat) : list Z := map Z.of_nat (seq 0 n).

Example fips_197_c1 : AES_encrypt (AES128_init (fips_key 16)) 10 fips_plain =
  [0x69; 0xc4; 0xe0; 0xd8; 0x6a; 0x7b; 0x04; 0x30; 0xd8; 0xcd; 0xb7; 0x80; 0x70; 0xb4; 0xc5; 0x5a].
Proof. by vm_compute. Qed.
Example fips_197_c3 : AES_encrypt (AES256_init (fips_key 32)) 14 fips_plain =
  [0x8e; 0xa2; 0xb7; 0xca; 0x51; 0x67; 0x45; 0xbf; 0xea; 0xfc; 0x49; 0x90; 0x4b; 0x49; 0x60; 0x89] /\
  AES_decrypt (AES256_init (fips_key 32)) 14 (AES_encrypt (AES256_init (fips_key 32)) 14 fips_plain) = fips_plain.
Proof. by vm_compute. Qed.
