(* ===== verification/AesSpec.v ===== *)
(** * AES as in FIPS 197

    The published cipher on bytes, and that the bit-sliced code computes it: the
    key schedule, encryption, and decryption as its inverse. *)

From S2P Require Import Prelude.
From S2P Require Import Aes.
From Stdlib Require Import Ring Ring_theory.

(** ** FIPS 197 *)

(** *** Bytes as polynomials modulo [x^8 + x^4 + x^3 + x + 1] *)

Definition xtime (b : Z) : Z := if Z.testbit b 7 then Z.lxor (u8 (2 * b)) 0x1b else 2 * b.
Definition gmul (a b : Z) : Z :=
  fst (fold_left (fun '(acc, p) k => (if Z.testbit b (Z.of_nat k) then Z.lxor acc p else acc, xtime p)) (seq 0 8) (0, a)).
(** The inverse is the power 254. *)
Definition ginv (a : Z) : Z := let p := fold_left (fun acc _ => gmul (gmul acc acc) a) (seq 0 6) a in gmul p p.

Definition rotl8 (x k : Z) : Z := Z.lor (u8 (Z.shiftl x k)) (Z.shiftr x (8 - k)).
Definition sbox (b : Z) : Z := let x := ginv b in x ^^ rotl8 x 1 ^^ rotl8 x 2 ^^ rotl8 x 3 ^^ rotl8 x 4 ^^ 0x63.

(** *** The cipher on a state of sixteen bytes, column by column *)

Definition at_pos (st : list Z) (r c : nat) : Z := nth (4 * c + r) st 0.
Definition tabulate (f : nat -> nat -> Z) : list Z := map (fun k => f (k mod 4)%nat (k / 4)%nat) (seq 0 16).

Definition sub_bytes (st : list Z) : list Z := map sbox st.
Definition shift_rows_ref (st : list Z) : list Z := tabulate (fun r c => at_pos st r ((c + r) mod 4)).
Definition mix_columns (st : list Z) : list Z :=
  tabulate (fun r c => xtime (at_pos st r c) ^^ (xtime (at_pos st ((r + 1) mod 4) c) ^^ at_pos st ((r + 1) mod 4) c) ^^
    at_pos st ((r + 2) mod 4) c ^^ at_pos st ((r + 3) mod 4) c).
Definition add_round_key (st k : list Z) : list Z := zip_with Z.lxor st k.

(** The round keys are words of four bytes. *)
Definition round_key (ws : list (list Z)) (i : nat) : list Z := concat (take 4 (drop (4 * i) ws)).

Definition Cipher (ws : list (list Z)) (nr : nat) (input : list Z) : list Z :=
  let st := add_round_key input (round_key ws 0) in
  let st := fold_left (fun st i => add_round_key (mix_columns (shift_rows_ref (sub_bytes st))) (round_key ws i)) (seq 1 (nr - 1)) st in
  add_round_key (shift_rows_ref (sub_bytes st)) (round_key ws nr).

(** *** The key schedule *)

Definition word_xor (a b : list Z) : list Z := zip_with Z.lxor a b.
Definition RotWord (w : list Z) : list Z := drop 1 w ++ take 1 w.
Definition SubWord (w : list Z) : list Z := map sbox w.
Definition Rcon (j : nat) : list Z := [Nat.iter (j - 1) xtime 1; 0; 0; 0].

Definition next_word (nk : nat) (ws : list (list Z)) : list Z :=
  let i := length ws in
  let temp := nth (i - 1) ws [] in
  let temp := if (i mod nk =? 0)%nat then word_xor (SubWord (RotWord temp)) (Rcon (i / nk))
    else if (6 <? nk)%nat && (i mod nk =? 4)%nat then SubWord temp else temp in
  word_xor (nth (i - nk) ws []) temp.

Definition key_words (key : list Z) (nk : nat) : list (list Z) := map (fun i => take 4 (drop (4 * i) key)) (seq 0 nk).
Definition KeyExpansion (key : list Z) (nk nr : nat) : list (list Z) :=
  Nat.iter (4 * (nr + 1) - nk) (fun ws => ws ++ [next_word nk ws]) (key_words key nk).

(** ** Bits of slices *)

Definition bits_at (i : Z) (s : AES_state) : slices bool :=
  mk_slices (Z.testbit (slice0 s) i) (Z.testbit (slice1 s) i) (Z.testbit (slice2 s) i) (Z.testbit (slice3 s) i)
    (Z.testbit (slice4 s) i) (Z.testbit (slice5 s) i) (Z.testbit (slice6 s) i) (Z.testbit (slice7 s) i).

Definition byte_val (v : slices bool) : Z :=
  Z.b2z (slice0 v) + 2 * (Z.b2z (slice1 v) + 2 * (Z.b2z (slice2 v) + 2 * (Z.b2z (slice3 v) +
    2 * (Z.b2z (slice4 v) + 2 * (Z.b2z (slice5 v) + 2 * (Z.b2z (slice6 v) + 2 * Z.b2z (slice7 v))))))).

Definition of_byte (b : Z) : slices bool :=
  mk_slices (Z.testbit b 0) (Z.testbit b 1) (Z.testbit b 2) (Z.testbit b 3) (Z.testbit b 4) (Z.testbit b 5) (Z.testbit b 6) (Z.testbit b 7).

Definition vmap2 (f : bool -> bool -> bool) (a b : slices bool) : slices bool :=
  mk_slices (f (slice0 a) (slice0 b)) (f (slice1 a) (slice1 b)) (f (slice2 a) (slice2 b)) (f (slice3 a) (slice3 b))
    (f (slice4 a) (slice4 b)) (f (slice5 a) (slice5 b)) (f (slice6 a) (slice6 b)) (f (slice7 a) (slice7 b)).
Definition vxtime (a : slices bool) : slices bool :=
  let top := slice7 a in
  mk_slices top (xorb (slice0 a) top) (slice1 a) (xorb (slice2 a) top) (xorb (slice3 a) top) (slice4 a) (slice5 a) (slice6 a).

Definition wf (s : AES_state) : Prop :=
  0 <= slice0 s < 2 ^ 16 /\ 0 <= slice1 s < 2 ^ 16 /\ 0 <= slice2 s < 2 ^ 16 /\ 0 <= slice3 s < 2 ^ 16 /\
  0 <= slice4 s < 2 ^ 16 /\ 0 <= slice5 s < 2 ^ 16 /\ 0 <= slice6 s < 2 ^ 16 /\ 0 <= slice7 s < 2 ^ 16.

Ltac bool_cases v := destruct v as [[] [] [] [] [] [] [] []].

Lemma of_byte_val (v : slices bool) : of_byte (byte_val v) = v.
Proof. by bool_cases v. Qed.

Lemma byte_val_range (v : slices bool) : is_byte (byte_val v).
Proof. by bool_cases v. Qed.

Lemma byte_val_bit (v : slices bool) (b : Z) : 0 <= b < 8 ->
  Z.testbit (byte_val v) b = nth (Z.to_nat b) [slice0 v; slice1 v; slice2 v; slice3 v; slice4 v; slice5 v; slice6 v; slice7 v] false.
Proof.
  intros Hb. assert (b = 0 \/ b = 1 \/ b = 2 \/ b = 3 \/ b = 4 \/ b = 5 \/ b = 6 \/ b = 7) as H by lia.
  destruct H as [->|[->|[->|[->|[->|[->|[->| ->]]]]]]]; by bool_cases v.
Qed.

Lemma val_of_byte (b : Z) : is_byte b -> byte_val (of_byte b) = b.
Proof.
  intros Hb. apply Z.bits_inj'. intros k Hk. destruct (Z.ltb_spec k 8) as [H8|H8].
  - rewrite byte_val_bit by lia. assert (k = 0 \/ k = 1 \/ k = 2 \/ k = 3 \/ k = 4 \/ k = 5 \/ k = 6 \/ k = 7) as H by lia.
    by destruct H as [->|[->|[->|[->|[->|[->|[->| ->]]]]]]].
  - rewrite (testbit_high 8 b), (testbit_high 8 (byte_val _)); [done|apply byte_val_range|by right|exact Hb|by right].
Qed.

Lemma byte_val_xor (a b : slices bool) : byte_val (vmap2 xorb a b) = byte_val a ^^ byte_val b.
Proof.
  apply Z.bits_inj'. intros k Hk. rewrite Z.lxor_spec. destruct (Z.ltb_spec k 8) as [H8|H8].
  - rewrite !byte_val_bit by lia. assert (k = 0 \/ k = 1 \/ k = 2 \/ k = 3 \/ k = 4 \/ k = 5 \/ k = 6 \/ k = 7) as H by lia.
    by destruct H as [->|[->|[->|[->|[->|[->|[->| ->]]]]]]].
  - rewrite !(testbit_high 8 (byte_val _)); try apply byte_val_range; try (by right). done.
Qed.

Lemma byte_val_xtime (a : slices bool) : byte_val (vxtime a) = xtime (byte_val a).
Proof. by bool_cases a. Qed.

Lemma of_byte_xor (a b : Z) : of_byte (a ^^ b) = vmap2 xorb (of_byte a) (of_byte b).
Proof. unfold of_byte, vmap2. cbn [slice0 slice1 slice2 slice3 slice4 slice5 slice6 slice7]. by rewrite !Z.lxor_spec. Qed.

(** A state is determined by its bits. *)
Lemma word_ext (x y : Z) : 0 <= x < 2 ^ 16 -> 0 <= y < 2 ^ 16 -> (forall i, 0 <= i < 16 -> Z.testbit x i = Z.testbit y i) -> x = y.
Proof.
  intros Hx Hy H. apply Z.bits_inj'. intros i Hi. destruct (Z.ltb_spec i 16) as [Hl|Hl]; [by apply H|].
  rewrite (testbit_high 16 x), (testbit_high 16 y); [done|exact Hy|by right|exact Hx|by right].
Qed.

Lemma state_ext (s t : AES_state) : wf s -> wf t -> (forall i, 0 <= i < 16 -> bits_at i s = bits_at i t) -> s = t.
Proof.
  intros (S0 & S1 & S2 & S3 & S4 & S5 & S6 & S7) (T0 & T1 & T2 & T3 & T4 & T5 & T6 & T7) H.
  destruct s as [a0 a1 a2 a3 a4 a5 a6 a7], t as [b0 b1 b2 b3 b4 b5 b6 b7]. cbn [slice0 slice1 slice2 slice3 slice4 slice5 slice6 slice7] in *.
  f_equal; apply word_ext; try assumption; intros i Hi; specialize (H i Hi); by injection H.
Qed.

(** ** The S-box *)

(** A relation that the gates keep is kept by the circuit. *)
Section Related.

Context {W1 W2 : Type} {G1 : gates W1} {G2 : gates W2} (R : W1 -> W2 -> Prop).
Context (Rxor : forall a b x y, R a x -> R b y -> R (bxor a b) (bxor x y)) (Rand : forall a b x y, R a x -> R b y -> R (band a b) (band x y))
  (Ror : forall a b x y, R a x -> R b y -> R (bor a b) (bor x y)) (Rnot : forall a x, R a x -> R (bnot a) (bnot x)).

Definition Rs (s : slices W1) (t : slices W2) : Prop :=
  R (slice0 s) (slice0 t) /\ R (slice1 s) (slice1 t) /\ R (slice2 s) (slice2 t) /\ R (slice3 s) (slice3 t) /\
  R (slice4 s) (slice4 t) /\ R (slice5 s) (slice5 t) /\ R (slice6 s) (slice6 t) /\ R (slice7 s) (slice7 t).

Lemma let_rel {C D : Type} (RC : C -> D -> Prop) (v : W1) (w : W2) (f : W1 -> C) (g : W2 -> D) : R v w -> (forall x y, R x y -> RC (f x) (g y)) ->
  RC (let x := v in f x) (let y := w in g y).
Proof. intros H1 H2. by apply H2. Qed.

Ltac gate := repeat first [assumption | apply Rxor | apply Rand | apply Ror | apply Rnot].
Ltac gates_step := match goal with |- ?RC (let x := ?v in @?f x) (let y := ?w in @?g y) => apply (let_rel RC v w f g); [gate|intros ? ? ?] end.
Ltac all_of H := repeat match goal with H : _ /\ _ |- _ => destruct H end.

Definition RT (t : T_vars (W := W1)) (u : T_vars (W := W2)) : Prop :=
  (R (vT1 t) (vT1 u) /\ R (vT2 t) (vT2 u) /\ R (vT3 t) (vT3 u) /\ R (vT4 t) (vT4 u) /\ R (vT6 t) (vT6 u) /\ R (vT8 t) (vT8 u) /\ R (vT9 t) (vT9 u) /\
   R (vT10 t) (vT10 u) /\ R (vT13 t) (vT13 u) /\ R (vT14 t) (vT14 u) /\ R (vT15 t) (vT15 u)) /\
  (R (vT16 t) (vT16 u) /\ R (vT17 t) (vT17 u) /\ R (vT19 t) (vT19 u) /\ R (vT20 t) (vT20 u) /\ R (vT22 t) (vT22 u) /\ R (vT23 t) (vT23 u) /\
   R (vT24 t) (vT24 u) /\ R (vT25 t) (vT25 u) /\ R (vT26 t) (vT26 u) /\ R (vT27 t) (vT27 u) /\ R (vD t) (vD u)).

Definition RM (t : M_vars (W := W1)) (u : M_vars (W := W2)) : Prop :=
  (R (vM46 t) (vM46 u) /\ R (vM47 t) (vM47 u) /\ R (vM48 t) (vM48 u) /\ R (vM49 t) (vM49 u) /\ R (vM50 t) (vM50 u) /\ R (vM51 t) (vM51 u) /\
   R (vM52 t) (vM52 u) /\ R (vM53 t) (vM53 u) /\ R (vM54 t) (vM54 u)) /\
  (R (vM55 t) (vM55 u) /\ R (vM56 t) (vM56 u) /\ R (vM57 t) (vM57 u) /\ R (vM58 t) (vM58 u) /\ R (vM59 t) (vM59 u) /\ R (vM60 t) (vM60 u) /\
   R (vM61 t) (vM61 u) /\ R (vM62 t) (vM62 u) /\ R (vM63 t) (vM63 u)).

Lemma sub_undo_rel (s : slices W1) (t : slices W2) : Rs s t -> RT (sub_undo s) (sub_undo t).
Proof. intros (? & ? & ? & ? & ? & ? & ? & ?). cbv delta [sub_undo]; cbv beta iota. repeat gates_step. split; repeat split; assumption. Qed.

Lemma sub_pre_rel (s : slices W1) (t : slices W2) : Rs s t -> RT (sub_pre s) (sub_pre t).
Proof. intros (? & ? & ? & ? & ? & ? & ? & ?). cbv delta [sub_pre]; cbv beta iota. repeat gates_step. split; repeat split; assumption. Qed.

Lemma sub_shared_rel (t : T_vars) (u : T_vars) : RT t u -> RM (sub_shared t) (sub_shared u).
Proof. intros H. destruct t, u. unfold RT in H. cbn in H. all_of H. cbv delta [sub_shared]; cbv beta iota. repeat gates_step. split; repeat split; assumption. Qed.

Lemma sub_undo_pre_rel (t : M_vars) (u : M_vars) : RM t u -> Rs (sub_undo_pre t) (sub_undo_pre u).
Proof. intros H. destruct t, u. unfold RM in H. cbn in H. all_of H. cbv delta [sub_undo_pre]; cbv beta iota. repeat gates_step. repeat split; gate. Qed.

Lemma sub_post_rel (t : M_vars) (u : M_vars) : RM t u -> Rs (sub_post t) (sub_post u).
Proof. intros H. destruct t, u. unfold RM in H. cbn in H. all_of H. cbv delta [sub_post]; cbv beta iota. repeat gates_step. repeat split; gate. Qed.

Lemma SubBytes_rel (s : slices W1) (t : slices W2) (inv : bool) : Rs s t -> Rs (SubBytes s inv) (SubBytes t inv).
Proof.
  intros H. unfold SubBytes. cbv zeta. destruct inv; [apply sub_undo_pre_rel, sub_shared_rel, sub_undo_rel, H|apply sub_post_rel, sub_shared_rel, sub_pre_rel, H].
Qed.

End Related.

Lemma word_gate (f : Z -> Z -> Z) (g : bool -> bool -> bool) (x y : Z) : (forall k, Z.testbit (f x y) k = g (Z.testbit x k) (Z.testbit y k)) -> g false false = false ->
  0 <= x < 2 ^ 16 -> 0 <= y < 2 ^ 16 -> 0 <= f x y < 2 ^ 16.
Proof.
  intros Hf Hg Hx Hy. assert (f x y = u16 (f x y)) as ->; [|apply Z.mod_pos_bound; lia]. apply Z.bits_inj'. intros k Hk. rewrite testbit_wrap by lia.
  destruct (Z.ltb_spec k 16) as [Hl|Hl]; [done|]. by rewrite Hf, (testbit_high 16 x), (testbit_high 16 y) by (assumption || by right).
Qed.

Lemma SubBytes_bits (s : AES_state) (inv : bool) : wf s -> wf (SubBytes s inv) /\ forall i, 0 <= i < 16 -> bits_at i (SubBytes s inv) = SubBytes (bits_at i s) inv.
Proof.
  intros Hs. assert (forall i, 0 <= i < 16 -> Rs (fun x y => 0 <= x < 2 ^ 16 /\ Z.testbit x i = y) (SubBytes s inv) (SubBytes (bits_at i s) inv)) as H.
  { intros i Hi. apply SubBytes_rel.
    - intros a b x y [Ha <-] [Hb <-]. split; [exact (word_gate Z.lxor xorb a b (Z.lxor_spec a b) eq_refl Ha Hb)|exact (Z.lxor_spec a b i)].
    - intros a b x y [Ha <-] [Hb <-]. split; [exact (word_gate Z.land andb a b (Z.land_spec a b) eq_refl Ha Hb)|exact (Z.land_spec a b i)].
    - intros a b x y [Ha <-] [Hb <-]. split; [exact (word_gate Z.lor orb a b (Z.lor_spec a b) eq_refl Ha Hb)|exact (Z.lor_spec a b i)].
    - intros a x [Ha <-]. split; [apply Z.mod_pos_bound; lia|]. cbn [bnot word_gates bit_gates]. rewrite testbit_wrap, Z.lnot_spec, (proj2 (Z.ltb_lt i 16)) by lia. done.
    - destruct Hs as (? & ? & ? & ? & ? & ? & ? & ?). do 7 (split; [by split|]). by split. }
  split.
  - destruct (H 0) as ((? & _) & (? & _) & (? & _) & (? & _) & (? & _) & (? & _) & (? & _) & (? & _)); [lia|]. do 7 (split; [assumption|]). assumption.
  - intros i Hi. destruct (H i Hi) as ((_ & E0) & (_ & E1) & (_ & E2) & (_ & E3) & (_ & E4) & (_ & E5) & (_ & E6) & (_ & E7)).
    unfold bits_at at 1. rewrite E0, E1, E2, E3, E4, E5, E6, E7. by destruct (SubBytes (bits_at i s) inv).
Qed.

(** The circuit computes the S-box, and its inverse. *)
Lemma circuit_sbox (v : slices bool) : byte_val (SubBytes v false) = sbox (byte_val v).
Proof. bool_cases v; by vm_compute. Qed.

Lemma circuit_inverse (v : slices bool) : SubBytes (SubBytes v false) true = v.
Proof. by bool_cases v. Qed.

(** ** The linear steps *)

(** Evaluates an index below sixteen. *)
Ltac each_bit i Hi :=
  assert (i = 0 \/ i = 1 \/ i = 2 \/ i = 3 \/ i = 4 \/ i = 5 \/ i = 6 \/ i = 7 \/ i = 8 \/ i = 9 \/ i = 10 \/ i = 11 \/ i = 12 \/ i = 13 \/ i = 14 \/ i = 15) as Hcase by lia;
  clear Hi; destruct Hcase as [->|[->|[->|[->|[->|[->|[->|[->|[->|[->|[->|[->|[->|[->|[->| ->]]]]]]]]]]]]]]].
Ltac closed_bits := repeat match goal with |- context [Z.testbit ?m ?k] =>
  lazymatch m with BIT_RANGE _ _ => idtac | Z0 => idtac | Zpos _ => idtac end; let v := eval vm_compute in (Z.testbit m k) in change (Z.testbit m k) with v end.
Ltac simpl_bools := rewrite ?andb_true_r, ?andb_false_r, ?orb_false_r, ?orb_false_l.

Definition shift_src (i : Z) : Z := 4 * (i / 4) + (i mod 4 + i / 4) mod 4.
Definition unshift_src (i : Z) : Z := 4 * (i / 4) + (i mod 4 - i / 4) mod 4.

Lemma shift_rows_bit (v i : Z) : 0 <= i < 16 -> Z.testbit (shift_rows v) i = Z.testbit v (shift_src i).
Proof.
  intros Hi. unfold shift_rows, BIT_RANGE_LEFT, BIT_RANGE_RIGHT. rewrite testbit_wrap by lia.
  rewrite !Z.lor_spec, !Z.shiftl_spec, !Z.shiftr_spec, !Z.land_spec by lia. each_bit i Hi; closed_bits; simpl_bools; reflexivity.
Qed.

Lemma inv_shift_rows_bit (v i : Z) : 0 <= i < 16 -> Z.testbit (inv_shift_rows v) i = Z.testbit v (unshift_src i).
Proof.
  intros Hi. unfold inv_shift_rows, BIT_RANGE_LEFT, BIT_RANGE_RIGHT. rewrite testbit_wrap by lia.
  rewrite !Z.lor_spec, !Z.shiftl_spec, !Z.shiftr_spec, !Z.land_spec by lia. each_bit i Hi; closed_bits; simpl_bools; reflexivity.
Qed.

Lemma wf_u16 (f : Z -> Z) (s : AES_state) : wf (smap (fun x => u16 (f x)) s).
Proof. repeat split; apply Z.mod_pos_bound; lia. Qed.

Lemma ShiftRows_bits (s : AES_state) : wf (ShiftRows s) /\ forall i, 0 <= i < 16 -> bits_at i (ShiftRows s) = bits_at (shift_src i) s.
Proof.
  split; [apply (wf_u16 (fun v => _))|]. intros i Hi. unfold bits_at. cbn [ShiftRows smap slice0 slice1 slice2 slice3 slice4 slice5 slice6 slice7]. by rewrite !shift_rows_bit.
Qed.

Lemma InvShiftRows_bits (s : AES_state) : wf (InvShiftRows s) /\ forall i, 0 <= i < 16 -> bits_at i (InvShiftRows s) = bits_at (unshift_src i) s.
Proof.
  split; [apply (wf_u16 (fun v => _))|]. intros i Hi. unfold bits_at. cbn [InvShiftRows smap slice0 slice1 slice2 slice3 slice4 slice5 slice6 slice7]. by rewrite !inv_shift_rows_bit.
Qed.

(** *** Columns *)

Definition down (i k : Z) : Z := (i + 4 * k) mod 16.

Lemma rot_bit (x b i : Z) : 0 <= x < 2 ^ 16 -> 0 <= i < 16 -> 0 < b < 4 -> Z.testbit (ROT x b) i = Z.testbit x (down i b).
Proof.
  intros Hx Hi Hb. unfold ROT, down. rewrite Z.lor_spec, Z.shiftr_spec, Z.shiftl_spec by lia. destruct (Z.ltb_spec (i + 4 * b) 16) as [H|H].
  - rewrite (Z.testbit_neg_r x (i - _)), orb_false_r by lia. rewrite Z.mod_small by lia. f_equal. lia.
  - rewrite (testbit_high 16 x (i + b * 4)) by (assumption || (right; lia)). cbn [orb]. f_equal.
    replace (i + 4 * b) with (i - (4 - b) * 4 + 1 * 16) by lia. rewrite Z.mod_add by lia. rewrite Z.mod_small by lia. reflexivity.
Qed.

(** A column of the state, from one of its bytes downwards. *)
Definition vmix (a b c d : slices bool) : slices bool :=
  vmap2 xorb (vmap2 xorb (vmap2 xorb (vxtime a) (vmap2 xorb (vxtime b) b)) c) d.

Lemma down_range (i k : Z) : 0 <= down i k < 16.
Proof. apply Z.mod_pos_bound. lia. Qed.

Lemma down_down (i k l : Z) : down (down i k) l = down i (k + l).
Proof. unfold down. rewrite Zplus_mod_idemp_l. f_equal. lia. Qed.

Lemma mix_word (x i : Z) : 0 <= x < 2 ^ 16 -> 0 <= i < 16 -> let x01 := u16 (x ^^ ROT x 1) in
  Z.testbit x01 i = xorb (Z.testbit x i) (Z.testbit x (down i 1)) /\
  Z.testbit (u16 (ROT x01 1 ^^ ROT x 3)) i = xorb (xorb (Z.testbit x (down i 1)) (Z.testbit x (down i 2))) (Z.testbit x (down i 3)).
Proof.
  intros Hx Hi x01. assert (forall j, 0 <= j < 16 -> Z.testbit x01 j = xorb (Z.testbit x j) (Z.testbit x (down j 1))) as H01.
  { intros j Hj. unfold x01. rewrite testbit_wrap, (proj2 (Z.ltb_lt j 16)) by lia. cbn [andb]. by rewrite Z.lxor_spec, rot_bit by lia. }
  split; [by apply H01|]. rewrite testbit_wrap, (proj2 (Z.ltb_lt i 16)) by lia. cbn [andb]. rewrite Z.lxor_spec, (rot_bit x 3) by lia.
  assert (0 <= x01 < 2 ^ 16) by (apply Z.mod_pos_bound; lia). rewrite rot_bit by lia. rewrite H01 by apply down_range. by rewrite down_down.
Qed.

Lemma mix_range (x y : Z) : 0 <= x < 2 ^ 16 -> 0 <= y < 2 ^ 16 -> 0 <= x ^^ y < 2 ^ 16.
Proof. intros Hx Hy. exact (word_gate Z.lxor xorb x y (Z.lxor_spec x y) eq_refl Hx Hy). Qed.

Lemma u16_range (x : Z) : 0 <= u16 x < 2 ^ 16.
Proof. apply Z.mod_pos_bound. lia. Qed.

Lemma mix_forward_bits (s : AES_state) : wf s -> wf (mix_forward s) /\
  forall i, 0 <= i < 16 -> bits_at i (mix_forward s) = vmix (bits_at i s) (bits_at (down i 1) s) (bits_at (down i 2) s) (bits_at (down i 3) s).
Proof.
  intros (H0 & H1 & H2 & H3 & H4 & H5 & H6 & H7). destruct s as [s0 s1 s2 s3 s4 s5 s6 s7]. cbn [slice0 slice1 slice2 slice3 slice4 slice5 slice6 slice7] in *. split.
  - unfold mix_forward. do 7 (split; [cbn; repeat apply mix_range; apply u16_range|]). cbn. repeat apply mix_range; apply u16_range.
  - intros i Hi. destruct (mix_word s0 i H0 Hi) as [A0 B0]. destruct (mix_word s1 i H1 Hi) as [A1 B1]. destruct (mix_word s2 i H2 Hi) as [A2 B2]. destruct (mix_word s3 i H3 Hi) as [A3 B3].
    destruct (mix_word s4 i H4 Hi) as [A4 B4]. destruct (mix_word s5 i H5 Hi) as [A5 B5]. destruct (mix_word s6 i H6 Hi) as [A6 B6]. destruct (mix_word s7 i H7 Hi) as [A7 B7].
    unfold mix_forward, bits_at, vmix, vmap2, vxtime. cbn [slice0 slice1 slice2 slice3 slice4 slice5 slice6 slice7]. rewrite !Z.lxor_spec.
    rewrite A0, A1, A2, A3, A4, A5, A6, A7, B0, B1, B2, B3, B4, B5, B6, B7. f_equal; ring.
Qed.

(** The second half of the inverse, on a byte and the one two rows below. *)
Definition vfurther (a c : slices bool) : slices bool := vmap2 xorb a (vxtime (vxtime (vmap2 xorb a c))).

Lemma mix_further_bits (s : AES_state) : wf s -> wf (mix_further s) /\
  forall i, 0 <= i < 16 -> bits_at i (mix_further s) = vfurther (bits_at i s) (bits_at (down i 2) s).
Proof.
  intros (H0 & H1 & H2 & H3 & H4 & H5 & H6 & H7). destruct s as [s0 s1 s2 s3 s4 s5 s6 s7]. cbn [slice0 slice1 slice2 slice3 slice4 slice5 slice6 slice7] in *. split.
  - unfold mix_further. do 7 (split; [cbn; repeat (apply mix_range; [assumption || apply u16_range|]); repeat apply mix_range; apply u16_range|]).
    cbn. repeat (apply mix_range; [assumption || apply u16_range|]). apply u16_range.
  - intros i Hi. assert (forall x, 0 <= x < 2 ^ 16 -> Z.testbit (u16 (x ^^ ROT x 2)) i = xorb (Z.testbit x i) (Z.testbit x (down i 2))) as Hb.
    { intros x Hx. rewrite testbit_wrap, (proj2 (Z.ltb_lt i 16)) by lia. cbn [andb]. by rewrite Z.lxor_spec, rot_bit by lia. }
    unfold mix_further, bits_at, vfurther, vmap2, vxtime. cbn [slice0 slice1 slice2 slice3 slice4 slice5 slice6 slice7]. rewrite !Z.lxor_spec, !Hb by assumption.
    f_equal; ring.
Qed.

(** Both multiplications undo each other. *)
Lemma vmix_inverse (a b c d : slices bool) :
  let m0 := vmix a b c d in let m1 := vmix b c d a in let m2 := vmix c d a b in let m3 := vmix d a b c in
  vfurther (vmix m0 m1 m2 m3) (vmix m2 m3 m0 m1) = a.
Proof.
  destruct a as [a0 a1 a2 a3 a4 a5 a6 a7], b as [b0 b1 b2 b3 b4 b5 b6 b7], c as [c0 c1 c2 c3 c4 c5 c6 c7], d as [d0 d1 d2 d3 d4 d5 d6 d7].
  cbv beta iota zeta delta [vfurther vmix vmap2 vxtime slice0 slice1 slice2 slice3 slice4 slice5 slice6 slice7]. f_equal; ring.
Qed.

Lemma down_4 (i k : Z) : down i (k + 4) = down i k.
Proof. unfold down. replace (i + 4 * (k + 4)) with (i + 4 * k + 1 * 16) by lia. by rewrite Z.mod_add by lia. Qed.

Lemma MixColumns_inverse (s : AES_state) : wf s -> MixColumns (MixColumns s false) true = s.
Proof.
  intros Hs. unfold MixColumns. destruct (mix_forward_bits s Hs) as [W1 B1]. destruct (mix_forward_bits _ W1) as [W2 B2]. destruct (mix_further_bits _ W2) as [W3 B3].
  apply state_ext; [exact W3|exact Hs|]. intros i Hi. rewrite B3, !B2 by (apply down_range || lia). rewrite !B1 by (apply down_range || lia). rewrite !down_down.
  assert (down i 0 = i) as D0 by (unfold down; rewrite Z.mod_small; lia). assert (down i 4 = i) as D4 by (rewrite <- D0 at 2; exact (down_4 i 0)).
  assert (down i 5 = down i 1) as D5 by exact (down_4 i 1). assert (down i 6 = down i 2) as D6 by exact (down_4 i 2). assert (down i 7 = down i 3) as D7 by exact (down_4 i 3).
  assert (down i 8 = i) as D8 by (rewrite <- D4 at 2; exact (down_4 i 4)).
  repeat match goal with |- context [down i (?a + ?b)] => let v := eval vm_compute in (a + b) in change (a + b) with v end.
  rewrite ?D4, ?D5, ?D6, ?D7, ?D8. apply vmix_inverse.
Qed.

Lemma AddRoundKey_bits (s k : AES_state) : wf s -> wf k -> wf (AddRoundKey s k) /\ forall i, bits_at i (AddRoundKey s k) = vmap2 xorb (bits_at i s) (bits_at i k).
Proof.
  intros (? & ? & ? & ? & ? & ? & ? & ?) (? & ? & ? & ? & ? & ? & ? & ?). split; [do 7 (split; [by apply mix_range|]); by apply mix_range|].
  intros i. unfold bits_at, vmap2. cbn [AddRoundKey smap2 slice0 slice1 slice2 slice3 slice4 slice5 slice6 slice7]. by rewrite !Z.lxor_spec.
Qed.

Lemma AddRoundKey_inverse (s k : AES_state) : AddRoundKey (AddRoundKey s k) k = s.
Proof.
  destruct s, k. unfold AddRoundKey, smap2. cbn [Aes.slice0 Aes.slice1 Aes.slice2 Aes.slice3 Aes.slice4 Aes.slice5 Aes.slice6 Aes.slice7].
  by rewrite !Z.lxor_assoc, !Z.lxor_nilpotent, !Z.lxor_0_r.
Qed.

Lemma SubBytes_inverse (s : AES_state) : wf s -> SubBytes (SubBytes s false) true = s.
Proof.
  intros Hs. destruct (SubBytes_bits s false Hs) as [W1 B1]. destruct (SubBytes_bits _ true W1) as [W2 B2].
  apply state_ext; [exact W2|exact Hs|]. intros i Hi. by rewrite B2, B1, circuit_inverse.
Qed.

Lemma ShiftRows_inverse (s : AES_state) : wf s -> InvShiftRows (ShiftRows s) = s.
Proof.
  intros Hs. destruct (ShiftRows_bits s) as [W1 B1]. destruct (InvShiftRows_bits (ShiftRows s)) as [W2 B2].
  apply state_ext; [exact W2|exact Hs|]. intros i Hi. rewrite B2 by exact Hi. rewrite B1 by (each_bit i Hi; by vm_compute). f_equal. by each_bit i Hi.
Qed.

(** ** Loading and saving *)

Definition vfalse : slices bool := mk_slices false false false false false false false false.

Lemma shifted_byte (byte k : Z) : 0 <= k -> Z.land (Z.shiftr byte k) 1 = Z.b2z (Z.testbit byte k).
Proof. intros Hk. change 1 with (Z.ones 1). rewrite Z.land_ones by lia. rewrite Z.testbit_spec' by lia. by rewrite Z.shiftr_div_pow2. Qed.

Lemma LoadByte_bits (s : AES_state) (byte r c i : Z) : 0 <= r < 4 -> 0 <= c < 4 -> 0 <= i < 16 ->
  bits_at i (LoadByte s byte r c) = if i =? r * 4 + c then vmap2 orb (bits_at i s) (of_byte byte) else bits_at i s.
Proof.
  intros Hr Hc Hi. assert (forall v b, Z.testbit (u16 (Z.lor v (Z.shiftl (Z.b2z b) (r * 4 + c)))) i = Z.testbit v i || (b && (i =? r * 4 + c))) as Hput.
  { intros v b. rewrite testbit_wrap, (proj2 (Z.ltb_lt i 16)) by lia. cbn [andb]. rewrite Z.lor_spec, Z.shiftl_spec by lia. f_equal.
    destruct (Z.eqb_spec i (r * 4 + c)) as [->|Hn]; [rewrite Z.sub_diag, andb_true_r; by destruct b|]. rewrite andb_false_r.
    destruct (Z.ltb_spec (i - (r * 4 + c)) 0); [by apply Z.testbit_neg_r|]. destruct b; [|apply Z.testbit_0_l]. apply (testbit_high 1); [done|right; lia]. }
  unfold LoadByte, bits_at. cbv zeta. cbn [slice0 slice1 slice2 slice3 slice4 slice5 slice6 slice7].
  rewrite !Z.shiftr_shiftr by lia. cbn [Z.add Pos.add Pos.succ Pos.add_carry]. rewrite <- (Z.shiftr_0_r byte) at 1.
  rewrite !shifted_byte, !Hput by lia. destruct (i =? r * 4 + c); rewrite ?andb_true_r, ?andb_false_r, ?orb_false_r; reflexivity.
Qed.

Lemma LoadByte_wf (s : AES_state) (byte r c : Z) : wf (LoadByte s byte r c).
Proof. do 7 (split; [apply u16_range|]). apply u16_range. Qed.

Lemma save_byte_val (s : AES_state) (r c : Z) : 0 <= r * 4 + c -> save_byte s r c = byte_val (bits_at (r * 4 + c) s).
Proof.
  intros Hk. unfold save_byte, bits_at. rewrite !shifted_byte by exact Hk.
  generalize (Z.testbit (slice0 s) (r * 4 + c)) (Z.testbit (slice1 s) (r * 4 + c)) (Z.testbit (slice2 s) (r * 4 + c)) (Z.testbit (slice3 s) (r * 4 + c))
    (Z.testbit (slice4 s) (r * 4 + c)) (Z.testbit (slice5 s) (r * 4 + c)) (Z.testbit (slice6 s) (r * 4 + c)) (Z.testbit (slice7 s) (r * 4 + c)).
  by intros [] [] [] [] [] [] [] [].
Qed.

(** The byte in a row and a column. *)
Definition byte_at (s : AES_state) (r c : nat) : Z := byte_val (bits_at (Z.of_nat (4 * r + c)) s).

Ltac each_pos r c := destruct r as [|[|[|[|?]]]]; try lia; destruct c as [|[|[|[|?]]]]; try lia.

Lemma tabulate_ext (f g : nat -> nat -> Z) : (forall r c, (r < 4)%nat -> (c < 4)%nat -> f r c = g r c) -> tabulate f = tabulate g.
Proof.
  intros H. unfold tabulate. apply map_ext_in. intros k Hk. apply in_seq in Hk. apply H; [by apply Nat.mod_upper_bound|]. apply Nat.Div0.div_lt_upper_bound. lia.
Qed.

Lemma at_tabulate (f : nat -> nat -> Z) (r c : nat) : (r < 4)%nat -> (c < 4)%nat -> at_pos (tabulate f) r c = f r c.
Proof. intros Hr Hc. each_pos r c; reflexivity. Qed.

Lemma SaveBytes_tab (s : AES_state) : SaveBytes s = tabulate (byte_at s).
Proof.
  unfold SaveBytes, tabulate, byte_at, row, col. apply map_ext_in. intros k Hk. rewrite save_byte_val by lia. do 2 f_equal. lia.
Qed.

Lemma save_sub (s : AES_state) : wf s -> SaveBytes (SubBytes s false) = sub_bytes (SaveBytes s).
Proof.
  intros Hs. destruct (SubBytes_bits s false Hs) as [_ B]. rewrite !SaveBytes_tab. unfold sub_bytes, tabulate. rewrite map_map. apply map_ext_in. intros k Hk.
  apply in_seq in Hk. unfold byte_at. pose proof (Nat.mod_upper_bound k 4 ltac:(lia)). pose proof (Nat.Div0.div_lt_upper_bound k 4 4 ltac:(lia)).
  by rewrite B, circuit_sbox by lia.
Qed.

Lemma save_shift (s : AES_state) : SaveBytes (ShiftRows s) = shift_rows_ref (SaveBytes s).
Proof.
  destruct (ShiftRows_bits s) as [_ B]. rewrite !SaveBytes_tab. apply tabulate_ext. intros r c Hr Hc. rewrite at_tabulate by (assumption || by apply Nat.mod_upper_bound).
  unfold byte_at. rewrite B by lia. do 2 f_equal. each_pos r c; reflexivity.
Qed.

Lemma save_mix (s : AES_state) : wf s -> SaveBytes (MixColumns s false) = mix_columns (SaveBytes s).
Proof.
  intros Hs. destruct (mix_forward_bits s Hs) as [_ B]. cbn [MixColumns]. rewrite !SaveBytes_tab. apply tabulate_ext. intros r c Hr Hc.
  rewrite !at_tabulate by (assumption || by apply Nat.mod_upper_bound). unfold byte_at. rewrite B by lia. unfold vmix. rewrite !byte_val_xor, !byte_val_xtime.
  replace (down (Z.of_nat (4 * r + c)) 1) with (Z.of_nat (4 * ((r + 1) mod 4) + c)) by (each_pos r c; reflexivity).
  replace (down (Z.of_nat (4 * r + c)) 2) with (Z.of_nat (4 * ((r + 2) mod 4) + c)) by (each_pos r c; reflexivity).
  by replace (down (Z.of_nat (4 * r + c)) 3) with (Z.of_nat (4 * ((r + 3) mod 4) + c)) by (each_pos r c; reflexivity).
Qed.

Lemma zip_map {A B C} (f : A -> B -> C) (g : nat -> A) (h : nat -> B) (l : list nat) : zip_with f (map g l) (map h l) = map (fun k => f (g k) (h k)) l.
Proof. induction l as [|k l IH]; [done|]. cbn. by rewrite IH. Qed.

Lemma save_add (s k : AES_state) : wf s -> wf k -> SaveBytes (AddRoundKey s k) = add_round_key (SaveBytes s) (SaveBytes k).
Proof.
  intros Hs Hk. destruct (AddRoundKey_bits s k Hs Hk) as [_ B]. rewrite !SaveBytes_tab. unfold add_round_key, tabulate. rewrite zip_map. apply map_ext. intros j.
  unfold byte_at. by rewrite B, byte_val_xor.
Qed.

(** *** Loading *)

Lemma load_fold (f col : nat -> Z) (ks : list nat) (i : Z) : (forall k, 0 <= col k < 4) -> 0 <= i < 16 -> forall s,
  bits_at i (fold_left (fun s k => LoadByte s (f k) (row k) (col k)) ks s) =
  fold_left (fun v k => if i =? row k * 4 + col k then vmap2 orb v (of_byte (f k)) else v) ks (bits_at i s).
Proof.
  intros Hc Hi. induction ks as [|k ks IH]; intros s; [done|]. cbn [fold_left]. rewrite IH. f_equal. apply LoadByte_bits; [|apply Hc|exact Hi].
  unfold row. pose proof (Nat.mod_upper_bound k 4 ltac:(lia)). lia.
Qed.

Lemma load_wf (f col : nat -> Z) (ks : list nat) (s : AES_state) : wf s -> wf (fold_left (fun s k => LoadByte s (f k) (row k) (col k)) ks s).
Proof. revert s. induction ks as [|k ks IH]; intros s Hs; [exact Hs|]. apply IH, LoadByte_wf. Qed.

Lemma zero_wf : wf zero_state.
Proof. by vm_compute. Qed.

Lemma LoadBytes_bits (data : list Z) : wf (LoadBytes zero_state data) /\
  forall r c, (r < 4)%nat -> (c < 4)%nat -> bits_at (Z.of_nat (4 * r + c)) (LoadBytes zero_state data) = of_byte (at_pos data r c).
Proof.
  split; [apply (load_wf (fun k => nth k data 0)), zero_wf|]. intros r c Hr Hc. unfold LoadBytes.
  set (colm := fun k => Z.of_nat (k / 4 mod 4)).
  transitivity (bits_at (Z.of_nat (4 * r + c)) (fold_left (fun s k => LoadByte s (nth k data 0) (row k) (colm k)) (seq 0 16) zero_state)); [reflexivity|].
  rewrite load_fold by (lia || (intros k; unfold colm; pose proof (Nat.mod_upper_bound (k / 4) 4 ltac:(lia)); lia)).
  unfold at_pos. generalize (fun k => nth k data 0). intros f. each_pos r c; reflexivity.
Qed.

Lemma save_load (data : list Z) : is_bytes data -> length data = 16%nat -> SaveBytes (LoadBytes zero_state data) = data.
Proof.
  intros Hb Hl. destruct (LoadBytes_bits data) as [_ B]. rewrite SaveBytes_tab.
  assert (tabulate (byte_at (LoadBytes zero_state data)) = tabulate (at_pos data)) as ->.
  { apply tabulate_ext. intros r c Hr Hc. unfold byte_at. rewrite B by assumption. apply val_of_byte. unfold at_pos.
    destruct (nth_in_or_default (4 * c + r) data 0) as [Hin| ->]; [|by vm_compute]. unfold is_bytes in Hb. rewrite list.Forall_forall in Hb. by apply Hb, list_elem_of_In. }
  do 16 (destruct data as [|? data]; [done|]). by destruct data.
Qed.

Lemma load_save (s : AES_state) : wf s -> LoadBytes zero_state (SaveBytes s) = s.
Proof.
  intros Hs. destruct (LoadBytes_bits (SaveBytes s)) as [W B]. apply state_ext; [exact W|exact Hs|]. intros i Hi.
  assert (exists r c, (r < 4)%nat /\ (c < 4)%nat /\ i = Z.of_nat (4 * r + c)) as (r & c & Hr & Hc & ->).
  { exists (Z.to_nat (i / 4)), (Z.to_nat (i mod 4)). pose proof (Z.div_mod i 4 ltac:(lia)). pose proof (Z.mod_pos_bound i 4 ltac:(lia)). lia. }
  rewrite B by assumption. rewrite SaveBytes_tab, at_tabulate by assumption. unfold byte_at. apply of_byte_val.
Qed.

(** ** The cipher *)

Definition round_step (rounds : list AES_state) (s : AES_state) (i : nat) : AES_state :=
  AddRoundKey (MixColumns (ShiftRows (SubBytes s false)) false) (nth i rounds zero_state).

Definition keys_wf (rounds : list AES_state) (nr : nat) : Prop := forall i, (i <= nr)%nat -> wf (nth i rounds zero_state).

Lemma mixed_wf (s : AES_state) : wf s -> wf (MixColumns (ShiftRows (SubBytes s false)) false) /\ wf (ShiftRows (SubBytes s false)).
Proof. intros Hs. pose proof (proj1 (ShiftRows_bits (SubBytes s false))) as W. split; [apply mix_forward_bits, W|exact W]. Qed.

Lemma rounds_wf (rounds : list AES_state) (nr : nat) (s : AES_state) (k : nat) : keys_wf rounds nr -> wf s -> (k <= nr)%nat -> wf (fold_left (round_step rounds) (seq 1 k) s).
Proof.
  intros Hk Hs. induction k as [|k IH]; intros Hn; [exact Hs|]. rewrite seq_S, fold_left_app. cbn [fold_left]. apply AddRoundKey_bits; [apply mixed_wf, IH; lia|apply Hk; lia].
Qed.

(** The bit-sliced code computes the cipher, when the round keys agree. *)
Lemma encrypt_cipher (rounds : list AES_state) (ws : list (list Z)) (nr : nat) (plain : list Z) : keys_wf rounds nr ->
  (forall i, (i <= nr)%nat -> SaveBytes (nth i rounds zero_state) = round_key ws i) -> is_bytes plain -> length plain = 16%nat ->
  AES_encrypt rounds nr plain = Cipher ws nr plain.
Proof.
  intros Hk Hw Hb Hl. unfold AES_encrypt, Cipher. cbv zeta. set (s0 := AddRoundKey (LoadBytes zero_state plain) _). fold (round_step rounds).
  assert (wf s0 /\ SaveBytes s0 = add_round_key plain (round_key ws 0)) as [W0 E0].
  { destruct (LoadBytes_bits plain) as [W _]. split; [apply AddRoundKey_bits; [exact W|apply Hk; lia]|]. unfold s0. rewrite save_add by (exact W || (apply Hk; lia)).
    by rewrite save_load, Hw by (assumption || lia). }
  rewrite <- E0. assert (forall k, (k < nr)%nat -> SaveBytes (fold_left (round_step rounds) (seq 1 k) s0) =
    fold_left (fun st i => add_round_key (mix_columns (shift_rows_ref (sub_bytes st))) (round_key ws i)) (seq 1 k) (SaveBytes s0)) as Hround.
  { induction k as [|k IH]; intros Hn; [done|]. rewrite !seq_S, !fold_left_app. cbn [fold_left]. rewrite <- IH by lia. unfold round_step at 1.
    pose proof (rounds_wf rounds nr s0 k Hk W0 ltac:(lia)) as Wk. destruct (mixed_wf _ Wk) as [Wm Ws].
    rewrite save_add, save_mix, save_shift, save_sub, Hw by (assumption || (apply Hk; lia) || lia). done. }
  destruct nr as [|nr].
  - cbn [Nat.sub seq fold_left]. destruct (mixed_wf _ W0) as [_ Ws]. rewrite save_add, save_shift, save_sub, Hw by (assumption || (apply Hk; lia) || lia). done.
  - replace (S nr - 1)%nat with nr by lia. rewrite <- Hround by lia. pose proof (rounds_wf rounds (S nr) s0 nr Hk W0 ltac:(lia)) as Wk. destruct (mixed_wf _ Wk) as [_ Ws].
    rewrite save_add, save_shift, save_sub, Hw by (assumption || (apply Hk; lia) || lia). done.
Qed.

(** Decryption runs the rounds backwards. *)
Lemma decrypt_encrypt (rounds : list AES_state) (nr : nat) (plain : list Z) : keys_wf rounds nr -> (1 <= nr)%nat -> is_bytes plain -> length plain = 16%nat ->
  AES_decrypt rounds nr (AES_encrypt rounds nr plain) = plain.
Proof.
  intros Hk Hn Hb Hl. unfold AES_decrypt, AES_encrypt. cbv zeta. set (s0 := AddRoundKey (LoadBytes zero_state plain) _). fold (round_step rounds).
  destruct (LoadBytes_bits plain) as [W _]. assert (wf s0) as W0 by (apply AddRoundKey_bits; [exact W|apply Hk; lia]).
  set (E := fun k => fold_left (round_step rounds) (seq 1 k) s0). assert (forall k, (k <= nr)%nat -> wf (E k)) as WE by (intros k Hkn; by apply (rounds_wf rounds nr)).
  change (fold_left (round_step rounds) (seq 1 (nr - 1)) s0) with (E (nr - 1)%nat). destruct (mixed_wf (E (nr - 1)%nat) (WE (nr - 1)%nat ltac:(lia))) as [_ Ws].
  rewrite load_save by (apply AddRoundKey_bits; [exact Ws|apply Hk; lia]). rewrite AddRoundKey_inverse.
  assert (forall j, (j < nr)%nat -> fold_left (fun s i => MixColumns (AddRoundKey (SubBytes (InvShiftRows s) true) (nth (nr - i) rounds zero_state)) true) (seq 1 j)
    (ShiftRows (SubBytes (E (nr - 1)%nat) false)) = ShiftRows (SubBytes (E (nr - 1 - j)%nat) false)) as Hj.
  { induction j as [|j IH]; intros Hjn; [cbn [seq fold_left]; by rewrite Nat.sub_0_r|]. rewrite seq_S, fold_left_app. cbn [fold_left]. rewrite IH by lia.
    pose proof (WE (nr - 1 - j)%nat ltac:(lia)) as Wj. rewrite ShiftRows_inverse by (apply SubBytes_bits, Wj). rewrite SubBytes_inverse by exact Wj.
    replace (nr - 1 - j)%nat with (S (nr - 1 - S j)) by lia. unfold E at 1. rewrite seq_S, fold_left_app. cbn [fold_left]. fold (E (nr - 1 - S j)%nat). unfold round_step.
    replace (nr - (1 + j))%nat with (1 + (nr - 1 - S j))%nat by lia. rewrite AddRoundKey_inverse. apply MixColumns_inverse, mixed_wf, WE. lia. }
  rewrite Hj by lia. replace (nr - 1 - (nr - 1))%nat with 0%nat by lia. change (E 0%nat) with s0.
  rewrite ShiftRows_inverse by (apply SubBytes_bits, W0). rewrite SubBytes_inverse by exact W0. unfold s0. rewrite AddRoundKey_inverse. by apply save_load.
Qed.

(** ** The key schedule *)

Lemma circuit_of_byte (b : Z) : is_byte b -> SubBytes (of_byte b) false = of_byte (sbox b) /\ is_byte (sbox b).
Proof.
  intros Hb. pose proof (circuit_sbox (of_byte b)) as E. rewrite val_of_byte in E by exact Hb. rewrite <- E. split; [by rewrite of_byte_val|apply byte_val_range].
Qed.

Lemma mask_range (x c : Z) : 0 <= Z.land (Z.shiftr x c) 0x1111 < 2 ^ 16.
Proof.
  assert (Z.land (Z.shiftr x c) 0x1111 = u16 (Z.land (Z.shiftr x c) 0x1111)) as ->; [|apply u16_range]. apply Z.bits_inj'. intros k Hk. rewrite testbit_wrap, Z.land_spec by lia.
  destruct (Z.ltb_spec k 16) as [H|H]; [done|]. by rewrite (testbit_high 16 0x1111), andb_false_r by (by right || done).
Qed.

Definition column_bit (i : Z) : Prop := i = 0 \/ i = 4 \/ i = 8 \/ i = 12.

Lemma mask_bit (x c i : Z) : column_bit i -> Z.testbit (Z.land (Z.shiftr x c) 0x1111) i = Z.testbit x (i + c).
Proof.
  intros Hi. rewrite Z.land_spec, Z.shiftr_spec by (destruct Hi as [->|[->|[->| ->]]]; lia).
  replace (Z.testbit 0x1111 i) with true by (by destruct Hi as [->|[->|[->| ->]]]). apply andb_true_r.
Qed.

Lemma GetOneColumn_bits (a : AES_state) (c : Z) : wf (GetOneColumn a c) /\ forall i, column_bit i -> bits_at i (GetOneColumn a c) = bits_at (i + c) a.
Proof.
  split; [do 7 (split; [apply mask_range|]); apply mask_range|]. intros i Hi. unfold bits_at.
  cbn [GetOneColumn smap slice0 slice1 slice2 slice3 slice4 slice5 slice6 slice7]. by rewrite !mask_bit.
Qed.

Lemma Transform_bits (s r : AES_state) : wf s -> wf (KeySetupTransform s r) /\
  forall i, 0 <= i < 16 -> bits_at i (KeySetupTransform s r) = vmap2 xorb (bits_at (down i 1) s) (bits_at i r).
Proof.
  intros (? & ? & ? & ? & ? & ? & ? & ?). split; [do 7 (split; [apply u16_range|]); apply u16_range|]. intros i Hi.
  assert (forall x y, 0 <= x < 2 ^ 16 -> Z.testbit (u16 (Z.lxor (Z.lor (Z.shiftr x 4) (Z.shiftl x 12)) y)) i = xorb (Z.testbit x (down i 1)) (Z.testbit y i)) as H7.
  { intros x y Hx. rewrite testbit_wrap, (proj2 (Z.ltb_lt i 16)) by lia. cbn [andb]. rewrite Z.lxor_spec. f_equal. by apply (rot_bit x 1 i). }
  unfold bits_at, vmap2. cbn [KeySetupTransform smap2 slice0 slice1 slice2 slice3 slice4 slice5 slice6 slice7]. by rewrite !H7.
Qed.

Lemma MultX_bits (s : AES_state) : wf s -> wf (MultX s) /\ forall i, bits_at i (MultX s) = vxtime (bits_at i s).
Proof.
  intros (? & ? & ? & ? & ? & ? & ? & ?). split; [repeat (split; [assumption || by apply mix_range|]); assumption|]. intros i.
  unfold bits_at, vxtime. cbn [MultX slice0 slice1 slice2 slice3 slice4 slice5 slice6 slice7]. by rewrite !Z.lxor_spec.
Qed.

Lemma ColumnMix_bits (s r a : AES_state) (c1 c2 : Z) : wf s -> 0 <= c1 < 4 -> let '(s', r') := KeySetupColumnMix s r a c1 c2 in
  wf s' /\ wf r' /\ (forall i, column_bit i -> bits_at i s' = vmap2 xorb (bits_at i s) (bits_at (i + c2) a)) /\
  (forall i c, column_bit i -> 0 <= c < 4 -> bits_at (i + c) r' = if c =? c1 then vmap2 orb (bits_at (i + c) r) (bits_at i s') else bits_at (i + c) r).
Proof.
  intros (? & ? & ? & ? & ? & ? & ? & ?) Hc1. cbn [KeySetupColumnMix]. set (s' := smap2 _ s a).
  split; [do 7 (split; [apply mix_range; [assumption|apply mask_range]|]); apply mix_range; [assumption|apply mask_range]|].
  split; [do 7 (split; [apply u16_range|]); apply u16_range|]. split.
  - intros i Hi. unfold bits_at, vmap2, s'. cbn [smap2 slice0 slice1 slice2 slice3 slice4 slice5 slice6 slice7]. by rewrite !Z.lxor_spec, !mask_bit.
  - intros i c Hi Hc. assert (0 <= i + c < 16) as Hic by (destruct Hi as [->|[->|[->| ->]]]; lia).
    assert (forall x y, Z.testbit (u16 (Z.lor y (Z.shiftl (Z.land x 0x1111) c1))) (i + c) = Z.testbit y (i + c) || (Z.testbit x i && (c =? c1))) as Hp.
    { intros x y. rewrite testbit_wrap, (proj2 (Z.ltb_lt (i + c) 16)) by lia. cbn [andb]. rewrite Z.lor_spec, Z.shiftl_spec by lia. f_equal. destruct (Z.eqb_spec c c1) as [->|Hn].
      - rewrite Z.add_simpl_r, Z.land_spec. f_equal. by destruct Hi as [->|[->|[->| ->]]].
      - rewrite Z.land_spec, andb_false_r. replace (Z.testbit 0x1111 (i + c - c1)) with false; [apply andb_false_r|]. symmetry.
        assert (exists d, i + c - c1 = i + d /\ (d = -3 \/ d = -2 \/ d = -1 \/ d = 1 \/ d = 2 \/ d = 3)) as (d & -> & Hd) by (exists (c - c1); lia).
        by destruct Hi as [->|[->|[->| ->]]], Hd as [->|[->|[->|[->|[->| ->]]]]]. }
    unfold bits_at. cbn [smap2 slice0 slice1 slice2 slice3 slice4 slice5 slice6 slice7]. rewrite !Hp.
    destruct (c =? c1); rewrite ?andb_true_r, ?andb_false_r, ?orb_false_r; reflexivity.
Qed.

Definition word_ok (w : list Z) : Prop := length w = 4%nat /\ is_bytes w.

Lemma word_ok_cases (w : list Z) : word_ok w -> exists a b c d, w = [a; b; c; d] /\ is_byte a /\ is_byte b /\ is_byte c /\ is_byte d.
Proof.
  intros [Hl Hb]. do 4 (destruct w as [|? w]; [done|]). destruct w; [|done]. repeat (apply list.Forall_cons in Hb as [? Hb]). by eexists _, _, _, _.
Qed.

Lemma xor_byte (a b : Z) : is_byte a -> is_byte b -> is_byte (a ^^ b).
Proof.
  intros Ha Hb. rewrite <- (val_of_byte a Ha), <- (val_of_byte b Hb), <- byte_val_xor. apply byte_val_range.
Qed.

Lemma xtime_byte (a : Z) : is_byte a -> is_byte (xtime a).
Proof. intros Ha. rewrite <- (val_of_byte a Ha), <- byte_val_xtime. apply byte_val_range. Qed.

Lemma rcon_byte (k : nat) : is_byte (Nat.iter k xtime 1).
Proof. induction k as [|k IH]; [done|]. by apply xtime_byte. Qed.

Lemma word_xor_ok (v w : list Z) : word_ok v -> word_ok w -> word_ok (word_xor v w).
Proof.
  intros Hv Hw. destruct (word_ok_cases v Hv) as (a & b & c & d & -> & ? & ? & ? & ?). destruct (word_ok_cases w Hw) as (e & f & g & h & -> & ? & ? & ? & ?).
  split; [done|]. repeat (apply is_bytes_cons; [by apply xor_byte|]). constructor.
Qed.

Lemma SubWord_ok (w : list Z) : word_ok w -> word_ok (SubWord w).
Proof.
  intros Hw. destruct (word_ok_cases w Hw) as (a & b & c & d & -> & ? & ? & ? & ?). split; [done|]. repeat (apply is_bytes_cons; [by apply circuit_of_byte|]). constructor.
Qed.

Lemma RotWord_ok (w : list Z) : word_ok w -> word_ok (RotWord w).
Proof.
  intros Hw. destruct (word_ok_cases w Hw) as (a & b & c & d & -> & ? & ? & ? & ?). split; [done|]. unfold RotWord. cbn [drop take app]. repeat (apply is_bytes_cons; [assumption|]). constructor.
Qed.

Lemma Rcon_ok (j : nat) : word_ok (Rcon j).
Proof. split; [done|]. apply is_bytes_cons; [apply rcon_byte|]. by apply is_bytes_of. Qed.

(** A column of slices that is a word. *)
Definition is_column (s : AES_state) (c : Z) (w : list Z) : Prop := forall r, (r < 4)%nat -> bits_at (4 * Z.of_nat r + c) s = of_byte (nth r w 0).

Ltac each_row r Hr := destruct r as [|[|[|[|r]]]]; [| | | |lia].

Lemma row_bit (r : nat) : (r < 4)%nat -> column_bit (4 * Z.of_nat r + 0).
Proof. intros Hr. unfold column_bit. lia. Qed.

Lemma sub_column (s : AES_state) (w : list Z) : wf s -> word_ok w -> is_column s 0 w -> wf (SubBytes s false) /\ is_column (SubBytes s false) 0 (SubWord w).
Proof.
  intros Hs Hw Hc. destruct (SubBytes_bits s false Hs) as [W B]. split; [exact W|]. intros r Hr. rewrite B, Hc by lia.
  destruct (word_ok_cases w Hw) as (a & b & c & d & -> & ? & ? & ? & ?). each_row r Hr; by apply circuit_of_byte.
Qed.

Lemma transform_column (s rcon : AES_state) (w : list Z) (j : nat) : wf s -> word_ok w -> is_column s 0 w -> wf rcon -> is_column rcon 0 (Rcon j) ->
  wf (KeySetupTransform s rcon) /\ is_column (KeySetupTransform s rcon) 0 (word_xor (RotWord w) (Rcon j)).
Proof.
  intros Hs Hw Hc _ Hr. destruct (Transform_bits s rcon Hs) as [W B]. split; [exact W|]. intros r Hlt. rewrite B by lia. rewrite Hr by exact Hlt.
  replace (down (4 * Z.of_nat r + 0) 1) with (4 * Z.of_nat ((r + 1) mod 4) + 0) by (each_row r Hlt; reflexivity).
  rewrite Hc by (by apply Nat.mod_upper_bound). destruct (word_ok_cases w Hw) as (a & b & c & d & -> & _). rewrite <- of_byte_xor. f_equal. each_row r Hlt; reflexivity.
Qed.

Lemma multx_column (rcon : AES_state) (j : nat) : (1 <= j)%nat -> wf rcon -> is_column rcon 0 (Rcon j) -> wf (MultX rcon) /\ is_column (MultX rcon) 0 (Rcon (S j)).
Proof.
  intros Hj Hw Hc. destruct (MultX_bits rcon Hw) as [W B]. split; [exact W|]. intros r Hr. rewrite B, Hc by exact Hr. unfold Rcon. replace (S j - 1)%nat with (S (j - 1)) by lia.
  each_row r Hr; [|reflexivity..]. pose proof (rcon_byte (j - 1)) as Hb. change (Nat.iter (S (j - 1)) xtime 1) with (xtime (Nat.iter (j - 1) xtime 1)).
  cbn [nth]. revert Hb. generalize (Nat.iter (j - 1) xtime 1). intros b Hb. by rewrite <- (val_of_byte b Hb) at 2; rewrite <- byte_val_xtime, of_byte_val.
Qed.

(** *** The loop *)

(** Before turn [i]: the words so far, the column of the last of them, the next
    round constant, and nothing yet behind them. *)
Record keyed (nk i pos : nat) (rcon column : AES_state) (rounds : list AES_state) (ws : list (list Z)) : Prop := mk_keyed {
  keyed_length : length ws = i;
  keyed_words : Forall word_ok ws;
  keyed_wf : Forall wf rounds;
  keyed_pos : pos = (i mod nk)%nat;
  keyed_done : forall j, (j < i)%nat -> is_column (nth (j / 4) rounds zero_state) (Z.of_nat (j mod 4)) (nth j ws []);
  keyed_zero : forall j, (i <= j)%nat -> is_column (nth (j / 4) rounds zero_state) (Z.of_nat (j mod 4)) [];
  keyed_column : wf column /\ is_column column 0 (nth (i - 1) ws []);
  keyed_rcon : wf rcon /\ is_column rcon 0 (Rcon ((i + nk - 1) / nk)) }.

Lemma keyed_word (nk i pos : nat) rcon column rounds ws (j : nat) : keyed nk i pos rcon column rounds ws -> (j < i)%nat -> word_ok (nth j ws []).
Proof. intros K Hj. destruct (lookup_lt_is_Some_2 ws j) as [w Hw]; [rewrite (keyed_length _ _ _ _ _ _ _ K); exact Hj|].
  rewrite (nth_lookup_Some _ _ _ _ Hw). by apply (Forall_lookup_1 _ _ _ _ (keyed_words _ _ _ _ _ _ _ K) Hw). Qed.

Lemma nth_wf (rounds : list AES_state) (m : nat) : Forall wf rounds -> wf (nth m rounds zero_state).
Proof. intros H. destruct (nth_in_or_default m rounds zero_state) as [Hin| ->]; [|apply zero_wf]. rewrite list.Forall_forall in H. by apply H, list_elem_of_In. Qed.

(** What is added to the word before it. *)
Definition temp_word (nk : nat) (ws : list (list Z)) : list Z :=
  let i := length ws in let temp := nth (i - 1) ws [] in
  if (i mod nk =? 0)%nat then word_xor (SubWord (RotWord temp)) (Rcon (i / nk))
  else if (6 <? nk)%nat && (i mod nk =? 4)%nat then SubWord temp else temp.

Lemma sub_rot (w : list Z) : SubWord (RotWord w) = RotWord (SubWord w).
Proof. unfold SubWord, RotWord. rewrite map_app. by destruct w. Qed.

(** The division that numbers the round constants. *)
Lemma rcon_number (nk i : nat) : (1 < nk)%nat -> (0 < i)%nat ->
  ((i mod nk = 0)%nat -> ((i + nk - 1) / nk = i / nk)%nat /\ ((S i + nk - 1) / nk = S (i / nk))%nat) /\
  ((i mod nk <> 0)%nat -> ((S i + nk - 1) / nk = (i + nk - 1) / nk)%nat).
Proof.
  intros Hk Hi. pose proof (Nat.div_mod_eq i nk) as E. pose proof (Nat.mod_upper_bound i nk ltac:(lia)) as Hm. split; intros H.
  - split.
    + symmetry. apply (Nat.div_unique _ _ _ (nk - 1)); lia.
    + symmetry. apply (Nat.div_unique _ _ _ 0); lia.
  - rewrite <- (Nat.div_unique (S i + nk - 1) nk (S (i / nk)) (i mod nk)) by lia. apply (Nat.div_unique _ _ _ (i mod nk - 1)); lia.
Qed.

Lemma setup_column (nk i pos : nat) rcon column rounds ws : (1 < nk)%nat -> (0 < i)%nat -> keyed nk i pos rcon column rounds ws ->
  let '(column', rcon') := if (pos =? 0)%nat then (KeySetupTransform (SubBytes column false) rcon, MultX rcon)
    else if (6 <? nk)%nat && (pos =? 4)%nat then (SubBytes column false, rcon) else (column, rcon) in
  wf column' /\ word_ok (temp_word nk ws) /\ is_column column' 0 (temp_word nk ws) /\ wf rcon' /\ is_column rcon' 0 (Rcon ((S i + nk - 1) / nk)).
Proof.
  intros Hk Hi K. destruct (keyed_column _ _ _ _ _ _ _ K) as [Wc Hc]. destruct (keyed_rcon _ _ _ _ _ _ _ K) as [Wr Hr]. pose proof (keyed_word _ _ _ _ _ _ _ (i - 1) K ltac:(lia)) as Hw.
  destruct (rcon_number nk i Hk Hi) as [R0 R1]. unfold temp_word. rewrite (keyed_length _ _ _ _ _ _ _ K), (keyed_pos _ _ _ _ _ _ _ K).
  destruct (sub_column column _ Wc Hw Hc) as [Ws Hs]. destruct (Nat.eqb_spec (i mod nk) 0) as [E0|E0].
  - destruct (R0 E0) as [E1 E2]. rewrite E1 in Hr. rewrite E2, sub_rot. pose proof (SubWord_ok _ Hw) as Hsw.
    destruct (transform_column _ rcon _ (i / nk) Ws Hsw Hs Wr Hr) as [Wt Ht].
    assert (1 <= i / nk)%nat by (pose proof (Nat.div_mod_eq i nk); destruct (i / nk)%nat; lia).
    split; [exact Wt|]. split; [apply word_xor_ok; [by apply RotWord_ok|apply Rcon_ok]|]. split; [exact Ht|]. by apply multx_column.
  - rewrite (R1 E0). destruct (_ && _); [by split; [|split; [apply SubWord_ok|]]|by split].
Qed.

Lemma nth_word_xor (v w : list Z) (r : nat) : word_ok v -> word_ok w -> (r < 4)%nat -> nth r (word_xor v w) 0 = nth r v 0 ^^ nth r w 0.
Proof.
  intros Hv Hw Hr. destruct (word_ok_cases v Hv) as (a & b & c & d & -> & _). destruct (word_ok_cases w Hw) as (e & f & g & h & -> & _). each_row r Hr; reflexivity.
Qed.

Lemma or_zero (v : slices bool) : vmap2 orb (of_byte 0) v = v.
Proof. by bool_cases v. Qed.

Lemma xor_comm (v w : slices bool) : vmap2 xorb v w = vmap2 xorb w v.
Proof. unfold vmap2. f_equal; apply xorb_comm. Qed.

(** The turn puts one column and leaves the others. *)
Lemma put_column (rounds : list AES_state) (r' : AES_state) (s' : AES_state) (i : nat) (w : list Z) : (i / 4 < length rounds)%nat -> is_column s' 0 w ->
  (forall b c, column_bit b -> 0 <= c < 4 -> bits_at (b + c) r' = if c =? Z.of_nat (i mod 4) then vmap2 orb (bits_at (b + c) (nth (i / 4) rounds zero_state)) (bits_at b s')
    else bits_at (b + c) (nth (i / 4) rounds zero_state)) ->
  (is_column (nth (i / 4) rounds zero_state) (Z.of_nat (i mod 4)) [] -> is_column (nth (i / 4) (<[(i / 4)%nat := r']> rounds) zero_state) (Z.of_nat (i mod 4)) w) /\
  (forall j x, j <> i -> is_column (nth (j / 4) rounds zero_state) (Z.of_nat (j mod 4)) x -> is_column (nth (j / 4) (<[(i / 4)%nat := r']> rounds) zero_state) (Z.of_nat (j mod 4)) x).
Proof.
  intros Hl Hw Hr. assert (nth (i / 4) (<[(i / 4)%nat := r']> rounds) zero_state = r') as Hn by (apply nth_lookup_Some; rewrite list_lookup_insert_eq by exact Hl; reflexivity).
  assert (forall j, 0 <= Z.of_nat (j mod 4) < 4) as Hm by (intros j; pose proof (Nat.mod_upper_bound j 4 ltac:(lia)); lia). split.
  - intros Hz r Hlt. rewrite Hn. replace (4 * Z.of_nat r + _) with (4 * Z.of_nat r + 0 + Z.of_nat (i mod 4)) by lia. rewrite Hr by (by apply row_bit || by apply Hm).
    rewrite Z.eqb_refl, Z.add_0_r, (Hz r Hlt). replace (4 * Z.of_nat r) with (4 * Z.of_nat r + 0) by lia. rewrite (Hw r Hlt). destruct r; apply or_zero.
  - intros j x Hj Hx r Hlt. destruct (Nat.eq_dec (j / 4) (i / 4)) as [E|E].
    + assert (j mod 4 <> i mod 4)%nat as Hne by (intros Em; apply Hj; rewrite (Nat.div_mod_eq j 4), (Nat.div_mod_eq i 4), E, Em; reflexivity).
      rewrite <- (Hx r Hlt), E, Hn. replace (4 * Z.of_nat r + _) with (4 * Z.of_nat r + 0 + Z.of_nat (j mod 4)) by lia. rewrite Hr by (by apply row_bit || by apply Hm).
      by rewrite (proj2 (Z.eqb_neq _ _)) by lia.
    + rewrite <- (Hx r Hlt). f_equal. by rewrite !nth_lookup, list_lookup_insert_ne by congruence.
Qed.

Lemma next_pos (nk i : nat) : (1 < nk)%nat -> (if (S (i mod nk) =? nk)%nat then 0%nat else S (i mod nk)) = (S i mod nk)%nat.
Proof.
  intros Hk. pose proof (Nat.div_mod_eq i nk) as E. pose proof (Nat.mod_upper_bound i nk ltac:(lia)) as Hm. destruct (Nat.eqb_spec (S (i mod nk)) nk) as [H|H].
  - apply (Nat.mod_unique _ _ (S (i / nk))); lia.
  - apply (Nat.mod_unique _ _ (i / nk)); lia.
Qed.

Lemma nth_snoc {A} (l : list A) (x d : A) (j : nat) : nth j (l ++ [x]) d = if (j =? length l)%nat then x else nth j l d.
Proof.
  destruct (Nat.eqb_spec j (length l)) as [->|Hn]; [apply nth_middle|]. destruct (Nat.lt_ge_cases j (length l)) as [H|H]; [by apply app_nth1|].
  rewrite !nth_overflow; [done|lia|]. rewrite length_app. cbn. lia.
Qed.

Lemma setup_turn (nk i pos : nat) rcon column rounds ws : (1 < nk <= i)%nat -> (i / 4 < length rounds)%nat -> keyed nk i pos rcon column rounds ws ->
  let '(column, rcon) := if (pos =? 0)%nat then (KeySetupTransform (SubBytes column false) rcon, MultX rcon)
    else if (6 <? nk)%nat && (pos =? 4)%nat then (SubBytes column false, rcon) else (column, rcon) in
  let '(column, r) := KeySetupColumnMix column (nth (i / 4) rounds zero_state) (nth ((i - nk) / 4) rounds zero_state) (Z.of_nat (i mod 4)) (Z.of_nat ((i - nk) mod 4)) in
  keyed nk (S i) (if (S pos =? nk)%nat then 0%nat else S pos) rcon column (<[(i / 4)%nat := r]> rounds) (ws ++ [next_word nk ws]).
Proof.
  intros Hk Hl K. pose proof (setup_column nk i pos rcon column rounds ws ltac:(lia) ltac:(lia) K) as H.
  destruct (if (pos =? 0)%nat then _ else _) as [column1 rcon1]. destruct H as (Wc & Ht & Hc & Wr & Hr).
  pose proof (ColumnMix_bits column1 (nth (i / 4) rounds zero_state) (nth ((i - nk) / 4) rounds zero_state) (Z.of_nat (i mod 4)) (Z.of_nat ((i - nk) mod 4)) Wc
    ltac:(pose proof (Nat.mod_upper_bound i 4 ltac:(lia)); lia)) as M. destruct (KeySetupColumnMix _ _ _ _ _) as [s' r']. destruct M as (Ws & Wr' & Hs & Hr').
  pose proof (keyed_length _ _ _ _ _ _ _ K) as Hlen. pose proof (keyed_word _ _ _ _ _ _ _ (i - nk) K ltac:(lia)) as Hold.
  assert (next_word nk ws = word_xor (nth (i - nk) ws []) (temp_word nk ws)) as Hw by (by rewrite <- Hlen).
  assert (is_column s' 0 (next_word nk ws)) as Hcol.
  { intros r Hlt. rewrite (Hs _ (row_bit r Hlt)), (Hc r Hlt), Hw, (nth_word_xor _ _ r Hold Ht Hlt), of_byte_xor, xor_comm. f_equal.
    rewrite <- (keyed_done _ _ _ _ _ _ _ K (i - nk) ltac:(lia) r Hlt). f_equal. lia. }
  destruct (put_column rounds r' s' i _ Hl Hcol Hr') as [Hput Hkeep]. split.
  - rewrite length_app. cbn. lia.
  - apply Forall_app_2; [apply (keyed_words _ _ _ _ _ _ _ K)|]. constructor; [|constructor]. rewrite Hw. by apply word_xor_ok.
  - apply Forall_insert; [apply (keyed_wf _ _ _ _ _ _ _ K)|exact Wr'].
  - rewrite (keyed_pos _ _ _ _ _ _ _ K). apply next_pos. lia.
  - intros j Hj. rewrite nth_snoc, Hlen. destruct (Nat.eqb_spec j i) as [->|Hn]; [apply Hput, (keyed_zero _ _ _ _ _ _ _ K); lia|].
    apply Hkeep, (keyed_done _ _ _ _ _ _ _ K); lia.
  - intros j Hj. apply Hkeep, (keyed_zero _ _ _ _ _ _ _ K); lia.
  - split; [exact Ws|]. replace (S i - 1)%nat with i by lia. by rewrite nth_snoc, Hlen, Nat.eqb_refl.
  - by split.
Qed.

Lemma setup_turns (nk : nat) (Hk : (1 < nk)%nat) : forall n i pos rcon column rounds ws, (nk <= i)%nat -> (i + n <= 4 * length rounds)%nat -> keyed nk i pos rcon column rounds ws ->
  length (setup_loop n i pos nk rcon column rounds) = length rounds /\
  exists pos' rcon' column', keyed nk (i + n) pos' rcon' column' (setup_loop n i pos nk rcon column rounds) (Nat.iter n (fun ws => ws ++ [next_word nk ws]) ws).
Proof.
  induction n as [|n IH]; intros i pos rcon column rounds ws Hi Hn K; [cbn; rewrite Nat.add_0_r; split; [done|by eexists _, _, _]|].
  pose proof (setup_turn nk i pos rcon column rounds ws ltac:(lia) ltac:(apply Nat.Div0.div_lt_upper_bound; lia) K) as T. cbn [setup_loop].
  destruct (if (pos =? 0)%nat then _ else _) as [column1 rcon1]. destruct (KeySetupColumnMix _ _ _ _ _) as [s' r'].
  rewrite Nat.iter_succ_r, Nat.add_succ_r. rewrite <- (length_insert rounds (i / 4) r') at 1. apply IH; [lia|rewrite length_insert; lia|exact T].
Qed.

(** *** The key *)

Lemma load_nth (key : list Z) (m : nat) (ks : list nat) : forall rounds, (m < length rounds)%nat ->
  nth m (fold_left (fun rounds k => alter (fun s => LoadByte s (nth k key 0) (row k) (Z.of_nat (k / 4 mod 4))) (k / 16)%nat rounds) ks rounds) zero_state =
  fold_left (fun s k => if (k / 16 =? m)%nat then LoadByte s (nth k key 0) (row k) (Z.of_nat (k / 4 mod 4)) else s) ks (nth m rounds zero_state).
Proof.
  induction ks as [|k ks IH]; intros rounds Hm; [done|]. cbn [fold_left]. rewrite IH by (by rewrite length_alter). f_equal. rewrite !nth_lookup.
  destruct (lookup_lt_is_Some_2 rounds m Hm) as [s Hs]. destruct (Nat.eqb_spec (k / 16) m) as [E|E].
  - by rewrite <- E in Hs |- *; rewrite list_lookup_alter_eq, Hs.
  - by rewrite list_lookup_alter_ne by exact E.
Qed.

Lemma load_key_fold (key : list Z) (m : nat) (ks : list nat) (i : Z) : 0 <= i < 16 -> forall s,
  bits_at i (fold_left (fun s k => if (k / 16 =? m)%nat then LoadByte s (nth k key 0) (row k) (Z.of_nat (k / 4 mod 4)) else s) ks s) =
  fold_left (fun v k => if (k / 16 =? m)%nat && (i =? row k * 4 + Z.of_nat (k / 4 mod 4)) then vmap2 orb v (of_byte (nth k key 0)) else v) ks (bits_at i s).
Proof.
  intros Hi. induction ks as [|k ks IH]; intros s; [done|]. cbn [fold_left]. rewrite IH. f_equal. destruct (_ =? m)%nat; [|done]. cbn [andb]. apply LoadByte_bits; [| |exact Hi].
  - unfold row. pose proof (Nat.mod_upper_bound k 4 ltac:(lia)). lia.
  - pose proof (Nat.mod_upper_bound (k / 4) 4 ltac:(lia)). lia.
Qed.

Lemma fold_one {A} (p : nat -> bool) (g : A -> nat -> A) (k0 : nat) : (forall k, p k = (k =? k0)%nat) -> forall n v,
  fold_left (fun v k => if p k then g v k else v) (seq 0 n) v = if (k0 <? n)%nat then g v k0 else v.
Proof.
  intros Hp. induction n as [|n IH]; intros v; [done|]. rewrite seq_S, fold_left_app, IH. cbn [fold_left]. rewrite Nat.add_0_l, Hp.
  destruct (Nat.ltb_spec k0 n), (Nat.ltb_spec k0 (S n)), (Nat.eqb_spec n k0); try lia; by subst.
Qed.

Lemma key_place (j r k : nat) : (r < 4)%nat -> ((k / 16 =? j / 4)%nat && (4 * Z.of_nat r + Z.of_nat (j mod 4) =? row k * 4 + Z.of_nat (k / 4 mod 4))) = (k =? 4 * j + r)%nat.
Proof.
  intros Hr. unfold row. replace (k / 16)%nat with (k / 4 / 4)%nat by (rewrite Nat.Div0.div_div; done).
  pose proof (Nat.div_mod_eq k 4). pose proof (Nat.div_mod_eq (k / 4) 4). pose proof (Nat.div_mod_eq j 4).
  pose proof (Nat.mod_upper_bound k 4 ltac:(lia)). pose proof (Nat.mod_upper_bound (k / 4) 4 ltac:(lia)). pose proof (Nat.mod_upper_bound j 4 ltac:(lia)).
  destruct (Nat.eqb_spec (k / 4 / 4) (j / 4)), (Z.eqb_spec (4 * Z.of_nat r + Z.of_nat (j mod 4)) (Z.of_nat (k mod 4) * 4 + Z.of_nat (k / 4 mod 4))), (Nat.eqb_spec k (4 * j + r)); cbn [andb]; lia || reflexivity.
Qed.

Lemma load_key_column (key : list Z) (nk n j : nat) : (j / 4 < n)%nat ->
  is_column (nth (j / 4) (load_key (replicate n zero_state) key nk) zero_state) (Z.of_nat (j mod 4)) (if (j <? nk)%nat then take 4 (drop (4 * j) key) else []).
Proof.
  intros Hj r Hr. unfold load_key. rewrite load_nth by (by rewrite length_replicate). pose proof (Nat.mod_upper_bound j 4 ltac:(lia)). rewrite load_key_fold by lia.
  rewrite (fold_one _ _ (4 * j + r)) by (intros k; by apply key_place). rewrite nth_lookup, lookup_replicate_2 by exact Hj.
  replace (bits_at _ _) with (of_byte 0) by (unfold bits_at, zero_state; cbn; by rewrite !Z.testbit_0_l).
  destruct (Nat.ltb_spec (4 * j + r) (4 * nk)), (Nat.ltb_spec j nk); try lia; [|by destruct r].
  rewrite or_zero. f_equal. rewrite !nth_lookup, lookup_take_lt, lookup_drop by exact Hr. done.
Qed.

Lemma load_key_wf (key : list Z) (ks : list nat) : forall rounds, Forall wf rounds ->
  Forall wf (fold_left (fun rounds k => alter (fun s => LoadByte s (nth k key 0) (row k) (Z.of_nat (k / 4 mod 4))) (k / 16)%nat rounds) ks rounds) /\
  length (fold_left (fun rounds k => alter (fun s => LoadByte s (nth k key 0) (row k) (Z.of_nat (k / 4 mod 4))) (k / 16)%nat rounds) ks rounds) = length rounds.
Proof.
  induction ks as [|k ks IH]; intros rounds Hw; [done|]. cbn [fold_left]. rewrite <- (length_alter (fun s => LoadByte s (nth k key 0) (row k) (Z.of_nat (k / 4 mod 4))) rounds (k / 16)).
  apply IH. apply Forall_alter; [exact Hw|]. intros x _ _. apply LoadByte_wf.
Qed.

Lemma key_words_ok (key : list Z) (nk : nat) : is_bytes key -> length key = (4 * nk)%nat -> Forall word_ok (key_words key nk).
Proof.
  intros Hb Hl. apply list.Forall_forall. intros w Hw. apply list_elem_of_In, in_map_iff in Hw as (j & <- & Hj). apply in_seq in Hj. split.
  - rewrite length_take, length_drop. lia.
  - by apply Forall_take, Forall_drop.
Qed.

Lemma key_words_nth (key : list Z) (nk j : nat) : (j < nk)%nat -> nth j (key_words key nk) [] = take 4 (drop (4 * j) key).
Proof.
  intros Hj. unfold key_words. rewrite (nth_indep _ [] (take 4 (drop (4 * 0) key))) by (by rewrite length_map, length_seq).
  rewrite (map_nth (fun i => take 4 (drop (4 * i) key))), seq_nth by exact Hj. done.
Qed.

Lemma zero_column (c : Z) : is_column zero_state c [].
Proof. intros r Hr. unfold bits_at, zero_state. cbn [slice0 slice1 slice2 slice3 slice4 slice5 slice6 slice7]. rewrite !Z.testbit_0_l. by destruct r. Qed.

Lemma keyed_start (key : list Z) (nk nr : nat) : (1 < nk <= 4 * (nr + 1))%nat -> is_bytes key -> length key = (4 * nk)%nat ->
  let rounds := load_key (replicate (nr + 1) zero_state) key nk in
  length rounds = (nr + 1)%nat /\
  keyed nk nk 0 (mk_slices 1 0 0 0 0 0 0 0) (GetOneColumn (nth ((nk - 1) / 4) rounds zero_state) (Z.of_nat ((nk - 1) mod 4))) rounds (key_words key nk).
Proof.
  intros Hk Hb Hl rounds. destruct (load_key_wf key (seq 0 (4 * nk)) (replicate (nr + 1) zero_state)) as [Hw Hlen].
  { apply Forall_replicate, zero_wf. }
  fold (load_key (replicate (nr + 1) zero_state) key nk) in Hw, Hlen. fold rounds in Hw, Hlen. rewrite length_replicate in Hlen.
  assert (forall j, (j < nk)%nat -> is_column (nth (j / 4) rounds zero_state) (Z.of_nat (j mod 4)) (nth j (key_words key nk) [])) as Hdone.
  { intros j Hj. pose proof (load_key_column key nk (nr + 1) j ltac:(apply Nat.Div0.div_lt_upper_bound; lia)) as H. rewrite (proj2 (Nat.ltb_lt j nk) Hj) in H.
    by rewrite key_words_nth. }
  split; [exact Hlen|]. split.
  - unfold key_words. by rewrite length_map, length_seq.
  - by apply key_words_ok.
  - exact Hw.
  - symmetry. apply Nat.Div0.mod_same.
  - exact Hdone.
  - intros j Hj. destruct (Nat.lt_ge_cases (j / 4) (nr + 1)) as [H|H]; [|rewrite nth_overflow by lia; apply zero_column].
    pose proof (load_key_column key nk (nr + 1) j H) as C. by rewrite (proj2 (Nat.ltb_ge j nk) Hj) in C.
  - destruct (GetOneColumn_bits (nth ((nk - 1) / 4) rounds zero_state) (Z.of_nat ((nk - 1) mod 4))) as [W B]. split; [exact W|]. intros r Hr.
    rewrite (B _ (row_bit r Hr)), <- (Hdone (nk - 1)%nat ltac:(lia) r Hr). f_equal. lia.
  - split; [by repeat split|]. rewrite <- (Nat.div_unique (nk + nk - 1) nk 1 (nk - 1)) by lia. intros r Hr. each_row r Hr; reflexivity.
Qed.

Lemma key_four_words (ws : list (list Z)) (n : nat) : (n + 4 <= length ws)%nat ->
  take 4 (drop n ws) = [nth n ws []; nth (n + 1) ws []; nth (n + 2) ws []; nth (n + 3) ws []].
Proof.
  intros H. destruct (drop n ws) as [|a [|b [|c [|d l]]]] eqn:E; pose proof (f_equal length E) as El; rewrite length_drop in El; cbn in El; try lia.
  assert (forall j, nth (n + j) ws [] = nth j (a :: b :: c :: d :: l) []) as Hn by (intros j; by rewrite <- E, !nth_lookup, lookup_drop).
  rewrite <- (Nat.add_0_r n) at 1. by rewrite !Hn.
Qed.

(** The round keys of the code hold the words of the schedule. *)
Lemma keyed_round (nk i pos : nat) rcon column rounds ws (m : nat) : keyed nk i pos rcon column rounds ws -> (4 * m + 4 <= i)%nat ->
  SaveBytes (nth m rounds zero_state) = round_key ws m.
Proof.
  intros K Hm. unfold round_key. rewrite key_four_words by (rewrite (keyed_length _ _ _ _ _ _ _ K); lia). rewrite SaveBytes_tab.
  assert (forall c, (c < 4)%nat -> exists w0 w1 w2 w3, nth (4 * m + c) ws [] = [w0; w1; w2; w3] /\ byte_at (nth m rounds zero_state) 0 c = w0 /\
    byte_at (nth m rounds zero_state) 1 c = w1 /\ byte_at (nth m rounds zero_state) 2 c = w2 /\ byte_at (nth m rounds zero_state) 3 c = w3) as Hc.
  { intros c Hlt. pose proof (keyed_word _ _ _ _ _ _ _ (4 * m + c) K ltac:(lia)) as Hw. pose proof (keyed_done _ _ _ _ _ _ _ K (4 * m + c) ltac:(lia)) as Hd.
    rewrite <- (Nat.div_unique (4 * m + c) 4 m c), <- (Nat.mod_unique (4 * m + c) 4 m c) in Hd by lia.
    destruct (word_ok_cases _ Hw) as (w0 & w1 & w2 & w3 & E & ? & ? & ? & ?). exists w0, w1, w2, w3. split; [exact E|]. rewrite E in Hd.
    assert (forall r, (r < 4)%nat -> is_byte (nth r [w0; w1; w2; w3] 0) -> byte_at (nth m rounds zero_state) r c = nth r [w0; w1; w2; w3] 0) as Hr; [|repeat split; apply Hr; lia || assumption].
    intros r Hr Hb. unfold byte_at. replace (Z.of_nat (4 * r + c)) with (4 * Z.of_nat r + Z.of_nat c) by lia. rewrite (Hd r Hr). by apply val_of_byte. }
  destruct (Hc 0%nat ltac:(lia)) as (? & ? & ? & ? & E0 & ? & ? & ? & ?). destruct (Hc 1%nat ltac:(lia)) as (? & ? & ? & ? & E1 & ? & ? & ? & ?).
  destruct (Hc 2%nat ltac:(lia)) as (? & ? & ? & ? & E2 & ? & ? & ? & ?). destruct (Hc 3%nat ltac:(lia)) as (? & ? & ? & ? & E3 & ? & ? & ? & ?).
  rewrite Nat.add_0_r in E0. rewrite E0, E1, E2, E3. unfold tabulate. cbn [map seq concat app Nat.modulo Nat.div Nat.divmod fst snd Nat.sub]. congruence.
Qed.

(** Key sizes of the three variants. *)
Definition key_size (nk nr : nat) : Prop := (nk = 4 /\ nr = 10)%nat \/ (nk = 6 /\ nr = 12)%nat \/ (nk = 8 /\ nr = 14)%nat.

Lemma setup_words (key : list Z) (nk nr : nat) : key_size nk nr -> is_bytes key -> length key = (4 * nk)%nat ->
  keys_wf (AES_setup key nk nr) nr /\ forall m, (m <= nr)%nat -> SaveBytes (nth m (AES_setup key nk nr) zero_state) = round_key (KeyExpansion key nk nr) m.
Proof.
  intros Hsz Hb Hl. destruct (keyed_start key nk nr ltac:(destruct Hsz as [|[|]]; lia) Hb Hl) as [Hlen K].
  destruct (setup_turns nk ltac:(destruct Hsz as [|[|]]; lia) (4 * (nr + 1) - nk) nk 0 _ _ _ _ (le_n nk) ltac:(rewrite Hlen; destruct Hsz as [|[|]]; lia) K) as (Hlen' & pos & rcon & column & K').
  unfold AES_setup. cbv zeta. replace (nk + (4 * (nr + 1) - nk))%nat with (4 * (nr + 1))%nat in K' by (destruct Hsz as [|[|]]; lia). split.
  - intros m Hm. apply nth_wf, (keyed_wf _ _ _ _ _ _ _ K').
  - intros m Hm. unfold KeyExpansion. apply (keyed_round _ _ _ _ _ _ _ m K'). lia.
Qed.

(** One block of the cipher, there and back. *)
Lemma setup_encrypt (key plain : list Z) (nk nr : nat) : key_size nk nr -> is_bytes key -> length key = (4 * nk)%nat -> is_bytes plain -> length plain = 16%nat ->
  AES_encrypt (AES_setup key nk nr) nr plain = Cipher (KeyExpansion key nk nr) nr plain.
Proof. intros Hsz Hb Hl Hp Hlp. destruct (setup_words key nk nr Hsz Hb Hl) as [Hw Hs]. apply encrypt_cipher; done. Qed.

Lemma setup_decrypt (key plain : list Z) (nk nr : nat) : key_size nk nr -> is_bytes key -> length key = (4 * nk)%nat -> is_bytes plain -> length plain = 16%nat ->
  AES_decrypt (AES_setup key nk nr) nr (AES_encrypt (AES_setup key nk nr) nr plain) = plain.
Proof. intros Hsz Hb Hl Hp Hlp. destruct (setup_words key nk nr Hsz Hb Hl) as [Hw Hs]. apply decrypt_encrypt; try done. destruct Hsz as [|[|]]; lia. Qed.

Lemma SaveBytes_block (s : AES_state) : length (SaveBytes s) = 16%nat /\ is_bytes (SaveBytes s).
Proof.
  rewrite SaveBytes_tab. split; [done|]. apply list.Forall_forall. intros b Hb. apply list_elem_of_In, in_map_iff in Hb as (k & <- & _). apply byte_val_range.
Qed.

(** Several blocks, each for itself. *)
Definition ecb (f : list Z -> list Z) (blocks : nat) (data : list Z) : list Z := concat (map (fun j => f (take 16 (drop (16 * j) data))) (seq 0 blocks)).

Lemma on_blocks_ecb (f g : list Z -> list Z) : (forall p, is_bytes p -> length p = 16%nat -> f p = g p) -> forall blocks data,
  is_bytes data -> length data = (16 * blocks)%nat -> on_blocks f blocks data = ecb g blocks data.
Proof.
  intros Hf. induction blocks as [|n IH]; intros data Hb Hl; [done|]. unfold ecb. cbn [on_blocks seq map concat]. rewrite Nat.mul_0_r, drop_0. f_equal.
  - apply Hf; [by apply is_bytes_take|]. rewrite length_take. lia.
  - rewrite IH by (by apply is_bytes_drop || (rewrite length_drop; lia)). unfold ecb. rewrite <- seq_shift, map_map. f_equal. apply map_ext. intros j. rewrite drop_drop. do 3 f_equal. lia.
Qed.

Lemma on_blocks_inverse (f g : list Z -> list Z) : (forall p, is_bytes p -> length p = 16%nat -> length (f p) = 16%nat /\ g (f p) = p) -> forall blocks data,
  is_bytes data -> length data = (16 * blocks)%nat -> on_blocks g blocks (on_blocks f blocks data) = data.
Proof.
  intros Hf. induction blocks as [|n IH]; intros data Hb Hl; [by destruct data|]. cbn [on_blocks].
  destruct (Hf (take 16 data)) as [Hlen Hg]; [by apply is_bytes_take|rewrite length_take; lia|].
  rewrite take_app_length', drop_app_length' by (symmetry; exact Hlen). rewrite Hg, IH by (by apply is_bytes_drop || (rewrite length_drop; lia)). apply take_drop.
Qed.

(** C25: on keys of 128, 192 and 256 bits the bit-sliced code is AES: for every
    number of blocks [AES_setup] followed by [AES_encrypt] on each gives the
    cipher of FIPS 197 under the key schedule of FIPS 197 (S-box as the inverse
    in the field followed by the affine map), and [AES_decrypt] takes the blocks
    back.  [AES128_encrypt] and the others are these at their sizes. *)
Theorem aes_fips (key data : list Z) (nk nr blocks : nat) (Hsz : key_size nk nr) (Hk : is_bytes key) (Hlk : length key = (4 * nk)%nat)
  (Hd : is_bytes data) (Hld : length data = (16 * blocks)%nat) :
  let rk := AES_setup key nk nr in let c := on_blocks (AES_encrypt rk nr) blocks data in
  c = ecb (Cipher (KeyExpansion key nk nr) nr) blocks data /\ on_blocks (AES_decrypt rk nr) blocks c = data.
Proof.
  intros rk c. split.
  - apply on_blocks_ecb; [|exact Hd|exact Hld]. intros p Hp Hlp. by apply setup_encrypt.
  - apply on_blocks_inverse; [|exact Hd|exact Hld]. intros p Hp Hlp. split; [apply SaveBytes_block|by apply setup_decrypt].
Qed.

Lemma aes_fips_witness : AES256_decrypt (AES256_init (fips_key 32)) 2 (AES256_encrypt (AES256_init (fips_key 32)) 2 (fips_plain ++ fips_key 16)) = fips_plain ++ fips_key 16 /\
  AES256_encrypt (AES256_init (fips_key 32)) 2 (fips_plain ++ fips_key 16) = ecb (Cipher (KeyExpansion (fips_key 32) 8 14) 14) 2 (fips_plain ++ fips_key 16).
Proof.
  destruct (aes_fips (fips_key 32) (fips_plain ++ fips_key 16) 8 14 2) as [E D];
    [right; right; by split|by apply is_bytes_of|reflexivity|by apply is_bytes_of|reflexivity|]. split; [exact D|exact E].
Defined.
