(* ===== verification/AesCbc.v ===== *)
(** * aes256_cbc.c: AES-256 in CBC mode, with and without padding

    [data] is the readable memory at the source pointer, [out] the writable
    memory at the target pointer, [None] a null pointer; the two do not overlap.
    An access outside them is [None].  [size] and the results are C [int]s, which
    do not overflow while [size + 16 < 2^31]. *)

From S2P Require Import Prelude.
From S2P Require Import Aes.
From S2P Require Import AesSpec.

Definition AES_BLOCK_SIZE : Z := 16.

(** [mixed[i] ^= *data++] for [n] bytes from [i = 0] on. *)
Definition mix_data (mixed : list Z) (n : Z) (data : list Z) : option (list Z * list Z) :=
  if (0 <=? n) && (n <=? zlen mixed) && (n <=? zlen data) then
    Some (zip_with Z.lxor (ztake n mixed) data ++ zdrop n mixed, zdrop n data)
  else None.

Fixpoint cbc_encrypt_loop (fuel : nat) (aes_ctx : list AES_state) (size written : Z) (mixed data out : list Z) : option (Z * list Z * list Z * list Z) :=
  match fuel with
  | O => None
  | S fuel =>
      if written + AES_BLOCK_SIZE <=? size then
        '(mixed, data) ← mix_data mixed AES_BLOCK_SIZE data;
        let mixed := AES256_encrypt aes_ctx 1 mixed in
        out ← zwrite out written mixed;
        cbc_encrypt_loop fuel aes_ctx size (written + AES_BLOCK_SIZE) mixed data out
      else Some (written, mixed, data, out)
  end.

(** The last block, with the padding. *)
Definition encrypt_pad (aes_ctx : list AES_state) (padsize written : Z) (mixed data out : list Z) : option (Z * list Z) :=
  '(mixed, data) ← mix_data mixed padsize data;
  let mixed := ztake padsize mixed ++ map (fun m => Z.lxor m (AES_BLOCK_SIZE - padsize)) (zdrop padsize mixed) in
  out ← zwrite out written (AES256_encrypt aes_ctx 1 mixed);
  Some (written + AES_BLOCK_SIZE, out).

(** The result and the memory at [out]. *)
Definition aes256_cbc_encrypt (aes_key iv : list Z) (data : option (list Z)) (size : Z) (pad : bool) (out : option (list Z)) : option (Z * option (list Z)) :=
  let padsize := Z.rem size AES_BLOCK_SIZE in
  match data, out with
  | Some data, Some mem =>
      if size =? 0 then Some (0, out) else
      if negb pad && negb (padsize =? 0) then Some (0, out) else
      let aes_ctx := AES256_init aes_key in
      '(written, mixed, data, mem) ← cbc_encrypt_loop (S (Z.to_nat size)) aes_ctx size 0 (take 16 iv) data mem;
      if pad then '(written, mem) ← encrypt_pad aes_ctx padsize written mixed data mem; Some (written, Some mem)
      else Some (written, Some mem)
  | _, _ => Some (0, out)
  end.

Fixpoint cbc_decrypt_loop (fuel : nat) (aes_ctx : list AES_state) (size written : Z) (prev data out : list Z) : option (Z * list Z) :=
  match fuel with
  | O => None
  | S fuel =>
      if written =? size then Some (written, out) else
      if zlen data <? written + AES_BLOCK_SIZE then None else
      let block := ztake AES_BLOCK_SIZE (zdrop written data) in
      out ← zwrite out written (zip_with Z.lxor (AES256_decrypt aes_ctx 1 block) prev);
      cbc_decrypt_loop fuel aes_ctx size (written + AES_BLOCK_SIZE) block data out
  end.

(** The check of the padding runs over the last sixteen bytes, from the last on;
    [i] counts down from sixteen. *)
Fixpoint pad_loop (i : nat) (padsize : Z) (fail : bool) (out : list Z) (at_ : Z) : option bool :=
  match i with
  | O => Some fail
  | S j =>
      b ← zget out at_;
      pad_loop j padsize (fail || ((AES_BLOCK_SIZE - padsize <? Z.of_nat i) && negb (b =? padsize))) out (at_ - 1)
  end.

Definition aes256_cbc_decrypt (aes_key iv : list Z) (data : option (list Z)) (size : Z) (pad : bool) (out : option (list Z)) : option (Z * option (list Z)) :=
  match data, out with
  | Some data, Some mem =>
      if size =? 0 then Some (0, out) else
      if negb (Z.rem size AES_BLOCK_SIZE =? 0) then Some (0, out) else
      let aes_ctx := AES256_init aes_key in
      '(written, mem) ← cbc_decrypt_loop (S (Z.to_nat size)) aes_ctx size 0 (take 16 iv) data mem;
      if pad then
        padsize ← zget mem (written - 1);
        let fail := (padsize =? 0) || (AES_BLOCK_SIZE <? padsize) in
        let padsize := padsize * Z.b2z (negb fail) in
        fail ← pad_loop 16 padsize fail mem (written - 1);
        let written := written - padsize in
        Some (written * Z.b2z (negb fail), Some mem)
      else Some (written, Some mem)
  | _, _ => Some (0, out)
  end.

(** ** Reference *)

Definition xor (a b : list Z) : list Z := zip_with Z.lxor a b.

(** [n] blocks, each mixed with the cipher text of the one before. *)
Fixpoint cbc_enc (E : list Z -> list Z) (n : nat) (prev data : list Z) : list Z :=
  match n with
  | O => []
  | S n => let c := E (xor prev (take 16 data)) in c ++ cbc_enc E n c (drop 16 data)
  end.
Fixpoint cbc_dec (D : list Z -> list Z) (n : nat) (prev data : list Z) : list Z :=
  match n with
  | O => []
  | S n => let c := take 16 data in xor (D c) prev ++ cbc_dec D n c (drop 16 data)
  end.
(** The block that the next one is mixed with. *)
Fixpoint cbc_last (E : list Z -> list Z) (n : nat) (prev data : list Z) : list Z :=
  match n with
  | O => prev
  | S n => cbc_last E n (E (xor prev (take 16 data))) (drop 16 data)
  end.

Definition pkcs7 (m : list Z) : list Z := let k := (16 - length m mod 16)%nat in m ++ replicate k (Z.of_nat k).

Definition aes256 (key : list Z) : list Z -> list Z := Cipher (KeyExpansion key 8 14) 14.

(** ** Blocks *)

Definition block (p : list Z) : Prop := is_bytes p /\ length p = 16%nat.

Lemma xor_block (a b : list Z) : block a -> block b -> block (xor a b).
Proof.
  intros [Ha La] [Hb Lb]. split; [|unfold xor; rewrite length_zip_with; lia]. unfold xor. clear La Lb. revert b Hb. induction Ha as [|x a Hx Ha IH]; intros b Hb; [constructor|].
  destruct Hb as [|y b Hy Hb]; [constructor|]. cbn. apply is_bytes_cons; [by apply xor_byte|by apply IH].
Qed.

Lemma xor_cancel (a b : list Z) : length a = length b -> xor (xor a b) a = b.
Proof.
  unfold xor. revert b. induction a as [|x a IH]; intros [|y b] H; try done. cbn. f_equal; [|apply IH; cbn in H; lia].
  by rewrite Z.lxor_comm, <- Z.lxor_assoc, Z.lxor_nilpotent, Z.lxor_0_l.
Qed.

Lemma xor_app (a b c d : list Z) : length a = length c -> xor (a ++ b) (c ++ d) = xor a c ++ xor b d.
Proof. intros H. unfold xor. by rewrite zip_with_app. Qed.

Lemma take_block (n : nat) (data : list Z) : is_bytes data -> length data = (16 * S n)%nat -> block (take 16 data) /\ is_bytes (drop 16 data) /\ length (drop 16 data) = (16 * n)%nat.
Proof. intros Hb Hl. rewrite length_drop. split; [split; [by apply is_bytes_take|rewrite length_take; lia]|]. split; [by apply is_bytes_drop|lia]. Qed.

Lemma encrypt_one (ctx : list AES_state) (p : list Z) : length p = 16%nat -> AES256_encrypt ctx 1 p = AES_encrypt ctx 14 p.
Proof. intros H. unfold AES256_encrypt. cbn [on_blocks]. by rewrite app_nil_r, firstn_all2 by lia. Qed.

Lemma decrypt_one (ctx : list AES_state) (p : list Z) : length p = 16%nat -> AES256_decrypt ctx 1 p = AES_decrypt ctx 14 p.
Proof. intros H. unfold AES256_decrypt. cbn [on_blocks]. by rewrite app_nil_r, firstn_all2 by lia. Qed.

Lemma encrypt_block (ctx : list AES_state) (p : list Z) : block (AES_encrypt ctx 14 p).
Proof. unfold AES_encrypt. cbv zeta. match goal with |- block (SaveBytes ?s) => destruct (SaveBytes_block s) end. by split. Qed.

Lemma decrypt_block (ctx : list AES_state) (p : list Z) : block (AES_decrypt ctx 14 p).
Proof. unfold AES_decrypt. cbv zeta. match goal with |- block (SaveBytes ?s) => destruct (SaveBytes_block s) end. by split. Qed.

#[local] Opaque AES_encrypt AES_decrypt AES_setup Cipher KeyExpansion.

(** ** The chain *)

Section Chain.
Variable E D : list Z -> list Z.
Hypothesis E_block : forall p, block (E p).
Hypothesis D_block : forall p, block (D p).

Lemma cbc_enc_block (n : nat) (prev data : list Z) : is_bytes (cbc_enc E n prev data) /\ length (cbc_enc E n prev data) = (16 * n)%nat.
Proof.
  revert prev data. induction n as [|n IH]; intros prev data; [split; [constructor|done]|]. cbn [cbc_enc]. cbv zeta.
  destruct (E_block (xor prev (take 16 data))) as [Hb Hl]. destruct (IH (E (xor prev (take 16 data))) (drop 16 data)) as [Hb' Hl'].
  split; [by apply is_bytes_app|]. rewrite length_app. lia.
Qed.

Lemma cbc_enc_snoc (n : nat) (prev data p : list Z) : length data = (16 * n)%nat -> length p = 16%nat ->
  cbc_enc E (S n) prev (data ++ p) = cbc_enc E n prev data ++ E (xor (cbc_last E n prev data) p).
Proof.
  intros Hl Hp. revert prev data Hl. induction n as [|n IH]; intros prev data Hl.
  - destruct data; [|done]. cbn [cbc_enc cbc_last app]. cbv zeta. by rewrite app_nil_r, firstn_all2 by lia.
  - change (cbc_enc E (S (S n)) prev (data ++ p)) with (let c := E (xor prev (take 16 (data ++ p))) in c ++ cbc_enc E (S n) c (drop 16 (data ++ p))). cbv zeta.
    rewrite take_app_le, drop_app_le by lia. rewrite IH by (rewrite length_drop; lia). cbn [cbc_enc cbc_last]. cbv zeta. by rewrite app_assoc.
Qed.

Lemma cbc_last_length (n : nat) (prev data : list Z) : length prev = 16%nat -> length (cbc_last E n prev data) = 16%nat.
Proof. revert prev data. induction n as [|n IH]; intros prev data H; [exact H|]. cbn. apply IH, E_block. Qed.

Lemma cbc_dec_block (n : nat) (prev data : list Z) : block prev -> is_bytes data -> length data = (16 * n)%nat ->
  is_bytes (cbc_dec D n prev data) /\ length (cbc_dec D n prev data) = (16 * n)%nat.
Proof.
  revert prev data. induction n as [|n IH]; intros prev data Hp Hb Hl; [split; [constructor|done]|]. cbn [cbc_dec]. cbv zeta.
  destruct (take_block n data Hb Hl) as (Ht & Hb' & Hl'). destruct (xor_block _ _ (D_block (take 16 data)) Hp) as [Xb Xl].
  destruct (IH _ _ Ht Hb' Hl') as [Rb Rl]. split; [by apply is_bytes_app|]. rewrite length_app. lia.
Qed.

Lemma cbc_inverse (Hinv : forall p, block p -> D (E p) = p) (n : nat) (prev data : list Z) : block prev -> is_bytes data -> length data = (16 * n)%nat ->
  cbc_dec D n prev (cbc_enc E n prev data) = data.
Proof.
  revert prev data. induction n as [|n IH]; intros prev data Hp Hb Hl; [by destruct data|]. cbn [cbc_enc cbc_dec]. cbv zeta.
  destruct (take_block n data Hb Hl) as (Ht & Hb' & Hl'). set (c := E (xor prev (take 16 data))). pose proof (E_block (xor prev (take 16 data))) as Hc. fold c in Hc.
  rewrite take_app_length', drop_app_length' by (symmetry; apply Hc). rewrite IH by assumption. unfold c. rewrite Hinv by (by apply xor_block).
  rewrite xor_cancel by (destruct Hp, Ht; congruence). apply take_drop.
Qed.

Lemma cbc_enc_ext (E' : list Z -> list Z) (Heq : forall p, block p -> E p = E' p) (n : nat) (prev data : list Z) : block prev -> is_bytes data -> length data = (16 * n)%nat ->
  cbc_enc E n prev data = cbc_enc E' n prev data.
Proof.
  revert prev data. induction n as [|n IH]; intros prev data Hp Hb Hl; [done|]. cbn [cbc_enc]. cbv zeta. destruct (take_block n data Hb Hl) as (Ht & Hb' & Hl').
  rewrite <- Heq by (by apply xor_block). f_equal. by apply IH.
Qed.

End Chain.

(** ** The loops *)

Ltac zl := unfold zlen, zdrop, AES_BLOCK_SIZE in *; rewrite ?length_app, ?length_drop; cbn [length]; lia.

Lemma zwrite_app (pre post src : list Z) (w : Z) : w = zlen pre -> zlen src <= zlen post -> zwrite (pre ++ post) w src = Some (pre ++ src ++ zdrop (zlen src) post).
Proof.
  intros -> H. rewrite zwrite_Some by zl. rewrite ztake_app_len by done. do 3 f_equal. unfold zdrop, zlen. rewrite drop_app_ge by lia. f_equal. lia.
Qed.

Lemma zdrop_zdrop (a b : Z) (l : list Z) : 0 <= a -> 0 <= b -> zdrop a (zdrop b l) = zdrop (b + a) l.
Proof. intros. unfold zdrop. rewrite drop_drop. f_equal. lia. Qed.

Lemma mix_block (mixed p rest : list Z) : length mixed = 16%nat -> length p = 16%nat -> mix_data mixed AES_BLOCK_SIZE (p ++ rest) = Some (xor mixed p, rest).
Proof.
  intros Hm Hp. unfold mix_data. rewrite !(proj2 (Z.leb_le _ _)) by zl. cbn [andb]. rewrite zdrop_app_len, ztake_all by zl. unfold zdrop. rewrite skipn_all2 by zl. rewrite app_nil_r.
  unfold xor. rewrite <- (app_nil_r mixed) at 1. rewrite zip_with_app by lia. by rewrite app_nil_r.
Qed.

Lemma cbc_encrypt_loop_spec (ctx : list AES_state) (size : Z) : forall n fuel written mixed data rest pre post,
  (n < fuel)%nat -> written + 16 * Z.of_nat n <= size < written + 16 * Z.of_nat n + 16 -> written = zlen pre -> 16 * Z.of_nat n <= zlen post ->
  length mixed = 16%nat -> length data = (16 * n)%nat ->
  cbc_encrypt_loop fuel ctx size written mixed (data ++ rest) (pre ++ post) =
    Some (written + 16 * Z.of_nat n, cbc_last (AES_encrypt ctx 14) n mixed data, rest, pre ++ cbc_enc (AES_encrypt ctx 14) n mixed data ++ zdrop (16 * Z.of_nat n) post).
Proof.
  induction n as [|n IH]; intros [|fuel] written mixed data rest pre post Hf Hs Hw Hp Hm Hd; try lia; cbn [cbc_encrypt_loop]; unfold AES_BLOCK_SIZE at 1.
  - rewrite (proj2 (Z.leb_gt _ _)) by lia. destruct data; [|done]. cbn [cbc_last cbc_enc app]. change (zdrop (16 * Z.of_nat 0) post) with post. do 4 f_equal. lia.
  - rewrite (proj2 (Z.leb_le _ _)) by lia. rewrite <- (take_drop 16 data) at 1. rewrite <- app_assoc, mix_block by (rewrite ?length_take; lia). cbn [mbind option_bind].
    set (p := xor mixed (take 16 data)). assert (length p = 16%nat) as Lp by (unfold p, xor; rewrite length_zip_with, length_take; lia).
    rewrite encrypt_one by exact Lp. set (c := AES_encrypt ctx 14 p). assert (length c = 16%nat) as Lc by apply encrypt_block.
    rewrite zwrite_app by (exact Hw || zl). cbn [mbind option_bind]. rewrite (app_assoc pre c), IH by zl.
    cbn [cbc_last cbc_enc]. cbv zeta. fold p c. rewrite zdrop_zdrop by zl. rewrite <- !app_assoc. replace (zlen c) with 16 by zl.
    replace (written + AES_BLOCK_SIZE + 16 * Z.of_nat n) with (written + 16 * Z.of_nat (S n)) by (unfold AES_BLOCK_SIZE; lia). do 5 f_equal. f_equal. lia.
Qed.

Lemma cbc_decrypt_loop_spec (ctx : list AES_state) (size : Z) : forall n fuel written prev past data rest pre post,
  (n < fuel)%nat -> size = written + 16 * Z.of_nat n -> written = zlen pre -> written = zlen past -> 16 * Z.of_nat n <= zlen post ->
  length prev = 16%nat -> length data = (16 * n)%nat ->
  cbc_decrypt_loop fuel ctx size written prev (past ++ data ++ rest) (pre ++ post) =
    Some (size, pre ++ cbc_dec (AES_decrypt ctx 14) n prev data ++ zdrop (16 * Z.of_nat n) post).
Proof.
  induction n as [|n IH]; intros [|fuel] written prev past data rest pre post Hf Hs Hw Hpast Hp Hm Hd; try lia; cbn [cbc_decrypt_loop].
  - rewrite (proj2 (Z.eqb_eq _ _)) by lia. cbn [cbc_dec app]. change (zdrop (16 * Z.of_nat 0) post) with post. do 2 f_equal. lia.
  - rewrite (proj2 (Z.eqb_neq _ _)) by lia. unfold AES_BLOCK_SIZE at 1. rewrite (proj2 (Z.ltb_ge _ _)) by zl. cbv zeta.
    replace (ztake AES_BLOCK_SIZE (zdrop written (past ++ data ++ rest))) with (take 16 data).
    2: { rewrite zdrop_app_len by exact Hpast. unfold ztake. symmetry. apply take_app_le. change (Z.to_nat AES_BLOCK_SIZE) with 16%nat. lia. }
    assert (length (take 16 data) = 16%nat) as Lt by (rewrite length_take; lia). rewrite decrypt_one by exact Lt. fold (xor (AES_decrypt ctx 14 (take 16 data)) prev).
    set (p := xor _ prev). assert (length p = 16%nat) as Lp by (unfold p, xor; rewrite length_zip_with; destruct (decrypt_block ctx (take 16 data)); lia).
    rewrite zwrite_app by (exact Hw || zl). cbn [mbind option_bind]. rewrite <- (take_drop 16 data) at 2. rewrite <- app_assoc, (app_assoc past), (app_assoc pre p).
    rewrite IH by zl. cbn [cbc_dec]. cbv zeta. fold p. rewrite zdrop_zdrop by zl.
    rewrite <- !app_assoc. replace (zlen p) with 16 by zl. do 5 f_equal. f_equal. lia.
Qed.

(** ** The padding *)

Lemma xor_replicate (l : list Z) (v : Z) : map (fun m => Z.lxor m v) l = xor l (replicate (length l) v).
Proof. induction l as [|x l IH]; [done|]. cbn. by rewrite IH. Qed.

Lemma encrypt_pad_spec (ctx : list AES_state) (written : Z) (mixed tail rest pre post : list Z) :
  (length tail < 16)%nat -> length mixed = 16%nat -> written = zlen pre -> 16 <= zlen post ->
  encrypt_pad ctx (zlen tail) written mixed (tail ++ rest) (pre ++ post) =
    Some (written + 16, pre ++ AES_encrypt ctx 14 (xor mixed (pkcs7 tail)) ++ zdrop 16 post).
Proof.
  intros Ht Hm Hw Hp. unfold encrypt_pad, mix_data. rewrite !(proj2 (Z.leb_le _ _)) by zl. cbn [andb mbind option_bind].
  assert (zip_with Z.lxor (ztake (zlen tail) mixed) (tail ++ rest) = xor (ztake (zlen tail) mixed) tail) as ->.
  { unfold xor. rewrite <- (app_nil_r (ztake (zlen tail) mixed)) at 1. rewrite zip_with_app by (unfold ztake, zlen; rewrite length_take; lia). apply app_nil_r. }
  assert (length (xor (ztake (zlen tail) mixed) tail) = length tail) as Lx by (unfold xor, ztake, zlen; rewrite length_zip_with, length_take; lia).
  rewrite ztake_app_len, zdrop_app_len by zl. rewrite xor_replicate, <- xor_app by (unfold ztake, zlen; rewrite length_take; lia). rewrite ztake_zdrop.
  replace (tail ++ _) with (pkcs7 tail) by (unfold pkcs7; rewrite Nat.mod_small by lia; do 2 f_equal; zl).
  rewrite encrypt_one by (unfold xor, pkcs7; rewrite length_zip_with, length_app, length_replicate, Nat.mod_small; lia).
  destruct (encrypt_block ctx (xor mixed (pkcs7 tail))) as [_ Lc]. rewrite zwrite_app by (exact Hw || zl). by assert (zlen (AES_encrypt ctx 14 (xor mixed (pkcs7 tail))) = 16) as -> by (unfold zlen; lia).
Qed.

Lemma pad_loop_spec (k : nat) (pre : list Z) : (k <= 16)%nat -> forall l fail post, (length l <= 16)%nat ->
  pad_loop (length l) (Z.of_nat k) fail (pre ++ l ++ post) (zlen pre + zlen l - 1) = Some (fail || negb (forallb (fun b => b =? Z.of_nat k) (drop (16 - k) l))).
Proof.
  intros Hk l. induction l as [|x l IH] using rev_ind; intros fail post Hl; [cbn; by rewrite drop_nil, orb_false_r|].
  rewrite length_app in Hl |- *. cbn [length] in Hl |- *. rewrite Nat.add_1_r. cbn [pad_loop].
  replace (zlen pre + zlen (l ++ [x]) - 1) with (zlen (pre ++ l)) by zl. rewrite <- app_assoc, (app_assoc pre l). cbn [app]. rewrite zget_mid. cbn [mbind option_bind].
  replace (zlen (pre ++ l) - 1) with (zlen pre + zlen l - 1) by zl. rewrite <- app_assoc. cbn [app]. rewrite (IH _ _ ltac:(lia)). f_equal. unfold AES_BLOCK_SIZE.
  destruct (Z.ltb_spec (16 - Z.of_nat k) (Z.of_nat (S (length l)))) as [H|H].
  - rewrite drop_app_le by lia. rewrite forallb_app. cbn [forallb andb]. rewrite andb_true_r, negb_andb, <- orb_assoc. f_equal. apply orb_comm.
  - rewrite !skipn_all2 by (rewrite ?length_app; cbn [length]; lia). cbn [andb forallb negb]. by rewrite !orb_false_r.
Qed.

(** A whole number of blocks is padded or not. *)
Lemma pkcs7_last (m : list Z) : exists k, (1 <= k <= 16)%nat /\ k = (16 - length m mod 16)%nat /\ pkcs7 m = m ++ replicate k (Z.of_nat k) /\
  (length (pkcs7 m) mod 16 = 0)%nat /\ length (pkcs7 m) = (length m + k)%nat.
Proof.
  pose proof (Nat.mod_upper_bound (length m) 16 ltac:(lia)) as H. exists (16 - length m mod 16)%nat. split; [lia|]. split; [done|]. split; [done|].
  assert (length (pkcs7 m) = (length m + (16 - length m mod 16))%nat) as E by (unfold pkcs7; by rewrite length_app, length_replicate). split; [|exact E]. rewrite E.
  pose proof (Nat.div_mod_eq (length m) 16). symmetry. apply (Nat.mod_unique _ _ (S (length m / 16))); lia.
Qed.

Lemma all_equal (l : list Z) (v : Z) : forallb (fun b => b =? v) l = true <-> l = replicate (length l) v.
Proof.
  induction l as [|x l IH]; [done|]. cbn [forallb length replicate]. rewrite andb_true_iff, IH, Z.eqb_eq. split; [intros [-> <-]; done|]. intros [= -> E]. by split.
Qed.

(** What the check at the end of [aes256_cbc_decrypt] finds. *)
Definition unpadded (p : list Z) : Z :=
  let k := nth (length p - 1) p 0 in
  if (1 <=? k) && (k <=? 16) && forallb (fun b => b =? k) (drop (length p - Z.to_nat k) p) then zlen p - k else 0.

Lemma unpadded_pkcs7 (m : list Z) : unpadded (pkcs7 m) = zlen m.
Proof.
  destruct (pkcs7_last m) as (k & Hk & _ & E & _ & L). unfold unpadded. rewrite L, E. replace (nth (length m + k - 1) _ 0) with (Z.of_nat k).
  2: { rewrite app_nth2 by lia. symmetry. apply (repeat_spec k). replace (replicate k (Z.of_nat k)) with (repeat (Z.of_nat k) k) by (clear; generalize (Z.of_nat k); induction k; intros; cbn; congruence).
    apply nth_In. rewrite repeat_length. lia. }
  rewrite !(proj2 (Z.leb_le _ _)) by lia. cbn [andb]. rewrite Nat2Z.id. replace (length m + k - k)%nat with (length m) by lia. rewrite drop_app_length.
  rewrite (proj2 (all_equal _ _)) by (by rewrite length_replicate). unfold zlen. rewrite length_app, length_replicate. lia.
Qed.

Lemma unpadded_not (p : list Z) : (length p mod 16 = 0)%nat -> (forall m, p <> pkcs7 m) -> unpadded p = 0.
Proof.
  intros Hl Hn. unfold unpadded. destruct (_ && _ && _) eqn:E; [|done]. exfalso. apply andb_prop in E as [E F]. reflect_bools. apply all_equal in F.
  set (k := nth (length p - 1) p 0) in *. assert (length p <> 0)%nat as Hz by (intros Hz; destruct p; [cbn in k; lia|done]).
  pose proof (Nat.div_mod_eq (length p) 16) as Hd. rewrite Hl in Hd. assert (16 <= length p)%nat by lia.
  apply (Hn (take (length p - Z.to_nat k) p)). unfold pkcs7. rewrite length_take, Nat.min_l by lia.
  assert (16 - (length p - Z.to_nat k) mod 16 = Z.to_nat k)%nat as ->.
  { rewrite <- (Nat.mod_unique (length p - Z.to_nat k) 16 (length p / 16 - 1) (16 - Z.to_nat k)) by lia. lia. }
  rewrite <- (take_drop (length p - Z.to_nat k) p) at 1. f_equal. rewrite F, length_drop, Z2Nat.id by lia. f_equal. lia.
Qed.

Lemma pad_check (p post : list Z) : is_bytes p -> (16 <= length p)%nat ->
  (padsize ← zget (p ++ post) (zlen p - 1);
   let fail := (padsize =? 0) || (AES_BLOCK_SIZE <? padsize) in
   let padsize := padsize * Z.b2z (negb fail) in
   fail ← pad_loop 16 padsize fail (p ++ post) (zlen p - 1);
   let written := zlen p - padsize in
   Some (written * Z.b2z (negb fail), Some (p ++ post))) = Some (unpadded p, Some (p ++ post)).
Proof.
  intros Hb Hl. set (k := nth (length p - 1) p 0). assert (zget (p ++ post) (zlen p - 1) = Some k) as Hk.
  { rewrite zget_app_l by zl. unfold zget. rewrite (proj2 (Z.ltb_ge _ _)) by zl. replace (Z.to_nat (zlen p - 1)) with (length p - 1)%nat by zl.
    destruct (lookup_lt_is_Some_2 p (length p - 1) ltac:(lia)) as [x Hx]. unfold k. by rewrite Hx, (nth_lookup_Some _ _ _ _ Hx). }
  assert (is_byte k) as Bk by (destruct (nth_in_or_default (length p - 1) p 0) as [Hin|E]; [unfold is_bytes in Hb; rewrite list.Forall_forall in Hb; by apply Hb, list_elem_of_In|unfold k; by rewrite E]).
  rewrite Hk. cbn [mbind option_bind]. cbv zeta. unfold unpadded. fold k.
  assert (forall j fail, (j <= 16)%nat -> pad_loop 16 (Z.of_nat j) fail (p ++ post) (zlen p - 1) = Some (fail || negb (forallb (fun b => b =? Z.of_nat j) (drop (length p - j) p)))) as Hloop.
  { intros j fail Hj. pose proof (pad_loop_spec j (take (length p - 16) p) Hj (drop (length p - 16) p) fail post ltac:(rewrite length_drop; lia)) as H.
    replace (length (drop (length p - 16) p)) with 16%nat in H by (rewrite length_drop; lia). rewrite app_assoc, take_drop, drop_drop in H.
    replace (length p - 16 + (16 - j))%nat with (length p - j)%nat in H by lia. rewrite <- H. f_equal. unfold zlen. rewrite length_take, length_drop. lia. }
  pose proof (Hloop 0%nat true ltac:(lia)) as Hnone. change (Z.of_nat 0) with 0 in Hnone.
  unfold AES_BLOCK_SIZE. destruct (Z.ltb_spec 16 k) as [H16|H16]; [|destruct (Z.eqb_spec k 0) as [H0|H0]]; cbn [orb negb Z.b2z].
  - rewrite !orb_true_r. cbn [negb Z.b2z]. rewrite Z.mul_0_r. rewrite Hnone. cbn [mbind option_bind orb negb Z.b2z]. rewrite Z.mul_0_r, (proj2 (Z.leb_gt k 16)) by lia. by rewrite andb_false_r.
  - rewrite Z.mul_0_r. rewrite Hnone. cbn [mbind option_bind orb negb Z.b2z]. rewrite Z.mul_0_r, H0. done.
  - unfold is_byte in Bk. rewrite Z.mul_1_r, !(proj2 (Z.leb_le _ _)) by lia. pose proof (Hloop (Z.to_nat k) false ltac:(lia)) as E. rewrite Z2Nat.id in E by lia. rewrite E.
    cbn [mbind option_bind orb negb andb]. rewrite negb_involutive. generalize (forallb (fun b => b =? k) (drop (length p - Z.to_nat k) p)). intros []; cbn [Z.b2z]; [by rewrite Z.mul_1_r|by rewrite Z.mul_0_r].
Qed.

(** ** Both directions *)

Definition padded (pad : bool) (m : list Z) : list Z := if pad then pkcs7 m else m.

Lemma encrypt_run (key iv data rest out : list Z) (pad : bool) : length iv = 16%nat -> data <> [] -> pad = true \/ (length data mod 16 = 0)%nat -> zlen (padded pad data) <= zlen out ->
  exists n, length (padded pad data) = (16 * S n)%nat /\
  aes256_cbc_encrypt key iv (Some (data ++ rest)) (zlen data) pad (Some out) =
    Some (zlen (padded pad data), Some (cbc_enc (AES_encrypt (AES256_init key) 14) (S n) iv (padded pad data) ++ zdrop (zlen (padded pad data)) out)).
Proof.
  intros Hiv Hne Hpad Hout. assert (length data <> 0)%nat as Hz by (by destruct data). set (n := (length data / 16)%nat). pose proof (Nat.div_mod_eq (length data) 16) as Hd. fold n in Hd.
  pose proof (Nat.mod_upper_bound (length data) 16 ltac:(lia)) as Hm. set (ctx := AES256_init key). assert (take 16 iv = iv) as Htake by (apply firstn_all2; lia).
  unfold aes256_cbc_encrypt. cbv zeta. rewrite (proj2 (Z.eqb_neq _ _)) by zl. fold ctx. rewrite Htake. unfold AES_BLOCK_SIZE. rewrite Z.rem_mod_nonneg by zl.
  assert (zlen data mod 16 = Z.of_nat (length data mod 16)) as -> by (unfold zlen; by rewrite Nat2Z.inj_mod). set (blocks := take (16 * n) data). set (tail := drop (16 * n) data).
  assert (length blocks = 16 * n)%nat as Lb by (unfold blocks; rewrite length_take; lia). assert (length tail = length data mod 16)%nat as Lt by (unfold tail; rewrite length_drop; lia).
  assert (data = blocks ++ tail) as Ed by (symmetry; apply take_drop). destruct pad; cbn [negb andb padded] in *.
  - assert (pkcs7 data = blocks ++ pkcs7 tail) as Ep by (unfold pkcs7; rewrite Lt, Nat.Div0.mod_mod, app_assoc; by rewrite <- Ed).
    assert (length (pkcs7 tail) = 16)%nat as Lp by (unfold pkcs7; rewrite length_app, length_replicate, Lt, Nat.Div0.mod_mod; lia).
    exists n. rewrite Ep in Hout |- *. split; [rewrite length_app; lia|]. assert (16 * Z.of_nat n + 16 <= zlen out) as Ho by (rewrite zlen_app in Hout; zl).
    replace (data ++ rest) with (blocks ++ tail ++ rest) by (by rewrite app_assoc, <- Ed).
    rewrite (cbc_encrypt_loop_spec ctx (zlen data) n _ 0 iv blocks (tail ++ rest) [] out) by zl. cbn [mbind option_bind app]. rewrite <- Lt. fold (zlen tail).
    destruct (cbc_enc_block (AES_encrypt ctx 14) (encrypt_block ctx) n iv blocks) as [_ Le].
    rewrite encrypt_pad_spec by (zl || (apply cbc_last_length; [apply encrypt_block|exact Hiv])). cbn [mbind option_bind].
    rewrite cbc_enc_snoc by assumption. rewrite zdrop_zdrop by lia. rewrite <- app_assoc.
    replace (zlen (blocks ++ pkcs7 tail)) with (16 * Z.of_nat n + 16) by zl. done.
  - destruct Hpad as [|Hmod]; [done|]. rewrite Hmod. cbn [Z.of_nat Z.eqb negb]. exists (n - 1)%nat. split; [lia|]. replace (S (n - 1)) with n by lia.
    rewrite (cbc_encrypt_loop_spec ctx (zlen data) n _ 0 iv data rest [] out) by zl. cbn [mbind option_bind app]. by replace (16 * Z.of_nat n) with (zlen data) by zl.
Qed.

Lemma decrypt_run (key iv c rest out : list Z) (pad : bool) (n : nat) : block iv -> is_bytes c -> length c = (16 * S n)%nat -> zlen c <= zlen out ->
  let p := cbc_dec (AES_decrypt (AES256_init key) 14) (S n) iv c in
  aes256_cbc_decrypt key iv (Some (c ++ rest)) (zlen c) pad (Some out) = Some (if pad then unpadded p else zlen c, Some (p ++ zdrop (zlen c) out)).
Proof.
  intros Hiv Hb Hl Hout p. unfold aes256_cbc_decrypt. cbv zeta. rewrite (proj2 (Z.eqb_neq _ _)) by zl. unfold AES_BLOCK_SIZE at 1. rewrite Z.rem_mod_nonneg by zl.
  replace (zlen c mod 16) with 0 by (unfold zlen; rewrite Hl, Nat2Z.inj_mul, Z.mul_comm; symmetry; apply Z.mod_mul; lia). cbn [Z.eqb negb].
  replace (take 16 iv) with iv by (symmetry; apply firstn_all2; destruct Hiv; lia). set (ctx := AES256_init key) in *.
  rewrite (cbc_decrypt_loop_spec ctx (zlen c) (S n) _ 0 iv [] c rest [] out) by (destruct Hiv; zl). cbn [mbind option_bind app]. fold p.
  replace (16 * Z.of_nat (S n)) with (zlen c) by zl. destruct pad; [|done].
  destruct (cbc_dec_block (AES_decrypt ctx 14) (decrypt_block ctx) (S n) iv c Hiv Hb Hl) as [Pb Pl]. fold p in Pb, Pl.
  pose proof (pad_check p (zdrop (zlen c) out) Pb ltac:(lia)) as H. replace (zlen p) with (zlen c) in H by zl. exact H.
Qed.

Lemma aes256_agrees (key p : list Z) : is_bytes key -> length key = 32%nat -> block p ->
  AES_encrypt (AES256_init key) 14 p = aes256 key p /\ AES_decrypt (AES256_init key) 14 (AES_encrypt (AES256_init key) 14 p) = p.
Proof. intros Hk Hl [Hp Lp]. assert (key_size 8 14) by (right; right; by split). split; [by apply setup_encrypt|by apply setup_decrypt]. Qed.

Lemma pkcs7_bytes (pad : bool) (m : list Z) : is_bytes m -> is_bytes (padded pad m).
Proof.
  intros Hm. destruct pad; [|exact Hm]. destruct (pkcs7_last m) as (k & Hk & _ & E & _). cbn [padded]. rewrite E. apply is_bytes_app. split; [exact Hm|].
  apply is_bytes_replicate. unfold is_byte. lia.
Qed.

(** C27: what [aes256_cbc_encrypt] writes is the CBC chain over FIPS 197 AES-256
    of the message padded as in PKCS 7 (or of the message itself, without
    padding), it stays within a target of that size and leaves the rest of it;
    [aes256_cbc_decrypt] with the same key and vector gives the message and its
    length back, whatever lies behind the cipher text. *)
Theorem aes256_cbc_roundtrip (key iv data rest out : list Z) (pad : bool) (Hk : is_bytes key) (Hlk : length key = 32%nat) (Hiv : is_bytes iv) (Hliv : length iv = 16%nat)
  (Hd : is_bytes data) (Hne : data <> []) (Hsize : zlen data + 16 < 2 ^ 31) (Hpad : pad = true \/ (length data mod 16 = 0)%nat) (Hout : zlen (padded pad data) <= zlen out) :
  let p := padded pad data in let c := cbc_enc (aes256 key) (length p / 16) iv p in
  aes256_cbc_encrypt key iv (Some (data ++ rest)) (zlen data) pad (Some out) = Some (zlen p, Some (c ++ zdrop (zlen p) out)) /\
  zlen c = zlen p /\
  forall rest' out', zlen p <= zlen out' ->
    aes256_cbc_decrypt key iv (Some (c ++ rest')) (zlen c) pad (Some out') = Some (zlen data, Some (p ++ zdrop (zlen p) out')).
Proof.
  intros p c. destruct (encrypt_run key iv data rest out pad Hliv Hne Hpad Hout) as (n & Ln & E). fold p in Ln, E. pose proof (pkcs7_bytes pad data Hd) as Hp. fold p in Hp.
  assert (length p / 16 = S n)%nat as En by (rewrite Ln, Nat.mul_comm; by apply Nat.div_mul). assert (block iv) as Biv by (by split).
  assert (cbc_enc (AES_encrypt (AES256_init key) 14) (S n) iv p = c) as Ec.
  { unfold c. rewrite En. apply cbc_enc_ext; [apply encrypt_block| |exact Biv|exact Hp|exact Ln]. intros q Hq. by apply aes256_agrees. }
  rewrite Ec in E. split; [exact E|].
  destruct (cbc_enc_block _ (encrypt_block (AES256_init key)) (S n) iv p) as [Cb Cl]. rewrite Ec in Cb, Cl. assert (zlen c = zlen p) as Lc by zl. split; [exact Lc|].
  intros rest' out' Hout'. rewrite (decrypt_run key iv c rest' out' pad n Biv Cb Cl) by lia. rewrite <- Ec.
  rewrite (cbc_inverse _ _ (encrypt_block _)) by (assumption || (intros q Hq; by apply aes256_agrees)). rewrite Ec, Lc. do 2 f_equal. destruct pad; [apply unpadded_pkcs7|done].
Qed.

Lemma aes256_cbc_roundtrip_witness : exists c, aes256_cbc_encrypt (fips_key 32) (fips_key 16) (Some [1; 2; 3]) 3 true (Some (replicate 20 9)) = Some (16, Some (c ++ [9; 9; 9; 9])) /\
  aes256_cbc_decrypt (fips_key 32) (fips_key 16) (Some (c ++ [7])) (zlen c) true (Some (replicate 16 0)) = Some (3, Some ([1; 2; 3] ++ replicate 13 13)).
Proof.
  destruct (aes256_cbc_roundtrip (fips_key 32) (fips_key 16) [1; 2; 3] [] (replicate 20 9) true) as (E & _ & D);
    [by apply is_bytes_of|reflexivity|by apply is_bytes_of|reflexivity|by apply is_bytes_of|discriminate|reflexivity|by left|by vm_compute|].
  eexists. split; [exact E|exact (D [7] (replicate 16 0) ltac:(by vm_compute))].
Defined.

(** C40: [aes256_cbc_decrypt] takes whole blocks only and answers with the length
    of the message exactly when the plain text ends in well-formed padding (one
    to sixteen bytes that all hold their number); any other padding, an empty
    input, a length that is not whole blocks and a null pointer give 0.
    [aes256_cbc_encrypt] gives 0 on an empty input, on a null pointer and,
    without padding, on a length that is not whole blocks; the target is left
    alone. *)
Theorem aes256_cbc_padding (key iv c rest out : list Z) (n : nat) (Hiv : is_bytes iv) (Hliv : length iv = 16%nat)
  (Hc : is_bytes c) (Hlc : length c = (16 * S n)%nat) (Hsize : zlen c + 16 < 2 ^ 31) (Hout : zlen c <= zlen out) :
  (exists p r, aes256_cbc_decrypt key iv (Some (c ++ rest)) (zlen c) true (Some out) = Some (r, Some (p ++ zdrop (zlen c) out)) /\
    aes256_cbc_decrypt key iv (Some (c ++ rest)) (zlen c) false (Some out) = Some (zlen c, Some (p ++ zdrop (zlen c) out)) /\
    length p = length c /\ (forall m, p = pkcs7 m -> r = zlen m) /\ ((forall m, p <> pkcs7 m) -> r = 0)) /\
  (forall data size pad, data = None \/ size = 0 \/ Z.rem size 16 <> 0 -> aes256_cbc_decrypt key iv data size pad (Some out) = Some (0, Some out)) /\
  (forall data size pad, data = None \/ size = 0 \/ pad = false /\ Z.rem size 16 <> 0 -> aes256_cbc_encrypt key iv data size pad (Some out) = Some (0, Some out)) /\
  (forall data size pad, aes256_cbc_decrypt key iv data size pad None = Some (0, None) /\ aes256_cbc_encrypt key iv data size pad None = Some (0, None)).
Proof.
  split_and!.
  - assert (block iv) as Biv by (by split). exists (cbc_dec (AES_decrypt (AES256_init key) 14) (S n) iv c). eexists.
    rewrite !(decrypt_run key iv c rest out _ n Biv Hc Hlc Hout). split; [reflexivity|]. split; [reflexivity|].
    destruct (cbc_dec_block _ (decrypt_block (AES256_init key)) (S n) iv c Biv Hc Hlc) as [_ Lp]. split; [lia|].
    split; [intros m ->; apply unpadded_pkcs7|]. apply unpadded_not. rewrite Lp, Nat.mul_comm. by apply Nat.Div0.mod_mul.
  - intros data size pad H. unfold aes256_cbc_decrypt. cbv zeta. destruct data as [data|]; [|done]. destruct (Z.eqb_spec size 0); [done|]. unfold AES_BLOCK_SIZE at 1.
    destruct (Z.eqb_spec (Z.rem size 16) 0); [|done]. by destruct H as [|[|]].
  - intros data size pad H. unfold aes256_cbc_encrypt. cbv zeta. destruct data as [data|]; [|done]. destruct (Z.eqb_spec size 0); [done|]. unfold AES_BLOCK_SIZE at 1.
    destruct H as [|[|[-> H]]]; [done|done|]. by rewrite (proj2 (Z.eqb_neq _ _) H).
  - intros data size pad. by destruct data.
Qed.

Lemma aes256_cbc_padding_witness : exists p r, aes256_cbc_decrypt (fips_key 32) (fips_key 16) (Some (fips_plain ++ [])) 16 true (Some (replicate 16 0)) = Some (r, Some (p ++ [])) /\
  aes256_cbc_decrypt (fips_key 32) (fips_key 16) (Some fips_plain) 17 true (Some (replicate 16 0)) = Some (0, Some (replicate 16 0)).
Proof.
  destruct (aes256_cbc_padding (fips_key 32) (fips_key 16) fips_plain [] (replicate 16 0) 0) as ((p & r & E & _) & D & _);
    [by apply is_bytes_of|reflexivity|by apply is_bytes_of|reflexivity|reflexivity|by vm_compute|].
  exists p, r. split; [exact E|apply D; by right; right].
Defined.
