(* ===== verification/Midl.v ===== *)
(** * midl.c: the ID lists of LMDB

    LMDB keeps page numbers in arrays whose cell 0 is the number of elements;
    the cell before it holds the allocated length.  [MDB_IDL] is a record of
    that length and of the cells from 0 on; a cell outside of the block is
    [None].  The lists of page numbers are sorted in descending order, the
    ID/pointer lists ([MDB_ID2L]) in ascending order.  [mdb_midl_sort] is in
    MidlSort.v.  The 32 bit variants under MDB_VL32 are not compiled. *)

From S2P Require Import Prelude.
From Stdlib Require Import Sorted.

(** ** Memory *)

(** What the C library promises: an allocation may fail, and fresh words hold
    anything. *)
Class Heap := {
  malloc_ok : Z -> bool;
  fresh : nat -> list Z;
  fresh_length : forall k, length (fresh k) = k
}.

(** The [n] words of a block after [realloc]. *)
Definition realloc_cells `{Heap} (cells : list Z) (k : Z) : list Z :=
  ztake k cells ++ fresh (Z.to_nat (k - zlen cells)).

Record MDB_IDL := mk_idl { alloclen : Z; ids : list Z }.

Definition MDB_IDL_UM_MAX : Z := 2 ^ 17 - 1.

(** ** Operations on page number lists *)

Definition CMP (x y : Z) : Z := if x <? y then -1 else if y <? x then 1 else 0.

(** [while (0 < n)]: the cursor, and the last comparison when nothing matched. *)
Fixpoint search_loop (cmp : Z -> option Z) (fuel : nat) (base cursor val k : Z) : option (Z * Z) :=
  match fuel with
  | O => None
  | S fuel' =>
      if 0 <? k then
        let pivot := Z.shiftr k 1 in
        let cursor := u32 (base + pivot + 1) in
        val ← cmp cursor;
        if val <? 0 then search_loop cmp fuel' base cursor val pivot
        else if 0 <? val then search_loop cmp fuel' cursor cursor val (u32 (k - (pivot + 1)))
        else Some (cursor, 0)
      else Some (cursor, val)
  end.

(** The bodies of the search functions, for a comparison at a position:
    [n < 2^32] is halved each time, so 33 turns are enough. *)
Definition binary_search (cmp : Z -> option Z) (count : Z) : option Z :=
  '(cursor, val) ← search_loop cmp 33 0 1 0 (u32 count);
  Some (if 0 <? val then u32 (cursor + 1) else cursor).

Definition mdb_midl_search (l : MDB_IDL) (id : Z) : option Z :=
  count ← zget (ids l) 0;
  binary_search (fun c => x ← zget (ids l) c; Some (CMP x id)) count.

Section Allocation.
Context `{Heap}.

Definition mdb_midl_alloc (num : Z) : option MDB_IDL :=
  if malloc_ok ((num + 2) * 8) then Some (mk_idl num (0 :: fresh (Z.to_nat num))) else None.

Definition mdb_midl_shrink (l : MDB_IDL) : MDB_IDL :=
  if (MDB_IDL_UM_MAX <? alloclen l) && malloc_ok ((MDB_IDL_UM_MAX + 2) * 8)
  then mk_idl MDB_IDL_UM_MAX (realloc_cells (ids l) (MDB_IDL_UM_MAX + 1)) else l.

(** [Fail] is ENOMEM. *)
Definition mdb_midl_grow (l : MDB_IDL) (num : Z) : outcome MDB_IDL :=
  if malloc_ok ((alloclen l + num + 2) * 8)
  then Ret (mk_idl (u64 (alloclen l + num)) (realloc_cells (ids l) (alloclen l + num + 1))) else Fail.

Definition mdb_midl_need (l : MDB_IDL) (num : Z) : outcome MDB_IDL :=
  count ← total (zget (ids l) 0);
  let num := u32 (num + count) in
  if alloclen l <? num then
    let num := Z.land (u32 (num + num / 4 + (256 + 2))) (u32 (-256)) in
    if malloc_ok (num * 8) then Ret (mk_idl (u32 (num - 2)) (realloc_cells (ids l) (num - 1))) else Fail
  else Ret l.

Definition mdb_midl_append (l : MDB_IDL) (id : Z) : outcome MDB_IDL :=
  count ← total (zget (ids l) 0);
  l ← (if alloclen l <=? count then mdb_midl_grow l MDB_IDL_UM_MAX else Ret l);
  let count := u64 (count + 1) in
  cells ← total (zset (ids l) 0 count);
  cells ← total (zset cells count id);
  Ret (mk_idl (alloclen l) cells).

Definition mdb_midl_append_list (l app : MDB_IDL) : outcome MDB_IDL :=
  count ← total (zget (ids l) 0);
  more ← total (zget (ids app) 0);
  l ← (if alloclen l <=? u64 (count + more) then mdb_midl_grow l (s32 more) else Ret l);
  _ ← assert_ (more + 1 <=? zlen (ids app));
  cells ← total (zwrite (ids l) (count + 1) (ztake more (zdrop 1 (ids app))));
  cells ← total (zset cells 0 (u64 (count + more)));
  Ret (mk_idl (alloclen l) cells).

(** [while (n) ids[n--] = id++;] with [ids] advanced by [len]. *)
Fixpoint range_loop (cells : list Z) (len id : Z) (k : nat) : option (list Z) :=
  match k with
  | O => Some cells
  | S k' => cells ← zset cells (len + Z.of_nat k) id; range_loop cells len (u64 (id + 1)) k'
  end.

Definition mdb_midl_append_range (l : MDB_IDL) (id k : Z) : outcome MDB_IDL :=
  len ← total (zget (ids l) 0);
  l ← (if alloclen l <? u64 (len + k) then mdb_midl_grow l (s32 (Z.lor k MDB_IDL_UM_MAX)) else Ret l);
  cells ← total (zset (ids l) 0 (u64 (len + k)));
  cells ← total (range_loop cells len id (Z.to_nat k));
  Ret (mk_idl (alloclen l) cells).

End Allocation.

(** ** Merging *)

(** [for (; old_id < merge_id; old_id = idl[--j]) idl[k--] = old_id;] *)
Fixpoint merge_shift (fuel : nat) (cells : list Z) (old_id merge_id j k : Z) : option (list Z * Z * Z * Z) :=
  match fuel with
  | O => None
  | S fuel' =>
      if old_id <? merge_id then
        cells ← zset cells k old_id;
        old_id ← zget cells (j - 1);
        merge_shift fuel' cells old_id merge_id (j - 1) (k - 1)
      else Some (cells, old_id, j, k)
  end.

(** [while (i)] *)
Fixpoint merge_loop (i : nat) (merge cells : list Z) (old_id j k : Z) : option (list Z) :=
  match i with
  | O => Some cells
  | S i' =>
      merge_id ← zget merge (Z.of_nat i);
      '(cells, old_id, j, k) ← merge_shift (S (length cells)) cells old_id merge_id j k;
      cells ← zset cells k merge_id;
      merge_loop i' merge cells old_id j (k - 1)
  end.

Definition mdb_midl_xmerge (idl merge : MDB_IDL) : option MDB_IDL :=
  i ← zget (ids merge) 0;
  j ← zget (ids idl) 0;
  let k := u64 (i + j) in
  cells ← zset (ids idl) 0 (u64 (-1));
  old_id ← zget cells j;
  cells ← merge_loop (Z.to_nat i) (ids merge) cells old_id j k;
  cells ← zset cells 0 k;
  Some (mk_idl (alloclen idl) cells).

(** ** ID/pointer lists *)

Record MDB_ID2 := mk_id2 { mid : Z; mptr : Z }.

Definition mdb_mid2l_search (l : list MDB_ID2) (id : Z) : option Z :=
  head ← zget l 0;
  binary_search (fun c => x ← zget l c; Some (CMP id (mid x))) (mid head).

(** [for (i = n; i > x; i--) ids[i] = ids[i-1];] *)
Fixpoint shift_up (l : list MDB_ID2) (x : Z) (i : nat) : option (list MDB_ID2) :=
  match i with
  | O => Some l
  | S i' => if x <? Z.of_nat i then e ← zget l (Z.of_nat i - 1); l ← zset l (Z.of_nat i) e; shift_up l x i'
            else Some l
  end.

(** The result code and the list. *)
Definition mdb_mid2l_insert (l : list MDB_ID2) (id : MDB_ID2) : option (Z * list MDB_ID2) :=
  x ← mdb_mid2l_search l (mid id);
  if x <? 1 then Some (-2, l) else
  head ← zget l 0;
  duplicate ← (if x <=? mid head then e ← zget l x; Some (mid e =? mid id) else Some false);
  if (duplicate : bool) then Some (-1, l) else
  if MDB_IDL_UM_MAX <=? mid head then Some (-2, l) else
  let count := u64 (mid head + 1) in
  l ← zset l 0 (mk_id2 count (mptr head));
  l ← shift_up l x (Z.to_nat (u32 count));
  l ← zset l x id;
  Some (0, l).

Definition mdb_mid2l_append (l : list MDB_ID2) (id : MDB_ID2) : option (Z * list MDB_ID2) :=
  head ← zget l 0;
  if MDB_IDL_UM_MAX <=? mid head then Some (-2, l) else
  let count := u64 (mid head + 1) in
  l ← zset l 0 (mk_id2 count (mptr head));
  l ← zset l count id;
  Some (0, l).

(** ** Searching *)

(** What a binary search over positions [1 .. N] returns when [f] is the
    comparison at a position: a match, or the boundary. *)
Definition found (f : Z -> Z) (N r : Z) : Prop :=
  1 <= r <= N /\ f r = 0 \/
  1 <= r <= N + 1 /\ (forall c, 1 <= c < r -> 0 < f c) /\ (forall c, r <= c <= N -> f c < 0).

(** The position the callers compute from the loop's result. *)
Definition position (cursor val : Z) : Z := if 0 <? val then u32 (cursor + 1) else cursor.

Section Search.
Context (cmp : Z -> option Z) (f : Z -> Z) (N : Z).
Hypothesis cmp_f : forall c, 1 <= c <= N -> cmp c = Some (f c).
Hypothesis f_antitone : forall c c', 1 <= c <= c' -> c' <= N -> f c' <= f c.
Hypothesis N_small : 0 <= N < 2 ^ 32 - 1.

Lemma search_loop_spec (fuel : nat) (base cursor val k : Z) :
  0 <= base -> 0 <= k < 2 ^ (Z.of_nat fuel - 1) -> base + k <= N -> (0 < fuel)%nat ->
  (forall c, 1 <= c <= base -> 0 < f c) -> (forall c, base + k < c <= N -> f c < 0) ->
  (0 < val /\ cursor = base \/ val <= 0 /\ cursor = base + k + 1 \/ 0 < k) ->
  exists c v, search_loop cmp fuel base cursor val k = Some (c, v) /\ found f N (position c v).
Proof.
  revert base cursor val k. induction fuel as [|fuel IH]; intros base cursor val k Hb Hk HN Hf Hlo Hhi Hc; [lia|].
  cbn [search_loop]. destruct (Z.ltb_spec 0 k) as [Hk0|Hk0].
  - rewrite Z.shiftr_div_pow2 by lia. change (2 ^ 1) with 2.
    assert (0 <= k / 2 < k /\ k - (k / 2 + 1) <= k / 2 /\ 2 * (k / 2) <= k) as (Hp & Hp' & Hp2) by (split_and!; zdm).
    set (pivot := k / 2) in *. rewrite wrap_small by lia. set (m := base + pivot + 1) in *.
    assert (0 < fuel)%nat as Hf'.
    { destruct fuel; [|lia]. change (2 ^ (Z.of_nat 1 - 1)) with 1 in Hk. lia. }
    assert (2 ^ (Z.of_nat (S fuel) - 1) = 2 * 2 ^ (Z.of_nat fuel - 1)) as Ep
      by (rewrite <- Z.pow_succ_r by lia; f_equal; lia).
    rewrite cmp_f by lia. cbn [mbind option_bind]. destruct (Z.ltb_spec (f m) 0) as [H1|H1].
    + apply IH; try done; try lia.
      intros c Hcc. pose proof (f_antitone m c ltac:(lia) ltac:(lia)). lia.
    + destruct (Z.ltb_spec 0 (f m)) as [H2|H2].
      * rewrite wrap_small by lia. apply IH; try done; try lia.
        -- intros c Hcc. pose proof (f_antitone c m ltac:(lia) ltac:(lia)). lia.
        -- intros c Hcc. apply Hhi. lia.
      * exists m, 0. split; [done|]. left. unfold position. cbn. lia.
  - exists cursor, val. split; [done|]. right. unfold position.
    assert ((if 0 <? val then u32 (cursor + 1) else cursor) = base + 1) as ->.
    { destruct (Z.ltb_spec 0 val); [rewrite wrap_small|]; lia. }
    split; [lia|]. split; intros; [apply Hlo|apply Hhi]; lia.
Qed.

Lemma search_spec : exists r, binary_search cmp N = Some r /\ found f N r.
Proof.
  destruct (search_loop_spec 33 0 1 0 N) as (c & v & E & F); try lia.
  exists (position c v). split; [|done]. unfold binary_search. by rewrite wrap_small, E by lia.
Qed.

End Search.

#[global] Opaque binary_search.

Lemma CMP_spec (x y : Z) : (CMP x y = 0 <-> x = y) /\ (0 < CMP x y <-> y < x) /\ (CMP x y < 0 <-> x < y).
Proof. unfold CMP. destruct (Z.ltb_spec x y), (Z.ltb_spec y x); lia. Qed.

Lemma CMP_mono (x x' y : Z) : x' <= x -> CMP x' y <= CMP x y.
Proof. intros. unfold CMP. destruct (Z.ltb_spec x y), (Z.ltb_spec y x), (Z.ltb_spec x' y), (Z.ltb_spec y x'); lia. Qed.

Lemma CMP_anti (x y y' : Z) : y <= y' -> CMP x y' <= CMP x y.
Proof. intros. unfold CMP. destruct (Z.ltb_spec x y), (Z.ltb_spec y x), (Z.ltb_spec x y'), (Z.ltb_spec y' x); lia. Qed.

(** ** The contents of a list *)

(** Cell [i] of an array, 0 outside of it. *)
Definition cell (a : list Z) (i : Z) : Z := default 0 (zget a i).

(** A block of [alloclen + 1] cells that holds the list [l]. *)
Definition idl_holds (m : MDB_IDL) (l : list Z) : Prop :=
  exists rest, ids m = zlen l :: l ++ rest /\ zlen (ids m) = alloclen m + 1.

Definition descending (l : list Z) : Prop := StronglySorted Z.ge l.

Lemma cell_head (k : Z) (l : list Z) : zget (k :: l) 0 = Some k.
Proof. done. Qed.

Lemma zget_cons_pos {A} (k : A) (l : list A) (i : Z) : 0 < i -> zget (k :: l) i = zget l (i - 1).
Proof.
  intros. unfold zget. zif. replace (Z.to_nat i) with (S (Z.to_nat (i - 1))) by lia. done.
Qed.

Lemma zset_head {A} (k v : A) (l : list A) : zset (k :: l) 0 v = Some (v :: l).
Proof. rewrite zset_Some; [done|]. autorewrite with zlist. pose proof (zlen_nonneg l). lia. Qed.

Lemma zset_cell {A} (k x v : A) (l rest : list A) (i : Z) :
  i = zlen l + 1 -> zset (k :: l ++ x :: rest) i v = Some (k :: l ++ v :: rest).
Proof.
  intros ->. pose proof (zlen_nonneg l). pose proof (zlen_nonneg rest).
  rewrite zset_Some by (autorewrite with zlist; lia).
  replace (Z.to_nat (zlen l + 1)) with (S (length l)) by (unfold zlen; lia).
  f_equal. change (<[S (length l):=v]> (k :: l ++ x :: rest)) with (k :: <[length l:=v]> (l ++ x :: rest)).
  rewrite insert_app_r_alt, Nat.sub_diag by lia. done.
Qed.

Lemma holds_get (m : MDB_IDL) (l : list Z) (i : Z) :
  idl_holds m l -> 1 <= i <= zlen l -> zget (ids m) i = zget l (i - 1).
Proof. intros (rest & -> & _) Hi. rewrite zget_cons_pos, zget_app_l by lia. done. Qed.

Lemma holds_count (m : MDB_IDL) (l : list Z) : idl_holds m l -> zget (ids m) 0 = Some (zlen l).
Proof. intros (rest & -> & _). done. Qed.

Lemma holds_room (m : MDB_IDL) (l : list Z) : idl_holds m l -> zlen l <= alloclen m.
Proof. intros (rest & E & L). rewrite E in L. autorewrite with zlist in L. pose proof (zlen_nonneg rest). lia. Qed.

Lemma sorted_zget {A} (R : A -> A -> Prop) (l : list A) (i j : Z) (x y : A) :
  StronglySorted R l -> i < j -> zget l i = Some x -> zget l j = Some y -> R x y.
Proof.
  intros Hs Hij Hx Hy. pose proof (zget_Some _ _ _ Hx). unfold zget in *.
  destruct (Z.ltb_spec i 0); [done|]. destruct (Z.ltb_spec j 0); [done|].
  revert i j Hij Hx Hy H H0 H1. induction Hs as [|a l Hs IH Ha]; intros i j Hij Hx Hy H H0 H1; [done|].
  destruct (Z.to_nat j) as [|j'] eqn:Ej; [lia|]. cbn in Hy. destruct (Z.to_nat i) as [|i'] eqn:Ei; cbn in Hx.
  - injection Hx as <-. by apply (Forall_lookup_1 _ _ _ _ Ha Hy).
  - apply (IH (Z.of_nat i') (Z.of_nat j')); rewrite ?Nat2Z.id; try done; try lia.
    unfold zlen in *. pose proof (lookup_lt_Some _ _ _ Hx). lia.
Qed.

Lemma midl_search_spec (m : MDB_IDL) (l : list Z) (id : Z) :
  idl_holds m l -> descending l -> zlen l < 2 ^ 32 - 1 ->
  exists r, mdb_midl_search m id = Some r /\ found (fun c => CMP (cell (ids m) c) id) (zlen l) r.
Proof.
  intros Hm Hd Hl. unfold mdb_midl_search. rewrite (holds_count m l Hm). cbn [mbind option_bind].
  pose proof (zlen_nonneg l).
  apply (search_spec (fun c => x ← zget (ids m) c; Some (CMP x id)) (fun c => CMP (cell (ids m) c) id) (zlen l)).
  - intros c Hc. unfold cell. rewrite (holds_get m l c Hm Hc).
    by destruct (zget_is_Some l (c - 1) ltac:(lia)) as [x ->].
  - intros c c' Hc Hc'. apply CMP_mono. unfold cell. rewrite !(holds_get m l) by (done || lia).
    destruct (zget_is_Some l (c - 1) ltac:(lia)) as [x Ex]. destruct (zget_is_Some l (c' - 1) ltac:(lia)) as [y Ey].
    rewrite Ex, Ey. cbn. destruct (decide (c = c')) as [->|Hne]; [simplify_eq; lia|].
    pose proof (sorted_zget Z.ge l (c - 1) (c' - 1) x y Hd ltac:(lia) Ex Ey). lia.
  - lia.
Qed.

(** ** Growing *)

Section Growing.
Context `{Heap}.

(** A result that holds [l], or an error that the allocator caused. *)
Definition yields (r : outcome MDB_IDL) (l : list Z) (P : MDB_IDL -> Prop) : Prop :=
  match r with
  | Ret m => idl_holds m l /\ P m
  | Fail => exists size, malloc_ok size = false
  | Undef => False
  end.

Lemma realloc_holds (m : MDB_IDL) (l : list Z) (k : Z) :
  idl_holds m l -> alloclen m <= k -> idl_holds (mk_idl k (realloc_cells (ids m) (k + 1))) l.
Proof.
  intros (rest & E & L) Hk. unfold realloc_cells. cbn [ids alloclen].
  exists (rest ++ fresh (Z.to_nat (k + 1 - zlen (ids m)))). cbn [ids alloclen]. split.
  - rewrite ztake_all by lia. rewrite E at 1. cbn [app]. by rewrite <- app_assoc.
  - rewrite ztake_all, zlen_app by lia. unfold zlen at 2. rewrite fresh_length. lia.
Qed.

Lemma grow_spec (m : MDB_IDL) (l : list Z) (num : Z) :
  idl_holds m l -> 0 <= num -> alloclen m + num < 2 ^ 64 ->
  yields (mdb_midl_grow m num) l (fun m' => alloclen m' = alloclen m + num).
Proof.
  intros Hm Hn Hs. pose proof (holds_room m l Hm). pose proof (zlen_nonneg l). unfold mdb_midl_grow.
  destruct (malloc_ok _) eqn:E; [|by eexists]. rewrite wrap_small by lia. split; [|done].
  apply realloc_holds; [done|lia].
Qed.

(** [x & -256] for an unsigned [x]. *)
Lemma mask_256 (x : Z) : 0 <= x < 2 ^ 32 -> Z.land x (u32 (-256)) = x - x mod 256.
Proof.
  intros Hx. change (u32 (-256)) with (Z.ldiff (Z.ones 32) (Z.ones 8)). change (x mod 256) with (x mod 2 ^ 8).
  rewrite <- (Z.land_ones x 8) by lia. rewrite Z.sub_nocarry_ldiff.
  - apply Z.bits_inj'. intros i Hi. rewrite Z.land_spec, !Z.ldiff_spec, Z.land_spec, (Z.testbit_ones_nonneg 32) by lia.
    destruct (Z.ltb_spec i 32); [by destruct (Z.testbit x i), (Z.testbit (Z.ones 8) i)|].
    by rewrite (testbit_high 32 x i) by lia.
  - apply Z.bits_inj'. intros i Hi. rewrite Z.ldiff_spec, Z.land_spec, Z.testbit_0_l.
    by destruct (Z.testbit x i), (Z.testbit (Z.ones 8) i).
Qed.

Lemma need_spec (m : MDB_IDL) (l : list Z) (num : Z) :
  idl_holds m l -> 0 <= num -> zlen l + num < 2 ^ 31 ->
  yields (mdb_midl_need m num) l (fun m' => zlen l + num <= alloclen m').
Proof.
  intros Hm Hn Hs. pose proof (zlen_nonneg l). pose proof (holds_room m l Hm). unfold mdb_midl_need.
  rewrite (holds_count m l Hm). cbn [total mbind outcome_bind]. rewrite (wrap_small 32 (num + _)) by lia.
  destruct (Z.ltb_spec (alloclen m) (num + zlen l)) as [Ha|Ha]; [|split; [done|lia]].
  set (w := num + zlen l) in *. assert (0 <= w / 4 /\ 4 * (w / 4) <= w) by zdm.
  rewrite (wrap_small 32 (w + _ + _)) by lia. set (x := w + w / 4 + (256 + 2)) in *.
  rewrite mask_256 by lia.
  assert (0 <= x mod 256 < 256) by (apply Z.mod_pos_bound; lia).
  destruct (malloc_ok _) eqn:E; [|by eexists]. rewrite wrap_small by lia.
  replace (x - x mod 256 - 1) with (x - x mod 256 - 2 + 1) by lia.
  split; [apply realloc_holds; [done|lia]|]. cbn [alloclen]. lia.
Qed.

(** "Too big?": growing under a guard makes room. *)
Lemma ensure_spec (m : MDB_IDL) (l : list Z) (b : bool) (num room : Z) :
  idl_holds m l -> 0 <= num -> alloclen m + num < 2 ^ 64 ->
  (b = false -> room <= alloclen m) -> room <= alloclen m + num ->
  yields (if b then mdb_midl_grow m num else Ret m) l (fun m' => room <= alloclen m' /\ alloclen m <= alloclen m').
Proof.
  intros Hm Hn Hs Hb Hr. destruct b; [|by split; [|split; [apply Hb|]]].
  pose proof (grow_spec m l num Hm Hn Hs) as G. destruct (mdb_midl_grow m num); try done.
  destruct G as [G1 G2]. split; [done|lia].
Qed.

Lemma append_spec (m : MDB_IDL) (l : list Z) (id : Z) :
  idl_holds m l -> alloclen m < 2 ^ 63 -> yields (mdb_midl_append m id) (l ++ [id]) (fun m' => alloclen m <= alloclen m').
Proof.
  intros Hm Hs. pose proof (zlen_nonneg l). pose proof (holds_room m l Hm). unfold mdb_midl_append.
  rewrite (holds_count m l Hm). cbn [total mbind outcome_bind]. rewrite (wrap_small 64) by lia.
  pose proof (ensure_spec m l (alloclen m <=? zlen l) MDB_IDL_UM_MAX (zlen l + 1) Hm ltac:(done)
    ltac:(unfold MDB_IDL_UM_MAX; lia) ltac:(intros E%Z.leb_gt; lia) ltac:(unfold MDB_IDL_UM_MAX; lia)) as Hg.
  destruct (if alloclen m <=? zlen l then _ else _) as [m'| |]; try done. cbn [mbind outcome_bind].
  destruct Hg as [(rest & E & L) [Hr Hr']].
  destruct rest as [|x rest]; [rewrite E in L; autorewrite with zlist in L; lia|].
  rewrite E, zset_head. cbn [total mbind outcome_bind]. rewrite zset_cell by done. cbn [total mbind outcome_bind yields].
  split; [|done]. exists rest. cbn [ids alloclen]. rewrite <- app_assoc. rewrite E in L.
  autorewrite with zlist in *. split; [done|]. lia.
Qed.

Lemma append_list_spec (m src : MDB_IDL) (l la : list Z) :
  idl_holds m l -> idl_holds src la -> alloclen m < 2 ^ 63 -> zlen la < 2 ^ 31 ->
  yields (mdb_midl_append_list m src) (l ++ la) (fun m' => alloclen m <= alloclen m').
Proof.
  intros Hm Ha Hs Hsa. pose proof (zlen_nonneg l). pose proof (zlen_nonneg la). pose proof (holds_room m l Hm).
  unfold mdb_midl_append_list. rewrite (holds_count m l Hm), (holds_count src la Ha).
  cbn [total mbind outcome_bind]. rewrite (wrap_small 64) by lia.
  assert (s32 (zlen la) = zlen la) as -> by (unfold swrap; rewrite Z.mod_small; lia).
  pose proof (ensure_spec m l (alloclen m <=? zlen l + zlen la) (zlen la) (zlen l + zlen la) Hm ltac:(lia)
    ltac:(lia) ltac:(intros E%Z.leb_gt; lia) ltac:(lia)) as Hg.
  destruct (if alloclen m <=? _ then _ else _) as [m'| |]; try done. cbn [mbind outcome_bind].
  destruct Hg as [(rest & E & L) [Hr Hr']]. destruct Ha as (resta & Ea & La).
  pose proof (zlen_nonneg resta). rewrite Ea at 1. autorewrite with zlist.
  replace (zlen la + 1 <=? 1 + (zlen la + zlen resta)) with true by (symmetry; apply Z.leb_le; lia).
  cbn [assert_ mbind outcome_bind]. rewrite Ea. change (zdrop 1 (zlen la :: la ++ resta)) with (la ++ resta).
  rewrite ztake_app_len by done. rewrite E in L |- *. autorewrite with zlist in L.
  rewrite zwrite_Some by (autorewrite with zlist; lia). cbn [total mbind outcome_bind].
  change (zlen l :: l ++ rest) with ((zlen l :: l) ++ rest). rewrite ztake_app_len by (autorewrite with zlist; lia).
  cbn [app]. rewrite zset_head. cbn [total mbind outcome_bind yields]. split; [|done].
  eexists. cbn [ids alloclen]. rewrite <- app_assoc. autorewrite with zlist.
  split; [done|]. pose proof (zlen_nonneg rest). lia.
Qed.

(** The IDs [id + k - 1] down to [id]. *)
Fixpoint id_range (id : Z) (k : nat) : list Z :=
  match k with
  | O => []
  | S k' => id_range (id + 1) k' ++ [id]
  end.

Lemma id_range_length (id : Z) (k : nat) : zlen (id_range id k) = Z.of_nat k.
Proof. revert id. induction k as [|k IH]; intros id; [done|]. cbn [id_range]. autorewrite with zlist. rewrite IH. lia. Qed.

Lemma range_loop_spec (c : Z) (l gap rest : list Z) (id : Z) (k : nat) :
  length gap = k -> 0 <= id -> id + Z.of_nat k <= 2 ^ 64 ->
  range_loop (c :: l ++ gap ++ rest) (zlen l) id k = Some (c :: l ++ id_range id k ++ rest).
Proof.
  revert gap rest id. induction k as [|k IH]; intros gap rest id Hg Hi Hk.
  - by apply nil_length_inv in Hg as ->.
  - destruct gap as [|x gap _] using rev_ind; [done|]. rewrite length_app in Hg. cbn [length] in Hg.
    cbn [range_loop id_range]. rewrite <- !app_assoc, (app_assoc l). cbn [app].
    rewrite zset_cell by (autorewrite with zlist; unfold zlen; lia). cbn [mbind option_bind]. rewrite <- app_assoc.
    destruct k as [|k].
    + destruct gap; [done|cbn in Hg; lia].
    + rewrite wrap_small by lia. apply (IH gap (id :: rest)); lia.
Qed.

Lemma append_range_spec (m : MDB_IDL) (l : list Z) (id k : Z) :
  idl_holds m l -> alloclen m < 2 ^ 63 -> 0 <= k < 2 ^ 31 -> 0 <= id -> id + k <= 2 ^ 64 ->
  yields (mdb_midl_append_range m id k) (l ++ id_range id (Z.to_nat k)) (fun m' => alloclen m <= alloclen m').
Proof.
  intros Hm Hs Hk Hi Hik. pose proof (zlen_nonneg l). pose proof (holds_room m l Hm).
  unfold mdb_midl_append_range. rewrite (holds_count m l Hm). cbn [total mbind outcome_bind].
  rewrite (wrap_small 64) by lia. pose proof (lor_range 31 k MDB_IDL_UM_MAX ltac:(lia) Hk ltac:(done)) as Hor.
  assert (0 <= k <= Z.lor k MDB_IDL_UM_MAX) as Hle.
  { apply Z.ldiff_le; [lia|]. apply Z.bits_inj'. intros i Hn. rewrite Z.ldiff_spec, Z.lor_spec, Z.testbit_0_l.
    by destruct (Z.testbit k i). }
  set (num := Z.lor k MDB_IDL_UM_MAX) in *.
  assert (s32 num = num) as -> by (unfold swrap; rewrite Z.mod_small; lia).
  pose proof (ensure_spec m l (alloclen m <? zlen l + k) num (zlen l + k) Hm ltac:(lia)
    ltac:(lia) ltac:(intros E%Z.ltb_ge; lia) ltac:(lia)) as Hg.
  destruct (if alloclen m <? _ then _ else _) as [m'| |]; try done. cbn [mbind outcome_bind].
  destruct Hg as [(rest & E & L) [Hr Hr']]. rewrite E in L |- *. autorewrite with zlist in L.
  rewrite zset_head. cbn [total mbind outcome_bind]. rewrite <- (take_drop (Z.to_nat k) rest).
  rewrite range_loop_spec by (rewrite ?length_take; unfold zlen in *; lia). cbn [total mbind outcome_bind yields].
  split; [|done]. exists (drop (Z.to_nat k) rest). cbn [ids alloclen]. rewrite <- app_assoc.
  autorewrite with zlist. rewrite !id_range_length. rewrite Z2Nat.id by lia.
  split; [done|]. unfold zlen in *. rewrite length_drop. lia.
Qed.

Lemma alloc_spec (num : Z) : 0 <= num ->
  match mdb_midl_alloc num with
  | Some m => idl_holds m [] /\ alloclen m = num
  | None => malloc_ok ((num + 2) * 8) = false
  end.
Proof.
  intros Hn. unfold mdb_midl_alloc. destruct (malloc_ok _); [|done]. split; [|done].
  exists (fresh (Z.to_nat num)). split; [done|]. cbn [ids alloclen]. unfold zlen. cbn [length].
  rewrite fresh_length. lia.
Qed.

Lemma shrink_spec (m : MDB_IDL) (l : list Z) :
  idl_holds m l -> zlen l <= MDB_IDL_UM_MAX ->
  idl_holds (mdb_midl_shrink m) l /\ alloclen (mdb_midl_shrink m) <= alloclen m.
Proof.
  intros (rest & E & L) Hl. unfold mdb_midl_shrink. destruct (Z.ltb_spec MDB_IDL_UM_MAX (alloclen m)) as [Ha|Ha].
  2:{ split; [by exists rest|cbn; lia]. }
  destruct (malloc_ok _); cbn [andb]; [|split; [by exists rest|lia]]. cbn [alloclen]. split; [|lia].
  exists (ztake (MDB_IDL_UM_MAX - zlen l) rest). cbn [ids alloclen]. unfold realloc_cells.
  rewrite E in L |- *. autorewrite with zlist in L |- *. pose proof (zlen_nonneg l). 
  replace (Z.to_nat (MDB_IDL_UM_MAX + 1 - (1 + (zlen l + zlen rest)))) with 0%nat by lia.
  assert (fresh 0 = []) as -> by (apply nil_length_inv, fresh_length). rewrite app_nil_r.
  assert (ztake (MDB_IDL_UM_MAX + 1) (zlen l :: l ++ rest) = zlen l :: l ++ ztake (MDB_IDL_UM_MAX - zlen l) rest) as ->.
  { unfold ztake, zlen in *. replace (Z.to_nat (MDB_IDL_UM_MAX + 1)) with (S (Z.to_nat MDB_IDL_UM_MAX)) by lia.
    cbn [take]. f_equal. rewrite take_app, (take_ge l) by lia. do 2 f_equal. lia. }
  split; [done|]. autorewrite with zlist. lia.
Qed.

End Growing.

(** ** Merging *)

(** The cell at index [zlen A] of an array that starts with [s :: A]. *)
Lemma zget_last (s : Z) (A t : list Z) (i : Z) : i = zlen A -> zget (s :: A ++ t) i = Some (List.last A s).
Proof.
  intros ->. destruct A as [|a A _] using rev_ind; [done|]. autorewrite with zlist.
  rewrite zget_cons_pos by (pose proof (zlen_nonneg A); lia). rewrite last_last, <- app_assoc.
  rewrite zget_app_r by lia. replace (_ - zlen A) with 0 by lia. reflexivity.
Qed.

Lemma merge_shift_spec (fuel : nat) (s mid : Z) (A gap D : list Z) :
  (length A < fuel)%nat -> gap <> [] -> mid <= s ->
  exists A1 A2 gap', A = A1 ++ A2 /\ zlen gap' = zlen gap /\ Forall (fun a => a < mid) A2 /\
    mid <= List.last A1 s /\
    merge_shift fuel (s :: A ++ gap ++ D) (List.last A s) mid (zlen A) (zlen A + zlen gap) =
      Some (s :: A1 ++ gap' ++ A2 ++ D, List.last A1 s, zlen A1, zlen A1 + zlen gap).
Proof.
  revert fuel gap D. induction A as [|a A IH] using rev_ind; intros fuel gap D Hf Hg Hm;
    (destruct fuel as [|fuel]; [lia|]); cbn [merge_shift].
  - cbn [List.last]. replace (s <? mid) with false by (symmetry; apply Z.ltb_ge; lia).
    exists [], [], gap. by split_and!.
  - rewrite last_last. destruct (Z.ltb_spec a mid) as [Ha|Ha].
    + destruct gap as [|x gap _] using rev_ind; [done|]. autorewrite with zlist.
      rewrite <- !app_assoc. cbn [app].
      change (a :: gap ++ x :: D) with ((a :: gap) ++ x :: D). rewrite (app_assoc A).
      rewrite zset_cell by (autorewrite with zlist; lia). cbn [mbind option_bind]. rewrite <- app_assoc. cbn [app].
      rewrite zget_last by lia. cbn [mbind option_bind].
      rewrite length_app in Hf. cbn [length] in Hf.
      destruct (IH fuel (a :: gap) (a :: D)) as (A1 & A2 & gap' & -> & Hg' & HA2 & Hl & E); [lia|done|done|].
      autorewrite with zlist in E, Hg'. rewrite <- !app_assoc in E. cbn [app] in E.
      exists A1, (A2 ++ [a]), gap'. split_and!; [by rewrite app_assoc|autorewrite with zlist; lia| |done|].
      * apply Forall_app. by split; [|repeat constructor].
      * cbn [app]. autorewrite with zlist. rewrite <- !app_assoc.
        match goal with |- merge_shift _ _ _ _ ?j ?k = _ =>
          replace j with (zlen A1 + zlen A2) by lia; replace k with (zlen A1 + zlen A2 + (1 + zlen gap)) by lia end.
        rewrite E. do 2 f_equal. lia.
    + exists (A ++ [a]), [], gap. rewrite app_nil_r, last_last. by split_and!.
Qed.

(** Every element of [a] is at least every element of [b]. *)
Definition above (a b : list Z) : Prop := forall x y, x ∈ a -> y ∈ b -> y <= x.

Lemma descending_app (a b : list Z) : descending (a ++ b) <-> descending a /\ descending b /\ above a b.
Proof.
  unfold descending, above. induction a as [|x a IH]; cbn [app].
  - split; [intros; split_and!; [constructor|done|]|tauto]. intros ? ? Hx%elem_of_nil. done.
  - split.
    + intros Hs. apply StronglySorted_inv in Hs as [Hs Hx]. apply IH in Hs as (Ha & Hb & Hab).
      apply Forall_app in Hx as [Hxa Hxb]. split_and!; [by constructor|done|].
      intros u v Hu Hv. apply elem_of_cons in Hu as [->|Hu]; [|by apply Hab].
      apply list.Forall_forall with (x := v) in Hxb; [lia|done].
    + intros (Ha & Hb & Hab). apply StronglySorted_inv in Ha as [Ha Hx]. constructor.
      * apply IH. split_and!; [done|done|]. intros u v Hu Hv. apply Hab; [by apply elem_of_cons; right|done].
      * apply Forall_app. split; [done|]. apply list.Forall_forall. intros v Hv.
        assert (v <= x) by (apply Hab; [by apply elem_of_cons; left|done]). lia.
Qed.

Lemma last_above (A : list Z) (s mid : Z) :
  descending A -> mid <= List.last A s -> above A [mid].
Proof.
  destruct A as [|a A _] using rev_ind; [intros _ _ x y Hx%elem_of_nil; done|].
  rewrite last_last. intros Hd Hm x y Hx Hy%list_elem_of_singleton. subst y.
  apply descending_app in Hd as (_ & _ & Ha). apply elem_of_app in Hx as [Hx|Hx%list_elem_of_singleton]; [|lia].
  pose proof (Ha x a Hx ltac:(by apply list_elem_of_singleton)). lia.
Qed.

Lemma above_app_l (a b c : list Z) : above (a ++ b) c <-> above a c /\ above b c.
Proof. unfold above. setoid_rewrite elem_of_app. firstorder. Qed.

Lemma above_app_r (a b c : list Z) : above a (b ++ c) <-> above a b /\ above a c.
Proof. unfold above. setoid_rewrite elem_of_app. firstorder. Qed.

Lemma above_singleton (x : Z) (b : list Z) : above [x] b <-> Forall (fun y => y <= x) b.
Proof. unfold above. rewrite list.Forall_forall. setoid_rewrite list_elem_of_singleton. naive_solver. Qed.

Lemma above_trans (a b : list Z) (x : Z) : above a [x] -> above [x] b -> above a b.
Proof.
  intros Ha Hb u v Hu Hv. pose proof (Ha u x Hu ltac:(by apply list_elem_of_singleton)).
  pose proof (Hb x v ltac:(by apply list_elem_of_singleton) Hv). lia.
Qed.

Lemma descending_singleton (x : Z) : descending [x].
Proof. repeat constructor. Qed.

Lemma merge_loop_spec (s c : Z) (A B B2 gap D rest : list Z) :
  zlen gap = zlen B -> descending A -> descending B -> descending D -> above A D -> above B D ->
  Forall (fun x => x <= s) B ->
  exists C, merge_loop (length B) (c :: B ++ B2) (s :: A ++ gap ++ D ++ rest) (List.last A s) (zlen A) (zlen A + zlen B) =
              Some (s :: C ++ rest) /\ descending C /\ C ≡ₚ A ++ B ++ D.
Proof.
  revert A B2 gap D. induction B as [|b B IH] using rev_ind; intros A B2 gap D Hg HA HB HD HAD HBD Hs.
  - assert (gap = []) as -> by (destruct gap; [done|]; autorewrite with zlist in Hg; pose proof (zlen_nonneg gap); lia).
    exists (A ++ D). cbn [length merge_loop app]. rewrite <- app_assoc. split_and!; [done| |done].
    by apply descending_app.
  - rewrite length_app, Nat.add_comm. cbn [length Nat.add merge_loop].
    rewrite zget_cons_pos, <- app_assoc, zget_app_r by (unfold zlen; lia).
    replace (zget ([b] ++ B2) _) with (Some b)
      by (match goal with |- _ = zget _ ?i => replace i with 0 by (unfold zlen; lia) end; done).
    cbn [mbind option_bind]. apply Forall_app in Hs as [HsB Hsb]. apply Forall_inv in Hsb.
    apply descending_app in HB as (HB & _ & HBb). apply above_app_l in HBD as [HBD HbD].
    assert (gap <> []) as Hgne by (intros ->; autorewrite with zlist in Hg; pose proof (zlen_nonneg B); lia).
    match goal with |- context [merge_shift ?f _] =>
      destruct (merge_shift_spec f s b A gap (D ++ rest)) as (A1 & A2 & gap' & -> & Hg' & HA2 & Hl & E);
        [rewrite length_app; lia|done|done|] end.
    rewrite Hg in E. rewrite E. cbn [mbind option_bind].
    destruct gap' as [|x gap' _] using rev_ind; [autorewrite with zlist in *; pose proof (zlen_nonneg B); lia|].
    rewrite <- !app_assoc, (app_assoc A1 gap'). cbn [app].
    rewrite zset_cell by (autorewrite with zlist in *; lia). cbn [mbind option_bind]. rewrite <- app_assoc.
    apply descending_app in HA as (HA1 & HA2d & HA12). apply above_app_l in HAD as [HA1D HA2D].
    destruct (IH A1 ([b] ++ B2) gap' ([b] ++ A2 ++ D)) as (C & EC & HC & HP).
    + autorewrite with zlist in *. lia.
    + done.
    + done.
    + apply descending_app. split_and!; [apply descending_singleton|by apply descending_app|].
      apply above_app_r. split; [|done]. apply above_singleton. eapply list.Forall_impl; [exact HA2|]. cbn. lia.
    + apply above_app_r. split; [by eapply last_above|]. by apply above_app_r.
    + apply above_app_r. split; [done|]. apply above_app_r. split; [|done].
      eapply above_trans; [exact HBb|]. apply above_singleton. eapply list.Forall_impl; [exact HA2|]. cbn. lia.
    + done.
    + exists C. cbn [app] in EC. autorewrite with zlist. rewrite <- app_assoc in EC.
      replace (zlen A1 + (zlen B + (1 + 0)) - 1) with (zlen A1 + zlen B) by lia. rewrite EC.
      split_and!; [done|done|]. rewrite HP. solve_Permutation.
Qed.

Lemma xmerge_spec (m g : MDB_IDL) (A B : list Z) :
  idl_holds m A -> idl_holds g B -> descending A -> descending B -> Forall (fun x => x < 2 ^ 64) B ->
  zlen A + zlen B <= alloclen m -> alloclen m < 2 ^ 64 ->
  exists m' C, mdb_midl_xmerge m g = Some m' /\ idl_holds m' C /\ descending C /\ C ≡ₚ A ++ B.
Proof.
  intros Hm Hg HA HB HBr Hroom Hs. pose proof (zlen_nonneg A). pose proof (zlen_nonneg B). unfold mdb_midl_xmerge.
  rewrite (holds_count m A Hm), (holds_count g B Hg). cbn [mbind option_bind].
  destruct Hm as (rest & E & L), Hg as (restg & Eg & _). rewrite E in L |- *. rewrite Eg, zset_head.
  cbn [mbind option_bind]. rewrite zget_last by done. cbn [mbind option_bind].
  rewrite (wrap_small 64 (zlen B + _)) by lia. autorewrite with zlist in L.
  destruct (merge_loop_spec (u64 (-1)) (zlen B) A B restg (ztake (zlen B) rest) [] (zdrop (zlen B) rest))
    as (C & EC & HC & HP); try done; [autorewrite with zlist; lia|constructor|..].
  - intros ? ? _ Hy%elem_of_nil. done.
  - intros ? ? _ Hy%elem_of_nil. done.
  - eapply list.Forall_impl; [exact HBr|]. intros x Hx. cbn beta in *. change (u64 (-1)) with (2 ^ 64 - 1). lia.
  - cbn [app] in EC. rewrite ztake_zdrop in EC. rewrite app_nil_r in HP.
    replace (Z.to_nat (zlen B)) with (length B) by (unfold zlen; lia). rewrite Z.add_comm, EC. cbn [mbind option_bind].
    rewrite zset_head. cbn [mbind option_bind]. eexists _, C. split_and!; [done| |done|done].
    assert (zlen C = zlen A + zlen B) as LC by (unfold zlen; rewrite (Permutation_length HP), length_app; lia).
    exists (zdrop (zlen B) rest). cbn [ids alloclen]. rewrite LC. split; [done|].
    autorewrite with zlist. rewrite LC. lia.
Qed.

(** ** ID/pointer lists *)

Definition ascending (l : list MDB_ID2) : Prop := StronglySorted (fun a b => mid a < mid b) l.

(** The fixed array of a transaction's dirty list, holding [es]. *)
Definition id2l_holds (l es : list MDB_ID2) : Prop :=
  exists p rest, l = mk_id2 (zlen es) p :: es ++ rest /\ zlen l = MDB_IDL_UM_MAX + 1.

Lemma Forall_ztake_zget {A} (P : A -> Prop) (l : list A) (k : Z) :
  (forall i e, 0 <= i < k -> zget l i = Some e -> P e) -> Forall P (ztake k l).
Proof.
  intros H. apply Forall_lookup. intros i e He. unfold ztake in He. apply lookup_take_Some in He as [He Hi].
  apply (H (Z.of_nat i)); [lia|]. unfold zget. zif. by rewrite Nat2Z.id.
Qed.

Lemma Forall_zdrop_zget {A} (P : A -> Prop) (l : list A) (k : Z) :
  0 <= k -> (forall i e, k <= i -> zget l i = Some e -> P e) -> Forall P (zdrop k l).
Proof.
  intros Hk H. apply Forall_lookup. intros i e He. unfold zdrop in He. rewrite lookup_drop in He.
  apply (H (k + Z.of_nat i)); [lia|]. unfold zget. zif.
  by replace (Z.to_nat (k + Z.of_nat i)) with (Z.to_nat k + i)%nat by lia.
Qed.

Lemma mid2l_search_spec (l es : list MDB_ID2) (id : Z) :
  id2l_holds l es -> ascending es ->
  exists r, mdb_mid2l_search l id = Some r /\
    (1 <= r <= zlen es /\ (exists e, zget es (r - 1) = Some e /\ mid e = id) \/
     exists P Q, es = P ++ Q /\ r = zlen P + 1 /\ Forall (fun e => mid e < id) P /\ Forall (fun e => id < mid e) Q).
Proof.
  intros (p & rest & -> & Hl) Hs. pose proof (zlen_nonneg es). pose proof (zlen_nonneg rest).
  autorewrite with zlist in Hl. unfold MDB_IDL_UM_MAX in Hl. unfold mdb_mid2l_search. cbn [mbind option_bind zget].
  set (f := fun c => CMP id (mid (default (mk_id2 0 0) (zget es (c - 1))))).
  destruct (search_spec (fun c => x ← zget (mk_id2 (zlen es) p :: es ++ rest) c; Some (CMP id (mid x))) f (zlen es))
    as (r & E & F).
  - intros c Hc. unfold f. rewrite zget_cons_pos, zget_app_l by lia.
    by destruct (zget_is_Some es (c - 1) ltac:(lia)) as [x ->].
  - intros c c' Hc Hc'. unfold f.
    destruct (zget_is_Some es (c - 1) ltac:(lia)) as [x Ex]. destruct (zget_is_Some es (c' - 1) ltac:(lia)) as [y Ey].
    rewrite Ex, Ey. cbn. destruct (decide (c = c')) as [->|Hne]; [simplify_eq; lia|].
    pose proof (sorted_zget _ es (c - 1) (c' - 1) x y Hs ltac:(lia) Ex Ey) as Hxy.
    apply CMP_anti. cbn beta in Hxy. lia.
  - lia.
  - change (zget (mk_id2 (zlen es) p :: es ++ rest) 0) with (Some (mk_id2 (zlen es) p)).
    cbn [mbind option_bind mid]. exists r. split; [done|]. unfold f in F. destruct F as [[Hr F]|(Hr & F1 & F2)].
    + left. split; [done|]. destruct (zget_is_Some es (r - 1) ltac:(lia)) as [x Ex]. rewrite Ex in F. cbn in F.
      exists x. split; [done|]. symmetry. by apply CMP_spec.
    + right. exists (ztake (r - 1) es), (zdrop (r - 1) es). rewrite ztake_zdrop.
      split_and!; [done|autorewrite with zlist; lia| |].
      * apply Forall_ztake_zget. intros i e Hi He. specialize (F1 (i + 1) ltac:(lia)).
        replace (i + 1 - 1) with i in F1 by lia. rewrite He in F1. exact (proj1 (proj1 (proj2 (CMP_spec _ _))) F1).
      * apply Forall_zdrop_zget; [lia|]. intros i e Hi He. specialize (F2 (i + 1)).
        replace (i + 1 - 1) with i in F2 by lia. rewrite He in F2. pose proof (zget_Some _ _ _ He).
        specialize (F2 ltac:(lia)). exact (proj1 (proj2 (proj2 (CMP_spec _ _))) F2).
Qed.

Lemma shift_up_spec (h y : MDB_ID2) (P Q rest : list MDB_ID2) :
  exists z, shift_up (h :: P ++ Q ++ y :: rest) (zlen P + 1) (S (length P + length Q)) =
            Some (h :: P ++ z :: Q ++ rest).
Proof.
  revert y rest. induction Q as [|q Q IH] using rev_ind; intros y rest; cbn [shift_up].
  - exists y. cbn [length app]. replace (_ <? _) with false by (symmetry; apply Z.ltb_ge; unfold zlen; lia). done.
  - rewrite length_app. cbn [length].
    replace (_ <? _) with true by (symmetry; apply Z.ltb_lt; unfold zlen; lia).
    rewrite <- !app_assoc, (app_assoc P). cbn [app].
    rewrite zget_cons_pos, zget_app_r by (autorewrite with zlist; unfold zlen; lia).
    match goal with |- context [zget _ ?i] => replace i with 0 by (autorewrite with zlist; unfold zlen; lia) end.
    change (zget (q :: y :: rest) 0) with (Some q). cbn [mbind option_bind].
    change (q :: y :: rest) with ([q] ++ y :: rest). rewrite (app_assoc (P ++ Q)).
    rewrite zset_cell by (autorewrite with zlist; unfold zlen; lia). cbn [mbind option_bind].
    replace (length P + (length Q + 1))%nat with (S (length P + length Q)) by lia.
    rewrite <- !app_assoc. apply (IH q (q :: rest)).
Qed.

Lemma ascending_insert (P Q : list MDB_ID2) (id : MDB_ID2) :
  ascending (P ++ Q) -> Forall (fun e => mid e < mid id) P -> Forall (fun e => mid id < mid e) Q ->
  ascending (P ++ id :: Q).
Proof.
  unfold ascending. induction P as [|x P IH]; cbn [app]; intros Hs HP HQ; [by constructor|].
  apply StronglySorted_inv in Hs as [Hs Hx]. apply list.Forall_cons in HP as [Hxi HP].
  apply Forall_app in Hx as [HxP HxQ]. constructor; [by apply IH|].
  apply Forall_app. split; [done|]. by constructor.
Qed.

Lemma mid2l_insert_spec (l es : list MDB_ID2) (id : MDB_ID2) :
  id2l_holds l es -> ascending es ->
  (mdb_mid2l_insert l id = Some (-1, l) /\ (mid id ∈ (mid <$> es))) \/
  (mid id ∉ (mid <$> es)) /\
  (zlen es = MDB_IDL_UM_MAX /\ mdb_mid2l_insert l id = Some (-2, l) \/
   zlen es < MDB_IDL_UM_MAX /\ exists l' P Q, mdb_mid2l_insert l id = Some (0, l') /\ es = P ++ Q /\
     id2l_holds l' (P ++ id :: Q) /\ ascending (P ++ id :: Q)).
Proof.
  intros Hl Hs. destruct (mid2l_search_spec l es (mid id) Hl Hs) as (r & E & F). unfold mdb_mid2l_insert.
  rewrite E. cbn [mbind option_bind]. destruct Hl as (p & rest & -> & Hl).
  pose proof (zlen_nonneg es). pose proof (zlen_nonneg rest). autorewrite with zlist in Hl. clear E.
  unfold MDB_IDL_UM_MAX in *.
  destruct F as [(Hr & e & Ee & Eid)|(P & Q & -> & -> & HP & HQ)].
  - left. zif. cbn [zget]. change (zget (_ :: _) 0) with (Some (mk_id2 (zlen es) p)). cbn [mbind option_bind mid].
    zif. rewrite zget_cons_pos, zget_app_l, Ee by lia. cbn [mbind option_bind]. rewrite Eid, Z.eqb_refl.
    split; [done|]. rewrite <- Eid. apply list_elem_of_fmap_2. unfold zget in Ee.
    destruct (r - 1 <? 0); [done|]. by eapply list_elem_of_lookup_2.
  - right. pose proof (zlen_nonneg P). pose proof (zlen_nonneg Q). split.
    { intros (e & He & Hin)%list_elem_of_fmap. apply elem_of_app in Hin as [Hin|Hin].
      - apply list.Forall_forall with (x := e) in HP; [lia|done].
      - apply list.Forall_forall with (x := e) in HQ; [lia|done]. }
    autorewrite with zlist in *. zif. change (zget (_ :: _) 0) with (Some (mk_id2 (zlen P + zlen Q) p)).
    cbn [mbind option_bind mid mptr].
    assert ((if zlen P + 1 <=? zlen P + zlen Q
             then e ← zget (mk_id2 (zlen P + zlen Q) p :: (P ++ Q) ++ rest) (zlen P + 1); Some (mid e =? mid id)
             else Some false) = Some false) as ->.
    { destruct Q as [|q Q]; [autorewrite with zlist; by zif|]. destruct (_ <=? _); [|done].
      rewrite zget_cons_pos, <- app_assoc, zget_app_r by lia. replace (zlen P + 1 - 1 - zlen P) with 0 by lia.
      change (zget ((q :: Q) ++ rest) 0) with (Some q). cbn [mbind option_bind].
      apply Forall_inv in HQ. by zif. }
    cbn [mbind option_bind]. destruct (Z.leb_spec (2 ^ 17 - 1) (zlen P + zlen Q)) as [Hf|Hf].
    { left. split; [lia|done]. }
    right. split; [lia|]. rewrite zset_head. cbn [mbind option_bind].
    destruct rest as [|y rest]; [autorewrite with zlist in Hl; lia|].
    rewrite !wrap_small by (rewrite ?wrap_small; lia).
    replace (Z.to_nat (zlen P + zlen Q + 1)) with (S (length P + length Q)) by (unfold zlen; lia).
    rewrite <- app_assoc. destruct (shift_up_spec (mk_id2 (zlen P + zlen Q + 1) p) y P Q rest) as (z & ->).
    cbn [mbind option_bind]. rewrite zset_cell by done. cbn [mbind option_bind].
    eexists _, P, Q. split_and!; [done|done| |].
    + exists p, rest. rewrite <- app_assoc. autorewrite with zlist in *.
      split; [do 2 f_equal; lia|unfold MDB_IDL_UM_MAX; lia].
    + by apply ascending_insert.
Qed.

Lemma mid2l_append_spec (l es : list MDB_ID2) (id : MDB_ID2) :
  id2l_holds l es ->
  zlen es = MDB_IDL_UM_MAX /\ mdb_mid2l_append l id = Some (-2, l) \/
  zlen es < MDB_IDL_UM_MAX /\ exists l', mdb_mid2l_append l id = Some (0, l') /\ id2l_holds l' (es ++ [id]).
Proof.
  intros (p & rest & -> & Hl). pose proof (zlen_nonneg es). pose proof (zlen_nonneg rest).
  autorewrite with zlist in Hl. unfold mdb_mid2l_append, MDB_IDL_UM_MAX in *.
  change (zget (_ :: _) 0) with (Some (mk_id2 (zlen es) p)). cbn [mbind option_bind mid mptr].
  destruct (Z.leb_spec (2 ^ 17 - 1) (zlen es)) as [Hf|Hf]; [left; split; [lia|done]|].
  right. split; [lia|]. rewrite zset_head. cbn [mbind option_bind].
  destruct rest as [|y rest]; [autorewrite with zlist in Hl; lia|].
  rewrite wrap_small, zset_cell by lia. cbn [mbind option_bind]. eexists. split; [done|].
  exists p, rest. rewrite <- app_assoc. autorewrite with zlist in *. split; [done|unfold MDB_IDL_UM_MAX; lia].
Qed.

(** ** Claims *)

(** On an ID list in descending order, [mdb_midl_search] returns a position
    that holds the ID, or the position where it belongs: everything before it
    is greater and everything from it on is smaller. *)
Theorem midl_search_correct (m : MDB_IDL) (l : list Z) (id : Z)
  (Hm : idl_holds m l) (Hd : descending l) (Hl : zlen l < 2 ^ 32 - 1) :
  exists r, mdb_midl_search m id = Some r /\
    (1 <= r <= zlen l /\ cell (ids m) r = id \/
     1 <= r <= zlen l + 1 /\ (forall c, 1 <= c < r -> id < cell (ids m) c) /\
     (forall c, r <= c <= zlen l -> cell (ids m) c < id)).
Proof.
  destruct (midl_search_spec m l id Hm Hd Hl) as (r & E & [[Hr F]|(Hr & F1 & F2)]); exists r; (split; [done|]).
  - left. split; [done|]. by apply CMP_spec.
  - right. split_and!; [lia|lia|..]; intros c Hc.
    + exact (proj1 (proj1 (proj2 (CMP_spec _ _))) (F1 c Hc)).
    + exact (proj1 (proj2 (proj2 (CMP_spec _ _))) (F2 c Hc)).
Qed.

Definition search_witness_idl : MDB_IDL := mk_idl 6 [5; 20; 15; 9; 4; 2; 77].

Lemma midl_search_correct_witness :
  exists r, mdb_midl_search search_witness_idl 10 = Some r /\
    (1 <= r <= 5 /\ cell (ids search_witness_idl) r = 10 \/
     1 <= r <= 5 + 1 /\ (forall c, 1 <= c < r -> 10 < cell (ids search_witness_idl) c) /\
     (forall c, r <= c <= 5 -> cell (ids search_witness_idl) c < 10)).
Proof.
  apply (midl_search_correct search_witness_idl [20; 15; 9; 4; 2] 10).
  - exists [77]. split; reflexivity.
  - repeat constructor; lia.
  - reflexivity.
Defined.

(** [mdb_midl_xmerge] merges a list in descending order into another one
    with room for both: the result holds the IDs of both, in descending order. *)
Theorem midl_xmerge_correct (m g : MDB_IDL) (A B : list Z)
  (Hm : idl_holds m A) (Hg : idl_holds g B) (HA : descending A) (HB : descending B)
  (HBr : Forall (fun x => x < 2 ^ 64) B) (Hroom : zlen A + zlen B <= alloclen m) (Hs : alloclen m < 2 ^ 64) :
  exists m' C, mdb_midl_xmerge m g = Some m' /\ idl_holds m' C /\ descending C /\ C ≡ₚ A ++ B.
Proof. by apply xmerge_spec. Qed.

Lemma midl_xmerge_correct_witness :
  exists m' C, mdb_midl_xmerge search_witness_idl (mk_idl 1 [1; 12]) = Some m' /\ idl_holds m' C /\ descending C /\
    C ≡ₚ [20; 15; 9; 4; 2] ++ [12].
Proof.
  apply (midl_xmerge_correct search_witness_idl (mk_idl 1 [1; 12]) [20; 15; 9; 4; 2] [12]).
  - exists [77]. split; reflexivity.
  - exists []. split; reflexivity.
  - repeat constructor; lia.
  - repeat constructor.
  - repeat constructor.
  - vm_compute. congruence.
  - reflexivity.
Defined.

(** Growing ID lists never lose or reorder IDs, and fail only when the
    allocator does: appending an ID, another list or the range
    [id + k - 1 .. id] puts exactly these behind the old ones, [need] makes the
    announced room, and a shrunk list of at most [MDB_IDL_UM_MAX] IDs keeps
    them. *)
Theorem midl_append_correct `{Heap} (m src : MDB_IDL) (l la : list Z) (id k num : Z)
  (Hm : idl_holds m l) (Hsrc : idl_holds src la) (Hs : alloclen m < 2 ^ 63) (Hla : zlen la < 2 ^ 31)
  (Hk : 0 <= k < 2 ^ 31) (Hid : 0 <= id /\ id + k <= 2 ^ 64) (Hnum : 0 <= num /\ zlen l + num < 2 ^ 31)
  (Hum : zlen l <= MDB_IDL_UM_MAX) :
  yields (mdb_midl_append m id) (l ++ [id]) (fun m' => alloclen m <= alloclen m') /\
  yields (mdb_midl_append_list m src) (l ++ la) (fun m' => alloclen m <= alloclen m') /\
  yields (mdb_midl_append_range m id k) (l ++ id_range id (Z.to_nat k)) (fun m' => alloclen m <= alloclen m') /\
  yields (mdb_midl_need m num) l (fun m' => zlen l + num <= alloclen m') /\
  idl_holds (mdb_midl_shrink m) l /\
  match mdb_midl_alloc num with
  | Some m' => idl_holds m' [] /\ alloclen m' = num
  | None => malloc_ok ((num + 2) * 8) = false
  end.
Proof.
  destruct Hid, Hnum. split_and!.
  - by apply append_spec.
  - by apply append_list_spec.
  - by apply append_range_spec.
  - by apply need_spec.
  - by apply shrink_spec.
  - by apply alloc_spec.
Qed.

(** A heap that always has memory, filled with zeros. *)
Definition zero_heap : Heap :=
  {| malloc_ok _ := true; fresh k := replicate k 0; fresh_length k := length_replicate k 0 |}.

Lemma midl_append_correct_witness :
  @yields zero_heap (@mdb_midl_append_range zero_heap search_witness_idl 30 3)
    ([20; 15; 9; 4; 2] ++ id_range 30 3) (fun m' => 6 <= alloclen m').
Proof.
  refine (proj1 (proj2 (proj2 (@midl_append_correct zero_heap search_witness_idl (mk_idl 1 [1; 12])
    [20; 15; 9; 4; 2] [12] 30 3 0 _ _ _ _ _ _ _ _)))).
  - exists [77]. split; reflexivity.
  - exists []. split; reflexivity.
  - reflexivity.
  - reflexivity.
  - split; [lia|reflexivity].
  - split; vm_compute; congruence.
  - split; [lia|reflexivity].
  - vm_compute. congruence.
Defined.

(** The dirty list of a transaction stays in strictly ascending order:
    [mdb_mid2l_insert] refuses an ID that is present (-1) and a full list (-2)
    without touching it, and otherwise puts the pair at its place;
    [mdb_mid2l_append] refuses a full list or puts the pair last. *)
Theorem mid2l_insert_correct (l es : list MDB_ID2) (id : MDB_ID2) (Hl : id2l_holds l es) (Hs : ascending es) :
  ((mdb_mid2l_insert l id = Some (-1, l) /\ (mid id ∈ (mid <$> es))) \/
   (mid id ∉ (mid <$> es)) /\
   (zlen es = MDB_IDL_UM_MAX /\ mdb_mid2l_insert l id = Some (-2, l) \/
    zlen es < MDB_IDL_UM_MAX /\ exists l' P Q, mdb_mid2l_insert l id = Some (0, l') /\ es = P ++ Q /\
      id2l_holds l' (P ++ id :: Q) /\ ascending (P ++ id :: Q))) /\
  (zlen es = MDB_IDL_UM_MAX /\ mdb_mid2l_append l id = Some (-2, l) \/
   zlen es < MDB_IDL_UM_MAX /\ exists l', mdb_mid2l_append l id = Some (0, l') /\ id2l_holds l' (es ++ [id])).
Proof. split; [by apply mid2l_insert_spec|by apply mid2l_append_spec]. Qed.

Definition dirty_witness : list MDB_ID2 :=
  [mk_id2 2 0; mk_id2 4 100; mk_id2 9 200] ++ replicate (Z.to_nat 131069) (mk_id2 0 0).

Lemma mid2l_insert_correct_witness :
  zlen [mk_id2 4 100; mk_id2 9 200] = MDB_IDL_UM_MAX /\ mdb_mid2l_append dirty_witness (mk_id2 7 300) = Some (-2, dirty_witness) \/
  zlen [mk_id2 4 100; mk_id2 9 200] < MDB_IDL_UM_MAX /\
    exists l', mdb_mid2l_append dirty_witness (mk_id2 7 300) = Some (0, l') /\
               id2l_holds l' ([mk_id2 4 100; mk_id2 9 200] ++ [mk_id2 7 300]).
Proof.
  refine (proj2 (mid2l_insert_correct dirty_witness [mk_id2 4 100; mk_id2 9 200] (mk_id2 7 300) _ _)).
  - exists 0, (replicate (Z.to_nat 131069) (mk_id2 0 0)). split; [reflexivity|].
    unfold dirty_witness, MDB_IDL_UM_MAX. autorewrite with zlist. lia.
  - repeat constructor; lia.
Defined.
