(* ===== verification/MidlSort.v ===== *)
(** * mdb_midl_sort: the quicksort of midl.c

    The function sorts the cells 1 to [ids[0]] of an ID list in descending
    order: segments of more than [SMALL] cells are partitioned around a median
    of three, the larger half goes on an explicit stack of 64 integers, and
    short segments are sorted by insertion.  Cells are read and written through
    [zget] and [zset]: an index outside of the list or of the stack, or a
    signed overflow, is [None].  The invariant relates cells that do not share
    a pending segment; it is kept by every turn, and the sizes of the pending
    segments bound the stack. *)

From S2P Require Import Prelude Midl.
From Stdlib Require Import Sorted.

Definition SMALL : Z := 8.

Definition MIDL_SWAP (a : list Z) (p q : Z) : option (list Z) :=
  itmp ← zget a p;
  y ← zget a q;
  a ← zset a p y;
  zset a q itmp.

(** [for (i = j-1; i >= 1; i--) { if (ids[i] >= a) break; ids[i+1] = ids[i]; }
    ids[i+1] = a;] *)
Fixpoint insert_cell (ids : list Z) (i : nat) (a : Z) : option (list Z) :=
  match i with
  | O => zset ids 1 a
  | S i' =>
      x ← zget ids (Z.of_nat i);
      if a <=? x then zset ids (Z.of_nat i + 1) a
      else ids ← zset ids (Z.of_nat i + 1) x; insert_cell ids i' a
  end.

(** [for (j = l+1; j <= ir; j++)]; [k] turns are left. *)
Fixpoint insertion_sort (k : nat) (ids : list Z) (j : Z) : option (list Z) :=
  match k with
  | O => Some ids
  | S k' =>
      a ← zget ids j;
      ids ← insert_cell ids (Z.to_nat (j - 1)) a;
      insertion_sort k' ids (j + 1)
  end.

(** [do i++; while (ids[i] > a);] and [do j--; while (ids[j] < a);] *)
Fixpoint scan_up (fuel : nat) (ids : list Z) (i a : Z) : option Z :=
  match fuel with
  | O => None
  | S fuel' => x ← zget ids (i + 1); if a <? x then scan_up fuel' ids (i + 1) a else Some (i + 1)
  end.

Fixpoint scan_down (fuel : nat) (ids : list Z) (j a : Z) : option Z :=
  match fuel with
  | O => None
  | S fuel' => x ← zget ids (j - 1); if x <? a then scan_down fuel' ids (j - 1) a else Some (j - 1)
  end.

Fixpoint partition_loop (fuel : nat) (ids : list Z) (i j a : Z) : option (list Z * Z * Z) :=
  match fuel with
  | O => None
  | S fuel' =>
      i ← scan_up (length ids) ids i a;
      j ← scan_down (length ids) ids j a;
      if j <? i then Some (ids, i, j)
      else ids ← MIDL_SWAP ids i j; partition_loop fuel' ids i j a
  end.

(** A guarded exchange: [if (ids[p] < ids[q]) MIDL_SWAP (ids[p], ids[q]);] *)
Definition order_cells (ids : list Z) (p q : Z) : option (list Z) :=
  x ← zget ids p;
  y ← zget ids q;
  if x <? y then MIDL_SWAP ids p q else Some ids.

(** The partition of cells [l .. ir]: the array and the final [i] and [j]. *)
Definition partition (ids : list Z) (l ir : Z) : option (list Z * Z * Z) :=
  if 2 ^ 31 <=? l + ir then None else
  let k := Z.shiftr (l + ir) 1 in
  ids ← MIDL_SWAP ids k (l + 1);
  ids ← order_cells ids l ir;
  ids ← order_cells ids (l + 1) ir;
  ids ← order_cells ids l (l + 1);
  a ← zget ids (l + 1);
  '(ids, i, j) ← partition_loop (length ids) ids (l + 1) ir a;
  x ← zget ids j;
  ids ← zset ids (l + 1) x;
  ids ← zset ids j a;
  Some (ids, i, j).

(** The outer loop. *)
Fixpoint sort_loop (fuel : nat) (ids istack : list Z) (jstack l ir : Z) : option (list Z) :=
  match fuel with
  | O => None
  | S fuel' =>
      if ir - l <? SMALL then
        ids ← insertion_sort (Z.to_nat (ir - l)) ids (l + 1);
        if jstack =? 0 then Some ids else
        ir ← zget istack jstack;
        l ← zget istack (jstack - 1);
        sort_loop fuel' ids istack (jstack - 2) l ir
      else
        '(ids, i, j) ← partition ids l ir;
        let jstack := jstack + 2 in
        if j - l <=? ir - i + 1 then
          istack ← zset istack jstack ir;
          istack ← zset istack (jstack - 1) i;
          sort_loop fuel' ids istack jstack l (j - 1)
        else
          istack ← zset istack jstack (j - 1);
          istack ← zset istack (jstack - 1) l;
          sort_loop fuel' ids istack jstack i ir
  end.

(** [istack] has [sizeof (int) * CHAR_BIT * 2] entries; an entry is read only
    after it was written. *)
Definition mdb_midl_sort (m : MDB_IDL) : option MDB_IDL :=
  count ← zget (ids m) 0;
  let ir := s32 count in
  a ← sort_loop (S (Z.to_nat (2 * ir + 2))) (ids m) (replicate 64 0) 0 1 ir;
  Some (mk_idl (alloclen m) a).

Example sort_example :
  (m ← mdb_midl_sort (mk_idl 14 [12; 3; 9; 1; 7; 7; 12; 5; 0; 2; 11; 4; 10; 99; 98]); Some (ids m)) =
  Some [12; 12; 11; 10; 9; 7; 7; 5; 4; 3; 2; 1; 0; 99; 98].
Proof. vm_compute. reflexivity. Qed.

(** ** Arrays by their cells *)

Definition upd (a : list Z) (i v : Z) : list Z := <[Z.to_nat i := v]> a.

Lemma get_cell (a : list Z) (i : Z) : 0 <= i < zlen a -> zget a i = Some (cell a i).
Proof. intros Hi. unfold cell. by destruct (zget_is_Some a i Hi) as [x ->]. Qed.

Lemma set_cell (a : list Z) (i v : Z) : 0 <= i < zlen a -> zset a i v = Some (upd a i v).
Proof. apply zset_Some. Qed.

Lemma upd_zlen (a : list Z) (i v : Z) : zlen (upd a i v) = zlen a.
Proof. apply zlen_insert. Qed.
#[export] Hint Rewrite upd_zlen : zlist.

Lemma cell_upd (a : list Z) (i v k : Z) :
  0 <= i < zlen a -> cell (upd a i v) k = if k =? i then v else cell a k.
Proof.
  intros Hi. unfold cell, upd. destruct (Z.eqb_spec k i) as [->|Hne]; [by rewrite zget_insert_eq|].
  by rewrite zget_insert_ne by lia.
Qed.

Lemma upd_lookup (a : list Z) (i v : Z) (k : nat) : 0 <= i < zlen a ->
  upd a i v !! k = if decide (k = Z.to_nat i) then Some v else a !! k.
Proof.
  intros Hi. unfold upd, zlen in *. case_decide as E; [subst; apply list_lookup_insert_eq; lia|].
  by apply list_lookup_insert_ne.
Qed.

Lemma lookup_cell (a : list Z) (i : Z) : 0 <= i < zlen a -> a !! Z.to_nat i = Some (cell a i).
Proof. intros Hi. rewrite <- get_cell by done. unfold zget. by zif. Qed.

(** Exchanging two cells. *)
Definition exch (a : list Z) (p q : Z) : list Z := upd (upd a p (cell a q)) q (cell a p).

Lemma exch_zlen (a : list Z) (p q : Z) : zlen (exch a p q) = zlen a.
Proof. unfold exch. by rewrite !upd_zlen. Qed.
#[export] Hint Rewrite exch_zlen : zlist.

Lemma swap_exch (a : list Z) (p q : Z) :
  0 <= p < zlen a -> 0 <= q < zlen a -> MIDL_SWAP a p q = Some (exch a p q).
Proof.
  intros Hp Hq. unfold MIDL_SWAP. rewrite (get_cell a p), (get_cell a q) by done. cbn [mbind option_bind].
  rewrite set_cell by done. cbn [mbind option_bind]. by rewrite set_cell by by rewrite upd_zlen.
Qed.

Lemma cell_exch (a : list Z) (p q k : Z) : 0 <= p < zlen a -> 0 <= q < zlen a ->
  cell (exch a p q) k = if k =? q then cell a p else if k =? p then cell a q else cell a k.
Proof. intros Hp Hq. unfold exch. by rewrite !cell_upd by (rewrite ?upd_zlen; done). Qed.

Lemma exch_perm (a : list Z) (p q : Z) : 0 <= p < zlen a -> 0 <= q < zlen a -> exch a p q ≡ₚ a.
Proof.
  intros Hp Hq. apply Permutation_inj. split.
  { pose proof (exch_zlen a p q). unfold zlen in *. lia. }
  set (P := Z.to_nat p). set (Q := Z.to_nat q).
  exists (fun i => if decide (i = Q) then P else if decide (i = P) then Q else i). split.
  - intros i j. repeat case_decide; congruence.
  - intros i. unfold exch. rewrite !upd_lookup by (rewrite ?upd_zlen; done). fold P Q.
    repeat case_decide; subst; try done; unfold P, Q; by rewrite lookup_cell.
Qed.

(** [a'] is [a] with the cells [l .. r] rearranged. *)
Record perm_in (l r : Z) (a a' : list Z) : Prop := mk_perm_in {
  pi_len : zlen a' = zlen a;
  pi_perm : a' ≡ₚ a;
  pi_out : forall k, k < l \/ r < k -> cell a' k = cell a k;
  pi_in : forall k, l <= k <= r -> exists k', l <= k' <= r /\ cell a' k = cell a k'
}.

#[export] Instance perm_in_preorder (l r : Z) : PreOrder (perm_in l r).
Proof.
  split.
  - intros a. split; try done. intros k Hk. by exists k.
  - intros a b c [L1 P1 O1 I1] [L2 P2 O2 I2]. split; [congruence|by rewrite P2|intros k Hk; by rewrite O2, O1|].
    intros k Hk. destruct (I2 k Hk) as (k' & Hk' & ->). by apply I1.
Qed.

Lemma perm_in_wider (l r l' r' : Z) (a a' : list Z) :
  l' <= l -> r <= r' -> perm_in l r a a' -> perm_in l' r' a a'.
Proof.
  intros Hl Hr [L P O I]. split; [done|done|intros; apply O; lia|]. intros k Hk.
  destruct (decide (l <= k <= r)) as [H|H]; [destruct (I k H) as (k' & Hk' & E); exists k'; split; [lia|done]|].
  exists k. split; [done|]. apply O. lia.
Qed.

Lemma exch_perm_in (l r p q : Z) (a : list Z) :
  0 <= l -> r < zlen a -> l <= p <= r -> l <= q <= r -> perm_in l r a (exch a p q).
Proof.
  intros Hl Hr Hp Hq. split; [apply exch_zlen|apply exch_perm; lia|..].
  - intros k Hk. rewrite cell_exch by lia. by zif.
  - intros k Hk. rewrite cell_exch by lia. destruct (k =? q); [by exists p|]. destruct (k =? p); [by exists q|by exists k].
Qed.

(** ** Insertion sort *)

Definition sorted_in (l r : Z) (a : list Z) : Prop := forall p q, l <= p <= q -> q <= r -> cell a q <= cell a p.

(** The value lands at [t]; the cells from there to the hole move up by one. *)
Lemma insert_cell_spec (i : nat) (l v : Z) (b : list Z) :
  1 <= l <= Z.of_nat i + 1 -> Z.of_nat i + 1 < zlen b -> l = 1 \/ v <= cell b (l - 1) ->
  exists b' t, insert_cell b i v = Some b' /\ l <= t <= Z.of_nat i + 1 /\ zlen b' = zlen b /\
    (forall k, cell b' k = if k <? t then cell b k else if k =? t then v
                           else if k <=? Z.of_nat i + 1 then cell b (k - 1) else cell b k) /\
    (forall k, t <= k <= Z.of_nat i -> cell b k < v) /\ (l < t -> v <= cell b (t - 1)) /\
    b' ≡ₚ upd b (Z.of_nat i + 1) v.
Proof.
  revert b. induction i as [|i IH]; intros b Hl Hb Hv; cbn [insert_cell].
  - exists (upd b 1 v), 1. rewrite set_cell by lia. split_and!; try done; try lia.
    + apply upd_zlen.
    + intros k. rewrite cell_upd by lia. destruct (Z.ltb_spec k 1), (Z.eqb_spec k 1), (Z.leb_spec k (Z.of_nat 0 + 1)); done || lia.
  - rewrite get_cell by lia. cbn [mbind option_bind]. set (h := Z.of_nat (S i)) in *.
    destruct (Z.leb_spec v (cell b h)) as [Hle|Hgt].
    + exists (upd b (h + 1) v), (h + 1). rewrite set_cell by lia. split_and!; try done; try lia.
      * apply upd_zlen.
      * intros k. rewrite cell_upd by lia. destruct (Z.ltb_spec k (h + 1)), (Z.eqb_spec k (h + 1)), (Z.leb_spec k (h + 1)); done || lia.
      * intros _. by replace (h + 1 - 1) with h by lia.
    + assert (l <= h) as Hlh.
      { destruct (decide (l = h + 1)) as [->|]; [|lia]. replace (h + 1 - 1) with h in Hv by lia. lia. }
      rewrite set_cell by lia. cbn [mbind option_bind]. set (b1 := upd b (h + 1) (cell b h)).
      assert (forall k, cell b1 k = if k =? h + 1 then cell b h else cell b k) as C1 by (intros; apply cell_upd; lia).
      destruct (IH b1) as (b' & t & E & Ht & Hlen & Hc & Hlt & Hge & Hp); [lia|unfold b1; rewrite upd_zlen; lia| |].
      { rewrite C1. zif. done. }
      exists b', t. split_and!; [done|lia|lia|unfold b1 in Hlen; by rewrite upd_zlen in Hlen| | | |].
      * intros k. rewrite Hc, !C1. destruct (Z.ltb_spec k t), (Z.eqb_spec k t), (Z.leb_spec k (Z.of_nat i + 1)),
          (Z.leb_spec k (h + 1)), (Z.eqb_spec k (h + 1)), (Z.eqb_spec (k - 1) (h + 1)); try done; try lia.
        subst k. f_equal. lia.
      * intros k Hk. destruct (decide (k = h)) as [->|]; [lia|]. specialize (Hlt k ltac:(lia)).
        rewrite C1 in Hlt. by replace (k =? h + 1) with false in Hlt by (symmetry; apply Z.eqb_neq; lia).
      * intros Hlt'. specialize (Hge Hlt'). rewrite C1 in Hge.
        by replace (t - 1 =? h + 1) with false in Hge by (symmetry; apply Z.eqb_neq; lia).
      * rewrite Hp. replace (Z.of_nat i + 1) with h by lia.
        rewrite <- (exch_perm (upd b (h + 1) v) h (h + 1)) by (rewrite upd_zlen; lia).
        unfold exch, b1. rewrite !cell_upd by lia. rewrite Z.eqb_refl.
        replace (h =? h + 1) with false by (symmetry; apply Z.eqb_neq; lia).
        unfold upd. rewrite list_insert_insert_ne by lia. rewrite (list_insert_insert_ne _ (Z.to_nat h)) by lia.
        rewrite list_insert_insert_eq. done.
Qed.

(** One turn: the value at [j] joins the sorted cells [l .. j-1]. *)
Lemma insert_turn (a : list Z) (l j : Z) :
  1 <= l < j -> j < zlen a -> sorted_in l (j - 1) a -> l = 1 \/ cell a j <= cell a (l - 1) ->
  exists a', insert_cell a (Z.to_nat (j - 1)) (cell a j) = Some a' /\ perm_in l j a a' /\ sorted_in l j a'.
Proof.
  intros Hl Hj Hs Hv. destruct (insert_cell_spec (Z.to_nat (j - 1)) l (cell a j) a)
    as (a' & t & E & Ht & Hlen & Hc & Hlt & Hge & Hp); [lia|lia|done|].
  rewrite Z2Nat.id in * by lia. replace (j - 1 + 1) with j in * by lia.
  exists a'. split_and!; [done| |].
  - split; [done| | |].
    + rewrite Hp. unfold upd. rewrite list_insert_id by by apply lookup_cell; lia. done.
    + intros k Hk. rewrite Hc. destruct (Z.ltb_spec k t), (Z.eqb_spec k t), (Z.leb_spec k j); done || lia.
    + intros k Hk. rewrite Hc. destruct (Z.ltb_spec k t); [by exists k|]. destruct (Z.eqb_spec k t); [exists j; split; [lia|done]|].
      zif. exists (k - 1). split; [lia|done].
  - intros p q Hpq Hq. rewrite !Hc.
    destruct (Z.ltb_spec p t), (Z.ltb_spec q t), (Z.eqb_spec p t), (Z.eqb_spec q t); try lia; zif;
      try (apply Hs; lia).
    + subst q. assert (cell a (t - 1) <= cell a p) by (apply Hs; lia). specialize (Hge ltac:(lia)). lia.
    + subst p. specialize (Hlt (q - 1) ltac:(lia)). lia.
Qed.

Lemma insertion_sort_spec (k : nat) (a : list Z) (l j : Z) :
  1 <= l < j -> j + Z.of_nat k <= zlen a \/ k = 0%nat -> sorted_in l (j - 1) a ->
  l = 1 \/ (forall q, l <= q < j + Z.of_nat k -> cell a q <= cell a (l - 1)) ->
  exists a', insertion_sort k a j = Some a' /\ perm_in l (j + Z.of_nat k - 1) a a' /\
             sorted_in l (j + Z.of_nat k - 1) a'.
Proof.
  revert a j. induction k as [|k IH]; intros a j Hl Hlen Hs Hv; cbn [insertion_sort].
  - exists a. replace (j + Z.of_nat 0 - 1) with (j - 1) by lia. by split_and!.
  - destruct Hlen as [Hlen|]; [|done]. rewrite get_cell by lia. cbn [mbind option_bind].
    destruct (insert_turn a l j) as (a1 & -> & P1 & S1); [done|lia|done|destruct Hv as [|Hv]; [by left|right; apply Hv; lia]|].
    cbn [mbind option_bind]. destruct (IH a1 (j + 1)) as (a2 & -> & P2 & S2).
    + lia.
    + left. rewrite (pi_len _ _ _ _ P1). lia.
    + by replace (j + 1 - 1) with j by lia.
    + destruct Hv as [|Hv]; [by left|right]. intros q Hq. rewrite (pi_out _ _ _ _ P1 (l - 1)) by lia.
      destruct (decide (q <= j)).
      * destruct (pi_in _ _ _ _ P1 q ltac:(lia)) as (q' & Hq' & ->). apply Hv. lia.
      * rewrite (pi_out _ _ _ _ P1 q) by lia. apply Hv. lia.
    + replace (j + Z.of_nat (S k) - 1) with (j + 1 + Z.of_nat k - 1) by lia. exists a2. split_and!; [done| |done].
      transitivity a1; [|done]. eapply perm_in_wider; [| |exact P1]; lia.
Qed.

(** ** Partition *)

Lemma scan_up_spec (fuel : nat) (a : list Z) (i v M : Z) :
  0 <= i < M -> M < zlen a -> cell a M <= v -> M - i <= Z.of_nat fuel ->
  exists i', scan_up fuel a i v = Some i' /\ i < i' <= M /\ cell a i' <= v /\ (forall k, i < k < i' -> v < cell a k).
Proof.
  revert i. induction fuel as [|fuel IH]; intros i Hi HM Hv Hf; [lia|]. cbn [scan_up].
  rewrite get_cell by lia. cbn [mbind option_bind]. destruct (Z.ltb_spec v (cell a (i + 1))) as [H|H].
  - destruct (decide (i + 1 = M)) as [E|]; [rewrite E in H; lia|].
    destruct (IH (i + 1)) as (i' & -> & Hi' & Hc & Hk); [lia|done|done|lia|]. exists i'. split_and!; try done; try lia.
    intros k Hk'. destruct (decide (k = i + 1)) as [->|]; [done|]. apply Hk. lia.
  - exists (i + 1). split_and!; try done; lia.
Qed.

Lemma scan_down_spec (fuel : nat) (a : list Z) (j v m : Z) :
  0 <= m < j -> j <= zlen a -> v <= cell a m -> j - m <= Z.of_nat fuel ->
  exists j', scan_down fuel a j v = Some j' /\ m <= j' < j /\ v <= cell a j' /\ (forall k, j' < k < j -> cell a k < v).
Proof.
  revert j. induction fuel as [|fuel IH]; intros j Hj Hlen Hv Hf; [lia|]. cbn [scan_down].
  rewrite get_cell by lia. cbn [mbind option_bind]. destruct (Z.ltb_spec (cell a (j - 1)) v) as [H|H].
  - destruct (decide (j - 1 = m)) as [E|]; [rewrite E in H; lia|].
    destruct (IH (j - 1)) as (j' & -> & Hj' & Hc & Hk); [lia|lia|done|lia|]. exists j'. split_and!; try done; try lia.
    intros k Hk'. destruct (decide (k = j - 1)) as [->|]; [done|]. apply Hk. lia.
  - exists (j - 1). split_and!; try done; lia.
Qed.

(** The state at the head of the partition loop. *)
Record part_inv (l ir v i j : Z) (a : list Z) : Prop := mk_part_inv {
  pv_pivot : cell a (l + 1) = v;
  pv_low : forall k, l <= k <= i -> v <= cell a k;
  pv_high : forall k, j <= k <= ir -> cell a k <= v;
  pv_idx : l + 1 <= i <= j /\ l + 2 <= j <= ir /\ i < ir
}.

Lemma partition_loop_spec (fuel : nat) (a : list Z) (l ir v i j : Z) :
  0 <= l -> ir < zlen a -> part_inv l ir v i j a -> j - i < Z.of_nat fuel ->
  exists a' i' j', partition_loop fuel a i j v = Some (a', i', j') /\ perm_in l ir a a' /\
    l + 1 <= j' < i' /\ i' <= ir /\ cell a' (l + 1) = v /\ v <= cell a' j' /\
    (forall k, l <= k < i' -> v <= cell a' k) /\ (forall k, j' < k <= ir -> cell a' k <= v).
Proof.
  intros Hl Hir. revert a i j Hir. induction fuel as [|fuel IH]; intros a i j Hir [Hp Hlo Hhi (Hi & Hj & Hii)] Hf; [lia|].
  cbn [partition_loop].
  destruct (scan_up_spec (length a) a i v (Z.max j (i + 1))) as (i' & -> & Hi' & Hci & Hki);
    [lia|lia|apply Hhi; lia|unfold zlen in *; lia|].
  destruct (scan_down_spec (length a) a j v (Z.min i (j - 1))) as (j' & E & Hj' & Hcj & Hkj);
    [lia|lia|apply Hlo; lia|unfold zlen in *; lia|].
  cbn [mbind option_bind]. rewrite E. cbn [mbind option_bind].
  assert (forall k, l <= k < i' -> v <= cell a k) as Hlo'.
  { intros k Hk. destruct (decide (k <= i)); [apply Hlo; lia|]. specialize (Hki k ltac:(lia)). lia. }
  assert (forall k, j' < k <= ir -> cell a k <= v) as Hhi'.
  { intros k Hk. destruct (decide (j <= k)); [apply Hhi; lia|]. specialize (Hkj k ltac:(lia)). lia. }
  destruct (Z.ltb_spec j' i') as [Hx|Hx].
  - exists a, i', j'. split_and!; try done; lia.
  - rewrite swap_exch by lia. cbn [mbind option_bind].
    assert (forall k, cell (exch a i' j') k = if k =? j' then cell a i' else if k =? i' then cell a j' else cell a k) as C
      by (intros; apply cell_exch; lia).
    destruct (IH (exch a i' j') i' j') as (a' & i2 & j2 & -> & P & R);
      [by rewrite exch_zlen| |lia|].
    + split.
      * rewrite C. zif. done.
      * intros k Hk. rewrite C. destruct (Z.eqb_spec k j'), (Z.eqb_spec k i'); subst; try lia. apply Hlo'. lia.
      * intros k Hk. rewrite C. destruct (Z.eqb_spec k j'), (Z.eqb_spec k i'); subst; try lia. apply Hhi'. lia.
      * lia.
    + exists a', i2, j2. split; [done|]. split; [|exact R].
      transitivity (exch a i' j'); [apply exch_perm_in; lia|done].
Qed.

Lemma order_cells_spec (a : list Z) (l r p q : Z) :
  0 <= l -> r < zlen a -> l <= p <= r -> l <= q <= r -> p <> q ->
  exists a', order_cells a p q = Some a' /\ perm_in l r a a' /\
    cell a' p = Z.max (cell a p) (cell a q) /\ cell a' q = Z.min (cell a p) (cell a q) /\
    (forall k, k <> p -> k <> q -> cell a' k = cell a k).
Proof.
  intros Hl Hr Hp Hq Hne. unfold order_cells. rewrite !get_cell by lia. cbn [mbind option_bind].
  destruct (Z.ltb_spec (cell a p) (cell a q)).
  - rewrite swap_exch by lia. exists (exch a p q). split_and!; [done|by apply exch_perm_in|..];
      intros; rewrite cell_exch by lia; zif; lia.
  - exists a. split_and!; try done; lia.
Qed.

(** What a partition establishes around the value [v]. *)
Record split_at (l ir i j v : Z) (a : list Z) : Prop := mk_split_at {
  sp_idx : l + 1 <= j < i /\ i <= ir;
  sp_left : forall k, l <= k < i -> v <= cell a k;
  sp_right : forall k, j <= k <= ir -> cell a k <= v
}.

Lemma partition_spec (a : list Z) (l ir : Z) :
  1 <= l -> SMALL <= ir - l -> ir < zlen a -> l + ir < 2 ^ 31 ->
  exists a' i j v, partition a l ir = Some (a', i, j) /\ perm_in l ir a a' /\ split_at l ir i j v a'.
Proof.
  intros Hl Hs Hir Ho. unfold SMALL in Hs. unfold partition. zif. rewrite Z.shiftr_div_pow2 by lia.
  change (2 ^ 1) with 2. assert (l + 1 <= (l + ir) / 2 <= ir) as Hk by zdm. set (k := (l + ir) / 2) in *.
  rewrite swap_exch by lia. cbn [mbind option_bind].
  pose proof (exch_perm_in l ir k (l + 1) a ltac:(lia) ltac:(lia) ltac:(lia) ltac:(lia)) as P0.
  set (a0 := exch a k (l + 1)) in *. pose proof (pi_len _ _ _ _ P0).
  destruct (order_cells_spec a0 l ir l ir) as (a1 & -> & P1 & X1 & Y1 & Z1); try lia. pose proof (pi_len _ _ _ _ P1).
  cbn [mbind option_bind].
  destruct (order_cells_spec a1 l ir (l + 1) ir) as (a2 & -> & P2 & X2 & Y2 & Z2); try lia. pose proof (pi_len _ _ _ _ P2).
  cbn [mbind option_bind].
  destruct (order_cells_spec a2 l ir l (l + 1)) as (a3 & -> & P3 & X3 & Y3 & Z3); try lia. pose proof (pi_len _ _ _ _ P3).
  cbn [mbind option_bind]. rewrite (Z2 l) in * by lia. rewrite (Z1 (l + 1)) in * by lia. pose proof (Z3 ir ltac:(lia) ltac:(lia)) as W3.
  rewrite get_cell by lia. cbn [mbind option_bind]. set (v := cell a3 (l + 1)) in *.
  destruct (partition_loop_spec (length a3) a3 l ir v (l + 1) ir) as (a4 & i & j & -> & P4 & Hij & Hi & Hc & Hcj & Hlo & Hhi);
    [lia|lia| |unfold zlen in *; lia|].
  { split; [done| | |lia].
    - intros q Hq. assert (q = l \/ q = l + 1) as [-> | ->] by lia; lia.
    - intros q Hq. assert (q = ir) as -> by lia. lia. }
  cbn [mbind option_bind]. pose proof (pi_len _ _ _ _ P4).
  rewrite get_cell by lia. cbn [mbind option_bind]. rewrite set_cell by lia. cbn [mbind option_bind].
  rewrite set_cell by (rewrite upd_zlen; lia). cbn [mbind option_bind].
  assert (upd (upd a4 (l + 1) (cell a4 j)) j v = exch a4 (l + 1) j) as -> by (unfold exch; by rewrite Hc).
  pose proof (exch_perm_in l ir (l + 1) j a4 ltac:(lia) ltac:(lia) ltac:(lia) ltac:(lia)) as P5.
  exists (exch a4 (l + 1) j), i, j, v. split_and!; [done| |].
  - by rewrite P0, P1, P2, P3, P4.
  - split; [lia| |]; intros q Hq; rewrite cell_exch by lia; rewrite Hc;
      destruct (Z.eqb_spec q j), (Z.eqb_spec q (l + 1)); try lia; (apply Hlo || apply Hhi); lia.
Qed.

(** ** Pending segments *)

Abbreviation segment := (Z * Z)%type.

Definition inside (s : segment) (k : Z) : Prop := fst s <= k <= snd s.
Definition size (s : segment) : Z := snd s - fst s + 1.

Definition apart (s s' : segment) : Prop := snd s < fst s' \/ snd s' < fst s.

(** Two cells that are not in one pending segment are in order. *)
Definition ordered_across (n : Z) (segs : list segment) (a : list Z) : Prop :=
  forall p q, 1 <= p < q -> q <= n -> Forall (fun s => ~ (inside s p /\ inside s q)) segs -> cell a q <= cell a p.

Definition segs_ok (n : Z) (segs : list segment) : Prop :=
  Forall (fun s => 1 <= fst s <= snd s + 1 /\ snd s <= n) segs.

(** A rearrangement inside of a segment keeps the order to the cells outside. *)
Lemma across_outside (n l r p q : Z) (segs : list segment) (a a' : list Z) :
  ordered_across n ((l, r) :: segs) a -> perm_in l r a a' -> 1 <= l -> r <= n -> Forall (apart (l, r)) segs ->
  1 <= p < q -> q <= n -> Forall (fun s => ~ (inside s p /\ inside s q)) segs ->
  ~ (inside (l, r) p /\ inside (l, r) q) -> cell a' q <= cell a' p.
Proof.
  intros Ho P Hl Hr Hap Hpq Hq Hs Hne. unfold inside in *. cbn [fst snd] in *.
  assert (forall k, exists k', cell a' k = cell a k' /\ ((l <= k <= r /\ l <= k' <= r) \/ (k' = k /\ ~ l <= k <= r))) as M.
  { intros k. destruct (decide (l <= k <= r)) as [Hk|Hk].
    - destruct (pi_in _ _ _ _ P k Hk) as (k' & Hk' & ->). exists k'. tauto.
    - exists k. split; [apply (pi_out _ _ _ _ P); lia|by right]. }
  destruct (M p) as (p' & -> & Hp'), (M q) as (q' & -> & Hq'). apply Ho; [lia|lia|].
  constructor; [unfold inside; cbn [fst snd]; lia|].
  rewrite list.Forall_forall in Hs. rewrite list.Forall_forall in Hap. apply list.Forall_forall. intros s Hin.
  specialize (Hs s Hin). specialize (Hap s Hin). unfold inside, apart in *. cbn [fst snd] in *. lia.
Qed.

Lemma across_sorted (n l r : Z) (segs : list segment) (a a' : list Z) :
  ordered_across n ((l, r) :: segs) a -> perm_in l r a a' -> 1 <= l -> r <= n -> Forall (apart (l, r)) segs ->
  sorted_in l r a' -> ordered_across n segs a'.
Proof.
  intros Ho P Hl Hr Hap Hs p q Hpq Hq Hno.
  destruct (decide (l <= p <= r /\ l <= q <= r)) as [Hin|Hout]; [apply Hs; lia|].
  by eapply across_outside with (l := l) (r := r).
Qed.

Lemma across_split (n l r i j v : Z) (segs : list segment) (a a' : list Z) :
  ordered_across n ((l, r) :: segs) a -> perm_in l r a a' -> 1 <= l -> r <= n -> Forall (apart (l, r)) segs ->
  split_at l r i j v a' -> ordered_across n ((l, j - 1) :: (i, r) :: segs) a'.
Proof.
  intros Ho P Hl Hr Hap [Hij Hlo Hhi] p q Hpq Hq Hno.
  apply list.Forall_cons in Hno as [H1 Hno]. apply list.Forall_cons in Hno as [H2 Hno].
  destruct (decide (l <= p <= r /\ l <= q <= r)) as [Hin|Hout].
  - unfold inside in *. cbn [fst snd] in *. specialize (Hlo p). specialize (Hhi q). lia.
  - by eapply across_outside with (l := l) (r := r).
Qed.

Lemma across_swap (n : Z) (s s' : segment) (segs : list segment) (a : list Z) :
  ordered_across n (s :: s' :: segs) a -> ordered_across n (s' :: s :: segs) a.
Proof.
  intros Ho p q Hpq Hq Hno. apply list.Forall_cons in Hno as [H1 Hno]. apply list.Forall_cons in Hno as [H2 Hno].
  apply Ho; [done|done|]. by repeat constructor.
Qed.

Lemma apart_parts (l r i j : Z) (segs : list segment) :
  l <= j <= i -> Forall (apart (l, r)) segs -> i <= r ->
  Forall (apart (l, j - 1)) segs /\ Forall (apart (i, r)) segs.
Proof.
  intros Hij H Hr. rewrite list.Forall_forall in H. split; apply list.Forall_forall; intros s Hs;
    specialize (H s Hs); unfold apart in *; cbn [fst snd] in *; lia.
Qed.

(** *** The stack *)

Fixpoint stack_rep (istack : list Z) (segs : list segment) : Prop :=
  match segs with
  | [] => True
  | s :: segs' => zget istack (2 * zlen segs' + 2) = Some (snd s) /\ zget istack (2 * zlen segs' + 1) = Some (fst s) /\
                  stack_rep istack segs'
  end.

(** The segments halve from one level of the stack to the next. *)
Fixpoint stack_sizes (n : Z) (segs : list segment) : Prop :=
  match segs with
  | [] => True
  | s :: segs' => size s * 2 ^ zlen segs' <= n /\ stack_sizes n segs'
  end.

Lemma stack_rep_write (istack : list Z) (segs : list segment) (k v : Z) :
  stack_rep istack segs -> 2 * zlen segs < k -> stack_rep (upd istack k v) segs.
Proof.
  induction segs as [|s segs IH]; [done|]. cbn [stack_rep]. intros (H1 & H2 & H3) Hk. autorewrite with zlist in Hk.
  pose proof (zlen_nonneg segs). split_and!; [| |apply IH; [done|lia]]; unfold upd; by rewrite zget_insert_ne by lia.
Qed.

Lemma stack_push (istack : list Z) (segs : list segment) (l r : Z) :
  55 <= zlen istack -> stack_rep istack segs -> zlen segs < 27 ->
  exists st, (s1 ← zset istack (2 * zlen segs + 2) r; zset s1 (2 * zlen segs + 2 - 1) l) = Some st /\
    zlen st = zlen istack /\ stack_rep st ((l, r) :: segs).
Proof.
  intros Hl Hrep Hd. pose proof (zlen_nonneg segs). rewrite set_cell by lia. cbn [mbind option_bind].
  rewrite set_cell by (rewrite upd_zlen; lia). eexists. split; [done|]. split; [by rewrite !upd_zlen|].
  cbn [stack_rep fst snd]. replace (2 * zlen segs + 2 - 1) with (2 * zlen segs + 1) by lia. split_and!.
  - unfold upd. rewrite zget_insert_ne by lia. apply zget_insert_eq. lia.
  - apply zget_insert_eq. fold (upd istack (2 * zlen segs + 2) r). rewrite upd_zlen. lia.
  - apply stack_rep_write; [|lia]. apply stack_rep_write; [done|lia].
Qed.

Fixpoint pending (segs : list segment) : Z :=
  match segs with
  | [] => 0
  | s :: segs' => 2 * size s + 1 + pending segs'
  end.

Lemma pending_nonneg (n : Z) (segs : list segment) : segs_ok n segs -> 0 <= pending segs.
Proof. induction 1 as [|s segs Hs Hok IH]; cbn [pending]; [lia|]. unfold size. lia. Qed.

(** The state at the head of the outer loop. *)
Record sort_inv (n : Z) (a istack : list Z) (jstack l ir : Z) (segs : list segment) : Prop := mk_sort_inv {
  si_segs : segs_ok n ((l, ir) :: segs);
  si_apart : ForallOrdPairs apart ((l, ir) :: segs);
  si_order : ordered_across n ((l, ir) :: segs) a;
  si_stack : 55 <= zlen istack /\ stack_rep istack segs /\ jstack = 2 * zlen segs;
  si_sizes : stack_sizes n ((l, ir) :: segs)
}.

(** A short segment. *)
Lemma small_segment (n l ir : Z) (segs : list segment) (a : list Z) :
  segs_ok n ((l, ir) :: segs) -> Forall (apart (l, ir)) segs -> ordered_across n ((l, ir) :: segs) a -> n < zlen a ->
  exists a', insertion_sort (Z.to_nat (ir - l)) a (l + 1) = Some a' /\ perm_in l ir a a' /\ ordered_across n segs a'.
Proof.
  intros Hok Hap Ho Hn. apply list.Forall_cons in Hok as [Hs Hok]. cbn [fst snd] in Hs.
  assert (exists a', insertion_sort (Z.to_nat (ir - l)) a (l + 1) = Some a' /\ perm_in l ir a a' /\ sorted_in l ir a')
    as (a' & E & P & S).
  { destruct (decide (ir <= l)) as [Hle|Hgt].
    - replace (Z.to_nat (ir - l)) with 0%nat by lia. exists a. split_and!; [done|done|].
      intros p q Hp Hq. assert (p = q) as -> by lia. lia.
    - destruct (insertion_sort_spec (Z.to_nat (ir - l)) a l (l + 1)) as (a' & E & P & S).
      + lia.
      + left. lia.
      + intros p q Hp Hq. assert (p = q) as -> by lia. lia.
      + destruct (decide (l = 1)) as [|Hne]; [by left|right]. intros q Hq. apply Ho; [lia|lia|].
        constructor; [unfold inside; cbn; lia|]. rewrite list.Forall_forall in Hap. apply list.Forall_forall.
        intros s Hin. specialize (Hap s Hin). unfold inside, apart in *. cbn [fst snd] in *. lia.
      + replace (l + 1 + Z.of_nat (Z.to_nat (ir - l)) - 1) with ir in P, S by lia. by exists a'. }
  exists a'. split_and!; [done|done|]. eapply across_sorted; try done; lia.
Qed.

(** After a push: the smaller part is current, the larger one on the stack. *)
Lemma push_inv (n l r l' r' s : Z) (a st : list Z) (segs : list segment) :
  1 <= l <= r + 1 -> r <= n -> 1 <= l' <= r' + 1 -> r' <= n -> segs_ok n segs ->
  r < l' \/ r' < l -> Forall (apart (l, r)) segs -> Forall (apart (l', r')) segs -> ForallOrdPairs apart segs ->
  ordered_across n ((l, r) :: (l', r') :: segs) a ->
  55 <= zlen st -> stack_rep st ((l', r') :: segs) -> stack_sizes n segs ->
  s * 2 ^ zlen segs <= n -> r - l + 1 <= r' - l' + 1 -> r - l + 1 + (r' - l' + 1) <= s ->
  sort_inv n a st (2 * zlen segs + 2) l r ((l', r') :: segs).
Proof.
  intros Hl Hr Hl' Hr' Hok Hd Ha Ha' Hap Ho Hst Hrep Hsz Hs Hle Hsum. pose proof (zlen_nonneg segs).
  assert (0 < 2 ^ zlen segs) as Hpos by (apply Z.pow_pos_nonneg; lia). split.
  - constructor; [cbn; lia|]. constructor; [cbn; lia|done].
  - constructor; [by constructor|]. by constructor.
  - done.
  - autorewrite with zlist. split_and!; [done|done|lia].
  - cbn [stack_sizes]. unfold size. cbn [fst snd]. autorewrite with zlist.
    rewrite Z.pow_add_r by lia. split_and!; [nia|nia|done].
Qed.

Lemma sort_loop_spec (fuel : nat) (n : Z) (a istack : list Z) (jstack l ir : Z) (segs : list segment) :
  0 <= n < 2 ^ 30 -> n < zlen a -> sort_inv n a istack jstack l ir segs ->
  pending ((l, ir) :: segs) < Z.of_nat fuel ->
  exists a', sort_loop fuel a istack jstack l ir = Some a' /\ perm_in 1 n a a' /\ sorted_in 1 n a'.
Proof.
  intros Hn. revert a istack jstack l ir segs. induction fuel as [|fuel IH];
    intros a istack jstack l ir segs Hlen [Hok Hap Ho (Hst & Hrep & Hjs) Hsz] Hf.
  { pose proof (pending_nonneg n _ Hok). lia. }
  pose proof Hok as Hok'. apply list.Forall_cons in Hok as [Hs Hok]. inversion_clear Hap as [|? ? Hap1 Hap2].
  destruct Hsz as [Hsz1 Hsz2]. cbn [fst snd pending] in *. unfold size in Hf, Hsz1. cbn [fst snd] in Hf, Hsz1.
  pose proof (zlen_nonneg segs). cbn [sort_loop]. unfold SMALL. destruct (Z.ltb_spec (ir - l) 8) as [Hsm|Hbig].
  - destruct (small_segment n l ir segs a) as (a1 & -> & P1 & O1); try done. cbn [mbind option_bind].
    assert (perm_in 1 n a a1) as P1' by (eapply perm_in_wider; [| |exact P1]; lia).
    destruct segs as [|[l' r'] segs].
    + rewrite Hjs. cbn. exists a1. split_and!; [done|done|]. intros p q Hpq Hq.
      destruct (decide (p = q)) as [->|]; [lia|]. apply O1; [lia|done|constructor].
    + autorewrite with zlist in Hjs. pose proof (zlen_nonneg segs). zif. destruct Hrep as (R1 & R2 & R3).
      replace jstack with (2 * zlen segs + 2) by lia. rewrite R1.
      replace (2 * zlen segs + 2 - 1) with (2 * zlen segs + 1) by lia. rewrite R2. cbn [mbind option_bind fst snd].
      replace (2 * zlen segs + 2 - 2) with (2 * zlen segs) by lia.
      destruct (IH a1 istack (2 * zlen segs) l' r' segs) as (a' & -> & P2 & S2).
      * by rewrite (pi_len _ _ _ _ P1).
      * split; try done.
      * cbn [pending] in *. lia.
      * exists a'. split_and!; [done|by transitivity a1|done].
  - destruct (partition_spec a l ir) as (a1 & i & j & v & -> & P1 & Sp); [lia|unfold SMALL; lia|lia|lia|].
    cbn [mbind option_bind]. pose proof (sp_idx _ _ _ _ _ _ Sp) as Hij.
    assert (perm_in 1 n a a1) as P1' by (eapply perm_in_wider; [| |exact P1]; lia).
    pose proof (across_split n l ir i j v segs a a1 Ho P1 ltac:(lia) ltac:(lia) Hap1 Sp) as O1.
    destruct (apart_parts l ir i j segs ltac:(lia) Hap1 ltac:(lia)) as [Hapl Hapr].
    assert (zlen segs < 27) as Hd.
    { destruct (Z.ltb_spec (zlen segs) 27) as [|Hge]; [done|].
      assert (2 ^ 27 <= 2 ^ zlen segs) by (apply Z.pow_le_mono_r; lia). nia. }
    assert (0 < 2 ^ zlen segs) as Hpos by (apply Z.pow_pos_nonneg; lia).
    rewrite Hjs. destruct (Z.leb_spec (j - l) (ir - i + 1)) as [Hc|Hc].
    + destruct (stack_push istack segs i ir Hst Hrep ltac:(lia)) as (st & E & Hst' & Hrep').
      destruct (zset istack _ ir) as [s1|]; [|done]. cbn [mbind option_bind] in *. rewrite E. cbn [mbind option_bind].
      destruct (IH a1 st (2 * zlen segs + 2) l (j - 1) ((i, ir) :: segs)) as (a' & -> & P2 & S2).
      * by rewrite (pi_len _ _ _ _ P1).
      * apply (push_inv n l (j - 1) i ir (ir - l + 1)); try done; lia.
      * cbn [pending]. unfold size. cbn [fst snd]. lia.
      * exists a'. split_and!; [done|by transitivity a1|done].
    + destruct (stack_push istack segs l (j - 1) Hst Hrep ltac:(lia)) as (st & E & Hst' & Hrep').
      destruct (zset istack _ (j - 1)) as [s1|]; [|done]. cbn [mbind option_bind] in *. rewrite E. cbn [mbind option_bind].
      destruct (IH a1 st (2 * zlen segs + 2) i ir ((l, j - 1) :: segs)) as (a' & -> & P2 & S2).
      * by rewrite (pi_len _ _ _ _ P1).
      * apply across_swap in O1. apply (push_inv n i ir l (j - 1) (ir - l + 1)); try done; lia.
      * cbn [pending]. unfold size. cbn [fst snd]. lia.
      * exists a'. split_and!; [done|by transitivity a1|done].
Qed.

Lemma zget_of_cell (a a' : list Z) (k : Z) :
  zlen a' = zlen a -> 0 <= k -> cell a' k = cell a k -> zget a' k = zget a k.
Proof.
  intros Hl Hk E. destruct (decide (k < zlen a)).
  - rewrite !get_cell by lia. by rewrite E.
  - unfold zget. zif. rewrite !lookup_ge_None_2 by (unfold zlen in *; lia). done.
Qed.

Lemma sorted_of_zget (l : list Z) :
  (forall i j x y, 0 <= i < j -> zget l i = Some x -> zget l j = Some y -> y <= x) -> descending l.
Proof.
  induction l as [|a l IH]; intros H; [constructor|]. constructor.
  - apply IH. intros i j x y Hij Hx Hy. apply (H (i + 1) (j + 1)); [lia|..];
      rewrite zget_cons_pos by lia; [by replace (i + 1 - 1) with i by lia|by replace (j + 1 - 1) with j by lia].
  - apply Forall_lookup. intros k y Hy. assert (y <= a); [|lia]. apply (H 0 (Z.of_nat k + 1)); [lia|done|].
    rewrite zget_cons_pos by lia. replace (Z.of_nat k + 1 - 1) with (Z.of_nat k) by lia.
    unfold zget. zif. by rewrite Nat2Z.id.
Qed.

(** The cells of a list that was rearranged between 1 and its length. *)
Lemma rearranged (A rest a' : list Z) :
  perm_in 1 (zlen A) (zlen A :: A ++ rest) a' -> sorted_in 1 (zlen A) a' ->
  exists C, a' = zlen A :: C ++ rest /\ C ≡ₚ A /\ descending C.
Proof.
  intros [Hl Hp Ho Hi] Hs. pose proof (zlen_nonneg A). destruct a' as [|x a']; [by autorewrite with zlist in Hl; pose proof (zlen_nonneg rest); lia|].
  assert (x = zlen A) as -> by (specialize (Ho 0 ltac:(lia)); done).
  assert (zdrop (zlen A) a' = rest) as E.
  { apply list_eq. intros i. specialize (Ho (zlen A + Z.of_nat i + 1) ltac:(lia)).
    apply zget_of_cell in Ho; [|done|lia]. rewrite !zget_cons_pos, zget_app_r in Ho by lia.
    unfold zget, zdrop, zlen in *. rewrite lookup_drop.
    destruct (Z.ltb_spec (Z.of_nat (length A) + Z.of_nat i + 1 - 1) 0); [lia|].
    destruct (Z.ltb_spec (Z.of_nat (length A) + Z.of_nat i + 1 - 1 - Z.of_nat (length A)) 0); [lia|].
    replace (Z.to_nat (Z.of_nat (length A) + Z.of_nat i + 1 - 1)) with (Z.to_nat (Z.of_nat (length A)) + i)%nat in Ho by lia.
    rewrite Ho. f_equal. lia. }
  exists (ztake (zlen A) a'). rewrite <- E at 1. rewrite ztake_zdrop. split; [done|].
  rewrite <- (ztake_zdrop (zlen A) a'), E in Hp. apply Permutation_cons_inv, Permutation_app_inv_r in Hp.
  split; [done|]. apply sorted_of_zget. intros i j u w Hij Hu Hw.
  assert (j < zlen A) as Hj by (pose proof (zget_Some _ _ _ Hw) as Hz; autorewrite with zlist in Hz; lia).
  rewrite zget_ztake in Hu, Hw by lia.
  specialize (Hs (i + 1) (j + 1) ltac:(lia) ltac:(lia)). unfold cell in Hs. rewrite !zget_cons_pos in Hs by lia.
  replace (i + 1 - 1) with i in Hs by lia. replace (j + 1 - 1) with j in Hs by lia. by rewrite Hu, Hw in Hs.
Qed.

(** A list is sorted with any stack of 55 entries, in at most twice its length
    turns of the outer loop and two more. *)
Lemma sort_run (m : MDB_IDL) (A istack : list Z) (fuel : nat) :
  idl_holds m A -> zlen A < 2 ^ 30 -> 55 <= zlen istack -> 2 * zlen A + 1 < Z.of_nat fuel ->
  exists rest C, sort_loop fuel (ids m) istack 0 1 (zlen A) = Some (zlen A :: C ++ rest) /\
    ids m = zlen A :: A ++ rest /\ C ≡ₚ A /\ descending C.
Proof.
  intros (rest & E & L) Hs Hst Hf. pose proof (zlen_nonneg A). pose proof (zlen_nonneg rest).
  destruct (sort_loop_spec fuel (zlen A) (ids m) istack 0 1 (zlen A) []) as (a' & -> & P & S).
  - lia.
  - rewrite E. autorewrite with zlist. lia.
  - split.
    + constructor; [cbn; lia|constructor].
    + repeat constructor.
    + intros p q Hpq Hq Hno. apply Forall_inv in Hno. unfold inside in Hno. cbn in Hno. lia.
    + done.
    + cbn [stack_sizes]. unfold size. cbn [fst snd]. rewrite zlen_nil. change (2 ^ 0) with 1. split; [lia|done].
  - cbn [pending]. unfold size. cbn [fst snd]. lia.
  - rewrite E in P. destruct (rearranged A rest a' P S) as (C & -> & HP & HC). by exists rest, C.
Qed.

(** ** Claims *)

(** C22: [mdb_midl_sort] returns on every list of less than [2^30] IDs: the
    cells hold the same IDs in descending order, in the same block; no index
    leaves the list or the stack and no signed sum overflows. *)
Theorem midl_sort_correct (m : MDB_IDL) (A : list Z) (Hm : idl_holds m A) (Hs : zlen A < 2 ^ 30) :
  exists m' C, mdb_midl_sort m = Some m' /\ alloclen m' = alloclen m /\ idl_holds m' C /\ C ≡ₚ A /\ descending C.
Proof.
  pose proof (zlen_nonneg A). unfold mdb_midl_sort. rewrite (holds_count m A Hm). cbn [mbind option_bind].
  assert (s32 (zlen A) = zlen A) as -> by (unfold swrap; rewrite Z.mod_small; lia).
  destruct (sort_run m A (replicate 64 0) (S (Z.to_nat (2 * zlen A + 2))) Hm Hs) as (rest & C & -> & E & HP & HC);
    [done|lia|]. cbn [mbind option_bind]. eexists _, C. split_and!; [done|done| |done|done].
  assert (zlen C = zlen A) as LC by (unfold zlen; by rewrite (Permutation_length HP)).
  destruct Hm as (rest' & E' & L). exists rest. cbn [ids alloclen]. rewrite LC. split; [done|].
  rewrite <- L, E. autorewrite with zlist. by rewrite LC.
Qed.

Definition sort_witness_idl : MDB_IDL := mk_idl 14 [12; 3; 9; 1; 7; 7; 12; 5; 0; 2; 11; 4; 10; 99; 98].

Lemma midl_sort_correct_witness :
  exists m' C, mdb_midl_sort sort_witness_idl = Some m' /\ alloclen m' = alloclen sort_witness_idl /\ idl_holds m' C /\
    C ≡ₚ [3; 9; 1; 7; 7; 12; 5; 0; 2; 11; 4; 10] /\ descending C.
Proof.
  apply (midl_sort_correct sort_witness_idl).
  - exists [99; 98]. split; reflexivity.
  - reflexivity.
Defined.

(** C23: The outer loop of [mdb_midl_sort] ends within [2 n + 2] turns for [n]
    IDs, and 55 of the 64 entries of [istack] are enough: the larger part is
    always the one that waits, so the waiting segments halve from level to
    level. *)
Theorem midl_sort_bounds (m : MDB_IDL) (A istack : list Z) (fuel : nat)
  (Hm : idl_holds m A) (Hs : zlen A < 2 ^ 30) (Hst : 55 <= zlen istack) (Hf : 2 * zlen A + 2 <= Z.of_nat fuel) :
  exists a, sort_loop fuel (ids m) istack 0 1 (zlen A) = Some a.
Proof.
  destruct (sort_run m A istack fuel Hm Hs Hst ltac:(lia)) as (rest & C & E & _). by eexists.
Qed.

Lemma midl_sort_bounds_witness :
  exists a, sort_loop 26 (ids sort_witness_idl) (replicate 55 7) 0 1 12 = Some a.
Proof.
  apply (midl_sort_bounds sort_witness_idl [3; 9; 1; 7; 7; 12; 5; 0; 2; 11; 4; 10]).
  - exists [99; 98]. split; reflexivity.
  - reflexivity.
  - vm_compute. congruence.
  - vm_compute. congruence.
Defined.
